(* ===== verification/_CoqProject ===== *)
-Q . S2P
Prelude.v
Checksum.v
KString.v
UserStd.v
Pmm.v
Process.v
Sched.v
Cred.v
Signal.v
Ring.v
Pipe.v
Tty.v
Kheap.v
Vm.v
Mmap.v
Malloc.v
Disk.v
Dev.v
Journal.v
BlockCache.v
Ext2.v
Ext2Dir.v
Vfs.v
Elf.v
Epoll.v
Files.v
Exec.v
Life.v
Calls.v
Stdio.v
Poll.v
Net.v
Ip.v
Tcp.v
Socket.v
