(* ===== verification/Prelude.v ===== *)
(** * HobbyOS: verification library

    HobbyOS is a 64-bit kernel in C (src/kernel) with a small user library
    (src/user/lib).  This library translates its components into definitions that
    compute, and proves what makes them correct.  Each file has one module of the
    same name; the comment at its top names the source files it models.

    ** The program and the files that model it

    Memory.  Pmm: the page allocator (memory/pmm.c).  Kheap: the kernel heap
    (memory/kheap.c).  Vm: page tables, address spaces, copy on write, the reverse
    map and swap (memory/vmm.c, user_vm.c, rmap.c, swap.c).  Mmap: memory areas, the
    page fault handler and the system calls on them (memory/mmap.c,
    interrupts/interrupts.c).

    Processes.  Process: the control block and the table (process/process.c).
    Sched: the ready queue (scheduler/scheduler.c).  Signal: signal/signal.c.  Cred:
    permissions (security/cred.c).  Elf: the program loader (elf/elf_loader.c).  Exec:
    exec, execv and the creation of processes (process/user_process.c).  Files and
    Life: descriptors, fork, exit and wait.

    Storage.  Disk: sectors and crashes (drivers/ata.c).  Journal: fs/journal.c.
    BlockCache: drivers/blockcache.c.  Ext2 and Ext2Dir: the disk file system
    (fs/ext2.c).  Vfs: nodes, files in memory, device files and process files
    (fs/vfs.c, ramfs.c, devfs.c, procfs.c).  Calls: the system calls on files
    (syscall/syscall.c).

    Devices and waiting.  Ring: the byte queue that pipes, connections and the
    keyboard share.  Pipe: fs/pipe.c.  Tty: terminal and keyboard.  Dev: the device
    registry and the small devices.  Epoll and Poll: fs/epoll.c, fs/poll.c, select
    and the timer tick.

    Network.  Checksum, Net, Ip, Tcp and Socket: from the ring of the card
    (drivers/e1000.c) over Ethernet, ARP, IPv4, ICMP, UDP and TCP to the sockets
    (src/kernel/net).

    User library.  KString: string.c of the kernel and of the library.  UserStd:
    numbers and sorting (stdlib.c).  Malloc: the heap (malloc.c).  Stdio: formatted
    output and buffered files (stdio.c, stdio_file.c).

    ** How the code is translated

    Integers are [Z], cut to their width where an operation can leave it ([u8] to
    [u64], [s32]).  Arrays are lists, structs are records, static variables are the
    fields of a state record, and pointers into a table are indices.  Function
    pointers are constructors of an inductive type.  A call that puts its caller to
    sleep returns no value and is entered again when the caller is woken.  Strings
    are lists of characters.  Bytes and strings of user memory are arguments of a
    system call, and what it stores there is part of its result.

    State grows with the layers: [Sched.sched] is part of [Vm.vm], which is part of
    [Files.kern]; [Exec.world] and [Calls.sys] add the file systems to it.  The disk
    device of Dev and the file system of Ext2 each have their own sectors here.

    Interfaces are type classes.  [ByteQueue] (Ring) is what users of a ring rely
    on.  [BrkOps] and [BrkLaws] (Malloc) are the brk call under the user heap; the
    brk of Mmap satisfies them.  [FileCalls] and [FileLaws] (Stdio) are read and lseek under a
    stream; the calls of Calls satisfy them for files on disk.  [SocketOps], [SocketLaws]
    (Files) and [SocketIO] (Calls) stand for the sockets below descriptors.  Their
    instances are the system without sockets; the sockets of Socket run in the
    state of the network and are not an instance.

    ** What the theorems show

    Allocators hand out memory that is free and disjoint, in every history of calls
    (Pmm, Kheap, Malloc).  Page faults, copy on write, loading and exec give a
    program the memory it should see (Vm, Mmap, Elf, Exec).  The ready queue is a
    fair queue; descriptors count the ends of pipes; fork, exit and wait agree
    (Sched, Files, Life).  A crash during a commit leaves the old or the new
    contents (Journal); the cache is the disk (BlockCache); directories are maps, and
    files give back what was written, also after a fresh mount (Ext2, Ext2Dir) and
    through the system calls (Calls).  Opening, mkdir and unlink follow the
    permission bits.  Pipes and connections deliver a prefix of the bytes sent;
    datagrams, pings and segments arrive; buffers are released (Pipe, Tcp, Ip,
    Socket).  The library sorts, converts, prints and reads as it should (UserStd,
    KString, Stdio).  Theorems about errors state what the code does where it does
    not do what it means to, such as a write beyond the single indirect block, or
    truncation without permission to write.

    A theorem with hypotheses is followed by a lemma [..._witness] that applies it
    to a concrete state.

    ** Loops

    Loops over a range recurse on its length.  Other loops have fuel.  Where the
    code always ends, the fuel bounds its turns: the size of a file or buffer (each
    turn moves at least a byte), the length of a format, 65 for the digits of a
    64-bit number, the number of blocks of a heap; the specifications are proved
    with that fuel.  Where the code may not end, as on a damaged directory, running
    out of fuel is a result of its own ([Ext2Dir.Running]), and so is leaving the
    memory the walk is about ([Ext2Dir.Stray], [Vfs.Wild]); the theorems show that
    neither happens on well-formed data.  The loop of sendfile has fuel for one byte
    a turn; nothing is proved about it.

    ** Not modelled

    Boot code, descriptor tables, interrupt entry and port input and output (boot,
    arch/x86_64, vga.c, pci.c, pit.c, the command sequences of ata.c, e1000.c and
    mouse.c) are instructions of the machine.  The kernel shell, debug output,
    kernel.c and the driver table print or call what is modelled elsewhere.  The
    page cache and the user copy helpers have no callers that do work.  The socket
    system calls and fcntl, and calls that return one field, are thin cases of
    syscall.c.  The user programs, the window manager, the dynamic linker,
    floating point and the stubs around the trap instruction are outside the
    library.  The C compiler under user/tcc is third-party code.  There is one
    processor and no preemption inside the kernel: interrupts are separate steps. *)

From stdpp Require Import prelude.
From Stdlib Require Import ZArith Lia.

Declare Scope hobby_scope.
Delimit Scope hobby_scope with hobby.
Local Open Scope Z_scope.

(** ** Fixed-width integers

    [uint8_t] ... [uint64_t] values are [Z]; every C operation that can leave
    the range is followed by the truncation written out here
    (kernel/common.h, the typedef block). *)

Definition u8 (z : Z) : Z := z mod 256.
Definition u16 (z : Z) : Z := z mod 65536.
Definition u32 (z : Z) : Z := z mod 4294967296.
Definition u64 (z : Z) : Z := z mod 18446744073709551616.

(** Conversion to [int] (two's complement, 32 bits). *)
Definition s32 (z : Z) : Z :=
  let r := u32 z in if r <? 2147483648 then r else r - 4294967296.

Definition PAGE_SIZE : Z := 4096.
Definition KERNEL_VMA : Z := 0xFFFFFFFF80000000.
Definition PHYS_MAP_BASE : Z := 0xFFFF800000000000.

(** [x & ~(PAGE_SIZE - 1)] and [(x + PAGE_SIZE - 1) & ~(PAGE_SIZE - 1)]
    on [uint64_t]: the mask is an [int] and sign-extends. *)
Definition page_down (x : Z) : Z := Z.land x (Z.lnot 4095).
Definition page_up (x : Z) : Z := page_down (u64 (x + 4095)).

(** ** Arrays

    A C array is a list; reading is total with the element type's default,
    writing out of range changes nothing.  Every use inside the development is
    shown to stay in range where the code relies on it. *)

Definition zget {A} `{Inhabited A} (l : list A) (i : Z) : A := l !!! Z.to_nat i.
Definition zset {A} (l : list A) (i : Z) (x : A) : list A := <[Z.to_nat i := x]> l.

(** [memcpy(dst + off, src, len)] and the bytes [off .. off + n) of a buffer. *)
Definition blit {A} (dst : list A) (off : Z) (src : list A) : list A :=
  take (Z.to_nat off) dst ++ src ++ drop (Z.to_nat off + length src) dst.
Definition slice {A} (l : list A) (off n : Z) : list A :=
  take (Z.to_nat n) (drop (Z.to_nat off) l).

(** First index satisfying a test: the scan
    [for (i = 0; i < N; i++) if (p(tab[i])) return i;]. *)
Fixpoint find_index {A} (p : A -> bool) (l : list A) : option nat :=
  match l with
  | [] => None
  | x :: l' => if p x then Some 0%nat else S <$> find_index p l'
  end.

(** Number of elements satisfying a test. *)
Fixpoint countb {A} (p : A -> bool) (l : list A) : Z :=
  match l with
  | [] => 0
  | x :: l' => Z.b2z (p x) + countb p l'
  end.

(** [for (i = 0; i < n; i++) st = body(i, st);] *)
Fixpoint for_loop {S} (n : nat) (i : nat) (body : nat -> S -> S) (st : S) : S :=
  match n with
  | O => st
  | S n' => for_loop n' (Datatypes.S i) body (body i st)
  end.

(** The same with an early exit: the loop stops at the first [false]. *)
Fixpoint for_while {S} (n : nat) (i : nat) (body : nat -> S -> S * bool) (st : S) : S * bool :=
  match n with
  | O => (st, true)
  | S n' =>
      let '(st, ok) := body i st in
      if ok then for_while n' (Datatypes.S i) body st else (st, false)
  end.

Notation "'for_n' n 'do' body 'from' st" :=
  (for_loop n 0%nat body st) (at level 60, n at next level, body at next level) : hobby_scope.

(** Little-endian load of [n] bytes, as x86 performs it through a cast pointer. *)
Fixpoint rd_le (n : nat) (l : list Z) (off : Z) : Z :=
  match n with
  | O => 0
  | S n' => zget l off + 256 * rd_le n' l (off + 1)
  end.

(** The bytes of a little-endian store. *)
Fixpoint le_bytes (n : nat) (z : Z) : list Z :=
  match n with
  | O => []
  | S n' => u8 z :: le_bytes n' (z / 256)
  end.

Definition rd16 := rd_le 2.
Definition rd32 := rd_le 4.
Definition rd64 := rd_le 8.

(** A loop [for (addr = lo; addr < hi; addr += PAGE_SIZE) st = body(addr, st);]
    runs for [pages_between lo hi] turns. *)
Definition pages_between (lo hi : Z) : nat := Z.to_nat ((hi - lo + 4095) / 4096).

Fixpoint page_loop {S} (n : nat) (addr : Z) (body : Z -> S -> S) (st : S) : S :=
  match n with
  | O => st
  | S n' => page_loop n' (addr + PAGE_SIZE) body (body addr st)
  end.

(** ** Struct field update

    [r <| f := v |>] is the record [r] with field [f] replaced, as [r.f = v].
    A record declares its eta expansion once as an [Eta] instance; the setter of
    each field is derived from it. *)

Class Eta (R : Type) := eta_of : R -> R.
Class Setter {R T : Type} (proj : R -> T) := upd : (T -> T) -> R -> R.

Arguments upd {R T} proj {_} _ _ /.

Ltac derive_setter :=
  match goal with
  | |- @Setter ?R ?T ?proj =>
      let f := fresh "f" in
      let r := fresh "r" in
      intros f r;
      let e := constr:(@eta_of R _ r) in
      let e := eval hnf in e in
      match e with
      | context C [proj r] => let e' := context C [f (proj r)] in exact e'
      end
  end.

#[export] Hint Extern 1 (Setter _) => derive_setter : typeclass_instances.

Notation "r <| f := v |>" := (upd f (fun _ => v) r)
  (at level 1, f at next level, v at level 200, left associativity) : hobby_scope.

Notation "r <| f ::= g |>" := (upd f g r)
  (at level 1, f at next level, g at level 200, left associativity) : hobby_scope.

#[global] Open Scope hobby_scope.

(** ** Tactics *)

Create HintDb kernel.
Create Rewrite HintDb width.

Ltac zsolve := unfold u8, u16, u32, u64 in *; Z.to_euclidean_division_equations; lia.

(** Boolean comparisons in hypotheses and goal become propositions. *)
Ltac b2p :=
  repeat match goal with
  | H : (_ =? _) = true |- _ => apply Z.eqb_eq in H
  | H : (_ =? _) = false |- _ => apply Z.eqb_neq in H
  | H : (_ <? _) = true |- _ => apply Z.ltb_lt in H
  | H : (_ <? _) = false |- _ => apply Z.ltb_ge in H
  | H : (_ <=? _) = true |- _ => apply Z.leb_le in H
  | H : (_ <=? _) = false |- _ => apply Z.leb_gt in H
  | H : (_ && _) = true |- _ => apply andb_true_iff in H; destruct H
  | H : (_ || _) = false |- _ => apply orb_false_iff in H; destruct H
  | H : negb _ = true |- _ => apply negb_true_iff in H
  | H : negb _ = false |- _ => apply negb_false_iff in H
  end.

(** Split every conditional of the goal, keeping the tests as equations. *)
Ltac case_if :=
  match goal with
  | |- context [if ?b then _ else _] =>
      lazymatch b with
      | context [if _ then _ else _] => fail
      | _ => destruct b eqn:?
      end
  end.

Ltac case_ifs := repeat (case_if; simpl).

(** ** Width lemmas *)

Lemma u8_range z : 0 <= u8 z < 256.
Proof. zsolve. Qed.

Lemma u16_range z : 0 <= u16 z < 65536.
Proof. zsolve. Qed.

Lemma u32_range z : 0 <= u32 z < 4294967296.
Proof. zsolve. Qed.

Lemma u64_range z : 0 <= u64 z < 18446744073709551616.
Proof. zsolve. Qed.

Lemma u8_small z : 0 <= z < 256 -> u8 z = z.
Proof. intros; apply Z.mod_small; lia. Qed.

Lemma u16_small z : 0 <= z < 65536 -> u16 z = z.
Proof. intros; apply Z.mod_small; lia. Qed.

Lemma u32_small z : 0 <= z < 4294967296 -> u32 z = z.
Proof. intros; apply Z.mod_small; lia. Qed.

Lemma u64_small z : 0 <= z < 18446744073709551616 -> u64 z = z.
Proof. intros; apply Z.mod_small; lia. Qed.

Lemma s32_small z : 0 <= z < 2147483648 -> s32 z = z.
Proof.
  intros. unfold s32. rewrite u32_small by lia.
  destruct (z <? 2147483648) eqn:E; b2p; lia.
Qed.

Lemma s32_id z : -2147483648 <= z < 2147483648 -> s32 z = z.
Proof.
  intros Hz. destruct (decide (0 <= z)); [apply s32_small; lia|]. unfold s32. assert (u32 z = z + 4294967296) as ->.
  { unfold u32. symmetry. apply (Z.mod_unique _ _ (-1)); lia. }
  destruct (Z.ltb_spec (z + 4294967296) 2147483648); lia.
Qed.

#[export] Hint Rewrite u8_small u16_small u32_small u64_small s32_small
  using (first [lia | assumption]) : width.
#[export] Hint Resolve u8_range u16_range u32_range u64_range : kernel.

(** A single-bit mask tests that bit. *)
Lemma test_pow2 x k : 0 <= k -> negb (Z.land x (2 ^ k) =? 0) = Z.testbit x k.
Proof.
  intros Hk. apply eq_true_iff_eq. rewrite negb_true_iff, Z.eqb_neq. split.
  - intros H. destruct (Z.testbit x k) eqn:E; [done|]. destruct H.
    apply Z.bits_inj'; intros n Hn. rewrite Z.land_spec, Z.bits_0, Z.pow2_bits_eqb by lia.
    destruct (Z.eqb_spec k n) as [->|]; [by rewrite E|apply andb_false_r].
  - intros E H. assert (Z.testbit (Z.land x (2 ^ k)) k = true) as H'
      by (rewrite Z.land_spec, E, Z.pow2_bits_true by lia; done).
    by rewrite H, Z.bits_0 in H'.
Qed.

(** [|] of disjoint bits is addition. *)
Lemma lor_low x y k : 0 <= k -> x mod 2 ^ k = 0 -> 0 <= y < 2 ^ k -> Z.lor x y = x + y.
Proof.
  intros Hk Hx Hy. assert (Z.land x y = 0) as Hl; [|by rewrite Z.add_nocarry_lxor, Z.lxor_lor].
  apply Z.bits_inj'. intros n Hn. rewrite Z.land_spec, Z.bits_0.
  destruct (decide (n < k)).
  - rewrite <- (Z.mod_pow2_bits_low x k n), Hx, Z.bits_0 by lia. done.
  - rewrite <- (Z.mod_small y (2 ^ k)) by done. rewrite Z.mod_pow2_bits_high by lia. apply andb_false_r.
Qed.

(** Clearing the low [k] bits is rounding down to a multiple of [2^k]. *)
Lemma land_lnot_ones x k : 0 <= k -> Z.land x (Z.lnot (Z.ones k)) = x - x mod 2 ^ k.
Proof.
  intros Hk.
  replace (Z.land x (Z.lnot (Z.ones k))) with (Z.ldiff x (Z.ones k)).
  - rewrite Z.ldiff_ones_r by lia.
    rewrite Z.shiftl_mul_pow2, Z.shiftr_div_pow2 by lia.
    pose proof (Z.div_mod x (2 ^ k) ltac:(apply Z.pow_nonzero; lia)). lia.
  - apply Z.bits_inj'; intros n Hn.
    by rewrite Z.ldiff_spec, Z.land_spec, Z.lnot_spec by lia.
Qed.

Lemma page_down_spec x : page_down x = x - x mod 4096.
Proof. apply (land_lnot_ones x 12). lia. Qed.

Lemma page_down_aligned x : page_down x mod 4096 = 0.
Proof. rewrite page_down_spec. zsolve. Qed.

Lemma page_down_le x : page_down x <= x < page_down x + 4096.
Proof. rewrite page_down_spec. zsolve. Qed.

Lemma page_down_id x : x mod 4096 = 0 -> page_down x = x.
Proof. rewrite page_down_spec. lia. Qed.

Lemma page_up_spec x :
  0 <= x -> x + 4095 < 18446744073709551616 ->
  x <= page_up x < x + 4096 /\ page_up x mod 4096 = 0.
Proof.
  intros. unfold page_up. rewrite u64_small by lia.
  rewrite page_down_spec. zsolve.
Qed.

(** ** Array lemmas *)

Section arrays.
Context {A : Type} `{!Inhabited A}.
Implicit Types (l : list A) (p : A -> bool).

Lemma alter_twice (f g : A -> A) i l : alter f i (alter g i l) = alter (fun x => f (g x)) i l.
Proof. revert i. induction l as [|x l IH]; intros [|i]; [done..|]. cbn. f_equal. apply IH. Qed.

Lemma length_zset l i x : length (zset l i x) = length l.
Proof. apply length_insert. Qed.

Lemma zget_zset_eq l i x :
  0 <= i < Z.of_nat (length l) -> zget (zset l i x) i = x.
Proof.
  intros. unfold zget, zset. apply list_lookup_total_insert_eq. lia.
Qed.

Lemma zget_zset_ne l i j x :
  0 <= i -> 0 <= j -> i <> j -> zget (zset l i x) j = zget l j.
Proof.
  intros. unfold zget, zset. apply list_lookup_total_insert_ne. lia.
Qed.

Lemma length_blit l off (src : list A) :
  0 <= off -> off + Z.of_nat (length src) <= Z.of_nat (length l) ->
  length (blit l off src) = length l.
Proof. intros. unfold blit. rewrite !length_app, length_take, length_drop. lia. Qed.

Lemma zget_blit_in l off (src : list A) i :
  0 <= off -> off + Z.of_nat (length src) <= Z.of_nat (length l) ->
  off <= i < off + Z.of_nat (length src) -> zget (blit l off src) i = zget src (i - off).
Proof.
  intros. unfold zget, blit. rewrite !list_lookup_total_alt, lookup_app_r;
    rewrite length_take; [|lia]. rewrite lookup_app_l by lia. do 2 f_equal. lia.
Qed.

Lemma zget_blit_out l off (src : list A) i :
  0 <= off -> off + Z.of_nat (length src) <= Z.of_nat (length l) ->
  0 <= i -> i < off \/ off + Z.of_nat (length src) <= i -> zget (blit l off src) i = zget l i.
Proof.
  intros ? ? ? [Hi|Hi]; unfold zget, blit; rewrite !list_lookup_total_alt; f_equal.
  - rewrite lookup_app_l by (rewrite length_take; lia). apply lookup_take_lt. lia.
  - rewrite lookup_app_r; rewrite length_take; [|lia]. rewrite lookup_app_r by lia.
    rewrite lookup_drop. f_equal. lia.
Qed.

Lemma slice_blit l off (src : list A) :
  0 <= off -> off + Z.of_nat (length src) <= Z.of_nat (length l) ->
  slice (blit l off src) off (Z.of_nat (length src)) = src.
Proof.
  intros. unfold slice, blit. rewrite Nat2Z.id, drop_app_length' by (rewrite length_take; lia).
  by rewrite take_app_length.
Qed.

Lemma slice_slice (l : list A) n off m : 0 <= off -> 0 <= m -> off + m <= n -> slice (slice l 0 n) off m = slice l off m.
Proof. intros. unfold slice. rewrite drop_0, skipn_firstn_comm, take_take. f_equal. lia. Qed.

Lemma slice_blit_out l off (src : list A) off' n : 0 <= off -> off + Z.of_nat (length src) <= Z.of_nat (length l) -> 0 <= off' -> 0 <= n ->
  off' + n <= off \/ off + Z.of_nat (length src) <= off' -> slice (blit l off src) off' n = slice l off' n.
Proof.
  intros H0 Hl H1 H2 Hd. unfold slice. apply list_eq. intros i. destruct (decide (Z.of_nat i < n)); [|by rewrite !lookup_take_ge by lia].
  rewrite !lookup_take_lt, !lookup_drop by lia. unfold blit. destruct Hd.
  - rewrite lookup_app_l, lookup_take_lt by (rewrite ?length_take; lia). done.
  - rewrite !lookup_app_r, lookup_drop by (rewrite ?length_take; lia). rewrite length_take. f_equal. lia.
Qed.

Lemma length_slice l off n : 0 <= off -> 0 <= n -> off + n <= Z.of_nat (length l) ->
  length (slice (l : list A) off n) = Z.to_nat n.
Proof. intros. unfold slice. rewrite length_take, length_drop. lia. Qed.

Lemma zget_drop l (k : nat) i : 0 <= i -> zget (drop k l) i = zget l (Z.of_nat k + i).
Proof. intros. unfold zget. rewrite !list_lookup_total_alt, lookup_drop. do 2 f_equal. lia. Qed.

Lemma zget_take l (k : nat) i : 0 <= i < Z.of_nat k -> zget (take k l) i = zget l i.
Proof. intros. unfold zget. rewrite !list_lookup_total_alt, lookup_take_lt by lia. done. Qed.

Lemma zget_lookup l i :
  0 <= i < Z.of_nat (length l) -> l !! Z.to_nat i = Some (zget l i).
Proof.
  intros. unfold zget. apply list_lookup_lookup_total_lt. lia.
Qed.

Lemma zset_zget l i : zset l i (zget l i) = l.
Proof.
  unfold zset, zget. destruct (decide (Z.to_nat i < length l)%nat).
  - apply list_insert_id, list_lookup_lookup_total_lt. lia.
  - apply list_insert_ge. lia.
Qed.

Lemma find_index_Some p l i :
  find_index p l = Some i ->
  exists x, l !! i = Some x /\ p x = true /\
    forall j y, (j < i)%nat -> l !! j = Some y -> p y = false.
Proof.
  revert i; induction l as [|a l IH]; intros i; simpl; [done|].
  destruct (p a) eqn:Ha; [intros [= <-]; exists a; split_and!; [done..|lia]|].
  destruct (find_index p l) as [k|] eqn:Hk; simpl; intros [= <-].
  destruct (IH _ eq_refl) as (x & Hx & Hp & Hmin).
  exists x; split_and!; [done..|].
  intros [|j] y Hj; simpl; [by intros [= <-]|]. intros; eapply Hmin; [|done]. lia.
Qed.

Lemma find_index_None p l :
  find_index p l = None <-> forall j x, l !! j = Some x -> p x = false.
Proof.
  induction l as [|a l IH]; simpl; [by split|].
  destruct (p a) eqn:Ha.
  - split; [done|]. intros H. by rewrite (H 0%nat a eq_refl) in Ha.
  - rewrite fmap_None, IH. split.
    + intros H [|j] x; simpl; [by intros [= <-]|apply H].
    + intros H j x Hj. apply (H (S j) x Hj).
Qed.

Lemma find_index_lt p l i : find_index p l = Some i -> (i < length l)%nat.
Proof.
  intros H. destruct (find_index_Some _ _ _ H) as (x & Hx & _).
  by eapply lookup_lt_Some.
Qed.

(** A scan succeeds as soon as some element passes the test. *)
Lemma find_index_is_Some p l j x :
  l !! j = Some x -> p x = true -> exists i, find_index p l = Some i /\ (i <= j)%nat.
Proof.
  intros Hj Hp. destruct (find_index p l) as [i|] eqn:Hi.
  - exists i. split; [done|].
    destruct (find_index_Some _ _ _ Hi) as (y & _ & _ & Hmin).
    destruct (decide (j < i)%nat) as [Hlt|]; [|lia].
    by rewrite (Hmin j x Hlt Hj) in Hp.
  - rewrite find_index_None in Hi. by rewrite (Hi j x Hj) in Hp.
Qed.

(** The scan result is determined by the first match. *)
Lemma find_index_unique p l i x :
  l !! i = Some x -> p x = true ->
  (forall j y, (j < i)%nat -> l !! j = Some y -> p y = false) ->
  find_index p l = Some i.
Proof.
  intros Hi Hp Hmin. destruct (find_index_is_Some p l i x Hi Hp) as (k & Hk & Hle).
  destruct (find_index_Some _ _ _ Hk) as (y & Hy & Hpy & _).
  destruct (decide (k < i)%nat) as [Hlt|]; [|replace i with k by lia; done].
  by rewrite (Hmin k y Hlt Hy) in Hpy.
Qed.

Lemma countb_bounds p l : 0 <= countb p l <= Z.of_nat (length l).
Proof.
  induction l as [|a l IH]; simpl; [lia|]. destruct (p a); simpl; lia.
Qed.

Lemma countb_app p l k : countb p (l ++ k) = countb p l + countb p k.
Proof. induction l as [|a l IH]; simpl; lia. Qed.

Lemma countb_insert p l i x y :
  l !! i = Some y ->
  countb p (<[i := x]> l) = countb p l - Z.b2z (p y) + Z.b2z (p x).
Proof.
  revert i; induction l as [|a l IH]; intros [|i]; simpl; [done..| |].
  - intros [= ->]. lia.
  - intros H. rewrite (IH _ H). lia.
Qed.

Lemma countb_zset p l i x :
  0 <= i < Z.of_nat (length l) ->
  countb p (zset l i x) = countb p l - Z.b2z (p (zget l i)) + Z.b2z (p x).
Proof. intros. by apply countb_insert, zget_lookup. Qed.

Lemma countb_zero p l :
  countb p l = 0 <-> forall j x, l !! j = Some x -> p x = false.
Proof.
  induction l as [|a l IH]; simpl; [by split|].
  pose proof (countb_bounds p l). split.
  - intros H0 [|j] x; simpl.
    + intros [= <-]. by destruct (p a); simpl in *; [lia|].
    + destruct (p a); simpl in *; [lia|]. apply IH. lia.
  - intros H0. rewrite (H0 0%nat a eq_refl). simpl.
    apply IH. intros j x. apply (H0 (S j) x).
Qed.

Lemma countb_ext p q l :
  (forall j x, l !! j = Some x -> p x = q x) -> countb p l = countb q l.
Proof.
  induction l as [|a l IH]; simpl; [done|]. intros H.
  rewrite (H 0%nat a eq_refl), IH; [done|]. intros j x. apply (H (S j) x).
Qed.
End arrays.

(** ** Loops *)

(** An invariant indexed by the loop counter. *)
Lemma for_loop_inv {S} (P : nat -> S -> Prop) n i body (st : S) :
  P i st ->
  (forall k s, (i <= k < i + n)%nat -> P k s -> P (Datatypes.S k) (body k s)) ->
  P (i + n)%nat (for_loop n i body st).
Proof.
  revert i st; induction n as [|n IH]; intros i st H0 Hstep; simpl.
  - by rewrite Nat.add_0_r.
  - replace (i + Datatypes.S n)%nat with (Datatypes.S i + n)%nat by lia.
    apply IH; [apply Hstep; [lia|done]|]. intros. apply Hstep; [lia|done].
Qed.

Lemma page_loop_inv {S} (P : Z -> S -> Prop) n addr body (st : S) :
  P addr st ->
  (forall k s, addr <= k < addr + 4096 * Z.of_nat n -> (k - addr) mod 4096 = 0 ->
     P k s -> P (k + 4096) (body k s)) ->
  P (addr + 4096 * Z.of_nat n) (page_loop n addr body st).
Proof.
  revert addr st; induction n as [|n IH]; intros addr st H0 Hstep.
  - simpl. by replace (addr + 4096 * Z.of_nat 0) with addr by lia.
  - cbn [page_loop].
    replace (addr + 4096 * Z.of_nat (Datatypes.S n))
      with ((addr + PAGE_SIZE) + 4096 * Z.of_nat n) by (unfold PAGE_SIZE; lia).
    apply IH.
    + unfold PAGE_SIZE. apply Hstep; [lia| |done]. by rewrite Z.sub_diag.
    + intros k s Hk Hm. unfold PAGE_SIZE in *. apply Hstep; [lia|].
      replace (k - addr) with ((k - (addr + 4096)) + 1 * 4096) by lia.
      by rewrite Z_mod_plus_full.
Qed.

Lemma pages_between_end lo hi :
  lo <= hi -> lo mod 4096 = 0 ->
  hi <= lo + 4096 * Z.of_nat (pages_between lo hi) < hi + 4096.
Proof. intros. unfold pages_between. zsolve. Qed.

Lemma rd_le_range n l off :
  (forall i, 0 <= zget l i < 256) -> 0 <= rd_le n l off < 256 ^ Z.of_nat n.
Proof.
  intros Hb. revert off; induction n as [|n IH]; intros off; [simpl; lia|].
  cbn [rd_le]. specialize (Hb off). specialize (IH (off + 1)).
  rewrite Nat2Z.inj_succ, Z.pow_succ_r by lia. lia.
Qed.

Lemma length_le_bytes n z : length (le_bytes n z) = n.
Proof. revert z; induction n; intros z; simpl; auto. Qed.

Lemma le_bytes_range n z : Forall (fun b => 0 <= b < 256) (le_bytes n z).
Proof. revert z; induction n; intros z; simpl; constructor; auto. apply u8_range. Qed.

(** Loads see only the bytes they read. *)
Lemma rd_le_app_r n l k : rd_le n (l ++ k) (Z.of_nat (length l)) = rd_le n k 0.
Proof.
  assert (forall m j, 0 <= j -> rd_le m (l ++ k) (Z.of_nat (length l) + j) = rd_le m k j) as H.
  { intros m. induction m as [|m IH]; intros j Hj; [done|]. cbn [rd_le].
    rewrite <- Z.add_assoc, IH by lia. f_equal. unfold zget.
    rewrite !list_lookup_total_alt, lookup_app_r by lia. do 2 f_equal. lia. }
  rewrite <- (H n 0) by lia. by rewrite Z.add_0_r.
Qed.

(** Storing and loading back. *)
Lemma rd_le_le_bytes n z k : rd_le n (le_bytes n z ++ k) 0 = z mod 256 ^ Z.of_nat n.
Proof.
  revert z. induction n as [|n IH]; intros z; [by rewrite Z.mod_1_r|].
  cbn [rd_le le_bytes]. change (zget ((u8 z :: le_bytes n (z / 256)) ++ k) 0) with (u8 z).
  change (0 + 1) with (Z.of_nat (length [u8 z])). change ((u8 z :: le_bytes n (z / 256)) ++ k)
    with ([u8 z] ++ (le_bytes n (z / 256) ++ k)).
  rewrite rd_le_app_r, IH, Nat2Z.inj_succ, Z.pow_succ_r by lia. unfold u8.
  rewrite Z.rem_mul_r by lia. lia.
Qed.

(** A field in the middle of a buffer. *)
Lemma rd_le_at n l z k off : off = Z.of_nat (length l) -> rd_le n (l ++ le_bytes n z ++ k) off = z mod 256 ^ Z.of_nat n.
Proof. intros ->. by rewrite rd_le_app_r, rd_le_le_bytes. Qed.

Lemma zget_at {A} `{Inhabited A} (l : list A) x k off : off = Z.of_nat (length l) -> zget (l ++ x :: k) off = x.
Proof. intros ->. unfold zget. rewrite Nat2Z.id. by apply list_lookup_total_middle. Qed.

Lemma slice_at {A} (l m k : list A) off n : off = Z.of_nat (length l) -> n = Z.of_nat (length m) -> slice (l ++ m ++ k) off n = m.
Proof. intros -> ->. unfold slice. by rewrite !Nat2Z.id, drop_app_length, take_app_length. Qed.

Lemma list_alter_insert_at {A} (f : A -> A) (l : list A) k v : l !! k = Some v -> alter f k l = <[k := f v]> l.
Proof.
  intros Hv. apply list_eq. intros i. destruct (decide (i = k)) as [->|].
  - rewrite list_lookup_alter_eq, Hv, list_lookup_insert_eq by by eapply lookup_lt_Some. done.
  - by rewrite list_lookup_alter_ne, list_lookup_insert_ne.
Qed.

(** Loading a word that was stored into a buffer. *)
Lemma rd32_blit b off z : 0 <= off -> off <= Z.of_nat (length b) ->
  rd32 (blit b off (le_bytes 4 z)) off = u32 z.
Proof.
  intros H0 Hl. unfold blit, rd32. set (l := take (Z.to_nat off) b).
  assert (off = Z.of_nat (length l)) as E by (unfold l; rewrite length_take; lia).
  rewrite E at 2. by rewrite rd_le_app_r, rd_le_le_bytes.
Qed.

(** Arrays of cells of [b] bytes. *)
Lemma length_cells b ws : length (mjoin (le_bytes b <$> ws)) = (b * length ws)%nat.
Proof.
  induction ws as [|w ws IH]; [cbn; lia|].
  change (mjoin (le_bytes b <$> w :: ws)) with (le_bytes b w ++ mjoin (le_bytes b <$> ws)).
  rewrite length_app, length_le_bytes, IH. simpl. lia.
Qed.

Lemma rd_cells b ws pad k w : ws !! k = Some w ->
  rd_le b (mjoin (le_bytes b <$> ws) ++ pad) (Z.of_nat b * Z.of_nat k) = w mod 256 ^ Z.of_nat b.
Proof.
  intros Hk. rewrite <- (take_drop_middle ws k w Hk), fmap_app, join_app.
  cbn [fmap list_fmap mjoin list_join]. rewrite <- !app_assoc.
  assert (Z.of_nat b * Z.of_nat k = Z.of_nat (length (mjoin (le_bytes b <$> take k ws)))) as ->.
  { rewrite length_cells, length_take. apply lookup_lt_Some in Hk. lia. }
  by rewrite rd_le_app_r, rd_le_le_bytes.
Qed.

Lemma length_words ws : length (mjoin (le_bytes 4 <$> ws)) = (4 * length ws)%nat.
Proof. apply length_cells. Qed.

Lemma rd32_words ws pad k w : ws !! k = Some w ->
  rd32 (mjoin (le_bytes 4 <$> ws) ++ pad) (4 * Z.of_nat k) = u32 w.
Proof. apply (rd_cells 4). Qed.

(** A load gives back the bytes it read. *)
Lemma le_bytes_rd n l off : Forall (fun b => 0 <= b < 256) l -> 0 <= off -> off + Z.of_nat n <= Z.of_nat (length l) ->
  le_bytes n (rd_le n l off) = slice l off (Z.of_nat n).
Proof.
  intros Hl. revert off. induction n as [|n IH]; intros off H0 H1; [by unfold slice; rewrite take_0|].
  cbn [rd_le le_bytes]. assert (l !! Z.to_nat off = Some (zget l off)) as Hg by (apply zget_lookup; lia). pose proof (Forall_lookup_1 _ _ _ _ Hl Hg) as Hr.
  replace (u8 (zget l off + 256 * rd_le n l (off + 1))) with (zget l off) by zsolve. replace ((zget l off + 256 * rd_le n l (off + 1)) / 256) with (rd_le n l (off + 1)) by zsolve.
  rewrite IH by lia. unfold slice. rewrite !Nat2Z.id, (drop_S l (zget l off) (Z.to_nat off)) by done. cbn [take]. by replace (Z.to_nat (off + 1)) with (S (Z.to_nat off)) by lia.
Qed.

(** A list is the concatenation of its slices. *)
Lemma slices_join {A} (l : list A) b n : (b * n <= length l)%nat ->
  mjoin ((fun i => slice l (Z.of_nat b * i) (Z.of_nat b)) <$> seqZ 0 (Z.of_nat n)) = take (b * n) l.
Proof.
  induction n as [|n IH]; intros Hn; [by rewrite Nat.mul_0_r, take_0|].
  rewrite seqZ_S, fmap_app, join_app, IH by lia. cbn [fmap list_fmap mjoin list_join]. rewrite app_nil_r. unfold slice.
  replace (Z.to_nat (Z.of_nat b * (0 + Z.of_nat n))) with (b * n)%nat by lia. rewrite Nat2Z.id, take_take_drop. f_equal. lia.
Qed.

Lemma rd32_all_words ws pad : Forall (fun w => 0 <= w < 2 ^ 32) ws -> (fun j : nat => rd32 (mjoin (le_bytes 4 <$> ws) ++ pad) (4 * Z.of_nat j)) <$> seq 0 (length ws) = ws.
Proof.
  intros F. apply list_eq. intros i. rewrite list_lookup_fmap. destruct (ws !! i) as [w|] eqn:E.
  - pose proof (lookup_lt_Some _ _ _ E). rewrite lookup_seq_lt by lia. cbn [fmap option_fmap option_map Nat.add]. rewrite (rd32_words ws pad i w E). f_equal.
    apply u32_small. by apply (Forall_lookup_1 _ _ _ _ F E).
  - apply lookup_ge_None in E. by rewrite lookup_seq_ge.
Qed.

(** A load that does not meet a store. *)
Lemma rd_le_ext n b b' off off' : (forall i, 0 <= i < Z.of_nat n -> zget b (off + i) = zget b' (off' + i)) -> rd_le n b off = rd_le n b' off'.
Proof.
  revert off off'. induction n as [|n IH]; intros off off' H; [done|]. cbn [rd_le]. f_equal; [specialize (H 0 ltac:(lia)); by rewrite !Z.add_0_r in H|].
  f_equal. apply IH. intros i Hi. specialize (H (i + 1) ltac:(lia)). replace (off + 1 + i) with (off + (i + 1)) by lia. by replace (off' + 1 + i) with (off' + (i + 1)) by lia.
Qed.

(** Loads from a structure laid out field by field. *)
Lemma rd_le_skip n l k off : Z.of_nat (length l) <= off -> rd_le n (l ++ k) off = rd_le n k (off - Z.of_nat (length l)).
Proof.
  intros H. apply rd_le_ext. intros i Hi. unfold zget. rewrite !list_lookup_total_alt, lookup_app_r by lia. do 2 f_equal. lia.
Qed.

Lemma rd_le_skip_field n m z k off : Z.of_nat m <= off -> rd_le n (le_bytes m z ++ k) off = rd_le n k (off - Z.of_nat m).
Proof. intros H. rewrite rd_le_skip; by rewrite length_le_bytes. Qed.

Lemma rd_le_field n z k off : off = 0 -> 0 <= z < 256 ^ Z.of_nat n -> rd_le n (le_bytes n z ++ k) off = z.
Proof. intros -> Hz. rewrite rd_le_le_bytes. by apply Z.mod_small. Qed.

Lemma slice_skip {A} (l k : list A) off n : Z.of_nat (length l) <= off -> slice (l ++ k) off n = slice k (off - Z.of_nat (length l)) n.
Proof.
  intros H. unfold slice. rewrite drop_app, (drop_ge l) by lia. cbn [app]. by replace (Z.to_nat off - length l)%nat with (Z.to_nat (off - Z.of_nat (length l))) by lia.
Qed.

Lemma slice_skip_field m z k off n : Z.of_nat m <= off -> slice (le_bytes m z ++ k) off n = slice k (off - Z.of_nat m) n.
Proof. intros H. rewrite slice_skip; by rewrite length_le_bytes. Qed.

(** Finds the field that a load reads. *)
Ltac load_field :=
  rewrite <- ?app_assoc;
  repeat (rewrite rd_le_skip_field by (by vm_compute));
  first [apply rd_le_field; [by vm_compute|lia]|idtac].

#[export] Hint Resolve find_index_lt : kernel.
