(* ===== verification/Checksum.v ===== *)
(** * Byte order and the Internet checksum (net/net.h, ip_checksum of net/net.c)

    The conversions between host and network byte order and the ones-complement
    checksum that the IPv4, ICMP and TCP code share. *)

From stdpp Require Import prelude.
From Stdlib Require Import ZArith Lia.
From S2P Require Import Prelude.
Local Open Scope Z_scope.

Module Checksum.

Definition htons (v : Z) : Z := u16 (Z.lor (Z.shiftr v 8) (Z.shiftl v 8)).
Definition ntohs (v : Z) : Z := htons v.

Definition htonl (v : Z) : Z :=
  Z.lor (Z.lor (Z.lor (Z.land (Z.shiftr v 24) 0xFF) (Z.land (Z.shiftr v 8) 0xFF00))
    (Z.land (u32 (Z.shiftl v 8)) 0xFF0000)) (Z.land (u32 (Z.shiftl v 24)) 0xFF000000).
Definition ntohl (v : Z) : Z := htonl v.

(** The loop over the 16-bit words of the data, and its odd byte. *)
Fixpoint sum_words (data : list Z) (sum : Z) : Z :=
  match data with
  | a :: b :: data' => sum_words data' (u32 (sum + (a + 256 * b)))
  | [a] => u32 (sum + a)
  | [] => sum
  end.

(** [while (sum >> 16) sum = (sum & 0xFFFF) + (sum >> 16);] on a [uint32_t] the
    loop runs at most twice. *)
Fixpoint fold_sum (fuel : nat) (sum : Z) : Z :=
  match fuel with
  | O => sum
  | S fuel' => if Z.shiftr sum 16 =? 0 then sum else fold_sum fuel' (u32 (Z.land sum 0xFFFF + Z.shiftr sum 16))
  end.

Definition FOLD_FUEL : nat := 2.

Definition finish (sum : Z) : Z := u16 (Z.lnot (fold_sum FOLD_FUEL sum)).

Definition ip_checksum (data : list Z) : Z := finish (sum_words data 0).

(** ** Specification *)

Definition byte (b : Z) : Prop := 0 <= b < 256.

(** The sum of the words, without wrap-around. *)
Fixpoint wsum (data : list Z) : Z :=
  match data with
  | a :: b :: data' => a + 256 * b + wsum data'
  | [a] => a
  | [] => 0
  end.

(** The ones-complement value of a sum: its residue modulo 65535, with 65535
    rather than 0 for a positive sum. *)
Definition ones (s : Z) : Z := if s =? 0 then 0 else 1 + (s - 1) mod 65535.

(** ** Byte order *)

Lemma htons_bytes v : 0 <= v < 65536 -> htons v = 256 * (v mod 256) + v / 256.
Proof.
  intros Hv. unfold htons. rewrite Z.shiftr_div_pow2, Z.shiftl_mul_pow2 by lia. change (2 ^ 8) with 256.
  rewrite Z.lor_comm, (lor_low (v * 256) (v / 256) 8); [|lia|apply Z.mod_mul; lia|].
  - unfold u16. rewrite (Z.div_mod v 256) at 1 by lia.
    replace ((256 * (v / 256) + v mod 256) * 256 + v / 256) with (256 * (v mod 256) + v / 256 + v / 256 * 65536) by lia.
    rewrite Z.mod_add by lia. apply Z.mod_small. pose proof (Z.mod_pos_bound v 256). assert (v / 256 < 256) by (apply Z.div_lt_upper_bound; lia).
    pose proof (Z.div_pos v 256). lia.
  - change (2 ^ 8) with 256. split; [apply Z.div_pos; lia|apply Z.div_lt_upper_bound; lia].
Qed.

(** In memory a 16-bit field in network order has its high byte first. *)
Lemma htons_big_endian v : 0 <= v < 65536 -> le_bytes 2 (htons v) = [v / 256; v mod 256].
Proof.
  intros Hv. rewrite htons_bytes by done. cbn [le_bytes]. unfold u8. pose proof (Z.mod_pos_bound v 256 ltac:(lia)).
  assert (0 <= v / 256 < 256) by (split; [apply Z.div_pos; lia|apply Z.div_lt_upper_bound; lia]).
  rewrite (Z.add_comm (256 * _)), (Z.mul_comm 256), Z.mod_add, Z.div_add by lia.
  rewrite (Z.div_small (v / 256)), Z.add_0_l, !(Z.mod_small (_ / _)), Z.mod_mod by lia. done.
Qed.

Lemma htons_range v : 0 <= htons v < 65536.
Proof. apply u16_range. Qed.

Lemma htons_invol v : 0 <= v < 65536 -> ntohs (htons v) = v.
Proof.
  intros Hv. unfold ntohs. rewrite (htons_bytes (htons v)) by apply htons_range. rewrite htons_bytes by done.
  pose proof (Z.mod_pos_bound v 256 ltac:(lia)). pose proof (Z.div_mod v 256 ltac:(lia)).
  assert (0 <= v / 256 < 256) by (split; [apply Z.div_pos; lia|apply Z.div_lt_upper_bound; lia]).
  replace (256 * (v mod 256) + v / 256) with (v / 256 + v mod 256 * 256) by lia. rewrite Z.mod_add, Z.div_add by lia.
  rewrite (Z.div_small (v / 256)), (Z.mod_small (v / 256)) by lia. lia.
Qed.

(** One byte of a word, in place. *)
Lemma land_byte x k : 0 <= k -> Z.land x (Z.shiftl 255 k) = (x / 2 ^ k) mod 256 * 2 ^ k.
Proof.
  intros Hk. rewrite <- Z.shiftl_mul_pow2, <- Z.shiftr_div_pow2 by done. change 256 with (2 ^ 8). rewrite <- Z.land_ones by lia.
  change (Z.ones 8) with 255. apply Z.bits_inj'. intros n Hn. rewrite Z.land_spec, !Z.shiftl_spec, Z.land_spec by done.
  destruct (Z.ltb_spec n k); [by rewrite !(Z.testbit_neg_r _ (n - k)), andb_false_r by lia|].
  rewrite Z.shiftr_spec by lia. by replace (n - k + k) with n by lia.
Qed.

Definition byte_of (v k : Z) : Z := v / 2 ^ k mod 256.

Lemma byte_of_range v k : 0 <= byte_of v k < 256.
Proof. apply Z.mod_pos_bound. lia. Qed.

Lemma byte_of_shift v j k : 0 <= j <= k -> k + 8 <= 32 -> byte_of (u32 (v * 2 ^ j)) k = byte_of v (k - j).
Proof.
  intros Hj Hk. unfold byte_of, u32. change 4294967296 with (2 ^ 32). change 256 with (2 ^ 8). apply Z.bits_inj'. intros n Hn.
  destruct (Z.ltb_spec n 8); [|by rewrite !Z.mod_pow2_bits_high by lia].
  rewrite !Z.mod_pow2_bits_low, !Z.div_pow2_bits, Z.mod_pow2_bits_low, Z.mul_pow2_bits by lia. f_equal. lia.
Qed.

Lemma htonl_bytes v : 0 <= v < 2 ^ 32 ->
  htonl v = byte_of v 24 + 256 * (byte_of v 16 + 256 * (byte_of v 8 + 256 * byte_of v 0)).
Proof.
  intros Hv. unfold htonl. rewrite !Z.shiftr_div_pow2, !Z.shiftl_mul_pow2 by lia.
  change 0xFF00 with (Z.shiftl 255 8). change 0xFF0000 with (Z.shiftl 255 16). change 0xFF000000 with (Z.shiftl 255 24).
  change 0xFF with (Z.shiftl 255 0). rewrite !land_byte by lia.
  assert (v / 2 ^ 24 / 2 ^ 0 mod 256 = byte_of v 24) as -> by (by rewrite Z.div_1_r).
  assert (v / 2 ^ 8 / 2 ^ 8 mod 256 = byte_of v 16) as -> by (by rewrite Z.div_div by lia).
  assert (u32 (v * 2 ^ 8) / 2 ^ 16 mod 256 = byte_of v 8) as -> by apply (byte_of_shift v 8 16 ltac:(lia) ltac:(lia)).
  assert (u32 (v * 2 ^ 24) / 2 ^ 24 mod 256 = byte_of v 0) as -> by apply (byte_of_shift v 24 24 ltac:(lia) ltac:(lia)).
  pose proof (byte_of_range v 24). pose proof (byte_of_range v 16). pose proof (byte_of_range v 8). pose proof (byte_of_range v 0).
  rewrite (Z.lor_comm (byte_of v 24 * _)), (lor_low _ (byte_of v 24 * _) 8); [|lia|apply Z.mod_mul; lia|lia].
  rewrite (Z.lor_comm (_ + _)), (lor_low _ (_ + _) 16); [|lia|apply Z.mod_mul; lia|lia].
  rewrite (Z.lor_comm (_ + _)), (lor_low _ (_ + _) 24); [|lia|apply Z.mod_mul; lia|lia]. lia.
Qed.

Lemma htonl_range v : 0 <= v < 2 ^ 32 -> 0 <= htonl v < 2 ^ 32.
Proof.
  intros Hv. rewrite htonl_bytes by done. pose proof (byte_of_range v 24). pose proof (byte_of_range v 16).
  pose proof (byte_of_range v 8). pose proof (byte_of_range v 0). lia.
Qed.

Lemma word_bytes v : 0 <= v < 2 ^ 32 -> v = byte_of v 0 + 256 * (byte_of v 8 + 256 * (byte_of v 16 + 256 * byte_of v 24)).
Proof.
  intros Hv. unfold byte_of. change (2 ^ 0) with 1. rewrite Z.div_1_r.
  change (2 ^ 24) with (256 * 256 * 256). change (2 ^ 16) with (256 * 256). change (2 ^ 8) with 256.
  rewrite <- !Z.div_div by lia. pose proof (Z.div_mod v 256). pose proof (Z.div_mod (v / 256) 256). pose proof (Z.div_mod (v / 256 / 256) 256).
  assert (0 <= v / 256 / 256 / 256 < 256) by (rewrite !Z.div_div by lia; split; [apply Z.div_pos; lia|apply Z.div_lt_upper_bound; lia]).
  rewrite (Z.mod_small (v / 256 / 256 / 256)) by done. lia.
Qed.

Lemma byte_of_poly a b c d : byte a -> byte b -> byte c -> byte d ->
  let v := a + 256 * (b + 256 * (c + 256 * d)) in
  byte_of v 0 = a /\ byte_of v 8 = b /\ byte_of v 16 = c /\ byte_of v 24 = d.
Proof.
  intros Ha Hb Hc Hd v. unfold byte in *. unfold byte_of. change (2 ^ 24) with (256 * 256 * 256). change (2 ^ 16) with (256 * 256).
  change (2 ^ 8) with 256. change (2 ^ 0) with 1. rewrite <- !Z.div_div, Z.div_1_r by lia.
  assert (forall x y, 0 <= x < 256 -> (x + 256 * y) / 256 = y /\ (x + 256 * y) mod 256 = x) as Hxy.
  { intros x y Hx. rewrite (Z.mul_comm 256), Z.div_add, Z.mod_add, Z.div_small, Z.mod_small by lia. lia. }
  unfold v. destruct (Hxy a (b + 256 * (c + 256 * d)) Ha) as [-> ->]. destruct (Hxy b (c + 256 * d) Hb) as [-> ->].
  destruct (Hxy c d Hc) as [-> ->]. rewrite (Z.mod_small d) by lia. done.
Qed.

Lemma htonl_invol v : 0 <= v < 2 ^ 32 -> ntohl (htonl v) = v.
Proof.
  intros Hv. unfold ntohl. rewrite (htonl_bytes (htonl v)) by (by apply htonl_range). rewrite (htonl_bytes v) by done.
  destruct (byte_of_poly (byte_of v 24) (byte_of v 16) (byte_of v 8) (byte_of v 0)) as (-> & -> & -> & ->); [apply byte_of_range..|].
  symmetry. by apply word_bytes.
Qed.

(** ** Sums *)

(** Induction by words. *)
Lemma words_ind (P : list Z -> Prop) : P [] -> (forall a, P [a]) -> (forall a b l, P l -> P (a :: b :: l)) -> forall l, P l.
Proof.
  intros H0 H1 H2. fix IH 1. intros [|a [|b l]]; [exact H0|exact (H1 a)|]. apply H2, IH.
Qed.

Lemma sum_words_wsum l : forall s, sum_words l s = if (length l =? 0)%nat then s else u32 (s + wsum l).
Proof.
  induction l as [|a|a b l IH] using words_ind; intros s; [done|done|]. cbn [sum_words wsum length]. rewrite IH.
  destruct (length l =? 0)%nat eqn:E.
  - apply Nat.eqb_eq in E. destruct l; [|done]. cbn. f_equal. lia.
  - cbn. unfold u32. rewrite Zplus_mod_idemp_l. f_equal. lia.
Qed.

Lemma wsum_bound l : Forall byte l -> 0 <= wsum l <= 65535 * Z.of_nat (length l).
Proof.
  unfold byte. induction l as [|a|a b l IH] using words_ind; intros Hl; [done|apply Forall_cons in Hl as [? _]; cbn; lia|].
  apply Forall_cons in Hl as [? [? Hl]%Forall_cons]. specialize (IH Hl). cbn [wsum length]. lia.
Qed.

Lemma wsum_app l l' : Nat.Even (length l) -> wsum (l ++ l') = wsum l + wsum l'.
Proof.
  induction l as [|a|a b l IH] using words_ind; intros He; [done|destruct He as [k Hk]; cbn in Hk; lia|].
  cbn [app wsum]. rewrite IH; [lia|]. destruct He as [k Hk]. exists (k - 1)%nat. cbn in Hk. lia.
Qed.

(** The folding loop computes the ones-complement value and is done. *)
Lemma fold_step s : 0 <= s -> Z.land s 0xFFFF + Z.shiftr s 16 = s mod 65536 + s / 65536.
Proof. intros Hs. change 0xFFFF with (Z.ones 16). rewrite Z.land_ones, Z.shiftr_div_pow2 by lia. done. Qed.

Lemma ones_fold s : 0 <= s -> ones (s mod 65536 + s / 65536) = ones s.
Proof.
  intros Hs. pose proof (Z.div_mod s 65536 ltac:(lia)) as E. pose proof (Z.mod_pos_bound s 65536 ltac:(lia)). pose proof (Z.div_pos s 65536).
  unfold ones. destruct (Z.eqb_spec s 0) as [->|Hne]; [done|]. destruct (Z.eqb_spec (s mod 65536 + s / 65536) 0); [lia|]. f_equal.
  rewrite E at 3. replace (65536 * (s / 65536) + s mod 65536 - 1) with (s mod 65536 + s / 65536 - 1 + s / 65536 * 65535) by lia.
  by rewrite Z.mod_add by lia.
Qed.

Lemma ones_small s : 0 <= s < 65536 -> ones s = s.
Proof. intros Hs. unfold ones. destruct (Z.eqb_spec s 0); [done|]. rewrite Z.mod_small; lia. Qed.

Lemma fold_sum_ones fuel s : 0 <= s < 2 ^ 32 -> s < 65536 \/ (s < 2 ^ 17 - 1 /\ (1 <= fuel)%nat) \/ (2 <= fuel)%nat -> fold_sum fuel s = ones s.
Proof.
  assert (forall fuel s, s < 65536 -> 0 <= s -> fold_sum fuel s = ones s) as H0.
  { intros f x Hx H0. rewrite ones_small by lia. destruct f; [done|]. cbn [fold_sum]. rewrite Z.shiftr_div_pow2, Z.div_small by lia. done. }
  assert (forall fuel s, 0 <= s < 2 ^ 17 - 1 -> (1 <= fuel)%nat -> fold_sum fuel s = ones s) as H1.
  { intros [|f] x Hx Hf; [lia|]. cbn [fold_sum]. destruct (Z.eqb_spec (Z.shiftr x 16) 0) as [E|E].
    - rewrite Z.shiftr_div_pow2 in E by lia. rewrite ones_small; [done|]. apply Z.div_small_iff in E; lia.
    - assert (x / 65536 <= 1) by (assert (x / 65536 < 2); [apply Z.div_lt_upper_bound; lia|lia]). pose proof (Z.mod_pos_bound x 65536 ltac:(lia)).
      pose proof (Z.div_mod x 65536 ltac:(lia)). pose proof (Z.div_pos x 65536 ltac:(lia) ltac:(lia)).
      rewrite fold_step, u32_small by lia. rewrite H0 by lia. apply ones_fold. lia. }
  intros Hs [Hc|[[Hc Hf]|Hf]]; [apply H0; lia|apply H1; [lia|done]|]. destruct fuel as [|fuel]; [lia|]. cbn [fold_sum].
  destruct (Z.eqb_spec (Z.shiftr s 16) 0) as [E|E].
  - rewrite Z.shiftr_div_pow2 in E by lia. rewrite ones_small; [done|]. apply Z.div_small_iff in E; lia.
  - assert (s / 65536 < 65536) by (apply Z.div_lt_upper_bound; lia). pose proof (Z.mod_pos_bound s 65536 ltac:(lia)).
    pose proof (Z.div_pos s 65536 ltac:(lia) ltac:(lia)). rewrite fold_step, u32_small by lia. rewrite H1 by lia. apply ones_fold. lia.
Qed.

Lemma ones_range s : 0 <= ones s < 65536.
Proof. unfold ones. case_match; [lia|]. pose proof (Z.mod_pos_bound (s - 1) 65535 ltac:(lia)). lia. Qed.

Lemma finish_ones s : 0 <= s < 2 ^ 32 -> finish s = 65535 - ones s.
Proof.
  intros Hs. unfold finish. rewrite fold_sum_ones; [|done|right; right; unfold FOLD_FUEL; lia].
  pose proof (ones_range s). replace (Z.lnot (ones s)) with (- ones s - 1) by (unfold Z.lnot; lia).
  unfold u16. rewrite <- (Z.mod_add _ 1), Z.mod_small by lia. lia.
Qed.

(** [len] bytes whose sum does not reach the width of the accumulator. *)
Lemma checksum_ones l : Forall byte l -> Z.of_nat (length l) <= 65536 -> ip_checksum l = 65535 - ones (wsum l).
Proof.
  intros Hb Hl. pose proof (wsum_bound l Hb). unfold ip_checksum. rewrite sum_words_wsum.
  destruct (length l =? 0)%nat eqn:E; [apply Nat.eqb_eq in E; destruct l; [|done]; by rewrite finish_ones|].
  rewrite Z.add_0_l, u32_small by lia. by rewrite finish_ones by lia.
Qed.

Lemma bytes_mid pre a b post : Forall byte pre -> byte a -> byte b -> Forall byte post -> Forall byte (pre ++ [a; b] ++ post).
Proof. intros. rewrite !Forall_app, !Forall_cons. by split_and!. Qed.

Lemma wsum_mid pre a b post : Nat.Even (length pre) -> wsum (pre ++ [a; b] ++ post) = wsum pre + wsum post + (a + 256 * b).
Proof. intros He. rewrite wsum_app by done. cbn [app wsum]. lia. Qed.

Lemma checksum_mid pre a b post : Nat.Even (length pre) -> Forall byte pre -> Forall byte post -> byte a -> byte b ->
  Z.of_nat (length pre + 2 + length post) <= 65536 ->
  ip_checksum (pre ++ [a; b] ++ post) = 65535 - ones (wsum pre + wsum post + (a + 256 * b)).
Proof.
  intros He Hp Hq Ha Hb Hl. rewrite checksum_ones; [by rewrite wsum_mid|by apply bytes_mid|]. rewrite !length_app. cbn. lia.
Qed.

(** A packet whose checksum field, at any even offset, was filled in by the
    sender with the checksum of the packet with that field zero passes the
    receiver's check: the checksum over the whole packet is zero. *)
Lemma checksum_verifies pre post : Nat.Even (length pre) -> Forall byte pre -> Forall byte post ->
  Z.of_nat (length pre + 2 + length post) <= 65536 ->
  ip_checksum (pre ++ le_bytes 2 (ip_checksum (pre ++ [0; 0] ++ post)) ++ post) = 0.
Proof.
  intros He Hp Hq Hl. set (c := ip_checksum (pre ++ [0; 0] ++ post)).
  assert (c = 65535 - ones (wsum pre + wsum post)) as Ec.
  { unfold c. rewrite checksum_mid by (done || (unfold byte; lia)). by rewrite Z.add_0_r. }
  pose proof (ones_range (wsum pre + wsum post)) as Ho. pose proof (wsum_bound pre Hp). pose proof (wsum_bound post Hq).
  cbn [le_bytes]. assert (byte (u8 c) /\ byte (u8 (c / 256))) as [B1 B2] by (split; apply u8_range).
  rewrite checksum_mid by done.
  assert (u8 c + 256 * u8 (c / 256) = c) as ->.
  { unfold u8. rewrite (Z.mod_small (c / 256)); [pose proof (Z.div_mod c 256); lia|]. split; [apply Z.div_pos; lia|apply Z.div_lt_upper_bound; lia]. }
  assert (0 <= wsum pre + wsum post) as Hs by lia. set (s := wsum pre + wsum post) in *. clearbody s c. unfold ones at 1.
  destruct (Z.eqb_spec (s + c) 0) as [E|E]; [assert (s = 0) as -> by lia; cbn in Ec; lia|].
  replace (s + c - 1) with (s - ones s + 65534) by lia. unfold ones. destruct (Z.eqb_spec s 0) as [->|Hs0]; [done|].
  pose proof (Z.div_mod (s - 1) 65535 ltac:(lia)) as Em.
  replace (s - (1 + (s - 1) mod 65535) + 65534) with (65534 + (s - 1) / 65535 * 65535) by lia. rewrite Z.mod_add by lia. done.
Qed.



End Checksum.
