(* ===== verification/KString.v ===== *)
(** * String and memory functions (kernel/string.c, user/lib/string.c)

    Strings that are only read are the bytes from the pointer on; a function
    that reads past the last of them has no result.  Functions that write take
    the memory as a list of bytes and pointers into it as offsets. *)

From stdpp Require Import prelude.
From Stdlib Require Import ZArith Lia.
From S2P Require Import Prelude.
Local Open Scope Z_scope.

Module KString.

(** ** Reading *)

Fixpoint strlen (s : list Z) : option Z :=
  match s with
  | [] => None
  | c :: s' => if c =? 0 then Some 0 else Z.succ <$> strlen s'
  end.

(** [strnlen] of the user library. *)
Fixpoint strnlen (n : nat) (s : list Z) : option Z :=
  match n, s with
  | O, _ => Some 0
  | S _, [] => None
  | S n', c :: s' => if c =? 0 then Some 0 else Z.succ <$> strnlen n' s'
  end.

Fixpoint strcmp (s1 s2 : list Z) : option Z :=
  match s1, s2 with
  | a :: s1', b :: s2' => if negb (a =? 0) && (a =? b) then strcmp s1' s2' else Some (u8 a - u8 b)
  | _, _ => None
  end.

(** [strncmp] of the kernel. *)
Fixpoint strncmp (n : nat) (s1 s2 : list Z) : option Z :=
  match n with
  | O => Some 0
  | S n' =>
      match s1, s2 with
      | a :: s1', b :: s2' =>
          if negb (a =? b) then Some (u8 a - u8 b) else if a =? 0 then Some 0 else strncmp n' s1' s2'
      | _, _ => None
      end
  end.

(** [strncmp] of the user library. *)
Fixpoint user_strncmp (n : nat) (a b : list Z) : option Z :=
  match n with
  | O => Some 0
  | S n' =>
      match a, b with
      | x :: a', y :: b' => if negb (x =? 0) && (x =? y) then user_strncmp n' a' b' else Some (u8 x - u8 y)
      | _, _ => None
      end
  end.

Fixpoint memcmp (n : nat) (a b : list Z) : option Z :=
  match n with
  | O => Some 0
  | S n' =>
      match a, b with
      | x :: a', y :: b' => if negb (x =? y) then Some (x - y) else memcmp n' a' b'
      | _, _ => None
      end
  end.

(** The inner loop of [strstr]: whether the needle ends first. *)
Fixpoint matches_at (h n : list Z) : option bool :=
  match n with
  | [] => None
  | y :: n' =>
      match h with
      | [] => None
      | x :: h' => if negb (x =? 0) && negb (y =? 0) && (x =? y) then matches_at h' n' else Some (y =? 0)
      end
  end.

(** The outer loop, and the position found. *)
Fixpoint strstr_from (haystack needle : list Z) : option (option Z) :=
  match haystack with
  | [] => None
  | c :: rest =>
      if c =? 0 then Some None else
      match matches_at haystack needle with
      | None => None
      | Some true => Some (Some 0)
      | Some false => option_map Z.succ <$> strstr_from rest needle
      end
  end.

Definition strstr (haystack needle : list Z) : option (option Z) :=
  match needle with
  | [] => None
  | c :: _ => if c =? 0 then Some (Some 0) else strstr_from haystack needle
  end.

Definition strchr (s : list Z) (c : Z) : option (option Z) :=
  (fix go s :=
     match s with
     | [] => None
     | x :: s' => if x =? 0 then Some (if c =? 0 then Some 0 else None) else if x =? u8 c then Some (Some 0) else option_map Z.succ <$> go s'
     end) s.

(** The last occurrence: [last] is the one seen so far, [i] the position. *)
Fixpoint strrchr_from (s : list Z) (c i : Z) (last : option Z) : option (option Z) :=
  match s with
  | [] => None
  | x :: s' => if x =? 0 then Some (if c =? 0 then Some i else last) else strrchr_from s' c (i + 1) (if x =? u8 c then Some i else last)
  end.

Definition strrchr (s : list Z) (c : Z) : option (option Z) := strrchr_from s c 0 None.

(** ** Writing *)

(** Loads and stores at an offset of the memory. *)
Definition load (m : list Z) (p : Z) : option Z := if p <? 0 then None else m !! Z.to_nat p.
Definition store (m : list Z) (p v : Z) : option (list Z) :=
  if (0 <=? p) && (p <? Z.of_nat (length m)) then Some (zset m p (u8 v)) else None.

Definition copy_byte (m : list Z) (d s : Z) : option (list Z) := v ← load m s; store m d v.

(** [for (i = 0; i < n; i++) p[i] = (uint8_t)c;] *)
Fixpoint memset_from (n : nat) (p c : Z) (m : list Z) : option (list Z) :=
  match n with
  | O => Some m
  | S n' => m ← store m p c; memset_from n' (p + 1) c m
  end.

Definition memset (m : list Z) (s c : Z) (n : nat) : option (list Z) := memset_from n s c m.

(** Copying upwards and downwards. *)
Fixpoint copy_up (n : nat) (d s : Z) (m : list Z) : option (list Z) :=
  match n with
  | O => Some m
  | S n' => m ← copy_byte m d s; copy_up n' (d + 1) (s + 1) m
  end.

Fixpoint copy_down (n : nat) (d s : Z) (m : list Z) : option (list Z) :=
  match n with
  | O => Some m
  | S n' => m ← copy_byte m (d + Z.of_nat n') (s + Z.of_nat n'); copy_down n' d s m
  end.

Definition memcpy (m : list Z) (dest src : Z) (n : nat) : option (list Z) := copy_up n dest src m.

Definition memmove (m : list Z) (dest src : Z) (n : nat) : option (list Z) :=
  if dest <? src then copy_up n dest src m else copy_down n dest src m.

(** [memmove] of the user library. *)
Definition user_memmove (m : list Z) (dst src : Z) (n : nat) : option (list Z) :=
  if (dst =? src) || (Z.of_nat n =? 0) then Some m else
  if dst <? src then copy_up n dst src m else copy_down n dst src m.

(** Copy bytes up to and including the terminator, with fuel for the bytes that
    can be copied. *)
Fixpoint strcpy_loop (fuel : nat) (d s : Z) (m : list Z) : option (list Z) :=
  match fuel with
  | O => None
  | S fuel' =>
      v ← load m s;
      m ← store m d v;
      if v =? 0 then Some m else strcpy_loop fuel' (d + 1) (s + 1) m
  end.

Definition strcpy (m : list Z) (dest src : Z) : option (list Z) := strcpy_loop (S (length m)) dest src m.

(** The two loops of [strncpy]: the characters, then the padding. *)
Fixpoint strncpy (n : nat) (d s : Z) (m : list Z) : option (list Z) :=
  match n with
  | O => Some m
  | S n' =>
      v ← load m s;
      if v =? 0 then memset_from n d 0 m else m ← store m d v; strncpy n' (d + 1) (s + 1) m
  end.

(** The address of the terminator. *)
Definition str_end (m : list Z) (d : Z) : option Z := k ← strlen (drop (Z.to_nat d) m); Some (d + k).

Definition strcat (m : list Z) (dst src : Z) : option (list Z) := d ← str_end m dst; strcpy_loop (S (length m)) d src m.

Fixpoint strncat_loop (n : nat) (d s : Z) (m : list Z) : option (list Z) :=
  match n with
  | O => store m d 0
  | S n' =>
      v ← load m s;
      if v =? 0 then store m d 0 else m ← store m d v; strncat_loop n' (d + 1) (s + 1) m
  end.

Definition strncat (m : list Z) (dst src : Z) (n : nat) : option (list Z) := d ← str_end m dst; strncat_loop n d src m.

(** ** Tokens

    The delimiters are the characters of a string without its terminator. *)

Definition is_delim (delim : list Z) (c : Z) : bool := existsb (Z.eqb c) delim.

(** Skip leading delimiters. *)
Fixpoint skip_delims (fuel : nat) (delim : list Z) (p : Z) (m : list Z) : option Z :=
  match fuel with
  | O => None
  | S fuel' =>
      c ← load m p;
      if c =? 0 then Some p else if is_delim delim c then skip_delims fuel' delim (p + 1) m else Some p
  end.

(** Find the end of the token: the memory with the delimiter replaced by a
    terminator, and where the next call continues. *)
Fixpoint end_token (fuel : nat) (delim : list Z) (p : Z) (m : list Z) : option (list Z * option Z) :=
  match fuel with
  | O => None
  | S fuel' =>
      c ← load m p;
      if c =? 0 then Some (m, None) else
      if is_delim delim c then m ← store m p 0; Some (m, Some (p + 1)) else end_token fuel' delim (p + 1) m
  end.

(** [state] is [strtok_state]; the result is the memory, the new state and the
    token. *)
Definition strtok (m : list Z) (state str : option Z) (delim : list Z) : option (list Z * option Z * option Z) :=
  match (match str with Some p => Some p | None => state end) with
  | None => Some (m, None, None)
  | Some p =>
      p ← skip_delims (S (length m)) delim p m;
      c ← load m p;
      if c =? 0 then Some (m, None, None) else
      '(m, state) ← end_token (S (length m)) delim p m; Some (m, state, Some p)
  end.

(** ** Strings *)

(** A string [t] at the start of the bytes [s]. *)
Definition cstr (s t : list Z) : Prop := Forall (fun c => 0 < c < 256) t /\ exists rest, s = t ++ 0 :: rest.

(** All elements are bytes. *)
Definition bytes (m : list Z) : Prop := Forall (fun c => 0 <= c < 256) m.

(** [s] begins with the bytes [t]. *)
Definition starts (s t : list Z) : Prop := exists rest, s = t ++ rest.

(** The order of strings. *)
Fixpoint lex (s t : list Z) : comparison :=
  match s, t with
  | [], [] => Eq
  | [], _ :: _ => Lt
  | _ :: _, [] => Gt
  | a :: s', b :: t' => match a ?= b with Eq => lex s' t' | c => c end
  end.

(** ** Lemmas on reading *)

Lemma cstr_nil s : cstr s [] <-> exists rest, s = 0 :: rest.
Proof. split; [by intros [_ H]|]. intros H. split; [apply Forall_nil_2|done]. Qed.

Lemma cstr_cons s c t : cstr s (c :: t) <-> 0 < c < 256 /\ exists s', s = c :: s' /\ cstr s' t.
Proof.
  split.
  - intros [Hf (rest & ->)]. apply Forall_cons in Hf as [Hc Hf]. split; [done|]. exists (t ++ 0 :: rest). split; [done|]. split; [done|by exists rest].
  - intros [Hc (s' & -> & [Hf (rest & ->)])]. split; [by apply Forall_cons|by exists rest].
Qed.

Lemma strlen_cstr s t : cstr s t -> strlen s = Some (Z.of_nat (length t)).
Proof.
  revert s. induction t as [|c t IH]; intros s H.
  - apply cstr_nil in H as [rest ->]. done.
  - apply cstr_cons in H as [Hc (s' & -> & H)]. cbn [strlen]. rewrite (proj2 (Z.eqb_neq c 0)), (IH s' H) by lia. cbn. f_equal. lia.
Qed.

(** The test of a name against [n] bytes. *)
Lemma strncmp_name n d nm : length nm = n -> (n <= length d)%nat -> Forall (fun c => 0 < c < 256) nm -> bytes d ->
  exists r, strncmp n d (nm ++ [0]) = Some r /\ (r = 0 <-> take n d = nm).
Proof.
  revert d nm. induction n as [|n IH]; intros d nm Hn Hd Hf Hb.
  - exists 0. split; [done|]. destruct nm; [by rewrite take_0|done].
  - destruct nm as [|c nm]; [done|]. destruct d as [|x d]; [cbn in Hd; lia|]. apply Forall_cons in Hf as [Hc Hf]. apply Forall_cons in Hb as [Hx Hb]. cbn [strncmp app].
    destruct (Z.eqb_spec x c) as [->|Hne]; cbn [negb].
    + rewrite (proj2 (Z.eqb_neq c 0)) by lia. destruct (IH d nm) as (r & -> & Hr); [by injection Hn|cbn in Hd; lia|done|done|].
      exists r. split; [done|]. rewrite Hr. cbn. split; [by intros ->|by intros [=]].
    + eexists. split; [done|]. rewrite !u8_small by lia. cbn. split; [lia|intros [=]; lia].
Qed.

Lemma matches_at_spec h t n t' : cstr h t -> cstr n t' -> exists b, matches_at h n = Some b /\ (b = true <-> starts t t').
Proof.
  revert h t n. induction t' as [|y t' IH]; intros h t n Hh Hn.
  - apply cstr_nil in Hn as [rest ->]. destruct h as [|x h]; [destruct Hh as [_ (r & Hr)]; by destruct t|]. exists true. cbn. rewrite andb_false_r. split; [done|]. split; [intros _; by exists t|done].
  - apply cstr_cons in Hn as [Hy (n' & -> & Hn)]. destruct t as [|x t].
    + apply cstr_nil in Hh as [rest ->]. exists false. cbn. rewrite (proj2 (Z.eqb_neq y 0)) by lia. split; [done|]. split; [done|]. by intros [r Hr].
    + apply cstr_cons in Hh as [Hx (h' & -> & Hh)]. cbn [matches_at]. rewrite !(proj2 (Z.eqb_neq _ 0)) by lia. cbn [negb andb]. destruct (Z.eqb_spec x y) as [->|Hne].
      * destruct (IH h' t n' Hh Hn) as (b & -> & Hb). exists b. split; [done|]. rewrite Hb. unfold starts. cbn. split; [intros [r ->]; by exists r|intros [r [= ->]]; by exists r].
      * exists false. split; [done|]. split; [done|]. intros [r [=]]. congruence.
Qed.

Lemma strstr_from_spec h t n t' : cstr h t -> cstr n t' -> t' <> [] -> exists r, strstr_from h n = Some r /\
  match r with
  | Some i => 0 <= i <= Z.of_nat (length t) /\ starts (drop (Z.to_nat i) t) t' /\ forall j, 0 <= j < i -> ~ starts (drop (Z.to_nat j) t) t'
  | None => forall j, 0 <= j -> ~ starts (drop (Z.to_nat j) t) t'
  end.
Proof.
  intros Hh Hn Hne. revert h Hh. induction t as [|c t IH]; intros h Hh.
  - apply cstr_nil in Hh as [rest ->]. exists None. split; [done|]. intros j Hj [r Hr]. rewrite drop_nil in Hr. by destruct t'.
  - pose proof Hh as Hh0. apply cstr_cons in Hh as [Hc (h' & -> & Hh)]. cbn [strstr_from]. rewrite (proj2 (Z.eqb_neq c 0)) by lia.
    destruct (matches_at_spec (c :: h') (c :: t) n t' Hh0 Hn) as ([|] & -> & Hb).
    + exists (Some 0). split; [done|]. split_and!; [done|cbn; lia|by apply Hb|lia].
    + destruct (IH h' Hh) as (r & -> & Hr). exists (option_map Z.succ r). split; [done|].
      assert (~ starts (c :: t) t') as H0 by (intros Hs; by apply Hb in Hs). destruct r as [i|]; cbn.
      * destruct Hr as (Hi & H1 & H2). split_and!; [lia|lia|by replace (Z.to_nat (Z.succ i)) with (S (Z.to_nat i)) by lia|].
        intros j Hj. destruct (decide (j = 0)) as [->|]; [done|]. replace (Z.to_nat j) with (S (Z.to_nat (j - 1))) by lia. apply H2. lia.
      * intros j Hj. destruct (decide (j = 0)) as [->|]; [done|]. replace (Z.to_nat j) with (S (Z.to_nat (j - 1))) by lia. apply Hr. lia.
Qed.

(** ** Claims on reading *)

(** [strcmp] orders two strings by their bytes: the result is negative, zero
    or positive as the first string comes before, equals or comes after the
    second in the lexicographic order. *)
Theorem strcmp_order s1 t1 s2 t2 : cstr s1 t1 -> cstr s2 t2 -> exists r, strcmp s1 s2 = Some r /\ (r ?= 0) = lex t1 t2 /\ (r = 0 <-> t1 = t2).
Proof.
  revert s1 s2 t2. induction t1 as [|a t1 IH]; intros s1 s2 t2 H1 H2; destruct t2 as [|b t2]; try apply cstr_nil in H1 as [r1 ->]; try apply cstr_nil in H2 as [r2 ->];
    try apply cstr_cons in H1 as [Ha (s1' & -> & H1)]; try apply cstr_cons in H2 as [Hb (s2' & -> & H2)]; cbn [strcmp lex]; rewrite ?Z.eqb_refl; cbn [negb andb].
  - by exists 0.
  - eexists. split; [done|]. rewrite !u8_small by lia. split; [apply Z.compare_lt_iff; lia|split; [lia|done]].
  - rewrite (proj2 (Z.eqb_neq a 0)) by lia. cbn [negb andb]. eexists. split; [done|]. rewrite !u8_small by lia. split; [apply Z.compare_gt_iff; lia|split; [lia|done]].
  - rewrite (proj2 (Z.eqb_neq a 0)) by lia. cbn [negb andb]. destruct (Z.eqb_spec a b) as [->|Hne].
    + destruct (IH s1' s2' t2 H1 H2) as (r & -> & Hr & He). exists r. rewrite Z.compare_refl. split_and!; [done|done|]. rewrite He. split; [by intros ->|by intros [=]].
    + eexists. split; [done|]. rewrite !u8_small by lia. split; [|split; [lia|intros [=]; lia]]. destruct (Z.compare_spec a b); [done|apply Z.compare_lt_iff; lia|apply Z.compare_gt_iff; lia].
Qed.

Lemma strcmp_order_witness : exists r, strcmp [97; 98; 0; 7] [97; 99; 0] = Some r /\ (r ?= 0) = Lt.
Proof.
  destruct (strcmp_order [97; 98; 0; 7] [97; 98] [97; 99; 0] [97; 99]) as (r & H1 & H2 & _); [split; [repeat constructor; lia|by eexists]..|by exists r].
Defined.

(** The user library's [strncmp] and the kernel's agree on all inputs. *)
Theorem user_strncmp_equiv n a b : user_strncmp n a b = strncmp n a b.
Proof.
  revert a b. induction n as [|n IH]; intros a b; [done|]. destruct a as [|x a], b as [|y b]; try done. cbn. destruct (Z.eqb_spec x y) as [->|]; cbn; [|by rewrite andb_false_r].
  destruct (Z.eqb_spec y 0) as [->|]; cbn; [done|apply IH].
Qed.

(** [strstr] finds the first occurrence of a string in another. *)
Theorem strstr_first h t n t' : cstr h t -> cstr n t' -> exists r, strstr h n = Some r /\
  match r with
  | Some i => 0 <= i <= Z.of_nat (length t) /\ starts (drop (Z.to_nat i) t) t' /\ forall j, 0 <= j < i -> ~ starts (drop (Z.to_nat j) t) t'
  | None => forall j, 0 <= j -> ~ starts (drop (Z.to_nat j) t) t'
  end.
Proof.
  intros Hh Hn. destruct t' as [|c t'].
  - apply cstr_nil in Hn as [rest ->]. exists (Some 0). split; [done|]. split_and!; [done|lia|by exists t|lia].
  - pose proof Hn as Hn0. apply cstr_cons in Hn as [Hc (n' & -> & Hn)]. cbn [strstr]. rewrite (proj2 (Z.eqb_neq c 0)) by lia. by apply strstr_from_spec.
Qed.

Lemma strstr_first_witness : exists r, strstr [97; 97; 98; 0] [97; 98; 0] = Some r.
Proof.
  destruct (strstr_first [97; 97; 98; 0] [97; 97; 98] [97; 98; 0] [97; 98]) as (r & H & _); [split; [repeat constructor; lia|by exists []]..|]. by exists r.
Defined.

(** ** Lemmas on writing *)

Abbreviation len m := (Z.of_nat (length m)).

Lemma load_zget m p : 0 <= p < len m -> load m p = Some (zget m p).
Proof. intros Hp. unfold load. rewrite (proj2 (Z.ltb_ge p 0)) by lia. by apply zget_lookup. Qed.

Lemma store_zset m p v : 0 <= p < len m -> store m p v = Some (zset m p (u8 v)).
Proof. intros Hp. unfold store. by rewrite (proj2 (Z.leb_le 0 p)), (proj2 (Z.ltb_lt p _)) by lia. Qed.

Lemma bytes_zget m p : bytes m -> 0 <= p < len m -> 0 <= zget m p < 256.
Proof. intros Hb Hp. exact (Forall_lookup_1 _ _ _ _ Hb (zget_lookup m p Hp)). Qed.

Lemma bytes_zset m p v : bytes m -> bytes (zset m p (u8 v)).
Proof. intros Hb. apply Forall_insert; [done|apply u8_range]. Qed.

Lemma zget_zset (m : list Z) p v i : 0 <= p < len m -> 0 <= i -> zget (zset m p v) i = if decide (i = p) then v else zget m i.
Proof. intros Hp Hi. case_decide; subst; [by rewrite zget_zset_eq|by rewrite zget_zset_ne by lia]. Qed.

(** The memory after [n] bytes were copied. *)
Definition copied (n : nat) (d s : Z) (m m' : list Z) : Prop :=
  length m' = length m /\ bytes m' /\ forall i, 0 <= i -> zget m' i = if decide (d <= i < d + Z.of_nat n) then zget m (s + (i - d)) else zget m i.

Lemma copy_byte_spec m d s : bytes m -> 0 <= d < len m -> 0 <= s < len m -> copy_byte m d s = Some (zset m d (zget m s)) /\ bytes (zset m d (zget m s)).
Proof.
  intros Hb Hd Hs. unfold copy_byte. rewrite load_zget by done. cbn. rewrite store_zset by done. pose proof (bytes_zget m s Hb Hs). rewrite u8_small by done.
  split; [done|]. by apply Forall_insert.
Qed.

Lemma copy_up_spec n d s m : bytes m -> 0 <= d -> d + Z.of_nat n <= len m -> 0 <= s -> s + Z.of_nat n <= len m -> d <= s \/ s + Z.of_nat n <= d ->
  exists m', copy_up n d s m = Some m' /\ copied n d s m m'.
Proof.
  revert d s m. induction n as [|n IH]; intros d s m Hb Hd Hdn Hs Hsn Ho; cbn [copy_up].
  - exists m. split; [done|]. split_and!; [done|done|]. intros i Hi. by rewrite decide_False by lia.
  - destruct (copy_byte_spec m d s Hb ltac:(lia) ltac:(lia)) as [-> Hb']. cbn [mbind option_bind].
    destruct (IH (d + 1) (s + 1) (zset m d (zget m s)) Hb') as (m' & -> & Hl & Hb2 & Hz); [lia|rewrite length_zset; lia|lia|rewrite length_zset; lia|lia|].
    exists m'. split; [done|]. split_and!; [by rewrite Hl, length_zset|done|]. intros i Hi. rewrite Hz by done.
    destruct (decide (d <= i < d + Z.of_nat (S n))), (decide (d + 1 <= i < d + 1 + Z.of_nat n)); try lia; rewrite zget_zset by lia; case_decide; try lia; f_equal; lia.
Qed.

Lemma copy_down_spec n d s m : bytes m -> 0 <= d -> d + Z.of_nat n <= len m -> 0 <= s -> s + Z.of_nat n <= len m -> s <= d \/ d + Z.of_nat n <= s ->
  exists m', copy_down n d s m = Some m' /\ copied n d s m m'.
Proof.
  revert m. induction n as [|n IH]; intros m Hb Hd Hdn Hs Hsn Ho; cbn [copy_down].
  - exists m. split; [done|]. split_and!; [done|done|]. intros i Hi. by rewrite decide_False by lia.
  - destruct (copy_byte_spec m (d + Z.of_nat n) (s + Z.of_nat n) Hb ltac:(lia) ltac:(lia)) as [-> Hb']. cbn [mbind option_bind].
    destruct (IH (zset m (d + Z.of_nat n) (zget m (s + Z.of_nat n))) Hb') as (m' & -> & Hl & Hb2 & Hz); [lia|rewrite length_zset; lia|lia|rewrite length_zset; lia|lia|].
    exists m'. split; [done|]. split_and!; [by rewrite Hl, length_zset|done|]. intros i Hi. rewrite Hz by done.
    destruct (decide (d <= i < d + Z.of_nat (S n))), (decide (d <= i < d + Z.of_nat n)); try lia; rewrite zget_zset by lia; case_decide; try lia; f_equal; lia.
Qed.

Lemma memset_spec n p c m : bytes m -> 0 <= p -> p + Z.of_nat n <= len m ->
  exists m', memset_from n p c m = Some m' /\ length m' = length m /\ bytes m' /\ forall i, 0 <= i -> zget m' i = if decide (p <= i < p + Z.of_nat n) then u8 c else zget m i.
Proof.
  revert p m. induction n as [|n IH]; intros p m Hb Hp Hn; cbn [memset_from].
  - exists m. split_and!; [done..|]. intros i Hi. by rewrite decide_False by lia.
  - rewrite store_zset by lia. cbn [mbind option_bind].
    destruct (IH (p + 1) (zset m p (u8 c))) as (m' & -> & Hl & Hb2 & Hz); [by apply bytes_zset|lia|rewrite length_zset; lia|].
    exists m'. split_and!; [done|by rewrite Hl, length_zset|done|]. intros i Hi. rewrite Hz, zget_zset by lia. repeat case_decide; (done || lia).
Qed.

(** ** Claims on writing *)

(** [memmove] moves [n] bytes whatever the overlap of the two areas: the
    destination then holds what the source held before, and no other byte
    changes; the user library's version, which treats the empty move and the
    move to itself apart, has the same effect. *)
Theorem memmove_correct m d s n : bytes m -> 0 <= d -> d + Z.of_nat n <= len m -> 0 <= s -> s + Z.of_nat n <= len m ->
  exists m', memmove m d s n = Some m' /\ copied n d s m m' /\ user_memmove m d s n = Some m'.
Proof.
  intros Hb Hd Hdn Hs Hsn. assert (exists m', memmove m d s n = Some m' /\ copied n d s m m') as (m' & E & Hc).
  { unfold memmove. destruct (Z.ltb_spec d s); [apply copy_up_spec|apply copy_down_spec]; (done || lia). }
  exists m'. split; [done|]. split; [done|]. unfold user_memmove. destruct (Z.eqb_spec d s) as [->|], (Z.eqb_spec (Z.of_nat n) 0) as [Hn|]; cbn [orb]; try exact E; f_equal.
  - destruct n; [|lia]. unfold memmove in E. rewrite Z.ltb_irrefl in E. by injection E.
  - destruct Hc as (Hl & _ & Hz). apply list_eq. intros i. destruct (decide (i < length m)%nat) as [Hi|Hi]; [|by rewrite !lookup_ge_None_2 by lia].
    pose proof (Hz (Z.of_nat i) ltac:(lia)) as H. rewrite !list_lookup_lookup_total_lt by lia. f_equal. unfold zget in H. rewrite Nat2Z.id in H. rewrite H.
    case_decide; [f_equal; lia|done].
  - destruct n; [|lia]. unfold memmove in E. by destruct (d <? s); injection E.
Qed.

Lemma memmove_correct_witness : exists m', memmove [1; 2; 3; 4; 5] 1 0 3 = Some m' /\ copied 3 1 0 [1; 2; 3; 4; 5] m'.
Proof. destruct (memmove_correct [1; 2; 3; 4; 5] 1 0 3) as (m' & H1 & H2 & _); [repeat constructor; lia|cbn; lia..|]. by exists m'. Defined.

(** ** Tokens *)

(** The longest runs of characters that are not delimiters. *)
Fixpoint tokens (delim t : list Z) : list (list Z) :=
  match t with
  | [] => []
  | c :: t' =>
      if is_delim delim c then tokens delim t' else
      match t' with
      | [] => [[c]]
      | c' :: _ =>
          if is_delim delim c' then [c] :: tokens delim t' else
          match tokens delim t' with
          | w :: ws => (c :: w) :: ws
          | [] => [[c]]
          end
      end
  end.

(** A caller that takes all tokens: the memory at the end and the tokens'
    addresses. *)
Fixpoint tokenize (fuel : nat) (m : list Z) (state str : option Z) (delim : list Z) : option (list Z * list Z) :=
  match fuel with
  | O => None
  | S fuel' =>
      '(m, state, tok) ← strtok m state str delim;
      match tok with
      | None => Some (m, [])
      | Some p => '(m, ps) ← tokenize fuel' m state None delim; Some (m, p :: ps)
      end
  end.

(** A string at address [p]. *)
Definition str_at (m : list Z) (p : Z) (t : list Z) : Prop := 0 <= p /\ cstr (drop (Z.to_nat p) m) t.

Lemma str_at_bound m p t : str_at m p t -> p + Z.of_nat (length t) < len m.
Proof.
  intros [Hp [_ (rest & E)]]. pose proof (f_equal length E) as L. rewrite length_drop, length_app in L. cbn in L. lia.
Qed.

Lemma str_at_load m p t : str_at m p t -> load m p = Some (match t with [] => 0 | c :: _ => c end).
Proof.
  intros [Hp [_ (rest & E)]]. unfold load. rewrite (proj2 (Z.ltb_ge p 0)) by lia. pose proof (f_equal (fun l => l !! 0%nat) E) as H. rewrite lookup_drop in H.
  rewrite Nat.add_0_r in H. rewrite H. by destruct t.
Qed.

Lemma str_at_tail m p c t : str_at m p (c :: t) -> 0 < c < 256 /\ str_at m (p + 1) t.
Proof.
  intros [Hp H]. apply cstr_cons in H as [Hc (s' & E & H)]. split; [done|]. split; [lia|]. replace (Z.to_nat (p + 1)) with (Z.to_nat p + 1)%nat by lia. by rewrite <- drop_drop, E.
Qed.

Lemma str_at_app m p t1 t2 : str_at m p (t1 ++ t2) -> str_at m (p + Z.of_nat (length t1)) t2.
Proof.
  revert p. induction t1 as [|c t1 IH]; intros p H; [cbn; by rewrite Z.add_0_r|]. apply str_at_tail in H as [_ H]. apply IH in H. cbn [length]. by replace (p + Z.of_nat (S (length t1))) with (p + 1 + Z.of_nat (length t1)) by lia.
Qed.

(** A store behind a string ends it there. *)
Lemma str_at_cut m p w c t : str_at m p (w ++ c :: t) -> str_at (zset m (p + Z.of_nat (length w)) 0) p w.
Proof.
  intros [Hp [Hf (rest & E)]]. split; [done|]. apply Forall_app in Hf as [Hf _]. split; [done|]. exists (t ++ 0 :: rest). unfold zset.
  rewrite drop_insert_ge by lia. rewrite E, <- app_assoc. replace (Z.to_nat (p + Z.of_nat (length w)) - Z.to_nat p)%nat with (length w + 0)%nat by lia. by rewrite insert_app_r.
Qed.

(** The same bytes at two places. *)
Lemma take_drop_ext (m m' : list Z) p q (k : nat) : 0 <= p -> 0 <= q -> p + Z.of_nat k <= len m -> q + Z.of_nat k <= len m' ->
  (forall i, 0 <= i < Z.of_nat k -> zget m' (q + i) = zget m (p + i)) -> take k (drop (Z.to_nat q) m') = take k (drop (Z.to_nat p) m).
Proof.
  intros Hp Hq Hpk Hqk Hz. apply list_eq. intros i. destruct (decide (i < k)%nat); [|by rewrite !lookup_take_ge by lia].
  rewrite !lookup_take_lt, !lookup_drop, !list_lookup_lookup_total_lt by lia. f_equal. specialize (Hz (Z.of_nat i) ltac:(lia)). unfold zget in Hz.
  replace (Z.to_nat (q + Z.of_nat i)) with (Z.to_nat q + i)%nat in Hz by lia. by replace (Z.to_nat (p + Z.of_nat i)) with (Z.to_nat p + i)%nat in Hz by lia.
Qed.

(** A string only depends on its own bytes. *)
Lemma str_at_ext m m' p t : length m' = length m -> (forall i, p <= i <= p + Z.of_nat (length t) -> zget m' i = zget m i) -> str_at m p t -> str_at m' p t.
Proof.
  intros Hl Hz H. pose proof (str_at_bound m p t H) as Hb. destruct H as [Hp [Hf (rest & E)]]. split; [done|]. split; [done|]. exists (drop (Z.to_nat p + length t + 1) m').
  rewrite <- (take_drop (length t + 1) (drop (Z.to_nat p) m')), drop_drop. rewrite Nat.add_assoc.
  assert (take (length t + 1) (drop (Z.to_nat p) m') = t ++ [0]) as ->; [|by rewrite <- app_assoc].
  transitivity (take (length t + 1) (drop (Z.to_nat p) m)); [apply take_drop_ext; try lia; intros i Hi; apply Hz; lia|].
  rewrite E. change (t ++ 0 :: rest) with (t ++ [0] ++ rest). rewrite app_assoc. apply take_app_length'. rewrite length_app. cbn. lia.
Qed.

Lemma skip_delims_spec fuel delim p m t : str_at m p t -> (length t < fuel)%nat ->
  exists k, skip_delims fuel delim p m = Some (p + Z.of_nat k) /\ (k <= length t)%nat /\ str_at m (p + Z.of_nat k) (drop k t) /\ tokens delim (drop k t) = tokens delim t /\
    match drop k t with [] => True | c :: _ => is_delim delim c = false end.
Proof.
  revert p t. induction fuel as [|fuel IH]; intros p t H Hf; [lia|]. cbn [skip_delims]. rewrite (str_at_load m p t H). cbn [mbind option_bind]. destruct t as [|c t].
  - exists 0%nat. cbn. rewrite Z.add_0_r. split_and!; (done || lia).
  - destruct (str_at_tail m p c t H) as [Hc Ht]. rewrite (proj2 (Z.eqb_neq c 0)) by lia. destruct (is_delim delim c) eqn:Ed.
    + destruct (IH (p + 1) t Ht ltac:(cbn in Hf; lia)) as (k & E & Hk & Hs & Htok & Hh). exists (S k). replace (p + Z.of_nat (S k)) with (p + 1 + Z.of_nat k) by lia. cbn [drop].
      split_and!; [done|cbn; lia|done| |done]. rewrite Htok. cbn. by rewrite Ed.
    + exists 0%nat. rewrite Z.add_0_r. cbn [drop]. split_and!; [done|lia|done|done|done].
Qed.

(** The first token of a string that starts with none of the delimiters. *)
Fixpoint span (delim t : list Z) : list Z * list Z :=
  match t with
  | [] => ([], [])
  | c :: t' => if is_delim delim c then ([], t) else let '(w, r) := span delim t' in (c :: w, r)
  end.

Lemma span_app delim t : (span delim t).1 ++ (span delim t).2 = t.
Proof. induction t as [|c t IH]; [done|]. cbn. destruct (is_delim delim c); [done|]. destruct (span delim t) as [w r]. cbn in *. by rewrite IH. Qed.

Lemma span_rest delim t : match (span delim t).2 with [] => True | d :: _ => is_delim delim d = true end.
Proof. induction t as [|c t IH]; [done|]. cbn. destruct (is_delim delim c) eqn:E; [done|]. by destruct (span delim t). Qed.

Lemma tokens_span delim c t : is_delim delim c = false -> tokens delim (c :: t) = (span delim (c :: t)).1 :: tokens delim (span delim (c :: t)).2.
Proof.
  revert c. induction t as [|c' t IH]; intros c Hc; cbn [tokens span]; rewrite Hc; [done|]. destruct (is_delim delim c') eqn:Hc'.
  - cbn. by rewrite Hc'.
  - specialize (IH c' Hc'). cbn [tokens span] in IH. rewrite Hc' in IH. rewrite IH. by destruct (span delim t) as [w r].
Qed.

Lemma end_token_spec fuel delim p m t : str_at m p t -> (length t < fuel)%nat -> let '(w, r) := span delim t in let q := p + Z.of_nat (length w) in
  end_token fuel delim p m = Some (match r with [] => (m, None) | _ :: _ => (zset m q 0, Some (q + 1)) end).
Proof.
  revert p t. induction fuel as [|fuel IH]; intros p t H Hf; [lia|]. cbn [end_token]. rewrite (str_at_load m p t H). cbn [mbind option_bind]. destruct t as [|c t]; [done|].
  destruct (str_at_tail m p c t H) as [Hc Ht]. cbn [span]. rewrite (proj2 (Z.eqb_neq c 0)) by lia. pose proof (str_at_bound _ _ _ H) as Hb. destruct H as [Hp _]. destruct (is_delim delim c).
  - cbn [length] in *. rewrite store_zset by lia. cbn. by rewrite Z.add_0_r.
  - specialize (IH (p + 1) t Ht ltac:(cbn in Hf; lia)). destruct (span delim t) as [w r]. rewrite IH. cbn [length]. by replace (p + Z.of_nat (S (length w))) with (p + 1 + Z.of_nat (length w)) by lia.
Qed.

Lemma tokenize_spec fuel m state str delim p t : (match str with Some p => Some p | None => state end) = Some p -> str_at m p t -> (length t < fuel)%nat ->
  exists m' ps, tokenize fuel m state str delim = Some (m', ps) /\ length m' = length m /\
    (forall i, 0 <= i -> i < p \/ p + Z.of_nat (length t) <= i -> zget m' i = zget m i) /\ Forall2 (str_at m') ps (tokens delim t).
Proof.
  revert m state str p t. induction fuel as [|fuel IH]; intros m state str p t Est H Hf; [lia|]. cbn [tokenize]. unfold strtok. rewrite Est. pose proof (str_at_bound m p t H) as Hbd.
  destruct (skip_delims_spec (S (length m)) delim p m t H) as (k & -> & Hk & Hs & Htok & Hh); [pose proof (proj1 H); lia|]. cbn [mbind option_bind].
  rewrite (str_at_load m _ _ Hs). cbn [mbind option_bind]. destruct (drop k t) as [|c u] eqn:Eu.
  { exists m, []. rewrite <- Htok. by split_and!. }
  destruct (str_at_tail _ _ _ _ Hs) as [Hc _]. rewrite (proj2 (Z.eqb_neq c 0)) by lia. pose proof (f_equal length Eu) as Lu. rewrite length_drop in Lu. pose proof (str_at_bound _ _ _ Hs) as Hbu.
  pose proof (end_token_spec (S (length m)) delim _ m (c :: u) Hs ltac:(pose proof (proj1 H); lia)) as He. pose proof (tokens_span delim c u Hh) as Hts. pose proof (span_app delim (c :: u)) as Hsp.
  pose proof (span_rest delim (c :: u)) as Hrest.
  pose proof (proj1 H) as Hp0. set (q := p + Z.of_nat k) in *. assert (q = p + Z.of_nat k) as Eq by done. clearbody q. assert (0 < Z.of_nat (length (span delim (c :: u)).1)) as Hw by (cbn; rewrite Hh; destruct (span delim u); cbn; lia).
  destruct (span delim (c :: u)) as [w r]. cbn [fst snd] in *. rewrite He. clear He. rewrite <- Htok, Hts. pose proof (f_equal length Hsp) as Ls. rewrite length_app in Ls.
  destruct r as [|d r]; cbn [mbind option_bind].
  - rewrite app_nil_r in Hsp. subst w. destruct fuel as [|fuel]; [cbn [length] in *; lia|]. cbn [tokenize strtok mbind option_bind]. exists m, [q]. split_and!; [done|done|done|]. apply Forall2_cons. split; [done|apply Forall2_nil_2].
  - rewrite <- Hsp in Hs. pose proof (str_at_app _ _ _ _ Hs) as Hd. set (e := q + Z.of_nat (length w)) in *. assert (e = q + Z.of_nat (length w)) as Ee by done. clearbody e. apply str_at_tail in Hd as [_ Hr]. cbn [length] in Ls, Lu, Hbu.
    assert (str_at (zset m e 0) (e + 1) r) as Hr'.
    { apply (str_at_ext m); [by rewrite length_zset|intros i Hi; rewrite zget_zset_ne by lia; done|done]. }
    destruct (IH (zset m e 0) (Some (e + 1)) None (e + 1) r eq_refl Hr' ltac:(lia)) as (m' & ps & -> & Hl & Hz & HF). cbn [mbind option_bind].
    rewrite length_zset in Hl. exists m', (q :: ps). split_and!; [done|done| |].
    + intros i Hi Ho. rewrite Hz by lia. rewrite zget_zset_ne by lia. done.
    + cbn [tokens]. rewrite Hrest. apply Forall2_cons. split; [|done].
      apply (str_at_ext (zset m e 0)); [by rewrite Hl, length_zset|intros i Hi; apply Hz; lia|by rewrite Ee; apply (str_at_cut m q w d r)].
Qed.

(** Taking tokens with [strtok] until it returns NULL yields exactly the
    longest runs of non-delimiters of the string, in order, each terminated in
    place; bytes outside the string are untouched, and the calls come to an
    end. *)
Theorem strtok_tokens m p t delim state : str_at m p t ->
  exists m' ps, tokenize (S (length t)) m state (Some p) delim = Some (m', ps) /\ length m' = length m /\ Forall2 (str_at m') ps (tokens delim t) /\
    forall i, 0 <= i -> i < p \/ p + Z.of_nat (length t) <= i -> zget m' i = zget m i.
Proof.
  intros H. destruct (tokenize_spec (S (length t)) m state (Some p) delim p t eq_refl H ltac:(lia)) as (m' & ps & E & Hl & Hz & HF). by exists m', ps.
Qed.

Lemma strtok_tokens_witness : exists m' ps, tokenize 8 [47; 97; 47; 47; 98; 99; 47; 0] None (Some 0) [47] = Some (m', ps) /\ Forall2 (str_at m') ps [[97]; [98; 99]].
Proof.
  destruct (strtok_tokens [47; 97; 47; 47; 98; 99; 47; 0] 0 [47; 97; 47; 47; 98; 99; 47] [47] None) as (m' & ps & H & _ & HF & _).
  - split; [lia|]. split; [repeat constructor; lia|by exists []].
  - exists m', ps. split; [exact H|exact HF].
Defined.

(** ** Copying strings *)

Lemma strcpy_loop_spec fuel d s m t : bytes m -> str_at m s t -> (length t < fuel)%nat -> 0 <= d -> d + Z.of_nat (length t) < len m ->
  d <= s \/ s + Z.of_nat (length t) < d -> exists m', strcpy_loop fuel d s m = Some m' /\ copied (S (length t)) d s m m'.
Proof.
  revert d s m t. induction fuel as [|fuel IH]; intros d s m t Hb H Hf Hd Hdn Ho; [lia|]. cbn [strcpy_loop]. pose proof (str_at_bound m s t H) as Hbd. pose proof (proj1 H) as Hs.
  pose proof (str_at_load m s t H) as Hl. rewrite load_zget in Hl by lia. rewrite load_zget by lia. cbn [mbind option_bind]. pose proof (bytes_zget m s Hb ltac:(lia)) as Hr.
  rewrite store_zset, u8_small by lia. cbn [mbind option_bind]. injection Hl as Hl. set (m1 := zset m d (zget m s)).
  assert (bytes m1) as Hb1 by (apply Forall_insert; [done|lia]). destruct t as [|c t].
  - rewrite (proj2 (Z.eqb_eq (zget m s) 0)) by done. exists m1. split; [done|]. split_and!; [apply length_zset|done|]. intros i Hi. unfold m1. rewrite zget_zset by (cbn in Hdn; lia).
    cbn [length]. repeat case_decide; try lia; try done. f_equal. lia.
  - destruct (str_at_tail m s c t H) as [Hc Ht]. rewrite (proj2 (Z.eqb_neq (zget m s) 0)) by lia. cbn [length] in *.
    destruct (IH (d + 1) (s + 1) m1 t Hb1) as (m' & -> & HL & HB & HZ); [|lia|lia|unfold m1; rewrite length_zset; lia|lia|].
    + apply (str_at_ext m); [apply length_zset| |done]. intros i Hi. unfold m1. by rewrite zget_zset_ne by lia.
    + exists m'. split; [done|]. split_and!; [rewrite HL; apply length_zset|done|]. intros i Hi. rewrite HZ by done. unfold m1.
      destruct (decide (d <= i < d + Z.of_nat (S (S (length t))))), (decide (d + 1 <= i < d + 1 + Z.of_nat (S (length t)))); try lia; rewrite zget_zset by lia; case_decide; try lia; f_equal; lia.
Qed.

(** What a copy of a string holds. *)
Lemma copied_str n d s m m' t : copied n d s m m' -> str_at m s t -> (length t < n)%nat -> 0 <= d -> d + Z.of_nat n <= len m -> str_at m' d t.
Proof.
  intros (Hl & Hb & Hz) H Hn Hd Hdn. pose proof (str_at_bound m s t H) as Hbd. destruct H as [Hs [Hf (rest & E)]]. split; [done|]. split; [done|].
  exists (drop (Z.to_nat d + length t + 1) m'). rewrite <- (take_drop (length t + 1) (drop (Z.to_nat d) m')), drop_drop, Nat.add_assoc.
  assert (take (length t + 1) (drop (Z.to_nat d) m') = take (length t + 1) (drop (Z.to_nat s) m)) as ->.
  { apply take_drop_ext; try lia. intros i Hi. rewrite Hz, decide_True by lia. f_equal. lia. }
  rewrite E. change (t ++ 0 :: rest) with (t ++ [0] ++ rest). rewrite (app_assoc t), take_app_length' by (rewrite length_app; cbn; lia). by rewrite <- app_assoc.
Qed.

(** [strcat] appends a string to another in place: with room behind the
    destination and the source outside of it, the destination then holds the
    concatenation, and nothing else changes. *)
Theorem strcat_correct m d s t u : bytes m -> str_at m d t -> str_at m s u -> d + Z.of_nat (length t) + Z.of_nat (length u) < len m ->
  s + Z.of_nat (length u) < d \/ d + Z.of_nat (length t) + Z.of_nat (length u) < s ->
  exists m', strcat m d s = Some m' /\ str_at m' d (t ++ u) /\ length m' = length m /\
    forall i, 0 <= i -> i < d \/ d + Z.of_nat (length t) + Z.of_nat (length u) < i -> zget m' i = zget m i.
Proof.
  intros Hb Ht Hu Hroom Ho. unfold strcat, str_end. pose proof (str_at_bound m s u Hu). pose proof (proj1 Ht) as Hd. pose proof (proj1 Hu) as Hs. rewrite (strlen_cstr _ t (proj2 Ht)). cbn [mbind option_bind].
  destruct (strcpy_loop_spec (S (length m)) (d + Z.of_nat (length t)) s m u Hb Hu ltac:(lia) ltac:(lia) ltac:(lia) ltac:(lia)) as (m' & -> & Hc). exists m'. split; [done|].
  pose proof (copied_str _ _ _ _ _ u Hc Hu ltac:(lia) ltac:(lia) ltac:(lia)) as [_ [Hfu (rest & Eu)]]. destruct Hc as (Hl & Hb' & Hz). split_and!; [|done|].
  - split; [done|]. destruct Ht as [_ [Hft (rt & Et)]]. split; [by apply Forall_app|]. exists rest. rewrite <- app_assoc, <- Eu.
    rewrite <- (take_drop (length t) (drop (Z.to_nat d) m')), drop_drop. f_equal; [|f_equal; lia]. transitivity (take (length t) (drop (Z.to_nat d) m)); [|by rewrite Et, take_app_length].
    apply take_drop_ext; try lia. intros i Hi. by rewrite Hz, decide_False by lia.
  - intros i Hi Hout. rewrite Hz by done. by rewrite decide_False by lia.
Qed.

Lemma strcat_correct_witness : exists m', strcat [97; 0; 7; 7; 7; 98; 99; 0] 0 5 = Some m' /\ str_at m' 0 [97; 98; 99].
Proof.
  destruct (strcat_correct [97; 0; 7; 7; 7; 98; 99; 0] 0 5 [97] [98; 99]) as (m' & H1 & H2 & _); [repeat constructor; lia|..|cbn; lia|cbn; lia|by exists m'].
  - split; [lia|]. split; [repeat constructor; lia|by eexists].
  - split; [lia|]. split; [repeat constructor; lia|by eexists].
Defined.

End KString.
