(* ===== verification/UserStd.v ===== *)
(** * Numbers and sorting in the user library (user/lib/stdlib.c)

    Conversions between numbers and text, and [qsort].  Strings are the bytes
    from the pointer on, with their terminator; positions in them are counted
    from there.  The accumulators of the conversions wrap at their width. *)

From stdpp Require Import prelude.
From Stdlib Require Import ZArith Lia.
From S2P Require Import Prelude.
Local Open Scope Z_scope.

Module UserStd.

(** ** Text to numbers *)

Definition is_digit (c : Z) : bool := (48 <=? c) && (c <=? 57).

(** Skip characters of a kind; the number skipped and the rest. *)
Fixpoint skip (p : Z -> bool) (s : list Z) : Z * list Z :=
  match s with
  | [] => (0, [])
  | c :: s' => if p c then let '(k, r) := skip p s' in (k + 1, r) else (0, s)
  end.

(** The sign, if there is one. *)
Definition sign (s : list Z) : bool * Z * list Z :=
  match s with
  | c :: s' => if c =? 45 then (true, 1, s') else if c =? 43 then (false, 1, s') else (false, 0, s)
  | [] => (false, 0, [])
  end.

(** [while (digit) n = n * 10 + d] with the width of [n] as [wrap]. *)
Fixpoint decimal (wrap : Z -> Z) (n : Z) (s : list Z) : Z :=
  match s with
  | c :: s' => if is_digit c then decimal wrap (wrap (wrap (n * 10) + (c - 48))) s' else n
  | [] => n
  end.

(** Conversion to [long long]. *)
Definition s64 (z : Z) : Z := let r := u64 z in if r <? 2 ^ 63 then r else r - 2 ^ 64.

Definition atoi (s : list Z) : Z :=
  let '(_, s) := skip (Z.eqb 32) s in
  let '(neg, _, s) := sign s in
  let n := decimal s32 0 s in if neg then s32 (- n) else n.

Definition atol (s : list Z) : Z :=
  let '(_, s) := skip (Z.eqb 32) s in
  let '(neg, _, s) := sign s in
  let n := decimal s64 0 s in if neg then s64 (- n) else n.

Definition digit_value (c : Z) : Z :=
  if (48 <=? c) && (c <=? 57) then c - 48 else
  if (97 <=? c) && (c <=? 122) then c - 97 + 10 else
  if (65 <=? c) && (c <=? 90) then c - 65 + 10 else -1.

Definition is_blank (c : Z) : bool := (c =? 32) || (c =? 9).

(** The base in use and the length of the prefix. *)
Definition prefix (base : Z) (s : list Z) : Z * Z :=
  let c0 := zget s 0 in let c1 := zget s 1 in
  if ((base =? 0) || (base =? 16)) && (c0 =? 48) && ((c1 =? 120) || (c1 =? 88)) then (16, 2) else
  if base =? 0 then (if c0 =? 48 then 8 else 10, 0) else (base, 0).

(** The digits: the value and how many there were. *)
Fixpoint accumulate (wrap : Z -> Z) (base n : Z) (s : list Z) : Z * Z :=
  match s with
  | c :: s' =>
      let d := digit_value (u8 c) in
      if (d <? 0) || (base <=? d) then (n, 0) else
      let '(r, k) := accumulate wrap base (wrap (wrap (n * base) + d)) s' in (r, k + 1)
  | [] => (n, 0)
  end.

(** The value, and the offset stored through [endptr]. *)
Definition strtol (s : list Z) (base : Z) : Z * Z :=
  let '(b, s) := skip is_blank s in
  let '(neg, g, s) := sign s in
  let '(base, x) := prefix base s in
  let '(n, k) := accumulate s64 base 0 (drop (Z.to_nat x) s) in
  (if neg then s64 (- n) else n, b + g + x + k).

Definition strtoul (s : list Z) (base : Z) : Z * Z :=
  let '(b, s) := skip is_blank s in
  let '(g, s) := match s with c :: s' => if c =? 43 then (1, s') else (0, s) | [] => (0, []) end in
  let '(base, x) := prefix base s in
  let '(n, k) := accumulate u64 base 0 (drop (Z.to_nat x) s) in (n, b + g + x + k).

(** ** Numbers to text *)

Definition digit (d : Z) : Z := if d <? 10 then 48 + d else 97 + d - 10.

(** The characters of [tmp], least significant digit first. *)
Fixpoint digits (fuel : nat) (v base : Z) : option (list Z) :=
  match fuel with
  | O => None
  | S fuel' => if v =? 0 then Some [] else l ← digits fuel' (v / base) base; Some (digit (v mod base) :: l)
  end.

(** The buffer [tmp] has 64 characters; a conversion that would leave it, or
    divides by zero, has no result. *)
Definition itoa (value base : Z) : option (list Z) :=
  if base =? 0 then None else
  let neg := (value <? 0) && (base =? 10) in
  let value := if neg then s32 (- value) else value in
  let uval := u32 value in
  tmp ← (if uval =? 0 then Some [48] else digits 65 uval base);
  let tmp := tmp ++ (if neg then [45] else []) in
  if 64 <? Z.of_nat (length tmp) then None else Some (reverse tmp ++ [0]).

Definition utoa (value base : Z) : option (list Z) :=
  if base =? 0 then None else
  tmp ← (if value =? 0 then Some [48] else digits 65 value base);
  if 64 <? Z.of_nat (length tmp) then None else Some (reverse tmp ++ [0]).

(** ** Sorting

    The array as a list of elements; [swap] exchanges two of them.  The bytes
    of two elements are exchanged one by one by [qsort_swap]. *)

Fixpoint qsort_swap (size : nat) (a b : Z) (m : list Z) : list Z :=
  match size with
  | O => m
  | S size' => let t := zget m a in qsort_swap size' (a + 1) (b + 1) (zset (zset m a (zget m b)) b t)
  end.

Section Sort.
Context {A : Type} `{Inhabited A} (compar : A -> A -> Z).
Local Open Scope nat_scope.

Definition swap (i j : nat) (l : list A) : list A := <[i := l !!! j]> (<[j := l !!! i]> l).

(** [while (j > lo && compar(j - 1, j) > 0)] with [j - lo] rounds left. *)
Fixpoint sift (k lo : nat) (l : list A) : list A :=
  match k with
  | O => l
  | S k' => let j := lo + k in if Z.ltb 0 (compar (l !!! (j - 1)) (l !!! j)) then sift k' lo (swap j (j - 1) l) else l
  end.

(** [for (i = lo + 1; i < hi; i++)], [n] rounds from [i] on. *)
Fixpoint insertion (n i lo : nat) (l : list A) : list A :=
  match n with
  | O => l
  | S n' => insertion n' (S i) lo (sift (i - lo) lo l)
  end.

(** [while (i < j && compar(i, pivot) <= 0) i++] with [n] = [j - i] rounds. *)
Fixpoint scan_up (n i p : nat) (l : list A) : nat :=
  match n with
  | O => i
  | S n' => if Z.leb (compar (l !!! i) (l !!! p)) 0 then scan_up n' (S i) p l else i
  end.

(** [while (j > i && compar(j - 1, pivot) > 0) j--] with [n] = [j - i] rounds. *)
Fixpoint scan_down (n i p : nat) (l : list A) : nat :=
  match n with
  | O => i
  | S n' => if Z.ltb 0 (compar (l !!! (i + n')) (l !!! p)) then scan_down n' i p l else i + n
  end.

(** The partition loop: the array and the final [i]. *)
Fixpoint partition (fuel i j p : nat) (l : list A) : option (list A * nat) :=
  match fuel with
  | O => None
  | S fuel' =>
      let i := scan_up (j - i) i p l in
      let j := scan_down (j - i) i p l in
      if j <=? i then Some (l, i) else partition fuel' (S i) j p (swap i (j - 1) l)
  end.

(** The loop of [qsort_rec] with [fuel] rounds; [rec] is the recursive call. *)
Fixpoint qsort_loop (rec : nat -> nat -> list A -> option (list A)) (fuel lo hi : nat) (l : list A) : option (list A) :=
  if lo + 1 <? hi then
    if hi - lo <=? 12 then Some (insertion (hi - (lo + 1)) (lo + 1) lo l) else
    match fuel with
    | O => None
    | S fuel' =>
        let mid := lo + (hi - lo) / 2 in
        '(l, i) ← partition (S (hi - lo)) (lo + 1) hi lo (swap mid lo l);
        let l := swap lo (i - 1) l in
        let split := i - 1 in
        if split - lo <? hi - split then l ← rec lo split l; qsort_loop rec fuel' (split + 1) hi l
        else l ← rec (split + 1) hi l; qsort_loop rec fuel' lo split l
    end
  else Some l.

(** [depth] is the number of stack frames available. *)
Fixpoint qsort_rec (depth lo hi : nat) (l : list A) : option (list A) :=
  match depth with
  | O => None
  | S depth' => qsort_loop (qsort_rec depth') (hi - lo) lo hi l
  end.

Definition qsort (depth nmemb size : nat) (l : list A) : option (list A) :=
  if (nmemb <? 2) || (size =? 0) then Some l else qsort_rec depth 0 nmemb l.

End Sort.

(** ** Sorting: lemmas *)

Section SortProofs.
Context {A : Type} `{Inhabited A} (compar : A -> A -> Z).
Local Open Scope nat_scope.

Definition le (a b : A) : Prop := Z.le (compar a b) 0.

Context (le_trans : forall a b c, le a b -> le b c -> le a c) (le_total : forall a b, le a b \/ le b a).

Definition sorted (lo hi : nat) (l : list A) : Prop := forall a b, lo <= a < b -> b < hi -> le (l !!! a) (l !!! b).

(** The elements from [lo] to [hi] were rearranged, and nothing else. *)
Definition perm_in (lo hi : nat) (l l' : list A) : Prop := l' ≡ₚ l /\ forall k, k < lo \/ hi <= k -> l' !! k = l !! k.

Lemma perm_refl lo hi l : perm_in lo hi l l.
Proof. by split. Qed.

Lemma perm_trans lo hi l l1 l2 : perm_in lo hi l l1 -> perm_in lo hi l1 l2 -> perm_in lo hi l l2.
Proof. intros [P1 E1] [P2 E2]. split; [by rewrite P2|]. intros k Hk. by rewrite E2, E1. Qed.

Lemma perm_weaken lo hi lo' hi' l l' : perm_in lo hi l l' -> lo' <= lo -> hi <= hi' -> perm_in lo' hi' l l'.
Proof. intros [P E] H1 H2. split; [done|]. intros k Hk. apply E. lia. Qed.

Lemma perm_length lo hi l l' : perm_in lo hi l l' -> length l' = length l.
Proof. intros [P _]. by apply Permutation_length. Qed.

Lemma perm_out lo hi l l' k : perm_in lo hi l l' -> k < lo \/ hi <= k -> l' !!! k = l !!! k.
Proof. intros [_ E] Hk. rewrite !list_lookup_total_alt. by rewrite E. Qed.

(** What holds of all elements of a range holds after it was rearranged. *)
Lemma perm_all lo hi l l' (Q : A -> Prop) : perm_in lo hi l l' -> hi <= length l -> (forall k, lo <= k < hi -> Q (l !!! k)) -> forall k, lo <= k < hi -> Q (l' !!! k).
Proof.
  intros [P E] Hhi HQ k Hk. pose proof (Permutation_length P) as HL.
  assert (take lo l' = take lo l) as E1 by (apply list_eq; intros i; destruct (decide (i < lo)); [by rewrite !lookup_take_lt, E by lia|by rewrite !lookup_take_ge by lia]).
  assert (drop hi l' = drop hi l) as E2 by (apply list_eq; intros i; by rewrite !lookup_drop, E by lia).
  assert (forall x : list A, take lo x ++ take (hi - lo) (drop lo x) ++ drop hi x = x) as Es.
  { intros x. rewrite <- (take_drop lo x) at 4. f_equal. rewrite <- (take_drop (hi - lo) (drop lo x)) at 2. f_equal. rewrite drop_drop. f_equal. lia. }
  rewrite <- (Es l), <- (Es l'), E1, E2 in P. apply Permutation_app_inv_l, Permutation_app_inv_r in P.
  assert (Forall Q (take (hi - lo) (drop lo l))) as HF.
  { apply Forall_lookup. intros i x Hx. apply lookup_take_Some in Hx as [Hx Hi]. rewrite lookup_drop in Hx. apply list_lookup_total_correct in Hx as <-. apply HQ. lia. }
  rewrite <- P in HF. rewrite Forall_lookup in HF. apply (HF (k - lo)). rewrite lookup_take_lt, lookup_drop by lia. replace (lo + (k - lo)) with k by lia. apply list_lookup_lookup_total_lt. lia.
Qed.

Lemma swap_lookup i j (l : list A) k : i < length l -> j < length l -> swap i j l !!! k = if decide (k = i) then l !!! j else if decide (k = j) then l !!! i else l !!! k.
Proof.
  intros Hi Hj. unfold swap. destruct (decide (k = i)) as [->|]; [apply list_lookup_total_insert_eq; by rewrite length_insert|]. rewrite list_lookup_total_insert_ne by done.
  destruct (decide (k = j)) as [->|]; [by apply list_lookup_total_insert_eq|by apply list_lookup_total_insert_ne].
Qed.

Lemma swap_perm lo hi i j (l : list A) : lo <= i < hi -> lo <= j < hi -> hi <= length l -> perm_in lo hi l (swap i j l).
Proof.
  intros Hi Hj Hl. split; [apply Permutation_insert_swap; apply list_lookup_lookup_total_lt; lia|]. intros k Hk. unfold swap. by rewrite !list_lookup_insert_ne by lia.
Qed.

Lemma sift_spec k lo top l : lo + k <= top -> top < length l ->
  (forall a b, lo <= a < b -> b <= top -> a <> lo + k -> b <> lo + k -> le (l !!! a) (l !!! b)) ->
  (forall b, lo + k < b <= top -> le (l !!! (lo + k)) (l !!! b)) ->
  perm_in lo (S top) l (sift compar k lo l) /\ sorted lo (S top) (sift compar k lo l).
Proof.
  revert l. induction k as [|k IH]; intros l Hk Ht H1 H2; cbn [sift].
  - split; [apply perm_refl|]. intros a b Ha Hb. destruct (decide (a = lo)) as [->|]; [specialize (H2 b); rewrite Nat.add_0_r in H2; apply H2; lia|apply H1; lia].
  - set (j := lo + S k) in *. destruct (Z.ltb_spec 0 (compar (l !!! (j - 1)) (l !!! j))) as [Hc|Hc].
    + assert (le (l !!! j) (l !!! (j - 1))) as Hle by (destruct (le_total (l !!! j) (l !!! (j - 1))) as [?|Hx]; [done|unfold le in Hx; lia]).
      destruct (IH (swap j (j - 1) l)) as [P Hsort].
      * lia.
      * unfold swap. by rewrite !length_insert.
      * intros a b Ha Hb Hna Hnb. rewrite !swap_lookup by lia. destruct (decide (a = j)) as [->|], (decide (b = j)) as [->|]; try lia; repeat case_decide; try lia; apply H1; lia.
      * intros b Hb. rewrite !swap_lookup by lia. rewrite (decide_False (P := lo + k = j)), (decide_True (P := lo + k = j - 1)) by lia.
        destruct (decide (b = j)) as [->|]; [done|]. rewrite decide_False by lia. apply H2. lia.
      * split; [|done]. eapply perm_trans; [|exact P]. apply swap_perm; lia.
    + split; [apply perm_refl|]. intros a b Ha Hb. destruct (decide (b = j)) as [->|]; [|destruct (decide (a = j)) as [->|]; [apply H2; lia|apply H1; lia]].
      destruct (decide (a = j - 1)) as [->|]; [done|]. apply (le_trans _ (l !!! (j - 1))); [apply H1; lia|done].
Qed.

Lemma insertion_spec n i lo l : lo < i -> i + n <= length l -> sorted lo i l ->
  perm_in lo (i + n) l (insertion compar n i lo l) /\ sorted lo (i + n) (insertion compar n i lo l).
Proof.
  revert i l. induction n as [|n IH]; intros i l Hi Hl Hs; cbn [insertion].
  - rewrite Nat.add_0_r. split; [apply perm_refl|done].
  - destruct (sift_spec (i - lo) lo i l) as [P Hsort]; [lia|lia|intros a b Ha Hb Hna Hnb; apply Hs; lia|lia|].
    destruct (IH (S i) (sift compar (i - lo) lo l)) as [P' Hsort']; [lia|rewrite (perm_length _ _ _ _ P); lia|done|].
    replace (i + S n) with (S i + n) by lia. split; [|done]. eapply perm_trans; [eapply perm_weaken; [exact P|lia|lia]|exact P'].
Qed.

Definition le_all (p lo hi : nat) (l : list A) : Prop := forall k, lo <= k < hi -> le (l !!! k) (l !!! p).
Definition gt_all (p lo hi : nat) (l : list A) : Prop := forall k, lo <= k < hi -> Z.lt 0 (compar (l !!! k) (l !!! p)).

Lemma scan_up_spec n i p l : let r := scan_up compar n i p l in i <= r <= i + n /\ le_all p i r l /\ (r < i + n -> Z.lt 0 (compar (l !!! r) (l !!! p))).
Proof.
  revert i. induction n as [|n IH]; intros i; cbn [scan_up]; [split_and!; [lia|lia|intros k Hk; lia|lia]|].
  destruct (Z.leb_spec (compar (l !!! i) (l !!! p)) 0) as [Hc|Hc].
  - destruct (IH (S i)) as (H1 & H2 & H3). split_and!; [lia|lia| |intros Hr; apply H3; lia]. intros k Hk. destruct (decide (k = i)) as [->|]; [done|]. apply H2. lia.
  - split_and!; [lia|lia|intros k Hk; lia|done].
Qed.

Lemma scan_down_spec n i p l : let r := scan_down compar n i p l in i <= r <= i + n /\ gt_all p r (i + n) l /\ (i < r -> le (l !!! (r - 1)) (l !!! p)).
Proof.
  induction n as [|n IH]; cbn [scan_down]; [split_and!; [lia|lia|intros k Hk; lia|lia]|]. destruct (Z.ltb_spec 0 (compar (l !!! (i + n)) (l !!! p))) as [Hc|Hc].
  - destruct IH as (H1 & H2 & H3). split_and!; [lia|lia| |done]. intros k Hk. destruct (decide (k = i + n)) as [->|]; [done|]. apply H2. lia.
  - split_and!; [lia|lia|intros k Hk; lia|]. intros _. replace (i + S n - 1) with (i + n) by lia. done.
Qed.

Lemma partition_spec fuel lo hi i j l : lo < i -> i <= j -> j <= hi -> hi <= length l -> j - i < fuel -> le_all lo (S lo) i l -> gt_all lo j hi l ->
  exists l' r, partition compar fuel i j lo l = Some (l', r) /\ lo < r <= hi /\ perm_in (S lo) hi l l' /\ le_all lo (S lo) r l' /\ gt_all lo r hi l'.
Proof.
  revert i j l. induction fuel as [|fuel IH]; intros i j l Hi Hij Hj Hl Hf H1 H2; [lia|]. cbn [partition].
  destruct (scan_up_spec (j - i) i lo l) as (U1 & U2 & U3). set (i' := scan_up compar (j - i) i lo l) in *. destruct (scan_down_spec (j - i') i' lo l) as (D1 & D2 & D3).
  set (j' := scan_down compar (j - i') i' lo l) in *. replace (i' + (j - i')) with j in * by lia. replace (i + (j - i)) with j in * by lia.
  assert (le_all lo (S lo) i' l) as H1' by (intros k Hk; destruct (decide (k < i)); [apply H1; lia|apply U2; lia]).
  assert (gt_all lo j' hi l) as H2' by (intros k Hk; destruct (decide (k < j)); [apply D2; lia|apply H2; lia]).
  destruct (Nat.leb_spec j' i').
  - exists l, i'. split_and!; [done|lia|lia|apply perm_refl|done|]. intros k Hk. apply H2'. lia.
  - assert (i' < j' - 1) as Hlt.
    { destruct (decide (i' = j' - 1)) as [E|]; [|lia]. specialize (U3 ltac:(lia)). specialize (D3 ltac:(lia)). rewrite <- E in D3. unfold le in D3. lia. }
    assert (forall k, swap i' (j' - 1) l !!! k = if decide (k = i') then l !!! (j' - 1) else if decide (k = j' - 1) then l !!! i' else l !!! k) as Hsw by (intros k; apply swap_lookup; lia).
    destruct (IH (S i') j' (swap i' (j' - 1) l)) as (l' & r & E & Hr & P & L & G); [lia|lia|lia|unfold swap; by rewrite !length_insert|lia| | |].
    + intros k Hk. rewrite !Hsw. rewrite (decide_False (P := lo = i')), (decide_False (P := lo = j' - 1)) by lia. repeat case_decide; try lia; [apply D3; lia|apply H1'; lia].
    + intros k Hk. rewrite !Hsw. rewrite (decide_False (P := lo = i')), (decide_False (P := lo = j' - 1)) by lia. repeat case_decide; try lia. apply H2'. lia.
    + exists l', r. split_and!; [done|lia|lia| |done|done]. eapply perm_trans; [|exact P]. apply swap_perm; lia.
Qed.

(** [m] separates the smaller from the larger elements. *)
Definition parted (lo m hi : nat) (l : list A) : Prop := le_all m lo m l /\ forall k, m < k < hi -> le (l !!! m) (l !!! k).

Lemma parted_left lo m hi l l' : parted lo m hi l -> m < hi -> hi <= length l -> perm_in lo m l l' -> parted lo m hi l'.
Proof.
  intros [H1 H2] Hm Hl P. pose proof (perm_out _ _ _ _ m P ltac:(lia)) as Em. split.
  - intros k Hk. rewrite Em. by apply (perm_all lo m l l' (fun x => le x (l !!! m)) P ltac:(lia)).
  - intros k Hk. rewrite Em, (perm_out _ _ _ _ k P) by lia. by apply H2.
Qed.

Lemma parted_right lo m hi l l' : parted lo m hi l -> m < hi -> hi <= length l -> perm_in (m + 1) hi l l' -> parted lo m hi l'.
Proof.
  intros [H1 H2] Hm Hl P. pose proof (perm_out _ _ _ _ m P ltac:(lia)) as Em. split.
  - intros k Hk. rewrite Em, (perm_out _ _ _ _ k P) by lia. by apply H1.
  - intros k Hk. rewrite Em. apply (perm_all (m + 1) hi l l' (fun x => le (l !!! m) x) P Hl); [|lia]. intros i Hi. apply H2. lia.
Qed.

Lemma parted_sorted lo m hi l : parted lo m hi l -> m < hi -> sorted lo m l -> sorted (m + 1) hi l -> sorted lo hi l.
Proof.
  intros [H1 H2] Hm S1 S2 a b Ha Hb. destruct (decide (b < m)); [apply S1; lia|]. destruct (decide (m < a)); [apply S2; lia|].
  destruct (decide (a = m)) as [->|]; [apply H2; lia|]. destruct (decide (b = m)) as [->|]; [apply H1; lia|]. apply (le_trans _ (l !!! m)); [apply H1; lia|apply H2; lia].
Qed.

Lemma sorted_out lo hi lo' hi' l l' : perm_in lo' hi' l l' -> hi <= lo' \/ hi' <= lo -> sorted lo hi l -> sorted lo hi l'.
Proof. intros P Hd Hs a b Ha Hb. rewrite !(perm_out _ _ _ _ _ P) by lia. by apply Hs. Qed.

(** One round of the outer loop before the recursion. *)
Lemma split_spec lo hi l : lo + 1 < hi -> hi <= length l ->
  exists l' i, partition compar (S (hi - lo)) (lo + 1) hi lo (swap (lo + (hi - lo) / 2) lo l) = Some (l', i) /\ lo < i <= hi /\
    perm_in lo hi l (swap lo (i - 1) l') /\ parted lo (i - 1) hi (swap lo (i - 1) l').
Proof.
  intros Hlo Hl. assert ((hi - lo) / 2 < hi - lo) by (apply Nat.div_lt; lia). set (mid := lo + (hi - lo) / 2). pose proof (swap_perm lo hi mid lo l ltac:(lia) ltac:(lia) Hl) as P0.
  pose proof (perm_length _ _ _ _ P0) as L0. set (l0 := swap mid lo l) in *.
  destruct (partition_spec (S (hi - lo)) lo hi (lo + 1) hi l0) as (l' & i & E & Hi & P & L & G); [lia|lia|lia|lia|lia|intros k Hk; lia|intros k Hk; lia|].
  pose proof (perm_length _ _ _ _ P) as L1. exists l', i. split; [done|]. split; [done|]. split.
  - eapply perm_trans; [exact P0|]. eapply perm_trans; [eapply perm_weaken; [exact P|lia|lia]|]. apply swap_perm; lia.
  - assert (forall k, swap lo (i - 1) l' !!! k = if decide (k = lo) then l' !!! (i - 1) else if decide (k = i - 1) then l' !!! lo else l' !!! k) as Hsw by (intros k; apply swap_lookup; lia).
    assert (swap lo (i - 1) l' !!! (i - 1) = l' !!! lo) as Em by (rewrite Hsw; repeat case_decide; try done; f_equal; lia). split.
    + intros k Hk. rewrite Em, Hsw. repeat case_decide; try lia; apply L; lia.
    + intros k Hk. rewrite Em, Hsw. repeat case_decide; try lia. specialize (G k ltac:(lia)). destruct (le_total (l' !!! lo) (l' !!! k)) as [?|Hx]; [done|unfold le in Hx; lia].
Qed.

(** The result of sorting a range. *)
Definition sorts (lo hi : nat) (l : list A) (r : option (list A)) : Prop := exists l', r = Some l' /\ perm_in lo hi l l' /\ sorted lo hi l'.

Lemma qsort_loop_spec rec N fuel lo hi l :
  (12 < N -> forall lo' hi' l', 2 * (hi' - lo') <= N -> hi' <= length l' -> sorts lo' hi' l' (rec lo' hi' l')) ->
  hi - lo <= N -> hi - lo <= fuel -> hi <= length l -> sorts lo hi l (qsort_loop compar rec fuel lo hi l).
Proof.
  intros Hrec. revert lo hi l. induction fuel as [|fuel IH]; intros lo hi l HN Hf Hl; cbn [qsort_loop]; (destruct (Nat.ltb_spec (lo + 1) hi) as [Hlo|Hlo];
    [|exists l; split_and!; [done|apply perm_refl|intros a b Ha Hb; lia]]); [lia|].
  destruct (Nat.leb_spec (hi - lo) 12) as [H12|H12].
  { destruct (insertion_spec (hi - (lo + 1)) (lo + 1) lo l) as [P Hs]; [lia|lia|intros a b Ha Hb; lia|]. replace (lo + 1 + (hi - (lo + 1))) with hi in * by lia. eexists. split_and!; done. }
  destruct (split_spec lo hi l Hlo Hl) as (l' & i & -> & Hi & P & Hp). cbn [mbind option_bind]. set (l1 := swap lo (i - 1) l') in *. clearbody l1. pose proof (perm_length _ _ _ _ P) as L1.
  specialize (Hrec ltac:(lia)). destruct (Nat.ltb_spec (i - 1 - lo) (hi - (i - 1))).
  - destruct (Hrec lo (i - 1) l1) as (l2 & -> & P2 & S2); [lia|lia|]. cbn [mbind option_bind]. pose proof (perm_length _ _ _ _ P2) as L2.
    destruct (IH (i - 1 + 1) hi l2) as (l3 & -> & P3 & S3); [lia|lia|lia|]. exists l3. split; [done|]. split.
    + eapply perm_trans; [exact P|]. eapply perm_trans; [eapply perm_weaken; [exact P2|lia|lia]|eapply perm_weaken; [exact P3|lia|lia]].
    + eapply parted_sorted; [eapply parted_right; [eapply parted_left; [exact Hp|lia|lia|done]|lia|lia|done]|lia|eapply sorted_out; [exact P3|lia|done]|done].
  - destruct (Hrec (i - 1 + 1) hi l1) as (l2 & -> & P2 & S2); [lia|lia|]. cbn [mbind option_bind]. pose proof (perm_length _ _ _ _ P2) as L2.
    destruct (IH lo (i - 1) l2) as (l3 & -> & P3 & S3); [lia|lia|lia|]. exists l3. split; [done|]. split.
    + eapply perm_trans; [exact P|]. eapply perm_trans; [eapply perm_weaken; [exact P2|lia|lia]|eapply perm_weaken; [exact P3|lia|lia]].
    + eapply parted_sorted; [eapply parted_left; [eapply parted_right; [exact Hp|lia|lia|done]|lia|lia|done]|lia|done|eapply sorted_out; [exact P3|lia|done]].
Qed.

Lemma qsort_rec_spec d lo hi l : hi - lo < 13 * 2 ^ d -> hi <= length l -> sorts lo hi l (qsort_rec compar (S d) lo hi l).
Proof.
  revert lo hi l. induction d as [|d IH]; intros lo hi l Hd Hl; apply (qsort_loop_spec _ (hi - lo)); try lia; intros HN lo' hi' l' Hh Hl'; [cbn in Hd; lia|].
  apply IH; [|done]. cbn in Hd. lia.
Qed.

End SortProofs.

(** ** Claims *)

(** C18: [qsort] sorts: for any comparison that is a total preorder, the array
    ends up as a sorted permutation of itself, all loops end, and for fewer
    than [13 * 2^d] elements at most [d + 1] stack frames are used, so the
    depth is logarithmic on every input. *)
Theorem qsort_sorts {A} `{Inhabited A} (compar : A -> A -> Z) (l : list A) (d size : nat) :
  (forall a b c, compar a b <= 0 -> compar b c <= 0 -> compar a c <= 0) -> (forall a b, compar a b <= 0 \/ compar b a <= 0) -> (0 < size)%nat ->
  (length l < 13 * 2 ^ d)%nat ->
  exists l', qsort compar (S d) (length l) size l = Some l' /\ l' ≡ₚ l /\
    forall i j, (i < j < length l)%nat -> compar (l' !!! i) (l' !!! j) <= 0.
Proof.
  intros Ht Hto Hs Hd. unfold qsort. destruct (Nat.ltb_spec (length l) 2) as [H2|H2]; cbn [orb].
  - exists l. split_and!; [done|done|]. intros i j Hij. lia.
  - rewrite (proj2 (Nat.eqb_neq size 0)) by lia. destruct (qsort_rec_spec compar Ht Hto d 0 (length l) l) as (l' & -> & [P _] & Hsort); [lia|done|].
    exists l'. split_and!; [done|done|]. intros i j Hij. apply Hsort; lia.
Qed.

Lemma qsort_sorts_witness : exists l', qsort Z.sub 1 5 4 [3; 1; 2; 1; 0] = Some l' /\ l' ≡ₚ [3; 1; 2; 1; 0].
Proof.
  destruct (qsort_sorts Z.sub [3; 1; 2; 1; 0] 0 4) as (l' & H1 & H2 & _); [intros; lia|intros; lia|lia|cbn; lia|]. by exists l'.
Defined.

(** ** Conversions: lemmas *)

(** The value of digits, most significant first. *)
Fixpoint value (base : Z) (ds : list Z) : Z :=
  match ds with
  | [] => 0
  | d :: ds' => d * base ^ Z.of_nat (length ds') + value base ds'
  end.

Lemma value_app base ds d : 0 <= base -> value base (ds ++ [d]) = base * value base ds + d.
Proof.
  intros Hb. induction ds as [|x ds IH]; cbn [value app]; [cbn; lia|]. rewrite IH, length_app. cbn [length].
  replace (Z.of_nat (length ds + 1)) with (Z.succ (Z.of_nat (length ds))) by lia. rewrite Z.pow_succ_r by lia. lia.
Qed.

Lemma value_range base ds : 2 <= base -> Forall (fun d => 0 <= d < base) ds -> 0 <= value base ds < base ^ Z.of_nat (length ds).
Proof.
  intros Hb. induction 1 as [|d ds Hd _ IH]; cbn [value length]; [lia|]. rewrite Nat2Z.inj_succ, Z.pow_succ_r by lia.
  assert (0 < base ^ Z.of_nat (length ds)) by (apply Z.pow_pos_nonneg; lia). nia.
Qed.

(** The loop that collects digits: it ends, within the number of digits that
    the value has, and its characters spell the value; there is no leading
    zero. *)
Lemma digits_spec base n fuel v : 2 <= base <= 36 -> 0 <= v < base ^ Z.of_nat n -> (n < fuel)%nat ->
  exists ds, digits fuel v base = Some (digit <$> ds) /\ (length ds <= n)%nat /\ Forall (fun d => 0 <= d < base) ds /\ value base (reverse ds) = v /\
    (v = 0 -> ds = []) /\ (v <> 0 -> exists d r, reverse ds = d :: r /\ d <> 0).
Proof.
  intros Hb. revert n v. induction fuel as [|fuel IH]; intros n v Hv Hf; [lia|]. cbn [digits]. destruct (Z.eqb_spec v 0) as [->|Hne].
  - exists []. split_and!; [done|cbn; lia|apply Forall_nil_2|done..].
  - destruct n as [|n]; [cbn in Hv; lia|]. pose proof (Z.div_mod v base ltac:(lia)) as Hdm. pose proof (Z.mod_pos_bound v base ltac:(lia)) as Hm.
    assert (0 <= v / base < base ^ Z.of_nat n) as Hd.
    { split; [apply Z.div_pos; lia|]. apply Z.div_lt_upper_bound; [lia|]. rewrite Nat2Z.inj_succ, Z.pow_succ_r in Hv by lia. lia. }
    destruct (IH n (v / base) Hd ltac:(lia)) as (ds & -> & Hl & HF & Hval & Hnil & Hlead). exists (v mod base :: ds). cbn [mbind option_bind fmap list_fmap length].
    split_and!; [done|lia|by apply Forall_cons|rewrite reverse_cons, value_app, Hval by lia; lia|done|]. intros _. rewrite reverse_cons. destruct (decide (v / base = 0)) as [E|E].
    + rewrite (Hnil E). exists (v mod base), []. split; [done|lia].
    + destruct (Hlead E) as (d & r & -> & Hne'). by exists d, (r ++ [v mod base]).
Qed.

Lemma digit_value_digit d : 0 <= d < 36 -> digit_value (u8 (digit d)) = d /\ u8 (digit d) = digit d /\ 48 <= digit d <= 122.
Proof.
  intros Hd. assert (forallb (fun d => (digit_value (u8 (digit d)) =? d) && (u8 (digit d) =? digit d) && (48 <=? digit d) && (digit d <=? 122)) (seqZ 0 36) = true) as H by (by vm_compute).
  rewrite forallb_forall in H. specialize (H d ltac:(apply list_elem_of_In, elem_of_seqZ; lia)). by b2p.
Qed.

Lemma horner n base d P : 0 <= n -> 0 <= base -> 0 <= d -> 0 < P ->
  0 <= n * base /\ n * base + d <= (n * base + d) * P /\ (n * base + d) * P = n * (base * P) + d * P.
Proof. intros. split_and!; [nia|nia|lia]. Qed.

Lemma accumulate_digits wrap bound base n ds rest : 2 <= base <= 36 -> (forall x, 0 <= x < bound -> wrap x = x) -> Forall (fun d => 0 <= d < base) ds -> 0 <= n ->
  n * base ^ Z.of_nat (length ds) + value base ds < bound ->
  accumulate wrap base n ((digit <$> ds) ++ 0 :: rest) = (n * base ^ Z.of_nat (length ds) + value base ds, Z.of_nat (length ds)).
Proof.
  intros Hb Hw Hf. revert n. induction Hf as [|d ds Hd Hf IH]; intros n Hn Hlt; cbn [accumulate fmap list_fmap app].
  - cbn. f_equal. lia.
  - destruct (digit_value_digit d ltac:(lia)) as (-> & _). rewrite (proj2 (Z.ltb_ge d 0)), (proj2 (Z.leb_gt base d)) by lia. cbn [orb].
    pose proof (value_range base ds ltac:(lia) Hf) as Hr. cbn [length value] in *. rewrite Nat2Z.inj_succ, Z.pow_succ_r in * by lia.
    assert (0 < base ^ Z.of_nat (length ds)) as Hp by (apply Z.pow_pos_nonneg; lia).
    destruct (horner n base d (base ^ Z.of_nat (length ds))) as (H1 & H2 & H3); [lia..|]. rewrite (Hw (n * base)), (Hw (n * base + d)) by lia. rewrite IH by lia. f_equal; lia.
Qed.

Lemma decimal_digits wrap bound n ds rest : (forall x, 0 <= x < bound -> wrap x = x) -> Forall (fun d => 0 <= d < 10) ds -> 0 <= n ->
  n * 10 ^ Z.of_nat (length ds) + value 10 ds < bound -> decimal wrap n ((digit <$> ds) ++ 0 :: rest) = n * 10 ^ Z.of_nat (length ds) + value 10 ds.
Proof.
  intros Hw Hf. revert n. induction Hf as [|d ds Hd Hf IH]; intros n Hn Hlt; cbn [decimal fmap list_fmap app].
  - cbn. lia.
  - assert (digit d = 48 + d) as -> by (unfold digit; by rewrite (proj2 (Z.ltb_lt d 10)) by lia). unfold is_digit. rewrite (proj2 (Z.leb_le 48 _)), (proj2 (Z.leb_le _ 57)) by lia. cbn [andb].
    pose proof (value_range 10 ds ltac:(lia) Hf) as Hr. cbn [length value] in *. rewrite Nat2Z.inj_succ, Z.pow_succ_r in * by lia.
    assert (0 < 10 ^ Z.of_nat (length ds)) as Hp by (apply Z.pow_pos_nonneg; lia). replace (48 + d - 48) with d by lia.
    destruct (horner n 10 d (10 ^ Z.of_nat (length ds))) as (H1 & H2 & H3); [lia..|]. rewrite (Hw (n * 10)), (Hw (n * 10 + d)) by lia. rewrite IH by lia. lia.
Qed.

(** The text of a number, as digits. *)
Lemma number_text base v n : 2 <= base <= 36 -> 0 <= v < base ^ Z.of_nat n -> (0 < n <= 64)%nat ->
  exists d r, (if v =? 0 then Some [48] else digits 65 v base) = Some (digit <$> reverse (d :: r)) /\ (length (d :: r) <= n)%nat /\
    Forall (fun d => 0 <= d < base) (d :: r) /\ value base (d :: r) = v /\ (d = 0 -> r = []).
Proof.
  intros Hb Hv Hn. destruct (Z.eqb_spec v 0) as [->|Hne].
  - exists 0, []. split_and!; [done|cbn; lia|repeat constructor; lia|done|done].
  - destruct (digits_spec base n 65 v Hb Hv ltac:(lia)) as (ds & -> & Hl & HF & Hval & _ & Hlead). destruct (Hlead Hne) as (d & r & E & Hd). exists d, r.
    rewrite <- E, reverse_involutive, length_reverse. split_and!; [done|done|by apply Forall_reverse|done|done].
Qed.

(** C36: A 64-bit number written with [utoa] in any base from 2 to 36 and read
    back with [strtoul] is the same number, the end pointer is at the
    terminator, and at most 64 of the 64 characters of the temporary buffer
    are used. *)
Theorem utoa_strtoul v base : 0 <= v < 2 ^ 64 -> 2 <= base <= 36 ->
  exists buf, utoa v base = Some buf /\ strtoul buf base = (v, Z.of_nat (length buf) - 1) /\ Z.of_nat (length buf) <= 65.
Proof.
  intros Hv Hb. assert (v < base ^ Z.of_nat 64) as Hlt by (eapply Z.lt_le_trans; [apply Hv|]; apply Z.pow_le_mono_l; lia).
  destruct (number_text base v 64 Hb ltac:(lia) ltac:(lia)) as (d & r & E & Hl & HF & Hval & Hd). unfold utoa. rewrite (proj2 (Z.eqb_neq base 0)), E by lia. cbn [mbind option_bind].
  rewrite length_fmap, length_reverse, (proj2 (Z.ltb_ge 64 _)) by lia. rewrite <- fmap_reverse, reverse_involutive. eexists. split; [done|]. split; [|rewrite length_app, length_fmap; cbn in *; lia].
  pose proof HF as HF0. apply Forall_cons in HF as [Hd0 HF]. destruct (digit_value_digit d ltac:(lia)) as (_ & _ & Hc). unfold strtoul. cbn [fmap list_fmap app skip]. unfold is_blank at 1.
  rewrite (proj2 (Z.eqb_neq (digit d) 32)), (proj2 (Z.eqb_neq (digit d) 9)) by lia. cbn [orb]. cbv iota beta. rewrite (proj2 (Z.eqb_neq (digit d) 43)) by lia. cbv iota beta.
  assert (prefix base (digit d :: (digit <$> r) ++ [0]) = (base, 0)) as ->.
  { unfold prefix. rewrite (proj2 (Z.eqb_neq base 0)) by lia. cbn [orb]. destruct (Z.eqb_spec base 16) as [->|]; [|done]. cbn [andb]. change (zget (digit d :: (digit <$> r) ++ [0]) 0) with (digit d).
    destruct (Z.eqb_spec (digit d) 48) as [E48|]; [|done]. rewrite (Hd ltac:(unfold digit in E48; destruct (d <? 10); lia)). done. }
  change (drop (Z.to_nat 0) (digit d :: (digit <$> r) ++ [0])) with ((digit <$> d :: r) ++ 0 :: []). rewrite (accumulate_digits u64 (2 ^ 64)); [|done|intros x Hx; by apply u64_small|done|lia|lia].
  rewrite Hval. cbn. rewrite length_app, length_fmap. cbn. f_equal; lia.
Qed.

Lemma utoa_strtoul_witness : exists buf, utoa 255 16 = Some buf /\ strtoul buf 16 = (255, Z.of_nat (length buf) - 1).
Proof. destruct (utoa_strtoul 255 16) as (buf & H1 & H2 & _); [lia|lia|]. by exists buf. Defined.

(** Every [int] but the least one survives [itoa] in base 10 followed by
    [atoi]. *)
Theorem itoa_atoi v : - 2 ^ 31 < v < 2 ^ 31 -> exists buf, itoa v 10 = Some buf /\ atoi buf = v.
Proof.
  intros Hv. unfold itoa. cbn [Z.eqb Pos.eqb]. rewrite andb_true_r. set (neg := v <? 0). set (a := u32 (if neg then s32 (- v) else v)).
  assert (a = Z.abs v) as Ea by (unfold a, neg; destruct (Z.ltb_spec v 0); rewrite ?s32_small by lia; rewrite u32_small by lia; lia). clearbody a. subst a.
  destruct (number_text 10 (Z.abs v) 10 ltac:(lia) ltac:(cbn; lia) ltac:(lia)) as (d & r & -> & Hl & HF & Hval & _). cbn [mbind option_bind].
  rewrite length_app, length_fmap, length_reverse. rewrite (proj2 (Z.ltb_ge 64 _)) by (destruct neg; cbn in *; lia). eexists. split; [done|].
  rewrite reverse_app, <- fmap_reverse, reverse_involutive. pose proof HF as HF0. apply Forall_cons in HF as [Hd0 HF]. assert (digit d = 48 + d) as Ed by (unfold digit; by rewrite (proj2 (Z.ltb_lt d 10)) by lia).
  assert (decimal s32 0 ((digit <$> d :: r) ++ [0]) = Z.abs v) as Hdec by (rewrite (decimal_digits s32 (2 ^ 31)); [lia|intros x Hx; apply s32_small; lia|done|lia|lia]).
  unfold atoi, neg. destruct (Z.ltb_spec v 0).
  - cbn [reverse rev_append app skip]. change (32 =? 45) with false. cbn [sign]. change (45 =? 45) with true. cbv iota beta. rewrite Hdec, s32_id by lia. lia.
  - cbn [reverse rev_append app fmap list_fmap skip] in *. rewrite (proj2 (Z.eqb_neq 32 (digit d))) by lia. cbn [sign]. rewrite (proj2 (Z.eqb_neq (digit d) 45)), (proj2 (Z.eqb_neq (digit d) 43)) by lia.
    cbv iota beta. rewrite Hdec. lia.
Qed.

Lemma itoa_atoi_witness : exists buf, itoa (-120) 10 = Some buf /\ atoi buf = -120.
Proof. apply (itoa_atoi (-120)). lia. Defined.

(** The byte loop exchanges two elements that do not overlap. *)
Lemma qsort_swap_spec size a b m : 0 <= a -> a + Z.of_nat size <= b -> b + Z.of_nat size <= Z.of_nat (length m) ->
  length (qsort_swap size a b m) = length m /\
  forall k, 0 <= k -> zget (qsort_swap size a b m) k =
    if decide (a <= k < a + Z.of_nat size) then zget m (b + (k - a)) else if decide (b <= k < b + Z.of_nat size) then zget m (a + (k - b)) else zget m k.
Proof.
  revert a b m. induction size as [|size IH]; intros a b m Ha Hab Hb; cbn [qsort_swap].
  - split; [done|]. intros k Hk. by rewrite !decide_False by lia.
  - set (m1 := zset (zset m a (zget m b)) b (zget m a)). assert (length m1 = length m) as L1 by (unfold m1; by rewrite !length_zset).
    destruct (IH (a + 1) (b + 1) m1) as [L Hz]; [lia..|]. split; [by rewrite L|]. intros k Hk. rewrite Hz by done.
    assert (forall j, 0 <= j -> zget m1 j = if decide (j = b) then zget m a else if decide (j = a) then zget m b else zget m j) as H1.
    { intros j Hj. unfold m1. destruct (decide (j = b)) as [->|]; [by rewrite zget_zset_eq by (rewrite length_zset; lia)|]. rewrite zget_zset_ne by lia.
      destruct (decide (j = a)) as [->|]; [by rewrite zget_zset_eq by lia|by rewrite zget_zset_ne by lia]. }
    repeat case_decide; try lia; rewrite H1 by lia; repeat case_decide; try lia; f_equal; lia.
Qed.

End UserStd.
