(* ===== verification/Pmm.v ===== *)
(** * Physical page allocator (kernel/memory/pmm.c)

    The bitmap allocator with per-page reference counts.  [pmm] holds the
    file's static variables; the bitmap is the byte array the C code keeps,
    manipulated with the same shifts and masks.  [view] is the abstract state:
    one boolean per physical page.  The eviction loop that precedes the scan of
    [pmm_alloc_page] needs the swap subsystem and is in Vm.v; the scan
    itself is [pmm_take_page]. *)

From stdpp Require Import prelude.
From Stdlib Require Import ZArith Lia.
From S2P Require Import Prelude.
Local Open Scope Z_scope.

Module Pmm.

(** ** State and operations *)

Record pmm := mk_pmm {
  bitmap : list Z;
  total_pages : Z;
  free_pages : Z;
  max_phys_addr : Z;
  alloc_hint : Z;
  page_refcount : list Z;
  kernel_page_limit : Z
}.

Definition set_bitmap (b : list Z) (free : Z) (p : pmm) : pmm :=
  mk_pmm b (total_pages p) free (max_phys_addr p) (alloc_hint p)
         (page_refcount p) (kernel_page_limit p).

Definition set_refcount (r : list Z) (p : pmm) : pmm :=
  mk_pmm (bitmap p) (total_pages p) (free_pages p) (max_phys_addr p)
         (alloc_hint p) r (kernel_page_limit p).

Definition bitmap_set (b : list Z) (page : Z) : list Z :=
  zset b (page / 8) (u8 (Z.lor (zget b (page / 8)) (Z.shiftl 1 (page mod 8)))).

Definition bitmap_clear (b : list Z) (page : Z) : list Z :=
  zset b (page / 8) (u8 (Z.land (zget b (page / 8)) (Z.lnot (Z.shiftl 1 (page mod 8))))).

Definition bitmap_test (b : list Z) (page : Z) : bool :=
  negb (Z.land (zget b (page / 8)) (Z.shiftl 1 (page mod 8)) =? 0).

(** Multiboot2 records, read from the boot information bytes. *)
Record mb2_mmap_entry := mk_entry { base_addr : Z; len : Z; etype : Z }.

Definition read_entry (mb : list Z) (off : Z) : mb2_mmap_entry :=
  mk_entry (rd64 mb off) (rd64 mb (off + 8)) (rd32 mb (off + 16)).

(** The walk over the entries of one memory-map tag. *)
Fixpoint walk_entries {S} (fuel : nat) (f : mb2_mmap_entry -> S -> S)
    (mb : list Z) (off entries_end entry_size : Z) (st : S) : option S :=
  match fuel with
  | O => None
  | S fuel' =>
      if off <? entries_end
      then walk_entries fuel' f mb (off + entry_size) entries_end entry_size
             (f (read_entry mb off) st)
      else Some st
  end.

(** Tags are 8-byte aligned: [(tag->size + 7) & ~7] in [uint32_t]. *)
Definition tag_stride (size : Z) : Z := Z.land (u32 (size + 7)) (Z.lnot 7).

(** The walk over the boot-information tags, shared by both passes. *)
Fixpoint walk_tags {S} (fuel : nat) (f : mb2_mmap_entry -> S -> S)
    (mb : list Z) (tag_off mb_end : Z) (st : S) : option S :=
  match fuel with
  | O => None
  | S fuel' =>
      if tag_off <? mb_end then
        let ty := rd32 mb tag_off in
        let size := rd32 mb (tag_off + 4) in
        if ty =? 0 then Some st
        else
          match (if ty =? 6
                 then walk_entries (Z.to_nat (size + 1)) f mb (tag_off + 16)
                        (tag_off + size) (rd32 mb (tag_off + 8)) st
                 else Some st) with
          | Some st' => walk_tags fuel' f mb (tag_off + tag_stride size) mb_end st'
          | None => None
          end
      else Some st
  end.

(** First pass: the highest end address of any region. *)
Definition raise_max (e : mb2_mmap_entry) (mx : Z) : Z :=
  let e_end := u64 (base_addr e + len e) in
  if mx <? e_end then e_end else mx.

(** [if (bitmap_test(page)) { bitmap_clear(page); free_pages++; }] *)
Definition free_if_used (addr : Z) (p : pmm) : pmm :=
  let page := addr / PAGE_SIZE in
  if bitmap_test (bitmap p) page
  then set_bitmap (bitmap_clear (bitmap p) page) (u64 (free_pages p + 1)) p
  else p.

(** [if (!bitmap_test(page)) { bitmap_set(page); free_pages--; }] *)
Definition reserve_if_free (addr : Z) (p : pmm) : pmm :=
  let page := addr / PAGE_SIZE in
  if bitmap_test (bitmap p) page then p
  else set_bitmap (bitmap_set (bitmap p) page) (u64 (free_pages p - 1)) p.

(** Second pass: free the pages of an available region. *)
Definition free_region (e : mb2_mmap_entry) (p : pmm) : pmm :=
  if etype e =? 1 then
    let base := page_up (base_addr e) in
    let e_end := page_down (u64 (base_addr e + len e)) in
    page_loop (pages_between base (Z.min e_end (max_phys_addr p))) base free_if_used p
  else p.

Definition MAX_PHYS : Z := 512 * 1024 * 1024.

(** The state before the second pass: every page used, reference counts zero.
    [bitmap_size] bytes of [0xFF], [total_pages] zero counters. *)
Definition pmm_blank (mx : Z) : pmm :=
  let total := mx / PAGE_SIZE in
  mk_pmm (replicate (Z.to_nat ((total + 7) / 8)) 255) total 0 mx 0
         (replicate (Z.to_nat total) 0) 0.

(** End of the kernel image, bitmap and reference counts, page aligned:
    [bitmap_phys], [refcount_phys], [reserve_end]. *)
Definition reserve_end (kernel_phys_end total : Z) : Z :=
  let bitmap_phys := page_up kernel_phys_end in
  let refcount_phys := page_up (u64 (bitmap_phys + (total + 7) / 8)) in
  page_up (u64 (refcount_phys + total)).

(** [None] only when a zero stride makes the C loop run forever. *)
Definition pmm_init (mb : list Z) (kernel_phys_end : Z) : option pmm :=
  let mb_total_size := rd32 mb 0 in
  let fuel := S (Z.to_nat mb_total_size) in
  match walk_tags fuel raise_max mb 8 mb_total_size 0 with
  | None => None
  | Some mx0 =>
      let mx := if MAX_PHYS <? mx0 then MAX_PHYS else mx0 in
      let p0 := pmm_blank mx in
      match walk_tags fuel free_region mb 8 mb_total_size p0 with
      | None => None
      | Some p1 =>
          let p2 := page_loop (pages_between 0 0x100000) 0 reserve_if_free p1 in
          let r_end := reserve_end kernel_phys_end (total_pages p0) in
          Some (page_loop (pages_between 0x100000 r_end) 0x100000 reserve_if_free p2)
      end
  end.

(** The body of the scan when page [i] is free: mark it, count it, one owner,
    move the hint past it. *)
Definition claim_page (p : pmm) (i : Z) : pmm :=
  mk_pmm (bitmap_set (bitmap p) i) (total_pages p) (u64 (free_pages p - 1))
         (max_phys_addr p) (i + 1) (zset (page_refcount p) i 1) (kernel_page_limit p).

(** The next-fit scan of [pmm_alloc_page]: turn [j] of the loop. *)
Fixpoint pmm_scan (n : nat) (j : Z) (p : pmm) : pmm * Z :=
  match n with
  | O => (p, 0)
  | S n' =>
      let i := (alloc_hint p + j) mod total_pages p in
      if bitmap_test (bitmap p) i then pmm_scan n' (j + 1) p
      else (claim_page p i, i * PAGE_SIZE)
  end.

Definition pmm_take_page (p : pmm) : pmm * Z := pmm_scan (Z.to_nat (total_pages p)) 0 p.

(** [kernel_page_limit && page < kernel_page_limit] *)
Definition is_kernel_page (p : pmm) (page : Z) : bool :=
  negb (kernel_page_limit p =? 0) && (page <? kernel_page_limit p).

Definition pmm_free_page (phys_addr : Z) (p : pmm) : pmm :=
  let page := phys_addr / PAGE_SIZE in
  if (page <? total_pages p) && bitmap_test (bitmap p) page then
    if is_kernel_page p page then p
    else set_refcount (zset (page_refcount p) page 0)
           (set_bitmap (bitmap_clear (bitmap p) page) (u64 (free_pages p + 1)) p)
  else p.

Definition pmm_get_free_pages (p : pmm) : Z := free_pages p.
Definition pmm_get_total_pages (p : pmm) : Z := total_pages p.

Definition all_pages (p : pmm) : list Z := seqZ 0 (total_pages p).

Definition pmm_set_kernel_end (p : pmm) : pmm :=
  let limit :=
    match find_index (fun i => negb (bitmap_test (bitmap p) i)) (all_pages p) with
    | Some i => Z.of_nat i
    | None => total_pages p
    end in
  mk_pmm (bitmap p) (total_pages p) (free_pages p) (max_phys_addr p) (alloc_hint p)
         (page_refcount p) limit.

Definition pmm_page_ref (phys_addr : Z) (p : pmm) : pmm :=
  let page := phys_addr / PAGE_SIZE in
  if (page <? total_pages p) && (zget (page_refcount p) page <? 255)
  then set_refcount (zset (page_refcount p) page (zget (page_refcount p) page + 1)) p
  else p.

Definition pmm_page_unref (phys_addr : Z) (p : pmm) : pmm :=
  let page := phys_addr / PAGE_SIZE in
  if (page <? total_pages p) && (0 <? zget (page_refcount p) page) then
    let rc := zget (page_refcount p) page - 1 in
    let p' := set_refcount (zset (page_refcount p) page rc) p in
    if rc =? 0 then
      if is_kernel_page p page then p'
      else set_bitmap (bitmap_clear (bitmap p') page) (u64 (free_pages p + 1)) p'
    else p'
  else p.

Definition pmm_page_refcount (phys_addr : Z) (p : pmm) : Z :=
  let page := phys_addr / PAGE_SIZE in
  if page <? total_pages p then zget (page_refcount p) page else 0.

(** ** Abstract view and invariant *)

(** [view b n]: for each page below [n], whether it is in use. *)
Definition view (b : list Z) (n : Z) : list bool := bitmap_test b <$> seqZ 0 n.

Definition used (p : pmm) (page : Z) : bool := bitmap_test (bitmap p) page.

Record wf (p : pmm) : Prop := mk_wf {
  wf_total : 0 <= total_pages p <= 131072;
  wf_bitmap_len : Z.of_nat (length (bitmap p)) = (total_pages p + 7) / 8;
  wf_refcount_len : Z.of_nat (length (page_refcount p)) = total_pages p;
  wf_refcount_range : forall i, 0 <= i < total_pages p ->
    0 <= zget (page_refcount p) i <= 255;
  wf_free : free_pages p = countb negb (view (bitmap p) (total_pages p));
  wf_ref_used : forall i, 0 <= i < total_pages p ->
    0 < zget (page_refcount p) i -> used p i = true;
  wf_hint : 0 <= alloc_hint p <= total_pages p;
  wf_limit : 0 <= kernel_page_limit p <= total_pages p
}.

(** Kernel-owned pages stay out of the free pool. *)
Definition kernel_reserved (p : pmm) : Prop :=
  forall i, 0 <= i < kernel_page_limit p -> used p i = true.

(** ** Bits *)

Lemma pow2_land_eqb x k : 0 <= k -> negb (Z.land x (Z.shiftl 1 k) =? 0) = Z.testbit x k.
Proof. intros. rewrite Z.shiftl_1_l. by apply test_pow2. Qed.

Lemma testbit_u8 x k : 0 <= k < 8 -> Z.testbit (u8 x) k = Z.testbit x k.
Proof. intros. unfold u8. apply (Z.mod_pow2_bits_low x 8 k). lia. Qed.

Lemma bitmap_test_spec b page :
  bitmap_test b page = Z.testbit (zget b (page / 8)) (page mod 8).
Proof. apply pow2_land_eqb. zsolve. Qed.

Lemma bitmap_set_spec b i j :
  0 <= i / 8 < Z.of_nat (length b) -> 0 <= i -> 0 <= j ->
  bitmap_test (bitmap_set b i) j = bool_decide (i = j) || bitmap_test b j.
Proof.
  intros Hi ??. rewrite !bitmap_test_spec. unfold bitmap_set.
  destruct (decide (i / 8 = j / 8)) as [E|E].
  - rewrite E in *. rewrite zget_zset_eq by lia.
    rewrite testbit_u8 by zsolve. rewrite Z.lor_spec, orb_comm. f_equal.
    rewrite Z.shiftl_1_l, Z.pow2_bits_eqb by zsolve.
    destruct (decide (i = j)) as [->|];
      [rewrite bool_decide_true by done; apply Z.eqb_refl|].
    rewrite bool_decide_false by done. apply Z.eqb_neq. zsolve.
  - rewrite zget_zset_ne by zsolve.
    rewrite bool_decide_false; [done|]. congruence.
Qed.

Lemma bitmap_clear_spec b i j :
  0 <= i / 8 < Z.of_nat (length b) -> 0 <= i -> 0 <= j ->
  bitmap_test (bitmap_clear b i) j = negb (bool_decide (i = j)) && bitmap_test b j.
Proof.
  intros Hi ??. rewrite !bitmap_test_spec. unfold bitmap_clear.
  destruct (decide (i / 8 = j / 8)) as [E|E].
  - rewrite E in *. rewrite zget_zset_eq by lia.
    rewrite testbit_u8 by zsolve. rewrite Z.land_spec, andb_comm. f_equal.
    rewrite Z.lnot_spec by zsolve. f_equal.
    rewrite Z.shiftl_1_l, Z.pow2_bits_eqb by zsolve.
    destruct (decide (i = j)) as [->|];
      [rewrite bool_decide_true by done; apply Z.eqb_refl|].
    rewrite bool_decide_false by done. apply Z.eqb_neq. zsolve.
  - rewrite zget_zset_ne by zsolve.
    rewrite bool_decide_false; [done|]. congruence.
Qed.

Lemma length_bitmap_set b i : length (bitmap_set b i) = length b.
Proof. apply length_zset. Qed.

Lemma length_bitmap_clear b i : length (bitmap_clear b i) = length b.
Proof. apply length_zset. Qed.

(** ** The abstract view *)

Lemma length_view b n : 0 <= n -> Z.of_nat (length (view b n)) = n.
Proof. intros. unfold view. rewrite length_fmap, length_seqZ. lia. Qed.

Lemma zget_view b n i : 0 <= i < n -> zget (view b n) i = bitmap_test b i.
Proof.
  intros. unfold zget, view.
  apply list_lookup_total_correct. rewrite list_lookup_fmap.
  rewrite lookup_seqZ_lt by lia. simpl. do 2 f_equal. lia.
Qed.

Lemma view_ext b n (l : list bool) :
  0 <= n -> Z.of_nat (length l) = n ->
  (forall i, 0 <= i < n -> bitmap_test b i = zget l i) -> view b n = l.
Proof.
  intros Hn Hl H. apply list_eq_same_length with (length l); [done| |].
  - pose proof (length_view b n Hn). lia.
  - intros i x y Hi Hx Hy.
    assert (zget (view b n) (Z.of_nat i) = x) as <-.
    { unfold zget. rewrite Nat2Z.id. by apply list_lookup_total_correct. }
    assert (zget l (Z.of_nat i) = y) as <-.
    { unfold zget. rewrite Nat2Z.id. by apply list_lookup_total_correct. }
    rewrite zget_view by lia. apply H. lia.
Qed.

Lemma view_set b n i :
  0 <= i < n -> (n + 7) / 8 <= Z.of_nat (length b) ->
  view (bitmap_set b i) n = zset (view b n) i true.
Proof.
  intros Hi Hb. apply view_ext; [lia|rewrite length_zset; apply length_view; lia|].
  intros j Hj. rewrite bitmap_set_spec by zsolve.
  pose proof (length_view b n ltac:(lia)).
  destruct (decide (i = j)) as [->|].
  - by rewrite bool_decide_true, zget_zset_eq by lia.
  - by rewrite bool_decide_false, zget_zset_ne, zget_view by lia.
Qed.

Lemma view_clear b n i :
  0 <= i < n -> (n + 7) / 8 <= Z.of_nat (length b) ->
  view (bitmap_clear b i) n = zset (view b n) i false.
Proof.
  intros Hi Hb. apply view_ext; [lia|rewrite length_zset; apply length_view; lia|].
  intros j Hj. rewrite bitmap_clear_spec by zsolve.
  pose proof (length_view b n ltac:(lia)).
  destruct (decide (i = j)) as [->|].
  - by rewrite bool_decide_true, zget_zset_eq by lia.
  - by rewrite bool_decide_false, zget_zset_ne, zget_view by lia.
Qed.

(** Marking a free page used lowers the number of free pages by one, and
    conversely. *)
Lemma count_set b n i :
  0 <= i < n -> (n + 7) / 8 <= Z.of_nat (length b) -> bitmap_test b i = false ->
  countb negb (view (bitmap_set b i) n) = countb negb (view b n) - 1.
Proof.
  intros Hi Hb Hf. rewrite view_set by done.
  pose proof (length_view b n ltac:(lia)).
  rewrite countb_zset by lia. rewrite zget_view, Hf by lia. simpl. lia.
Qed.

Lemma count_clear b n i :
  0 <= i < n -> (n + 7) / 8 <= Z.of_nat (length b) -> bitmap_test b i = true ->
  countb negb (view (bitmap_clear b i) n) = countb negb (view b n) + 1.
Proof.
  intros Hi Hb Hf. rewrite view_clear by done.
  pose proof (length_view b n ltac:(lia)).
  rewrite countb_zset by lia. rewrite zget_view, Hf by lia. simpl. lia.
Qed.

Lemma count_free_bounds b n : 0 <= n -> 0 <= countb negb (view b n) <= n.
Proof.
  intros. pose proof (countb_bounds negb (view b n)).
  rewrite length_view in * by lia. lia.
Qed.

(** A free page exists, so the counter of free pages is positive. *)
Lemma count_free_pos b n i :
  0 <= i < n -> bitmap_test b i = false -> 0 < countb negb (view b n).
Proof.
  intros Hi Hf. pose proof (count_free_bounds b n ltac:(lia)).
  destruct (decide (countb negb (view b n) = 0)) as [E|]; [|lia].
  rewrite countb_zero in E. specialize (E (Z.to_nat i) (bitmap_test b i)).
  rewrite Hf in E. exfalso. enough (negb false = false) by done. apply E.
  rewrite <- Hf, <- (zget_view b n) by lia. apply zget_lookup.
  rewrite length_view; lia.
Qed.

(** ** Operations preserve the invariant *)

(** Clearing the bit of a used page whose count is being dropped to zero. *)
Lemma wf_clear p i r :
  wf p -> 0 <= i < total_pages p -> used p i = true ->
  Z.of_nat (length r) = total_pages p ->
  zget r i = 0 -> (forall j, 0 <= j -> i <> j -> zget r j = zget (page_refcount p) j) ->
  wf (set_refcount r (set_bitmap (bitmap_clear (bitmap p) i) (u64 (free_pages p + 1)) p)).
Proof.
  intros W Hi Hu Hl Hz Ho. pose proof (count_free_bounds (bitmap p) (total_pages p)).
  pose proof (wf_total _ W). pose proof (wf_bitmap_len _ W). pose proof (wf_free _ W).
  unfold used in Hu.
  constructor; unfold set_refcount, set_bitmap; simpl; try (by eauto using wf_hint, wf_limit).
  - by rewrite length_bitmap_clear.
  - intros j Hj. destruct (decide (i = j)) as [->|]; [lia|].
    rewrite Ho by lia. eauto using wf_refcount_range.
  - rewrite count_clear by (done || lia). rewrite u64_small by lia. lia.
  - intros j Hj Hp. unfold used; simpl. rewrite bitmap_clear_spec by zsolve.
    destruct (decide (i = j)) as [->|]; [lia|].
    rewrite bool_decide_false by done. simpl.
    apply (wf_ref_used _ W); [lia|]. rewrite <- Ho by lia. done.
Qed.

Lemma wf_set_refcount p i c :
  wf p -> 0 <= i < total_pages p -> 0 <= c <= 255 -> (0 < c -> used p i = true) ->
  wf (set_refcount (zset (page_refcount p) i c) p).
Proof.
  intros W Hi Hc Hu. pose proof (wf_refcount_len _ W).
  constructor; unfold set_refcount; simpl; try (by destruct W).
  - by rewrite length_zset.
  - intros j Hj. destruct (decide (i = j)) as [->|]; [by rewrite zget_zset_eq by lia|].
    rewrite zget_zset_ne by lia. eauto using wf_refcount_range.
  - intros j Hj. destruct (decide (i = j)) as [->|].
    + rewrite zget_zset_eq by lia. exact Hu.
    + rewrite zget_zset_ne by lia. apply (wf_ref_used _ W). lia.
Qed.

Lemma wf_claim p i :
  wf p -> 0 <= i < total_pages p -> used p i = false -> wf (claim_page p i).
Proof.
  intros W Hi Hu. unfold used in Hu.
  pose proof (wf_total _ W). pose proof (wf_bitmap_len _ W). pose proof (wf_free _ W).
  pose proof (wf_refcount_len _ W).
  pose proof (count_free_bounds (bitmap p) (total_pages p)).
  pose proof (count_free_pos (bitmap p) (total_pages p) i Hi Hu).
  constructor; unfold claim_page; simpl; try (by eauto using wf_limit); try lia.
  - by rewrite length_bitmap_set.
  - by rewrite length_zset.
  - intros j Hj. destruct (decide (i = j)) as [->|]; [by rewrite zget_zset_eq by lia|].
    rewrite zget_zset_ne by lia. eauto using wf_refcount_range.
  - rewrite count_set by (done || lia). rewrite u64_small by lia. lia.
  - intros j Hj Hp. unfold used; simpl. rewrite bitmap_set_spec by zsolve.
    destruct (decide (i = j)) as [->|]; [by rewrite bool_decide_true|].
    rewrite zget_zset_ne in Hp by lia. fold (used p j).
    rewrite (wf_ref_used _ W j) by lia. apply orb_true_r.
Qed.

(** ** The scan finds the first free page at or after the hint *)

Lemma pmm_scan_spec n j p p' a :
  pmm_scan n j p = (p', a) ->
  (a = 0 /\ p' = p /\
     forall k, 0 <= k < Z.of_nat n ->
       used p ((alloc_hint p + j + k) mod total_pages p) = true) \/
  (exists k, 0 <= k < Z.of_nat n /\
     let i := (alloc_hint p + j + k) mod total_pages p in
     used p i = false /\ p' = claim_page p i /\ a = i * PAGE_SIZE /\
     forall m, 0 <= m < k -> used p ((alloc_hint p + j + m) mod total_pages p) = true).
Proof.
  revert j; induction n as [|n IH]; intros j; cbn [pmm_scan].
  - intros [= <- <-]. left. split_and!; [done..|lia].
  - destruct (bitmap_test (bitmap p) ((alloc_hint p + j) mod total_pages p)) eqn:E.
    + intros H. destruct (IH _ H) as [(-> & -> & Hall)|(k & Hk & Hu & Hp & Ha & Hm)].
      * left. split_and!; [done..|]. intros k Hk.
        destruct (decide (k = 0)) as [->|]; [by rewrite Z.add_0_r|].
        replace (alloc_hint p + j + k) with (alloc_hint p + (j + 1) + (k - 1)) by lia.
        apply Hall. lia.
      * right. exists (k + 1). simpl in *.
        replace (alloc_hint p + j + (k + 1)) with (alloc_hint p + (j + 1) + k) by lia.
        split_and!; [lia..|done|done|done|]. intros m Hm'.
        destruct (decide (m = 0)) as [->|]; [by rewrite Z.add_0_r|].
        replace (alloc_hint p + j + m) with (alloc_hint p + (j + 1) + (m - 1)) by lia.
        apply Hm. lia.
    + intros [= <- <-]. right. exists 0. simpl. rewrite !Z.add_0_r.
      split_and!; [lia..|done|done|done|lia].
Qed.

(** Every page is visited by a full cyclic scan. *)
Lemma cyclic_cover t h i : 0 <= i < t -> exists k, 0 <= k < t /\ (h + k) mod t = i.
Proof.
  intros Hi. exists ((i - h) mod t).
  split; [apply Z.mod_pos_bound; lia|].
  rewrite Zplus_mod_idemp_r. replace (h + (i - h)) with i by lia.
  apply Z.mod_small. lia.
Qed.

Lemma all_used_count p :
  wf p -> (forall i, 0 <= i < total_pages p -> used p i = true) -> free_pages p = 0.
Proof.
  intros W Hall. rewrite (wf_free _ W). apply countb_zero. intros j x Hx.
  unfold view in Hx. rewrite list_lookup_fmap in Hx.
  apply fmap_Some in Hx as (y & Hy & ->). apply lookup_seqZ in Hy as [-> Hj].
  apply negb_false_iff, Hall. lia.
Qed.

#[export] Hint Resolve wf_total wf_bitmap_len wf_refcount_len wf_refcount_range
  wf_free wf_ref_used wf_hint wf_limit : kernel.

Lemma used_claim p i j :
  wf p -> 0 <= i < total_pages p -> 0 <= j ->
  used (claim_page p i) j = bool_decide (i = j) || used p j.
Proof.
  intros W Hi Hj. unfold used, claim_page; simpl. pose proof (wf_bitmap_len _ W).
  apply bitmap_set_spec; zsolve.
Qed.

(** The contract of a successful allocation of page [i] out of [p]. *)
Definition allocated (p : pmm) (i : Z) (p' : pmm) : Prop :=
  used p i = false /\
  (forall j, 0 <= j -> used p' j = bool_decide (i = j) || used p j) /\
  (forall j, 0 <= j < total_pages p ->
     zget (page_refcount p') j = if decide (i = j) then 1 else zget (page_refcount p) j) /\
  free_pages p' = free_pages p - 1 /\ wf p'.

Lemma allocated_claim p i :
  wf p -> 0 <= i < total_pages p -> used p i = false -> allocated p i (claim_page p i).
Proof.
  intros W Hi Hu. pose proof (wf_claim _ _ W Hi Hu). split_and!; [done| | | |done].
  - intros. by apply used_claim.
  - intros j Hj. pose proof (wf_refcount_len _ W). simpl.
    destruct (decide (i = j)) as [->|]; [by rewrite zget_zset_eq by lia|].
    by rewrite zget_zset_ne by lia.
  - simpl. pose proof (count_free_pos (bitmap p) (total_pages p) i Hi Hu).
    pose proof (count_free_bounds (bitmap p) (total_pages p)).
    pose proof (wf_free _ W). pose proof (wf_total _ W). rewrite u64_small; lia.
Qed.

Lemma used_free_page p a j :
  wf p -> 0 <= a -> 0 <= j ->
  used (pmm_free_page a p) j = used p j \/
  (j = a / 4096 /\ used p j = true /\ used (pmm_free_page a p) j = false /\
   ~ (0 <= j < kernel_page_limit p)).
Proof.
  intros W Ha Hj. unfold pmm_free_page. fold (used p (a / PAGE_SIZE)).
  destruct (_ && _) eqn:E; [|by left]. b2p.
  destruct (is_kernel_page p (a / PAGE_SIZE)) eqn:K; [by left|].
  unfold used at 1; simpl. unfold PAGE_SIZE in *. pose proof (wf_bitmap_len _ W).
  rewrite bitmap_clear_spec by zsolve. fold (used p j).
  destruct (decide (a / 4096 = j)) as [<-|Hne].
  - right. split_and!; [done..| |].
    + unfold used; simpl. rewrite bitmap_clear_spec by zsolve.
      by rewrite bool_decide_true.
    + unfold is_kernel_page in K. intros Hk. apply andb_false_iff in K as [K|K]; b2p; lia.
  - left. by rewrite bool_decide_false.
Qed.

Lemma used_page_unref p a j :
  wf p -> 0 <= a -> 0 <= j ->
  used (pmm_page_unref a p) j = used p j \/
  (j = a / 4096 /\ used (pmm_page_unref a p) j = false /\
   zget (page_refcount p) j = 1 /\ ~ (0 <= j < kernel_page_limit p)).
Proof.
  intros W Ha Hj. unfold pmm_page_unref.
  destruct (_ && _) eqn:E; [|by left]. b2p.
  destruct (_ =? 0) eqn:Z0; [|by left]. b2p.
  destruct (is_kernel_page p (a / PAGE_SIZE)) eqn:K; [by left|].
  unfold used at 1; simpl. unfold PAGE_SIZE in *. pose proof (wf_bitmap_len _ W).
  rewrite bitmap_clear_spec by zsolve. fold (used p j).
  destruct (decide (a / 4096 = j)) as [<-|Hne].
  - right. split_and!; [done| |lia|].
    + unfold used; simpl. rewrite bitmap_clear_spec by zsolve.
      by rewrite bool_decide_true.
    + unfold is_kernel_page in K. intros Hk. apply andb_false_iff in K as [K|K]; b2p; lia.
  - left. by rewrite bool_decide_false.
Qed.

Lemma free_page_limit p a : kernel_page_limit (pmm_free_page a p) = kernel_page_limit p.
Proof. unfold pmm_free_page. by case_ifs. Qed.

Lemma page_unref_limit p a : kernel_page_limit (pmm_page_unref a p) = kernel_page_limit p.
Proof. unfold pmm_page_unref. by case_ifs. Qed.

Lemma wf_free_page p a : wf p -> 0 <= a -> wf (pmm_free_page a p).
Proof.
  intros W Ha. unfold pmm_free_page. destruct (_ && _) eqn:E; [|done]. b2p.
  destruct (is_kernel_page _ _); [done|]. unfold PAGE_SIZE in *.
  pose proof (wf_refcount_len _ W).
  apply wf_clear; [done|zsolve|done| | |].
  - by rewrite length_zset.
  - apply zget_zset_eq. zsolve.
  - intros. apply zget_zset_ne; zsolve.
Qed.

Lemma wf_page_unref p a : wf p -> 0 <= a -> wf (pmm_page_unref a p).
Proof.
  intros W Ha. unfold pmm_page_unref. destruct (_ && _) eqn:E; [|done]. b2p.
  unfold PAGE_SIZE in *. assert (0 <= a / 4096 < total_pages p) as Hi by zsolve.
  pose proof (wf_refcount_range _ W _ Hi). pose proof (wf_refcount_len _ W).
  pose proof (wf_ref_used _ W _ Hi ltac:(lia)) as Hu.
  destruct (_ =? 0) eqn:Z0; b2p.
  - destruct (is_kernel_page _ _).
    + apply wf_set_refcount; [done|lia|lia|lia].
    + apply (wf_clear p (a / 4096) (zset (page_refcount p) (a / 4096)
        (zget (page_refcount p) (a / 4096) - 1))); [done|lia|done| | |].
      * by rewrite length_zset.
      * rewrite zget_zset_eq; lia.
      * intros. apply zget_zset_ne; lia.
  - apply wf_set_refcount; [done|lia|lia|done].
Qed.

Lemma wf_page_ref p a :
  wf p -> 0 <= a -> used p (a / 4096) = true -> wf (pmm_page_ref a p).
Proof.
  intros W Ha Hu. unfold pmm_page_ref. destruct (_ && _) eqn:E; [|done]. b2p.
  unfold PAGE_SIZE in *. assert (0 <= a / 4096 < total_pages p) as Hi by zsolve.
  pose proof (wf_refcount_range _ W _ Hi).
  apply wf_set_refcount; [done|lia|lia|done].
Qed.

(** ** Boot: what [pmm_init] leaves free *)

(** The memory-map entries, in the order both passes visit them. *)
Definition mb_entries (mb : list Z) : option (list mb2_mmap_entry) :=
  walk_tags (S (Z.to_nat (rd32 mb 0))) (fun e l => l ++ [e]) mb 8 (rd32 mb 0) [].

Lemma walk_entries_fold {S} fuel (f : mb2_mmap_entry -> S -> S) mb off e_end sz st es :
  walk_entries fuel f mb off e_end sz (foldl (fun s e => f e s) st es) =
  foldl (fun s e => f e s) st <$>
    walk_entries fuel (fun e l => l ++ [e]) mb off e_end sz es.
Proof.
  revert off es; induction fuel as [|fuel IH]; intros off es; simpl; [done|].
  destruct (off <? e_end); [|done]. rewrite <- IH. by rewrite foldl_snoc.
Qed.

Lemma walk_tags_fold {S} fuel (f : mb2_mmap_entry -> S -> S) mb off e_end st es :
  walk_tags fuel f mb off e_end (foldl (fun s e => f e s) st es) =
  foldl (fun s e => f e s) st <$> walk_tags fuel (fun e l => l ++ [e]) mb off e_end es.
Proof.
  revert off es; induction fuel as [|fuel IH]; intros off es; cbn [walk_tags]; [done|].
  destruct (off <? e_end); [|done]. destruct (rd32 mb off =? 0); [done|].
  destruct (rd32 mb off =? 6).
  - rewrite walk_entries_fold.
    destruct (walk_entries _ (fun e l => l ++ [e]) _ _ _ _ _) as [es'|]; simpl; [|done].
    apply IH.
  - apply IH.
Qed.

(** Tag sequences on which the walk advances until the end tag or the end of
    the boot information. *)
Inductive tags_ok (mb : list Z) (mb_end : Z) : Z -> Prop :=
| tags_past off : mb_end <= off -> tags_ok mb mb_end off
| tags_end off : rd32 mb off = 0 -> tags_ok mb mb_end off
| tags_step off :
    0 < tag_stride (rd32 mb (off + 4)) -> 0 <= rd32 mb (off + 4) ->
    (rd32 mb off = 6 -> 0 < rd32 mb (off + 8)) ->
    tags_ok mb mb_end (off + tag_stride (rd32 mb (off + 4))) ->
    tags_ok mb mb_end off.

Lemma walk_entries_total {S} fuel (f : mb2_mmap_entry -> S -> S) mb off e_end sz st :
  0 < sz -> e_end - off < Z.of_nat fuel -> (0 < fuel)%nat ->
  is_Some (walk_entries fuel f mb off e_end sz st).
Proof.
  intros Hsz. revert off st; induction fuel as [|fuel IH]; intros off st Hf H0; simpl.
  - lia.
  - destruct (off <? e_end) eqn:E; [|eauto]. b2p. apply IH; lia.
Qed.

Lemma walk_tags_total {S} fuel (f : mb2_mmap_entry -> S -> S) mb off mb_end st :
  tags_ok mb mb_end off -> mb_end - off < Z.of_nat fuel -> (0 < fuel)%nat ->
  is_Some (walk_tags fuel f mb off mb_end st).
Proof.
  intros Hok. revert fuel st. induction Hok as [off Hp|off H0|off Hs Hsz H6 Hok IH];
    intros [|fuel] st Hf Hf0; try lia; cbn [walk_tags].
  - destruct (off <? mb_end) eqn:E; [b2p; lia|eauto].
  - destruct (off <? mb_end); [|eauto]. rewrite H0. simpl. eauto.
  - destruct (off <? mb_end) eqn:E; [|eauto]. b2p.
    destruct (rd32 mb off =? 0); [eauto|].
    destruct (rd32 mb off =? 6) eqn:E6; b2p; [|apply IH; lia].
    destruct (walk_entries_total (Z.to_nat (rd32 mb (off + 4) + 1)) f mb (off + 16)
                (off + rd32 mb (off + 4)) (rd32 mb (off + 8)) st) as [st' ->];
      [auto|lia|lia|]. apply IH; lia.
Qed.

(** During boot all reference counts are zero. *)
Definition booting (p : pmm) : Prop :=
  wf p /\ forall i, 0 <= i < total_pages p -> zget (page_refcount p) i = 0.

Definition same_geometry (p q : pmm) : Prop :=
  total_pages p = total_pages q /\ max_phys_addr p = max_phys_addr q.

Lemma booting_free_if_used p a :
  booting p -> 0 <= a < 4096 * total_pages p ->
  booting (free_if_used a p) /\ same_geometry (free_if_used a p) p /\
  forall j, 0 <= j ->
    used (free_if_used a p) j = used p j && negb (bool_decide (a / 4096 = j)).
Proof.
  intros [W Hz] Ha. unfold free_if_used, PAGE_SIZE.
  pose proof (wf_bitmap_len _ W). pose proof (wf_refcount_len _ W).
  destruct (bitmap_test (bitmap p) (a / 4096)) eqn:E.
  - split_and!; [split|done..|].
    + apply (wf_clear p (a / 4096) (page_refcount p)); [done|zsolve|done|done| |done].
      apply Hz. zsolve.
    + exact Hz.
    + intros j Hj. unfold used; simpl. rewrite bitmap_clear_spec by zsolve.
      by rewrite andb_comm.
  - split_and!; [done..|]. intros j Hj. destruct (decide (a / 4096 = j)) as [<-|].
    + unfold used. by rewrite E.
    + by rewrite bool_decide_false, andb_true_r.
Qed.

Lemma wf_set_used p i :
  wf p -> 0 <= i < total_pages p -> used p i = false ->
  wf (set_bitmap (bitmap_set (bitmap p) i) (u64 (free_pages p - 1)) p).
Proof.
  intros W Hi Hu. unfold used in Hu.
  pose proof (wf_total _ W). pose proof (wf_bitmap_len _ W). pose proof (wf_free _ W).
  pose proof (count_free_bounds (bitmap p) (total_pages p)).
  pose proof (count_free_pos (bitmap p) (total_pages p) i Hi Hu).
  constructor; unfold set_bitmap; simpl; try (by destruct W).
  - by rewrite length_bitmap_set.
  - rewrite count_set by (done || lia). rewrite u64_small by lia. lia.
  - intros j Hj Hp. unfold used; simpl. rewrite bitmap_set_spec by zsolve.
    fold (used p j). rewrite (wf_ref_used _ W j) by lia. apply orb_true_r.
Qed.

Lemma booting_reserve_if_free p a :
  booting p -> 0 <= a < 4096 * total_pages p ->
  booting (reserve_if_free a p) /\ same_geometry (reserve_if_free a p) p /\
  forall j, 0 <= j ->
    used (reserve_if_free a p) j = used p j || bool_decide (a / 4096 = j).
Proof.
  intros [W Hz] Ha. unfold reserve_if_free, PAGE_SIZE.
  pose proof (wf_bitmap_len _ W).
  destruct (bitmap_test (bitmap p) (a / 4096)) eqn:E.
  - split_and!; [done..|]. intros j Hj. destruct (decide (a / 4096 = j)) as [<-|].
    + unfold used. by rewrite E.
    + by rewrite bool_decide_false, orb_false_r.
  - split_and!; [split|done..|].
    + apply wf_set_used; [done|zsolve|done].
    + exact Hz.
    + intros j Hj. unfold used; simpl. rewrite bitmap_set_spec by zsolve.
      by rewrite orb_comm.
Qed.

(** The page [j] lies in the byte range [lo, hi). *)
Definition in_range (lo hi j : Z) : bool := (lo <=? 4096 * j) && (4096 * j <? hi).

Lemma in_range_empty lo j : in_range lo lo j = false.
Proof. unfold in_range. lia. Qed.

Lemma in_range_step base k j :
  base <= k -> base mod 4096 = 0 -> (k - base) mod 4096 = 0 ->
  in_range base (k + 4096) j = in_range base k j || bool_decide (k / 4096 = j).
Proof.
  intros Hk Hb Hkm. unfold in_range. apply eq_true_iff_eq.
  rewrite orb_true_iff, !andb_true_iff, !Z.leb_le, !Z.ltb_lt, bool_decide_eq_true.
  zsolve.
Qed.

(** Both kinds of loop change exactly the pages of their range. *)
Lemma page_loop_free n base p :
  booting p -> 0 <= base -> base mod 4096 = 0 ->
  base + 4096 * Z.of_nat n <= 4096 * total_pages p \/ n = 0%nat ->
  booting (page_loop n base free_if_used p) /\
  same_geometry (page_loop n base free_if_used p) p /\
  forall j, 0 <= j ->
    used (page_loop n base free_if_used p) j =
    used p j && negb (in_range base (base + 4096 * Z.of_nat n) j).
Proof.
  intros B Hb Hm Hn.
  apply (page_loop_inv (fun k q => booting q /\ same_geometry q p /\
    forall j, 0 <= j -> used q j = used p j && negb (in_range base k j))).
  - split_and!; [done..|]. intros j Hj. by rewrite in_range_empty, andb_true_r.
  - intros k q Hk Hkm (Bq & [Gt Gm] & Hq).
    destruct (booting_free_if_used q k Bq) as (B' & [Gt' Gm'] & H'); [lia|].
    split_and!; [done|split; congruence|]. intros j Hj. rewrite H', Hq by done.
    rewrite in_range_step by (done || lia). by rewrite negb_orb, andb_assoc.
Qed.

Lemma page_loop_reserve n base p :
  booting p -> 0 <= base -> base mod 4096 = 0 ->
  base + 4096 * Z.of_nat n <= 4096 * total_pages p \/ n = 0%nat ->
  booting (page_loop n base reserve_if_free p) /\
  same_geometry (page_loop n base reserve_if_free p) p /\
  forall j, 0 <= j ->
    used (page_loop n base reserve_if_free p) j =
    used p j || in_range base (base + 4096 * Z.of_nat n) j.
Proof.
  intros B Hb Hm Hn.
  apply (page_loop_inv (fun k q => booting q /\ same_geometry q p /\
    forall j, 0 <= j -> used q j = used p j || in_range base k j)).
  - split_and!; [done..|]. intros j Hj. by rewrite in_range_empty, orb_false_r.
  - intros k q Hk Hkm (Bq & [Gt Gm] & Hq).
    destruct (booting_reserve_if_free q k Bq) as (B' & [Gt' Gm'] & H'); [lia|].
    split_and!; [done|split; congruence|]. intros j Hj. rewrite H', Hq by done.
    rewrite in_range_step by (done || lia). by rewrite orb_assoc.
Qed.

(** Page [j] lies wholly inside the available region [e]. *)
Definition available (e : mb2_mmap_entry) (j : Z) : bool :=
  (etype e =? 1) &&
  in_range (page_up (base_addr e)) (page_down (u64 (base_addr e + len e))) j.

Definition max_end (es : list mb2_mmap_entry) : Z := foldl (fun m e => raise_max e m) 0 es.

Lemma raise_max_foldl es m :
  m <= foldl (fun m e => raise_max e m) m es /\
  forall e, e ∈ es -> u64 (base_addr e + len e) <= foldl (fun m e => raise_max e m) m es.
Proof.
  revert m; induction es as [|e es IH]; intros m; simpl.
  - split; [lia|]. intros e He. by apply not_elem_of_nil in He.
  - destruct (IH (raise_max e m)) as [H1 H2].
    assert (m <= raise_max e m /\ u64 (base_addr e + len e) <= raise_max e m).
    { unfold raise_max. destruct (_ <? _) eqn:E; b2p; lia. }
    split; [lia|]. intros e' [->|He]%elem_of_cons; [lia|by apply H2].
Qed.

Lemma in_range_cover base hi j :
  base mod 4096 = 0 -> base <= hi ->
  in_range base (base + 4096 * Z.of_nat (pages_between base hi)) j = in_range base hi j.
Proof.
  intros Hm Hle. pose proof (pages_between_end base hi Hle Hm) as Hp.
  unfold in_range. apply eq_true_iff_eq.
  rewrite !andb_true_iff, !Z.leb_le, !Z.ltb_lt. zsolve.
Qed.

Lemma pages_between_empty lo hi : hi <= lo -> pages_between lo hi = 0%nat.
Proof. intros. unfold pages_between. zsolve. Qed.

Lemma page_up_range x : 0 <= page_up x /\ page_up x mod 4096 = 0.
Proof.
  unfold page_up. rewrite page_down_spec. pose proof (u64_range (x + 4095)). zsolve.
Qed.

Lemma booting_free_region p e :
  booting p -> total_pages p = max_phys_addr p / 4096 ->
  (u64 (base_addr e + len e) <= max_phys_addr p \/ max_phys_addr p mod 4096 = 0) ->
  booting (free_region e p) /\ same_geometry (free_region e p) p /\
  forall j, 0 <= j < total_pages p ->
    used (free_region e p) j = used p j && negb (available e j).
Proof.
  intros B Ht Hx. unfold free_region, available.
  destruct (etype e =? 1); simpl;
    [|split_and!; [done..|]; intros; by rewrite andb_true_r].
  set (e_end := page_down (u64 (base_addr e + len e))).
  destruct (page_up_range (base_addr e)) as [Hb Hbm]. set (base := page_up (base_addr e)) in *.
  pose proof (page_down_aligned (u64 (base_addr e + len e))) as Hem. fold e_end in Hem.
  pose proof (page_down_le (u64 (base_addr e + len e))) as Hel. fold e_end in Hel.
  set (hi := Z.min e_end (max_phys_addr p)).
  assert (Hhi : hi <= 4096 * total_pages p) by (unfold hi; zsolve).
  destruct (decide (base <= hi)) as [Hle|Hgt].
  - pose proof (pages_between_end base hi Hle Hbm).
    assert (hi mod 4096 = 0 \/ hi = 4096 * total_pages p) as Hha by (unfold hi; zsolve).
    destruct (page_loop_free (pages_between base hi) base p B Hb Hbm) as (B' & G & HU).
    { left. zsolve. }
    split_and!; [done..|]. intros j Hj. rewrite HU by lia. do 2 f_equal.
    rewrite in_range_cover by done. unfold in_range, hi.
    f_equal. apply eq_true_iff_eq. rewrite !Z.ltb_lt. zsolve.
  - rewrite pages_between_empty by lia. simpl. split_and!; [done..|].
    intros j Hj. replace (in_range base e_end j) with false; [by rewrite andb_true_r|].
    unfold in_range. symmetry. apply andb_false_iff. rewrite Z.leb_gt, Z.ltb_ge.
    unfold hi in *. zsolve.
Qed.

Lemma booting_regions es p :
  booting p -> total_pages p = max_phys_addr p / 4096 ->
  (forall e, e ∈ es ->
     u64 (base_addr e + len e) <= max_phys_addr p \/ max_phys_addr p mod 4096 = 0) ->
  let q := foldl (fun s e => free_region e s) p es in
  booting q /\ same_geometry q p /\
  forall j, 0 <= j < total_pages p ->
    used q j = used p j && negb (existsb (fun e => available e j) es).
Proof.
  revert p; induction es as [|e es IH]; intros p B Ht Hx q; subst q; simpl.
  - split_and!; [done..|]. intros. by rewrite andb_true_r.
  - destruct (booting_free_region p e B Ht) as (B1 & [G1 G1'] & U1);
      [apply Hx; set_solver|].
    destruct (IH (free_region e p)) as (B2 & [G2 G2'] & U2); [done|congruence| |].
    { intros e' He'. rewrite G1'. apply Hx. set_solver. }
    split_and!; [done|split; congruence|]. intros j Hj.
    rewrite U2, U1 by (rewrite ?G1; lia). by rewrite negb_orb, andb_assoc.
Qed.

Lemma bitmap_test_ones n i : 0 <= i < 8 * n -> bitmap_test (replicate (Z.to_nat n) 255) i = true.
Proof.
  intros Hi. rewrite bitmap_test_spec.
  assert (zget (replicate (Z.to_nat n) 255) (i / 8) = 255) as ->.
  { unfold zget. apply list_lookup_total_correct, lookup_replicate_2. zsolve. }
  apply (Z.ones_spec_low 8). zsolve.
Qed.

Lemma booting_blank mx :
  0 <= mx <= MAX_PHYS ->
  booting (pmm_blank mx) /\ forall j, 0 <= j < mx / 4096 -> used (pmm_blank mx) j = true.
Proof.
  intros Hmx. unfold MAX_PHYS in *.
  assert (forall j, 0 <= j < mx / 4096 -> used (pmm_blank mx) j = true) as HU.
  { intros j Hj. unfold used; simpl. unfold PAGE_SIZE. apply bitmap_test_ones. zsolve. }
  assert (forall i, 0 <= i < mx / 4096 -> zget (page_refcount (pmm_blank mx)) i = 0) as HR.
  { intros i Hi. simpl. unfold zget, PAGE_SIZE.
    apply list_lookup_total_correct, lookup_replicate_2. lia. }
  split; [|done]. split; [|exact HR].
  constructor; try (simpl; unfold PAGE_SIZE; rewrite ?length_replicate; zsolve).
  - intros i Hi. rewrite HR; [lia|exact Hi].
  - symmetry. apply countb_zero. intros j x Hx. unfold view in Hx.
    rewrite list_lookup_fmap in Hx. apply fmap_Some in Hx as (y & Hy & ->).
    apply lookup_seqZ in Hy as [-> Hj]. apply negb_false_iff, HU.
    simpl in Hj. unfold PAGE_SIZE in Hj. lia.
  - intros i Hi _. apply HU. exact Hi.
Qed.

(** The machine has memory for the kernel image and the allocator's own tables. *)
Definition boot_fits (es : list mb2_mmap_entry) (kernel_phys_end : Z) : Prop :=
  let total := Z.min MAX_PHYS (max_end es) / 4096 in
  0x100000 <= kernel_phys_end < 0x100000000 /\
  reserve_end kernel_phys_end total <= 4096 * total.

Lemma reserve_end_spec kend total :
  0 <= kend < 0x100000000 -> 0 <= total <= 131072 ->
  kend <= reserve_end kend total /\ reserve_end kend total mod 4096 = 0.
Proof.
  intros Hk Ht. unfold reserve_end.
  destruct (page_up_spec kend) as [H1 _]; [lia..|].
  rewrite (u64_small (page_up kend + _)) by zsolve.
  destruct (page_up_spec (page_up kend + (total + 7) / 8)) as [H2 _]; [zsolve..|].
  rewrite u64_small by zsolve.
  destruct (page_up_spec (page_up (page_up kend + (total + 7) / 8) + total)) as [H3 H4];
    [zsolve..|]. split; [zsolve|done].
Qed.

(** Booting from a well-formed multiboot memory map succeeds, and the pages
    left free are exactly the pages that lie wholly inside a region the firmware
    reports as available and above the kernel image, the bitmap and the reference
    counts; the allocator invariant holds. *)
Theorem pmm_init_correct mb kend :
  tags_ok mb (rd32 mb 0) 8 ->
  exists es, mb_entries mb = Some es /\
    (boot_fits es kend ->
     exists p, pmm_init mb kend = Some p /\ wf p /\
       total_pages p = Z.min MAX_PHYS (max_end es) / 4096 /\
       forall j, 0 <= j < total_pages p ->
         used p j = false <->
         reserve_end kend (total_pages p) <= 4096 * j /\
         exists e, e ∈ es /\ available e j = true).
Proof.
  intros Hok.
  destruct (walk_tags_total (S (Z.to_nat (rd32 mb 0))) (fun e l => l ++ [e]) mb 8
              (rd32 mb 0) [] Hok) as [es Hes]; [lia..|].
  exists es. split; [exact Hes|]. intros [Hk Hfit]. unfold pmm_init.
  unfold mb_entries in *. set (fuel := S (Z.to_nat (rd32 mb 0))) in *. clearbody fuel.
  pose proof (walk_tags_fold fuel raise_max mb 8 (rd32 mb 0) 0 []) as F1.
  rewrite Hes in F1. simpl in F1. rewrite F1. fold (max_end es). destruct (raise_max_foldl es 0) as [Hmx Hle]. fold (max_end es) in *.
  replace (if MAX_PHYS <? max_end es then MAX_PHYS else max_end es)
    with (Z.min MAX_PHYS (max_end es)) by (destruct (_ <? _) eqn:?; b2p; lia).
  set (mx := Z.min MAX_PHYS (max_end es)) in *.
  pose proof (walk_tags_fold fuel free_region mb 8 (rd32 mb 0) (pmm_blank mx) []) as F2.
  rewrite Hes in F2. cbn [foldl fmap option_fmap option_map] in F2. rewrite F2.
  change (total_pages (pmm_blank mx)) with (mx / 4096).
  destruct (booting_blank mx) as [B0 U0]; [unfold mx, MAX_PHYS in *; lia|].
  destruct (booting_regions es (pmm_blank mx) B0 eq_refl) as (B1 & [G1 _] & U1).
  { intros e He. simpl. unfold mx, MAX_PHYS in *. specialize (Hle e He).
    destruct (decide (512 * 1024 * 1024 <= max_end es)); [right|left; lia].
    by rewrite Z.min_l by lia. }
  set (p1 := foldl _ (pmm_blank mx) es) in *.
  simpl in G1. unfold PAGE_SIZE in G1.
  destruct (reserve_end_spec kend (mx / 4096)) as [Hr Hra];
    [lia|unfold mx, MAX_PHYS in *; zsolve|].
  set (r := reserve_end kend (mx / 4096)) in *.
  destruct (page_loop_reserve (pages_between 0 0x100000) 0 p1 B1) as (B2 & [G2 _] & U2);
    [lia|done|left; rewrite G1; change (Z.of_nat (pages_between 0 1048576)) with 256; lia|].
  set (p2 := page_loop _ 0 _ p1) in *.
  pose proof (pages_between_end 0x100000 r ltac:(lia) eq_refl).
  destruct (page_loop_reserve (pages_between 0x100000 r) 0x100000 p2 B2)
    as (B3 & [G3 _] & U3); [lia|done|left; rewrite G2, G1; zsolve|].
  set (p3 := page_loop _ 0x100000 _ p2) in *.
  exists p3. split_and!; [done|apply B3|congruence|]. rewrite G3, G2, G1. fold r.
  intros j Hj. rewrite U3, U2, U1, U0 by (simpl; unfold PAGE_SIZE; lia).
  rewrite in_range_cover by (done || lia). rewrite !orb_false_iff, andb_true_l, negb_false_iff.
  rewrite existsb_exists. setoid_rewrite <- list_elem_of_In.
  change (0 + 4096 * Z.of_nat (pages_between 0 1048576)) with 0x100000.
  unfold in_range. rewrite !andb_false_iff, !Z.leb_gt, !Z.ltb_ge.
  split; [intros [[? ?] ?]|intros [? ?]]; split_and?; try done; lia.
Qed.

Lemma pmm_take_page_spec p p' a :
  wf p -> kernel_reserved p -> 0 < kernel_page_limit p ->
  pmm_take_page p = (p', a) ->
  (a = 0 /\ p' = p /\ free_pages p = 0) \/
  (exists k, 0 <= k < total_pages p /\
     let i := (alloc_hint p + k) mod total_pages p in
     a = i * 4096 /\ a <> 0 /\ kernel_page_limit p <= i < total_pages p /\
     (forall m, 0 <= m < k -> used p ((alloc_hint p + m) mod total_pages p) = true) /\
     allocated p i p' /\ kernel_reserved p').
Proof.
  intros W K Hl H. pose proof (wf_total _ W). pose proof (wf_limit _ W).
  apply pmm_scan_spec in H as [(-> & -> & Hall)|(k & Hk & Hu & -> & -> & Hm)]; simpl in *.
  - left. split_and!; [done..|]. apply all_used_count; [done|]. intros i Hi.
    destruct (cyclic_cover (total_pages p) (alloc_hint p) i Hi) as (k & Hk & <-).
    rewrite <- (Z.add_0_r (alloc_hint p)). apply Hall. lia.
  - right. exists k. rewrite Z.add_0_r in *.
    assert (0 <= (alloc_hint p + k) mod total_pages p < total_pages p) as Hi
      by (apply Z.mod_pos_bound; lia).
    set (i := (alloc_hint p + k) mod total_pages p) in *.
    assert (kernel_page_limit p <= i) as Hki.
    { destruct (decide (i < kernel_page_limit p)); [|lia]. by rewrite K in Hu by lia. }
    unfold PAGE_SIZE. split_and!; try lia.
    + exact Hm.
    + by apply allocated_claim.
    + intros j Hj. simpl in Hj. rewrite used_claim by (done || lia).
      rewrite (K j Hj). apply orb_true_r.
Qed.

(** A page allocation is next-fit and sound.  With the kernel pages reserved,
    the scan fails exactly when no page is free; otherwise it returns the first
    free page at or cyclically after the hint, never a kernel page and never
    address 0, changes no other page's state, gives the page reference count 1 and
    keeps the free-page counter exact. *)
Theorem pmm_take_page_correct p p' a :
  wf p -> kernel_reserved p -> 0 < kernel_page_limit p ->
  pmm_take_page p = (p', a) ->
  (a = 0 /\ p' = p /\ free_pages p = 0) \/
  (exists k, 0 <= k < total_pages p /\
     let i := (alloc_hint p + k) mod total_pages p in
     a = i * 4096 /\ a <> 0 /\ kernel_page_limit p <= i < total_pages p /\
     (forall m, 0 <= m < k -> used p ((alloc_hint p + m) mod total_pages p) = true) /\
     allocated p i p' /\ kernel_reserved p').
Proof. apply pmm_take_page_spec. Qed.

(** The operations the rest of the kernel performs on page frames. *)
Inductive pmm_op :=
| OpAlloc
| OpFree (a : Z)
| OpRef (a : Z)
| OpUnref (a : Z).

(** Callers pass physical addresses, and only take further references to pages
    that are in use. *)
Definition op_ok (o : pmm_op) (p : pmm) : Prop :=
  match o with
  | OpAlloc => True
  | OpFree a | OpUnref a => 0 <= a
  | OpRef a => 0 <= a /\ used p (a / 4096) = true
  end.

Definition run_op (o : pmm_op) (p : pmm) : pmm :=
  match o with
  | OpAlloc => (pmm_take_page p).1
  | OpFree a => pmm_free_page a p
  | OpRef a => pmm_page_ref a p
  | OpUnref a => pmm_page_unref a p
  end.

Inductive pmm_reach : pmm -> pmm -> Prop :=
| reach_refl p : pmm_reach p p
| reach_step p o q : op_ok o p -> pmm_reach (run_op o p) q -> pmm_reach p q.

Definition safe (p : pmm) : Prop :=
  wf p /\ kernel_reserved p /\ 0 < kernel_page_limit p.

Lemma safe_step o p : safe p -> op_ok o p -> safe (run_op o p) /\
  kernel_page_limit (run_op o p) = kernel_page_limit p.
Proof.
  intros (W & K & Hl) Hok. destruct o as [|a|a|a]; simpl in *.
  - destruct (pmm_take_page p) as [p' b] eqn:E. simpl.
    pose proof (pmm_scan_spec _ _ _ _ _ E) as [(-> & -> & _)|(k & Hk & Hu & -> & -> & _)];
      [done|]. simpl in *.
    assert (0 <= (alloc_hint p + 0 + k) mod total_pages p < total_pages p) as Hi
      by (apply Z.mod_pos_bound; pose proof (wf_total _ W); lia).
    split; [|done]. split_and!; [by apply wf_claim| |done].
    intros j Hj. simpl in Hj. rewrite used_claim by (done || lia).
    rewrite (K j Hj). apply orb_true_r.
  - rewrite free_page_limit. split; [|done].
    split_and!; [by apply wf_free_page| |by rewrite free_page_limit].
    intros j Hj. rewrite free_page_limit in Hj.
    destruct (used_free_page p a j W Hok ltac:(lia)) as [->|(_ & _ & _ & HK)]; [by apply K|].
    lia.
  - destruct Hok as [Ha Hu].
    assert (kernel_page_limit (pmm_page_ref a p) = kernel_page_limit p /\
            bitmap (pmm_page_ref a p) = bitmap p) as [E1 E2]
      by (unfold pmm_page_ref; by case_ifs).
    rewrite E1. split; [|done]. split_and!; [by apply wf_page_ref| |by rewrite E1].
    intros j Hj. rewrite E1 in Hj. unfold used. rewrite E2. by apply K.
  - rewrite page_unref_limit. split; [|done].
    split_and!; [by apply wf_page_unref| |by rewrite page_unref_limit].
    intros j Hj. rewrite page_unref_limit in Hj.
    destruct (used_page_unref p a j W Hok ltac:(lia)) as [->|(_ & _ & _ & HK)]; [by apply K|].
    lia.
Qed.

(** C10: in every state reachable by allocations, frees and reference changes the
    free-page counter equals the number of clear bits, a page with owners is never
    free, and the pages below the kernel limit stay reserved. *)
Theorem pmm_reach_safe p q :
  safe p -> pmm_reach p q ->
  safe q /\ kernel_page_limit q = kernel_page_limit p.
Proof.
  intros S R. induction R as [|p o q Hok R IH]; [done|].
  destruct (safe_step o p S Hok) as [S' E]. destruct (IH S') as [S'' E'].
  split; [done|congruence].
Qed.

(** Dropping a reference frees a page exactly when the last owner goes:
    with two or more owners the count falls by one and the page stays in use,
    with one owner the page returns to the free pool (unless it belongs to the
    kernel) and the counter grows by one. *)
Theorem pmm_page_unref_last p i :
  wf p -> 0 <= i < total_pages p -> 0 < zget (page_refcount p) i ->
  let p' := pmm_page_unref (i * 4096) p in
  zget (page_refcount p') i = zget (page_refcount p) i - 1 /\
  used p' i = negb ((zget (page_refcount p) i =? 1) && negb (is_kernel_page p i)) /\
  free_pages p' = free_pages p +
    Z.b2z ((zget (page_refcount p) i =? 1) && negb (is_kernel_page p i)).
Proof.
  intros W Hi Hr p'. subst p'. unfold pmm_page_unref.
  replace (i * 4096 / PAGE_SIZE) with i by (unfold PAGE_SIZE; zsolve).
  replace (_ && _) with true by lia.
  pose proof (wf_ref_used _ W i Hi Hr) as Hu. pose proof (wf_refcount_len _ W).
  pose proof (wf_bitmap_len _ W). pose proof (wf_total _ W).
  pose proof (wf_free _ W). pose proof (count_free_bounds (bitmap p) (total_pages p)).
  replace (zget (page_refcount p) i - 1 =? 0) with (zget (page_refcount p) i =? 1) by lia.
  destruct (zget (page_refcount p) i =? 1) eqn:E; simpl.
  - b2p. destruct (is_kernel_page p i); simpl.
    + split_and!; [rewrite zget_zset_eq; lia|done|lia].
    + split_and!; [rewrite zget_zset_eq; lia| |rewrite u64_small; lia].
      unfold used; simpl. rewrite bitmap_clear_spec by zsolve.
      by rewrite bool_decide_true.
  - split_and!; [rewrite zget_zset_eq; lia|done|lia].
Qed.

(** [pmm_set_kernel_end] puts the whole prefix of used pages under the kernel
    limit, and never reserves a free page. *)
Lemma set_kernel_end_safe p :
  wf p -> wf (pmm_set_kernel_end p) /\ kernel_reserved (pmm_set_kernel_end p) /\
  (kernel_page_limit (pmm_set_kernel_end p) < total_pages p ->
   used p (kernel_page_limit (pmm_set_kernel_end p)) = false).
Proof.
  intros W. unfold pmm_set_kernel_end, all_pages. pose proof (wf_total _ W).
  destruct (find_index _ _) as [k|] eqn:F.
  - pose proof (find_index_lt _ _ _ F) as Hk. rewrite length_seqZ in Hk.
    destruct (find_index_Some _ _ _ F) as (x & Hx & Hp & Hmin).
    apply lookup_seqZ in Hx as [-> _]. b2p. simpl.
    split_and!; [destruct W; constructor; simpl; auto; lia| |done].
    intros i Hi. simpl in Hi. specialize (Hmin (Z.to_nat i) i ltac:(lia)).
    rewrite lookup_seqZ in Hmin. rewrite negb_false_iff in Hmin. apply Hmin. lia.
  - rewrite find_index_None in F. simpl.
    split_and!; [destruct W; constructor; simpl; auto; lia| |lia].
    intros i Hi. simpl in Hi. specialize (F (Z.to_nat i) i).
    rewrite lookup_seqZ, negb_false_iff in F. apply F. lia.
Qed.

(** ** Executable check and concrete runs *)

Definition wfb (p : pmm) : bool :=
  (0 <=? total_pages p) && (total_pages p <=? 131072) &&
  (Z.of_nat (length (bitmap p)) =? (total_pages p + 7) / 8) &&
  (Z.of_nat (length (page_refcount p)) =? total_pages p) &&
  forallb (fun i => (0 <=? zget (page_refcount p) i) && (zget (page_refcount p) i <=? 255) &&
                    implb (0 <? zget (page_refcount p) i) (used p i)) (all_pages p) &&
  (free_pages p =? countb negb (view (bitmap p) (total_pages p))) &&
  (0 <=? alloc_hint p) && (alloc_hint p <=? total_pages p) &&
  (0 <=? kernel_page_limit p) && (kernel_page_limit p <=? total_pages p).

Lemma wfb_sound p : wfb p = true -> wf p.
Proof.
  unfold wfb. intros H. b2p.
  assert (forall i, 0 <= i < total_pages p ->
    (0 <=? zget (page_refcount p) i) && (zget (page_refcount p) i <=? 255) &&
    implb (0 <? zget (page_refcount p) i) (used p i) = true) as HF.
  { intros i Hi. rewrite forallb_forall in *. match goal with H : _ |- _ => apply H end.
    apply list_elem_of_In, elem_of_seqZ. lia. }
  constructor; try lia; intros i Hi.
  - specialize (HF i Hi). b2p. lia.
  - intros Hp. specialize (HF i Hi). b2p.
    destruct (used p i); [done|]. by destruct (0 <? zget (page_refcount p) i) eqn:?; b2p; [|lia].
Qed.

(** Eight pages, the first two the kernel's, page 2 shared by two owners. *)
Definition demo_pmm : pmm := mk_pmm [7] 8 5 32768 2 [0; 0; 2; 0; 0; 0; 0; 0] 2.

Lemma demo_pmm_safe : safe demo_pmm.
Proof.
  split_and!; [by apply wfb_sound| |done]. intros i Hi. simpl in Hi.
  assert (i = 0 \/ i = 1) as [->| ->] by lia; reflexivity.
Qed.

(** Boot information with one memory-map tag: 8 MiB available from address 0,
    then a reserved entry, then the end tag. *)
Definition demo_mb : list Z :=
  le_bytes 4 80 ++ le_bytes 4 0 ++
  le_bytes 4 6 ++ le_bytes 4 64 ++ le_bytes 4 24 ++ le_bytes 4 0 ++
  le_bytes 8 0 ++ le_bytes 8 0x800000 ++ le_bytes 4 1 ++ le_bytes 4 0 ++
  le_bytes 8 0x600000 ++ le_bytes 8 0x1000 ++ le_bytes 4 2 ++ le_bytes 4 0 ++
  le_bytes 4 0 ++ le_bytes 4 8.

Lemma pmm_init_correct_witness :
  exists p, pmm_init demo_mb 0x180000 = Some p /\ wf p /\
    used p 1000 = false /\ used p 100 = true.
Proof.
  destruct (pmm_init_correct demo_mb 0x180000) as (es & Hes & H).
  { apply tags_step; [vm_compute; done..|]. apply tags_end. vm_compute. done. }
  vm_compute in Hes. injection Hes as <-.
  destruct H as (p & Hp & W & _ & _); [split; vm_compute; done|].
  exists p. split_and!; [done..| |].
  - vm_compute in Hp. injection Hp as <-. vm_compute. done.
  - vm_compute in Hp. injection Hp as <-. vm_compute. done.
Defined.

Lemma pmm_take_page_correct_witness :
  (pmm_take_page demo_pmm).2 = 3 * 4096 /\
  kernel_reserved (pmm_take_page demo_pmm).1.
Proof.
  destruct demo_pmm_safe as (W & K & L). split; [reflexivity|].
  destruct (pmm_take_page_correct demo_pmm (pmm_take_page demo_pmm).1
              (pmm_take_page demo_pmm).2 W K L eq_refl)
    as [(E & _)|(k & _ & _ & _ & _ & _ & _ & R)]; [vm_compute in E; done|exact R].
Defined.

Lemma pmm_reach_safe_witness : safe (run_op (OpUnref 8192) (run_op OpAlloc demo_pmm)).
Proof.
  apply (pmm_reach_safe demo_pmm _ demo_pmm_safe).
  apply (reach_step _ OpAlloc); [exact I|].
  apply (reach_step _ (OpUnref 8192)); [simpl; lia|]. apply reach_refl.
Defined.

Lemma pmm_page_unref_last_witness :
  used (pmm_page_unref 8192 demo_pmm) 2 = true /\
  zget (page_refcount (pmm_page_unref 8192 demo_pmm)) 2 = 1.
Proof.
  destruct demo_pmm_safe as (W & _ & _).
  destruct (pmm_page_unref_last demo_pmm 2 W) as (E1 & E2 & _);
    [simpl; lia|vm_compute; done|]. split; [exact E2|exact E1].
Defined.

End Pmm.
