(* ===== verification/Process.v ===== *)
(** * Processes and the process table (kernel/process/process.c, process.h)

    The process control block with the fields of [struct process], the memory
    areas of mmap.h that it embeds, and the table scans of process.c.  Pointers
    to processes are indices into [process_table]. *)

From stdpp Require Import prelude.
From Stdlib Require Import ZArith Lia.
From S2P Require Import Prelude.
Local Open Scope Z_scope.

Module Process.

(** ** Data *)

Definition MAX_PROCESSES : nat := 64.
Definition PROCESS_MAX_FDS : nat := 32.
Definition PROCESS_STACK_SIZE : Z := 16384.
Definition MMAP_BASE : Z := 0x10000000.
Definition MMAP_TOP : Z := 0x7FC0000000.
Definition VMA_MAX : nat := 32.

Inductive process_state :=
| PROCESS_UNUSED
| PROCESS_READY
| PROCESS_RUNNING
| PROCESS_BLOCKED
| PROCESS_ZOMBIE
| PROCESS_TERMINATED.

#[export] Instance process_state_eq_dec : EqDecision process_state.
Proof. solve_decision. Defined.

Definition is_state (a b : process_state) : bool := bool_decide (a = b).

(** File descriptor types of process.h. *)
Definition FD_NONE : Z := 0.
Definition FD_VFS : Z := 1.
Definition FD_PIPE_READ : Z := 2.
Definition FD_PIPE_WRITE : Z := 3.
Definition FD_CONSOLE : Z := 4.
Definition FD_DEVICE : Z := 5.
Definition FD_EXT2 : Z := 6.
Definition FD_SOCKET : Z := 7.
Definition FD_EPOLL : Z := 8.

Record process_fd := mk_fd { fd_type : Z; fd_data : Z; fd_offset : Z }.

#[export] Instance eta_process_fd : Eta process_fd :=
  fun r => mk_fd (fd_type r) (fd_data r) (fd_offset r).

Definition fd_empty : process_fd := mk_fd FD_NONE 0 0.

#[export] Instance process_fd_inhabited : Inhabited process_fd := populate fd_empty.

(** [vma_t] of kernel/memory/mmap.h. *)
Record vma := mk_vma {
  v_start : Z;
  v_end : Z;
  v_prot : Z;
  v_flags : Z;
  v_type : Z;
  v_in_use : bool;
  v_file_inode : Z;
  v_file_offset : Z;
  v_shared_phys : Z;
  v_dev_phys_base : Z;
  v_elf_data : Z;
  v_elf_data_filesz : Z;
  v_elf_vaddr : Z;
  v_elf_data_owned : bool
}.

#[export] Instance eta_vma : Eta vma := fun v =>
  mk_vma (v_start v) (v_end v) (v_prot v) (v_flags v) (v_type v) (v_in_use v)
    (v_file_inode v) (v_file_offset v) (v_shared_phys v) (v_dev_phys_base v)
    (v_elf_data v) (v_elf_data_filesz v) (v_elf_vaddr v) (v_elf_data_owned v).

Definition vma_zero : vma := mk_vma 0 0 0 0 0 false 0 0 0 0 0 0 0 false.

#[export] Instance vma_inhabited : Inhabited vma := populate vma_zero.

(** Saved CPU context. *)
Record context := mk_context {
  r15 : Z; r14 : Z; r13 : Z; r12 : Z; rbx : Z; rbp : Z; rsp : Z; rip : Z
}.

Record process := mk_process {
  pid : Z;
  name : list Z;
  state : process_state;
  ctx : context;
  kernel_stack : Z;
  kernel_stack_guard : Z;
  next : option nat;
  cr3 : Z;
  is_user : bool;
  user_program_data : Z;
  user_program_size : Z;
  ppid : Z;
  exit_code : Z;
  wait_for_pid : Z;
  fd_table : list process_fd;
  user_entry_rsp : Z;
  user_entry_argv : Z;
  user_entry_argc : Z;
  sig_pending : Z;
  sig_handlers : list Z;
  sig_saved_rip : Z;
  sig_saved_rsp : Z;
  sig_saved_rflags : Z;
  sig_saved_rax : Z;
  sig_saved_rdi : Z;
  sig_saved_rsi : Z;
  sig_saved_rdx : Z;
  in_signal_handler : bool;
  vmas : list vma;
  mmap_next : Z;
  brk_start : Z;
  brk_current : Z;
  uid : Z;
  gid : Z;
  euid : Z;
  egid : Z;
  epoll_fd_idx : Z;
  epoll_timeout_ticks : Z;
  epoll_events_ptr : Z;
  epoll_maxevents : Z
}.

#[export] Instance eta_process : Eta process := fun p =>
  mk_process (pid p) (name p) (state p) (ctx p) (kernel_stack p) (kernel_stack_guard p)
    (next p) (cr3 p) (is_user p) (user_program_data p) (user_program_size p) (ppid p)
    (exit_code p) (wait_for_pid p) (fd_table p) (user_entry_rsp p) (user_entry_argv p)
    (user_entry_argc p) (sig_pending p) (sig_handlers p) (sig_saved_rip p)
    (sig_saved_rsp p) (sig_saved_rflags p) (sig_saved_rax p) (sig_saved_rdi p)
    (sig_saved_rsi p) (sig_saved_rdx p) (in_signal_handler p) (vmas p) (mmap_next p)
    (brk_start p) (brk_current p) (uid p) (gid p) (euid p) (egid p) (epoll_fd_idx p)
    (epoll_timeout_ticks p) (epoll_events_ptr p) (epoll_maxevents p).

Definition context_zero : context := mk_context 0 0 0 0 0 0 0 0.

(** A process control block after [memset(p, 0, sizeof(struct process))]. *)
Definition process_zero : process :=
  mk_process 0 (replicate 32 0) PROCESS_UNUSED context_zero 0 0 None 0 false 0 0 0 0 0
    (replicate PROCESS_MAX_FDS fd_empty) 0 0 0 0 (replicate 32 0) 0 0 0 0 0 0 0 false
    (replicate VMA_MAX vma_zero) 0 0 0 0 0 0 0 0 0 0 0.

#[export] Instance process_inhabited : Inhabited process := populate process_zero.

Abbreviation table := (list process).

(** Write through a process pointer. *)
Definition upd_proc (i : nat) (f : process -> process) (t : table) : table := alter f i t.

(** ** Table operations *)

Definition process_init : table := replicate MAX_PROCESSES process_zero.

Definition unused (p : process) : bool := is_state (state p) PROCESS_UNUSED.

Definition process_get_by_pid (t : table) (q : Z) : option nat :=
  find_index (fun p => negb (unused p) && (pid p =? q)) t.

Definition process_get_count (t : table) : Z := u32 (countb (fun p => negb (unused p)) t).

Definition process_find_zombie_child (t : table) (parent_pid : Z) : option nat :=
  find_index (fun p => is_state (state p) PROCESS_ZOMBIE && (ppid p =? parent_pid)) t.

Definition process_has_children (t : table) (parent_pid : Z) : bool :=
  existsb (fun p => (ppid p =? parent_pid) && negb (unused p) &&
                    negb (is_state (state p) PROCESS_TERMINATED)) t.

Definition fresh_pcb (next_pid : Z) : process :=
  process_zero <| pid := next_pid |> <| epoll_fd_idx := -1 |> <| mmap_next := MMAP_BASE |>.

(** [process_alloc]: the free slot, zeroed, with the next pid.  [next_pid] is a
    [uint32_t] that wraps. *)
Definition process_alloc (t : table) (next_pid : Z) : (table * Z) * option nat :=
  match find_index unused t with
  | Some i => ((<[i := fresh_pcb next_pid]> t, u32 (next_pid + 1)), Some i)
  | None => ((t, next_pid), None)
  end.

(** [strncpy(dst, src, n); dst[n] = 0] into a buffer of [n + 1] bytes. *)
Definition copy_name (n : nat) (src : list Z) : list Z :=
  let s := take n (take (default (length src) (find_index (Z.eqb 0) src)) src) in
  s ++ replicate (S n - length s) 0.

Definition console_fds : list process_fd :=
  replicate 3 (mk_fd FD_CONSOLE 0 0) ++ replicate (PROCESS_MAX_FDS - 3) fd_empty.

(** The control-block initialisation of [process_create], once a slot [p] and a
    kernel stack at [guard] are available.  Fields the C code does not assign
    keep the slot's old contents. *)
Definition process_setup (p : process) (new_pid : Z) (nm : list Z) (guard entry : Z) : process :=
  p <| pid := new_pid |>
    <| name := copy_name 31 nm |>
    <| state := PROCESS_READY |>
    <| kernel_stack_guard := guard |>
    <| kernel_stack := u64 (guard + PAGE_SIZE + PROCESS_STACK_SIZE) |>
    <| next := None |>
    <| cr3 := 0 |>
    <| is_user := false |>
    <| user_program_data := 0 |>
    <| user_program_size := 0 |>
    <| ppid := 0 |>
    <| exit_code := 0 |>
    <| wait_for_pid := 0 |>
    <| fd_table := console_fds |>
    <| sig_pending := 0 |>
    <| sig_handlers := replicate 32 0 |>
    <| in_signal_handler := false |>
    <| vmas := replicate VMA_MAX vma_zero |>
    <| mmap_next := MMAP_BASE |>
    <| brk_start := 0 |>
    <| brk_current := 0 |>
    <| uid := 0 |> <| gid := 0 |> <| euid := 0 |> <| egid := 0 |>
    <| epoll_fd_idx := -1 |>
    <| epoll_timeout_ticks := 0 |>
    <| epoll_events_ptr := 0 |>
    <| epoll_maxevents := 0 |>
    <| ctx := mk_context 0 0 0 0 0 0 (u64 (guard + PAGE_SIZE + PROCESS_STACK_SIZE)) entry |>.

(** ** Table lemmas *)

Lemma lookup_upd_proc t i f j :
  upd_proc i f t !! j = if decide (i = j) then f <$> t !! j else t !! j.
Proof.
  unfold upd_proc. destruct (decide (i = j)) as [->|].
  - by rewrite list_lookup_alter_eq.
  - by rewrite list_lookup_alter_ne.
Qed.

Lemma length_upd_proc t i f : length (upd_proc i f t) = length t.
Proof. apply length_alter. Qed.

(** Pids of live slots identify them. *)
Definition pids_unique (t : table) : Prop :=
  forall i j p q, t !! i = Some p -> t !! j = Some q ->
    unused p = false -> unused q = false -> pid p = pid q -> i = j.

Lemma process_get_by_pid_Some t q i :
  process_get_by_pid t q = Some i ->
  exists p, t !! i = Some p /\ unused p = false /\ pid p = q.
Proof.
  intros H. apply find_index_Some in H as (p & Hp & Hc & _).
  exists p. by b2p.
Qed.

Lemma process_get_by_pid_unique t i p :
  pids_unique t -> t !! i = Some p -> unused p = false ->
  process_get_by_pid t (pid p) = Some i.
Proof.
  intros U Hi Hu. unfold process_get_by_pid.
  destruct (find_index_is_Some (fun p0 => negb (unused p0) && (pid p0 =? pid p)) t i p Hi)
    as (k & Hk & _); [rewrite Hu, Z.eqb_refl; done|].
  rewrite Hk. apply process_get_by_pid_Some in Hk as (p' & Hp' & Hu' & Hq).
  f_equal. eapply U; eauto.
Qed.

Create Rewrite HintDb ktab.
#[export] Hint Rewrite length_upd_proc lookup_upd_proc : ktab.

End Process.
