(* ===== verification/Sched.v ===== *)
(** * Scheduler (kernel/scheduler/scheduler.c)

    The ready queue is the linked list the C code threads through the [next]
    field of the process control blocks.  [queue] relates it to the abstract
    FIFO list of slot numbers; the theorems show that adding and scheduling
    refine the list operations, that scheduling is fair, and what a second
    insertion of a queued process does to the list. *)

From stdpp Require Import prelude.
From Stdlib Require Import ZArith Lia.
From S2P Require Import Prelude Process.
Import Process.
Local Open Scope Z_scope.

Module Sched.

(** ** State: the process table and the static variables of scheduler.c, with
    the CPU registers [schedule] writes (CR3 and the TSS stack pointer). *)

Record sched := mk_sched {
  procs : table;
  current_process : option nat;
  ready_queue_head : option nat;
  ready_queue_tail : option nat;
  tick_count : Z;
  scheduler_enabled : bool;
  kernel_cr3 : Z;
  cpu_cr3 : Z;
  tss_rsp0 : Z
}.

#[export] Instance eta_sched : Eta sched := fun s =>
  mk_sched (procs s) (current_process s) (ready_queue_head s) (ready_queue_tail s)
    (tick_count s) (scheduler_enabled s) (kernel_cr3 s) (cpu_cr3 s) (tss_rsp0 s).

Definition proc_at (s : sched) (i : nat) : process := procs s !!! i.

Definition set_proc (i : nat) (f : process -> process) (s : sched) : sched :=
  s <| procs ::= upd_proc i f |>.

Definition set_state (i : nat) (st : process_state) (s : sched) : sched :=
  set_proc i (fun p => p <| state := st |>) s.

Definition scheduler_add (i : nat) (s : sched) : sched :=
  let s := set_proc i (fun p => p <| state := PROCESS_READY |> <| next := None |>) s in
  match ready_queue_head s with
  | None => s <| ready_queue_head := Some i |> <| ready_queue_tail := Some i |>
  | Some _ =>
      let s := match ready_queue_tail s with
               | Some t => set_proc t (fun p => p <| next := Some i |>) s
               | None => s
               end in
      s <| ready_queue_tail := Some i |>
  end.

(** [if (current && current->state == RUNNING) requeue it]. *)
Definition requeue_current (s : sched) : sched :=
  match current_process s with
  | Some c =>
      if is_state (state (proc_at s c)) PROCESS_RUNNING
      then scheduler_add c (set_state c PROCESS_READY s)
      else s
  | None => s
  end.

(** Take [n] off the head of the ready queue. *)
Definition pop_ready (n : nat) (s : sched) : sched :=
  let s := s <| ready_queue_head := next (proc_at s n) |> in
  match ready_queue_head s with
  | None => s <| ready_queue_tail := None |>
  | Some _ => s
  end.

(** [schedule], up to and including the register switch.  [context_switch]
    saves the callee-saved registers of the old process and loads those of the
    new one; the scheduler state it leaves is the one returned here. *)
Definition schedule (s : sched) : sched :=
  match ready_queue_head s with
  | None => s
  | Some n =>
      let s := requeue_current (pop_ready n s) in
      let s := s <| current_process := Some n |> in
      let s := set_state n PROCESS_RUNNING s in
      s <| tss_rsp0 := kernel_stack (proc_at s n) |>
        <| cpu_cr3 := if cr3 (proc_at s n) =? 0 then kernel_cr3 s else cr3 (proc_at s n) |>
  end.

(** The common wake-up: [p->state = READY; scheduler_add(p);]. *)
Definition wake (i : nat) (s : sched) : sched :=
  scheduler_add i (set_state i PROCESS_READY s).

(** The common sleep: [cur->state = BLOCKED; schedule();]. *)
Definition block_current (s : sched) : sched :=
  match current_process s with
  | Some c => schedule (set_state c PROCESS_BLOCKED s)
  | None => s
  end.

Fixpoint schedule_n (n : nat) (s : sched) : sched :=
  match n with
  | O => s
  | S n' => schedule_n n' (schedule s)
  end.

(** ** The abstract queue *)

(** Following [next] from [h] visits exactly [l]. *)
Fixpoint chain (t : table) (h : option nat) (l : list nat) : Prop :=
  match l with
  | [] => h = None
  | i :: l' => h = Some i /\ exists p, t !! i = Some p /\ chain t (next p) l'
  end.

Definition queue (s : sched) (l : list nat) : Prop :=
  chain (procs s) (ready_queue_head s) l /\ ready_queue_tail s = last l /\ NoDup l.

(** The scheduler invariant: the queue is a duplicate-free list of READY
    processes that does not contain the running one. *)
Record sched_inv (s : sched) (l : list nat) : Prop := mk_inv {
  inv_queue : queue s l;
  inv_ready : forall i p, i ∈ l -> procs s !! i = Some p -> state p = PROCESS_READY;
  inv_current : forall c, current_process s = Some c -> (c ∉ l) /\ (c < length (procs s))%nat
}.

(** ** Chains *)

Lemma chain_ext t t' h l :
  (forall i, i ∈ l -> (next <$> t' !! i) = (next <$> t !! i)) -> chain t h l -> chain t' h l.
Proof.
  revert h; induction l as [|i l IH]; intros h Hext; simpl; [done|].
  intros [-> (p & Hp & Hc)]. split; [done|].
  pose proof (Hext i ltac:(set_solver)) as Hi. rewrite Hp in Hi. simpl in Hi.
  apply fmap_Some in Hi as (p' & Hp' & Hn). exists p'. split; [done|]. rewrite <- Hn.
  apply IH; [|done]. intros j Hj. apply Hext. set_solver.
Qed.

Lemma chain_det t h l l' : chain t h l -> chain t h l' -> l = l'.
Proof.
  revert h l'; induction l as [|i l IH]; intros h [|j l']; simpl; try done.
  - by intros -> [? _].
  - by intros [-> _] ?.
  - intros [-> (p & Hp & Hc)] [[= <-] (q & Hq & Hc')]. f_equal.
    rewrite Hp in Hq. injection Hq as <-. eauto.
Qed.

Lemma chain_lt t h l i : chain t h l -> i ∈ l -> (i < length t)%nat.
Proof.
  revert h; induction l as [|j l IH]; intros h; [by intros _ ?%not_elem_of_nil|].
  simpl. intros [_ (p & Hp & Hc)] [->|Hi]%elem_of_cons; [by eapply lookup_lt_Some|eauto].
Qed.

(** Linking [i] behind the last element. *)
Lemma chain_snoc t h l x i p :
  chain t h (l ++ [x]) -> NoDup (l ++ [x]) -> t !! i = Some p -> next p = None ->
  chain (upd_proc x (fun q => q <| next := Some i |>) t) h (l ++ [x] ++ [i]) \/ i ∈ l ++ [x].
Proof.
  intros Hc Hnd Hi Hn. destruct (decide (i ∈ l ++ [x])) as [|Hni]; [by right|left].
  revert h Hc Hnd Hni; induction l as [|j l IH]; intros h; simpl.
  - intros [-> (q & Hq & Hqn)] _ Hni. split; [done|].
    exists (q <| next := Some i |>). rewrite lookup_upd_proc, decide_True, Hq by done.
    split; [done|]. simpl. split; [done|]. exists p.
    rewrite lookup_upd_proc, decide_False by set_solver. done.
  - intros [-> (q & Hq & Hc)] [Hj Hnd]%NoDup_cons Hni. split; [done|]. exists q.
    rewrite lookup_upd_proc, decide_False by set_solver. split; [done|].
    apply IH; [done|done|set_solver].
Qed.

(** ** Refinement of the list operations *)

Lemma queue_set_state s l i st : queue s l -> queue (set_state i st s) l.
Proof.
  intros (Hc & Ht & Hn). split_and!; [|done|done]. simpl.
  eapply chain_ext; [|exact Hc]. intros j _. rewrite lookup_upd_proc.
  destruct (decide (i = j)); [|done]. by destruct (procs s !! j).
Qed.

Lemma scheduler_add_queue s l i :
  queue s l -> i ∉ l -> (i < length (procs s))%nat -> queue (scheduler_add i s) (l ++ [i]).
Proof.
  intros (Hc & Ht & Hn) Hi Hlt.
  destruct (lookup_lt_is_Some_2 _ _ Hlt) as [p Hp].
  set (reset := fun p : process => p <| state := PROCESS_READY |> <| next := None |>).
  assert (upd_proc i reset (procs s) !! i = Some (reset p)) as Hp'
    by (rewrite lookup_upd_proc, decide_True, Hp; done).
  unfold scheduler_add. simpl. destruct (ready_queue_head s) as [h|] eqn:Hh.
  - destruct l as [|x l _] using rev_ind; [done|]. rewrite last_snoc in Ht. rewrite Ht.
    split_and!; simpl.
    + rewrite Hh, <- app_assoc.
      destruct (chain_snoc (upd_proc i reset (procs s)) (Some h) l x i (reset p))
        as [H|H]; [|done..|exact H|by destruct Hi].
      eapply chain_ext; [|exact Hc]. intros j Hj.
      rewrite lookup_upd_proc, decide_False; [done|]. intros ->. done.
    + by rewrite last_snoc.
    + apply NoDup_app. split_and!; [done|set_solver|apply NoDup_singleton].
  - destruct l as [|x l]; [|by destruct Hc]. split_and!; simpl; [|done|apply NoDup_singleton].
    split; [done|]. exists (reset p). done.
Qed.

Lemma procs_scheduler_add s i :
  length (procs (scheduler_add i s)) = length (procs s) /\
  forall j p, procs (scheduler_add i s) !! j = Some p ->
    exists q, procs s !! j = Some q /\
      state p = (if decide (i = j) then PROCESS_READY else state q) /\
      cr3 p = cr3 q /\ kernel_stack p = kernel_stack q.
Proof.
  set (reset := fun p : process => p <| state := PROCESS_READY |> <| next := None |>).
  assert (forall j p, upd_proc i reset (procs s) !! j = Some p ->
    exists q, procs s !! j = Some q /\
      state p = (if decide (i = j) then PROCESS_READY else state q) /\
      cr3 p = cr3 q /\ kernel_stack p = kernel_stack q) as H1.
  { intros j p. rewrite lookup_upd_proc. destruct (decide (i = j)); [|intros ?; by exists p].
    destruct (procs s !! j) as [q|]; [|done]. intros [= <-]. by exists q. }
  unfold scheduler_add. simpl. destruct (ready_queue_head s) as [h|]; simpl.
  - destruct (ready_queue_tail s) as [t|]; simpl;
      [|by split; [rewrite length_upd_proc|apply H1]].
    rewrite !length_upd_proc. split; [done|]. intros j p. rewrite lookup_upd_proc.
    destruct (decide (t = j)); [|by apply H1].
    match goal with |- context [_ <$> ?x] => destruct x as [q|] eqn:E end; [|done].
    intros [= <-]. destruct (H1 j q E) as (q' & Hq' & Hs & Hx). by exists q'.
  - by split; [rewrite length_upd_proc|apply H1].
Qed.

Lemma current_scheduler_add s i : current_process (scheduler_add i s) = current_process s.
Proof.
  unfold scheduler_add. simpl. destruct (ready_queue_head s); [|done].
  by destruct (ready_queue_tail s).
Qed.

Lemma state_set_state s i st j p :
  procs (set_state i st s) !! j = Some p ->
  exists q, procs s !! j = Some q /\ state p = (if decide (i = j) then st else state q).
Proof.
  simpl. rewrite lookup_upd_proc. destruct (decide (i = j)); [|intros ?; by exists p].
  destruct (procs s !! j) as [q|]; [|done]. intros [= <-]. by exists q.
Qed.

Lemma current_requeue s : current_process (requeue_current s) = current_process s.
Proof.
  unfold requeue_current. destruct (current_process s) as [c|] eqn:E; [|done].
  destruct (is_state _ _); [|done]. by rewrite current_scheduler_add.
Qed.

(** The process that [schedule] puts back, if any. *)
Definition requeued (s : sched) : list nat :=
  match current_process s with
  | Some c => if is_state (state (proc_at s c)) PROCESS_RUNNING then [c] else []
  | None => []
  end.

Lemma requeue_current_queue s l :
  queue s l -> (forall c, current_process s = Some c -> (c ∉ l) /\ (c < length (procs s))%nat) ->
  queue (requeue_current s) (l ++ requeued s).
Proof.
  intros Hq Hc. unfold requeue_current, requeued.
  destruct (current_process s) as [c|] eqn:E; [|by rewrite app_nil_r].
  destruct (Hc c eq_refl) as [Hnot Hlt].
  destruct (is_state _ _); [|by rewrite app_nil_r].
  apply scheduler_add_queue; [by apply queue_set_state|done|].
  simpl. by rewrite length_upd_proc.
Qed.

(** The head leaves the queue. *)
Lemma pop_ready_frame n s :
  procs (pop_ready n s) = procs s /\ current_process (pop_ready n s) = current_process s /\
  requeued (pop_ready n s) = requeued s.
Proof.
  unfold pop_ready, requeued, proc_at. simpl. by destruct (next _).
Qed.

Lemma pop_ready_queue s n l :
  queue s (n :: l) -> ready_queue_head s = Some n /\ queue (pop_ready n s) l.
Proof.
  intros ([Hh (p & Hp & Hc)] & Ht & Hn). apply NoDup_cons in Hn as [Hnl Hn].
  split; [done|]. unfold pop_ready, proc_at. simpl.
  rewrite (list_lookup_total_correct _ _ _ Hp).
  destruct (next p) as [x|] eqn:Hx; split_and!; simpl; try done.
  - destruct l; [done|]. by rewrite Ht.
  - by destruct l; [|destruct Hc].
Qed.

Lemma length_requeue s : length (procs (requeue_current s)) = length (procs s).
Proof.
  unfold requeue_current. destruct (current_process s) as [c|]; [|done].
  destruct (is_state _ _); [|done].
  destruct (procs_scheduler_add (set_state c PROCESS_READY s) c) as [-> _].
  simpl. by rewrite length_upd_proc.
Qed.

(** [schedule] on a non-empty queue. *)
Lemma schedule_queue s n l :
  queue s (n :: l) ->
  (forall c, current_process s = Some c -> (c ∉ n :: l) /\ (c < length (procs s))%nat) ->
  queue (schedule s) (l ++ requeued s) /\ current_process (schedule s) = Some n /\
  state (proc_at (schedule s) n) = PROCESS_RUNNING.
Proof.
  intros Hq Hc. destruct (pop_ready_queue s n l Hq) as [Hh Hpop].
  destruct (pop_ready_frame n s) as (Ep & Ec & Er).
  unfold schedule. rewrite Hh.
  assert (queue (requeue_current (pop_ready n s)) (l ++ requeued s)) as Hq3.
  { rewrite <- Er. apply requeue_current_queue; [done|]. intros c Hcc.
    rewrite Ep. rewrite Ec in Hcc. destruct (Hc c Hcc). split; [set_solver|done]. }
  assert (n < length (procs (requeue_current (pop_ready n s))))%nat as Hlt.
  { rewrite length_requeue, Ep. eapply chain_lt; [apply Hq|set_solver]. }
  destruct (queue_set_state _ _ n PROCESS_RUNNING Hq3) as (A & B & C).
  split; [split; [exact A|split; [exact B|exact C]]|]. split; [done|].
  unfold proc_at. cbn. destruct (lookup_lt_is_Some_2 _ _ Hlt) as [p Hp].
  erewrite list_lookup_total_correct; [|by rewrite lookup_upd_proc, decide_True, Hp].
  done.
Qed.

(** States after [schedule]: the new process runs, a requeued one is READY, the
    rest keep theirs. *)
Lemma schedule_states s n l j p :
  queue s (n :: l) -> procs (schedule s) !! j = Some p ->
  exists q, procs s !! j = Some q /\
    state p = (if decide (n = j) then PROCESS_RUNNING
               else if decide (j ∈ requeued s) then PROCESS_READY else state q).
Proof.
  intros Hq. destruct (pop_ready_queue s n l Hq) as [Hh _]. unfold schedule. rewrite Hh.
  destruct (pop_ready_frame n s) as (Ep & Ec & _). set (s2 := pop_ready n s) in *.
  intros Hj. cbn in Hj. rewrite lookup_upd_proc in Hj.
  assert (exists p', procs (requeue_current s2) !! j = Some p' /\
            state p = if decide (n = j) then PROCESS_RUNNING else state p') as (p' & Hp' & ->).
  { destruct (decide (n = j)).
    - destruct (procs (requeue_current s2) !! j) as [p'|]; [|done].
      exists p'. by injection Hj as <-.
    - by exists p. }
  unfold requeue_current in Hp'. unfold requeued, proc_at in *. rewrite Ec, Ep in Hp'.
  destruct (current_process s) as [c|].
  2:{ rewrite Ep in Hp'. exists p'. split; [done|].
      destruct (decide (n = j)); [done|]. by rewrite decide_False by set_solver. }
  destruct (is_state _ _).
  2:{ rewrite Ep in Hp'. exists p'. split; [done|].
      destruct (decide (n = j)); [done|]. by rewrite decide_False by set_solver. }
  apply procs_scheduler_add in Hp' as (q1 & Hq1 & -> & _).
  apply state_set_state in Hq1 as (q & Hq' & ->). rewrite Ep in Hq'. exists q.
  split; [done|]. destruct (decide (n = j)), (decide (c = j)) as [->|]; try done.
  - by rewrite decide_True by set_solver.
  - by rewrite decide_False by set_solver.
Qed.

(** The scheduler changes nothing of a process but [state] and [next]. *)
Definition sched_only (t t' : table) : Prop :=
  length t' = length t /\
  forall j p', t' !! j = Some p' ->
    exists p, t !! j = Some p /\ p' = p <| state := state p' |> <| next := next p' |>.

#[export] Instance sched_only_preorder : PreOrder sched_only.
Proof.
  split.
  - intros t. split; [done|]. intros j p Hp. exists p. split; [done|]. by destruct p.
  - intros t1 t2 t3 [L1 H1] [L2 H2]. split; [by rewrite L2|]. intros j p3 H3.
    destruct (H2 j p3 H3) as (p2 & Hp2 & E2). destruct (H1 j p2 Hp2) as (p1 & Hp1 & E1).
    exists p1. split; [done|]. rewrite E2, E1. by destruct p1.
Qed.

Lemma sched_only_upd i g t :
  (forall p, g p = p <| state := state (g p) |> <| next := next (g p) |>) ->
  sched_only t (upd_proc i g t).
Proof.
  intros Hg. split; [apply length_upd_proc|]. intros j p'. rewrite lookup_upd_proc.
  destruct (decide (i = j)); [|intros ?; exists p'; split; [done|by destruct p']].
  destruct (t !! j) as [p|]; [|done]. intros [= <-]. exists p. split; [done|]. apply Hg.
Qed.

Lemma sched_only_add i s : sched_only (procs s) (procs (scheduler_add i s)).
Proof.
  unfold scheduler_add. simpl. destruct (ready_queue_head s); [|by apply sched_only_upd].
  destruct (ready_queue_tail s); simpl; [|by apply sched_only_upd].
  etransitivity; by apply sched_only_upd.
Qed.

Lemma sched_only_wake i s : sched_only (procs s) (procs (wake i s)).
Proof. etransitivity; [|apply sched_only_add]. by apply sched_only_upd. Qed.

Lemma sched_only_schedule s : sched_only (procs s) (procs (schedule s)).
Proof.
  unfold schedule. destruct (ready_queue_head s) as [n|]; [|reflexivity].
  destruct (pop_ready_frame n s) as (Ep & Ec & _). cbn.
  etransitivity; [|by apply sched_only_upd].
  unfold requeue_current. rewrite Ec. rewrite <- Ep.
  destruct (current_process s) as [c|]; [|reflexivity].
  destruct (is_state _ _); [|reflexivity]. apply sched_only_wake.
Qed.

Lemma sched_only_at t t' j :
  sched_only t t' -> (j < length t)%nat ->
  t' !!! j = (t !!! j) <| state := state (t' !!! j) |> <| next := next (t' !!! j) |>.
Proof.
  intros [Hl H] Hj. destruct (lookup_lt_is_Some_2 t' j) as [p' Hp']; [by rewrite Hl|].
  destruct (H j p' Hp') as (p & Hp & E).
  by rewrite (list_lookup_total_correct _ _ _ Hp'), (list_lookup_total_correct _ _ _ Hp).
Qed.

Lemma wake_state s q j :
  (j < length (procs s))%nat ->
  state (proc_at (wake q s) j) = if decide (q = j) then PROCESS_READY else state (proc_at s j).
Proof.
  intros Hj. destruct (procs_scheduler_add (set_state q PROCESS_READY s) q) as [Hl H].
  destruct (lookup_lt_is_Some_2 (procs (wake q s)) j) as [p Hp].
  { unfold wake. rewrite Hl. simpl. by rewrite length_upd_proc. }
  destruct (H j p Hp) as (p1 & Hp1 & E & _). apply state_set_state in Hp1 as (p2 & Hp2 & E2).
  unfold proc_at. rewrite (list_lookup_total_correct _ _ _ Hp), (list_lookup_total_correct _ _ _ Hp2), E.
  rewrite E2. by destruct (decide (q = j)).
Qed.

(** A blocked process is not queued. *)
Lemma inv_not_queued s l q :
  sched_inv s l -> (q < length (procs s))%nat -> state (proc_at s q) <> PROCESS_READY -> q ∉ l.
Proof.
  intros Hinv [p Hp]%lookup_lt_is_Some_2 Hst Hin. apply Hst. unfold proc_at.
  rewrite (list_lookup_total_correct _ _ _ Hp). by eapply inv_ready.
Qed.

Lemma wake_queue s l q :
  queue s l -> q ∉ l -> (q < length (procs s))%nat -> queue (wake q s) (l ++ [q]).
Proof.
  intros Hq Hnq Hlt. apply scheduler_add_queue; [by apply queue_set_state|done|].
  simpl. by rewrite length_upd_proc.
Qed.

(** Writing other fields of an unqueued process keeps the invariant. *)
Lemma inv_set_proc s l i g :
  i ∉ l -> sched_inv s l -> sched_inv (set_proc i g s) l.
Proof.
  intros Hi [(Hc & Ht & Hn) Hr Hcur]. constructor.
  - split_and!; [|done|done]. simpl. eapply chain_ext; [|exact Hc].
    intros j Hj. rewrite lookup_upd_proc, decide_False; [done|]. by intros ->.
  - intros j p Hj. simpl. rewrite lookup_upd_proc, decide_False; [by apply Hr|]. by intros ->.
  - intros c. simpl. rewrite length_upd_proc. apply Hcur.
Qed.

(** A process that is neither queued nor running keeps its state. *)
Lemma schedule_state_idle s l j :
  queue s l -> j ∉ l -> (j < length (procs s))%nat -> state (proc_at s j) <> PROCESS_RUNNING ->
  state (proc_at (schedule s) j) = state (proc_at s j).
Proof.
  intros Hq Hj Hlt Hst. destruct l as [|n l].
  { unfold schedule. destruct Hq as (Hh & _). simpl in Hh. by rewrite Hh. }
  destruct (sched_only_schedule s) as [Hlen _].
  destruct (lookup_lt_is_Some_2 (procs (schedule s)) j) as [p Hp]; [by rewrite Hlen|].
  destruct (schedule_states s n l j p Hq Hp) as (q & Hq' & E).
  unfold proc_at in *. rewrite (list_lookup_total_correct _ _ _ Hp), E.
  rewrite (list_lookup_total_correct _ _ _ Hq') in Hst |- *.
  rewrite decide_False by set_solver. rewrite decide_False; [done|].
  unfold requeued, proc_at. destruct (current_process s) as [c|]; [|set_solver].
  destruct (is_state _ _) eqn:Er; [|set_solver]. intros ->%list_elem_of_singleton.
  apply bool_decide_eq_true in Er. rewrite (list_lookup_total_correct _ _ _ Hq') in Er. done.
Qed.

Lemma scheduler_add_inv s l i :
  sched_inv s l -> i ∉ l -> (i < length (procs s))%nat -> current_process s <> Some i ->
  sched_inv (scheduler_add i s) (l ++ [i]).
Proof.
  intros [Hq Hr Hc] Hi Hlt Hcur. destruct (procs_scheduler_add s i) as [Hlen Hst].
  constructor.
  - by apply scheduler_add_queue.
  - intros j p Hj Hp. destruct (Hst j p Hp) as (q & Hq' & -> & _).
    destruct (decide (i = j)); [done|]. eapply Hr; [|done]. set_solver.
  - intros c. rewrite current_scheduler_add, Hlen. intros Hcc. destruct (Hc c Hcc).
    split; [|done]. assert (c <> i) by congruence. set_solver.
Qed.

(** Waking a process that sleeps. *)
Lemma wake_inv s l r :
  sched_inv s l -> (r < length (procs s))%nat -> state (proc_at s r) = PROCESS_BLOCKED ->
  current_process s <> Some r -> sched_inv (wake r s) (l ++ [r]).
Proof.
  intros Hinv Hlt Hst Hcur. assert (r ∉ l) by (eapply inv_not_queued; [done|done|by rewrite Hst]).
  apply scheduler_add_inv; [by apply inv_set_proc|done|simpl; by rewrite length_upd_proc|done].
Qed.

(** [scheduler_add] implements enqueue on the abstract FIFO queue: a process
    that is not queued goes to the tail, is READY, the invariant holds, and no
    process changes but for its state and queue link. *)
Theorem scheduler_add_refines s l i :
  sched_inv s l -> i ∉ l -> (i < length (procs s))%nat -> current_process s <> Some i ->
  sched_inv (scheduler_add i s) (l ++ [i]) /\ sched_only (procs s) (procs (scheduler_add i s)).
Proof. split; [by apply scheduler_add_inv|apply sched_only_add]. Qed.

Lemma schedule_inv s n l :
  sched_inv s (n :: l) ->
  sched_inv (schedule s) (l ++ requeued s) /\
  current_process (schedule s) = Some n /\
  state (proc_at (schedule s) n) = PROCESS_RUNNING.
Proof.
  intros [Hq Hr Hc]. destruct (schedule_queue s n l Hq Hc) as (Hq' & Hcur & Hrun).
  assert (n ∉ l) as Hnl by (destruct Hq as (_ & _ & Hnd); apply NoDup_cons in Hnd; apply Hnd).
  assert (n ∉ requeued s) as Hnr.
  { unfold requeued. destruct (current_process s) as [c|]; [|set_solver].
    destruct (Hc c eq_refl). destruct (is_state _ _); set_solver. }
  split_and!; [constructor|done|done].
  - done.
  - intros j p Hj Hp. destruct (schedule_states _ _ _ _ _ Hq Hp) as (q & Hq1 & ->).
    rewrite decide_False by set_solver. destruct (decide (j ∈ requeued s)); [done|].
    eapply Hr; [|done]. set_solver.
  - intros c. rewrite Hcur. intros [= <-]. split; [set_solver|].
    destruct (procs (schedule s) !! n) as [p|] eqn:E; [by eapply lookup_lt_Some|].
    unfold proc_at in Hrun. rewrite list_lookup_total_alt, E in Hrun. by simpl in Hrun.
Qed.

(** No slot is taken or given back by scheduling. *)
Lemma schedule_unused s n l j : sched_inv s (n :: l) -> (j < length (procs s))%nat ->
  unused (proc_at (schedule s) j) = unused (proc_at s j).
Proof.
  intros Hinv Hj. destruct (sched_only_schedule s) as [Hlen _].
  destruct (lookup_lt_is_Some_2 (procs (schedule s)) j) as [p Hp]; [by rewrite Hlen|].
  destruct (schedule_states s n l j p (inv_queue _ _ Hinv) Hp) as (q & Hq & E).
  unfold unused, proc_at. rewrite (list_lookup_total_correct _ _ _ Hp), (list_lookup_total_correct _ _ _ Hq), E.
  destruct (decide (n = j)) as [<-|]; [by rewrite (inv_ready _ _ Hinv n q) by set_solver|].
  destruct (decide (j ∈ requeued s)) as [Hr|]; [|done].
  unfold requeued in Hr. destruct (current_process s) as [c|]; [|set_solver].
  destruct (is_state _ _) eqn:Er; [|set_solver]. apply list_elem_of_singleton in Hr as <-.
  apply bool_decide_eq_true in Er. unfold proc_at in Er. rewrite (list_lookup_total_correct _ _ _ Hq) in Er. by rewrite Er.
Qed.

(** C15: [schedule] implements the round-robin step on the abstract queue: the
    head becomes the running process, the preempted process (if it was still
    running) goes to the tail, and the invariant holds again. *)
Theorem schedule_refines s n l :
  sched_inv s (n :: l) ->
  sched_inv (schedule s) (l ++ requeued s) /\
  current_process (schedule s) = Some n /\
  state (proc_at (schedule s) n) = PROCESS_RUNNING.
Proof. apply schedule_inv. Qed.

(** C38: scheduling is fair: a process at position [k] of the ready queue is the
    running process after exactly [k + 1] calls of [schedule]. *)
Theorem schedule_fair k s l i :
  sched_inv s l -> l !! k = Some i -> current_process (schedule_n (S k) s) = Some i.
Proof.
  revert s l; induction k as [|k IH]; intros s [|n l] Hinv; try done; simpl.
  - intros [= ->]. by destruct (schedule_inv s i l Hinv) as (_ & ? & _).
  - intros Hk. apply (IH (schedule s) (l ++ requeued s)); [|by apply lookup_app_l_Some].
    apply (schedule_inv s n l Hinv).
Qed.

(** [scheduler_add] must not be called on a process that is already queued.
    If the head of a queue of two or more processes is added again, the linked
    list afterwards holds only that process: all the others are lost to the
    scheduler. *)
Theorem scheduler_add_twice_drops s i x l :
  queue s (i :: x :: l) -> chain (procs (scheduler_add i s)) (ready_queue_head (scheduler_add i s)) [i].
Proof.
  intros ([Hh (p & Hp & Hc)] & Ht & Hnd). unfold scheduler_add. simpl. rewrite Hh.
  rewrite last_cons_cons in Ht. destruct (last (x :: l)) as [t|] eqn:El;
    [|by apply last_None in El]. rewrite Ht. simpl. rewrite Hh. split; [done|].
  assert (t <> i) as Hti.
  { apply last_Some_elem_of in El. apply NoDup_cons in Hnd. intros ->. by apply Hnd. }
  eexists. rewrite lookup_upd_proc, decide_False by done.
  rewrite lookup_upd_proc, decide_True, Hp by done. split; done.
Qed.

(** ** A concrete scheduler: idle process 0 running, 1 and 2 ready *)

Definition demo_proc (q : Z) (st : process_state) (nx : option nat) : process :=
  process_zero <| pid := q |> <| state := st |> <| next := nx |>.

Definition demo_sched : sched :=
  mk_sched [demo_proc 1 PROCESS_RUNNING None; demo_proc 2 PROCESS_READY (Some 2%nat);
            demo_proc 3 PROCESS_READY None; demo_proc 4 PROCESS_BLOCKED None]
    (Some 0%nat) (Some 1%nat) (Some 2%nat) 0 true 4096 4096 0.

Lemma demo_sched_inv : sched_inv demo_sched [1; 2]%nat.
Proof.
  constructor.
  - split_and!; [|done|by apply (bool_decide_unpack _)].
    simpl. eauto 10.
  - intros i p Hi Hp. repeat (apply elem_of_cons in Hi as [->|Hi]);
      [by injection Hp as <-..|by apply not_elem_of_nil in Hi].
  - intros c [= <-]. split; [set_solver|simpl; lia].
Qed.

Lemma scheduler_add_refines_witness : sched_inv (scheduler_add 3 demo_sched) [1; 2; 3]%nat.
Proof.
  apply (scheduler_add_refines demo_sched [1; 2]%nat 3 demo_sched_inv);
    [set_solver|simpl; lia|done].
Defined.

Lemma schedule_refines_witness :
  sched_inv (schedule demo_sched) [2; 0]%nat /\
  current_process (schedule demo_sched) = Some 1%nat.
Proof.
  destruct (schedule_refines demo_sched 1 [2]%nat demo_sched_inv) as (A & B & _).
  split; [exact A|exact B].
Defined.

Lemma schedule_fair_witness : current_process (schedule_n 2 demo_sched) = Some 2%nat.
Proof. apply (schedule_fair 1 demo_sched [1; 2]%nat 2 demo_sched_inv). reflexivity. Defined.

Lemma scheduler_add_twice_drops_witness :
  chain (procs (scheduler_add 1 demo_sched)) (ready_queue_head (scheduler_add 1 demo_sched)) [1%nat].
Proof.
  apply (scheduler_add_twice_drops demo_sched 1 2 []). apply demo_sched_inv.
Defined.

End Sched.
