(* ===== verification/Cred.v ===== *)
(** * Credentials and permission checks (kernel/security/cred.c)

    The three permission predicates, the credential system calls of syscall.c
    and the set-user-id step of exec.  The specification is the Unix rule in
    terms of the permission triple of the class the caller belongs to. *)

From stdpp Require Import prelude.
From Stdlib Require Import ZArith Lia.
From S2P Require Import Prelude Process.
Import Process.
Local Open Scope Z_scope.

Module Cred.

(** ** cred.c *)

Definition mask_test (mode mask : Z) : bool := negb (Z.land mode mask =? 0).

Definition cred_check_read (p : process) (i_mode i_uid i_gid : Z) : bool :=
  if euid p =? 0 then true
  else if euid p =? i_uid then mask_test i_mode 0x100
  else if egid p =? i_gid then mask_test i_mode 0x20
  else mask_test i_mode 0x4.

Definition cred_check_write (p : process) (i_mode i_uid i_gid : Z) : bool :=
  if euid p =? 0 then true
  else if euid p =? i_uid then mask_test i_mode 0x80
  else if egid p =? i_gid then mask_test i_mode 0x10
  else mask_test i_mode 0x2.

Definition cred_check_exec (p : process) (i_mode i_uid i_gid : Z) : bool :=
  if euid p =? 0 then true
  else if euid p =? i_uid then mask_test i_mode 0x40
  else if egid p =? i_gid then mask_test i_mode 0x8
  else mask_test i_mode 0x1.

(** ** Credential system calls of syscall.c: new process, value of RAX *)

Definition sys_setuid (p : process) (arg1 : Z) : process * Z :=
  let new_uid := u16 arg1 in
  if euid p =? 0 then (p <| uid := new_uid |> <| euid := new_uid |>, 0)
  else if (new_uid =? uid p) || (new_uid =? euid p) then (p <| uid := new_uid |>, 0)
  else (p, u64 (-1)).

Definition sys_setgid (p : process) (arg1 : Z) : process * Z :=
  let new_gid := u16 arg1 in
  if euid p =? 0 then (p <| gid := new_gid |> <| egid := new_gid |>, 0)
  else if (new_gid =? gid p) || (new_gid =? egid p) then (p <| gid := new_gid |>, 0)
  else (p, u64 (-1)).

Definition sys_seteuid (p : process) (arg1 : Z) : process * Z :=
  let new_euid := u16 arg1 in
  if euid p =? 0 then (p <| euid := new_euid |>, 0)
  else if (new_euid =? uid p) || (new_euid =? euid p) then (p <| euid := new_euid |>, 0)
  else (p, u64 (-1)).

(** The ownership fields of an ext2 inode. *)
Record inode_cred := mk_icred { i_mode : Z; i_uid : Z; i_gid : Z }.

(** The check and update that chown and chmod apply to the inode they read. *)
Definition chown_inode (p : process) (n : inode_cred) (new_uid new_gid : Z) : option inode_cred :=
  if negb (euid p =? 0) && negb (euid p =? i_uid n) then None
  else Some (mk_icred (i_mode n) (u16 new_uid) (u16 new_gid)).

Definition chmod_inode (p : process) (n : inode_cred) (new_mode : Z) : option inode_cred :=
  if negb (euid p =? 0) && negb (euid p =? i_uid n) then None
  else Some (mk_icred (Z.lor (Z.land (i_mode n) 0xF000) (Z.land (u16 new_mode) 0x0FFF))
               (i_uid n) (i_gid n)).

(** exec of a non-empty ext2 file: the permission check made before loading
    and the set-id bits applied after the point of no return. *)
Definition exec_cred (p : process) (n : inode_cred) : option process :=
  if cred_check_exec p (i_mode n) (i_uid n) (i_gid n) then
    let p1 := if mask_test (i_mode n) 0x800 then p <| euid := i_uid n |> else p in
    Some (if mask_test (i_mode n) 0x400 then p1 <| egid := i_gid n |> else p1)
  else None.

(** ** Specification *)

(** Which permission triple applies: 2 owner, 1 group, 0 other. *)
Definition class_of (p : process) (iu ig : Z) : Z :=
  if euid p =? iu then 2 else if egid p =? ig then 1 else 0.

(** Bit [b] (2 read, 1 write, 0 execute) of that triple, root exempt. *)
Definition unix_allows (p : process) (mode iu ig b : Z) : bool :=
  (euid p =? 0) || Z.testbit mode (3 * class_of p iu ig + b).

Lemma mask_testbit mode k : 0 <= k -> mask_test mode (2 ^ k) = Z.testbit mode k.
Proof. apply test_pow2. Qed.

(** The read, write and execute checks decide exactly the Unix rule: root is
    always allowed, otherwise the bit of the caller's class (owner, else group,
    else other) decides. *)
Theorem cred_checks_unix p mode iu ig :
  cred_check_read p mode iu ig = unix_allows p mode iu ig 2 /\
  cred_check_write p mode iu ig = unix_allows p mode iu ig 1 /\
  cred_check_exec p mode iu ig = unix_allows p mode iu ig 0.
Proof.
  unfold cred_check_read, cred_check_write, cred_check_exec, unix_allows, class_of.
  destruct (euid p =? 0); [done|].
  destruct (euid p =? iu); [|destruct (egid p =? ig)]; cbn [orb];
    split_and!; match goal with |- _ = Z.testbit _ ?k => apply (mask_testbit mode k) end; lia.
Qed.

(** Credential changes a process makes on itself. *)
Inductive cred_step : process -> process -> Prop :=
| step_setuid p a : cred_step p (sys_setuid p a).1
| step_setgid p a : cred_step p (sys_setgid p a).1
| step_seteuid p a : cred_step p (sys_seteuid p a).1.

Inductive cred_steps : process -> process -> Prop :=
| steps_refl p : cred_steps p p
| steps_trans p q r : cred_step p q -> cred_steps q r -> cred_steps p r.

(** A process whose real and effective user ids are both non-root stays
    non-root under any sequence of setuid, setgid and seteuid calls. *)
Theorem cred_steps_no_escalation p q :
  cred_steps p q -> euid p <> 0 -> uid p <> 0 -> euid q <> 0 /\ uid q <> 0.
Proof.
  induction 1 as [p|p q r Hs _ IH]; [done|]. intros He Hu.
  apply IH; destruct Hs as [p a|p a|p a]; unfold sys_setuid, sys_setgid, sys_seteuid;
    (destruct (euid p =? 0) eqn:E; [b2p; lia|]);
    destruct (_ || _) eqn:O; simpl; try done;
    apply orb_true_iff in O as [O|O]; b2p; lia.
Qed.

(** The file system calls do not have that property: a non-root owner of a
    regular file can mark it set-user-id, give it to root and execute it, and
    then runs with effective user id 0. *)
Theorem chown_setuid_escalates p n :
  euid p <> 0 -> i_uid n = euid p ->
  exists n1 n2 q,
    chmod_inode p n 0x9FF = Some n1 /\ chown_inode p n1 0 0 = Some n2 /\
    exec_cred p n2 = Some q /\ euid q = 0.
Proof.
  intros He Ho. unfold chmod_inode, chown_inode, exec_cred. rewrite Ho, Z.eqb_refl.
  rewrite andb_false_r. do 3 eexists. split; [done|]. simpl. rewrite Z.eqb_refl, andb_false_r.
  split; [done|]. simpl. change (Z.land (u16 0x9FF) 0xFFF) with 0x9FF. change (u16 0) with 0.
  set (m := Z.lor (Z.land (i_mode n) 0xF000) 0x9FF).
  assert (forall k, 0 <= k < 12 -> Z.testbit m k = Z.testbit 0x9FF k) as Hm.
  { intros k Hk. unfold m. rewrite Z.lor_spec, Z.land_spec.
    replace (Z.testbit 0xF000 k) with false; [by rewrite andb_false_r|].
    symmetry. change 0xF000 with (Z.shiftl 15 12). rewrite Z.shiftl_spec by lia.
    apply Z.testbit_neg_r. lia. }
  assert (cred_check_exec p m 0 0 = true) as ->.
  { unfold cred_check_exec. change 0x40 with (2 ^ 6). change 8 with (2 ^ 3).
    change (mask_test m 1) with (mask_test m (2 ^ 0)).
    rewrite !mask_testbit, !Hm by lia. by case_ifs. }
  change 0x800 with (2 ^ 11). rewrite mask_testbit, Hm by lia. split; [done|]. by case_ifs.
Qed.

(** ** Concrete runs *)

Definition demo_user : process := process_zero <| uid := 100 |> <| euid := 100 |> <| egid := 100 |>.

Lemma cred_steps_no_escalation_witness : euid (sys_seteuid (sys_setuid demo_user 0).1 100).1 <> 0.
Proof.
  apply (cred_steps_no_escalation demo_user); [|done..].
  eapply steps_trans; [apply step_setuid|]. eapply steps_trans; [apply step_seteuid|].
  apply steps_refl.
Defined.

Lemma chown_setuid_escalates_witness :
  exists n1 n2 q,
    chmod_inode demo_user (mk_icred 0x81A4 100 100) 0x9FF = Some n1 /\
    chown_inode demo_user n1 0 0 = Some n2 /\
    exec_cred demo_user n2 = Some q /\ euid q = 0.
Proof. apply (chown_setuid_escalates demo_user (mk_icred 0x81A4 100 100)); done. Defined.

End Cred.
