(* ===== verification/Signal.v ===== *)
(** * Signals (kernel/signal/signal.c and the signal calls of syscall.c)

    Posting a signal, acting on the pending ones before the return to user
    mode, and sigreturn.  The main theorem replaces the scan of [signal_check]
    by its meaning: the lowest pending signal that is not ignored is acted on,
    the ignored ones below it are consumed. *)

From stdpp Require Import prelude.
From Stdlib Require Import ZArith Lia.
From S2P Require Import Prelude Process Sched.
Import Process Sched.
Local Open Scope Z_scope.

Module Signal.

Definition SIGINT : Z := 2.
Definition SIGKILL : Z := 9.
Definition SIGSEGV : Z := 11.
Definition SIGPIPE : Z := 13.
Definition SIGTERM : Z := 15.
Definition SIGCHLD : Z := 17.
Definition SIGTSTP : Z := 20.
Definition SIG_DFL : Z := 0.
Definition SIG_IGN : Z := 1.

(** [struct interrupt_frame] of arch/x86_64/isr.h. *)
Record frame := mk_frame {
  f_r15 : Z; f_r14 : Z; f_r13 : Z; f_r12 : Z; f_r11 : Z; f_r10 : Z; f_r9 : Z; f_r8 : Z;
  f_rbp : Z; f_rdi : Z; f_rsi : Z; f_rdx : Z; f_rcx : Z; f_rbx : Z; f_rax : Z;
  f_int_no : Z; f_err_code : Z;
  f_rip : Z; f_cs : Z; f_rflags : Z; f_rsp : Z; f_ss : Z
}.

#[export] Instance eta_frame : Eta frame := fun f =>
  mk_frame (f_r15 f) (f_r14 f) (f_r13 f) (f_r12 f) (f_r11 f) (f_r10 f) (f_r9 f) (f_r8 f)
    (f_rbp f) (f_rdi f) (f_rsi f) (f_rdx f) (f_rcx f) (f_rbx f) (f_rax f)
    (f_int_no f) (f_err_code f) (f_rip f) (f_cs f) (f_rflags f) (f_rsp f) (f_ss f).

Definition signal_send (q sig : Z) (s : sched) : sched :=
  if (sig <? 1) || (32 <=? sig) then s else
  match process_get_by_pid (procs s) q with
  | None => s
  | Some i =>
      if is_state (state (proc_at s i)) PROCESS_UNUSED
         || is_state (state (proc_at s i)) PROCESS_TERMINATED then s
      else
        let s := set_proc i (fun p => p <| sig_pending ::= fun m => Z.lor m (Z.shiftl 1 sig) |>) s in
        if is_state (state (proc_at s i)) PROCESS_BLOCKED then wake i s else s
  end.

(** The parent of [i] is woken if it waits for it or for any child. *)
Definition wake_waiting_parent (i : nat) (s : sched) : sched :=
  match process_get_by_pid (procs s) (ppid (proc_at s i)) with
  | Some q =>
      let w := wait_for_pid (proc_at s q) in
      if is_state (state (proc_at s q)) PROCESS_BLOCKED
         && ((w =? 0) || (w =? pid (proc_at s i)))
      then wake q s else s
  | None => s
  end.

Definition to_zombie (i : nat) (sig : Z) (s : sched) : sched :=
  set_proc i (fun p => p <| state := PROCESS_ZOMBIE |> <| exit_code := 128 + sig |>) s.

(** The signals whose default action wakes the parent. *)
Definition terminating (sig : Z) : bool :=
  (sig =? SIGKILL) || (sig =? SIGTERM) || (sig =? SIGINT) || (sig =? SIGPIPE) || (sig =? SIGTSTP).

Definition default_action (i : nat) (sig : Z) (s : sched) : sched :=
  if terminating sig then schedule (wake_waiting_parent i (to_zombie i sig s))
  else schedule (to_zombie i sig s).

(** Redirect the frame to the user handler. *)
Definition save_context (f : frame) (p : process) : process :=
  p <| sig_saved_rip := f_rip f |> <| sig_saved_rsp := f_rsp f |>
    <| sig_saved_rflags := f_rflags f |> <| sig_saved_rax := f_rax f |>
    <| sig_saved_rdi := f_rdi f |> <| sig_saved_rsi := f_rsi f |>
    <| sig_saved_rdx := f_rdx f |> <| in_signal_handler := true |>.

Definition redirect (handler sig : Z) (f : frame) : frame :=
  f <| f_rip := handler |> <| f_rdi := sig |> <| f_rsp ::= fun r => u64 (r - 8) |>.

Definition clear_pending (i : nat) (sig : Z) (s : sched) : sched :=
  set_proc i (fun p => p <| sig_pending ::= fun m => Z.land m (u32 (Z.lnot (Z.shiftl 1 sig))) |>) s.

(** The body of the [for] loop from [sig] on; [n] turns are left. *)
Fixpoint signal_scan (n : nat) (sig : Z) (i : nat) (s : sched) (f : frame) : sched * frame :=
  match n with
  | O => (s, f)
  | S n' =>
      if Z.land (sig_pending (proc_at s i)) (Z.shiftl 1 sig) =? 0
      then signal_scan n' (sig + 1) i s f
      else
        let s := clear_pending i sig s in
        let handler := zget (sig_handlers (proc_at s i)) sig in
        if handler =? SIG_IGN then signal_scan n' (sig + 1) i s f
        else if handler =? SIG_DFL then
          if sig =? SIGCHLD then signal_scan n' (sig + 1) i s f
          else (default_action i sig s, f)
        else (set_proc i (save_context f) s, redirect handler sig f)
  end.

Definition signal_check (i : option nat) (s : sched) (f : frame) : sched * frame :=
  match i with
  | None => (s, f)
  | Some i =>
      let p := proc_at s i in
      if negb (is_user p) || in_signal_handler p then (s, f)
      else if sig_pending p =? 0 then (s, f)
      else signal_scan 31 1 i s f
  end.

Definition signal_has_fatal (p : process) : bool :=
  negb (Z.land (sig_pending p)
          (Z.lor (Z.lor (Z.shiftl 1 SIGINT) (Z.shiftl 1 SIGKILL)) (Z.shiftl 1 SIGTERM)) =? 0).

(** ** System calls; RAX is set in the frame *)

Definition sys_kill (arg1 arg2 : Z) (s : sched) (f : frame) : sched * frame :=
  let q := u32 arg1 in
  let sig := s32 arg2 in
  if (sig <? 1) || (32 <=? sig) then (s, f <| f_rax := u64 (-1) |>) else
  match process_get_by_pid (procs s) q with
  | None => (s, f <| f_rax := u64 (-1) |>)
  | Some i =>
      if is_state (state (proc_at s i)) PROCESS_UNUSED
         || is_state (state (proc_at s i)) PROCESS_TERMINATED
      then (s, f <| f_rax := u64 (-1) |>)
      else (signal_send q sig s, f <| f_rax := 0 |>)
  end.

Definition sys_sigaction (c : nat) (arg1 arg2 : Z) (s : sched) (f : frame) : sched * frame :=
  let sig := s32 arg1 in
  if (sig <? 1) || (32 <=? sig) || (sig =? 9) then (s, f <| f_rax := u64 (-1) |>)
  else (set_proc c (fun p => p <| sig_handlers ::= fun h => zset h sig arg2 |>) s,
        f <| f_rax := 0 |>).

Definition sys_sigreturn (c : nat) (s : sched) (f : frame) : sched * frame :=
  let p := proc_at s c in
  if negb (in_signal_handler p) then (s, f <| f_rax := u64 (-1) |>)
  else (set_proc c (fun p => p <| in_signal_handler := false |>) s,
        f <| f_rip := sig_saved_rip p |> <| f_rsp := sig_saved_rsp p |>
          <| f_rflags := sig_saved_rflags p |> <| f_rax := sig_saved_rax p |>
          <| f_rdi := sig_saved_rdi p |> <| f_rsi := sig_saved_rsi p |>
          <| f_rdx := sig_saved_rdx p |>).

(** ** Specification *)

(** [sig] is pending and its disposition is not to ignore it. *)
Definition active (p : process) (sig : Z) : bool :=
  Z.testbit (sig_pending p) sig
  && negb (zget (sig_handlers p) sig =? SIG_IGN)
  && negb ((zget (sig_handlers p) sig =? SIG_DFL) && (sig =? SIGCHLD)).

Definition signals : list Z := Z.of_nat <$> seq 1 31.

(** The lowest active signal. *)
Definition next_signal (p : process) : option Z :=
  (fun k => Z.of_nat (k + 1)) <$> find_index (active p) signals.

(** Signals [1 .. sig] consumed. *)
Definition consume (sig : Z) (p : process) : process :=
  p <| sig_pending ::= fun m => Z.ldiff m (Z.shiftl (Z.ones sig) 1) |>.

Definition act (i : nat) (sig : Z) (s : sched) (f : frame) : sched * frame :=
  let h := zget (sig_handlers (proc_at s i)) sig in
  if h =? SIG_DFL then (default_action i sig s, f)
  else (set_proc i (save_context f) s, redirect h sig f).

Definition signal_spec (i : nat) (s : sched) (f : frame) : sched * frame :=
  match next_signal (proc_at s i) with
  | None => (set_proc i (consume 31) s, f)
  | Some sig => act i sig (set_proc i (consume sig) s) f
  end.


(** The spec's view of a well-formed process slot. *)
Definition sig_wf (p : process) : Prop := 0 <= sig_pending p < 2 ^ 32.

(** ** Writes through one process pointer *)

Lemma proc_at_set_proc s i g :
  (i < length (procs s))%nat -> proc_at (set_proc i g s) i = g (proc_at s i).
Proof.
  intros [p Hp]%lookup_lt_is_Some_2. unfold proc_at. simpl.
  rewrite (list_lookup_total_correct _ _ _ Hp). apply list_lookup_total_correct.
  by rewrite lookup_upd_proc, decide_True, Hp.
Qed.

Lemma length_set_proc s i g : length (procs (set_proc i g s)) = length (procs s).
Proof. apply length_upd_proc. Qed.

#[export] Hint Rewrite length_set_proc : ktab.

Lemma set_proc_twice s i g h : set_proc i g (set_proc i h s) = set_proc i (g ∘ h) s.
Proof.
  unfold set_proc. cbn. f_equal. apply list_alter_alter_eq.
Qed.

Lemma set_proc_ext s i g h :
  (i < length (procs s))%nat -> g (proc_at s i) = h (proc_at s i) ->
  set_proc i g s = set_proc i h s.
Proof.
  intros [p Hp]%lookup_lt_is_Some_2. unfold proc_at.
  rewrite (list_lookup_total_correct _ _ _ Hp). intros E. unfold set_proc. cbn. f_equal.
  apply list_eq. intros j. rewrite !lookup_upd_proc. destruct (decide (i = j)) as [<-|]; [|done].
  rewrite Hp. simpl. by rewrite E.
Qed.

Lemma set_proc_id s i g :
  (i < length (procs s))%nat -> g (proc_at s i) = proc_at s i -> set_proc i g s = s.
Proof.
  intros Hi E. rewrite (set_proc_ext s i g id) by done. destruct s. unfold set_proc. cbn.
  f_equal. unfold upd_proc. by apply list_alter_id.
Qed.

(** ** Pending bits *)

Lemma consumed_bits sig j : 0 <= sig -> 0 <= j ->
  Z.testbit (Z.shiftl (Z.ones sig) 1) j = (1 <=? j) && (j <=? sig).
Proof.
  intros Hs Hj. rewrite Z.shiftl_spec by lia.
  destruct (decide (j = 0)) as [->|]; [by rewrite Z.testbit_neg_r by lia|].
  destruct (decide (j <= sig)).
  - rewrite Z.ones_spec_low by lia. symmetry. apply andb_true_iff. lia.
  - rewrite Z.ones_spec_high by lia. symmetry. apply andb_false_iff. lia.
Qed.

Lemma consume_bit p sig j : 0 <= sig -> 0 <= j ->
  Z.testbit (sig_pending (consume sig p)) j
  = Z.testbit (sig_pending p) j && negb ((1 <=? j) && (j <=? sig)).
Proof. intros. simpl. by rewrite Z.ldiff_spec, consumed_bits by lia. Qed.

Lemma pending_high p j : sig_wf p -> 32 <= j -> Z.testbit (sig_pending p) j = false.
Proof.
  intros Hw Hj. destruct (decide (sig_pending p = 0)) as [->|]; [apply Z.bits_0|].
  apply Z.bits_above_log2; [by apply Hw|].
  apply Z.lt_le_trans with 32; [|done]. apply Z.log2_lt_pow2; destruct Hw; lia.
Qed.

Lemma shiftl1_bit sig j : 0 <= sig -> 0 <= j -> Z.testbit (Z.shiftl 1 sig) j = (j =? sig).
Proof. intros. rewrite Z.shiftl_1_l, Z.pow2_bits_eqb by lia. apply Z.eqb_sym. Qed.

Lemma pending_test m sig : 0 <= sig ->
  (Z.land m (Z.shiftl 1 sig) =? 0) = negb (Z.testbit m sig).
Proof. intros Hs. by rewrite Z.shiftl_1_l, <- test_pow2, negb_involutive by lia. Qed.

(** Clearing the bit of [sig] after those below it. *)
Lemma clear_consume sig p : sig_wf p -> 1 <= sig < 32 ->
  Z.land (sig_pending (consume (sig - 1) p)) (u32 (Z.lnot (Z.shiftl 1 sig)))
  = sig_pending (consume sig p).
Proof.
  intros Hw Hs. apply Z.bits_inj'. intros j Hj. rewrite Z.land_spec, !consume_bit by lia.
  destruct (decide (j < 32)) as [Hlt|].
  - unfold u32. change 4294967296 with (2 ^ 32).
    rewrite Z.mod_pow2_bits_low, Z.lnot_spec, shiftl1_bit by lia.
    destruct (Z.testbit (sig_pending p) j); [|done]. simpl.
    apply eq_true_iff_eq. rewrite andb_true_iff, !negb_true_iff, !andb_false_iff. lia.
  - by rewrite pending_high by (done || lia).
Qed.

Lemma skip_consume sig p : 1 <= sig -> Z.testbit (sig_pending p) sig = false ->
  consume (sig - 1) p = consume sig p.
Proof.
  intros Hs Hb. unfold consume. destruct p. cbn in *. f_equal.
  apply Z.bits_inj'. intros j Hj. rewrite !Z.ldiff_spec, !consumed_bits by lia.
  destruct (decide (j = sig)) as [->|]; [by rewrite Hb|]. do 2 f_equal.
  apply eq_true_iff_eq. rewrite !andb_true_iff. lia.
Qed.

Lemma consume_clear s i sig : (i < length (procs s))%nat -> sig_wf (proc_at s i) -> 1 <= sig < 32 ->
  clear_pending i sig (set_proc i (consume (sig - 1)) s) = set_proc i (consume sig) s.
Proof.
  intros Hi Hw Hs. unfold clear_pending. rewrite set_proc_twice. apply set_proc_ext; [done|].
  pose proof (clear_consume sig _ Hw Hs) as E. unfold consume in *. destruct (proc_at s i).
  cbn in *. by rewrite E.
Qed.

(** ** The scan *)

Definition scan_result (i : nat) (s : sched) (f : frame) (sig : nat) (r : option nat) : sched * frame :=
  match r with
  | None => (set_proc i (consume 31) s, f)
  | Some k => act i (Z.of_nat (sig + k)) (set_proc i (consume (Z.of_nat (sig + k))) s) f
  end.

Lemma scan_result_S i s f sig r : scan_result i s f sig (S <$> r) = scan_result i s f (S sig) r.
Proof. destruct r as [k|]; [|done]. simpl. by rewrite Nat.add_succ_r. Qed.

Lemma signal_scan_spec n sig i s f :
  (i < length (procs s))%nat -> sig_wf (proc_at s i) -> Z.of_nat (n + sig) = 32 -> (1 <= sig)%nat ->
  signal_scan n (Z.of_nat sig) i (set_proc i (consume (Z.of_nat sig - 1)) s) f
  = scan_result i s f sig (find_index (active (proc_at s i)) (Z.of_nat <$> seq sig n)).
Proof.
  intros Hi Hw. revert sig; induction n as [|n IH]; intros sig Hn Hs.
  { simpl. by replace (Z.of_nat sig - 1) with 31 by lia. }
  change (Z.of_nat <$> seq sig (S n)) with (Z.of_nat sig :: (Z.of_nat <$> seq (S sig) n)).
  cbn [find_index signal_scan].
  rewrite pending_test, proc_at_set_proc, consume_bit by (done || lia).
  replace (_ && (Z.of_nat sig <=? Z.of_nat sig - 1)) with false
    by (symmetry; apply andb_false_iff; lia). simpl negb. rewrite andb_true_r.
  specialize (IH (S sig) ltac:(lia) ltac:(lia)). rewrite Nat2Z.inj_succ in IH.
  replace (Z.succ (Z.of_nat sig) - 1) with (Z.of_nat sig) in IH by lia.
  replace (Z.of_nat sig + 1) with (Z.succ (Z.of_nat sig)) by lia.
  unfold active at 1. destruct (Z.testbit (sig_pending (proc_at s i)) (Z.of_nat sig)) eqn:E; cbn [negb andb].
  2:{ rewrite scan_result_S, <- IH. f_equal. apply set_proc_ext; [done|].
      apply skip_consume; [lia|done]. }
  rewrite consume_clear by (done || lia). rewrite proc_at_set_proc by done.
  change (sig_handlers (consume (Z.of_nat sig) (proc_at s i))) with (sig_handlers (proc_at s i)).
  destruct (_ =? SIG_IGN) eqn:E1; cbn [negb andb]; [by rewrite scan_result_S, IH|].
  destruct (_ =? SIG_DFL) eqn:E2; cbn [negb andb];
    [destruct (_ =? SIGCHLD); cbn [negb andb]; [by rewrite scan_result_S, IH|]|];
    unfold scan_result, act; rewrite Nat.add_0_r, proc_at_set_proc by done;
    change (sig_handlers (consume (Z.of_nat sig) (proc_at s i))) with (sig_handlers (proc_at s i));
    rewrite E2; reflexivity.
Qed.

Lemma signal_check_eq s i f :
  (i < length (procs s))%nat -> sig_wf (proc_at s i) ->
  is_user (proc_at s i) = true -> in_signal_handler (proc_at s i) = false ->
  signal_check (Some i) s f = signal_spec i s f.
Proof.
  intros Hi Hw Hu Hh. unfold signal_check, signal_spec, next_signal. rewrite Hu, Hh. cbn [negb orb].
  assert (set_proc i (consume 0) s = s) as E0.
  { apply set_proc_id; [done|]. unfold consume. destruct (proc_at s i). cbn.
    by rewrite Z.ldiff_0_r. }
  pose proof (signal_scan_spec 31 1 i s f Hi Hw eq_refl ltac:(lia)) as Hscan.
  change (Z.of_nat 1 - 1) with 0 in Hscan. rewrite E0 in Hscan.
  destruct (sig_pending (proc_at s i) =? 0) eqn:E.
  - clear Hscan. b2p. destruct (find_index _ signals) as [k|] eqn:Ef; cbn [fmap option_fmap option_map].
    + apply find_index_Some in Ef as (x & Hx & Ha & _). unfold active in Ha.
      by rewrite E, Z.bits_0 in Ha.
    + f_equal. symmetry. apply set_proc_id; [done|]. unfold consume. destruct (proc_at s i).
      cbn in *. by rewrite E.
  - change (Z.of_nat 1) with 1 in Hscan. rewrite Hscan. unfold signals.
    destruct (find_index _ _) as [k|]; [|reflexivity].
    cbn [scan_result fmap option_fmap option_map]. rewrite (Nat.add_comm k). reflexivity.
Qed.

(** C32: [signal_check] on a user process outside a handler does what its
    specification says: the lowest pending signal whose disposition is not to
    ignore it is acted on (default action or delivery), the signals up to it are
    consumed, and with none such all are consumed and the frame is untouched. *)
Theorem signal_check_correct s i f :
  (i < length (procs s))%nat -> sig_wf (proc_at s i) ->
  is_user (proc_at s i) = true -> in_signal_handler (proc_at s i) = false ->
  signal_check (Some i) s f = signal_spec i s f.
Proof. apply signal_check_eq. Qed.

(** Delivery followed by sigreturn restores exactly the seven saved
    registers: whatever frame [g] the handler enters sigreturn with, the
    process continues with RIP, RSP, RFLAGS, RAX, RDI, RSI and RDX from before
    the signal and every other register as the handler left it. *)
Theorem signal_deliver_sigreturn s i f g sig h :
  (i < length (procs s))%nat -> sig_wf (proc_at s i) ->
  is_user (proc_at s i) = true -> in_signal_handler (proc_at s i) = false ->
  next_signal (proc_at s i) = Some sig -> zget (sig_handlers (proc_at s i)) sig = h -> h <> SIG_DFL ->
  let '(s1, f1) := signal_check (Some i) s f in
  let '(s2, f2) := sys_sigreturn i s1 g in
  f_rip f1 = h /\ f_rdi f1 = sig /\ in_signal_handler (proc_at s1 i) = true /\
  f2 = g <| f_rip := f_rip f |> <| f_rsp := f_rsp f |> <| f_rflags := f_rflags f |>
         <| f_rax := f_rax f |> <| f_rdi := f_rdi f |> <| f_rsi := f_rsi f |>
         <| f_rdx := f_rdx f |> /\
  in_signal_handler (proc_at s2 i) = false.
Proof.
  intros Hi Hw Hu Hh Hn Hg Hd. rewrite signal_check_eq by done.
  unfold signal_spec. rewrite Hn. unfold act. rewrite proc_at_set_proc by done.
  change (sig_handlers (consume sig (proc_at s i))) with (sig_handlers (proc_at s i)).
  rewrite Hg. apply Z.eqb_neq in Hd. rewrite Hd. unfold sys_sigreturn.
  rewrite proc_at_set_proc by (by autorewrite with ktab).
  change (in_signal_handler (save_context f ?p)) with true. cbn [negb].
  split_and!; try done; rewrite proc_at_set_proc by (by autorewrite with ktab); done.
Qed.

(** ** Termination *)

Lemma find_first_signal p sig :
  1 <= sig < 32 -> active p sig = true -> (forall k, 1 <= k < sig -> active p k = false) ->
  next_signal p = Some sig.
Proof.
  intros Hs Ha Hlow. unfold next_signal.
  assert (forall k, (k < 31)%nat -> signals !! k = Some (Z.of_nat (S k))) as Hl.
  { intros k Hk. unfold signals. by rewrite list_lookup_fmap, lookup_seq_lt. }
  rewrite (find_index_unique _ _ (Z.to_nat (sig - 1)) sig).
  - simpl. f_equal. lia.
  - rewrite Hl by lia. f_equal. lia.
  - done.
  - intros j y Hj Hy. rewrite Hl in Hy by lia. injection Hy as <-. apply Hlow. lia.
Qed.

Lemma schedule_zombie s l i c :
  queue s l -> i ∉ l -> (i < length (procs s))%nat ->
  state (proc_at s i) = PROCESS_ZOMBIE -> exit_code (proc_at s i) = c ->
  state (proc_at (schedule s) i) = PROCESS_ZOMBIE /\ exit_code (proc_at (schedule s) i) = c.
Proof.
  intros Hq Hi Hlt Hst Hc. split.
  - by rewrite (schedule_state_idle s l) by (done || by rewrite Hst).
  - unfold proc_at. rewrite (sched_only_at _ _ i (sched_only_schedule s)) by done. done.
Qed.

(** Waking the parent of the zombie [i]. *)
Lemma wake_waiting_parent_queue i s l :
  sched_inv s l -> i ∉ l -> (i < length (procs s))%nat -> state (proc_at s i) = PROCESS_ZOMBIE ->
  exists l', queue (wake_waiting_parent i s) l' /\ (i ∉ l') /\
    length (procs (wake_waiting_parent i s)) = length (procs s) /\
    state (proc_at (wake_waiting_parent i s) i) = PROCESS_ZOMBIE /\
    exit_code (proc_at (wake_waiting_parent i s) i) = exit_code (proc_at s i).
Proof.
  intros Hinv Hi Hlt Hst. unfold wake_waiting_parent.
  destruct (process_get_by_pid _ _) as [q|] eqn:Eq; [|exists l; split_and!; first [done|apply Hinv]].
  destruct (_ && _) eqn:Eb; [|exists l; split_and!; first [done|apply Hinv]].
  apply andb_true_iff in Eb as [Eb _]. apply bool_decide_eq_true in Eb.
  assert (q <> i) by (intros ->; by rewrite Hst in Eb).
  assert (q < length (procs s))%nat as Hq
    by (by apply process_get_by_pid_Some in Eq as (? & ?%lookup_lt_Some & _)).
  assert (q ∉ l) by (eapply inv_not_queued; [done|done|by rewrite Eb]).
  exists (l ++ [q]). split_and!.
  - by apply wake_queue; [apply Hinv|..].
  - set_solver.
  - apply sched_only_wake.
  - by rewrite wake_state, decide_False.
  - unfold proc_at. by rewrite (sched_only_at _ _ i (sched_only_wake q s)).
Qed.

(** Termination of the running process [i] by a default action. *)
Lemma default_action_zombie s l i sig :
  sched_inv s l -> current_process s = Some i ->
  state (proc_at (default_action i sig s) i) = PROCESS_ZOMBIE /\
  exit_code (proc_at (default_action i sig s) i) = 128 + sig.
Proof.
  intros Hinv Hcur. destruct (inv_current _ _ Hinv i Hcur) as [Hil Hlt].
  pose proof (proc_at_set_proc s i
    (fun p => p <| state := PROCESS_ZOMBIE |> <| exit_code := 128 + sig |>) Hlt) as E.
  assert (sched_inv (to_zombie i sig s) l) as Hz by (by apply inv_set_proc).
  assert (i < length (procs (to_zombie i sig s)))%nat as Hlt'
    by (simpl; by rewrite length_upd_proc).
  fold (to_zombie i sig s) in E. unfold default_action. destruct (terminating sig).
  - destruct (wake_waiting_parent_queue i _ l Hz Hil Hlt') as (l' & Hq & Hi & Hlen & Hst & Hc);
      [by rewrite E|].
    apply (schedule_zombie _ l'); [done|done|by rewrite Hlen|done|by rewrite Hc, E].
  - apply (schedule_zombie _ l); [apply Hz|done|done|by rewrite E|by rewrite E].
Qed.

Lemma signal_check_default s l i f sig :
  sched_inv s l -> current_process s = Some i -> sig_wf (proc_at s i) ->
  is_user (proc_at s i) = true -> in_signal_handler (proc_at s i) = false ->
  next_signal (proc_at s i) = Some sig -> zget (sig_handlers (proc_at s i)) sig = SIG_DFL ->
  signal_check (Some i) s f = (default_action i sig (set_proc i (consume sig) s), f) /\
  sched_inv (set_proc i (consume sig) s) l.
Proof.
  intros Hinv Hcur Hw Hu Hh Hn Hd. destruct (inv_current _ _ Hinv i Hcur) as [Hil Hlt]. split.
  - rewrite signal_check_eq by done. unfold signal_spec. rewrite Hn. unfold act.
    rewrite proc_at_set_proc by done.
    change (sig_handlers (consume sig (proc_at s i))) with (sig_handlers (proc_at s i)).
    by rewrite Hd.
  - by apply inv_set_proc.
Qed.

(** A pending SIGKILL with the default disposition ends the running process:
    unless a lower-numbered signal is still to be acted on, [signal_check] makes
    it a zombie with exit code 137 and leaves its registers alone. *)
Theorem sigkill_terminates s l i f :
  sched_inv s l -> current_process s = Some i -> sig_wf (proc_at s i) ->
  is_user (proc_at s i) = true -> in_signal_handler (proc_at s i) = false ->
  Z.testbit (sig_pending (proc_at s i)) SIGKILL = true ->
  zget (sig_handlers (proc_at s i)) SIGKILL = SIG_DFL ->
  (forall k, 1 <= k < SIGKILL -> active (proc_at s i) k = false) ->
  let '(s', f') := signal_check (Some i) s f in
  state (proc_at s' i) = PROCESS_ZOMBIE /\ exit_code (proc_at s' i) = 137 /\ f' = f.
Proof.
  intros Hinv Hcur Hw Hu Hh Hb Hd Hlow.
  assert (next_signal (proc_at s i) = Some SIGKILL) as Hn.
  { apply find_first_signal; [done| |done]. unfold active. by rewrite Hb, Hd. }
  destruct (signal_check_default s l i f SIGKILL) as [-> Hinv']; try done.
  destruct (default_action_zombie _ l i SIGKILL Hinv' Hcur) as [A B]. by rewrite B.
Qed.

(** A signal whose default action is not one of the five listed ones (for
    instance SIGSEGV) ends the process without waking its parent: a parent
    blocked waiting for exactly this child is still blocked afterwards. *)
Theorem other_signal_parent_stays_blocked s l i f sig q :
  sched_inv s l -> current_process s = Some i -> sig_wf (proc_at s i) ->
  is_user (proc_at s i) = true -> in_signal_handler (proc_at s i) = false ->
  next_signal (proc_at s i) = Some sig -> zget (sig_handlers (proc_at s i)) sig = SIG_DFL ->
  terminating sig = false ->
  process_get_by_pid (procs s) (ppid (proc_at s i)) = Some q -> q <> i ->
  state (proc_at s q) = PROCESS_BLOCKED -> wait_for_pid (proc_at s q) = pid (proc_at s i) ->
  let '(s', _) := signal_check (Some i) s f in
  state (proc_at s' i) = PROCESS_ZOMBIE /\ state (proc_at s' q) = PROCESS_BLOCKED.
Proof.
  intros Hinv Hcur Hw Hu Hh Hn Hd Ht Hq Hqi Hb _.
  destruct (signal_check_default s l i f sig) as [-> Hinv']; try done.
  split; [by apply (default_action_zombie _ l i sig Hinv' Hcur)|].
  unfold default_action. rewrite Ht. destruct (inv_current _ _ Hinv i Hcur) as [Hil Hlt].
  set (z := to_zombie i sig _).
  assert (sched_inv z l) as Hz by (by apply inv_set_proc).
  assert (proc_at z q = proc_at s q) as Eq.
  { unfold proc_at, z. simpl. unfold upd_proc. by rewrite !list_lookup_total_alter_ne. }
  assert (q < length (procs z))%nat as Hlt'.
  { simpl. rewrite !length_upd_proc. by apply process_get_by_pid_Some in Hq as (? & ?%lookup_lt_Some & _). }
  rewrite (schedule_state_idle z l); rewrite ?Eq, ?Hb; try done; [apply Hz|].
  eapply inv_not_queued; [done|done|by rewrite Eq, Hb].
Qed.

(** SIGKILL cannot be caught or ignored: sigaction never changes its slot. *)
Theorem sigaction_keeps_sigkill s c a h f :
  zget (sig_handlers (proc_at (sys_sigaction c a h s f).1 c)) SIGKILL
  = zget (sig_handlers (proc_at s c)) SIGKILL.
Proof.
  unfold sys_sigaction. destruct (_ || _) eqn:E; [done|]. cbn [fst]. b2p.
  destruct (decide (c < length (procs s))%nat) as [Hc|Hc].
  - rewrite proc_at_set_proc by done. simpl. rewrite zget_zset_ne by (unfold SIGKILL; lia). done.
  - unfold proc_at. rewrite !list_lookup_total_alt, !lookup_ge_None_2; [done|lia|].
    simpl. rewrite length_upd_proc. lia.
Qed.

(** ** Concrete runs: process 1 runs, its parent 0 waits for it, 2 is ready *)

Definition demo_sig (pending : Z) : sched :=
  mk_sched
    [process_zero <| pid := 1 |> <| state := PROCESS_BLOCKED |> <| wait_for_pid := 2 |>;
     process_zero <| pid := 2 |> <| ppid := 1 |> <| state := PROCESS_RUNNING |>
       <| is_user := true |> <| sig_pending := pending |>
       <| sig_handlers := <[10%nat := 0x400500]> (replicate 32 0) |>;
     process_zero <| pid := 3 |> <| state := PROCESS_READY |>]
    (Some 1%nat) (Some 2%nat) (Some 2%nat) 0 true 4096 4096 0.

Definition demo_frame : frame := mk_frame 1 2 3 4 5 6 7 8 9 10 11 12 13 14 15 128 0 0x400000 27 514 0x7FFF00 35.

Lemma demo_sig_inv m : sched_inv (demo_sig m) [2%nat].
Proof.
  constructor.
  - split_and!; [|done|apply NoDup_singleton]. simpl. eauto.
  - intros i p ->%list_elem_of_singleton [= <-]. done.
  - intros c [= <-]. split; [set_solver|simpl; lia].
Qed.

Lemma signal_check_correct_witness :
  signal_check (Some 1%nat) (demo_sig (2 ^ 17 + 2 ^ 10)) demo_frame
  = signal_spec 1 (demo_sig (2 ^ 17 + 2 ^ 10)) demo_frame.
Proof. apply (signal_check_correct _ 1%nat); [simpl; lia|by split|reflexivity|reflexivity]. Defined.

Lemma signal_deliver_sigreturn_witness :
  f_rip (signal_check (Some 1%nat) (demo_sig (2 ^ 17 + 2 ^ 10)) demo_frame).2 = 0x400500.
Proof.
  pose proof (signal_deliver_sigreturn (demo_sig (2 ^ 17 + 2 ^ 10)) 1 demo_frame
    (demo_frame <| f_rcx := 99 |>) 10 0x400500 ltac:(simpl; lia) ltac:(by split)
    eq_refl eq_refl eq_refl eq_refl ltac:(done)) as H.
  destruct (signal_check _ _ _) as [s1 f1]. destruct (sys_sigreturn _ _ _) as [s2 f2]. apply H.
Defined.

Lemma sigkill_terminates_witness :
  exit_code (proc_at (signal_check (Some 1%nat) (demo_sig (2 ^ 9)) demo_frame).1 1) = 137.
Proof.
  pose proof (sigkill_terminates (demo_sig (2 ^ 9)) [2%nat] 1 demo_frame (demo_sig_inv _)
    eq_refl ltac:(by split) eq_refl eq_refl eq_refl eq_refl) as H.
  destruct (signal_check _ _ _) as [s' f']. apply H. unfold SIGKILL. intros k Hk.
  assert (k = 1 \/ k = 2 \/ k = 3 \/ k = 4 \/ k = 5 \/ k = 6 \/ k = 7 \/ k = 8) as Hc by lia.
  repeat destruct Hc as [->|Hc]; try reflexivity. by subst.
Defined.

Lemma other_signal_parent_stays_blocked_witness :
  state (proc_at (signal_check (Some 1%nat) (demo_sig (2 ^ SIGSEGV)) demo_frame).1 0)
  = PROCESS_BLOCKED.
Proof.
  pose proof (other_signal_parent_stays_blocked (demo_sig (2 ^ SIGSEGV)) [2%nat] 1 demo_frame
    SIGSEGV 0 (demo_sig_inv _) eq_refl ltac:(by split) eq_refl eq_refl eq_refl eq_refl eq_refl
    eq_refl ltac:(done) eq_refl eq_refl) as H.
  destruct (signal_check _ _ _) as [s' f']. apply H.
Defined.

End Signal.
