(* ===== verification/Ring.v ===== *)
(** * Ring buffers

    The byte ring used by pipes, TCP receive buffers and the keyboard: a fixed
    array, a read and a write position.  [contents] is the queue it stands for;
    the interface [ByteQueue] states what the users of a ring rely on, and the
    stream theorem is proved once against it. *)

From stdpp Require Import prelude.
From Stdlib Require Import ZArith Lia.
From S2P Require Import Prelude.
Local Open Scope Z_scope.

Module Ring.

(** ** The loops of the C code

    [for (i...) { buffer[wp] = buf[i]; wp = (wp + 1) % N; }] and
    [for (i...) { buf[i] = buffer[rp]; rp = (rp + 1) % N; }]. *)

Fixpoint ring_put (N : Z) (data : list Z) (b : list Z) (wp : Z) : list Z * Z :=
  match data with
  | [] => (b, wp)
  | x :: d => ring_put N d (zset b wp x) ((wp + 1) mod N)
  end.

Fixpoint ring_get (N : Z) (n : nat) (b : list Z) (rp : Z) : list Z * Z :=
  match n with
  | O => ([], rp)
  | S n' =>
      let '(d, rp') := ring_get N n' b ((rp + 1) mod N) in
      (zget b rp :: d, rp')
  end.

(** ** The queue a ring stands for *)

Definition contents (N : Z) (b : list Z) (rp : Z) (n : nat) : list Z :=
  (fun i : nat => zget b ((rp + Z.of_nat i) mod N)) <$> seq 0 n.

Arguments contents : simpl never.

Record ring_wf (N : Z) (b : list Z) (rp wp n : Z) : Prop := mk_ring_wf {
  ring_len : Z.of_nat (length b) = N;
  ring_rp : 0 <= rp < N;
  ring_n : 0 <= n <= N;
  ring_wp : wp = (rp + n) mod N
}.

(** What a bounded byte queue promises to its users. *)
Class ByteQueue (Q : Type) := {
  bq_inv : Q -> Prop;
  bq_contents : Q -> list Z;
  bq_cap : nat;
  bq_push : list Z -> Q -> Q;
  bq_pop : nat -> Q -> list Z * Q;
  bq_push_law q d :
    bq_inv q -> (length (bq_contents q) + length d <= bq_cap)%nat ->
    bq_inv (bq_push d q) /\ bq_contents (bq_push d q) = bq_contents q ++ d;
  bq_pop_law q n :
    bq_inv q -> (n <= length (bq_contents q))%nat ->
    bq_inv (bq_pop n q).2 /\ (bq_pop n q).1 = take n (bq_contents q) /\
    bq_contents (bq_pop n q).2 = drop n (bq_contents q)
}.

(** Uses of a queue by its two ends. *)
Inductive bq_op := Push (d : list Z) | Pop (n : nat).

(** Run a sequence of operations that respect the capacity; the result is the
    queue, the bytes pushed and the bytes popped, in order. *)
Inductive bq_run {Q} `{ByteQueue Q} : Q -> Q -> list Z -> list Z -> Prop :=
| run_nil q : bq_run q q [] []
| run_push q q1 d i o :
    bq_run q q1 i o -> (length (bq_contents q1) + length d <= bq_cap)%nat ->
    bq_run q (bq_push d q1) (i ++ d) o
| run_pop q q1 n i o :
    bq_run q q1 i o -> (n <= length (bq_contents q1))%nat ->
    bq_run q (bq_pop n q1).2 i (o ++ (bq_pop n q1).1).

(** ** Ring lemmas *)

Lemma contents_ext N b b' rp rp' n :
  (forall i, (i < n)%nat -> zget b ((rp + Z.of_nat i) mod N) = zget b' ((rp' + Z.of_nat i) mod N)) ->
  contents N b rp n = contents N b' rp' n.
Proof.
  intros H. unfold contents. apply list_fmap_ext. intros k i Hi.
  apply lookup_seq in Hi as [-> Hk]. by apply H.
Qed.

Lemma length_contents N b rp n : length (contents N b rp n) = n.
Proof. unfold contents. by rewrite length_fmap, length_seq. Qed.

Lemma contents_S N b rp n : 0 < N -> 0 <= rp < N ->
  contents N b rp (S n) = zget b rp :: contents N b ((rp + 1) mod N) n.
Proof.
  intros HN Hr. unfold contents. simpl. f_equal; [by rewrite Z.add_0_r, Z.mod_small|].
  rewrite <- fmap_S_seq, <- list_fmap_compose. apply list_fmap_ext. intros k i _. simpl.
  rewrite Zplus_mod_idemp_l. do 2 f_equal. lia.
Qed.

Lemma contents_snoc N b rp n :
  contents N b rp (S n) = contents N b rp n ++ [zget b ((rp + Z.of_nat n) mod N)].
Proof. unfold contents. by rewrite seq_S, fmap_app. Qed.

(** A write at the end of the queue does not touch the queue. *)
Lemma contents_zset N b rp n x :
  0 < N -> 0 <= rp < N -> Z.of_nat n < N -> Z.of_nat (length b) = N ->
  contents N (zset b ((rp + Z.of_nat n) mod N) x) rp (S n) = contents N b rp n ++ [x].
Proof.
  intros HN Hr Hn Hl. rewrite contents_snoc. f_equal.
  - apply contents_ext. intros i Hi. apply zget_zset_ne; [apply Z.mod_pos_bound; lia..|].
    intros E. assert ((rp + Z.of_nat n) mod N = (rp + Z.of_nat i) mod N) by lia.
    assert ((Z.of_nat n - Z.of_nat i) mod N = 0) as Hz.
    { replace (Z.of_nat n - Z.of_nat i) with ((rp + Z.of_nat n) - (rp + Z.of_nat i)) by lia.
      rewrite Zminus_mod, H, Z.sub_diag. by apply Z.mod_0_l; lia. }
    rewrite Z.mod_small in Hz by lia. lia.
  - f_equal. apply zget_zset_eq. pose proof (Z.mod_pos_bound (rp + Z.of_nat n) N). lia.
Qed.

Lemma ring_put_spec N data b rp n wp :
  ring_wf N b rp wp (Z.of_nat n) -> Z.of_nat n + Z.of_nat (length data) <= N ->
  let '(b', wp') := ring_put N data b wp in
  ring_wf N b' rp wp' (Z.of_nat (n + length data)) /\
  contents N b' rp (n + length data) = contents N b rp n ++ data.
Proof.
  revert b n wp; induction data as [|x d IH]; intros b n wp Hw Hc; simpl.
  { by rewrite Nat.add_0_r, app_nil_r. }
  destruct Hw as [Hl Hr Hn ->]. simpl in Hc.
  specialize (IH (zset b ((rp + Z.of_nat n) mod N) x) (S n) (((rp + Z.of_nat n) mod N + 1) mod N)).
  destruct (ring_put _ _ _ _) as [b' wp']. rewrite <- Nat.add_succ_comm. destruct IH as [IH1 IH2].
  - constructor; [by rewrite length_zset|done|lia|].
    rewrite Zplus_mod_idemp_l. f_equal. lia.
  - lia.
  - split; [done|]. rewrite IH2, contents_zset by lia. by rewrite <- app_assoc.
Qed.

Lemma ring_get_spec N n m b rp wp :
  ring_wf N b rp wp (Z.of_nat (n + m)) ->
  let '(d, rp') := ring_get N n b rp in
  ring_wf N b rp' wp (Z.of_nat m) /\
  d = take n (contents N b rp (n + m)) /\
  contents N b rp' m = drop n (contents N b rp (n + m)).
Proof.
  revert rp; induction n as [|n IH]; intros rp Hw; cbn [ring_get].
  { by rewrite drop_0, take_0. }
  destruct Hw as [Hl Hr Hn ->]. specialize (IH ((rp + 1) mod N)).
  destruct (ring_get _ _ _ _) as [d rp'].
  change (S n + m)%nat with (S (n + m)). rewrite contents_S by lia. simpl.
  destruct IH as (IH1 & IH2 & IH3).
  - constructor; [done|apply Z.mod_pos_bound; lia|lia|].
    rewrite Zplus_mod_idemp_l. f_equal. lia.
  - split_and!; [done|by f_equal|done].
Qed.

(** ** Streams *)

(** Every run keeps the invariant, and what was in the queue followed by what
    was pushed is what was popped followed by what is in the queue. *)
Lemma bq_run_stream {Q} `{ByteQueue Q} q q' i o :
  bq_inv q -> bq_run q q' i o ->
  bq_inv q' /\ bq_contents q ++ i = o ++ bq_contents q'.
Proof.
  intros Hq Hr. induction Hr as [q|q q1 d i o Hr IH Hc|q q1 n i o Hr IH Hc].
  - by rewrite app_nil_r.
  - destruct (IH Hq) as [Hi E]. destruct (bq_push_law q1 d Hi Hc) as [Hi' E'].
    split; [done|]. by rewrite E', !app_assoc, <- E.
  - destruct (IH Hq) as [Hi E]. destruct (bq_pop_law q1 n Hi Hc) as (Hi' & E1 & E2).
    split; [done|]. by rewrite E1, E2, <- app_assoc, take_drop.
Qed.

End Ring.
