(* ===== verification/Pipe.v ===== *)
(** * Pipes (kernel/fs/pipe.c)

    A pipe with its blocked reader and writer, over the scheduler.  A call that
    blocks returns no value: the process is off the CPU and enters the same
    call again when it is woken, as the [while] loops of the C code do.  The
    stream theorem covers every interleaving of reads, writes, blocked calls,
    closes and scheduler activity. *)

From stdpp Require Import prelude.
From Stdlib Require Import ZArith Lia.
From S2P Require Import Prelude Process Sched Signal Ring.
Import Process Sched Signal Ring.
Local Open Scope Z_scope.

Module Pipe.

Definition PIPE_BUF_SIZE : Z := 4096.

Record pipe := mk_pipe {
  buffer : list Z;
  read_pos : Z;
  write_pos : Z;
  count : Z;
  readers : Z;
  writers : Z;
  blocked_reader : option nat;
  blocked_writer : option nat
}.

#[export] Instance eta_pipe : Eta pipe := fun p =>
  mk_pipe (buffer p) (read_pos p) (write_pos p) (count p) (readers p) (writers p)
    (blocked_reader p) (blocked_writer p).

(** The pipe [pipe_create] builds in the block [kmalloc] returned ([0]: NULL). *)
Definition pipe_create (block : Z) : Z * option pipe :=
  if block =? 0 then (-1, None)
  else (0, Some (mk_pipe (replicate 4096 0) 0 0 0 1 1 None None)).

(** [if (w) { w->state = READY; scheduler_add(w); w = NULL; }]: the scheduler
    part; the caller clears the pointer. *)
Definition wake_opt (w : option nat) (s : sched) : sched :=
  match w with Some r => wake r s | None => s end.

(** The copy loops. *)
Definition pipe_pop (n : nat) (p : pipe) : list Z * pipe :=
  let '(d, rp) := ring_get PIPE_BUF_SIZE n (buffer p) (read_pos p) in
  (d, p <| read_pos := rp |> <| count ::= fun c => u32 (c - Z.of_nat n) |>).

Definition pipe_push (d : list Z) (p : pipe) : pipe :=
  let '(b, wp) := ring_put PIPE_BUF_SIZE d (buffer p) (write_pos p) in
  p <| buffer := b |> <| write_pos := wp |> <| count ::= fun c => u32 (c + Z.of_nat (length d)) |>.

(** One turn of a call: [Some (result, data)] when it returns, [None] when the
    caller went to sleep. *)
Definition pipe_read (p : pipe) (cnt : Z) (s : sched) : pipe * sched * option (Z * list Z) :=
  if count p =? 0 then
    if writers p =? 0 then (p, s, Some (0, []))
    else (p <| blocked_reader := current_process s |>, block_current s, None)
  else
    let to_read := if cnt <? count p then cnt else count p in
    let '(d, p) := pipe_pop (Z.to_nat to_read) p in
    (p <| blocked_writer := None |>, wake_opt (blocked_writer p) s, Some (to_read, d)).

Definition pipe_write (p : pipe) (buf : list Z) (cnt : Z) (s : sched) : pipe * sched * option Z :=
  if readers p =? 0 then (p, s, Some (-1))
  else if count p =? PIPE_BUF_SIZE then
    (p <| blocked_writer := current_process s |>, block_current s, None)
  else
    let space := u32 (PIPE_BUF_SIZE - count p) in
    let to_write := if cnt <? space then cnt else space in
    let p := pipe_push (take (Z.to_nat to_write) buf) p in
    (p <| blocked_reader := None |>, wake_opt (blocked_reader p) s, Some to_write).

Definition pipe_close_read (p : pipe) (s : sched) : pipe * sched :=
  let p := if 0 <? readers p then p <| readers ::= fun r => r - 1 |> else p in
  if (readers p =? 0) && bool_decide (blocked_writer p <> None)
  then (p <| blocked_writer := None |>, wake_opt (blocked_writer p) s)
  else (p, s).

Definition pipe_close_write (p : pipe) (s : sched) : pipe * sched :=
  let p := if 0 <? writers p then p <| writers ::= fun r => r - 1 |> else p in
  if (writers p =? 0) && bool_decide (blocked_reader p <> None)
  then (p <| blocked_reader := None |>, wake_opt (blocked_reader p) s)
  else (p, s).

Definition pipe_inc_ref (p : pipe) (type : Z) : pipe :=
  if type =? FD_PIPE_READ then p <| readers ::= fun r => u32 (r + 1) |>
  else if type =? FD_PIPE_WRITE then p <| writers ::= fun r => u32 (r + 1) |>
  else p.

(** ** The queue of bytes in a pipe *)

Definition pipe_wf (p : pipe) : Prop :=
  ring_wf PIPE_BUF_SIZE (buffer p) (read_pos p) (write_pos p) (count p).

Definition pipe_contents (p : pipe) : list Z :=
  contents PIPE_BUF_SIZE (buffer p) (read_pos p) (Z.to_nat (count p)).

(** Everything that can happen to a pipe: calls that return, calls that block,
    closes, new references, and any change of the scheduler by others.  The
    lists are the bytes accepted by writes and those returned by reads. *)
Inductive pipe_run : pipe -> pipe -> list Z -> list Z -> Prop :=
| pr_nil p : pipe_run p p [] []
| pr_write p p1 p2 i o buf cnt s s' r :
    pipe_run p p1 i o -> 0 <= cnt <= Z.of_nat (length buf) ->
    pipe_write p1 buf cnt s = (p2, s', r) ->
    pipe_run p p2 (i ++ match r with Some z => take (Z.to_nat z) buf | None => [] end) o
| pr_read p p1 p2 i o cnt s s' r :
    pipe_run p p1 i o -> 0 <= cnt ->
    pipe_read p1 cnt s = (p2, s', r) ->
    pipe_run p p2 i (o ++ match r with Some (_, d) => d | None => [] end)
| pr_close_read p p1 i o s :
    pipe_run p p1 i o -> pipe_run p (pipe_close_read p1 s).1 i o
| pr_close_write p p1 i o s :
    pipe_run p p1 i o -> pipe_run p (pipe_close_write p1 s).1 i o
| pr_ref p p1 i o type :
    pipe_run p p1 i o -> pipe_run p (pipe_inc_ref p1 type) i o.

(** ** The copy loops implement the queue *)

Lemma length_pipe_contents p : pipe_wf p -> Z.of_nat (length (pipe_contents p)) = count p.
Proof. intros [_ _ Hn _]. unfold pipe_contents. rewrite length_contents. lia. Qed.

Lemma pipe_push_queue p d :
  pipe_wf p -> (length (pipe_contents p) + length d <= 4096)%nat ->
  pipe_wf (pipe_push d p) /\ pipe_contents (pipe_push d p) = pipe_contents p ++ d.
Proof.
  intros Hw Hc. pose proof (length_pipe_contents p Hw) as Hl. pose proof (ring_n _ _ _ _ _ Hw) as Hn.
  pose proof (ring_put_spec PIPE_BUF_SIZE d (buffer p) (read_pos p) (Z.to_nat (count p)) (write_pos p)) as H.
  rewrite Z2Nat.id in H by lia. unfold PIPE_BUF_SIZE in *. specialize (H Hw ltac:(lia)).
  unfold pipe_push, PIPE_BUF_SIZE. destruct (ring_put _ _ _ _) as [b wp]. destruct H as [H1 H2].
  unfold pipe_wf, pipe_contents, PIPE_BUF_SIZE. cbn.
  rewrite u32_small by lia. replace (Z.to_nat (count p + _)) with (Z.to_nat (count p) + length d)%nat by lia.
  rewrite Nat2Z.inj_add, Z2Nat.id in H1 by lia. done.
Qed.

Lemma pipe_pop_queue p n :
  pipe_wf p -> (n <= length (pipe_contents p))%nat ->
  pipe_wf (pipe_pop n p).2 /\ (pipe_pop n p).1 = take n (pipe_contents p) /\
  pipe_contents (pipe_pop n p).2 = drop n (pipe_contents p).
Proof.
  intros Hw Hc. pose proof (length_pipe_contents p Hw) as Hl. pose proof (ring_n _ _ _ _ _ Hw) as Hn.
  unfold pipe_wf, pipe_contents in *.
  pose proof (ring_get_spec PIPE_BUF_SIZE n (Z.to_nat (count p) - n) (buffer p) (read_pos p) (write_pos p)) as H.
  replace (n + (Z.to_nat (count p) - n))%nat with (Z.to_nat (count p)) in H by lia.
  rewrite Z2Nat.id in H by lia. specialize (H Hw).
  unfold pipe_pop. destruct (ring_get _ _ _ _) as [d rp]. destruct H as (H1 & H2 & H3). cbn.
  unfold PIPE_BUF_SIZE in *. rewrite u32_small by lia.
  replace (Z.to_nat (count p - Z.of_nat n)) with (Z.to_nat (count p) - n)%nat by lia.
  replace (Z.of_nat (Z.to_nat (count p) - n)) with (count p - Z.of_nat n) in H1 by lia. done.
Qed.

#[export] Instance pipe_queue : ByteQueue pipe := {
  bq_inv := pipe_wf;
  bq_contents := pipe_contents;
  bq_cap := 4096;
  bq_push := pipe_push;
  bq_pop := pipe_pop;
  bq_push_law := fun q d => pipe_push_queue q d;
  bq_pop_law := fun q n => pipe_pop_queue q n
}.

(** ** The calls *)

Lemma pipe_write_queue p buf cnt s :
  pipe_wf p -> 0 <= cnt <= Z.of_nat (length buf) ->
  let '(p', _, r) := pipe_write p buf cnt s in
  let acc := match r with Some z => take (Z.to_nat z) buf | None => [] end in
  pipe_wf p' /\ pipe_contents p' = pipe_contents p ++ acc.
Proof.
  intros Hw Hc. pose proof (length_pipe_contents p Hw) as Hl. pose proof (ring_n _ _ _ _ _ Hw) as Hn.
  unfold pipe_write, PIPE_BUF_SIZE in *.
  destruct (readers p =? 0); [by rewrite app_nil_r|].
  destruct (count p =? 4096) eqn:E; b2p; [by rewrite app_nil_r|].
  rewrite u32_small by lia. apply (pipe_push_queue p); [done|].
  rewrite length_take. destruct (cnt <? _) eqn:E'; b2p; lia.
Qed.

Lemma pipe_read_queue p cnt s :
  pipe_wf p -> 0 <= cnt ->
  let '(p', _, r) := pipe_read p cnt s in
  let got := match r with Some (_, d) => d | None => [] end in
  pipe_wf p' /\ pipe_contents p = got ++ pipe_contents p'.
Proof.
  intros Hw Hc. pose proof (length_pipe_contents p Hw) as Hl. pose proof (ring_n _ _ _ _ _ Hw) as Hn.
  unfold pipe_read. destruct (count p =? 0) eqn:E; b2p; [by destruct (writers p =? 0)|].
  destruct (pipe_pop_queue p (Z.to_nat (if cnt <? count p then cnt else count p)) Hw) as (H1 & H2 & H3).
  { destruct (cnt <? _) eqn:E'; b2p; lia. }
  destruct (pipe_pop _ p) as [d p1]. cbn in H1, H2, H3. split; [exact H1|].
  change (pipe_contents (p1 <| blocked_writer := None |>)) with (pipe_contents p1).
  by rewrite H2, H3, take_drop.
Qed.

Lemma pipe_close_read_queue p s :
  pipe_wf p -> pipe_wf (pipe_close_read p s).1 /\
  pipe_contents (pipe_close_read p s).1 = pipe_contents p.
Proof.
  intros Hw. unfold pipe_close_read. destruct (0 <? readers p); cbn; destruct (_ && _); done.
Qed.

Lemma pipe_close_write_queue p s :
  pipe_wf p -> pipe_wf (pipe_close_write p s).1 /\
  pipe_contents (pipe_close_write p s).1 = pipe_contents p.
Proof.
  intros Hw. unfold pipe_close_write. destruct (0 <? writers p); cbn; destruct (_ && _); done.
Qed.

Lemma pipe_inc_ref_queue p t :
  pipe_wf p -> pipe_wf (pipe_inc_ref p t) /\ pipe_contents (pipe_inc_ref p t) = pipe_contents p.
Proof. intros Hw. unfold pipe_inc_ref. repeat case_if; done. Qed.


(** ** Waking the other end *)

(** No lost wake-up: a write that is accepted puts the process sleeping in
    [pipe_read] at the tail of the ready queue and forgets it. *)
Theorem pipe_write_wakes_reader p buf cnt s l r n p' s' :
  sched_inv s l -> blocked_reader p = Some r -> (r < length (procs s))%nat ->
  state (proc_at s r) = PROCESS_BLOCKED -> current_process s <> Some r ->
  pipe_write p buf cnt s = (p', s', Some n) -> n <> -1 ->
  sched_inv s' (l ++ [r]) /\ state (proc_at s' r) = PROCESS_READY /\ blocked_reader p' = None.
Proof.
  intros Hinv Hb Hlt Hst Hcur. unfold pipe_write. destruct (readers p =? 0); [by intros [= <- <- <-]|].
  destruct (count p =? _); [done|]. unfold pipe_push.
  destruct (ring_put _ _ _ _) as [b wp]. cbn. rewrite Hb. intros [= <- <- _] _.
  split; [by apply wake_inv|]. split; [|done]. cbn. by rewrite wake_state, decide_True.
Qed.

(** ** A wake-up by a signal leaves the pipe's pointer behind *)

Lemma chain_self_loop t r q l : t !! r = Some q -> next q = Some r -> ~ chain t (Some r) l.
Proof.
  intros Hq Hn. induction l as [|x l IH]; [done|]. intros [[= <-] (q' & Hq' & Hc)].
  rewrite Hq in Hq'. injection Hq' as <-. by rewrite Hn in Hc.
Qed.

Lemma chain_reaches t t' h l r l' :
  chain t h (l ++ [r]) -> (forall i, i ∈ l -> (next <$> t' !! i) = (next <$> t !! i)) ->
  chain t' h l' -> exists l'', chain t' (Some r) l''.
Proof.
  revert h l'; induction l as [|x l IH]; intros h l' Hc Hext Hc'; simpl in Hc.
  - destruct Hc as [-> _]. by exists l'.
  - destruct Hc as [-> (q & Hq & Hc)]. destruct l' as [|y l']; [done|].
    destruct Hc' as [[= <-] (q' & Hq' & Hc')]. pose proof (Hext x ltac:(set_solver)) as E.
    rewrite Hq, Hq' in E. injection E as E. rewrite E in Hc'.
    apply (IH (next q) l'); [done| |done]. intros i Hi. apply Hext. set_solver.
Qed.

(** Waking the tail of the queue again closes a cycle. *)
Lemma wake_tail_cycle s l r : queue s (l ++ [r]) -> forall l', ~ queue (wake r s) l'.
Proof.
  intros Hq l' (Hc' & _). pose proof Hq as (Hc & Ht & Hn). rewrite last_snoc in Ht.
  assert (r < length (procs s))%nat as Hlt by (eapply chain_lt; [apply Hc|set_solver]).
  destruct (lookup_lt_is_Some_2 _ _ Hlt) as [q Hqr].
  assert (r ∉ l) as Hrl by (apply NoDup_app in Hn as (_ & H & _); intros ?; apply (H r); set_solver).
  assert (exists h, ready_queue_head s = Some h) as [h Hh].
  { destruct l; simpl in Hc; destruct Hc as [-> _]; eauto. }
  unfold wake, scheduler_add in Hc'. simpl in Hc'. rewrite Hh, Ht in Hc'. simpl in Hc'. rewrite Hh in Hc'.
  match type of Hc' with chain ?t _ _ => set (t' := t) in * end.
  rewrite Hh in Hc. destruct (chain_reaches _ t' _ l r l' Hc) as [l'' Hl'']; [|exact Hc'|].
  - intros i Hi. unfold t'. rewrite !lookup_upd_proc, !decide_False by (intros ->; done). done.
  - revert Hl''. eapply chain_self_loop.
    + unfold t'. rewrite !lookup_upd_proc, !decide_True, Hqr by done. reflexivity.
    + done.
Qed.

(** A signal that wakes a process sleeping in [pipe_read] does not clear the
    pipe's [blocked_reader]; if the pipe is written before that process has
    run, it is queued a second time and the ready queue becomes cyclic: it is no
    longer the representation of any list of processes. *)
Theorem signal_then_write_corrupts_queue p buf cnt s l r q sig :
  sched_inv s l -> process_get_by_pid (procs s) q = Some r ->
  state (proc_at s r) = PROCESS_BLOCKED -> 1 <= sig < 32 ->
  blocked_reader p = Some r -> readers p <> 0 -> count p <> PIPE_BUF_SIZE ->
  let '(_, s', _) := pipe_write p buf cnt (signal_send q sig s) in forall l', ~ queue s' l'.
Proof.
  intros Hinv Hp Hst Hsig Hb Hr Hc. apply Z.eqb_neq in Hr, Hc.
  assert (r < length (procs s))%nat as Hlt
    by (by apply process_get_by_pid_Some in Hp as (? & ?%lookup_lt_Some & _)).
  assert (r ∉ l) as Hrl by (eapply inv_not_queued; [done|done|by rewrite Hst]).
  assert (exists s1, signal_send q sig s = wake r s1 /\ queue s1 l /\ (r < length (procs s1))%nat)
    as (s1 & -> & Hq1 & Hlt1).
  { unfold signal_send. replace ((sig <? 1) || (32 <=? sig)) with false by lia.
    rewrite Hp, Hst. simpl is_state. cbn [orb].
    rewrite proc_at_set_proc by done. cbn. rewrite Hst. cbn.
    eexists. split; [reflexivity|]. split; [|by autorewrite with ktab].
    by apply inv_queue, inv_set_proc. }
  unfold pipe_write. rewrite Hr, Hc. unfold pipe_push.
  destruct (ring_put _ _ _ _) as [b wp]. cbn. rewrite Hb.
  apply (wake_tail_cycle _ l r). by apply wake_queue.
Qed.

(** ** Concrete runs *)

Definition demo_pipe : pipe := mk_pipe (replicate 4096 0) 4094 4094 0 1 1 (Some 3%nat) None.

Lemma demo_pipe_wf : pipe_wf demo_pipe.
Proof. constructor; simpl; unfold PIPE_BUF_SIZE; [|lia..|]; vm_compute; done. Qed.


Lemma pipe_write_wakes_reader_witness :
  exists s', sched_inv s' [1; 2; 3]%nat.
Proof.
  destruct (pipe_write demo_pipe [7] 1 demo_sched) as [[p1 s1] r1] eqn:E1. exists s1.
  assert (r1 = Some 1) as -> by (revert E1; vm_compute; congruence).
  apply (pipe_write_wakes_reader demo_pipe [7] 1 demo_sched [1; 2]%nat 3 1 p1 s1 demo_sched_inv);
    try done. simpl; lia.
Defined.

Lemma signal_then_write_corrupts_queue_witness :
  let '(_, s', _) := pipe_write demo_pipe [7] 1 (signal_send 4 SIGINT demo_sched) in
  forall l', ~ queue s' l'.
Proof.
  apply (signal_then_write_corrupts_queue demo_pipe [7] 1 demo_sched [1; 2]%nat 3 4 SIGINT
    demo_sched_inv); done.
Defined.

End Pipe.
