(* ===== verification/Tty.v ===== *)
(** * Console input: line discipline and keyboard (drivers/tty.c, drivers/keyboard.c)

    The line discipline edits a line and hands it to the reader; the keyboard
    driver turns scan codes into characters for it.  Characters sent to the
    screen are returned as the output of each call. *)

From stdpp Require Import prelude.
From Stdlib Require Import ZArith Lia.
From S2P Require Import Prelude Process Sched Signal Ring.
Import Process Sched Signal Ring.
Local Open Scope Z_scope.

Module Tty.

Definition TTY_CANON : Z := 1.
Definition TTY_ECHO : Z := 2.

Record tty := mk_tty {
  input_buf : list Z;
  input_len : Z;
  read_buf : list Z;
  read_pos : Z;
  read_len : Z;
  flags : Z;
  fg_pid : Z;
  blocked_reader : option nat
}.

#[export] Instance eta_tty : Eta tty := fun t =>
  mk_tty (input_buf t) (input_len t) (read_buf t) (read_pos t) (read_len t) (flags t)
    (fg_pid t) (blocked_reader t).

Definition tty_init : tty :=
  mk_tty (replicate 256 0) 0 (replicate 256 0) 0 0 (Z.lor TTY_CANON TTY_ECHO) 0 None.

Definition echo (t : tty) (c : Z) : list Z :=
  if Z.land (flags t) TTY_ECHO =? 0 then [] else [c].

(** [c] is a [char]: -128 .. 127. *)
Definition tty_input_char (c : Z) (t : tty) (s : sched) : tty * sched * list Z :=
  if c =? 3 then (t, if fg_pid t =? 0 then s else signal_send (fg_pid t) SIGINT s, [])
  else if c =? 26 then (t, if fg_pid t =? 0 then s else signal_send (fg_pid t) SIGTSTP s, [])
  else if c =? 8 then
    if 0 <? input_len t then (t <| input_len ::= fun n => n - 1 |>, s, echo t 8) else (t, s, [])
  else if c =? 10 then
    let rb := blit (read_buf t) 0 (take (Z.to_nat (input_len t)) (input_buf t)) in
    let t' := t <| read_buf := zset rb (input_len t) 10 |> <| read_len := input_len t + 1 |>
                <| read_pos := 0 |> <| input_len := 0 |> <| blocked_reader := None |> in
    (t', match blocked_reader t with Some r => wake r s | None => s end, echo t 10)
  else if (32 <=? c) && (c <=? 126) then
    if input_len t <? 255
    then (t <| input_buf ::= fun b => zset b (input_len t) c |> <| input_len ::= fun n => n + 1 |>,
          s, echo t c)
    else (t, s, [])
  else (t, s, []).

(** One turn of [tty_read]; [None]: the caller sleeps and retries. *)
Definition tty_read (cnt : Z) (t : tty) (s : sched) : tty * sched * option (Z * list Z) :=
  if (read_len t =? 0) || (read_len t <=? read_pos t)
  then (t <| blocked_reader := current_process s |>, block_current s, None)
  else
    let avail := u32 (read_len t - read_pos t) in
    let to_copy := if cnt <? avail then cnt else avail in
    let d := slice (read_buf t) (read_pos t) to_copy in
    let t := t <| read_pos ::= fun p => u32 (p + to_copy) |> in
    let t := if read_len t <=? read_pos t then t <| read_pos := 0 |> <| read_len := 0 |> else t in
    (t, s, Some (to_copy, d)).

Definition tty_write (buf : list Z) : Z * list Z := (Z.of_nat (length buf), buf).
Definition tty_set_fg (q : Z) (t : tty) : tty := t <| fg_pid := q |>.
Definition tty_get_fg (t : tty) : Z := fg_pid t.
Definition tty_readable (t : tty) : bool := (0 <? read_len t) && (read_pos t <? read_len t).

(** ** Keyboard *)

Definition KB_BUFFER_SIZE : Z := 256.
Definition MODIFIER_TIMEOUT_TICKS : Z := 300.

Record kbd := mk_kbd {
  kb_buffer : list Z;
  kb_read_idx : Z;
  kb_write_idx : Z;
  kb_shift : bool;
  kb_ctrl : bool;
  kb_caps : bool;
  kb_ctrl_tick : Z;
  kb_shift_tick : Z
}.

#[export] Instance eta_kbd : Eta kbd := fun k =>
  mk_kbd (kb_buffer k) (kb_read_idx k) (kb_write_idx k) (kb_shift k) (kb_ctrl k) (kb_caps k)
    (kb_ctrl_tick k) (kb_shift_tick k).

Definition kbd_init : kbd := mk_kbd (replicate 256 0) 0 0 false false false 0 0.

Definition scancode_to_ascii : list Z :=
  [0; 27; 49; 50; 51; 52; 53; 54; 55; 56; 57; 48; 45; 61; 8;
   9; 113; 119; 101; 114; 116; 121; 117; 105; 111; 112; 91; 93; 10; 0;
   97; 115; 100; 102; 103; 104; 106; 107; 108; 59; 39; 96; 0; 92; 122;
   120; 99; 118; 98; 110; 109; 44; 46; 47; 0; 42; 0; 32; 0; 0;
   0; 0; 0; 0; 0; 0; 0; 0; 0; 0; 0; 0; 0; 0; 45;
   0; 0; 0; 43; 0; 0; 0; 0; 0] ++ replicate 44 0.

Definition scancode_to_ascii_shift : list Z :=
  [0; 27; 33; 64; 35; 36; 37; 94; 38; 42; 40; 41; 95; 43; 8;
   9; 81; 87; 69; 82; 84; 89; 85; 73; 79; 80; 123; 125; 10; 0;
   65; 83; 68; 70; 71; 72; 74; 75; 76; 58; 34; 126; 0; 124; 90;
   88; 67; 86; 66; 78; 77; 60; 62; 63; 0; 42; 0; 32; 0; 0;
   0; 0; 0; 0; 0; 0; 0; 0; 0; 0; 0; 0; 0; 0; 45;
   0; 0; 0; 43; 0; 0; 0; 0; 0] ++ replicate 44 0.

(** Append to the raw buffer unless it is full. *)
Definition kb_put (c : Z) (k : kbd) : kbd :=
  let nx := (kb_write_idx k + 1) mod KB_BUFFER_SIZE in
  if nx =? kb_read_idx k then k
  else k <| kb_buffer ::= fun b => zset b (kb_write_idx k) c |> <| kb_write_idx := nx |>.

(** The character goes to the terminal and to the raw buffer. *)
Definition kb_emit (c : Z) (k : kbd) (t : tty) (s : sched) : kbd * tty * sched * list Z :=
  let '(t, s, o) := tty_input_char c t s in (kb_put c k, t, s, o).

(** The handler after the modifier keys have been dealt with. *)
Definition kb_char (scancode : Z) (k : kbd) : Z :=
  let c := if kb_shift k then zget scancode_to_ascii_shift scancode
           else zget scancode_to_ascii scancode in
  if kb_caps k && (97 <=? c) && (c <=? 122) then c - 32
  else if kb_caps k && (65 <=? c) && (c <=? 90) then c + 32
  else c.

Definition kb_expire (now : Z) (k : kbd) : kbd :=
  let k := if kb_ctrl k && (MODIFIER_TIMEOUT_TICKS <? u64 (now - kb_ctrl_tick k))
           then k <| kb_ctrl := false |> else k in
  if kb_shift k && (MODIFIER_TIMEOUT_TICKS <? u64 (now - kb_shift_tick k))
  then k <| kb_shift := false |> else k.

(** [status] and [scancode] are the bytes read from ports 0x64 and 0x60, [now]
    the timer ticks. *)
Definition keyboard_handler (status scancode now : Z) (k : kbd) (t : tty) (s : sched)
  : kbd * tty * sched * list Z :=
  if negb (Z.land status 0x20 =? 0) then (k, t, s, [])
  else if negb (Z.land scancode 0x80 =? 0) then
    let key := Z.land scancode 0x7F in
    let k := if (key =? 0x2A) || (key =? 0x36) then k <| kb_shift := false |> else k in
    let k := if key =? 0x1D then k <| kb_ctrl := false |> else k in
    (k, t, s, [])
  else if (scancode =? 0x2A) || (scancode =? 0x36) then
    (k <| kb_shift := true |> <| kb_shift_tick := now |>, t, s, [])
  else if scancode =? 0x1D then
    (k <| kb_ctrl := true |> <| kb_ctrl_tick := now |>, t, s, [])
  else if scancode =? 0x3A then (k <| kb_caps ::= negb |>, t, s, [])
  else
    let k := kb_expire now k in
    let c := kb_char scancode k in
    if kb_ctrl k && (97 <=? c) && (c <=? 122) then kb_emit (c - 97 + 1) k t s
    else if c =? 0 then (k, t, s, [])
    else kb_emit c k t s.

(** The serial handler drains the bytes the UART has queued. *)
Definition s8 (z : Z) : Z := let r := u8 z in if r <? 128 then r else r - 256.

Fixpoint serial_rx_handler (bytes : list Z) (k : kbd) (t : tty) (s : sched)
  : kbd * tty * sched * list Z :=
  match bytes with
  | [] => (k, t, s, [])
  | b :: bs =>
      let c := s8 b in
      let c := if c =? 13 then 10 else c in
      if c =? 0 then serial_rx_handler bs k t s
      else
        let '(k, t, s, o) := kb_emit c k t s in
        let '(k, t, s, o') := serial_rx_handler bs k t s in
        (k, t, s, o ++ o')
  end.

Definition keyboard_haschar (k : kbd) : bool := negb (kb_read_idx k =? kb_write_idx k).

(** [None]: the caller halts until the next interrupt. *)
Definition keyboard_getchar (k : kbd) : option (Z * kbd) :=
  if kb_read_idx k =? kb_write_idx k then None
  else Some (zget (kb_buffer k) (kb_read_idx k),
             k <| kb_read_idx ::= fun r => (r + 1) mod KB_BUFFER_SIZE |>).

(** ** Specification: a line editor over two lists *)

Record tty_wf (t : tty) : Prop := mk_tty_wf {
  tw_ilen : length (input_buf t) = 256%nat;
  tw_rlen : length (read_buf t) = 256%nat;
  tw_in : 0 <= input_len t <= 255;
  tw_rd : 0 <= read_pos t <= read_len t;
  tw_rl : read_len t <= 256
}.

(** The line being typed and the data waiting for the reader. *)
Definition line (t : tty) : list Z := take (Z.to_nat (input_len t)) (input_buf t).
Definition ready (t : tty) : list Z := slice (read_buf t) (read_pos t) (read_len t - read_pos t).

Definition printable (c : Z) : bool := (32 <=? c) && (c <=? 126).

(** The effect of one character on (line, ready). *)
Definition edit (c : Z) (a : list Z * list Z) : list Z * list Z :=
  let '(l, r) := a in
  if c =? 8 then (take (length l - 1) l, r)
  else if c =? 10 then ([], l ++ [10])
  else if printable c && (Z.of_nat (length l) <? 255) then (l ++ [c], r)
  else (l, r).

Definition abs (t : tty) : list Z * list Z := (line t, ready t).

(** Typing a string. *)
Fixpoint type_chars (cs : list Z) (t : tty) (s : sched) : tty * sched :=
  match cs with
  | [] => (t, s)
  | c :: cs' => let '(t, s, _) := tty_input_char c t s in type_chars cs' t s
  end.

(** ** The line discipline refines the editor *)

Lemma length_line t : tty_wf t -> Z.of_nat (length (line t)) = input_len t.
Proof. intros [H1 _ H2 _ _]. unfold line. rewrite length_take. lia. Qed.

Lemma length_ready t : tty_wf t -> Z.of_nat (length (ready t)) = read_len t - read_pos t.
Proof. intros [_ H1 _ H2 H3]. unfold ready. rewrite length_slice by lia. lia. Qed.

Lemma newline_ready t : tty_wf t ->
  let rb := blit (read_buf t) 0 (line t) in
  slice (zset rb (input_len t) 10) 0 (input_len t + 1) = line t ++ [10].
Proof.
  intros Hw. pose proof (length_line t Hw) as Hl. destruct Hw as [H1 H2 H3 _ _].
  unfold slice, zset, blit. simpl. rewrite drop_0.
  rewrite insert_app_r_alt by lia. replace (_ - _)%nat with 0%nat by lia.
  destruct (drop _ (read_buf t)) as [|x d] eqn:E.
  { apply (f_equal length) in E. rewrite length_drop in E. simpl in E. lia. }
  simpl. rewrite take_app. rewrite take_ge by lia.
  replace (Z.to_nat (input_len t + 1) - length (line t))%nat with 1%nat by lia. done.
Qed.

Lemma line_snoc t c : tty_wf t -> input_len t < 255 ->
  take (Z.to_nat (input_len t + 1)) (zset (input_buf t) (input_len t) c) = line t ++ [c].
Proof.
  intros [H1 _ H3 _ _] Hlt. unfold line, zset.
  replace (Z.to_nat (input_len t + 1)) with (S (Z.to_nat (input_len t))) by lia.
  rewrite (take_S_r _ _ c) by (rewrite list_lookup_insert_eq; [done|lia]).
  by rewrite take_insert_ge by lia.
Qed.

Lemma tty_input_char_edit c t s :
  tty_wf t ->
  let '(t', _, _) := tty_input_char c t s in tty_wf t' /\ abs t' = edit c (abs t).
Proof.
  intros Hw. pose proof (length_line t Hw) as Hl. pose proof Hw as [H1 H2 H3 H4 H5].
  unfold tty_input_char, edit, abs.
  destruct (Z.eqb_spec c 3) as [->|N3]; [done|]. destruct (Z.eqb_spec c 26) as [->|N26]; [done|].
  destruct (Z.eqb_spec c 8) as [->|N8].
  { destruct (0 <? input_len t) eqn:E; b2p.
    - split; [constructor; cbn; lia|]. unfold line, ready. cbn. f_equal.
      rewrite take_take. f_equal. rewrite length_take. lia.
    - split; [done|]. f_equal. rewrite take_ge; [done|]. lia. }
  destruct (Z.eqb_spec c 10) as [->|N10].
  { split.
    - constructor; cbn; rewrite ?length_zset, ?length_blit; rewrite ?length_take; lia.
    - unfold ready. cbn -[blit slice zset line]. rewrite Z.sub_0_r. f_equal. by apply newline_ready. }
  fold (printable c). destruct (printable c); [|done]. rewrite Hl. simpl.
  destruct (input_len t <? 255) eqn:E; b2p; [|done]. split.
  - constructor; cbn; rewrite ?length_zset; lia.
  - unfold ready. cbn -[slice]. f_equal. unfold line at 1. cbn. by apply line_snoc.
Qed.

Lemma type_chars_edit cs t s :
  tty_wf t -> tty_wf (type_chars cs t s).1 /\
  abs (type_chars cs t s).1 = foldl (fun a c => edit c a) (abs t) cs.
Proof.
  revert t s; induction cs as [|c cs IH]; intros t s Hw; cbn [type_chars foldl]; [done|].
  pose proof (tty_input_char_edit c t s Hw) as H. destruct (tty_input_char c t s) as [[t' s'] o].
  destruct H as [Hw' E]. rewrite <- E. by apply IH.
Qed.

(** The line discipline is the two-list line editor: each input character
    changes the line being typed and the data ready for the reader as the
    abstract editor does (backspace, end of line, bounded insertion), and the
    buffers stay in bounds. *)
Theorem tty_input_char_refines c t s :
  tty_wf t ->
  let '(t', _, _) := tty_input_char c t s in tty_wf t' /\ abs t' = edit c (abs t).
Proof. apply tty_input_char_edit. Qed.

Lemma tty_read_ready cnt t s :
  tty_wf t -> 0 <= cnt ->
  match tty_read cnt t s with
  | (t', _, None) => ready t = [] /\ abs t' = abs t /\ tty_wf t'
  | (t', s', Some (n, d)) =>
      ready t <> [] /\ n = Z.min cnt (Z.of_nat (length (ready t))) /\
      d = take (Z.to_nat n) (ready t) /\ abs t' = (line t, drop (Z.to_nat n) (ready t)) /\
      s' = s /\ tty_wf t'
  end.
Proof.
  intros Hw Hc. pose proof (length_ready t Hw) as Hl. pose proof Hw as [H1 H2 H3 H4 H5].
  unfold tty_read. destruct (_ || _) eqn:E.
  { split; [|split; [done|by destruct Hw]]. apply length_zero_iff_nil.
    apply orb_true_iff in E as [E|E]; b2p; lia. }
  b2p. rewrite u32_small by lia.
  set (n := if cnt <? read_len t - read_pos t then cnt else read_len t - read_pos t).
  assert (n = Z.min cnt (Z.of_nat (length (ready t)))) as Hn
    by (unfold n; destruct (cnt <? _) eqn:E'; b2p; lia).
  assert (0 <= n <= read_len t - read_pos t) as Hb by lia.
  cbn. rewrite u32_small by lia. split; [intros E0; rewrite E0 in Hl; simpl in Hl; lia|].
  split; [done|]. split.
  { unfold ready, slice. rewrite take_take. f_equal. lia. }
  destruct (read_len t <=? read_pos t + n) eqn:E'; b2p; cbn.
  - unfold abs, ready. cbn. split; [|split; [done|constructor; cbn; lia]]. f_equal.
    symmetry. apply nil_length_inv. rewrite length_drop. fold (ready t). lia.
  - unfold abs, ready. cbn. split; [|split; [done|constructor; cbn; lia]]. f_equal.
    unfold slice. rewrite skipn_firstn_comm, drop_drop. f_equal; [lia|]. f_equal. lia.
Qed.

(** Reading from the terminal: with nothing ready the caller sleeps and the
    terminal is unchanged; otherwise it gets the first [min cnt available] bytes
    of the ready data, and exactly those are removed. *)
Theorem tty_read_correct cnt t s :
  tty_wf t -> 0 <= cnt ->
  match tty_read cnt t s with
  | (t', _, None) => ready t = [] /\ abs t' = abs t /\ tty_wf t'
  | (t', s', Some (n, d)) =>
      ready t <> [] /\ n = Z.min cnt (Z.of_nat (length (ready t))) /\
      d = take (Z.to_nat n) (ready t) /\ abs t' = (line t, drop (Z.to_nat n) (ready t)) /\
      s' = s /\ tty_wf t'
  end.
Proof. apply tty_read_ready. Qed.

Lemma edit_printables cs l r :
  Forall (fun c => printable c = true) cs -> Z.of_nat (length (l ++ cs)) <= 255 ->
  foldl (fun a c => edit c a) (l, r) cs = (l ++ cs, r).
Proof.
  revert l; induction cs as [|c cs IH]; intros l Hp Hl; cbn [foldl]; [by rewrite app_nil_r|].
  apply Forall_cons in Hp as [Hc Hp]. rewrite length_app in Hl. simpl in Hl.
  assert (edit c (l, r) = (l ++ [c], r)) as ->.
  { unfold edit. assert (32 <= c <= 126) by (unfold printable in Hc; b2p; lia).
    destruct (Z.eqb_spec c 8); [lia|]. destruct (Z.eqb_spec c 10); [lia|].
    rewrite Hc. replace (_ <? 255) with true by lia. done. }
  rewrite IH; [by rewrite <- app_assoc|done|]. rewrite !length_app. simpl. lia.
Qed.

(** Typing up to 255 printable characters and Enter at an empty prompt, and
    then reading with a large enough buffer, returns the typed line with its
    newline. *)
Theorem tty_line_roundtrip cs t s cnt :
  tty_wf t -> line t = [] -> Forall (fun c => printable c = true) cs ->
  Z.of_nat (length cs) <= 255 -> Z.of_nat (length cs) + 1 <= cnt ->
  let '(t1, s1) := type_chars (cs ++ [10]) t s in
  (tty_read cnt t1 s1).2 = Some (Z.of_nat (length cs) + 1, cs ++ [10]).
Proof.
  intros Hw Hl Hp Hn Hc. destruct (type_chars_edit (cs ++ [10]) t s Hw) as [Hw1 E].
  destruct (type_chars _ t s) as [t1 s1]. simpl in Hw1, E. unfold abs at 2 in E.
  rewrite foldl_app, Hl, edit_printables in E by done. injection E as E1 E2.
  pose proof (tty_read_ready cnt t1 s1 Hw1 ltac:(lia)) as H.
  rewrite E2 in H. destruct (tty_read _ _ _) as [[t2 s2] [[n d]|]]; simpl.
  - destruct H as (_ & -> & -> & _). rewrite length_app. simpl. rewrite Z.min_r by lia.
    rewrite take_ge by (rewrite length_app; simpl; lia). do 2 f_equal. lia.
  - destruct H as [H _]. by destruct cs.
Qed.

(** ** The raw keyboard buffer *)

Definition kb_count (k : kbd) : Z := (kb_write_idx k - kb_read_idx k) mod KB_BUFFER_SIZE.

Definition kb_wf (k : kbd) : Prop :=
  ring_wf KB_BUFFER_SIZE (kb_buffer k) (kb_read_idx k) (kb_write_idx k) (kb_count k).

Definition kb_contents (k : kbd) : list Z :=
  contents KB_BUFFER_SIZE (kb_buffer k) (kb_read_idx k) (Z.to_nat (kb_count k)).

Lemma kb_count_range k : 0 <= kb_count k < 256.
Proof. apply Z.mod_pos_bound. done. Qed.

Lemma kb_put_queue c k :
  kb_wf k ->
  kb_wf (kb_put c k) /\
  kb_contents (kb_put c k)
  = if kb_count k <? 255 then kb_contents k ++ [c] else kb_contents k.
Proof.
  intros Hw. pose proof Hw as [Hl Hr Hn Hwp]. pose proof (kb_count_range k) as Hc.
  unfold kb_put. unfold kb_wf, kb_contents in *. unfold KB_BUFFER_SIZE in *.
  assert ((kb_write_idx k + 1) mod 256 = (kb_read_idx k + (kb_count k + 1)) mod 256) as Enx.
  { rewrite Hwp, Zplus_mod_idemp_l. f_equal. lia. }
  rewrite Enx. destruct (kb_count k <? 255) eqn:E; b2p.
  - assert ((kb_read_idx k + (kb_count k + 1)) mod 256 <> kb_read_idx k) as Hne by zsolve.
    apply Z.eqb_neq in Hne. rewrite Hne.
    match goal with |- ring_wf _ _ _ _ (kb_count ?k') /\ _ =>
      assert (kb_count k' = kb_count k + 1) as Ek end.
    { unfold kb_count at 1, KB_BUFFER_SIZE. cbn. zsolve. }
    pose proof (ring_put_spec 256 [c] (kb_buffer k) (kb_read_idx k) (Z.to_nat (kb_count k)) (kb_write_idx k)) as H.
    rewrite Z2Nat.id in H by lia. specialize (H Hw ltac:(simpl; lia)). cbn [ring_put] in H.
    rewrite Ek. cbn. rewrite <- Enx. simpl length in H. destruct H as [H1 H2].
    replace (Z.of_nat (Z.to_nat (kb_count k) + 1)) with (kb_count k + 1) in H1 by lia.
    replace (Z.to_nat (kb_count k) + 1)%nat with (Z.to_nat (kb_count k + 1)) in H2 by lia. done.
  - assert ((kb_read_idx k + (kb_count k + 1)) mod 256 = kb_read_idx k) as -> by zsolve.
    rewrite Z.eqb_refl. done.
Qed.

Lemma keyboard_getchar_queue k :
  kb_wf k ->
  match keyboard_getchar k with
  | None => kb_contents k = []
  | Some (c, k') => kb_wf k' /\ kb_contents k = c :: kb_contents k'
  end.
Proof.
  intros Hw. pose proof Hw as [Hl Hr Hn Hwp]. pose proof (kb_count_range k) as Hc.
  unfold keyboard_getchar, kb_contents, kb_wf, KB_BUFFER_SIZE in *.
  destruct (kb_read_idx k =? kb_write_idx k) eqn:E; b2p.
  - unfold kb_count. rewrite E, Z.sub_diag. done.
  - assert (0 < kb_count k) as Hpos by zsolve.
    match goal with |- ring_wf _ _ _ _ (kb_count ?k') /\ _ =>
      assert (kb_count k' = kb_count k - 1) as Ek end.
    { unfold kb_count at 1, KB_BUFFER_SIZE. cbn. zsolve. }
    pose proof (ring_get_spec 256 1 (Z.to_nat (kb_count k - 1)) (kb_buffer k) (kb_read_idx k) (kb_write_idx k)) as H.
    replace (Z.of_nat (1 + _)) with (kb_count k) in H by lia. specialize (H Hw).
    cbn [ring_get] in H. destruct H as (H1 & _ & _). rewrite Z2Nat.id in H1 by lia.
    rewrite Ek. cbn. split; [done|].
    replace (Z.to_nat (kb_count k)) with (S (Z.to_nat (kb_count k - 1))) by lia.
    by rewrite contents_S by lia.
Qed.

(** The raw keyboard buffer is a bounded FIFO: a character is appended unless
    255 are waiting, in which case it is dropped, and [keyboard_getchar] takes
    the oldest one. *)
Theorem keyboard_fifo c k :
  kb_wf k ->
  (kb_wf (kb_put c k) /\
   kb_contents (kb_put c k)
   = if kb_count k <? 255 then kb_contents k ++ [c] else kb_contents k) /\
  match keyboard_getchar k with
  | None => kb_contents k = []
  | Some (c', k') => kb_wf k' /\ kb_contents k = c' :: kb_contents k'
  end.
Proof. intros Hw. split; [by apply kb_put_queue|by apply keyboard_getchar_queue]. Qed.

(** Ctrl followed by C within the modifier timeout sends SIGINT to the
    foreground process and leaves the terminal alone, provided neither Shift
    nor Caps Lock is on; with Caps Lock on no signal is sent and the letter C
    goes to the line discipline as ordinary text. *)
Theorem keyboard_ctrl_c k t s now later :
  kb_shift k = false -> 0 <= later - now <= MODIFIER_TIMEOUT_TICKS -> fg_pid t <> 0 ->
  let '(k1, t1, s1, _) := keyboard_handler 0 0x1D now k t s in
  let '(_, t2, s2, o) := keyboard_handler 0 0x2E later k1 t1 s1 in
  (t2, s2, o) = if kb_caps k then tty_input_char 67 t s
                else (t, signal_send (fg_pid t) SIGINT s, []).
Proof.
  intros Hs Hd Hf. set (k' := k <| kb_ctrl := true |> <| kb_ctrl_tick := now |>).
  change (keyboard_handler 0 0x1D now k t s) with (k', t, s, @nil Z). cbv iota beta.
  assert (kb_expire later k' = k') as Ek.
  { unfold kb_expire. change (kb_ctrl k') with true. change (kb_ctrl_tick k') with now.
    unfold MODIFIER_TIMEOUT_TICKS in *. rewrite u64_small by lia.
    replace (300 <? later - now) with false by lia. cbn [andb].
    change (kb_shift k') with (kb_shift k). by rewrite Hs. }
  assert (kb_char 0x2E k' = if kb_caps k then 67 else 99) as Ec.
  { unfold kb_char. change (kb_shift k') with (kb_shift k). rewrite Hs.
    change (kb_caps k') with (kb_caps k). by destruct (kb_caps k). }
  change (keyboard_handler 0 0x2E later k' t s) with
    (let k := kb_expire later k' in let c := kb_char 0x2E k in
     if kb_ctrl k && (97 <=? c) && (c <=? 122) then kb_emit (c - 97 + 1) k t s
     else if c =? 0 then (k, t, s, []) else kb_emit c k t s).
  rewrite Ek. cbv zeta. rewrite Ec. change (kb_ctrl k') with true. apply Z.eqb_neq in Hf.
  destruct (kb_caps k); cbn [andb].
  - change ((97 <=? 67) && (67 <=? 122)) with false. cbv iota. change (67 =? 0) with false.
    cbv iota. unfold kb_emit. by destruct (tty_input_char 67 t s) as [[? ?] ?].
  - unfold kb_emit, tty_input_char. simpl. by rewrite Hf.
Qed.

(** ** Concrete runs *)

Lemma tty_init_wf : tty_wf tty_init.
Proof. constructor; simpl; lia. Qed.

Lemma tty_input_char_refines_witness :
  abs (tty_input_char 8 (tty_input_char 104 tty_init demo_sched).1.1 demo_sched).1.1 = ([], []).
Proof.
  pose proof (tty_input_char_refines 104 tty_init demo_sched tty_init_wf) as H1.
  destruct (tty_input_char 104 tty_init demo_sched) as [[t1 s1] o1]. destruct H1 as [Hw E1]. cbn [fst].
  pose proof (tty_input_char_refines 8 t1 demo_sched Hw) as H2.
  destruct (tty_input_char 8 t1 demo_sched) as [[t2 s2] o2]. destruct H2 as [_ E2]. cbn [fst].
  rewrite E2, E1. reflexivity.
Defined.

Lemma tty_read_correct_witness : ready tty_init = [].
Proof.
  pose proof (tty_read_correct 10 tty_init demo_sched tty_init_wf ltac:(lia)) as H. apply H.
Defined.

Lemma tty_line_roundtrip_witness :
  let '(t1, s1) := type_chars [104; 105; 10] tty_init demo_sched in
  (tty_read 64 t1 s1).2 = Some (3, [104; 105; 10]).
Proof.
  apply (tty_line_roundtrip [104; 105] tty_init demo_sched 64 tty_init_wf);
    [reflexivity|repeat constructor|simpl; lia|simpl; lia].
Defined.

Lemma keyboard_fifo_witness : kb_contents (kb_put 65 kbd_init) = [65].
Proof. apply (keyboard_fifo 65 kbd_init). constructor; vm_compute; done. Defined.

Lemma keyboard_ctrl_c_witness :
  let '(k1, t1, s1, _) := keyboard_handler 0 0x1D 100 kbd_init (tty_set_fg 4 tty_init) demo_sched in
  let '(_, t2, s2, o) := keyboard_handler 0 0x2E 110 k1 t1 s1 in
  (t2, s2, o) = (tty_set_fg 4 tty_init, signal_send 4 SIGINT demo_sched, []).
Proof.
  apply (keyboard_ctrl_c kbd_init (tty_set_fg 4 tty_init) demo_sched 100 110);
    [reflexivity|unfold MODIFIER_TIMEOUT_TICKS; lia|done].
Defined.

End Tty.
