(* ===== verification/Kheap.v ===== *)
(** * Kernel heap (kernel/memory/kheap.c)

    The first-fit free-list allocator.  Headers live in a memory map indexed by
    address and are linked through their [next] fields as in the C code; stale
    headers stay in the map.  The invariant describes the heap as a tiling of
    [heap_start, heap_end) by blocks, whose free members are exactly the free
    list in address order; the theorems give the effect of each operation on
    the tiling. *)

From stdpp Require Import prelude gmap.
From Stdlib Require Import ZArith Lia.
From S2P Require Import Prelude.
Local Open Scope Z_scope.

Module Kheap.

Definition KHEAP_START : Z := 0xFFFFFFFF90000000.
Definition KHEAP_SIZE : Z := 4 * 1024 * 1024.
Definition BLOCK_MAGIC_ALLOC : Z := 0xDEADBEEF.
Definition BLOCK_MAGIC_FREE : Z := 0xFBEEBEEF.
Definition BLOCK_HDR_SIZE : Z := 24.
Definition MIN_BLOCK_SIZE : Z := 16.

(** [struct kheap_block]; pointers are addresses, 0 is NULL. *)
Record kheap_block := mk_block { size : Z; next : Z; magic : Z }.

#[export] Instance eta_kheap_block : Eta kheap_block := fun b => mk_block (size b) (next b) (magic b).
#[export] Instance kheap_block_inhabited : Inhabited kheap_block := populate (mk_block 0 0 0).

Record kheap := mk_kheap {
  free_list : Z;
  heap_start : Z;
  heap_end : Z;
  mem : gmap Z kheap_block
}.

#[export] Instance eta_kheap : Eta kheap := fun h =>
  mk_kheap (free_list h) (heap_start h) (heap_end h) (mem h).

Definition hdr (h : kheap) (a : Z) : kheap_block := mem h !!! a.

Definition put (a : Z) (b : kheap_block) (h : kheap) : kheap := h <| mem ::= <[a := b]> |>.

Definition set_next (a v : Z) (h : kheap) : kheap := put a ((hdr h a) <| next := v |>) h.
Definition set_size (a v : Z) (h : kheap) : kheap := put a ((hdr h a) <| size := v |>) h.
Definition set_magic (a v : Z) (h : kheap) : kheap := put a ((hdr h a) <| magic := v |>) h.

(** [if (prev) prev->next = v; else free_list = v;] *)
Definition link (prev v : Z) (h : kheap) : kheap :=
  if prev =? 0 then h <| free_list := v |> else set_next prev v h.

(** Initialisation; [pages] are the results of the successive [pmm_alloc_page]
    calls, the second component the mappings made. *)
Fixpoint map_heap (pages : list Z) (addr limit : Z) : Z * list (Z * Z) :=
  match pages with
  | [] => (addr, [])
  | phys :: ps =>
      if limit <=? addr then (addr, [])
      else if phys =? 0 then (addr, [])
      else let '(e, m) := map_heap ps (addr + PAGE_SIZE) limit in (e, (addr, phys) :: m)
  end.

Definition kheap_init (pages : list Z) : kheap * list (Z * Z) :=
  let '(e, maps) := map_heap pages KHEAP_START (KHEAP_START + KHEAP_SIZE) in
  (mk_kheap KHEAP_START KHEAP_START e
     {[ KHEAP_START := mk_block (u64 (e - KHEAP_START - BLOCK_HDR_SIZE)) 0 BLOCK_MAGIC_FREE ]}, maps).

(** Take [cur] off the free list, splitting it if the rest can hold a block.
    [kmalloc] and [kmalloc_page_aligned] share these statements. *)
Definition take_block (sz prev cur : Z) (h : kheap) : kheap :=
  if u64 (sz + BLOCK_HDR_SIZE + MIN_BLOCK_SIZE) <=? size (hdr h cur) then
    let new_free := cur + BLOCK_HDR_SIZE + sz in
    let h := put new_free (mk_block (size (hdr h cur) - sz - BLOCK_HDR_SIZE) (next (hdr h cur))
                             BLOCK_MAGIC_FREE) h in
    let h := put cur (mk_block sz 0 BLOCK_MAGIC_ALLOC) h in
    link prev new_free h
  else
    let h := set_magic cur BLOCK_MAGIC_ALLOC h in
    let h := link prev (next (hdr h cur)) h in
    set_next cur 0 h.

(** The first-fit walk; [fuel] bounds the number of blocks visited. *)
Fixpoint kmalloc_walk (fuel : nat) (sz prev cur : Z) (h : kheap) : kheap * Z :=
  match fuel with
  | O => (h, 0)
  | S fuel' =>
      if cur =? 0 then (h, 0)
      else if negb (magic (hdr h cur) =? BLOCK_MAGIC_FREE) then (h, 0)
      else if sz <=? size (hdr h cur) then (take_block sz prev cur h, cur + BLOCK_HDR_SIZE)
      else kmalloc_walk fuel' sz cur (next (hdr h cur)) h
  end.

Definition walk_fuel (h : kheap) : nat := S (base.size (mem h)).

Definition kmalloc (sz : Z) (h : kheap) : kheap * Z :=
  if sz =? 0 then (h, 0)
  else kmalloc_walk (walk_fuel h) (Z.land (u64 (sz + 15)) (Z.lnot 15)) 0 (free_list h) h.

(** Where the aligned data of [cur] starts. *)
Definition aligned_data (cur : Z) : Z :=
  let data_start := cur + BLOCK_HDR_SIZE in
  let aligned := page_up data_start in
  let waste := aligned - data_start in
  if negb (waste =? 0) && (waste <? BLOCK_HDR_SIZE + MIN_BLOCK_SIZE)
  then aligned + PAGE_SIZE else aligned.

(** Carve the aligned block out of the middle of the free block [cur]. *)
Definition carve_aligned (sz cur : Z) (h : kheap) : kheap :=
  let aligned := aligned_data cur in
  let waste := aligned - (cur + BLOCK_HDR_SIZE) in
  let ab := aligned - BLOCK_HDR_SIZE in
  let h := put ab (mk_block sz 0 BLOCK_MAGIC_ALLOC) h in
  let remaining := size (hdr h cur) - waste - sz in
  let h := set_size cur (waste - BLOCK_HDR_SIZE) h in
  if BLOCK_HDR_SIZE + MIN_BLOCK_SIZE <=? remaining then
    let tail_free := ab + BLOCK_HDR_SIZE + sz in
    let h := put tail_free (mk_block (remaining - BLOCK_HDR_SIZE) (next (hdr h cur)) BLOCK_MAGIC_FREE) h in
    set_next cur tail_free h
  else set_size ab (sz + remaining) h.

Fixpoint aligned_walk (fuel : nat) (sz prev cur : Z) (h : kheap) : kheap * Z :=
  match fuel with
  | O => (h, 0)
  | S fuel' =>
      if cur =? 0 then (h, 0)
      else if negb (magic (hdr h cur) =? BLOCK_MAGIC_FREE) then (h, 0)
      else
        let aligned := aligned_data cur in
        let waste := aligned - (cur + BLOCK_HDR_SIZE) in
        if (waste =? 0) && (sz <=? size (hdr h cur)) then
          (take_block sz prev cur h, cur + BLOCK_HDR_SIZE)
        else if (BLOCK_HDR_SIZE + MIN_BLOCK_SIZE <=? waste) && (u64 (waste + sz) <=? size (hdr h cur)) then
          (carve_aligned sz cur h, aligned)
        else aligned_walk fuel' sz cur (next (hdr h cur)) h
  end.

Definition kmalloc_page_aligned (sz : Z) (h : kheap) : kheap * Z :=
  if sz =? 0 then (h, 0) else aligned_walk (walk_fuel h) (page_up sz) 0 (free_list h) h.

(** The insertion point of kfree: the last free block below [block] and the
    first one not below it. *)
Fixpoint insertion_point (fuel : nat) (block prev cur : Z) (h : kheap) : Z * Z :=
  match fuel with
  | O => (prev, cur)
  | S fuel' =>
      if negb (cur =? 0) && (cur <? block)
      then insertion_point fuel' block cur (next (hdr h cur)) h
      else (prev, cur)
  end.

Definition coalesce_next (block : Z) (h : kheap) : kheap :=
  let nx := next (hdr h block) in
  if negb (nx =? 0) && (u64 (block + BLOCK_HDR_SIZE + size (hdr h block)) =? nx) then
    let h := set_size block (u64 (size (hdr h block) + BLOCK_HDR_SIZE + size (hdr h nx))) h in
    set_next block (next (hdr h nx)) h
  else h.

Definition coalesce_prev (prev block : Z) (h : kheap) : kheap :=
  if negb (prev =? 0) && (magic (hdr h prev) =? BLOCK_MAGIC_FREE)
     && (u64 (prev + BLOCK_HDR_SIZE + size (hdr h prev)) =? block) then
    let h := set_size prev (u64 (size (hdr h prev) + BLOCK_HDR_SIZE + size (hdr h block))) h in
    set_next prev (next (hdr h block)) h
  else h.

Definition kfree (ptr : Z) (h : kheap) : kheap :=
  if ptr =? 0 then h else
  let block := u64 (ptr - BLOCK_HDR_SIZE) in
  if negb (magic (hdr h block) =? BLOCK_MAGIC_ALLOC) then h else
  let h := set_magic block BLOCK_MAGIC_FREE h in
  let '(prev, cur) := insertion_point (walk_fuel h) block 0 (free_list h) h in
  let h := set_next block cur h in
  let h := link prev block h in
  coalesce_prev prev block (coalesce_next block h).

(** ** The tiling *)

Record blk := mk_blk { b_addr : Z; b_size : Z; b_used : bool }.

Definition b_end (b : blk) : Z := b_addr b + BLOCK_HDR_SIZE + b_size b.

Fixpoint tiles (a e : Z) (l : list blk) : Prop :=
  match l with
  | [] => a = e
  | b :: l' => b_addr b = a /\ 0 <= b_size b /\ tiles (b_end b) e l'
  end.

Definition b_magic (b : blk) : Z := if b_used b then BLOCK_MAGIC_ALLOC else BLOCK_MAGIC_FREE.

(** The header in memory of a block. *)
Definition has_header (m : gmap Z kheap_block) (b : blk) : Prop :=
  exists nx, m !! b_addr b = Some (mk_block (b_size b) nx (b_magic b)).

Definition frees (l : list blk) : list Z := b_addr <$> filter (fun b => b_used b = false) l.

(** Following [next] from [p] visits [l] and ends at [q]. *)
Fixpoint fseg (m : gmap Z kheap_block) (p : Z) (l : list Z) (q : Z) : Prop :=
  match l with
  | [] => p = q
  | a :: l' => p = a /\ exists b, m !! a = Some b /\ fseg m (next b) l' q
  end.

Record heap_inv (h : kheap) (l : list blk) : Prop := mk_heap_inv {
  hi_lo : 0 < heap_start h;
  hi_hi : heap_end h + 65536 < 2 ^ 64;
  hi_tiles : tiles (heap_start h) (heap_end h) l;
  hi_hdr : Forall (has_header (mem h)) l;
  hi_free : fseg (mem h) (free_list h) (frees l) 0
}.

(** No two neighbours are both free. *)
Fixpoint coalesced (l : list blk) : bool :=
  match l with
  | b :: ((c :: _) as l') => (b_used b || b_used c) && coalesced l'
  | _ => true
  end.

(** What an allocation of [n] bytes makes of the free block [b]. *)
Definition carve (b : blk) (n : Z) : list blk :=
  if n + BLOCK_HDR_SIZE + MIN_BLOCK_SIZE <=? b_size b
  then [mk_blk (b_addr b) n true;
        mk_blk (b_addr b + BLOCK_HDR_SIZE + n) (b_size b - n - BLOCK_HDR_SIZE) false]
  else [mk_blk (b_addr b) (b_size b) true].

(** What freeing [b] between [l1] and [l2] makes of the tiling: it is merged with
    a free neighbour on either side. *)
Definition absorb_next (b : blk) (l2 : list blk) : list blk :=
  match l2 with
  | c :: l2' => if b_used c then b :: l2
                else mk_blk (b_addr b) (b_size b + BLOCK_HDR_SIZE + b_size c) false :: l2'
  | [] => [b]
  end.

Definition release (l1 : list blk) (b : blk) (l2 : list blk) : list blk :=
  match last l1, absorb_next (mk_blk (b_addr b) (b_size b) false) l2 with
  | Some p, c :: l2' =>
      if b_used p then l1 ++ c :: l2'
      else removelast l1 ++ mk_blk (b_addr p) (b_size p + BLOCK_HDR_SIZE + b_size c) false :: l2'
  | _, l2' => l1 ++ l2'
  end.

(** ** Tilings *)

Lemma tiles_app a e l1 l2 : tiles a e (l1 ++ l2) <-> exists m, tiles a m l1 /\ tiles m e l2.
Proof.
  revert a; induction l1 as [|b l1 IH]; intros a; simpl.
  - split; [intros H; by exists a|]. by intros (m & <- & H).
  - rewrite IH. naive_solver.
Qed.

Lemma tiles_bounds a e l :
  tiles a e l -> a <= e /\ Forall (fun b => a <= b_addr b /\ 0 <= b_size b /\ b_end b <= e) l.
Proof.
  revert a; induction l as [|b l IH]; intros a; simpl; [intros ->; split; [lia|constructor]|].
  intros (<- & Hs & Ht). destruct (IH _ Ht) as [Hle Hf]. unfold b_end, BLOCK_HDR_SIZE in *.
  split; [lia|]. constructor; [lia|]. eapply Forall_impl; [exact Hf|]. intros c Hc. simpl in Hc. lia.
Qed.

(** Blocks before and after a given one. *)
Lemma tiles_split a e l1 b l2 :
  tiles a e (l1 ++ b :: l2) ->
  a <= b_addr b /\ 0 <= b_size b /\ b_end b <= e /\
  (forall c, c ∈ l1 -> a <= b_addr c /\ 0 <= b_size c /\ b_end c <= b_addr b) /\
  (forall c, c ∈ l2 -> b_end b <= b_addr c /\ 0 <= b_size c /\ b_end c <= e).
Proof.
  intros (m & H1 & <- & Hs & H2)%tiles_app.
  destruct (tiles_bounds _ _ _ H1) as [Hm F1]. destruct (tiles_bounds _ _ _ H2) as [He F2].
  rewrite Forall_forall in F1, F2. naive_solver.
Qed.

Lemma frees_app l1 l2 : frees (l1 ++ l2) = frees l1 ++ frees l2.
Proof. unfold frees. by rewrite filter_app, fmap_app. Qed.

Lemma frees_cons b l : frees (b :: l) = if b_used b then frees l else b_addr b :: frees l.
Proof.
  unfold frees. rewrite filter_cons. destruct (b_used b) eqn:E.
  - by rewrite decide_False.
  - by rewrite decide_True.
Qed.

Lemma elem_of_frees a l : a ∈ frees l <-> exists b, b ∈ l /\ b_used b = false /\ b_addr b = a.
Proof. unfold frees. rewrite list_elem_of_fmap. setoid_rewrite list_elem_of_filter. naive_solver. Qed.

Lemma tiles_NoDup a e l : tiles a e l -> NoDup (b_addr <$> l).
Proof.
  revert a; induction l as [|b l IH]; intros a; simpl; [constructor|].
  intros (_ & Hs & Ht). apply NoDup_cons. split; [|by eapply IH].
  intros (c & E & Hc)%list_elem_of_fmap. destruct (tiles_bounds _ _ _ Ht) as [_ F].
  rewrite Forall_forall in F. specialize (F c Hc). unfold b_end, BLOCK_HDR_SIZE in F. lia.
Qed.

Lemma frees_NoDup a e l : tiles a e l -> NoDup (frees l).
Proof.
  intros H. eapply sublist_NoDup; [by eapply tiles_NoDup|]. unfold frees.
  apply fmap_sublist, sublist_filter.
Qed.

(** ** List segments *)

Lemma fseg_app m p l1 l2 q : fseg m p (l1 ++ l2) q <-> exists r, fseg m p l1 r /\ fseg m r l2 q.
Proof.
  revert p; induction l1 as [|a l1 IH]; intros p; simpl.
  - split; [intros H; by exists p|]. by intros (r & <- & H).
  - split.
    + intros (-> & b & Hb & (r & H1 & H2)%IH). naive_solver.
    + intros (r & (-> & b & Hb & H1) & H2). split; [done|]. exists b. split; [done|].
      apply IH. by exists r.
Qed.

Lemma fseg_ext m m' p l q :
  (forall a, a ∈ l -> (next <$> m' !! a) = (next <$> m !! a)) -> fseg m p l q -> fseg m' p l q.
Proof.
  revert p; induction l as [|a l IH]; intros p Hext; simpl; [done|].
  intros (-> & b & Hb & Hs). split; [done|].
  pose proof (Hext a ltac:(set_solver)) as E. rewrite Hb in E. simpl in E.
  apply fmap_Some in E as (b' & Hb' & En). exists b'. split; [done|]. rewrite <- En.
  apply IH; [|done]. intros c Hc. apply Hext. set_solver.
Qed.

Lemma fseg_lookup m p l q a : fseg m p l q -> a ∈ l -> exists b, m !! a = Some b.
Proof.
  revert p; induction l as [|c l IH]; intros p; simpl; [set_solver|].
  intros (-> & b & Hb & Hs) [->|Ha]%elem_of_cons; eauto.
Qed.

Lemma hdr_lookup h a b : mem h !! a = Some b -> hdr h a = b.
Proof. apply lookup_total_correct. Qed.

(** Redirecting the end of the segment [free_list .. prev]. *)
Lemma link_seg h l q prev v :
  fseg (mem h) (free_list h) l q -> NoDup l -> 0 ∉ l -> prev = default 0 (last l) ->
  fseg (mem (link prev v h)) (free_list (link prev v h)) l v.
Proof.
  intros Hs Hn H0 ->. destruct l as [|x l _] using rev_ind; [done|].
  rewrite last_snoc. simpl. unfold link. destruct (Z.eqb_spec x 0); [set_solver|].
  apply fseg_app in Hs as (r & Hs & (-> & b & Hb & Hq)). apply NoDup_app in Hn as (_ & Hn & _).
  apply fseg_app. exists x. split.
  - eapply fseg_ext; [|exact Hs]. intros a Ha. cbn. rewrite lookup_insert_ne; [done|].
    intros ->. apply (Hn a Ha). set_solver.
  - simpl. split; [done|]. eexists. rewrite lookup_insert_eq. split; done.
Qed.

(** What writes keep. *)
Lemma link_frame prev v h a :
  (prev = 0 \/ is_Some (mem h !! prev)) ->
  (a <> prev \/ prev = 0 -> mem (link prev v h) !! a = mem h !! a) /\
  (forall s n g, mem h !! a = Some (mk_block s n g) ->
     exists n', mem (link prev v h) !! a = Some (mk_block s n' g)).
Proof.
  intros Hp. unfold link. destruct (Z.eqb_spec prev 0) as [->|Hne].
  { split; [done|]. intros s n g E. by exists n. }
  destruct Hp as [|[b Hb]]; [done|]. unfold set_next. cbn. rewrite (hdr_lookup _ _ _ Hb). split.
  - intros [?|?]; [|done]. by rewrite lookup_insert_ne.
  - intros s n g E. destruct (decide (prev = a)) as [->|].
    + rewrite lookup_insert_eq. rewrite Hb in E. injection E as ->. eauto.
    + rewrite lookup_insert_ne by done. eauto.
Qed.

Lemma link_other prev v h :
  heap_start (link prev v h) = heap_start h /\ heap_end (link prev v h) = heap_end h.
Proof. unfold link. by destruct (prev =? 0). Qed.

Lemma has_header_link prev v h b :
  (prev = 0 \/ is_Some (mem h !! prev)) -> has_header (mem h) b -> has_header (mem (link prev v h)) b.
Proof. intros Hp [nx E]. by eapply link_frame. Qed.

Lemma has_header_insert m b a x : b_addr b <> a -> has_header m b -> has_header (<[a := x]> m) b.
Proof. intros Hne [nx E]. exists nx. by rewrite lookup_insert_ne. Qed.

(** ** Positions in the walk of the free list *)

Record at_pos (h : kheap) (l1 l2 : list blk) (prev cur : Z) : Prop := mk_at_pos {
  ap_inv : heap_inv h (l1 ++ l2);
  ap_prev : prev = default 0 (last (frees l1));
  ap_seg1 : fseg (mem h) (free_list h) (frees l1) cur;
  ap_seg2 : fseg (mem h) cur (frees l2) 0
}.

Lemma at_pos_start h l : heap_inv h l -> at_pos h [] l 0 (free_list h).
Proof. intros H. constructor; [done|done|done|apply H]. Qed.

Lemma at_pos_used h l1 b l2 prev cur :
  at_pos h l1 (b :: l2) prev cur -> b_used b = true -> at_pos h (l1 ++ [b]) l2 prev cur.
Proof.
  intros [H1 H2 H3 H4] Hu. rewrite frees_cons, Hu in H4.
  constructor; rewrite ?frees_app, ?frees_cons, ?Hu, ?app_nil_r; try done.
  by rewrite <- app_assoc.
Qed.

(** The header of a free block at the current position. *)
Lemma at_pos_free h l1 b l2 prev cur :
  at_pos h l1 (b :: l2) prev cur -> b_used b = false ->
  cur = b_addr b /\ cur <> 0 /\
  exists nx, mem h !! cur = Some (mk_block (b_size b) nx BLOCK_MAGIC_FREE) /\
             fseg (mem h) nx (frees l2) 0.
Proof.
  intros [H1 H2 H3 H4] Hu. rewrite frees_cons, Hu in H4. destruct H4 as (-> & x & Hx & Hs).
  split; [done|]. split.
  { pose proof (tiles_split _ _ _ _ _ (hi_tiles _ _ H1)) as (Ha & _). pose proof (hi_lo _ _ H1). lia. }
  pose proof (hi_hdr _ _ H1) as F. apply Forall_app in F as [_ F]. apply Forall_cons in F as [[nx E] _].
  rewrite Hx in E. injection E as ->. exists nx. split; [|done]. rewrite Hx. unfold b_magic. by rewrite Hu.
Qed.

Lemma at_pos_next h l1 b l2 prev cur :
  at_pos h l1 (b :: l2) prev cur -> b_used b = false ->
  at_pos h (l1 ++ [b]) l2 cur (next (hdr h cur)).
Proof.
  intros Hp Hu. destruct (at_pos_free _ _ _ _ _ _ Hp Hu) as (-> & Hne & nx & Hx & Hs).
  rewrite (hdr_lookup _ _ _ Hx). destruct Hp as [H1 H2 H3 H4].
  constructor; rewrite ?frees_app, ?frees_cons, ?Hu; change (frees []) with (@nil Z).
  - by rewrite <- app_assoc.
  - by rewrite last_snoc.
  - apply fseg_app. exists (b_addr b). split; [done|]. simpl. eauto.
  - done.
Qed.

Lemma tiles_det a e e' l : tiles a e l -> tiles a e' l -> e = e'.
Proof.
  revert a; induction l as [|b l IH]; intros a; simpl; [by intros -> ->|].
  intros (_ & _ & H1) (_ & _ & H2). by eapply IH.
Qed.

(** The predecessor of a position lies in front of it. *)
Lemma at_pos_prev_lo h l1 l2 prev cur lo :
  at_pos h l1 l2 prev cur -> tiles (heap_start h) lo l1 ->
  (prev = 0 /\ frees l1 = []) \/ (prev <> 0 /\ prev ∈ frees l1 /\ is_Some (mem h !! prev) /\ prev < lo).
Proof.
  intros [H1 H2 H3 H4] Hlo. destruct (frees l1) as [|x l _] eqn:E using rev_ind; [by left|]. right.
  rewrite last_snoc in H2. simpl in H2. subst prev.
  assert (x ∈ frees l1) as Hx by (rewrite E; set_solver).
  apply elem_of_frees in Hx as (c & Hc & Hu & <-).
  destruct (tiles_bounds _ _ _ Hlo) as [_ F]. rewrite Forall_forall in F.
  destruct (F c Hc) as (B1 & B2 & B3). pose proof (hi_lo _ _ H1). unfold b_end, BLOCK_HDR_SIZE in B3.
  split_and!; [lia|set_solver|eapply fseg_lookup; [exact H3|set_solver]|lia].
Qed.

Lemma at_pos_prev h l1 b l2 prev cur :
  at_pos h l1 (b :: l2) prev cur ->
  (prev = 0 /\ frees l1 = []) \/ (prev <> 0 /\ prev ∈ frees l1 /\ is_Some (mem h !! prev) /\ prev < b_addr b).
Proof.
  intros Hp. pose proof (hi_tiles _ _ (ap_inv _ _ _ _ _ Hp)) as (m & Ha & <- & _)%tiles_app.
  by eapply at_pos_prev_lo.
Qed.

(** Replacing a stretch of tiles and linking its first free block. *)
Lemma replace_segment h l1 bs l2 prev cur m' mids v q lo hi :
  at_pos h l1 (bs ++ l2) prev cur -> tiles (heap_start h) lo l1 -> tiles lo hi bs ->
  (forall a, a < lo \/ hi <= a -> m' !! a = mem h !! a) ->
  tiles lo hi mids -> Forall (has_header m') mids ->
  fseg m' v (frees mids) q -> fseg (mem h) q (frees l2) 0 ->
  heap_inv (link prev v (h <| mem := m' |>)) (l1 ++ mids ++ l2).
Proof.
  intros Hp Tl Tb Hm Ht Hh Hv Hq. pose proof (at_pos_prev_lo _ _ _ _ _ _ Hp Tl) as Hprev.
  destruct Hp as [H1 H2 H3 H4]. set (h' := h <| mem := m' |>).
  pose proof (hi_tiles _ _ H1) as (x & Tl' & (y & Tb' & Tr)%tiles_app)%tiles_app.
  rewrite <- (tiles_det _ _ _ _ Tl Tl') in Tb'. rewrite <- (tiles_det _ _ _ _ Tb Tb') in Tr.
  destruct (tiles_bounds _ _ _ Tl) as [_ TL]. destruct (tiles_bounds _ _ _ Ht) as [Hlohi TM].
  destruct (tiles_bounds _ _ _ Tr) as [_ TR]. rewrite Forall_forall in TL, TM, TR.
  pose proof (hi_hdr _ _ H1) as F. apply Forall_app in F as [F1 F2]. apply Forall_app in F2 as [_ F2].
  rewrite Forall_forall in F1, F2, Hh. unfold b_end, BLOCK_HDR_SIZE in TL, TM, TR.
  assert (prev = 0 \/ is_Some (mem h' !! prev)) as Hs.
  { destruct Hprev as [[? _]|(? & ? & Hx & ?)]; [by left|right]. simpl. rewrite Hm by lia. done. }
  destruct (link_other prev v h') as [Es Ee].
  assert (forall a, lo <= a -> mem (link prev v h') !! a = m' !! a) as Hge.
  { intros a Ha. apply (link_frame prev v h' a); [done|].
    destruct Hprev as [[? _]|(? & ? & ? & ?)]; [by right|left; lia]. }
  constructor; rewrite ?Es, ?Ee; try apply H1.
  - apply tiles_app. exists lo. split; [done|]. apply tiles_app. by exists hi.
  - rewrite !Forall_app, !Forall_forall. split_and!; intros c Hc.
    + apply has_header_link; [done|]. destruct (F1 c Hc) as [nx E]. exists nx. simpl.
      specialize (TL c Hc). rewrite Hm; [done|lia].
    + destruct (Hh c Hc) as [nx E]. exists nx. specialize (TM c Hc). rewrite Hge; [done|lia].
    + destruct (F2 c Hc) as [nx E]. exists nx. specialize (TR c Hc). rewrite Hge, Hm; [done|lia|lia].
  - rewrite !frees_app. apply fseg_app. exists v. split; [|apply fseg_app; exists q; split].
    + eapply link_seg; [|by eapply frees_NoDup| |exact H2].
      * simpl. eapply fseg_ext; [|exact H3]. intros a (c & Hc & _ & <-)%elem_of_frees.
        specialize (TL c Hc). rewrite Hm; [done|lia].
      * intros (c & Hc & _ & E)%elem_of_frees. specialize (TL c Hc). pose proof (hi_lo _ _ H1). lia.
    + eapply fseg_ext; [|exact Hv]. intros a (c & Hc & _ & <-)%elem_of_frees.
      specialize (TM c Hc). rewrite Hge; [done|lia].
    + eapply fseg_ext; [|exact Hq]. intros a (c & Hc & _ & <-)%elem_of_frees.
      specialize (TR c Hc). rewrite Hge, Hm; [done|lia|lia].
Qed.

Lemma replace_linked h l1 b l2 prev cur m' mids v q :
  at_pos h l1 (b :: l2) prev cur ->
  (forall a, a < b_addr b \/ b_end b <= a -> m' !! a = mem h !! a) ->
  tiles (b_addr b) (b_end b) mids -> Forall (has_header m') mids ->
  fseg m' v (frees mids) q -> fseg (mem h) q (frees l2) 0 ->
  heap_inv (link prev v (h <| mem := m' |>)) (l1 ++ mids ++ l2).
Proof.
  intros Hp. pose proof (hi_tiles _ _ (ap_inv _ _ _ _ _ Hp)) as (m & Ha & <- & Hb & _)%tiles_app.
  by apply (replace_segment h l1 [b] l2 prev cur m' mids v q (b_addr b) (b_end b)).
Qed.

(** ** Taking a block *)

Lemma set_next_link prev v a w h :
  prev <> a -> set_next a w (link prev v h) = link prev v (set_next a w h).
Proof.
  intros Hne. unfold link. destruct (prev =? 0); [done|].
  unfold set_next, put, hdr. cbn. rewrite !lookup_total_insert_ne by done. f_equal.
  by apply insert_insert_ne.
Qed.

Lemma hdr_put a b h : hdr (put a b h) a = b.
Proof. unfold hdr. cbn. by rewrite lookup_total_insert_eq. Qed.

Lemma hdr_put_ne a c b h : a <> c -> hdr (put a b h) c = hdr h c.
Proof. intros. unfold hdr. cbn. by rewrite lookup_total_insert_ne. Qed.

Lemma set_next_put a b v h : set_next a v (put a b h) = put a (b <| next := v |>) h.
Proof. unfold set_next. rewrite hdr_put. unfold put. cbn. by rewrite insert_insert_eq. Qed.

Lemma set_size_put a b v h : set_size a v (put a b h) = put a (b <| size := v |>) h.
Proof. unfold set_size. rewrite hdr_put. unfold put. cbn. by rewrite insert_insert_eq. Qed.

Lemma take_block_inv h l1 b l2 prev cur n :
  at_pos h l1 (b :: l2) prev cur -> b_used b = false -> 0 <= n <= b_size b ->
  heap_inv (take_block n prev cur h) (l1 ++ carve b n ++ l2).
Proof.
  intros Hp Hu Hn. pose proof (ap_inv _ _ _ _ _ Hp) as H1. pose proof (hi_hi _ _ H1) as Hhi.
  pose proof (at_pos_prev _ _ _ _ _ _ Hp) as Hprev.
  destruct (at_pos_free _ _ _ _ _ _ Hp Hu) as (-> & Hne & nx & Hx & Hs).
  pose proof (tiles_split _ _ _ _ _ (hi_tiles _ _ H1)) as (T1 & T2 & T3 & _).
  pose proof (hi_lo _ _ H1) as Hlo. unfold b_end, BLOCK_HDR_SIZE in T3.
  unfold take_block, carve. rewrite (hdr_lookup _ _ _ Hx). cbn [size next].
  unfold BLOCK_HDR_SIZE, MIN_BLOCK_SIZE. rewrite u64_small by lia.
  destruct (n + 24 + 16 <=? b_size b) eqn:E; b2p.
  - apply (replace_linked h l1 b l2 prev (b_addr b)
      (<[b_addr b := mk_block n 0 BLOCK_MAGIC_ALLOC]>
        (<[b_addr b + 24 + n := mk_block (b_size b - n - 24) nx BLOCK_MAGIC_FREE]> (mem h)))
      _ _ nx Hp).
    + unfold b_end, BLOCK_HDR_SIZE. intros a Ha. rewrite !lookup_insert_ne by lia. done.
    + simpl. unfold b_end, BLOCK_HDR_SIZE. simpl. lia.
    + repeat constructor; eexists; cbn.
      * by rewrite lookup_insert_eq.
      * rewrite lookup_insert_ne, lookup_insert_eq by lia. done.
    + rewrite !frees_cons. cbn. split; [done|]. eexists.
      rewrite lookup_insert_ne, lookup_insert_eq by lia. done.
    + done.
  - rewrite set_next_link by (destruct Hprev as [[-> _]|(_ & _ & _ & ?)]; lia).
    unfold set_magic. rewrite (hdr_lookup _ _ _ Hx), hdr_put, set_next_put. cbn [next].
    apply (replace_linked h l1 b l2 prev (b_addr b)
      (<[b_addr b := mk_block (b_size b) 0 BLOCK_MAGIC_ALLOC]> (mem h)) _ nx nx Hp).
    + unfold b_end, BLOCK_HDR_SIZE. intros a Ha. rewrite !lookup_insert_ne by lia. done.
    + simpl. unfold b_end, BLOCK_HDR_SIZE. simpl. lia.
    + repeat constructor. eexists. cbn. by rewrite lookup_insert_eq.
    + done.
    + done.
Qed.

(** ** Allocation *)

Definition fits (n : Z) (b : blk) : bool := negb (b_used b) && (n <=? b_size b).

(** First fit in [l2]: NULL and no change if no block passes [ok]; otherwise the
    first one that does is replaced by [cut b] and [ptr b] is returned. *)
Definition first_fit (ok : blk -> bool) (cut : blk -> list blk) (ptr : blk -> Z)
    (h : kheap) (l1 l2 : list blk) (r : kheap * Z) : Prop :=
  (r = (h, 0) /\ Forall (fun b => ok b = false) l2) \/
  (exists l3 b l4, l2 = l3 ++ b :: l4 /\ Forall (fun b => ok b = false) l3 /\ ok b = true /\
     r.2 = ptr b /\ heap_inv r.1 (l1 ++ l3 ++ cut b ++ l4)).

Lemma first_fit_skip ok cut ptr h l1 b l2 r :
  ok b = false -> first_fit ok cut ptr h (l1 ++ [b]) l2 r -> first_fit ok cut ptr h l1 (b :: l2) r.
Proof.
  intros Hb [(-> & F)|(l3 & c & l4 & -> & F & Hc & Hr & Hi)].
  - left. split; [done|by constructor].
  - right. exists (b :: l3), c, l4. split_and!; [done|by constructor|done|done|].
    by rewrite <- app_assoc in Hi.
Qed.

Lemma first_fit_here ok cut ptr h l1 b l2 h' :
  ok b = true -> heap_inv h' (l1 ++ cut b ++ l2) -> first_fit ok cut ptr h l1 (b :: l2) (h', ptr b).
Proof. intros Hb Hi. right. exists [], b, l2. by split_and!. Qed.

Definition data_of (b : blk) : Z := b_addr b + BLOCK_HDR_SIZE.

Lemma kmalloc_walk_spec h n : 0 <= n -> forall l2 l1 prev cur fuel,
  at_pos h l1 l2 prev cur -> (length (frees l2) < fuel)%nat ->
  first_fit (fits n) (fun b => carve b n) data_of h l1 l2 (kmalloc_walk fuel n prev cur h).
Proof.
  intros Hn. induction l2 as [|b l2 IH]; intros l1 prev cur fuel Hp Hf.
  { destruct fuel; [simpl in Hf; lia|]. destruct Hp as [_ _ _ ->]. left. by split_and!. }
  destruct (b_used b) eqn:Hu.
  - rewrite frees_cons, Hu in Hf. apply first_fit_skip; [unfold fits; by rewrite Hu|].
    by apply IH; [apply at_pos_used|].
  - destruct fuel as [|fuel]; [lia|]. rewrite frees_cons, Hu in Hf. simpl in Hf.
    destruct (at_pos_free _ _ _ _ _ _ Hp Hu) as (Hcur & Hne & nx & Hx & Hs).
    pose proof (at_pos_next _ _ _ _ _ _ Hp Hu) as Hp'. rewrite (hdr_lookup _ _ _ Hx) in Hp'.
    simpl. apply Z.eqb_neq in Hne. rewrite Hne, (hdr_lookup _ _ _ Hx). cbn [magic size next negb].
    rewrite Z.eqb_refl. cbn [negb]. destruct (n <=? b_size b) eqn:E.
    + rewrite Hcur at 2. apply first_fit_here; [unfold fits; by rewrite Hu, E|].
      apply take_block_inv; [done|done|b2p; lia].
    + apply first_fit_skip; [unfold fits; by rewrite Hu, E|]. apply IH; [done|lia].
Qed.

(** The walk visits each free block once, so the fuel is enough. *)
Lemma walk_fuel_enough h l : heap_inv h l -> (length (frees l) < walk_fuel h)%nat.
Proof.
  intros H. unfold walk_fuel. pose proof (frees_NoDup _ _ _ (hi_tiles _ _ H)) as Hn.
  rewrite <- (size_list_to_set (C := gset Z) (frees l)) by done.
  rewrite <- size_dom. apply Nat.lt_succ_r, subseteq_size. intros a Ha.
  apply elem_of_list_to_set in Ha. apply elem_of_dom.
  destruct (fseg_lookup _ _ _ _ _ (hi_free _ _ H) Ha) as [b Hb]. by exists b.
Qed.

Lemma round16_spec sz : 0 < sz <= 2 ^ 63 ->
  let n := Z.land (u64 (sz + 15)) (Z.lnot 15) in sz <= n < sz + 16 /\ n mod 16 = 0.
Proof.
  intros Hs n.
  assert (n = (sz + 15) - (sz + 15) mod 16) as ->; [|zsolve].
  unfold n. rewrite u64_small by lia. apply (land_lnot_ones (sz + 15) 4). lia.
Qed.

(** [kmalloc] is first fit on the heap tiling: it either returns NULL, when no
    free block is large enough, and changes nothing, or it returns the data of
    the first free block of at least the rounded size, which becomes used, with
    the rest split off as a new free block when it can hold one.  The heap stays
    a tiling whose free blocks are exactly the free list. *)
Theorem kmalloc_correct h l sz :
  heap_inv h l -> 0 < sz <= 2 ^ 63 ->
  let n := Z.land (u64 (sz + 15)) (Z.lnot 15) in
  sz <= n < sz + 16 /\ first_fit (fits n) (fun b => carve b n) data_of h [] l (kmalloc sz h).
Proof.
  intros Hi Hs n. destruct (round16_spec sz Hs) as [Hn _]. split; [done|].
  unfold kmalloc. destruct (sz =? 0) eqn:E; b2p; [lia|].
  apply (kmalloc_walk_spec h n ltac:(unfold n; lia)).
  - by apply at_pos_start.
  - by apply walk_fuel_enough.
Qed.

(** ** Page-aligned allocation *)

Definition waste (b : blk) : Z := aligned_data (b_addr b) - (b_addr b + BLOCK_HDR_SIZE).

Definition fits_aligned (n : Z) (b : blk) : bool := negb (b_used b) && (waste b + n <=? b_size b).

(** What an aligned allocation makes of the free block [b]. *)
Definition carve_al (b : blk) (n : Z) : list blk :=
  if waste b =? 0 then carve b n else
  let al := aligned_data (b_addr b) in
  let rest := b_size b - waste b - n in
  mk_blk (b_addr b) (waste b - BLOCK_HDR_SIZE) false ::
  if BLOCK_HDR_SIZE + MIN_BLOCK_SIZE <=? rest
  then [mk_blk (al - BLOCK_HDR_SIZE) n true; mk_blk (al + n) (rest - BLOCK_HDR_SIZE) false]
  else [mk_blk (al - BLOCK_HDR_SIZE) (n + rest) true].

Lemma aligned_data_spec a : 0 <= a -> a + 65536 < 2 ^ 64 ->
  let w := aligned_data a - (a + BLOCK_HDR_SIZE) in
  aligned_data a mod 4096 = 0 /\ (w = 0 \/ BLOCK_HDR_SIZE + MIN_BLOCK_SIZE <= w) /\ w < 8192.
Proof.
  intros Ha Hb. unfold aligned_data, BLOCK_HDR_SIZE, MIN_BLOCK_SIZE, PAGE_SIZE.
  unfold page_up. rewrite u64_small by lia. rewrite page_down_spec.
  set (d := a + 24) in *. simpl.
  destruct (negb _ && _) eqn:E; [|apply andb_false_iff in E as [E|E]]; b2p; zsolve.
Qed.

(** The predecessor already points to the current position. *)
Lemma link_noop h l1 b l2 prev cur m' :
  at_pos h l1 (b :: l2) prev cur -> (forall a, a < b_addr b -> m' !! a = mem h !! a) ->
  link prev cur (h <| mem := m' |>) = h <| mem := m' |>.
Proof.
  intros Hp Hm. pose proof (at_pos_prev _ _ _ _ _ _ Hp) as Hprev. destruct Hp as [_ H2 H3 _].
  unfold link. destruct Hprev as [[-> E]|(Hne & _ & _ & Hlt)].
  - rewrite E in H3. destruct h. cbn in *. by subst.
  - apply Z.eqb_neq in Hne as Hne'. rewrite Hne'.
    destruct (frees l1) as [|x l _] using rev_ind; [done|]. rewrite last_snoc in H2. simpl in H2. subst x.
    apply fseg_app in H3 as (r & _ & (_ & c & Hc & Hn)). cbn in Hn.
    rewrite <- Hm in Hc by done. unfold set_next, put.
    rewrite (hdr_lookup (h <| mem := m' |>) prev c) by done. destruct h, c. cbn in *. f_equal.
    subst cur. by apply insert_id.
Qed.

Lemma put_shadow a t x x' y h : put a x' (put t y (put a x h)) = put a x' (put t y h).
Proof.
  unfold put. cbn. f_equal. apply map_eq. intros i.
  destruct (decide (i = a)) as [->|]; [by rewrite !lookup_insert_eq|].
  rewrite !(lookup_insert_ne _ a) by done. destruct (decide (i = t)) as [->|].
  - by rewrite !lookup_insert_eq.
  - by rewrite !(lookup_insert_ne _ t), (lookup_insert_ne _ a) by done.
Qed.

Lemma put_comm a c x y h : a <> c -> put a x (put c y h) = put c y (put a x h).
Proof. intros. unfold put. cbn. f_equal. by apply insert_insert_ne. Qed.

Lemma carve_aligned_eq h b nx n :
  mem h !! b_addr b = Some (mk_block (b_size b) nx BLOCK_MAGIC_FREE) ->
  BLOCK_HDR_SIZE + MIN_BLOCK_SIZE <= waste b -> 0 <= n ->
  forall al rest, al = aligned_data (b_addr b) -> rest = b_size b - waste b - n ->
  carve_aligned n (b_addr b) h =
  if BLOCK_HDR_SIZE + MIN_BLOCK_SIZE <=? rest then
    put (b_addr b) (mk_block (waste b - BLOCK_HDR_SIZE) (al + n) BLOCK_MAGIC_FREE)
      (put (al + n) (mk_block (rest - BLOCK_HDR_SIZE) nx BLOCK_MAGIC_FREE)
        (put (al - BLOCK_HDR_SIZE) (mk_block n 0 BLOCK_MAGIC_ALLOC) h))
  else
    put (al - BLOCK_HDR_SIZE) (mk_block (n + rest) 0 BLOCK_MAGIC_ALLOC)
      (put (b_addr b) (mk_block (waste b - BLOCK_HDR_SIZE) nx BLOCK_MAGIC_FREE) h).
Proof.
  intros Hx Hw Hn al rest Hal Hr. unfold carve_aligned. rewrite <- Hal.
  assert (waste b = al - (b_addr b + 24)) as Ew by (unfold waste; by rewrite <- Hal).
  unfold BLOCK_HDR_SIZE, MIN_BLOCK_SIZE in *. rewrite <- Ew.
  rewrite (hdr_put_ne (al - 24) (b_addr b)), (hdr_lookup _ _ _ Hx) by lia. cbn [size].
  set (h1 := put (al - 24) _ h).
  assert (set_size (b_addr b) (waste b - 24) h1
          = put (b_addr b) (mk_block (waste b - 24) nx BLOCK_MAGIC_FREE) h1) as Es.
  { unfold set_size, h1. by rewrite (hdr_put_ne (al - 24)), (hdr_lookup _ _ _ Hx) by lia. }
  rewrite !Es, <- Hr. destruct (24 + 16 <=? rest) eqn:E; b2p.
  - rewrite hdr_put. cbn [next]. replace (al - 24 + 24 + n) with (al + n) by lia.
    unfold set_next. rewrite (hdr_put_ne (al + n)), hdr_put by lia. apply put_shadow.
  - unfold h1. rewrite (put_comm (b_addr b)) by lia. rewrite set_size_put. reflexivity.
Qed.

(** Replacing a tile whose first piece keeps its place in the free list. *)
Lemma replace_in_place h l1 b l2 prev m' mids q :
  at_pos h l1 (b :: l2) prev (b_addr b) ->
  (forall a, a < b_addr b \/ b_end b <= a -> m' !! a = mem h !! a) ->
  tiles (b_addr b) (b_end b) mids -> Forall (has_header m') mids ->
  fseg m' (b_addr b) (frees mids) q -> fseg (mem h) q (frees l2) 0 ->
  heap_inv (h <| mem := m' |>) (l1 ++ mids ++ l2).
Proof.
  intros Hp Hm Ht Hh Hv Hq.
  rewrite <- (link_noop h l1 b l2 prev (b_addr b) m' Hp) by (intros a Ha; apply Hm; lia).
  by eapply replace_linked.
Qed.

Lemma carve_aligned_inv h l1 b l2 prev cur n :
  at_pos h l1 (b :: l2) prev cur -> b_used b = false -> 0 <= n ->
  BLOCK_HDR_SIZE + MIN_BLOCK_SIZE <= waste b -> waste b + n <= b_size b ->
  heap_inv (carve_aligned n cur h) (l1 ++ carve_al b n ++ l2).
Proof.
  intros Hp Hu Hn Hw Hf. destruct (at_pos_free _ _ _ _ _ _ Hp Hu) as (-> & _ & nx & Hx & Hs).
  rewrite (carve_aligned_eq h b nx n Hx Hw Hn _ _ eq_refl eq_refl).
  unfold carve_al. replace (waste b =? 0) with false by (unfold BLOCK_HDR_SIZE, MIN_BLOCK_SIZE in Hw; lia).
  set (al := aligned_data (b_addr b)). set (rest := b_size b - waste b - n).
  assert (al = b_addr b + 24 + waste b) as Eal by (unfold waste, BLOCK_HDR_SIZE; fold al; lia).
  unfold BLOCK_HDR_SIZE, MIN_BLOCK_SIZE in *. destruct (24 + 16 <=? rest) eqn:E; b2p.
  - apply (replace_in_place h l1 b l2 prev
      (<[b_addr b := mk_block (waste b - 24) (al + n) BLOCK_MAGIC_FREE]>
        (<[al + n := mk_block (rest - 24) nx BLOCK_MAGIC_FREE]>
          (<[al - 24 := mk_block n 0 BLOCK_MAGIC_ALLOC]> (mem h)))) _ nx Hp); [..|exact Hs].
    + unfold b_end, BLOCK_HDR_SIZE. intros a Ha. rewrite !lookup_insert_ne by lia. done.
    + simpl. unfold b_end, BLOCK_HDR_SIZE. simpl. lia.
    + repeat constructor; eexists; cbn; [by rewrite lookup_insert_eq| |].
      * rewrite lookup_insert_ne, lookup_insert_ne, lookup_insert_eq by lia. done.
      * rewrite lookup_insert_ne, lookup_insert_eq by lia. done.
    + rewrite !frees_cons. cbn. split; [done|]. eexists. rewrite lookup_insert_eq.
      split; [done|]. cbn. split; [done|]. eexists.
      rewrite lookup_insert_ne, lookup_insert_eq by lia. done.
  - apply (replace_in_place h l1 b l2 prev
      (<[al - 24 := mk_block (n + rest) 0 BLOCK_MAGIC_ALLOC]>
        (<[b_addr b := mk_block (waste b - 24) nx BLOCK_MAGIC_FREE]> (mem h))) _ nx Hp); [..|exact Hs].
    + unfold b_end, BLOCK_HDR_SIZE. intros a Ha. rewrite !lookup_insert_ne by lia. done.
    + simpl. unfold b_end, BLOCK_HDR_SIZE. simpl. lia.
    + repeat constructor; eexists; cbn; [|by rewrite lookup_insert_eq].
      rewrite lookup_insert_ne, lookup_insert_eq by lia. done.
    + rewrite !frees_cons. cbn. split; [done|]. eexists.
      rewrite lookup_insert_ne, lookup_insert_eq by lia. done.
Qed.

Lemma waste_spec h l1 b l2 :
  heap_inv h (l1 ++ b :: l2) ->
  aligned_data (b_addr b) mod 4096 = 0 /\
  (waste b = 0 \/ BLOCK_HDR_SIZE + MIN_BLOCK_SIZE <= waste b) /\ waste b < 8192.
Proof.
  intros H. pose proof (tiles_split _ _ _ _ _ (hi_tiles _ _ H)) as (T1 & T2 & T3 & _).
  pose proof (hi_lo _ _ H). pose proof (hi_hi _ _ H). unfold b_end, BLOCK_HDR_SIZE in T3.
  apply aligned_data_spec; lia.
Qed.

Lemma aligned_walk_spec h n : 0 <= n <= 2 ^ 63 -> forall l2 l1 prev cur fuel,
  at_pos h l1 l2 prev cur -> (length (frees l2) < fuel)%nat ->
  first_fit (fits_aligned n) (fun b => carve_al b n) (fun b => aligned_data (b_addr b)) h l1 l2
    (aligned_walk fuel n prev cur h).
Proof.
  intros Hn. induction l2 as [|b l2 IH]; intros l1 prev cur fuel Hp Hf.
  { destruct fuel; [simpl in Hf; lia|]. destruct Hp as [_ _ _ ->]. left. by split_and!. }
  destruct (b_used b) eqn:Hu.
  - rewrite frees_cons, Hu in Hf. apply first_fit_skip; [unfold fits_aligned; by rewrite Hu|].
    by apply IH; [apply at_pos_used|].
  - destruct fuel as [|fuel]; [lia|]. rewrite frees_cons, Hu in Hf. simpl in Hf.
    destruct (at_pos_free _ _ _ _ _ _ Hp Hu) as (Hcur & Hne & nx & Hx & Hs).
    pose proof (at_pos_next _ _ _ _ _ _ Hp Hu) as Hp'. rewrite (hdr_lookup _ _ _ Hx) in Hp'.
    destruct (waste_spec _ _ _ _ (ap_inv _ _ _ _ _ Hp)) as (_ & Hw & Hw').
    simpl. apply Z.eqb_neq in Hne. rewrite Hne, (hdr_lookup _ _ _ Hx). cbn [magic size next negb].
    rewrite Z.eqb_refl. cbn [negb]. subst cur. fold (waste b).
    unfold BLOCK_HDR_SIZE, MIN_BLOCK_SIZE in Hw. rewrite (u64_small (waste b + n)) by lia.
    destruct (waste b =? 0) eqn:E0; b2p; cbn [andb].
    + assert (b_addr b + BLOCK_HDR_SIZE = aligned_data (b_addr b)) as Ea by (unfold waste in E0; lia).
      destruct (n <=? b_size b) eqn:E1.
      * rewrite Ea. apply first_fit_here; [unfold fits_aligned; by rewrite Hu, E0|].
        unfold carve_al. rewrite E0. apply take_block_inv; [done|done|b2p; lia].
      * rewrite E0. replace (BLOCK_HDR_SIZE + MIN_BLOCK_SIZE <=? 0) with false by done. cbn [andb].
        apply first_fit_skip; [unfold fits_aligned; by rewrite Hu, E0|]. apply IH; [done|lia].
    + replace (BLOCK_HDR_SIZE + MIN_BLOCK_SIZE <=? waste b) with true
        by (unfold BLOCK_HDR_SIZE, MIN_BLOCK_SIZE; lia). cbn [andb].
      destruct (waste b + n <=? b_size b) eqn:E1.
      * apply first_fit_here; [unfold fits_aligned; by rewrite Hu, E1|].
        eapply carve_aligned_inv; [done|done|lia|unfold BLOCK_HDR_SIZE, MIN_BLOCK_SIZE; lia|b2p; lia].
      * apply first_fit_skip; [unfold fits_aligned; by rewrite Hu, E1|]. apply IH; [done|lia].
Qed.

(** [kmalloc_page_aligned] takes the first free block that can hold the
    rounded size at a page-aligned address inside it, returns that aligned
    address, and leaves what is before and after it as free blocks; otherwise it
    returns NULL and changes nothing. *)
Theorem kmalloc_page_aligned_correct h l sz :
  heap_inv h l -> 0 < sz <= 2 ^ 62 ->
  sz <= page_up sz < sz + 4096 /\
  first_fit (fits_aligned (page_up sz)) (fun b => carve_al b (page_up sz))
    (fun b => aligned_data (b_addr b)) h [] l (kmalloc_page_aligned sz h) /\
  (kmalloc_page_aligned sz h).2 mod 4096 = 0.
Proof.
  intros Hi Hs. assert (sz <= page_up sz < sz + 4096) as Hn.
  { unfold page_up. rewrite u64_small, page_down_spec by lia. zsolve. }
  assert (first_fit (fits_aligned (page_up sz)) (fun b => carve_al b (page_up sz))
    (fun b => aligned_data (b_addr b)) h [] l (kmalloc_page_aligned sz h)) as Hff.
  { unfold kmalloc_page_aligned. destruct (sz =? 0) eqn:E; b2p; [lia|].
    apply aligned_walk_spec; [lia|by apply at_pos_start|by apply walk_fuel_enough]. }
  split_and!; [lia|lia|done|].
  destruct Hff as [[-> _]|(l3 & b & l4 & -> & _ & _ & -> & _)]; [done|].
  by apply (waste_spec h l3 b l4).
Qed.

(** ** Freeing *)

Lemma at_pos_intro h l1 l2 :
  heap_inv h (l1 ++ l2) -> exists cur, at_pos h l1 l2 (default 0 (last (frees l1))) cur.
Proof.
  intros H. pose proof (hi_free _ _ H) as Hf. rewrite frees_app in Hf.
  apply fseg_app in Hf as (cur & H1 & H2). by exists cur.
Qed.

Lemma insertion_point_spec h f block prev p cur fuel :
  fseg (mem h) p f cur -> (forall a, a ∈ f -> a <> 0 /\ a < block) ->
  (cur = 0 \/ block <= cur) -> (length f < fuel)%nat ->
  insertion_point fuel block prev p h = (default prev (last f), cur).
Proof.
  revert p prev fuel; induction f as [|a f IH]; intros p prev fuel Hs Hf Hc Hl;
    destruct fuel as [|fuel]; simpl in *; try lia.
  - subst p. by destruct (negb (cur =? 0) && (cur <? block)) eqn:E; [b2p; lia|].
  - destruct Hs as (-> & b & Hb & Hs). destruct (Hf a ltac:(set_solver)).
    replace (negb (a =? 0) && (a <? block)) with true by (symmetry; apply andb_true_iff; lia).
    rewrite (hdr_lookup _ _ _ Hb), (IH _ a) by (done || lia || (intros; apply Hf; set_solver)).
    change (a :: f) with ([a] ++ f). rewrite last_app. by destruct (last f).
Qed.

(** Two free neighbours become one. *)
Lemma merge_inv h l1 b c l2 nx :
  heap_inv h (l1 ++ b :: c :: l2) -> b_used b = false -> b_used c = false ->
  nx = next (hdr h (b_addr c)) ->
  heap_inv (put (b_addr b) (mk_block (b_size b + BLOCK_HDR_SIZE + b_size c) nx BLOCK_MAGIC_FREE) h)
    (l1 ++ mk_blk (b_addr b) (b_size b + BLOCK_HDR_SIZE + b_size c) false :: l2).
Proof.
  intros Hi Hb Hc ->. destruct (at_pos_intro _ _ _ Hi) as [cur Hp].
  destruct (at_pos_free _ _ _ _ _ _ Hp Hb) as (-> & _ & _).
  destruct (at_pos_free _ _ _ _ _ _ (at_pos_next _ _ _ _ _ _ Hp Hb) Hc) as (Ec & _ & nx & Hx & Hs).
  rewrite Ec in Hx. rewrite (hdr_lookup _ _ _ Hx). cbn [next].
  pose proof (hi_tiles _ _ Hi) as (m & Ta & <- & Hb0 & Hbc & Hc0 & Tc)%tiles_app.
  set (m' := <[b_addr b := mk_block (b_size b + BLOCK_HDR_SIZE + b_size c) nx BLOCK_MAGIC_FREE]> (mem h)).
  change (heap_inv (h <| mem := m' |>)
    (l1 ++ [mk_blk (b_addr b) (b_size b + BLOCK_HDR_SIZE + b_size c) false] ++ l2)).
  rewrite <- (link_noop h l1 b (c :: l2) _ (b_addr b) m' Hp)
    by (intros a Ha; unfold m'; by rewrite lookup_insert_ne by lia).
  apply (replace_segment h l1 [b; c] l2 _ (b_addr b) m' _ _ nx (b_addr b) (b_end c)); try done.
  - intros a Ha. unfold m'. unfold b_end, BLOCK_HDR_SIZE in *. by rewrite lookup_insert_ne by lia.
  - simpl. unfold b_end, BLOCK_HDR_SIZE in *. simpl. lia.
  - repeat constructor. eexists. unfold m'. cbn. by rewrite lookup_insert_eq.
  - rewrite frees_cons. cbn. split; [done|]. eexists. unfold m'. by rewrite lookup_insert_eq.
Qed.

Lemma coalesce_next_inv h l1 b l2 :
  heap_inv h (l1 ++ b :: l2) -> b_used b = false ->
  heap_inv (coalesce_next (b_addr b) h) (l1 ++ absorb_next b l2).
Proof.
  intros Hi Hb. destruct (at_pos_intro _ _ _ Hi) as [cur Hp].
  destruct (at_pos_free _ _ _ _ _ _ Hp Hb) as (-> & _ & nx & Hx & Hs).
  pose proof (tiles_split _ _ _ _ _ (hi_tiles _ _ Hi)) as (T1 & T2 & T3 & _ & TR).
  pose proof (hi_lo _ _ Hi) as Hlo. pose proof (hi_hi _ _ Hi) as Hhi.
  assert (u64 (b_addr b + BLOCK_HDR_SIZE + b_size b) = b_end b) as Eu
    by (unfold b_end, BLOCK_HDR_SIZE in *; by rewrite u64_small by lia).
  unfold coalesce_next. rewrite (hdr_lookup _ _ _ Hx). cbn [size next]. rewrite Eu.
  destruct l2 as [|c l2]; simpl.
  { simpl in Hs. by subst nx. }
  pose proof (hi_tiles _ _ Hi) as (m & _ & _ & _ & Ec & Hc0 & Tc)%tiles_app.
  destruct (b_used c) eqn:Hc.
  - rewrite frees_cons, Hc in Hs. destruct (frees l2) as [|x f] eqn:Ef; simpl in Hs; [by subst nx|].
    destruct Hs as [-> _]. assert (x ∈ frees l2) as (d & Hd & _ & <-)%elem_of_frees by (rewrite Ef; set_solver).
    destruct (tiles_bounds _ _ _ Tc) as [_ F]. rewrite Forall_forall in F. specialize (F d Hd).
    replace (b_end b =? b_addr d) with false by (unfold b_end, BLOCK_HDR_SIZE in *; lia).
    by rewrite andb_false_r.
  - rewrite frees_cons, Hc in Hs. destruct Hs as (-> & y & Hy & Hs).
    replace (negb (b_addr c =? 0) && (b_end b =? b_addr c)) with true
      by (symmetry; apply andb_true_iff; unfold b_end, BLOCK_HDR_SIZE in *; lia).
    unfold set_size. rewrite (hdr_lookup _ _ _ Hx). cbn [size].
    assert (hdr h (b_addr c) = mk_block (b_size c) (next y) BLOCK_MAGIC_FREE) as Eh.
    { pose proof (hi_hdr _ _ Hi) as F. apply Forall_app in F as [_ F]. apply Forall_cons in F as [_ F].
      apply Forall_cons in F as [[nc E] _]. unfold b_magic in E. rewrite Hc in E.
      rewrite (hdr_lookup _ _ _ Hy). rewrite Hy in E. by injection E as ->. }
    destruct (TR c ltac:(set_solver)) as (R1 & R2 & R3).
    rewrite (hdr_put_ne (b_addr b)) by (unfold b_end, BLOCK_HDR_SIZE in *; lia).
    rewrite Eh. cbn [size next].
    rewrite set_next_put. rewrite u64_small by (unfold b_end, BLOCK_HDR_SIZE in *; lia).
    apply (merge_inv h l1 b c l2); [done|done|done|by rewrite Eh].
Qed.

(** The last tile in front of [c], and the last free one. *)
Definition merge_prev (l1 : list blk) (c : blk) (l2 : list blk) : list blk :=
  match last l1 with
  | Some p => if b_used p then l1 ++ c :: l2
              else removelast l1 ++ mk_blk (b_addr p) (b_size p + BLOCK_HDR_SIZE + b_size c) false :: l2
  | None => l1 ++ c :: l2
  end.

Lemma header_of h l b : heap_inv h l -> b ∈ l ->
  exists nx, hdr h (b_addr b) = mk_block (b_size b) nx (b_magic b).
Proof.
  intros Hi Hb. pose proof (hi_hdr _ _ Hi) as F. rewrite Forall_forall in F.
  destruct (F b Hb) as [nx E]. exists nx. by apply hdr_lookup.
Qed.

Lemma coalesce_prev_inv h l1 c l2 :
  heap_inv h (l1 ++ c :: l2) -> b_used c = false ->
  heap_inv (coalesce_prev (default 0 (last (frees l1))) (b_addr c) h) (merge_prev l1 c l2).
Proof.
  intros Hi Hc. destruct l1 as [|p l0 _] using rev_ind; [done|].
  unfold merge_prev. rewrite last_snoc, removelast_last.
  pose proof (hi_lo _ _ Hi) as Hlo. pose proof (hi_hi _ _ Hi) as Hhi.
  rewrite <- app_assoc in Hi. simpl in Hi.
  pose proof (tiles_split _ _ _ _ _ (hi_tiles _ _ Hi)) as (T1 & T2 & T3 & TL & TR).
  destruct (TR c ltac:(set_solver)) as (R1 & R2 & R3).
  pose proof (hi_tiles _ _ Hi) as (m & _ & _ & _ & Ec & _)%tiles_app.
  unfold coalesce_prev. rewrite frees_app, frees_cons. destruct (b_used p) eqn:Hp.
  - rewrite app_nil_r, <- app_assoc. simpl.
    destruct (frees l0) as [|x f _] eqn:Ef using rev_ind; [done|]. rewrite last_snoc. simpl.
    assert (x ∈ frees l0) as (d & Hd & _ & <-)%elem_of_frees by (rewrite Ef; set_solver).
    destruct (header_of _ _ d Hi ltac:(set_solver)) as [nd Ed]. rewrite Ed. cbn [size magic].
    destruct (TL d Hd) as (B1 & B2 & B3). unfold b_end, BLOCK_HDR_SIZE in *. rewrite u64_small by lia.
    replace (b_addr d + 24 + b_size d =? b_addr c) with false by lia. by rewrite andb_false_r.
  - change (frees []) with (@nil Z). rewrite last_snoc. simpl.
    destruct (header_of _ _ p Hi ltac:(set_solver)) as [np Ep].
    destruct (header_of _ _ c Hi ltac:(set_solver)) as [nc Enc].
    unfold b_magic in Ep, Enc. rewrite Hp in Ep. rewrite Hc in Enc. rewrite Ep. cbn [size magic].
    rewrite Z.eqb_refl. unfold b_end, BLOCK_HDR_SIZE in *. rewrite u64_small by lia.
    replace (negb (b_addr p =? 0) && true && (b_addr p + 24 + b_size p =? b_addr c)) with true
      by (symmetry; rewrite !andb_true_iff; lia).
    unfold set_size. rewrite Ep, Enc, u64_small by (cbn [size]; lia).
    rewrite (hdr_put_ne (b_addr p)), Enc by lia. rewrite set_next_put. cbn [next].
    apply (merge_inv h l0 p c l2); [done|done|done|by rewrite Enc].
Qed.

Lemma insert_free_inv h l1 b l2 :
  heap_inv h (l1 ++ b :: l2) -> b_used b = true ->
  exists prev cur,
    insertion_point (walk_fuel (set_magic (b_addr b) BLOCK_MAGIC_FREE h)) (b_addr b) 0 (free_list h)
      (set_magic (b_addr b) BLOCK_MAGIC_FREE h) = (prev, cur) /\
    prev = default 0 (last (frees l1)) /\
    heap_inv (link prev (b_addr b) (set_next (b_addr b) cur (set_magic (b_addr b) BLOCK_MAGIC_FREE h)))
      (l1 ++ mk_blk (b_addr b) (b_size b) false :: l2).
Proof.
  intros Hi Hb. destruct (at_pos_intro _ _ _ Hi) as [cur Hp].
  pose proof (walk_fuel_enough _ _ Hi) as Hfuel. pose proof (hi_lo _ _ Hi) as Hlo.
  pose proof (tiles_split _ _ _ _ _ (hi_tiles _ _ Hi)) as (T1 & T2 & T3 & TL & TR).
  unfold b_end, BLOCK_HDR_SIZE in *.
  destruct (header_of _ _ b Hi ltac:(set_solver)) as [nb Eb].
  set (h1 := set_magic (b_addr b) BLOCK_MAGIC_FREE h).
  assert (fseg (mem h1) (free_list h) (frees l1) cur) as Hs1.
  { eapply fseg_ext; [|apply Hp]. intros a (c & Hc & _ & <-)%elem_of_frees. cbn.
    rewrite lookup_insert_ne; [done|]. specialize (TL c Hc). lia. }
  pose proof (ap_seg2 _ _ _ _ _ Hp) as Hs2. rewrite frees_cons, Hb in Hs2.
  exists (default 0 (last (frees l1))), cur. split_and!.
  - apply insertion_point_spec; [done| | |].
    + intros a (c & Hc & _ & <-)%elem_of_frees. specialize (TL c Hc). lia.
    + destruct (frees l2) as [|x f] eqn:Ef; simpl in Hs2; [by left|right]. destruct Hs2 as [-> _].
      assert (x ∈ frees l2) as (d & Hd & _ & <-)%elem_of_frees by (rewrite Ef; set_solver).
      specialize (TR d Hd). lia.
    + rewrite frees_app, length_app in Hfuel. unfold walk_fuel in *. cbn.
      rewrite map_size_insert. destruct (mem h !! b_addr b); unfold id; lia.
  - done.
  - unfold h1, set_magic. rewrite Eb, set_next_put. cbn.
    apply (replace_linked h l1 b l2 _ cur
      (<[b_addr b := mk_block (b_size b) cur BLOCK_MAGIC_FREE]> (mem h))
      [mk_blk (b_addr b) (b_size b) false] (b_addr b) cur Hp).
    + unfold b_end, BLOCK_HDR_SIZE. intros a Ha. rewrite !lookup_insert_ne by lia. done.
    + simpl. unfold b_end, BLOCK_HDR_SIZE. simpl. lia.
    + repeat constructor. eexists. cbn. by rewrite lookup_insert_eq.
    + rewrite frees_cons. cbn. split; [done|]. eexists. by rewrite lookup_insert_eq.
    + done.
Qed.

Lemma release_eq l1 b l2 :
  release l1 b l2 =
  match absorb_next (mk_blk (b_addr b) (b_size b) false) l2 with
  | c :: l2' => merge_prev l1 c l2'
  | [] => l1
  end.
Proof.
  unfold release, merge_prev. destruct (absorb_next _ l2) as [|c l2'] eqn:E.
  - destruct l2 as [|d l2]; simpl in E; [done|]. by destruct (b_used d).
  - by destruct (last l1).
Qed.

Lemma kfree_inv h l1 b l2 :
  heap_inv h (l1 ++ b :: l2) -> b_used b = true ->
  heap_inv (kfree (data_of b) h) (release l1 b l2).
Proof.
  intros Hi Hb. destruct (insert_free_inv _ _ _ _ Hi Hb) as (prev & cur & Ei & Ep & Hi2).
  destruct (header_of _ _ b Hi ltac:(set_solver)) as [nb Eb]. unfold b_magic in Eb. rewrite Hb in Eb.
  pose proof (tiles_split _ _ _ _ _ (hi_tiles _ _ Hi)) as (T1 & T2 & T3 & _).
  pose proof (hi_lo _ _ Hi). pose proof (hi_hi _ _ Hi). unfold b_end, BLOCK_HDR_SIZE in T3.
  unfold kfree, data_of. destruct (b_addr b + BLOCK_HDR_SIZE =? 0) eqn:E0; [unfold BLOCK_HDR_SIZE in E0; b2p; lia|].
  replace (u64 (b_addr b + BLOCK_HDR_SIZE - BLOCK_HDR_SIZE)) with (b_addr b)
    by (unfold BLOCK_HDR_SIZE; rewrite u64_small; lia).
  rewrite Eb. cbn [magic negb]. rewrite Z.eqb_refl. cbn [negb].
  change (free_list (set_magic (b_addr b) BLOCK_MAGIC_FREE h)) with (free_list h).
  rewrite Ei. pose proof (coalesce_next_inv _ _ _ _ Hi2 eq_refl) as Hi3. cbn [b_addr] in Hi3.
  rewrite release_eq. subst prev.
  set (b' := mk_blk (b_addr b) (b_size b) false) in *.
  assert (exists c l2', absorb_next b' l2 = c :: l2' /\ b_addr c = b_addr b /\ b_used c = false)
    as (c & l2' & Ea & Ec & Hc).
  { unfold absorb_next. destruct l2 as [|d l2]; [eauto|]. destruct (b_used d); eauto. }
  rewrite Ea in *. rewrite <- Ec. rewrite <- Ec in Hi3.
  by apply coalesce_prev_inv.
Qed.

(** [kfree] of a used block makes it free and merges it with its free
    neighbours on both sides; the heap stays a tiling whose free blocks are
    exactly the free list, in address order. *)
Theorem kfree_correct h l1 b l2 :
  heap_inv h (l1 ++ b :: l2) -> b_used b = true ->
  heap_inv (kfree (data_of b) h) (release l1 b l2).
Proof. apply kfree_inv. Qed.

(** ** Histories *)

(** The tiling of a heap is determined by its headers. *)
Lemma heap_inv_unique h l l' : heap_inv h l -> heap_inv h l' -> l = l'.
Proof.
  intros [_ _ T F _] [_ _ T' F' _]. revert T F T' F'. generalize (heap_start h) as a.
  revert l'. induction l as [|b l IH]; intros [|b' l'] a; simpl; try done.
  - intros ? _ (? & ? & T') _. destruct (tiles_bounds _ _ _ T') as [? _].
    unfold b_end, BLOCK_HDR_SIZE in *. lia.
  - intros (? & ? & T) _ ? _. destruct (tiles_bounds _ _ _ T) as [? _].
    unfold b_end, BLOCK_HDR_SIZE in *. lia.
  - intros (Ha & _ & T) [Hb F]%Forall_cons (Ha' & _ & T') [Hb' F']%Forall_cons.
    assert (b = b') as <-; [|f_equal; eauto].
    destruct Hb as [nx E], Hb' as [nx' E']. destruct b as [x y u], b' as [x' y' u']. cbn in *. subst.
    rewrite E in E'. injection E' as -> _ Em. f_equal. unfold b_magic in Em. cbn in Em.
    by destruct u, u'.
Qed.

Definition live (h : kheap) (p : Z) : Prop :=
  exists l b, heap_inv h l /\ b ∈ l /\ b_used b = true /\ p = data_of b.

(** Everything that happens to the heap: allocation, release of live blocks,
    calls of [kfree] that it rejects, and writes of the clients anywhere but in
    the headers of the current blocks. *)
Inductive heap_reach : kheap -> Prop :=
| hr_init pages :
    PAGE_SIZE <= heap_end (kheap_init pages).1 - KHEAP_START -> heap_reach (kheap_init pages).1
| hr_kmalloc h sz : heap_reach h -> 0 < sz <= 2 ^ 63 -> heap_reach (kmalloc sz h).1
| hr_aligned h sz : heap_reach h -> 0 < sz <= 2 ^ 62 -> heap_reach (kmalloc_page_aligned sz h).1
| hr_kfree h p : heap_reach h -> live h p -> heap_reach (kfree p h)
| hr_write h m' :
    heap_reach h -> (forall l b, heap_inv h l -> b ∈ l -> m' !! b_addr b = mem h !! b_addr b) ->
    heap_reach (h <| mem := m' |>).

Definition junction (l1 l2 : list blk) : bool :=
  match last l1, head l2 with Some p, Some q => b_used p || b_used q | _, _ => true end.

Lemma coalesced_app l1 l2 : coalesced (l1 ++ l2) = coalesced l1 && coalesced l2 && junction l1 l2.
Proof.
  induction l1 as [|b l1 IH]; [by rewrite andb_true_r|].
  destruct l1 as [|c l1].
  - destruct l2 as [|q l2]; [done|]. cbn. by rewrite andb_comm.
  - change (coalesced ((b :: c :: l1) ++ l2)) with ((b_used b || b_used c) && coalesced ((c :: l1) ++ l2)).
    rewrite IH. change (junction (b :: c :: l1) l2) with (junction (c :: l1) l2).
    change (coalesced (b :: c :: l1)) with ((b_used b || b_used c) && coalesced (c :: l1)).
    by rewrite !andb_assoc.
Qed.

Ltac bool_cases l1 l2 :=
  destruct (last l1), (head l2), (coalesced l1), (coalesced l2); cbn;
  repeat match goal with |- context [b_used ?x] => destruct (b_used x) end; done.

Lemma coalesced_carve l1 b n l2 :
  b_used b = false -> coalesced (l1 ++ b :: l2) = true -> coalesced (l1 ++ carve b n ++ l2) = true.
Proof.
  intros Hb. change (b :: l2) with ([b] ++ l2). rewrite !coalesced_app. unfold carve, junction.
  case_if; cbn; rewrite ?Hb; bool_cases l1 l2.
Qed.

Lemma coalesced_carve_al l1 b n l2 :
  b_used b = false -> coalesced (l1 ++ b :: l2) = true -> coalesced (l1 ++ carve_al b n ++ l2) = true.
Proof.
  intros Hb H. unfold carve_al. destruct (waste b =? 0); [by apply coalesced_carve|].
  revert H. change (b :: l2) with ([b] ++ l2). rewrite !coalesced_app. unfold junction.
  case_if; cbn; rewrite ?Hb; bool_cases l1 l2.
Qed.

Lemma coalesced_absorb b l2 : b_used b = true -> coalesced (b :: l2) = true ->
  exists c l2', absorb_next (mk_blk (b_addr b) (b_size b) false) l2 = c :: l2' /\ b_used c = false /\
    coalesced (c :: l2') = true.
Proof.
  intros Hb. destruct l2 as [|c l2]; [eauto|]. cbn [absorb_next coalesced]. rewrite Hb. intros H.
  destruct (b_used c) eqn:Hc; do 2 eexists; (split; [done|]); (split; [done|]).
  - cbn [coalesced b_used]. by rewrite Hc.
  - destruct l2 as [|d l2]; [done|]. exact H.
Qed.

Lemma coalesced_release l1 b l2 :
  b_used b = true -> coalesced (l1 ++ b :: l2) = true -> coalesced (release l1 b l2) = true.
Proof.
  intros Hb. rewrite coalesced_app. intros H. b2p.
  destruct (coalesced_absorb b l2 Hb) as (c & l2' & Ea & Hc & Hcc); [done|].
  rewrite release_eq, Ea. unfold merge_prev.
  destruct l1 as [|p l1 _] using rev_ind; [done|]. rewrite last_snoc, removelast_last.
  destruct (b_used p) eqn:Hp.
  - rewrite coalesced_app. apply andb_true_iff. split; [by apply andb_true_iff|].
    unfold junction. rewrite last_snoc. cbn. by rewrite Hp.
  - match goal with H : coalesced (l1 ++ [p]) = true |- _ => rewrite coalesced_app in H end. b2p.
    rewrite coalesced_app. apply andb_true_iff. split; [apply andb_true_iff; split; [done|]|].
    + destruct l2' as [|d l2']; [done|]. cbn in *. by rewrite Hc in Hcc.
    + unfold junction in *. destruct (last l1); [|done]. cbn in *. by rewrite Hp in *.
Qed.

Lemma map_heap_end pages a lim :
  a <= lim -> lim - a <= 4096 * Z.of_nat (Z.to_nat ((lim - a) / 4096)) ->
  a <= (map_heap pages a lim).1 <= lim.
Proof.
  revert a; induction pages as [|p ps IH]; intros a Ha Hm; simpl; [lia|].
  destruct (lim <=? a) eqn:E; b2p; simpl; [lia|]. destruct (p =? 0); simpl; [lia|].
  unfold PAGE_SIZE in *. specialize (IH (a + 4096)).
  destruct (map_heap ps (a + 4096) lim) as [e m]. simpl in *.
  assert (a + 4096 <= lim /\ lim - (a + 4096) <= 4096 * Z.of_nat (Z.to_nat ((lim - (a + 4096)) / 4096))).
  { rewrite Z2Nat.id in * by zsolve. zsolve. }
  lia.
Qed.

Lemma kheap_init_inv pages :
  PAGE_SIZE <= heap_end (kheap_init pages).1 - KHEAP_START ->
  exists b, heap_inv (kheap_init pages).1 [b] /\ b_used b = false.
Proof.
  unfold kheap_init. pose proof (map_heap_end pages KHEAP_START (KHEAP_START + KHEAP_SIZE)) as H.
  destruct (map_heap _ _ _) as [e maps]. simpl in *. unfold PAGE_SIZE, KHEAP_SIZE, KHEAP_START in *.
  specialize (H ltac:(lia) ltac:(vm_compute; done)). intros He.
  exists (mk_blk 0xFFFFFFFF90000000 (e - 0xFFFFFFFF90000000 - 24) false). split; [|done].
  unfold BLOCK_HDR_SIZE. rewrite u64_small by lia. constructor; simpl; try lia.
  - unfold b_end, BLOCK_HDR_SIZE. simpl. lia.
  - repeat constructor. eexists. cbn. by rewrite lookup_singleton_eq.
  - split; [done|]. eexists. by rewrite lookup_singleton_eq.
Qed.

(** C4: whatever the history of allocations, releases of live blocks and client
    writes that stay off the headers, the heap is a tiling whose free blocks
    are the free list, and no two neighbouring blocks are both free. *)
Theorem heap_history h :
  heap_reach h -> exists l, heap_inv h l /\ coalesced l = true.
Proof.
  induction 1 as [pages Hp|h sz _ (l & Hi & Hc) Hs|h sz _ (l & Hi & Hc) Hs|h p _ (l & Hi & Hc) Hl
    |h m' _ (l & Hi & Hc) Hm].
  - destruct (kheap_init_inv pages Hp) as (b & Hi & _). by exists [b].
  - unfold kmalloc. destruct (sz =? 0) eqn:E; [by exists l|]. destruct (round16_spec sz Hs) as [Hn _].
    destruct (kmalloc_walk_spec h (Z.land (u64 (sz + 15)) (Z.lnot 15)) ltac:(lia) l [] 0 (free_list h) (walk_fuel h))
      as [[-> _]|(l3 & b & l4 & -> & _ & Hf & _ & Hi')];
      [by apply at_pos_start|by apply walk_fuel_enough|by exists l|].
    eexists. split; [exact Hi'|]. apply coalesced_carve; [unfold fits in Hf; by b2p|done].
  - unfold kmalloc_page_aligned. destruct (sz =? 0) eqn:E; [by exists l|].
    assert (sz <= page_up sz < sz + 4096) as Hn
      by (unfold page_up; rewrite u64_small, page_down_spec by lia; zsolve).
    destruct (aligned_walk_spec h (page_up sz) ltac:(lia) l [] 0 (free_list h) (walk_fuel h))
      as [[-> _]|(l3 & b & l4 & -> & _ & Hf & _ & Hi')];
      [by apply at_pos_start|by apply walk_fuel_enough|by exists l|].
    eexists. split; [exact Hi'|]. apply coalesced_carve_al; [unfold fits_aligned in Hf; by b2p|done].
  - destruct Hl as (l' & b & Hi' & Hb & Hu & ->). rewrite <- (heap_inv_unique _ _ _ Hi Hi') in Hb.
    apply list_elem_of_split in Hb as (l1 & l2 & ->). eexists.
    split; [by apply kfree_inv|by apply coalesced_release].
  - exists l. split; [|done]. pose proof Hi as [H1 H2 H3 H4 H5]. constructor; try done.
    + rewrite Forall_forall in H4 |- *. intros b Hb. destruct (H4 b Hb) as [nx E]. exists nx. cbn.
      by rewrite (Hm l b).
    + cbn. eapply fseg_ext; [|exact H5]. intros a (b & Hb & _ & <-)%elem_of_frees.
      by rewrite (Hm l b).
Qed.

(** The contract of a successful [kmalloc]: the [sz] bytes at the returned
    address lie inside the heap, do not meet the data or the header of any block
    in use, and belong to a block that is now in use. *)
Theorem kmalloc_fresh h l sz h' p :
  heap_inv h l -> 0 < sz <= 2 ^ 63 -> kmalloc sz h = (h', p) -> p <> 0 ->
  heap_start h + BLOCK_HDR_SIZE <= p /\ p + sz <= heap_end h /\
  (forall c, c ∈ l -> b_used c = true -> p + sz <= b_addr c \/ b_end c <= p - BLOCK_HDR_SIZE) /\
  live h' p.
Proof.
  intros Hi Hs Ek Hp. destruct (round16_spec sz Hs) as [Hn _]. unfold kmalloc in Ek.
  destruct (sz =? 0) eqn:E; b2p; [lia|].
  destruct (kmalloc_walk_spec h (Z.land (u64 (sz + 15)) (Z.lnot 15)) ltac:(lia) l [] 0 (free_list h) (walk_fuel h))
    as [[E0 _]|(l3 & b & l4 & -> & _ & Hf & Hr & Hi')];
    [by apply at_pos_start|by apply walk_fuel_enough|congruence|].
  rewrite Ek in Hr, Hi'. cbn in Hr, Hi'. subst p.
  pose proof (tiles_split _ _ _ _ _ (hi_tiles _ _ Hi)) as (T1 & T2 & T3 & TL & TR).
  unfold fits in Hf. b2p. unfold data_of, b_end, BLOCK_HDR_SIZE in *. split_and!; [lia|lia| |].
  - intros c [Hc|[->|Hc]%elem_of_cons]%elem_of_app Hu; [specialize (TL c Hc); lia|congruence|].
    specialize (TR c Hc). lia.
  - unfold carve in Hi'. destruct (_ <=? _);
      (eexists _, (mk_blk (b_addr b) _ true); split; [exact Hi'|]; split; [|done];
       apply elem_of_app; right; apply elem_of_cons; left; reflexivity).
Qed.

(** Relinking and resizing keep every magic number. *)
Lemma magic_put a b h c : magic b = magic (hdr h a) -> magic (hdr (put a b h) c) = magic (hdr h c).
Proof.
  intros E. destruct (decide (a = c)) as [->|]; [by rewrite hdr_put|by rewrite hdr_put_ne].
Qed.

Lemma magic_link prev v h c : magic (hdr (link prev v h) c) = magic (hdr h c).
Proof. unfold link. destruct (prev =? 0); [done|]. by apply magic_put. Qed.

Lemma magic_coalesce_next a h c : magic (hdr (coalesce_next a h) c) = magic (hdr h c).
Proof.
  unfold coalesce_next. destruct (_ && _); [|done].
  etransitivity; [by apply magic_put|by apply magic_put].
Qed.

Lemma magic_coalesce_prev p a h c : magic (hdr (coalesce_prev p a h) c) = magic (hdr h c).
Proof.
  unfold coalesce_prev. destruct (_ && _); [|done].
  etransitivity; [by apply magic_put|by apply magic_put].
Qed.

(** Freeing the same pointer twice in a row is detected: the second call
    leaves the heap exactly as the first did. *)
Theorem kfree_twice h l1 b l2 :
  heap_inv h (l1 ++ b :: l2) -> b_used b = true ->
  kfree (data_of b) (kfree (data_of b) h) = kfree (data_of b) h.
Proof.
  intros Hi Hb.
  pose proof (tiles_split _ _ _ _ _ (hi_tiles _ _ Hi)) as (T1 & T2 & T3 & _).
  pose proof (hi_lo _ _ Hi). pose proof (hi_hi _ _ Hi). unfold b_end in T3.
  assert (u64 (data_of b - BLOCK_HDR_SIZE) = b_addr b) as Eu
    by (unfold data_of, BLOCK_HDR_SIZE in *; rewrite u64_small; lia).
  assert (magic (hdr (kfree (data_of b) h) (b_addr b)) <> BLOCK_MAGIC_ALLOC) as Hm.
  { unfold kfree. destruct (data_of b =? 0) eqn:E; [unfold data_of, BLOCK_HDR_SIZE in *; b2p; lia|].
    rewrite Eu. destruct (magic (hdr h (b_addr b)) =? BLOCK_MAGIC_ALLOC) eqn:Em; cbn [negb]; [|by b2p].
    destruct (insertion_point _ _ _ _ _) as [prev cur].
    rewrite magic_coalesce_prev, magic_coalesce_next, magic_link.
    unfold set_next. rewrite hdr_put. unfold set_magic. by rewrite hdr_put. }
  unfold kfree at 1. destruct (data_of b =? 0); [done|]. rewrite Eu.
  apply Z.eqb_neq in Hm. by rewrite Hm.
Qed.

(** The rounding of the size can wrap around: a request within 15 bytes of
    2^64 succeeds on any heap with a free block and yields a block with fewer
    than 40 usable bytes. *)
Theorem kmalloc_size_wraps h l b sz :
  heap_inv h l -> b ∈ l -> b_used b = false -> 2 ^ 64 - 15 <= sz < 2 ^ 64 ->
  (kmalloc sz h).2 <> 0 /\ size (hdr (kmalloc sz h).1 ((kmalloc sz h).2 - BLOCK_HDR_SIZE)) < 40.
Proof.
  intros Hi Hb Hu Hs. unfold kmalloc. destruct (sz =? 0) eqn:E; b2p; [lia|].
  assert (Z.land (u64 (sz + 15)) (Z.lnot 15) = 0) as ->.
  { replace (u64 (sz + 15)) with (sz + 15 - 2 ^ 64) by zsolve.
    rewrite (land_lnot_ones _ 4) by lia. rewrite Z.mod_small; lia. }
  destruct (kmalloc_walk_spec h 0 ltac:(lia) l [] 0 (free_list h) (walk_fuel h))
    as [[_ F]|(l3 & c & l4 & -> & _ & Hf & Hr & Hi')];
    [by apply at_pos_start|by apply walk_fuel_enough| |].
  - rewrite Forall_forall in F. specialize (F b Hb). unfold fits in F. rewrite Hu in F. cbn in F.
    destruct (tiles_bounds _ _ _ (hi_tiles _ _ Hi)) as [_ F']. rewrite Forall_forall in F'.
    specialize (F' b Hb). b2p. lia.
  - rewrite Hr. unfold data_of.
    pose proof (tiles_split _ _ _ _ _ (hi_tiles _ _ Hi)) as (T1 & T2 & T3 & _).
    pose proof (hi_lo _ _ Hi). split; [unfold BLOCK_HDR_SIZE; lia|].
    replace (b_addr c + BLOCK_HDR_SIZE - BLOCK_HDR_SIZE) with (b_addr c) by lia.
    unfold carve, BLOCK_HDR_SIZE, MIN_BLOCK_SIZE in Hi'. cbn [app] in Hi'.
    destruct (0 + 24 + 16 <=? b_size c) eqn:Ec; b2p.
    + destruct (header_of _ _ (mk_blk (b_addr c) 0 true) Hi' ltac:(set_solver)) as [nx En].
      cbn [b_addr b_size] in En. by rewrite En.
    + destruct (header_of _ _ (mk_blk (b_addr c) (b_size c) true) Hi' ltac:(set_solver)) as [nx En].
      cbn [b_addr b_size] in En. rewrite En. cbn [size]. lia.
Qed.

(** ** Concrete runs: a heap of one page *)

Definition demo_heap : kheap := (kheap_init [4096]).1.

Definition demo_blk : blk := mk_blk KHEAP_START 4072 false.

Lemma demo_heap_inv : heap_inv demo_heap [demo_blk].
Proof.
  constructor; [vm_compute; done..| |].
  - repeat constructor. exists 0. reflexivity.
  - split; [done|]. eexists. split; reflexivity.
Qed.

Definition demo_heap2 : kheap := (kmalloc 100 demo_heap).1.

Lemma demo_heap2_inv :
  heap_inv demo_heap2 [mk_blk KHEAP_START 112 true; mk_blk (KHEAP_START + 136) 3936 false].
Proof.
  constructor; [vm_compute; done..| |].
  - repeat constructor; eexists; vm_compute; reflexivity.
  - vm_compute. split; [done|]. eexists. split; reflexivity.
Qed.

(** The allocator does not align its results to 16 bytes: the first block of a
    fresh heap starts at an address that is 8 modulo 16. *)
Theorem kmalloc_result_not_16_aligned : (kmalloc 64 demo_heap).2 mod 16 = 8.
Proof. vm_compute. reflexivity. Qed.

Lemma kmalloc_correct_witness :
  first_fit (fits 112) (fun b => carve b 112) data_of demo_heap [] [demo_blk] (kmalloc 100 demo_heap).
Proof. apply (kmalloc_correct demo_heap [demo_blk] 100 demo_heap_inv). lia. Defined.

Lemma kmalloc_page_aligned_correct_witness : (kmalloc_page_aligned 10 demo_heap).2 mod 4096 = 0.
Proof. apply (kmalloc_page_aligned_correct demo_heap [demo_blk] 10 demo_heap_inv). lia. Defined.

Lemma kmalloc_fresh_witness : live demo_heap2 (KHEAP_START + 24).
Proof.
  apply (kmalloc_fresh demo_heap [demo_blk] 100 demo_heap2 (KHEAP_START + 24) demo_heap_inv);
    [lia|vm_compute; reflexivity|done].
Defined.

Lemma kfree_correct_witness : heap_inv (kfree (KHEAP_START + 24) demo_heap2) [demo_blk].
Proof.
  apply (kfree_correct demo_heap2 [] (mk_blk KHEAP_START 112 true)
    [mk_blk (KHEAP_START + 136) 3936 false] demo_heap2_inv). reflexivity.
Defined.

Lemma kfree_twice_witness :
  kfree (KHEAP_START + 24) (kfree (KHEAP_START + 24) demo_heap2) = kfree (KHEAP_START + 24) demo_heap2.
Proof.
  apply (kfree_twice demo_heap2 [] (mk_blk KHEAP_START 112 true)
    [mk_blk (KHEAP_START + 136) 3936 false] demo_heap2_inv). reflexivity.
Defined.

Lemma heap_history_witness : exists l, heap_inv demo_heap2 l /\ coalesced l = true.
Proof.
  apply (heap_history demo_heap2). apply hr_kmalloc; [|lia]. apply hr_init. vm_compute. done.
Defined.

Lemma kmalloc_size_wraps_witness : (kmalloc (2 ^ 64 - 1) demo_heap).2 <> 0.
Proof.
  apply (kmalloc_size_wraps demo_heap [demo_blk] demo_blk (2 ^ 64 - 1) demo_heap_inv);
    [set_solver|reflexivity|lia].
Defined.

End Kheap.
