(* ===== verification/Vm.v ===== *)
(** * Virtual memory (memory/vmm.c, user_vm.c, rmap.c, swap.c and the
    allocation path of pmm.c)

    Physical memory is a map from the addresses of 64-bit words to their values
    (absent words are 0); page tables are read and written in it as the CPU and
    the kernel do.  The state carries everything the allocation path of
    [pmm_alloc_page] can touch: the page allocator, the reverse map, the swap
    slots, the disk and the process table. *)

From stdpp Require Import prelude gmap.
From Stdlib Require Import ZArith Lia.
From S2P Require Import Prelude Pmm Process Sched.
Import Process Sched.
Local Open Scope Z_scope.

Module Vm.

Definition PTE_PRESENT : Z := 0x1.
Definition PTE_WRITABLE : Z := 0x2.
Definition PTE_USER : Z := 0x4.
Definition PTE_NOCACHE : Z := 0x10.
Definition PTE_ACCESSED : Z := 0x20.
Definition PTE_HUGE : Z := 0x80.
Definition PTE_COW : Z := 0x200.
Definition PTE_SWAPPED : Z := 0x400.
Definition PTE_ADDR_MASK : Z := 0x000FFFFFFFFFF000.
Definition RMAP_MAX_PAGES : Z := 131072.
Definition SWAP_MAX_PAGES : Z := 4096.
Definition SWAP_START_LBA : Z := 32768.
Definition SWAP_LOW_WATERMARK : Z := 32.

Record vm := mk_vm {
  phys : gmap Z Z;
  frames : Pmm.pmm;
  rmap_table : gmap Z (Z * Z);
  swap_slots : list bool;
  swap_used : Z;
  swap_ready : bool;
  clock_hand : Z;
  disk : gmap Z Z;
  ata_ok : bool;
  sc : sched
}.

#[export] Instance eta_vm : Eta vm := fun s =>
  mk_vm (phys s) (frames s) (rmap_table s) (swap_slots s) (swap_used s) (swap_ready s)
    (clock_hand s) (disk s) (ata_ok s) (sc s).

(** ** Words and pages *)

Definition ldq (m : gmap Z Z) (a : Z) : Z := default 0 (m !! a).
Definition ld (s : vm) (a : Z) : Z := ldq (phys s) a.
Definition st (a v : Z) (s : vm) : vm := s <| phys ::= <[a := v]> |>.

(** Write the 512 words [f 0 .. f 511] to the page at [p]. *)
Definition fill_page (p : Z) (f : Z -> Z) (m : gmap Z Z) : gmap Z Z :=
  for_loop 512 0 (fun i => <[p + 8 * Z.of_nat i := f (Z.of_nat i)]>) m.

(** [memset(page, 0, PAGE_SIZE)] and [memcpy(dst, src, PAGE_SIZE)]. *)
Definition zero_page (p : Z) (s : vm) : vm := s <| phys ::= fill_page p (fun _ => 0) |>.
Definition copy_page (dst src : Z) (s : vm) : vm :=
  s <| phys ::= fill_page dst (fun i => ldq (phys s) (src + 8 * i)) |>.

Definition has (e flag : Z) : bool := negb (Z.land e flag =? 0).

Definition PML4_INDEX (a : Z) : Z := Z.land (Z.shiftr a 39) 0x1FF.
Definition PDPT_INDEX (a : Z) : Z := Z.land (Z.shiftr a 30) 0x1FF.
Definition PD_INDEX (a : Z) : Z := Z.land (Z.shiftr a 21) 0x1FF.
Definition PT_INDEX (a : Z) : Z := Z.land (Z.shiftr a 12) 0x1FF.

(** ** Reverse map *)

Definition rmap_init (s : vm) : vm := s <| rmap_table := ∅ |>.

Definition rmap_set (p : Z) (q virt : Z) (s : vm) : vm :=
  let idx := p / PAGE_SIZE in
  if idx <? RMAP_MAX_PAGES then s <| rmap_table ::= <[idx := (q, virt)]> |> else s.

Definition rmap_clear (p : Z) (s : vm) : vm :=
  let idx := p / PAGE_SIZE in
  if idx <? RMAP_MAX_PAGES then s <| rmap_table ::= <[idx := (0, 0)]> |> else s.

Definition rmap_get (s : vm) (p : Z) : option (Z * Z) :=
  let idx := p / PAGE_SIZE in
  let e := default (0, 0) (rmap_table s !! idx) in
  if (idx <? RMAP_MAX_PAGES) && negb (e.1 =? 0) then Some e else None.

(** ** Walking page tables *)

(** Address of the leaf entry, [None] where the C code returns NULL. *)
Definition user_vm_get_pte (s : vm) (pml4_phys virt : Z) : option Z :=
  let e4 := ld s (pml4_phys + 8 * PML4_INDEX virt) in
  if negb (has e4 PTE_PRESENT) then None else
  let e3 := ld s (Z.land e4 PTE_ADDR_MASK + 8 * PDPT_INDEX virt) in
  if negb (has e3 PTE_PRESENT) then None else
  if has e3 PTE_HUGE then None else
  let e2 := ld s (Z.land e3 PTE_ADDR_MASK + 8 * PD_INDEX virt) in
  if negb (has e2 PTE_PRESENT) then None else
  if has e2 PTE_HUGE then None else
  Some (Z.land e2 PTE_ADDR_MASK + 8 * PT_INDEX virt).

(** ** Swap *)

Definition swap_init (s : vm) : vm :=
  s <| swap_slots := replicate (Z.to_nat SWAP_MAX_PAGES) false |> <| swap_used := 0 |>
    <| swap_ready := true |>.

Definition swap_alloc_slot (s : vm) : vm * Z :=
  match find_index negb (swap_slots s) with
  | Some i => (s <| swap_slots ::= <[i := true]> |> <| swap_used ::= fun n => u64 (n + 1) |>, Z.of_nat i)
  | None => (s, -1)
  end.

Definition swap_free_slot (slot : Z) (s : vm) : vm :=
  if (0 <=? slot) && (slot <? SWAP_MAX_PAGES) && zget (swap_slots s) slot
  then s <| swap_slots ::= fun l => zset l slot false |> <| swap_used ::= fun n => u64 (n - 1) |>
  else s.

Definition slot_base (slot : Z) : Z := 512 * (SWAP_START_LBA + slot * 8).

(** The disk transfers of one page (eight sectors); [ata_ok] is the status the
    controller reports. *)
Definition swap_write_page (slot p : Z) (s : vm) : vm * Z :=
  if ata_ok s
  then (s <| disk ::= fill_page (slot_base slot) (fun i => ldq (phys s) (p + 8 * i)) |>, 0)
  else (s, -1).

Definition swap_read_page (slot p : Z) (s : vm) : vm * Z :=
  if ata_ok s
  then (s <| phys ::= fill_page p (fun i => ldq (disk s) (slot_base slot + 8 * i)) |>, 0)
  else (s, -1).

(** Evict the page at [p] owned by the entry [pte]: the end of the scan body. *)
Definition evict_page (pte p page_idx total : Z) (s : vm) : vm * Z :=
  let '(s, slot) := swap_alloc_slot s in
  if slot <? 0 then (s, -1) else
  let '(s, r) := swap_write_page slot p s in
  if r <? 0 then (swap_free_slot slot s, -1) else
  let s := st pte (Z.lor (u64 (Z.shiftl slot 12)) PTE_SWAPPED) s in
  let s := rmap_clear p s in
  let s := s <| frames ::= Pmm.pmm_page_unref p |> in
  (s <| clock_hand := (page_idx + 1) mod total |>, 0).

(** The entry that maps the page at [p], if it can be evicted. *)
Definition evict_candidate (p : Z) (s : vm) : option Z :=
  if negb (Pmm.pmm_page_refcount p (frames s) =? 1) then None else
  match rmap_get s p with
  | None => None
  | Some (q, virt) =>
      match process_get_by_pid (procs (sc s)) q with
      | None => None
      | Some i =>
          if cr3 (proc_at (sc s) i) =? 0 then None else
          match user_vm_get_pte s (cr3 (proc_at (sc s) i)) virt with
          | Some pte => if has (ld s pte) PTE_PRESENT then Some pte else None
          | None => None
          end
      end
  end.

(** The CLOCK scan, turn [j] of [2 * total]. *)
Fixpoint evict_scan (n : nat) (j start : Z) (s : vm) : vm * Z :=
  match n with
  | O => (s, -1)
  | S n' =>
      let total := Pmm.pmm_get_total_pages (frames s) in
      let page_idx := (start + j) mod total in
      let p := page_idx * PAGE_SIZE in
      match evict_candidate p s with
      | None => evict_scan n' (j + 1) start s
      | Some pte =>
          if has (ld s pte) PTE_ACCESSED
          then evict_scan n' (j + 1) start (st pte (Z.land (ld s pte) (Z.lnot PTE_ACCESSED)) s)
          else evict_page pte p page_idx total s
      end
  end.

Definition swap_evict_one (s : vm) : vm * Z :=
  if negb (swap_ready s) then (s, -1)
  else evict_scan (Z.to_nat (Pmm.pmm_get_total_pages (frames s) * 2)) 0 (clock_hand s) s.

(** ** [pmm_alloc_page] with its eviction loop *)

Fixpoint evict_low (n : nat) (s : vm) : vm :=
  match n with
  | O => s
  | S n' =>
      if Pmm.free_pages (frames s) <? SWAP_LOW_WATERMARK
      then evict_low n' (swap_evict_one s).1 else s
  end.

Definition pmm_alloc_page (s : vm) : vm * Z :=
  let s := if Pmm.free_pages (frames s) <? SWAP_LOW_WATERMARK then evict_low 8 s else s in
  let '(f, p) := Pmm.pmm_take_page (frames s) in
  (s <| frames := f |>, p).

Definition alloc_zeroed_page (s : vm) : vm * Z :=
  let '(s, p) := pmm_alloc_page s in
  if p =? 0 then (s, 0) else (zero_page p s, p).

(** ** Kernel mappings: vmm.c, on the tables CR3 points to *)

Definition get_pml4 (s : vm) : Z := Z.land (cpu_cr3 (sc s)) PTE_ADDR_MASK.

(** One level of [vmm_walk]: the table below the entry at [ea]. *)
Definition vmm_level (create : bool) (ea : Z) (s : vm) : vm * option Z :=
  if has (ld s ea) PTE_PRESENT then (s, Some (Z.land (ld s ea) PTE_ADDR_MASK))
  else if negb create then (s, None)
  else
    let '(s, t) := alloc_zeroed_page s in
    if t =? 0 then (s, None)
    else
      let s := st ea (Z.lor (Z.lor t PTE_PRESENT) PTE_WRITABLE) s in
      (s, Some (Z.land (ld s ea) PTE_ADDR_MASK)).

Definition vmm_walk (virt : Z) (create : bool) (s : vm) : vm * option Z :=
  let '(s, t3) := vmm_level create (get_pml4 s + 8 * PML4_INDEX virt) s in
  match t3 with
  | None => (s, None)
  | Some pdpt =>
      let '(s, t2) := vmm_level create (pdpt + 8 * PDPT_INDEX virt) s in
      match t2 with
      | None => (s, None)
      | Some pd =>
          let '(s, t1) := vmm_level create (pd + 8 * PD_INDEX virt) s in
          match t1 with
          | None => (s, None)
          | Some pt => (s, Some (pt + 8 * PT_INDEX virt))
          end
      end
  end.

Definition vmm_map_page (virt p flags : Z) (s : vm) : vm * Z :=
  let '(s, pte) := vmm_walk virt true s in
  match pte with
  | None => (s, -1)
  | Some a => (st a (Z.lor (Z.lor (Z.land p PTE_ADDR_MASK) flags) PTE_PRESENT) s, 0)
  end.

Definition vmm_unmap_page (virt : Z) (s : vm) : vm :=
  match (vmm_walk virt false s).2 with
  | None => s
  | Some a => st a 0 s
  end.

Definition vmm_get_physical (virt : Z) (s : vm) : Z :=
  match (vmm_walk virt false s).2 with
  | None => 0
  | Some a => if has (ld s a) PTE_PRESENT then Z.lor (Z.land (ld s a) PTE_ADDR_MASK) (Z.land virt 0xFFF) else 0
  end.

Definition vmm_map_range (phys_base virt_base : Z) (n_pages : nat) (flags : Z) (s : vm) : vm :=
  for_loop n_pages 0 (fun i s => (vmm_map_page (u64 (virt_base + Z.of_nat i * PAGE_SIZE))
                                    (u64 (phys_base + Z.of_nat i * PAGE_SIZE)) flags s).1) s.

(** ** User address spaces: user_vm.c *)

Definition user_vm_create_address_space (s : vm) : vm * Z :=
  let '(s, pml4) := alloc_zeroed_page s in
  if pml4 =? 0 then (s, 0)
  else
    let boot := get_pml4 s in
    (for_loop 256 256 (fun i s => st (pml4 + 8 * Z.of_nat i) (ld s (boot + 8 * Z.of_nat i)) s) s, pml4).

(** One level of [user_vm_map_page]. *)
Definition user_level (ea : Z) (s : vm) : vm * option Z :=
  if has (ld s ea) PTE_PRESENT then
    let s := st ea (Z.lor (ld s ea) (Z.lor PTE_USER PTE_WRITABLE)) s in
    (s, Some (Z.land (ld s ea) PTE_ADDR_MASK))
  else
    let '(s, t) := alloc_zeroed_page s in
    if t =? 0 then (s, None)
    else
      let s := st ea (Z.lor (Z.lor (Z.lor t PTE_PRESENT) PTE_WRITABLE) PTE_USER) s in
      (s, Some (Z.land (ld s ea) PTE_ADDR_MASK)).

Definition user_vm_map_page (pml4_phys virt p flags : Z) (s : vm) : vm * Z :=
  let '(s, t3) := user_level (pml4_phys + 8 * PML4_INDEX virt) s in
  match t3 with
  | None => (s, -1)
  | Some pdpt =>
      let '(s, t2) := user_level (pdpt + 8 * PDPT_INDEX virt) s in
      match t2 with
      | None => (s, -1)
      | Some pd =>
          let '(s, t1) := user_level (pd + 8 * PD_INDEX virt) s in
          match t1 with
          | None => (s, -1)
          | Some pt =>
              let s := st (pt + 8 * PT_INDEX virt)
                         (Z.lor (Z.lor (Z.land p PTE_ADDR_MASK) flags) PTE_PRESENT) s in
              let s := if virt <? KERNEL_VMA then
                         match current_process (sc s) with
                         | Some c => rmap_set p (pid (proc_at (sc s) c)) virt s
                         | None => s
                         end
                       else s in
              (s, 0)
          end
      end
  end.

(** Copy-on-write fork.  [fork_leaf] is the body of the innermost loop; [false]
    stops the loops, as the [return 0] after a failed mapping does. *)
Definition virt_of (i4 i3 i2 i1 : nat) : Z :=
  Z.lor (Z.lor (Z.lor (Z.shiftl (Z.of_nat i4) 39) (Z.shiftl (Z.of_nat i3) 30))
               (Z.shiftl (Z.of_nat i2) 21)) (Z.shiftl (Z.of_nat i1) 12).

Definition cow_flags (flags : Z) : Z := Z.lor (Z.land flags (Z.lnot PTE_WRITABLE)) PTE_COW.

Definition fork_leaf (child pt : Z) (i4 i3 i2 i1 : nat) (s : vm) : vm * bool :=
  let ea := pt + 8 * Z.of_nat i1 in
  let e := ld s ea in
  if negb (has e PTE_PRESENT) then (s, true) else
  let p := Z.land e PTE_ADDR_MASK in
  let flags := Z.land e (Z.lnot PTE_ADDR_MASK) in
  let '(s, flags) :=
    if has flags PTE_WRITABLE
    then (st ea (Z.lor (Z.land p PTE_ADDR_MASK) (cow_flags flags)) s, cow_flags flags)
    else (s, flags) in
  let s := s <| frames ::= Pmm.pmm_page_ref p |> in
  let '(s, r) := user_vm_map_page child (virt_of i4 i3 i2 i1) p flags s in
  (s, negb (r <? 0)).

Definition fork_pt (child pt : Z) (i4 i3 i2 : nat) : vm -> vm * bool :=
  for_while 512 0 (fork_leaf child pt i4 i3 i2).

Definition fork_pd (child pd : Z) (i4 i3 : nat) : vm -> vm * bool :=
  for_while 512 0 (fun i2 s =>
    let e := ld s (pd + 8 * Z.of_nat i2) in
    if negb (has e PTE_PRESENT) || has e PTE_HUGE then (s, true)
    else fork_pt child (Z.land e PTE_ADDR_MASK) i4 i3 i2 s).

Definition fork_pdpt (child pdpt : Z) (i4 : nat) : vm -> vm * bool :=
  for_while 512 0 (fun i3 s =>
    let e := ld s (pdpt + 8 * Z.of_nat i3) in
    if negb (has e PTE_PRESENT) || has e PTE_HUGE then (s, true)
    else fork_pd child (Z.land e PTE_ADDR_MASK) i4 i3 s).

Definition user_vm_fork_address_space (parent : Z) (s : vm) : vm * Z :=
  let '(s, child) := user_vm_create_address_space s in
  if child =? 0 then (s, 0) else
  let '(s, ok) :=
    for_while 256 0 (fun i4 s =>
      let e := ld s (parent + 8 * Z.of_nat i4) in
      if negb (has e PTE_PRESENT) then (s, true)
      else fork_pdpt child (Z.land e PTE_ADDR_MASK) i4 s) s in
  (s, if ok then child else 0).

(** Tearing an address space down. *)
Definition destroy_leaf (pt : Z) (i1 : nat) (s : vm) : vm :=
  let e := ld s (pt + 8 * Z.of_nat i1) in
  if negb (has e PTE_PRESENT) then s else
  let p := Z.land e PTE_ADDR_MASK in
  (rmap_clear p s) <| frames ::= Pmm.pmm_page_unref p |>.

Definition destroy_pt (pt : Z) (s : vm) : vm :=
  (for_loop 512 0 (destroy_leaf pt) s) <| frames ::= Pmm.pmm_free_page pt |>.

Definition destroy_pd (pd : Z) (s : vm) : vm :=
  (for_loop 512 0 (fun i2 s =>
     let e := ld s (pd + 8 * Z.of_nat i2) in
     if negb (has e PTE_PRESENT) || has e PTE_HUGE then s
     else destroy_pt (Z.land e PTE_ADDR_MASK) s) s) <| frames ::= Pmm.pmm_free_page pd |>.

Definition destroy_pdpt (pdpt : Z) (s : vm) : vm :=
  (for_loop 512 0 (fun i3 s =>
     let e := ld s (pdpt + 8 * Z.of_nat i3) in
     if negb (has e PTE_PRESENT) || has e PTE_HUGE then s
     else destroy_pd (Z.land e PTE_ADDR_MASK) s) s) <| frames ::= Pmm.pmm_free_page pdpt |>.

Definition user_vm_destroy_address_space (pml4 : Z) (s : vm) : vm :=
  (for_loop 256 0 (fun i4 s =>
     let e := ld s (pml4 + 8 * Z.of_nat i4) in
     if negb (has e PTE_PRESENT) then s
     else destroy_pdpt (Z.land e PTE_ADDR_MASK) s) s) <| frames ::= Pmm.pmm_free_page pml4 |>.

(** ** Fault handlers *)

Definition cow_handle_fault (pml4_phys fault_addr : Z) (s : vm) : vm * Z :=
  match user_vm_get_pte s pml4_phys fault_addr with
  | None => (s, -1)
  | Some pte =>
      let e := ld s pte in
      if negb (has e PTE_PRESENT) || negb (has e PTE_COW) then (s, -1) else
      let old := Z.land e PTE_ADDR_MASK in
      let flags := Z.land e (Z.lnot PTE_ADDR_MASK) in
      if Pmm.pmm_page_refcount old (frames s) =? 1 then
        (st pte (Z.lor (Z.lor (Z.land old PTE_ADDR_MASK) (Z.land flags (Z.lnot PTE_COW))) PTE_WRITABLE) s, 0)
      else
        let '(s, new) := pmm_alloc_page s in
        if new =? 0 then (s, -1) else
        let s := copy_page new old s in
        let s := s <| frames ::= Pmm.pmm_page_unref old |> in
        (st pte (Z.lor (Z.lor (Z.land new PTE_ADDR_MASK) (Z.land flags (Z.lnot PTE_COW))) PTE_WRITABLE) s, 0)
  end.

Definition swap_handle_fault (pml4_phys fault_addr : Z) (s : vm) : vm * Z :=
  if negb (swap_ready s) then (s, -1) else
  let page_addr := page_down fault_addr in
  match user_vm_get_pte s pml4_phys page_addr with
  | None => (s, -1)
  | Some pte =>
      if negb (has (ld s pte) PTE_SWAPPED) || has (ld s pte) PTE_PRESENT then (s, -1) else
      let slot := s32 (Z.shiftr (ld s pte) 12) in
      let '(s, new) := pmm_alloc_page s in
      let '(s, new) :=
        if new =? 0 then
          let '(s, r) := swap_evict_one s in
          if r =? 0 then pmm_alloc_page s else (s, 0)
        else (s, new) in
      if new =? 0 then (s, -1) else
      let '(s, r) := swap_read_page slot new s in
      if r <? 0 then (s <| frames ::= Pmm.pmm_page_unref new |>, -1) else
      let s := st pte (Z.lor (Z.lor (Z.lor new PTE_PRESENT) PTE_USER) PTE_WRITABLE) s in
      let s := swap_free_slot slot s in
      match find_index (fun p => (cr3 p =? pml4_phys) && negb (unused p)) (procs (sc s)) with
      | Some i => (rmap_set new (pid (proc_at (sc s) i)) page_addr s, 0)
      | None => (s, 0)
      end
  end.

(** ** Specification: the page table as a map

    [step] follows one entry; [table_at] follows a path of indices from the root.
    [pte_val] is the leaf entry of an address, 0 where there is none. *)

Definition step (m : gmap Z Z) (t i : Z) : option Z :=
  let e := ldq m (t + 8 * i) in
  if has e PTE_PRESENT then Some (Z.land e PTE_ADDR_MASK) else None.

Definition table_at (m : gmap Z Z) (root : Z) (path : list Z) : option Z :=
  foldl (fun o i => o ≫= fun t => step m t i) (Some root) path.

Definition path_of (virt : Z) : list Z := [PML4_INDEX virt; PDPT_INDEX virt; PD_INDEX virt].

Definition pte_val (s : vm) (pml4 virt : Z) : Z :=
  match user_vm_get_pte s pml4 virt with Some a => ld s a | None => 0 end.

(** Paths of user tables: at most three indices, the first in the user half. *)
Definition user_path (l : list Z) : Prop :=
  Forall (fun i => 0 <= i < 512) l /\ (length l <= 3)%nat /\
  match l with i :: _ => i < 256 | [] => True end.

(** A well-formed user address space: its tables are page aligned frames that
    the allocator has given out, no two paths share a table, and no entry above
    the leaves is a huge page. *)
Record space_wf (s : vm) (pml4 : Z) : Prop := mk_space_wf {
  sw_table : forall l t, user_path l -> table_at (phys s) pml4 l = Some t ->
    t mod 4096 = 0 /\ 0 < t /\ t / 4096 < Pmm.total_pages (frames s) /\
    Pmm.used (frames s) (t / 4096) = true;
  sw_inj : forall l l' t, user_path l -> user_path l' ->
    table_at (phys s) pml4 l = Some t -> table_at (phys s) pml4 l' = Some t -> l = l';
  sw_huge : forall l t i, user_path (l ++ [i]) -> table_at (phys s) pml4 l = Some t -> l <> [] ->
    has (ldq (phys s) (t + 8 * i)) PTE_PRESENT = true -> has (ldq (phys s) (t + 8 * i)) PTE_HUGE = false
}.

Definition user_addr (virt : Z) : Prop := 0 <= virt < 2 ^ 47.

(** ** Memory *)

Lemma ldq_insert m a v b : ldq (<[a := v]> m) b = if decide (a = b) then v else ldq m b.
Proof.
  unfold ldq. destruct (decide (a = b)) as [->|]; [by rewrite lookup_insert_eq|by rewrite lookup_insert_ne].
Qed.

Lemma ldq_fill_page p f m a :
  ldq (fill_page p f m) a
  = if decide (p <= a < p + 4096 /\ (a - p) mod 8 = 0) then f ((a - p) / 8) else ldq m a.
Proof.
  unfold fill_page.
  pose proof (for_loop_inv (fun k m' => ldq m' a =
    if decide (p <= a < p + 8 * Z.of_nat k /\ (a - p) mod 8 = 0) then f ((a - p) / 8) else ldq m a)
    512 0 (fun i => <[p + 8 * Z.of_nat i := f (Z.of_nat i)]>) m) as H.
  apply H; clear H.
  - by rewrite decide_False by lia.
  - intros k m' Hk IH. rewrite ldq_insert, IH. destruct (decide (p + 8 * Z.of_nat k = a)) as [<-|Hne].
    + rewrite decide_True by (split; [lia|zsolve]). f_equal. zsolve.
    + destruct (decide (p <= a < p + 8 * Z.of_nat k /\ (a - p) mod 8 = 0)) as [Hd|Hd].
      * rewrite decide_True by (split; [lia|tauto]). done.
      * rewrite decide_False; [done|]. intros [H1 H2]. apply Hd. split; [|done]. zsolve.
Qed.

(** ** Entries *)

Lemma has_bit e k : 0 <= k -> has e (2 ^ k) = Z.testbit e k.
Proof. apply test_pow2. Qed.

Lemma mask_spec e : Z.land e PTE_ADDR_MASK = 4096 * ((e / 4096) mod 2 ^ 40).
Proof.
  change PTE_ADDR_MASK with (Z.shiftl (Z.ones 40) 12).
  apply Z.bits_inj'. intros n Hn. rewrite Z.land_spec, Z.shiftl_spec by lia.
  change (4096 * (e / 4096 mod 2 ^ 40)) with (2 ^ 12 * (e / 2 ^ 12 mod 2 ^ 40)).
  rewrite Z.mul_comm, <- Z.shiftl_mul_pow2, Z.shiftl_spec by lia.
  destruct (decide (n < 12)).
  - rewrite !(Z.testbit_neg_r _ (n - 12)) by lia. apply andb_false_r.
  - rewrite <- Z.land_ones, <- Z.shiftr_div_pow2, Z.land_spec, Z.shiftr_spec by lia.
    do 2 f_equal. lia.
Qed.

Lemma mask_page p k : 0 <= p < 2 ^ 52 -> p mod 4096 = 0 -> 0 <= k < 4096 ->
  Z.land (p + k) PTE_ADDR_MASK = p.
Proof. intros. rewrite mask_spec. zsolve. Qed.

(** The entry written for a new table. *)
Definition table_entry (t : Z) : Z := Z.lor (Z.lor (Z.lor t PTE_PRESENT) PTE_WRITABLE) PTE_USER.

Lemma table_entry_spec t : 0 <= t < 2 ^ 52 -> t mod 4096 = 0 ->
  Z.land (table_entry t) PTE_ADDR_MASK = t /\ has (table_entry t) PTE_PRESENT = true /\
  has (table_entry t) PTE_HUGE = false.
Proof.
  intros Ht Hm. unfold table_entry, PTE_PRESENT, PTE_WRITABLE, PTE_USER.
  rewrite <- !Z.lor_assoc. change (Z.lor 1 (Z.lor 2 4)) with 7.
  assert (forall k, 0 <= k < 12 -> Z.testbit t k = false) as Hb.
  { intros k Hk. rewrite <- (Z.mod_pow2_bits_low t 12 k) by lia. change (2 ^ 12) with 4096.
    by rewrite Hm, Z.bits_0. }
  split_and!.
  - rewrite (lor_low t 7 12) by (change (2 ^ 12) with 4096; lia). apply mask_page; lia.
  - change 1 with (2 ^ 0). rewrite has_bit, Z.lor_spec by lia. by rewrite orb_true_r.
  - change PTE_HUGE with (2 ^ 7). rewrite has_bit, Z.lor_spec, Hb by lia. done.
Qed.

(** Setting the user and writable bits of an entry. *)
Lemma open_entry_spec e :
  Z.land (Z.lor e (Z.lor PTE_USER PTE_WRITABLE)) PTE_ADDR_MASK = Z.land e PTE_ADDR_MASK /\
  has (Z.lor e (Z.lor PTE_USER PTE_WRITABLE)) PTE_PRESENT = has e PTE_PRESENT /\
  has (Z.lor e (Z.lor PTE_USER PTE_WRITABLE)) PTE_HUGE = has e PTE_HUGE.
Proof.
  change (Z.lor PTE_USER PTE_WRITABLE) with 6. split_and!.
  - rewrite Z.land_lor_distr_l. change (Z.land 6 PTE_ADDR_MASK) with 0. apply Z.lor_0_r.
  - change PTE_PRESENT with (2 ^ 0). rewrite !has_bit, Z.lor_spec by lia. apply orb_false_r.
  - change PTE_HUGE with (2 ^ 7). rewrite !has_bit, Z.lor_spec by lia. apply orb_false_r.
Qed.

(** ** Paths *)

Lemma table_at_snoc m r l i : table_at m r (l ++ [i]) = table_at m r l ≫= fun t => step m t i.
Proof. unfold table_at. by rewrite foldl_app. Qed.

Lemma index_range virt :
  0 <= PML4_INDEX virt < 512 /\ 0 <= PDPT_INDEX virt < 512 /\
  0 <= PD_INDEX virt < 512 /\ 0 <= PT_INDEX virt < 512.
Proof.
  unfold PML4_INDEX, PDPT_INDEX, PD_INDEX, PT_INDEX. change 0x1FF with (Z.ones 9).
  rewrite !Z.land_ones by lia. split_and!; apply Z.mod_pos_bound; lia.
Qed.

Lemma index_spec virt :
  PML4_INDEX virt = (virt / 2 ^ 39) mod 512 /\ PDPT_INDEX virt = (virt / 2 ^ 30) mod 512 /\
  PD_INDEX virt = (virt / 2 ^ 21) mod 512 /\ PT_INDEX virt = (virt / 2 ^ 12) mod 512.
Proof.
  unfold PML4_INDEX, PDPT_INDEX, PD_INDEX, PT_INDEX. change 0x1FF with (Z.ones 9).
  rewrite !Z.land_ones, !Z.shiftr_div_pow2 by lia. done.
Qed.

Lemma user_path_of virt : user_addr virt -> user_path (path_of virt).
Proof.
  intros Hv. destruct (index_range virt) as (H1 & H2 & H3 & _). destruct (index_spec virt) as (E & _).
  split_and!; [unfold path_of; repeat apply Forall_cons_2; done || apply Forall_nil_2|simpl; lia|].
  simpl. rewrite E. unfold user_addr in Hv. zsolve.
Qed.

(** Addresses with the same indices lie in the same page. *)
Lemma path_inj v w : user_addr v -> user_addr w -> path_of v = path_of w -> PT_INDEX v = PT_INDEX w ->
  v / 4096 = w / 4096.
Proof.
  intros Hv Hw [= H1 H2 H3] H4. destruct (index_spec v) as (V1 & V2 & V3 & V4).
  destruct (index_spec w) as (W1 & W2 & W3 & W4). unfold user_addr in *.
  rewrite V1, W1 in H1. rewrite V2, W2 in H2. rewrite V3, W3 in H3. rewrite V4, W4 in H4.
  clear V1 V2 V3 V4 W1 W2 W3 W4. zsolve.
Qed.

Lemma same_page_path v w : v / 4096 = w / 4096 -> path_of v = path_of w /\ PT_INDEX v = PT_INDEX w.
Proof.
  intros H. destruct (index_spec v) as (V1 & V2 & V3 & V4). destruct (index_spec w) as (W1 & W2 & W3 & W4).
  assert (forall k, 0 <= k -> v / 2 ^ (12 + k) = w / 2 ^ (12 + k)) as Hd.
  { intros k Hk. rewrite Z.pow_add_r by lia. change (2 ^ 12) with 4096.
    by rewrite <- !Z.div_div, H by lia. }
  unfold path_of. rewrite V1, V2, V3, V4, W1, W2, W3, W4.
  change 39 with (12 + 27). change 30 with (12 + 18). change 21 with (12 + 9).
  change (v / 2 ^ 12) with (v / 4096). rewrite !Hd, H by lia. done.
Qed.

Lemma user_path_snoc l i : user_path (l ++ [i]) -> user_path l /\ 0 <= i < 512.
Proof.
  intros (F & L & H). apply Forall_app in F as [F1 F2]. apply Forall_cons in F2 as [F2 _].
  rewrite length_app in L. simpl in L, F2. split; [|exact F2]. repeat split; [done|lia|by destruct l].
Qed.

(** ** Allocation while memory is plentiful *)

(** The allocator is in order and [n] pages can be taken without eviction. *)
Definition quiet (s : vm) (n : Z) : Prop :=
  Pmm.safe (frames s) /\ SWAP_LOW_WATERMARK + n <= Pmm.free_pages (frames s) + 1.

Lemma take_page_geometry f f' p : Pmm.pmm_take_page f = (f', p) ->
  Pmm.total_pages f' = Pmm.total_pages f /\ Pmm.kernel_page_limit f' = Pmm.kernel_page_limit f.
Proof.
  unfold Pmm.pmm_take_page. generalize (Z.to_nat (Pmm.total_pages f)) as n. generalize 0 as j.
  intros j n; revert j; induction n as [|n IH]; intros j; simpl; [by intros [= <- <-]|].
  destruct (Pmm.bitmap_test _ _); [apply IH|by intros [= <- <-]].
Qed.

(** A page taken from [f], leaving [f']. *)
Record taken (f f' : Pmm.pmm) (p : Z) : Prop := mk_taken {
  tk_pos : 0 < p;
  tk_align : p mod 4096 = 0;
  tk_bound : p / 4096 < Pmm.total_pages f;
  tk_free : Pmm.used f (p / 4096) = false;
  tk_used : forall j, 0 <= j -> Pmm.used f' j = bool_decide (p / 4096 = j) || Pmm.used f j;
  tk_total : Pmm.total_pages f' = Pmm.total_pages f;
  tk_count : Pmm.free_pages f' = Pmm.free_pages f - 1;
  tk_ref : forall j, 0 <= j < Pmm.total_pages f ->
    zget (Pmm.page_refcount f') j = if decide (p / 4096 = j) then 1 else zget (Pmm.page_refcount f) j;
  tk_safe : Pmm.safe f'
}.

Lemma alloc_quiet s n : quiet s n -> 1 <= n ->
  exists f p, pmm_alloc_page s = (s <| frames := f |>, p) /\ taken (frames s) f p.
Proof.
  intros [Hs Hf] Hn. unfold pmm_alloc_page. unfold SWAP_LOW_WATERMARK in *.
  destruct (Pmm.free_pages (frames s) <? 32) eqn:E; b2p; [lia|].
  destruct (Pmm.pmm_take_page (frames s)) as [f p] eqn:Et. exists f, p. split; [done|].
  destruct Hs as (W & K & L). pose proof (take_page_geometry _ _ _ Et) as [G1 G2].
  destruct (Pmm.pmm_take_page_spec _ _ _ W K L Et) as [(_ & _ & ?)|(k & _ & -> & Hp & Hi & _ & Ha & Kr)]; [lia|].
  set (i := (Pmm.alloc_hint (frames s) + k) mod Pmm.total_pages (frames s)) in *. clearbody i.
  destruct Ha as (A1 & A2 & A3 & A4 & A5). rewrite <- (Z.div_mul i 4096) in Hi, A1, A2, A3 by lia.
  constructor; try done; [zsolve|zsolve|lia|]. split_and!; [done|done|lia].
Qed.

Lemma alloc_zeroed_quiet s n : quiet s n -> 1 <= n ->
  exists f p, alloc_zeroed_page s = (zero_page p (s <| frames := f |>), p) /\ taken (frames s) f p.
Proof.
  intros Hq Hn. destruct (alloc_quiet s n Hq Hn) as (f & p & E & T). exists f, p. split; [|done].
  unfold alloc_zeroed_page. rewrite E. pose proof (tk_pos _ _ _ T).
  by replace (p =? 0) with false by lia.
Qed.

Lemma page_lt_52 s p : Pmm.safe (frames s) -> 0 < p -> p / 4096 < Pmm.total_pages (frames s) -> p < 2 ^ 52.
Proof. intros (W & _) H1 H2. pose proof (Pmm.wf_total _ W). zsolve. Qed.

(** ** One level of the walk *)

(** The entry address in terms of the tables. *)
Lemma get_pte_table s pml4 v :
  space_wf s pml4 -> user_addr v ->
  user_vm_get_pte s pml4 v = (fun t => t + 8 * PT_INDEX v) <$> table_at (phys s) pml4 (path_of v).
Proof.
  intros Hw Hv.
  unfold user_vm_get_pte, ld, table_at, path_of. cbn. pose proof (user_path_of v Hv) as Hp.
  destruct (user_path_snoc [PML4_INDEX v; PDPT_INDEX v] (PD_INDEX v) Hp) as [Hp2 _].
  unfold step at 3. destruct (has (ldq _ (pml4 + _)) _) eqn:E4; cbn; [|done].
  set (t1 := Z.land (ldq (phys s) (pml4 + 8 * PML4_INDEX v)) PTE_ADDR_MASK).
  assert (table_at (phys s) pml4 [PML4_INDEX v] = Some t1) as T1
    by (unfold table_at; cbn; unfold step; by rewrite E4).
  unfold step at 2. destruct (has (ldq _ (t1 + _)) _) eqn:E3; cbn; [|done].
  rewrite (sw_huge _ _ Hw [PML4_INDEX v] t1 (PDPT_INDEX v)) by done. cbn.
  set (t2 := Z.land (ldq (phys s) (t1 + 8 * PDPT_INDEX v)) PTE_ADDR_MASK).
  unfold step. destruct (has (ldq _ (t2 + _)) _) eqn:E2; cbn; [|done].
  rewrite (sw_huge _ _ Hw [PML4_INDEX v; PDPT_INDEX v] t2 (PD_INDEX v)); [done|done| |done|done].
  change [PML4_INDEX v; PDPT_INDEX v] with ([PML4_INDEX v] ++ [PDPT_INDEX v]).
  rewrite table_at_snoc, T1. cbn. unfold step. by rewrite E3.
Qed.

Lemma pte_val_table s pml4 v : space_wf s pml4 -> user_addr v ->
  pte_val s pml4 v =
  match table_at (phys s) pml4 (path_of v) with
  | Some t => ldq (phys s) (t + 8 * PT_INDEX v)
  | None => 0
  end.
Proof.
  intros Hw Hv. unfold pte_val. rewrite get_pte_table by done. by destruct (table_at _ _ _).
Qed.

(** Writes that keep every entry of the user tables as far as the walk can see. *)
Lemma table_at_same m m' root l :
  (forall l t i, user_path (l ++ [i]) -> table_at m root l = Some t -> step m' t i = step m t i) ->
  user_path l -> table_at m' root l = table_at m root l.
Proof.
  intros Hs. induction l as [|i l IH] using rev_ind; [done|]. intros Hp.
  destruct (user_path_snoc _ _ Hp) as [Hp' _]. rewrite !table_at_snoc, IH by done.
  destruct (table_at m root l) as [t|] eqn:E; [|done]. simpl. by eapply Hs.
Qed.

(** A new, empty table [t'] hung below the absent entry [i] of [t]. *)
Lemma table_at_grow m m' root l t i t' :
  (forall l' t0 j, user_path (l' ++ [j]) -> table_at m root l' = Some t0 -> (t0, j) <> (t, i) ->
     step m' t0 j = step m t0 j) ->
  table_at m root l = Some t -> step m t i = None -> step m' t i = Some t' ->
  (forall j, 0 <= j < 512 -> step m' t' j = None) ->
  (forall l', user_path l' -> table_at m root l' = Some t -> l' = l) ->
  forall l', user_path l' ->
    table_at m' root l' = if decide (l' = l ++ [i]) then Some t' else table_at m root l'.
Proof.
  intros Hs Hl Hn Hy Hz Hi. induction l' as [|j l' IH] using rev_ind; intros Hp.
  { rewrite decide_False; [done|]. intros E. symmetry in E. by apply app_nil in E as [_ ?]. }
  destruct (user_path_snoc _ _ Hp) as [Hp' Hj]. rewrite !table_at_snoc, IH by done.
  destruct (decide (l' = l ++ [i])) as [->|Hne].
  - rewrite decide_False by (intros E; apply (f_equal length) in E; rewrite !length_app in E; simpl in E; lia).
    simpl. rewrite Hz by done. rewrite table_at_snoc, Hl. simpl. by rewrite Hn.
  - destruct (table_at m root l') as [t0|] eqn:E; simpl.
    + destruct (decide (t0 = t)) as [->|Ht].
      * rewrite (Hi l' Hp' E) in *. destruct (decide (j = i)) as [->|Hji].
        { by rewrite decide_True. }
        rewrite decide_False by (intros [_ ?]%app_inj_tail; done).
        eapply Hs; [exact Hp|exact Hl|congruence].
      * rewrite decide_False.
        { eapply Hs; [exact Hp|exact E|congruence]. }
        intros [-> ->]%app_inj_tail. rewrite E in Hl. congruence.
    + rewrite decide_False; [done|]. intros [-> ->]%app_inj_tail. by rewrite E in Hl.
Qed.

Lemma entry_inj t i t' i' : t mod 4096 = 0 -> t' mod 4096 = 0 -> 0 <= i < 512 -> 0 <= i' < 512 ->
  t + 8 * i = t' + 8 * i' -> t = t' /\ i = i'.
Proof. intros. zsolve. Qed.

(** Fields the walk does not touch. *)
Definition same_rest (s s' : vm) : Prop :=
  rmap_table s' = rmap_table s /\ swap_slots s' = swap_slots s /\ swap_used s' = swap_used s /\
  swap_ready s' = swap_ready s /\ disk s' = disk s /\ sc s' = sc s.

(** Entries of user tables do not lie in a page the allocator holds free. *)
Lemma entry_outside s pml4 l t i p f :
  space_wf s pml4 -> user_path l -> table_at (phys s) pml4 l = Some t -> 0 <= i < 512 ->
  Pmm.used (frames s) (p / 4096) = false -> p mod 4096 = 0 ->
  ldq (fill_page p f (phys s)) (t + 8 * i) = ldq (phys s) (t + 8 * i).
Proof.
  intros Hw Hp Ht Hi Hu Ha. destruct (sw_table _ _ Hw l t Hp Ht) as (A & B & C & D).
  rewrite ldq_fill_page, decide_False; [done|]. intros [Hr _].
  assert (t / 4096 = p / 4096) as E by zsolve. congruence.
Qed.

Section level.
Context (s : vm) (pml4 : Z) (l : list Z) (t i : Z).
Hypothesis (Hw : space_wf s pml4) (Hp : user_path (l ++ [i])) (Ht : table_at (phys s) pml4 l = Some t).
Let ea := t + 8 * i.

Lemma level_entry_ne l0 t0 j : user_path l0 -> table_at (phys s) pml4 l0 = Some t0 -> 0 <= j < 512 ->
  (t0, j) <> (t, i) -> ea <> t0 + 8 * j.
Proof.
  intros H0 Ht0 Hj Hne E. destruct (user_path_snoc _ _ Hp) as [Hpl Hi].
  destruct (sw_table _ _ Hw l t Hpl Ht) as (A & _). destruct (sw_table _ _ Hw l0 t0 H0 Ht0) as (B & _).
  destruct (entry_inj t i t0 j A B Hi Hj E) as [-> ->]. done.
Qed.

(** The entry is there: only its permission bits change. *)
Lemma level_present :
  has (ldq (phys s) ea) PTE_PRESENT = true ->
  let s' := st ea (Z.lor (ld s ea) (Z.lor PTE_USER PTE_WRITABLE)) s in
  space_wf s' pml4 /\
  (forall l', user_path l' -> table_at (phys s') pml4 l' = table_at (phys s) pml4 l') /\
  (forall v, user_addr v -> pte_val s' pml4 v = pte_val s pml4 v).
Proof.
  intros Hpr s'. destruct (open_entry_spec (ld s ea)) as (O1 & O2 & O3).
  assert (forall a, ldq (phys s') a = if decide (ea = a) then Z.lor (ld s ea) (Z.lor PTE_USER PTE_WRITABLE)
    else ldq (phys s) a) as Hld by (intros a; apply ldq_insert).
  assert (forall l0 t0 j, user_path (l0 ++ [j]) -> table_at (phys s) pml4 l0 = Some t0 ->
    step (phys s') t0 j = step (phys s) t0 j) as Hstep.
  { intros l0 t0 j _ _. unfold step. rewrite Hld. destruct (decide (ea = t0 + 8 * j)) as [<-|]; [|done].
    by rewrite O1, O2. }
  assert (forall l', user_path l' -> table_at (phys s') pml4 l' = table_at (phys s) pml4 l') as Htab
    by (intros l' Hl'; by apply table_at_same).
  assert (space_wf s' pml4) as Hw'.
  { constructor.
    - intros l0 t0 H0. rewrite Htab by done. by apply (sw_table _ _ Hw).
    - intros l0 l1 t0 H0 H1. rewrite !Htab by done. by apply (sw_inj _ _ Hw).
    - intros l0 t0 j H0. destruct (user_path_snoc _ _ H0) as [H0' _]. rewrite Htab by done. intros T0 Hn.
      rewrite Hld. destruct (decide (ea = t0 + 8 * j)) as [E|]; [|by apply (sw_huge _ _ Hw l0)].
      rewrite O2, O3. unfold ld. rewrite E. by apply (sw_huge _ _ Hw l0). }
  split_and!; [done|done|]. intros v Hv. rewrite !pte_val_table, Htab by (done || by apply user_path_of).
  destruct (table_at (phys s) pml4 (path_of v)) as [t3|] eqn:E3; [|done].
  rewrite Hld, decide_False; [done|]. destruct (index_range v) as (_ & _ & _ & Hr).
  eapply level_entry_ne; [by apply user_path_of|done|done|]. intros [= -> _].
  destruct (user_path_snoc _ _ Hp) as [Hpl _].
  pose proof (sw_inj _ _ Hw _ _ _ (user_path_of v Hv) Hpl E3 Ht) as <-.
  destruct Hp as (_ & Hlen & _). simpl in Hlen. lia.
Qed.

(** The entry is absent: a fresh table is hung below it. *)
Context (f : Pmm.pmm) (p : Z).
Hypothesis (Hpr : has (ldq (phys s) ea) PTE_PRESENT = false) (T : taken (frames s) f p)
  (Hsafe : Pmm.safe (frames s)).
Let s' := st ea (table_entry p) (zero_page p (s <| frames := f |>)).

Lemma absent_entry : Z.land (table_entry p) PTE_ADDR_MASK = p /\
  has (table_entry p) PTE_PRESENT = true /\ has (table_entry p) PTE_HUGE = false.
Proof.
  destruct T as [P1 P2 P3 P4 _ _ _ _ _]. apply table_entry_spec; [|done].
  pose proof (page_lt_52 s p Hsafe P1 P3). lia.
Qed.

Lemma absent_old l0 t0 j : user_path l0 -> table_at (phys s) pml4 l0 = Some t0 -> 0 <= j < 512 ->
  ldq (phys s') (t0 + 8 * j) = if decide ((t0, j) = (t, i)) then table_entry p else ldq (phys s) (t0 + 8 * j).
Proof.
  intros H0 T0 Hj. destruct T as [P1 P2 P3 P4 _ _ _ _ _].
  change (phys s') with (<[ea := table_entry p]> (fill_page p (fun _ => 0) (phys s))).
  rewrite ldq_insert. destruct (decide ((t0, j) = (t, i))) as [[= -> ->]|Hne]; [by rewrite decide_True|].
  rewrite decide_False by (by eapply level_entry_ne). by eapply entry_outside.
Qed.

Lemma absent_new j : 0 <= j < 512 -> ldq (phys s') (p + 8 * j) = 0.
Proof.
  intros Hj. destruct T as [P1 P2 P3 P4 _ _ _ _ _]. destruct (user_path_snoc _ _ Hp) as [Hpl Hi].
  destruct (sw_table _ _ Hw l t Hpl Ht) as (A1 & A2 & A3 & A4).
  change (phys s') with (<[ea := table_entry p]> (fill_page p (fun _ => 0) (phys s))).
  rewrite ldq_insert, decide_False.
  - rewrite ldq_fill_page, decide_True; [done|]. split; [lia|zsolve].
  - intros E. destruct (entry_inj t i p j A1 P2 Hi Hj E) as [-> _]. congruence.
Qed.

Lemma absent_tables l' : user_path l' ->
  table_at (phys s') pml4 l' = if decide (l' = l ++ [i]) then Some p else table_at (phys s) pml4 l'.
Proof.
  destruct absent_entry as (E1 & E2 & E3). destruct (user_path_snoc _ _ Hp) as [Hpl Hi]. revert l'.
  apply (table_at_grow (phys s) (phys s') pml4 l t i p); [|done| | | |].
  - intros l' t0 j Hl' T0 Hne. destruct (user_path_snoc _ _ Hl') as [H0 Hj].
    unfold step. by rewrite (absent_old l'), decide_False by done.
  - unfold step. fold ea. by rewrite Hpr.
  - unfold step. rewrite (absent_old l), decide_True by done. by rewrite E1, E2.
  - intros j Hj. unfold step. by rewrite absent_new.
  - intros l' Hl' T'. by eapply (sw_inj _ _ Hw).
Qed.

(** No old table is the new one. *)
Lemma absent_distinct l0 : user_path l0 -> table_at (phys s) pml4 l0 <> Some p.
Proof.
  intros H0 T0. destruct (sw_table _ _ Hw l0 p H0 T0) as (_ & _ & _ & U).
  pose proof (tk_free _ _ _ T). congruence.
Qed.

Lemma absent_wf : space_wf s' pml4.
Proof.
  destruct absent_entry as (E1 & E2 & E3). constructor.
  - intros l0 t0 H0. rewrite absent_tables by done. destruct T as [P1 P2 P3 P4 P5 P6 _ _ _].
    cbn [frames]. change (frames s') with f. rewrite P6.
    destruct (decide (l0 = l ++ [i])).
    + intros [= <-]. rewrite P5, bool_decide_true by (done || zsolve). done.
    + intros T0. destruct (sw_table _ _ Hw l0 t0 H0 T0) as (A & B & C & D).
      rewrite P5, D by zsolve. by rewrite orb_true_r.
  - intros l0 l1 t0 H0 H1. rewrite !absent_tables by done.
    destruct (decide (l0 = l ++ [i])) as [->|], (decide (l1 = l ++ [i])) as [->|]; try done.
    + intros [= <-] T1. by destruct (absent_distinct l1).
    + intros T0 [= <-]. by destruct (absent_distinct l0).
    + by apply (sw_inj _ _ Hw).
  - intros l0 t0 j H0. destruct (user_path_snoc _ _ H0) as [H0' Hj]. rewrite absent_tables by done.
    destruct (decide (l0 = l ++ [i])) as [->|].
    + intros [= <-] _. by rewrite absent_new.
    + intros T0 Hn. rewrite (absent_old l0) by done. destruct (decide ((t0, j) = (t, i))); [done|].
      by apply (sw_huge _ _ Hw l0).
Qed.

Lemma absent_ptes v : user_addr v -> pte_val s' pml4 v = pte_val s pml4 v.
Proof.
  intros Hv. pose proof absent_wf as Hw'. pose proof (user_path_of v Hv) as Hpv.
  destruct (index_range v) as (_ & _ & _ & Hr). destruct (user_path_snoc _ _ Hp) as [Hpl _].
  rewrite !pte_val_table, absent_tables by done. destruct (decide (path_of v = l ++ [i])) as [E|].
  - rewrite absent_new, E, table_at_snoc, Ht by done. simpl. unfold step. fold ea. by rewrite Hpr.
  - destruct (table_at (phys s) pml4 (path_of v)) as [t3|] eqn:E3; [|done].
    rewrite (absent_old (path_of v)), decide_False; try done. intros [= -> _].
    pose proof (sw_inj _ _ Hw _ _ _ Hpv Hpl E3 Ht) as <-.
    destruct Hp as (_ & Hlen & _). simpl in Hlen. lia.
Qed.
End level.

(** A frame in use that holds no table of the address space. *)
Definition data_page (s : vm) (pml4 n : Z) : Prop :=
  0 <= n /\ Pmm.used (frames s) n = true /\
  forall l t, user_path l -> table_at (phys s) pml4 l = Some t -> t / 4096 <> n.

Definition keeps_data (s s' : vm) (pml4 : Z) : Prop :=
  forall n, data_page s pml4 n ->
    data_page s' pml4 n /\ forall a, a / 4096 = n -> ldq (phys s') a = ldq (phys s) a.

(** What one level of [user_vm_map_page] achieves. *)
Lemma user_level_spec s pml4 l t i n :
  space_wf s pml4 -> user_path (l ++ [i]) -> table_at (phys s) pml4 l = Some t ->
  quiet s n -> 1 <= n ->
  exists s' t', user_level (t + 8 * i) s = (s', Some t') /\ space_wf s' pml4 /\
    table_at (phys s') pml4 (l ++ [i]) = Some t' /\ quiet s' (n - 1) /\ same_rest s s' /\
    keeps_data s s' pml4 /\
    (forall v, user_addr v -> pte_val s' pml4 v = pte_val s pml4 v).
Proof.
  intros Hw Hp Ht Hq Hn. unfold user_level. destruct (user_path_snoc _ _ Hp) as [Hpl Hi].
  destruct (sw_table _ _ Hw l t Hpl Ht) as (A1 & A2 & A3 & A4).
  assert (forall x a, data_page s pml4 x -> a / 4096 = x -> t + 8 * i <> a) as Hea.
  { intros x a (_ & _ & D) <- <-. apply (D l t Hpl Ht). zsolve. }
  destruct (has (ld s (t + 8 * i)) PTE_PRESENT) eqn:E.
  - destruct (level_present s pml4 l t i Hw Hp Ht E) as (W' & Tab & V).
    destruct (open_entry_spec (ld s (t + 8 * i))) as (O1 & _ & _).
    do 2 eexists. split; [reflexivity|]. split; [exact W'|]. split_and!; [| |by split_and!| |exact V].
    + rewrite Tab, table_at_snoc, Ht by done. simpl. unfold step, ld in *. rewrite E. f_equal.
      cbn [phys st upd eta_of]. rewrite ldq_insert, decide_True by done. by rewrite O1.
    + destruct Hq as [Q1 Q2]. split; [exact Q1|]. cbn. lia.
    + intros x D. split.
      * destruct D as (D1 & D2 & D3). split_and!; [done|done|]. intros l' t' Hl'. rewrite Tab by done. by apply D3.
      * intros a Ha. cbn. rewrite ldq_insert, decide_False; [done|]. by eapply Hea.
  - destruct (alloc_zeroed_quiet s n Hq Hn) as (f & p & -> & T).
    pose proof (tk_pos _ _ _ T). pose proof (tk_align _ _ _ T). replace (p =? 0) with false by lia.
    pose proof Hq as [Q1 Q2]. fold (table_entry p).
    do 2 eexists. split; [reflexivity|]. split; [by eapply absent_wf|].
    destruct (table_entry_spec p) as (E1 & E2 & _);
      [pose proof (page_lt_52 s p Q1 (tk_pos _ _ _ T) (tk_bound _ _ _ T)); lia|apply T|]. split_and!.
    + rewrite (absent_tables s pml4 l t i) by done. rewrite decide_True by done. f_equal.
      unfold ld. cbn [phys st upd eta_of]. rewrite ldq_insert, decide_True by done. done.
    + split; [apply T|]. cbn. rewrite (tk_count _ _ _ T). lia.
    + by split_and!.
    + intros x D. pose proof D as (D1 & D2 & D3). assert (p / 4096 <> x) as Hpx
        by (pose proof (tk_free _ _ _ T); intros <-; congruence). split.
      * split_and!; [done| |].
        { change (Pmm.used f x = true). rewrite (tk_used _ _ _ T) by done. by rewrite D2, orb_true_r. }
        intros l' t' Hl'. rewrite (absent_tables s pml4 l t i) by done.
        destruct (decide (l' = l ++ [i])); [by intros [= <-]|by apply D3].
      * intros a Ha. cbn -[fill_page]. rewrite ldq_insert, decide_False by (by eapply Hea).
        rewrite ldq_fill_page, decide_False; [done|]. intros [Hr _]. apply Hpx. rewrite <- Ha. zsolve.
    + intros v Hv. by eapply absent_ptes.
Qed.

(** Writing a leaf entry changes the mapping of its page only. *)
(** Writing a leaf entry changes no other entry and no table. *)
Lemma leaf_write_old s pml4 virt t e l0 t0 j :
  space_wf s pml4 -> user_addr virt -> table_at (phys s) pml4 (path_of virt) = Some t ->
  user_path l0 -> table_at (phys s) pml4 l0 = Some t0 -> 0 <= j < 512 -> (l0, j) <> (path_of virt, PT_INDEX virt) ->
  ldq (phys (st (t + 8 * PT_INDEX virt) e s)) (t0 + 8 * j) = ldq (phys s) (t0 + 8 * j).
Proof.
  intros Hw Hv Ht H0 T0 Hj Hne. pose proof (user_path_of virt Hv) as Hpv.
  destruct (index_range virt) as (_ & _ & _ & Hr).
  change (phys (st _ e s)) with (<[t + 8 * PT_INDEX virt := e]> (phys s)). rewrite ldq_insert, decide_False; [done|].
  intros E. destruct (sw_table _ _ Hw _ t Hpv Ht) as (A & _). destruct (sw_table _ _ Hw _ t0 H0 T0) as (B & _).
  destruct (entry_inj _ _ _ _ A B Hr Hj E) as [<- <-]. apply Hne. f_equal. by eapply (sw_inj _ _ Hw).
Qed.

Lemma leaf_write_inner virt l0 j : user_path (l0 ++ [j]) -> (l0, j) <> (path_of virt, PT_INDEX virt).
Proof. intros (_ & L & _) [= -> _]. rewrite length_app in L. simpl in L. lia. Qed.

Lemma leaf_write_tables s pml4 virt t e l :
  space_wf s pml4 -> user_addr virt -> table_at (phys s) pml4 (path_of virt) = Some t -> user_path l ->
  table_at (phys (st (t + 8 * PT_INDEX virt) e s)) pml4 l = table_at (phys s) pml4 l.
Proof.
  intros Hw Hv Ht Hl. apply table_at_same; [|done]. intros l0 t0 j H0 T0.
  destruct (user_path_snoc _ _ H0) as [H0' Hj]. unfold step.
  by rewrite (leaf_write_old s pml4 virt t e l0) by auto using leaf_write_inner.
Qed.

Lemma leaf_write s pml4 virt t e :
  space_wf s pml4 -> user_addr virt -> table_at (phys s) pml4 (path_of virt) = Some t ->
  let s' := st (t + 8 * PT_INDEX virt) e s in
  space_wf s' pml4 /\ keeps_data s s' pml4 /\
  forall v, user_addr v ->
    pte_val s' pml4 v = if decide (v / 4096 = virt / 4096) then e else pte_val s pml4 v.
Proof.
  intros Hw Hv Ht s'. pose proof (user_path_of virt Hv) as Hpv.
  assert (forall a, ldq (phys s') a = if decide (t + 8 * PT_INDEX virt = a) then e else ldq (phys s) a) as Hld
    by (intros a; apply ldq_insert).
  pose proof (fun l0 t0 j => leaf_write_old s pml4 virt t e l0 t0 j Hw Hv Ht) as Hold. fold s' in Hold.
  pose proof (fun l => leaf_write_tables s pml4 virt t e l Hw Hv Ht) as Htab. fold s' in Htab.
  pose proof (leaf_write_inner virt) as Hlen. destruct (index_range virt) as (_ & _ & _ & Hr).
  assert (space_wf s' pml4) as Hw'.
  { constructor.
    - intros l0 t0 H0. rewrite Htab by done. by apply (sw_table _ _ Hw).
    - intros l0 l1 t0 H0 H1. rewrite !Htab by done. by apply (sw_inj _ _ Hw).
    - intros l0 t0 j H0. destruct (user_path_snoc _ _ H0) as [H0' Hj]. rewrite Htab by done. intros T0 Hn.
      rewrite (Hold l0) by auto. by apply (sw_huge _ _ Hw l0). }
  split; [done|]. split.
  { destruct (sw_table _ _ Hw _ t Hpv Ht) as (A & _). intros n (D1 & D2 & D3). split.
    - split_and!; [done|done|]. intros l' t' Hl'. rewrite Htab by done. by apply D3.
    - intros a Ha. rewrite Hld, decide_False; [done|]. intros <-. apply (D3 _ t Hpv Ht). zsolve. }
  intros v Hv'. pose proof (user_path_of v Hv') as Hpv'. destruct (index_range v) as (_ & _ & _ & Hr'). rewrite !pte_val_table, Htab by done.
  destruct (decide (v / 4096 = virt / 4096)) as [E|Hne].
  - destruct (same_page_path v virt E) as [-> ->]. rewrite Ht, Hld, decide_True; done.
  - destruct (table_at (phys s) pml4 (path_of v)) as [t3|] eqn:E3; [|done].
    apply (Hold (path_of v)); try done. intros [= E1 E2 E3' E4]. apply Hne, path_inj; try done.
    unfold path_of. congruence.
Qed.

Lemma keeps_data_trans s1 s2 s3 pml4 :
  keeps_data s1 s2 pml4 -> keeps_data s2 s3 pml4 -> keeps_data s1 s3 pml4.
Proof.
  intros H1 H2 n D. destruct (H1 n D) as [D1 F1]. destruct (H2 n D1) as [D2 F2].
  split; [done|]. intros a Ha. by rewrite F2, F1.
Qed.

(** States with the same memory and frames have the same address spaces. *)
Lemma space_same s s' pml4 :
  phys s' = phys s -> frames s' = frames s ->
  (space_wf s pml4 -> space_wf s' pml4) /\ (forall v, pte_val s' pml4 v = pte_val s pml4 v) /\
  keeps_data s s' pml4 /\ (forall n, quiet s n -> quiet s' n).
Proof.
  intros E1 E2. split_and!.
  - intros [H1 H2 H3]. constructor; rewrite ?E1, ?E2; done.
  - intros v. unfold pte_val, user_vm_get_pte, ld. by rewrite E1.
  - intros n D. unfold data_page in *. rewrite E1, E2. done.
  - intros n. unfold quiet. by rewrite E2.
Qed.

Lemma rmap_set_fields p q v s :
  phys (rmap_set p q v s) = phys s /\ frames (rmap_set p q v s) = frames s /\
  swap_slots (rmap_set p q v s) = swap_slots s /\ disk (rmap_set p q v s) = disk s /\
  sc (rmap_set p q v s) = sc s /\ swap_ready (rmap_set p q v s) = swap_ready s.
Proof. unfold rmap_set. by case_if. Qed.

Lemma map_page_spec s pml4 virt p flags n :
  space_wf s pml4 -> user_addr virt -> quiet s n -> 3 <= n ->
  let '(s', r) := user_vm_map_page pml4 virt p flags s in
  r = 0 /\ space_wf s' pml4 /\ quiet s' (n - 3) /\ keeps_data s s' pml4 /\
  swap_slots s' = swap_slots s /\ disk s' = disk s /\ sc s' = sc s /\
  forall v, user_addr v ->
    pte_val s' pml4 v =
    if decide (v / 4096 = virt / 4096)
    then Z.lor (Z.lor (Z.land p PTE_ADDR_MASK) flags) PTE_PRESENT else pte_val s pml4 v.
Proof.
  intros Hw Hv Hq Hn. pose proof (user_path_of virt Hv) as Hp3.
  pose proof (user_path_snoc [PML4_INDEX virt; PDPT_INDEX virt] (PD_INDEX virt) Hp3) as [Hp2 _].
  pose proof (user_path_snoc [PML4_INDEX virt] (PDPT_INDEX virt) Hp2) as [Hp1 _].
  unfold user_vm_map_page.
  destruct (user_level_spec s pml4 [] pml4 (PML4_INDEX virt) n Hw Hp1 eq_refl Hq ltac:(lia))
    as (s1 & t1 & -> & W1 & T1 & Q1 & R1 & K1 & V1).
  destruct (user_level_spec s1 pml4 [PML4_INDEX virt] t1 (PDPT_INDEX virt) _ W1 Hp2 T1 Q1 ltac:(lia))
    as (s2 & t2 & -> & W2 & T2 & Q2 & R2 & K2 & V2).
  destruct (user_level_spec s2 pml4 [PML4_INDEX virt; PDPT_INDEX virt] t2 (PD_INDEX virt) _ W2 Hp3 T2 Q2 ltac:(lia))
    as (s3 & t3 & -> & W3 & T3 & Q3 & R3 & K3 & V3).
  set (e := Z.lor (Z.lor (Z.land p PTE_ADDR_MASK) flags) PTE_PRESENT).
  destruct (leaf_write s3 pml4 virt t3 e W3 Hv T3) as (W4 & K4 & V4).
  set (s4 := st _ e s3) in *. change (sc s4) with (sc s3).
  set (s5 := if virt <? KERNEL_VMA then _ else s4).
  assert (phys s5 = phys s4 /\ frames s5 = frames s4 /\ swap_slots s5 = swap_slots s3 /\
    disk s5 = disk s3 /\ sc s5 = sc s3) as (F1 & F2 & F3 & F4 & F5).
  { unfold s5. destruct (virt <? KERNEL_VMA); [|done]. destruct (current_process (sc s3)); [|done].
    destruct (rmap_set_fields p (pid (proc_at (sc s3) n0)) virt s4) as (-> & -> & -> & -> & -> & _). done. }
  destruct (space_same s4 s5 pml4 F1 F2) as (G1 & G2 & G3 & G4).
  destruct R1 as (_ & A1 & _ & _ & A2 & A3), R2 as (_ & B1 & _ & _ & B2 & B3), R3 as (_ & C1 & _ & _ & C2 & C3).
  split; [done|]. split; [by apply G1|]. split; [apply G4; replace (n - 3) with (n - 1 - 1 - 1) by lia; exact Q3|].
  split; [exact (keeps_data_trans _ _ _ _ K1 (keeps_data_trans _ _ _ _ K2
    (keeps_data_trans _ _ _ _ K3 (keeps_data_trans _ _ _ _ K4 G3))))|].
  split_and!; [congruence..|]. intros v Hv'. rewrite G2, V4 by done.
  destruct (decide _); [done|]. by rewrite V3, V2, V1.
Qed.

(** Mapping a user page is an update of the address space seen as a map from
    pages to entries: with enough free memory [user_vm_map_page] succeeds, the
    page of [virt] gets the frame with the given flags, every other page keeps
    its entry, and the page tables stay well formed. *)
Theorem user_vm_map_page_correct s pml4 virt p flags :
  space_wf s pml4 -> user_addr virt -> quiet s 3 ->
  let '(s', r) := user_vm_map_page pml4 virt p flags s in
  r = 0 /\ space_wf s' pml4 /\
  forall v, user_addr v ->
    pte_val s' pml4 v =
    if decide (v / 4096 = virt / 4096)
    then Z.lor (Z.lor (Z.land p PTE_ADDR_MASK) flags) PTE_PRESENT else pte_val s pml4 v.
Proof.
  intros Hw Hv Hq. pose proof (map_page_spec s pml4 virt p flags 3 Hw Hv Hq ltac:(lia)) as H.
  destruct (user_vm_map_page _ _ _ _ _) as [s' r]. naive_solver.
Qed.

(** ** Copy on write *)

(** Giving up a reference to a frame that holds no table keeps the space. *)
Lemma space_unref s pml4 q :
  Pmm.safe (frames s) -> space_wf s pml4 -> 0 <= q ->
  (forall l t, user_path l -> table_at (phys s) pml4 l = Some t -> t / 4096 <> q / 4096) ->
  space_wf (s <| frames ::= Pmm.pmm_page_unref q |>) pml4.
Proof.
  intros (W & _) Hw Hq Hn. destruct Hw as [H1 H2 H3]. constructor; [|exact H2|exact H3].
  intros l t Hl Ht. destruct (H1 l t Hl Ht) as (A & B & C & D). cbn [frames upd eta_of phys] in *.
  assert (Pmm.total_pages (Pmm.pmm_page_unref q (frames s)) = Pmm.total_pages (frames s)) as E
    by (unfold Pmm.pmm_page_unref; by repeat case_if).
  cbn. rewrite E. split_and!; [done|done|done|].
  destruct (Pmm.used_page_unref (frames s) q (t / 4096) W Hq ltac:(zsolve)) as [->|(E' & _)]; [done|].
  by destruct (Hn l t Hl Ht).
Qed.

Lemma get_pte_val s pml4 v a :
  user_vm_get_pte s pml4 v = Some a -> pte_val s pml4 v = ld s a.
Proof. intros E. unfold pte_val. by rewrite E. Qed.

(** The private, writable entry made from the entry [e] for the frame [x]. *)
Definition private_entry (x e : Z) : Z :=
  Z.lor (Z.lor (Z.land x PTE_ADDR_MASK) (Z.land (Z.land e (Z.lnot PTE_ADDR_MASK)) (Z.lnot PTE_COW))) PTE_WRITABLE.

Lemma low_bits x k : x mod 4096 = 0 -> 0 <= k < 12 -> Z.testbit x k = false.
Proof.
  intros Hm Hk. rewrite <- (Z.mod_pow2_bits_low x 12 k) by lia. change (2 ^ 12) with 4096.
  by rewrite Hm, Z.bits_0.
Qed.

Lemma mask_range e : 0 <= Z.land e PTE_ADDR_MASK < 2 ^ 52 /\ Z.land e PTE_ADDR_MASK mod 4096 = 0.
Proof. rewrite mask_spec. zsolve. Qed.

Lemma private_entry_spec x e :
  0 <= x < 2 ^ 52 -> x mod 4096 = 0 -> has e PTE_PRESENT = true ->
  Z.land (private_entry x e) PTE_ADDR_MASK = x /\ has (private_entry x e) PTE_PRESENT = true /\
  has (private_entry x e) PTE_WRITABLE = true /\ has (private_entry x e) PTE_COW = false.
Proof.
  intros Hx Hm Hp. assert (Z.land x PTE_ADDR_MASK = x) as Ex.
  { rewrite <- (Z.add_0_r x) at 1. apply mask_page; lia. }
  unfold private_entry. rewrite Ex.
  change PTE_PRESENT with (2 ^ 0) in *. rewrite has_bit in Hp by lia.
  split_and!.
  - rewrite !Z.land_lor_distr_l, Ex. change (Z.land PTE_WRITABLE PTE_ADDR_MASK) with 0. rewrite Z.lor_0_r.
    replace (Z.land (Z.land (Z.land e (Z.lnot PTE_ADDR_MASK)) (Z.lnot PTE_COW)) PTE_ADDR_MASK) with 0;
      [apply Z.lor_0_r|].
    symmetry.
    apply Z.bits_inj'. intros n Hn. rewrite !Z.land_spec, !Z.lnot_spec, Z.bits_0 by lia.
    destruct (Z.testbit PTE_ADDR_MASK n); simpl; by rewrite ?andb_false_r.
  - rewrite has_bit, !Z.lor_spec, !Z.land_spec, Hp by lia. cbn. by rewrite orb_true_r.
  - change PTE_WRITABLE with (2 ^ 1). rewrite has_bit, Z.lor_spec by lia. cbn. apply orb_true_r.
  - change PTE_COW with (2 ^ 9). rewrite has_bit, !Z.lor_spec, !Z.land_spec by lia.
    rewrite low_bits by (done || lia). cbn. by rewrite andb_false_r.
Qed.

Lemma words_in_page p i : p mod 4096 = 0 -> 0 <= i < 512 -> (p + 8 * i) / 4096 = p / 4096.
Proof. intros. zsolve. Qed.

(** Taking a fresh frame and writing only to it does not affect the address
    space. *)
Lemma fresh_frame s s' pml4 f p :
  space_wf s pml4 -> taken (frames s) f p -> frames s' = f ->
  (forall a, a / 4096 <> p / 4096 -> ldq (phys s') a = ldq (phys s) a) ->
  space_wf s' pml4 /\ keeps_data s s' pml4 /\
  (forall l, user_path l -> table_at (phys s') pml4 l = table_at (phys s) pml4 l) /\
  (forall v, user_addr v -> pte_val s' pml4 v = pte_val s pml4 v) /\
  (forall l t, user_path l -> table_at (phys s) pml4 l = Some t -> t / 4096 <> p / 4096).
Proof.
  intros Hw T Hf Hph. destruct T as [P1 P2 P3 P4 P5 P6 P7 P8 P9].
  assert (forall l t, user_path l -> table_at (phys s) pml4 l = Some t -> t / 4096 <> p / 4096) as Hdiff.
  { intros l t Hl Ht E. destruct (sw_table _ _ Hw l t Hl Ht) as (_ & _ & _ & U). congruence. }
  assert (forall l t j, user_path l -> table_at (phys s) pml4 l = Some t -> 0 <= j < 512 ->
    ldq (phys s') (t + 8 * j) = ldq (phys s) (t + 8 * j)) as Hold.
  { intros l t j Hl Ht Hj. apply Hph. destruct (sw_table _ _ Hw l t Hl Ht) as (A & _).
    rewrite words_in_page by done. by apply (Hdiff l). }
  assert (forall l, user_path l -> table_at (phys s') pml4 l = table_at (phys s) pml4 l) as Htab.
  { intros l Hl. apply table_at_same; [|done]. intros l0 t0 j H0 T0.
    destruct (user_path_snoc _ _ H0) as [H0' Hj]. unfold step. by rewrite (Hold l0). }
  assert (space_wf s' pml4) as Hw'.
  { constructor.
    - intros l0 t0 H0. rewrite Htab by done. rewrite Hf, P6. intros T0.
      destruct (sw_table _ _ Hw l0 t0 H0 T0) as (A & B & C & D). rewrite P5, D by zsolve. by rewrite orb_true_r.
    - intros l0 l1 t0 H0 H1. rewrite !Htab by done. by apply (sw_inj _ _ Hw).
    - intros l0 t0 j H0. destruct (user_path_snoc _ _ H0) as [H0' Hj]. rewrite Htab by done. intros T0 Hn.
      rewrite (Hold l0) by done. by apply (sw_huge _ _ Hw l0). }
  split_and!; [done| |done| |done].
  - intros n (D1 & D2 & D3). assert (p / 4096 <> n) as Hne by (intros <-; congruence). split.
    + split_and!; [done| |].
      * rewrite Hf, P5, D2 by done. by rewrite orb_true_r.
      * intros l t Hl. rewrite Htab by done. by apply D3.
    + intros a Ha. apply Hph. congruence.
  - intros v Hv. rewrite !pte_val_table, Htab by (done || by apply user_path_of).
    destruct (table_at (phys s) pml4 (path_of v)) as [t|] eqn:E; [|done].
    destruct (index_range v) as (_ & _ & _ & Hr). apply (Hold (path_of v)); [by apply user_path_of|done|done].
Qed.

Lemma fill_outside p g m a : p mod 4096 = 0 -> a / 4096 <> p / 4096 -> ldq (fill_page p g m) a = ldq m a.
Proof. intros Hp Ha. rewrite ldq_fill_page, decide_False; [done|]. intros [Hr _]. apply Ha. zsolve. Qed.

Lemma fill_inside p g m i : p mod 4096 = 0 -> 0 <= i < 512 -> ldq (fill_page p g m) (p + 8 * i) = g i.
Proof. intros Hp Hi. rewrite ldq_fill_page, decide_True by (split; [lia|zsolve]). f_equal. zsolve. Qed.

Lemma fresh_fill s pml4 f p g :
  space_wf s pml4 -> taken (frames s) f p ->
  let s' := s <| frames := f |> <| phys ::= fill_page p g |> in
  space_wf s' pml4 /\ keeps_data s s' pml4 /\
  (forall l, user_path l -> table_at (phys s') pml4 l = table_at (phys s) pml4 l) /\
  (forall v, user_addr v -> pte_val s' pml4 v = pte_val s pml4 v) /\
  (forall l t, user_path l -> table_at (phys s) pml4 l = Some t -> t / 4096 <> p / 4096).
Proof.
  intros Hw T s'. apply (fresh_frame _ _ _ f); [done..|]. intros a Ha. apply fill_outside; [apply T|done].
Qed.

Lemma refcount_unref f a : Pmm.wf f -> 0 <= a -> 1 < Pmm.pmm_page_refcount a f ->
  Pmm.pmm_page_refcount a (Pmm.pmm_page_unref a f) = Pmm.pmm_page_refcount a f - 1.
Proof.
  intros W Ha. unfold Pmm.pmm_page_refcount, Pmm.pmm_page_unref.
  destruct (a / PAGE_SIZE <? Pmm.total_pages f) eqn:E; [|lia]. intros Hr.
  replace (0 <? _) with true by lia. cbn [andb].
  pose proof (Pmm.wf_refcount_len _ W). unfold PAGE_SIZE in *. b2p.
  replace (_ - 1 =? 0) with false by lia. cbn [Pmm.total_pages Pmm.page_refcount Pmm.set_refcount].
  replace (a / 4096 <? Pmm.total_pages f) with true by lia. by rewrite zget_zset_eq by zsolve.
Qed.

Lemma refcount_taken f f' p a : taken f f' p -> 0 <= a -> a / 4096 <> p / 4096 ->
  Pmm.pmm_page_refcount a f' = Pmm.pmm_page_refcount a f.
Proof.
  intros T Ha Hne. unfold Pmm.pmm_page_refcount. rewrite (tk_total _ _ _ T). case_if; [|done].
  unfold PAGE_SIZE in *. b2p. rewrite (tk_ref _ _ _ T) by zsolve. by rewrite decide_False by lia.
Qed.

(** The copying branch. *)
Lemma cow_copy s pml4 v t e old f new :
  space_wf s pml4 -> user_addr v -> table_at (phys s) pml4 (path_of v) = Some t -> Pmm.safe (frames s) ->
  taken (frames s) f new -> data_page s pml4 (old / 4096) -> 0 <= old -> old mod 4096 = 0 ->
  let s' := st (t + 8 * PT_INDEX v) e ((copy_page new old (s <| frames := f |>)) <| frames ::= Pmm.pmm_page_unref old |>) in
  space_wf s' pml4 /\
  (forall w, user_addr w -> pte_val s' pml4 w = if decide (w / 4096 = v / 4096) then e else pte_val s pml4 w) /\
  (forall i, 0 <= i < 512 -> ldq (phys s') (new + 8 * i) = ldq (phys s) (old + 8 * i) /\
                             ldq (phys s') (old + 8 * i) = ldq (phys s) (old + 8 * i)) /\
  old / 4096 <> new / 4096.
Proof.
  intros Hw Hv Ht Hsafe T D Ho Hm s'. pose proof (user_path_of v Hv) as Hpv.
  set (s2 := copy_page new old (s <| frames := f |>)).
  destruct (fresh_fill s pml4 f new (fun i => ldq (phys s) (old + 8 * i)) Hw T) as (W2 & K2 & T2 & V2 & N2).
  change (s <| frames := f |> <| phys ::= _ |>) with s2 in *.
  set (s3 := s2 <| frames ::= Pmm.pmm_page_unref old |>).
  assert (space_wf s3 pml4) as W3.
  { apply space_unref; [apply T|done|done|]. intros l x Hl. rewrite T2 by done. by apply D. }
  assert (table_at (phys s3) pml4 (path_of v) = Some t) as T3 by (rewrite <- Ht; by apply T2).
  destruct (leaf_write s3 pml4 v t e W3 Hv T3) as (W4 & _ & V4).
  assert (old / 4096 <> new / 4096) as Hne
    by (destruct D as (_ & U & _); pose proof (tk_free _ _ _ T); intros E; congruence).
  pose proof (tk_align _ _ _ T) as Hal.
  assert (forall a, a / 4096 = new / 4096 \/ a / 4096 = old / 4096 -> ldq (phys s') a = ldq (phys s2) a) as Hpt.
  { intros a Ha. change (phys s') with (<[t + 8 * PT_INDEX v := e]> (phys s2)).
    rewrite ldq_insert, decide_False; [done|]. intros <-.
    destruct (sw_table _ _ Hw _ t Hpv Ht) as (A & _). destruct (index_range v) as (_ & _ & _ & Hr).
    rewrite words_in_page in Ha by done. destruct Ha as [Ha|Ha]; [by apply (N2 _ t Hpv Ht)|].
    destruct D as (_ & _ & D). by apply (D _ t Hpv Ht). }
  split_and!; [exact W4| | |done].
  - intros w Hw'. rewrite V4 by done. destruct (decide _); [done|].
    by apply V2.
  - intros i Hi. split.
    + rewrite Hpt by (left; by apply words_in_page).
      change (phys s2) with (fill_page new (fun i => ldq (phys s) (old + 8 * i)) (phys s)).
      rewrite ldq_fill_page, decide_True by (split; [lia|zsolve]). do 2 f_equal. zsolve.
    + rewrite Hpt by (right; by apply words_in_page). apply (K2 (old / 4096) D). by apply words_in_page.
Qed.


(** *** Swapping a page out and in *)

(** The page of [v] is in swap slot [k] with the words [w]. *)
Definition swapped_out (s : vm) (pml4 v k : Z) (w : Z -> Z) : Prop :=
  pte_val s pml4 v = Z.lor (u64 (Z.shiftl k 12)) PTE_SWAPPED /\ 0 <= k < SWAP_MAX_PAGES /\
  k < Z.of_nat (length (swap_slots s)) /\ zget (swap_slots s) k = true /\
  forall i, 0 <= i < 512 -> ldq (disk s) (slot_base k + 8 * i) = w i.

Lemma swap_entry_spec k : 0 <= k < SWAP_MAX_PAGES ->
  let e := Z.lor (u64 (Z.shiftl k 12)) PTE_SWAPPED in
  has e PTE_SWAPPED = true /\ has e PTE_PRESENT = false /\ s32 (Z.shiftr e 12) = k.
Proof.
  intros Hk e. unfold SWAP_MAX_PAGES in Hk.
  assert (e = k * 4096 + 1024) as E.
  { unfold e, u64. rewrite Z.shiftl_mul_pow2 by lia. change (2 ^ 12) with 4096. rewrite Z.mod_small by lia.
    apply (lor_low _ _ 12); [lia| |unfold PTE_SWAPPED; lia]. change (2 ^ 12) with 4096. zsolve. }
  split_and!.
  - change PTE_SWAPPED with (2 ^ 10). rewrite has_bit by lia. rewrite E, Z.testbit_true by lia.
    change (2 ^ 10) with 1024. zsolve.
  - change PTE_PRESENT with (2 ^ 0). rewrite has_bit by lia. rewrite E. apply Z.testbit_false; [lia|].
    change (2 ^ 0) with 1. zsolve.
  - rewrite E, Z.shiftr_div_pow2 by lia. change (2 ^ 12) with 4096.
    replace ((k * 4096 + 1024) / 4096) with k by zsolve. unfold s32, u32. cbn zeta.
    rewrite Z.mod_small by lia. case_if; b2p; lia.
Qed.

(** The entry that swap-in installs. *)
Lemma user_entry_spec p : 0 <= p < 2 ^ 52 -> p mod 4096 = 0 ->
  let e := Z.lor (Z.lor (Z.lor p PTE_PRESENT) PTE_USER) PTE_WRITABLE in
  Z.land e PTE_ADDR_MASK = p /\ has e PTE_PRESENT = true /\ has e PTE_WRITABLE = true.
Proof.
  intros Hp Hm e. assert (e = table_entry p) as E.
  { unfold e, table_entry. apply Z.bits_inj'. intros n Hn. rewrite !Z.lor_spec. by repeat destruct (Z.testbit _ _). }
  destruct (table_entry_spec p Hp Hm) as (H1 & H2 & _). rewrite <- E in H1, H2. split_and!; [done..|].
  unfold e. change PTE_WRITABLE with (2 ^ 1). rewrite has_bit by lia.
  rewrite Z.lor_spec. apply orb_true_r.
Qed.

Lemma present_table s pml4 v e : space_wf s pml4 -> user_addr v -> pte_val s pml4 v = e -> e <> 0 ->
  exists t, table_at (phys s) pml4 (path_of v) = Some t /\
    user_vm_get_pte s pml4 v = Some (t + 8 * PT_INDEX v) /\ ld s (t + 8 * PT_INDEX v) = e.
Proof.
  intros Hw Hv He Hn. unfold pte_val in He. rewrite get_pte_table in * by done.
  destruct (table_at _ _ _) as [t|]; [|done]. by exists t.
Qed.

(** Evicting a page writes its words to a free swap slot, marks its entry as
    swapped out and releases the frame; no other page of the address space is
    affected. *)
Theorem evict_page_correct s pml4 v idx total :
  space_wf s pml4 -> user_addr v -> Pmm.safe (frames s) -> ata_ok s = true ->
  Z.of_nat (length (swap_slots s)) = SWAP_MAX_PAGES ->
  forall pte p k, user_vm_get_pte s pml4 v = Some pte -> p = Z.land (ld s pte) PTE_ADDR_MASK ->
  data_page s pml4 (p / 4096) -> find_index negb (swap_slots s) = Some k ->
  let '(s', r) := evict_page pte p idx total s in
  r = 0 /\ space_wf s' pml4 /\ Pmm.safe (frames s') /\ ata_ok s' = true /\
  swapped_out s' pml4 v (Z.of_nat k) (fun i => ldq (phys s) (p + 8 * i)) /\
  frames s' = Pmm.pmm_page_unref p (frames s) /\
  (forall w, user_addr w -> w / 4096 <> v / 4096 -> pte_val s' pml4 w = pte_val s pml4 w) /\
  (forall a, a <> pte -> ldq (phys s') a = ldq (phys s) a).
Proof.
  intros Hw Hv Hs Ha Hl pte p k Hg Hpe D Hk. destruct (mask_range (ld s pte)) as [Hr Hm]. rewrite <- Hpe in Hr, Hm.
  assert (exists t, table_at (phys s) pml4 (path_of v) = Some t /\ pte = t + 8 * PT_INDEX v) as (t & Ht & ->).
  { rewrite get_pte_table in Hg by done. destruct (table_at _ _ _) as [t|]; [|done]. simpl in Hg. exists t. split; [done|congruence]. }
  clear Hpe. pose proof (find_index_lt _ _ _ Hk) as Hlt.
  unfold evict_page, swap_alloc_slot. rewrite Hk. replace (Z.of_nat k <? 0) with false by lia.
  unfold swap_write_page. match goal with |- context [ata_ok ?x] => change (ata_ok x) with (ata_ok s) end.
  rewrite Ha. change (0 <? 0) with false. cbv beta iota zeta.
  set (e := Z.lor (u64 (Z.shiftl (Z.of_nat k) 12)) PTE_SWAPPED).
  destruct (leaf_write s pml4 v t e Hw Hv Ht) as (W & K & V).
  set (s1 := st (t + 8 * PT_INDEX v) e s) in *.
  assert (space_wf (s1 <| frames ::= Pmm.pmm_page_unref p |>) pml4) as W1.
  { apply space_unref; [done|done|lia|]. intros l x Hlx Hx. destruct (K _ D) as [(_ & _ & D3) _]. by apply (D3 l). }
  set (s2 := s1 <| frames ::= Pmm.pmm_page_unref p |>) in *.
  match goal with |- context [rmap_clear p ?x] => set (s3 := x) end.
  set (s' := (rmap_clear p s3) <| frames ::= Pmm.pmm_page_unref p |> <| clock_hand := (idx + 1) mod total |>).
  assert (phys s' = phys s2 /\ frames s' = frames s2 /\ swap_slots s' = swap_slots s3 /\ disk s' = disk s3 /\
          ata_ok s' = ata_ok s) as (E1 & E2 & E3 & E4 & E5) by (unfold s', rmap_clear; by case_if).
  destruct (space_same s2 s' pml4 E1 E2) as (F1 & F2 & _).
  split_and!; [done|by apply F1| |by rewrite E5| |by rewrite E2| |].
  - rewrite E2. by apply (Pmm.safe_step (Pmm.OpUnref p)); [|simpl; lia].
  - unfold swapped_out. rewrite E3, E4, F2. change (pte_val s2 pml4 v) with (pte_val s1 pml4 v).
    rewrite V, decide_True by done. split_and!; [done|lia|lia| | |].
    + change (swap_slots s3) with (<[k:=true]> (swap_slots s)). rewrite length_insert. lia.
    + change (zget (<[k:=true]> (swap_slots s)) (Z.of_nat k) = true). unfold zget. rewrite Nat2Z.id.
      by apply list_lookup_total_insert_eq.
    + intros i Hi. change (disk s3) with (fill_page (slot_base (Z.of_nat k)) (fun i => ldq (phys s) (p + 8 * i)) (disk s)).
      rewrite ldq_fill_page, decide_True by (split; [lia|zsolve]). do 2 f_equal. zsolve.
  - intros w Hw' Hne. rewrite F2. change (pte_val s2 pml4 w) with (pte_val s1 pml4 w).
    by rewrite V, decide_False.
  - intros a Hne. rewrite E1. change (phys s2) with (<[t + 8 * PT_INDEX v := e]> (phys s)).
    by rewrite ldq_insert, decide_False.
Qed.

(** Reading a page into a fresh frame and mapping it there. *)
Lemma map_fresh s pml4 v t f new g :
  space_wf s pml4 -> user_addr v -> table_at (phys s) pml4 (path_of v) = Some t ->
  Pmm.safe (frames s) -> taken (frames s) f new ->
  let e := Z.lor (Z.lor (Z.lor new PTE_PRESENT) PTE_USER) PTE_WRITABLE in
  let s' := st (t + 8 * PT_INDEX v) e (s <| frames := f |> <| phys ::= fill_page new g |>) in
  space_wf s' pml4 /\ keeps_data s s' pml4 /\ pte_val s' pml4 v = e /\
  has e PTE_PRESENT = true /\ has e PTE_WRITABLE = true /\
  (forall i, 0 <= i < 512 -> ldq (phys s') (Z.land e PTE_ADDR_MASK + 8 * i) = g i) /\
  (forall x, user_addr x -> x / 4096 <> v / 4096 -> pte_val s' pml4 x = pte_val s pml4 x).
Proof.
  intros Hw Hv Ht Hs T e s'. pose proof (user_path_of v Hv) as Hpv.
  destruct (fresh_fill s pml4 f new g Hw T) as (W1 & K1 & T1 & V1 & N1).
  set (s1 := s <| frames := f |> <| phys ::= fill_page new g |>) in *.
  destruct (leaf_write s1 pml4 v t e W1 Hv) as (W2 & K2 & V2); [by rewrite T1|].
  destruct (user_entry_spec new) as (E1 & E2 & E3); [|apply T|].
  { pose proof (tk_bound _ _ _ T). pose proof (tk_pos _ _ _ T). destruct Hs as (W0 & _).
    pose proof (Pmm.wf_total _ W0). zsolve. }
  fold e in E1, E2, E3. pose proof (tk_align _ _ _ T) as Hal.
  split_and!; [done|by eapply keeps_data_trans| |done|done| |].
  - by rewrite V2, decide_True.
  - intros i Hi. rewrite E1. change (phys s') with (<[t + 8 * PT_INDEX v := e]> (fill_page new g (phys s))).
    rewrite ldq_insert, decide_False, ldq_fill_page, decide_True; [f_equal; zsolve|split; [lia|zsolve]|].
    intros E. apply (N1 _ t Hpv Ht). destruct (sw_table _ _ Hw _ t Hpv Ht) as (A & _).
    destruct (index_range v) as (_ & _ & _ & Hr).
    by rewrite <- (words_in_page t (PT_INDEX v)), E, words_in_page.
  - intros x Hx Hne. rewrite V2, decide_False by done. by apply V1.
Qed.

(** A fault on a page in swap gives it a fresh frame with the words that were
    swapped out and frees the slot; no other page of the address space is
    affected.  The new entry is writable whatever the page's protection was. *)
Theorem swap_in_correct s pml4 v k w :
  space_wf s pml4 -> user_addr v -> quiet s 1 -> ata_ok s = true -> swap_ready s = true ->
  swapped_out s pml4 v k w ->
  let '(s', r) := swap_handle_fault pml4 v s in
  let e := pte_val s' pml4 v in
  r = 0 /\ space_wf s' pml4 /\ has e PTE_PRESENT = true /\ has e PTE_WRITABLE = true /\
  (forall i, 0 <= i < 512 -> ldq (phys s') (Z.land e PTE_ADDR_MASK + 8 * i) = w i) /\
  zget (swap_slots s') k = false /\ keeps_data s s' pml4 /\
  (forall x, user_addr x -> x / 4096 <> v / 4096 -> pte_val s' pml4 x = pte_val s pml4 x).
Proof.
  intros Hw Hv Hq Ha Hr (He & Hk & Hlen & Hu & Hd).
  destruct (swap_entry_spec k Hk) as (B1 & B2 & B3). rewrite <- He in B1, B2, B3.
  destruct (present_table s pml4 v _ Hw Hv eq_refl) as (t & Ht & Hg & Hl); [intros E; by rewrite E in B1|].
  assert (user_vm_get_pte s pml4 (page_down v) = Some (t + 8 * PT_INDEX v)) as Hg'.
  { assert (page_down v / 4096 = v / 4096) as E by (rewrite page_down_spec; zsolve).
    assert (user_addr (page_down v)) by (unfold user_addr in *; rewrite page_down_spec; zsolve).
    destruct (same_page_path _ _ E) as [E1 E2]. by rewrite get_pte_table, E1, E2, Ht. }
  unfold swap_handle_fault. rewrite Hr, Hg', Hl, B1, B2, B3. cbn [negb orb].
  destruct (alloc_quiet s 1 Hq ltac:(lia)) as (f & new & -> & T).
  pose proof (tk_pos _ _ _ T). replace (new =? 0) with false by lia. cbv beta iota zeta.
  replace (new =? 0) with false by lia.
  unfold swap_read_page. match goal with |- context [ata_ok ?x] => change (ata_ok x) with (ata_ok s) end.
  rewrite Ha. change (0 <? 0) with false. cbv beta iota zeta.
  destruct (map_fresh s pml4 v t f new (fun i => ldq (disk s) (slot_base k + 8 * i)) Hw Hv Ht (proj1 Hq) T)
    as (W & K & Ev & P1 & P2 & C & V).
  change (disk (s <| frames := f |>)) with (disk s).
  set (s2 := st _ _ (s <| frames := f |> <| phys ::= fill_page new (fun i => ldq (disk s) (slot_base k + 8 * i)) |>)) in *.
  assert (swap_free_slot k s2 = s2 <| swap_slots := zset (swap_slots s) k false |>
          <| swap_used ::= fun n => u64 (n - 1) |>) as ->.
  { unfold swap_free_slot. change (swap_slots s2) with (swap_slots s). rewrite Hu.
    replace (0 <=? k) with true by lia. replace (k <? SWAP_MAX_PAGES) with true by lia. done. }
  set (s3 := s2 <| swap_slots := _ |> <| swap_used ::= _ |>).
  assert (forall s', phys s' = phys s3 -> frames s' = frames s3 -> swap_slots s' = swap_slots s3 ->
    let e := pte_val s' pml4 v in
    0 = 0 /\ space_wf s' pml4 /\ has e PTE_PRESENT = true /\ has e PTE_WRITABLE = true /\
    (forall i, 0 <= i < 512 -> ldq (phys s') (Z.land e PTE_ADDR_MASK + 8 * i) = w i) /\
    zget (swap_slots s') k = false /\ keeps_data s s' pml4 /\
    (forall x, user_addr x -> x / 4096 <> v / 4096 -> pte_val s' pml4 x = pte_val s pml4 x)) as Fin.
  { intros s' E1 E2 E3 e. destruct (space_same s2 s' pml4 E1 E2) as (F1 & F2 & F3 & _).
    unfold e. rewrite F2, Ev, E1, E3. split_and!; [done|by apply F1|done|done| | |by eapply keeps_data_trans|].
    - intros i Hi. rewrite C by done. by apply Hd.
    - apply zget_zset_eq. lia.
    - intros x Hx Hne. rewrite F2. by apply V. }
  destruct (find_index _ _) as [i|]; apply Fin; try done; apply rmap_set_fields.
Qed.

(** ** Memory management leaves the processes alone *)

Lemma sc_evict_page pte p idx total s : sc (evict_page pte p idx total s).1 = sc s.
Proof.
  unfold evict_page, swap_alloc_slot, swap_write_page, swap_free_slot, rmap_clear.
  destruct (find_index _ _); repeat case_if; reflexivity.
Qed.

Lemma sc_evict_scan n j start s : sc (evict_scan n j start s).1 = sc s.
Proof.
  revert j s. induction n as [|n IH]; intros j s; [done|]. cbn [evict_scan].
  destruct (evict_candidate _ _); [|by rewrite IH]. case_if; [by rewrite IH|apply sc_evict_page].
Qed.

Lemma sc_swap_evict_one s : sc (swap_evict_one s).1 = sc s.
Proof. unfold swap_evict_one. case_if; [done|apply sc_evict_scan]. Qed.

Lemma sc_evict_low n s : sc (evict_low n s) = sc s.
Proof. revert s. induction n as [|n IH]; intros s; [done|]. cbn. case_if; [|done]. by rewrite IH, sc_swap_evict_one. Qed.

Lemma sc_pmm_alloc_page s : sc (pmm_alloc_page s).1 = sc s.
Proof.
  unfold pmm_alloc_page. case_if; destruct (Pmm.pmm_take_page _); [apply sc_evict_low|reflexivity].
Qed.

Lemma sc_alloc_zeroed_page s : sc (alloc_zeroed_page s).1 = sc s.
Proof.
  unfold alloc_zeroed_page. pose proof (sc_pmm_alloc_page s) as E. destruct (pmm_alloc_page s). by case_if.
Qed.

Lemma sc_vmm_level b ea s : sc (vmm_level b ea s).1 = sc s.
Proof.
  unfold vmm_level. repeat (case_if; [done|]). pose proof (sc_alloc_zeroed_page s) as E.
  destruct (alloc_zeroed_page s). by case_if.
Qed.

Lemma sc_vmm_walk v b s : sc (vmm_walk v b s).1 = sc s.
Proof.
  unfold vmm_walk. pose proof (sc_vmm_level b (get_pml4 s + 8 * PML4_INDEX v) s) as E1.
  destruct (vmm_level _ _ s) as [s1 [t|]]; [|done]. cbn in E1.
  pose proof (sc_vmm_level b (t + 8 * PDPT_INDEX v) s1) as E2.
  destruct (vmm_level _ _ s1) as [s2 [t2|]]; [|cbn in *; congruence]. cbn in E2.
  pose proof (sc_vmm_level b (t2 + 8 * PD_INDEX v) s2) as E3.
  destruct (vmm_level _ _ s2) as [s3 [t3|]]; cbn in *; congruence.
Qed.

Lemma sc_vmm_map_page v p f s : sc (vmm_map_page v p f s).1 = sc s.
Proof.
  unfold vmm_map_page. pose proof (sc_vmm_walk v true s) as E. by destruct (vmm_walk v true s) as [s1 [a|]].
Qed.

Lemma sc_vmm_unmap_page v s : sc (vmm_unmap_page v s) = sc s.
Proof. unfold vmm_unmap_page. by destruct (vmm_walk v false s).2. Qed.

Lemma sc_user_level ea s : sc (user_level ea s).1 = sc s.
Proof.
  unfold user_level. case_if; [done|]. pose proof (sc_alloc_zeroed_page s) as E.
  destruct (alloc_zeroed_page s). by case_if.
Qed.

Lemma sc_rmap_set p q v s : sc (rmap_set p q v s) = sc s.
Proof. apply rmap_set_fields. Qed.

Lemma sc_user_vm_map_page r v p f s : sc (user_vm_map_page r v p f s).1 = sc s.
Proof.
  unfold user_vm_map_page. pose proof (sc_user_level (r + 8 * PML4_INDEX v) s) as E1.
  destruct (user_level _ s) as [s1 [t|]]; [|done]. cbn in E1.
  pose proof (sc_user_level (t + 8 * PDPT_INDEX v) s1) as E2.
  destruct (user_level _ s1) as [s2 [t2|]]; [|cbn in *; congruence]. cbn in E2.
  pose proof (sc_user_level (t2 + 8 * PD_INDEX v) s2) as E3.
  destruct (user_level _ s2) as [s3 [t3|]]; [|cbn in *; congruence]. cbn in E3.
  cbn. case_if; [|cbn; congruence].
  destruct (current_process (sc s3)); cbn; [rewrite sc_rmap_set|]; cbn; congruence.
Qed.

Lemma sc_for_while n i body s : (forall k s, sc (body k s).1 = sc s) -> sc (for_while n i body s).1 = sc s.
Proof.
  intros Hb. revert i s. induction n as [|n IH]; intros i s; [done|]. cbn [for_while].
  specialize (Hb i s). destruct (body i s) as [s1 ok]. cbn in Hb. destruct ok; [by rewrite IH|done].
Qed.

Lemma sc_for_loop n i body s : (forall k s, sc (body k s) = sc s) -> sc (for_loop n i body s) = sc s.
Proof. intros Hb. revert i s. induction n as [|n IH]; intros i s; [done|]. cbn [for_loop]. by rewrite IH. Qed.

Lemma sc_fork_leaf c pt i4 i3 i2 i1 s : sc (fork_leaf c pt i4 i3 i2 i1 s).1 = sc s.
Proof.
  unfold fork_leaf. case_if; [done|]. destruct (has (Z.land _ _) PTE_WRITABLE);
    (match goal with |- context [user_vm_map_page ?r ?v ?p ?f ?x] =>
       pose proof (sc_user_vm_map_page r v p f x) as E; destruct (user_vm_map_page r v p f x) end); exact E.
Qed.

Lemma sc_fork_pt c pt i4 i3 i2 s : sc (fork_pt c pt i4 i3 i2 s).1 = sc s.
Proof. apply sc_for_while. intros k s'. apply sc_fork_leaf. Qed.

Lemma sc_fork_pd c pd i4 i3 s : sc (fork_pd c pd i4 i3 s).1 = sc s.
Proof. apply sc_for_while. intros k s'. cbv beta zeta. case_if; [done|apply sc_fork_pt]. Qed.

Lemma sc_fork_pdpt c pdpt i4 s : sc (fork_pdpt c pdpt i4 s).1 = sc s.
Proof. apply sc_for_while. intros k s'. cbv beta zeta. case_if; [done|apply sc_fork_pd]. Qed.

Lemma sc_user_vm_create s : sc (user_vm_create_address_space s).1 = sc s.
Proof.
  unfold user_vm_create_address_space. pose proof (sc_alloc_zeroed_page s) as E.
  destruct (alloc_zeroed_page s) as [s1 r]. case_if; [done|]. cbn [fst].
  rewrite sc_for_loop; [exact E|done].
Qed.

Lemma sc_user_vm_fork r s : sc (user_vm_fork_address_space r s).1 = sc s.
Proof.
  unfold user_vm_fork_address_space. pose proof (sc_user_vm_create s) as E.
  destruct (user_vm_create_address_space s) as [s1 c]. case_if; [done|].
  match goal with |- context [for_while ?n ?i ?b s1] => pose proof (sc_for_while n i b s1) as F;
    destruct (for_while n i b s1) as [s2 ok] end.
  cbn [fst] in *. rewrite F; [done|]. clear. intros k s'. cbv beta zeta. case_if; [done|apply sc_fork_pdpt].
Qed.

Lemma sc_destroy_leaf pt i s : sc (destroy_leaf pt i s) = sc s.
Proof. unfold destroy_leaf, rmap_clear. repeat case_if; done. Qed.

Lemma sc_frames f s : sc (s <| frames ::= f |>) = sc s.
Proof. done. Qed.

Lemma sc_user_vm_destroy r s : sc (user_vm_destroy_address_space r s) = sc s.
Proof.
  assert (forall pt s, sc (destroy_pt pt s) = sc s) as H1
    by (intros pt s'; unfold destroy_pt; rewrite sc_frames, sc_for_loop; [done|]; intros; apply sc_destroy_leaf).
  assert (forall pd s, sc (destroy_pd pd s) = sc s) as H2
    by (intros pd s'; unfold destroy_pd; rewrite sc_frames, sc_for_loop; [done|]; intros; cbv beta zeta; case_if; [done|apply H1]).
  assert (forall pd s, sc (destroy_pdpt pd s) = sc s) as H3
    by (intros pd s'; unfold destroy_pdpt; rewrite sc_frames, sc_for_loop; [done|]; intros; cbv beta zeta; case_if; [done|apply H2]).
  unfold user_vm_destroy_address_space. rewrite sc_frames, sc_for_loop; [done|]. intros. cbv beta zeta. case_if; [done|apply H3].
Qed.

(** ** A concrete address space

    64 frames, the first two the kernel's; the root table is frame 2, the tables
    for the address 0x400000 are frames 3 to 5, its leaf entry is [e] and
    frame 6, with [rc] references, holds data. *)

Definition demo_frames (rc : Z) : Pmm.pmm :=
  Pmm.mk_pmm (127 :: replicate 7 0) 64 57 262144 0
    ([0; 0; 1; 1; 1; 1; rc] ++ replicate 57 0) 2.

Definition demo_vm (e rc : Z) : vm :=
  mk_vm (<[0x2000 := 0x3007]> (<[0x3000 := 0x4007]> (<[0x4010 := 0x5007]> (<[0x5000 := e]> (<[0x6008 := 99]> ∅)))))
    (demo_frames rc) ∅ (<[3%nat := true]> (replicate 4096 false)) 1 true 0 {[slot_base 3 + 16 := 77]} true demo_sched.

Lemma demo_frames_safe rc : rc = 1 \/ rc = 2 -> Pmm.safe (demo_frames rc).
Proof.
  intros [-> | ->]; (split_and!; [by apply Pmm.wfb_sound| |done]); intros i Hi; cbn in Hi;
    assert (i = 0 \/ i = 1) as [-> | ->] by lia; reflexivity.
Qed.

Lemma demo_step e rc t k t' i :
  (t, k, t') = (0x2000, 0, 0x3000) \/ (t, k, t') = (0x3000, 0, 0x4000) \/ (t, k, t') = (0x4000, 2, 0x5000) ->
  0 <= i < 512 -> step (phys (demo_vm e rc)) t i = if decide (i = k) then Some t' else None.
Proof.
  intros H Hi. destruct (decide (i = k)) as [->|Hne].
  - by destruct H as [[= -> -> ->]|[[= -> -> ->]|[= -> -> ->]]].
  - unfold step. cbn [phys demo_vm]. rewrite !ldq_insert.
    by destruct H as [[= -> -> ->]|[[= -> -> ->]|[= -> -> ->]]]; rewrite !decide_False by lia.
Qed.

Lemma foldl_none m l : foldl (fun o i => o ≫= fun t => step m t i) None l = None.
Proof. by induction l. Qed.

Lemma demo_tables e rc l t : user_path l -> table_at (phys (demo_vm e rc)) 0x2000 l = Some t ->
  (l, t) = ([], 0x2000) \/ (l, t) = ([0], 0x3000) \/ (l, t) = ([0; 0], 0x4000) \/ (l, t) = ([0; 0; 2], 0x5000).
Proof.
  intros (HF & Hl & _). unfold table_at.
  destruct l as [|i l]; cbn [foldl]; [intros [= <-]; auto|]. apply Forall_cons in HF as [Hi HF]. cbn [mbind option_bind].
  rewrite (demo_step e rc 0x2000 0 0x3000) by auto. destruct (decide _) as [->|]; [|by rewrite foldl_none].
  destruct l as [|j l]; cbn [foldl]; [intros [= <-]; auto|]. apply Forall_cons in HF as [Hj HF]. cbn [mbind option_bind].
  rewrite (demo_step e rc 0x3000 0 0x4000) by auto. destruct (decide _) as [->|]; [|by rewrite foldl_none].
  destruct l as [|k l]; cbn [foldl]; [intros [= <-]; auto|]. apply Forall_cons in HF as [Hk HF]. cbn [mbind option_bind].
  rewrite (demo_step e rc 0x4000 2 0x5000) by auto. destruct (decide _) as [->|]; [|by rewrite foldl_none].
  destruct l; [cbn; intros [= <-]; auto|simpl in Hl; lia].
Qed.

Lemma demo_space e rc : space_wf (demo_vm e rc) 0x2000.
Proof.
  constructor.
  - intros l t Hl Ht. destruct (demo_tables _ _ _ _ Hl Ht) as [[= -> ->]|[[= -> ->]|[[= -> ->]|[= -> ->]]]]; by vm_compute.
  - intros l l' t Hl Hl' Ht Ht'.
    destruct (demo_tables _ _ _ _ Hl Ht) as [[= -> ->]|[[= -> ->]|[[= -> ->]|[= -> ->]]]];
    by destruct (demo_tables _ _ _ _ Hl' Ht') as [[= ->]|[[= ->]|[[= ->]|[= ->]]]].
  - intros l t i Hl Ht Hn Hp. destruct (user_path_snoc _ _ Hl) as [Hl' Hi].
    assert (table_at (phys (demo_vm e rc)) 0x2000 (l ++ [i]) =
            Some (Z.land (ldq (phys (demo_vm e rc)) (t + 8 * i)) PTE_ADDR_MASK)) as Hs.
    { unfold table_at in *. rewrite foldl_app, Ht. cbn [foldl mbind option_bind]. unfold step. by rewrite Hp. }
    destruct (demo_tables _ _ _ _ Hl' Ht) as [[= -> ->]|[[= -> ->]|[[= -> ->]|[= -> ->]]]]; [done| | |].
    + destruct (demo_tables _ _ _ _ Hl Hs) as [[= H]|[[= H]|[[= -> _]|[= H]]]]. done.
    + destruct (demo_tables _ _ _ _ Hl Hs) as [[= H]|[[= H]|[[= H]|[= -> _]]]]. done.
    + destruct Hl as (_ & Hlen & _). simpl in Hlen. lia.
Qed.

Lemma demo_data e rc : data_page (demo_vm e rc) 0x2000 6.
Proof.
  split_and!; [done|done|]. intros l t Hl Ht.
  destruct (demo_tables _ _ _ _ Hl Ht) as [[= -> ->]|[[= -> ->]|[[= -> ->]|[= -> ->]]]]; by vm_compute.
Qed.

Lemma demo_quiet e rc : rc = 1 \/ rc = 2 -> quiet (demo_vm e rc) 3.
Proof. intros H. split; [by apply demo_frames_safe|done]. Qed.

Lemma demo_quiet1 e rc : rc = 1 \/ rc = 2 -> quiet (demo_vm e rc) 1.
Proof. intros H. split; [by apply demo_frames_safe|done]. Qed.

Lemma user_vm_map_page_correct_witness :
  pte_val (user_vm_map_page 0x2000 0x7F0000000000 0x6000 7 (demo_vm 0 1)).1 0x2000 0x7F0000000123 = 0x6007.
Proof.
  pose proof (user_vm_map_page_correct (demo_vm 0 1) 0x2000 0x7F0000000000 0x6000 7 (demo_space 0 1)
    ltac:(unfold user_addr; lia) (demo_quiet 0 1 ltac:(auto))) as H.
  destruct (user_vm_map_page _ _ _ _ _) as [s' r]. destruct H as (_ & _ & H).
  cbn [fst]. rewrite H by (unfold user_addr; lia). reflexivity.
Defined.


Lemma evict_page_correct_witness :
  ldq (disk (evict_page 0x5000 0x6000 6 64 (demo_vm 0x6007 1)).1) (slot_base 0 + 8) = 99.
Proof.
  pose proof (evict_page_correct (demo_vm 0x6007 1) 0x2000 0x400000 6 64 (demo_space _ _) ltac:(unfold user_addr; lia)
    (demo_frames_safe 1 ltac:(auto)) eq_refl eq_refl 0x5000 0x6000 0%nat eq_refl eq_refl (demo_data _ _) eq_refl) as H.
  destruct (evict_page _ _ _ _ _) as [s' r]. destruct H as (_ & _ & _ & _ & (_ & _ & _ & _ & Hd) & _).
  exact (Hd 1 ltac:(lia)).
Defined.

Lemma swap_in_correct_witness :
  has (pte_val (swap_handle_fault 0x2000 0x400ABC (demo_vm 0x3400 1)).1 0x2000 0x400ABC) PTE_WRITABLE = true.
Proof.
  pose proof (swap_in_correct (demo_vm 0x3400 1) 0x2000 0x400ABC 3
    (fun i => ldq (disk (demo_vm 0x3400 1)) (slot_base 3 + 8 * i)) (demo_space _ _) ltac:(unfold user_addr; lia)
    (demo_quiet1 _ 1 ltac:(auto)) eq_refl eq_refl) as H.
  destruct (swap_handle_fault _ _ _) as [s' r].
  destruct H as (_ & _ & _ & H & _); [|exact H].
  split_and!; [reflexivity|done|done|reflexivity|reflexivity|done].
Defined.

End Vm.
