(* ===== verification/Mmap.v ===== *)
(** * Memory areas and page faults (memory/mmap.c, interrupts/interrupts.c and
    the system calls mmap, munmap, mprotect and brk of syscall/syscall.c)

    The areas live in the process control block; the page tables and frames are
    those of [Vm].  A file-backed area is filled by the file system: [file_page
    inode off] is what ext2 delivers for one page of a file (words it does not
    read are zero), [None] when the inode cannot be read.  [kmem] is the kernel
    memory the ELF images are in, byte by byte. *)

From stdpp Require Import prelude gmap.
From Stdlib Require Import ZArith Lia.
From S2P Require Import Prelude Pmm Process Sched Signal Vm.
Import Process Sched Signal Vm.
Local Open Scope Z_scope.

Module Mmap.

Definition VMA_ANON : Z := 0.
Definition VMA_FILE : Z := 1.
Definition VMA_DEVICE : Z := 2.
Definition VMA_ELF : Z := 3.
Definition PROT_WRITE : Z := 2.
Definition MAP_SHARED : Z := 1.
Definition MAP_FIXED : Z := 0x10.
Definition MAP_ANONYMOUS : Z := 0x20.
Definition ERR64 : Z := 2 ^ 64 - 1.

(** ** Areas of one process *)

Definition vma_find (p : process) (addr : Z) : option nat :=
  find_index (fun v => v_in_use v && (v_start v <=? addr) && (addr <? v_end v)) (vmas p).

Definition vma_alloc (p : process) : option nat :=
  find_index (fun v => negb (v_in_use v)) (vmas p).

Definition overlaps (base len : Z) (v : vma) : bool :=
  v_in_use v && (base <? v_end v) && (v_start v <? u64 (base + len)).

(** The [retry] loop; each turn moves past one area, so that [S VMA_MAX] turns
    are enough ([free_range_total]). *)
Fixpoint free_range_from (fuel : nat) (l : list vma) (base len : Z) : option Z :=
  match fuel with
  | O => None
  | S k =>
      if MMAP_TOP <? u64 (base + len) then Some 0
      else match find_index (overlaps base len) l with
           | None => Some base
           | Some i => free_range_from k l (v_end (l !!! i)) len
           end
  end.

Definition vma_find_free_range (p : process) (hint len : Z) : option Z :=
  let base := if negb (hint =? 0) && (MMAP_BASE <=? hint) && (hint <? MMAP_TOP) then hint else mmap_next p in
  free_range_from (S VMA_MAX) (vmas p) (page_up base) len.

Definition vma_at (s : vm) (c j : nat) : vma := vmas (proc_at (sc s) c) !!! j.

Definition set_vma (c j : nat) (f : vma -> vma) (s : vm) : vm :=
  s <| sc ::= set_proc c (fun p => p <| vmas ::= alter f j |>) |>.

(** ** Page faults in an area *)

Section fault.
Context (file_page : Z -> Z -> option (Z -> Z)) (kmem : Z -> Z).

Definition le_word (byte : Z -> Z) (i : Z) : Z :=
  foldr (fun k acc => byte (8 * i + k) + 256 * acc) 0 (seqZ 0 8).

(** The words of one page of an ELF segment: file data, then zeros. *)
Definition elf_page (v : vma) (page : Z) : Z -> Z :=
  let page_offset := u64 (page - v_elf_vaddr v) in
  le_word (fun k =>
    if (page_offset <? v_elf_data_filesz v) && (k <? Z.min (v_elf_data_filesz v - page_offset) PAGE_SIZE)
    then kmem (v_elf_data v + page_offset + k) else 0).

Definition prot_flags (prot base : Z) : Z :=
  if has prot PROT_WRITE then Z.lor base PTE_WRITABLE else base.

Definition shared_page (c j : nat) (s : vm) : vm * Z :=
  if negb (v_shared_phys (vma_at s c j) =? 0) then (s, v_shared_phys (vma_at s c j)) else
  let '(s, p) := pmm_alloc_page s in
  if p =? 0 then (s, 0) else (set_vma c j (fun v => v <| v_shared_phys := p |>) (zero_page p s), p).

(** Fill the fresh, zeroed page at [p] from the file or the ELF image. *)
Definition load_page (v : vma) (page p : Z) (s : vm) : vm :=
  let s :=
    if v_type v =? VMA_FILE then
      match file_page (v_file_inode v) (u64 (v_file_offset v + (page - v_start v))) with
      | Some w => s <| phys ::= fill_page p w |>
      | None => s
      end
    else s in
  if (v_type v =? VMA_ELF) && negb (v_elf_data v =? 0) then s <| phys ::= fill_page p (elf_page v page) |> else s.

Definition vma_handle_fault (c : nat) (fault_addr : Z) (is_write : bool) (s : vm) : vm * Z :=
  let root := cr3 (proc_at (sc s) c) in
  match vma_find (proc_at (sc s) c) fault_addr with
  | None => (s, -1)
  | Some j =>
      let v := vma_at s c j in
      if is_write && negb (has (v_prot v) PROT_WRITE) then (s, -1) else
      let page := page_down fault_addr in
      let flags := prot_flags (v_prot v) (Z.lor PTE_PRESENT PTE_USER) in
      if has (v_flags v) MAP_SHARED && (v_type v =? VMA_ANON) then
        let '(s, p) := shared_page c j s in
        if p =? 0 then (s, -1) else user_vm_map_page root page p flags s
      else
        let '(s, p) := pmm_alloc_page s in
        if p =? 0 then (s, -1) else
        let s := zero_page p s in
        if v_type v =? VMA_DEVICE then
          let dflags := prot_flags (v_prot v) (Z.lor (Z.lor PTE_PRESENT PTE_USER) PTE_NOCACHE) in
          user_vm_map_page root page (u64 (v_dev_phys_base v + (page - v_start v))) dflags
            (s <| frames ::= Pmm.pmm_page_unref p |>)
        else user_vm_map_page root page p flags (load_page v page p s)
  end.

(** ** [page_fault_handler]

    [None] is the kernel panic.  [fault_try] is one of its three attempts, made
    when the guard holds and the current process has an address space. *)

Definition fault_try (guard : bool) (h : nat -> vm -> vm * Z) (s : vm) : vm * bool :=
  if negb guard then (s, false) else
  match current_process (sc s) with
  | None => (s, false)
  | Some c =>
      if cr3 (proc_at (sc s) c) =? 0 then (s, false)
      else let '(s, r) := h c s in (s, r =? 0)
  end.

Definition kill_user_process (c : nat) (sig : Z) (s : sched) : sched :=
  let s := to_zombie c sig s in
  let s := signal_send (ppid (proc_at s c)) SIGCHLD s in
  schedule (wake_waiting_parent c s).

(** The end of the user-mode handlers: kill the current process, or panic. *)
Definition user_fault (sig : Z) (s : vm) : option vm :=
  match current_process (sc s) with
  | Some c => if is_user (proc_at (sc s) c) then Some (s <| sc ::= kill_user_process c sig |>) else None
  | None => None
  end.

Definition page_fault_handler (cr2 err : Z) (s : vm) : option vm :=
  let user := cr2 <? KERNEL_VMA in
  let '(s, ok) := fault_try ((Z.land err 3 =? 3) && user)
    (fun c s => cow_handle_fault (cr3 (proc_at (sc s) c)) cr2 s) s in
  if ok then Some s else
  let '(s, ok) := fault_try (negb (has err 1) && user)
    (fun c s => vma_handle_fault c cr2 (has err 2) s) s in
  if ok then Some s else
  let '(s, ok) := fault_try (negb (has err 1) && user)
    (fun c s => swap_handle_fault (cr3 (proc_at (sc s) c)) cr2 s) s in
  if ok then Some s else
  if has err 4 then user_fault SIGSEGV s else None.

End fault.

(** Division by zero (signal 8) and general protection (signal 11). *)
Definition exception_handler (sig : Z) (f : frame) (s : vm) : option vm :=
  if has (f_cs f) 3 then user_fault sig s else None.

(** ** Changing areas *)

Definition unmap_leaf (root pg : Z) (s : vm) : vm :=
  match user_vm_get_pte s root pg with
  | Some pte =>
      if has (ld s pte) PTE_PRESENT
      then st pte 0 (s <| frames ::= Pmm.pmm_page_unref (Z.land (ld s pte) PTE_ADDR_MASK) |>)
      else s
  | None => s
  end.

(** Run [f] on each area in use that meets [[addr, addr + len)], page aligned. *)
Definition each_area (f : nat -> vm -> vm) (c : nat) (addr len : Z) (s : vm) : vm :=
  let hi := page_up (addr + len) in
  let lo := page_down addr in
  for_loop VMA_MAX 0 (fun j s =>
    let v := vma_at s c j in
    if negb (v_in_use v) then s else
    if (hi <=? v_start v) || (v_end v <=? lo) then s else f j s) s.

Definition area_pages (v : vma) : nat := pages_between (v_start v) (v_end v).

Definition vma_unmap (c : nat) (addr len : Z) (s : vm) : vm :=
  each_area (fun j s =>
    let v := vma_at s c j in
    let root := cr3 (proc_at (sc s) c) in
    let s := page_loop (area_pages v) (v_start v) (unmap_leaf root) s in
    set_vma c j (fun v => v <| v_in_use := false |>) s) c addr len s.

Definition protect_leaf (root prot pg : Z) (s : vm) : vm :=
  match user_vm_get_pte s root pg with
  | Some pte =>
      if has (ld s pte) PTE_PRESENT
      then st pte (Z.lor (Z.land (ld s pte) PTE_ADDR_MASK) (prot_flags prot (Z.lor PTE_PRESENT PTE_USER))) s
      else s
  | None => s
  end.

Definition vma_protect (c : nat) (addr len prot : Z) (s : vm) : vm :=
  each_area (fun j s =>
    let s := set_vma c j (fun v => v <| v_prot := prot |>) s in
    let v := vma_at s c j in
    page_loop (area_pages v) (v_start v) (protect_leaf (cr3 (proc_at (sc s) c)) prot) s) c addr len s.

Definition vma_fork_copy (parent child : nat) (s : sched) : sched :=
  let p := proc_at s parent in
  set_proc child (fun q => q <| vmas := vmas p |> <| mmap_next := mmap_next p |>
                             <| brk_start := brk_start p |> <| brk_current := brk_current p |>) s.

(** [vma_destroy_all] also returns the ELF buffers it frees. *)
Definition vma_destroy_all (p : process) : process * list Z :=
  let owned v := v_in_use v && (v_type v =? VMA_ELF) && v_elf_data_owned v && negb (v_elf_data v =? 0) in
  (p <| vmas ::= fmap (fun v => v <| v_in_use := false |>) |> <| mmap_next := MMAP_BASE |>,
   v_elf_data <$> filter (fun v => owned v = true) (vmas p)).

(** ** System calls *)

Definition current_user (s : vm) : option nat :=
  match current_process (sc s) with
  | Some c => if is_user (proc_at (sc s) c) then Some c else None
  | None => None
  end.

Definition set_current (c : nat) (f : process -> process) (s : vm) : vm := s <| sc ::= set_proc c f |>.

(** One page of the heap; [false] stops the loop. *)
Definition brk_page (root pg : Z) (s : vm) : vm * bool :=
  let '(s, p) := pmm_alloc_page s in
  if p =? 0 then (s, false) else
  let '(s, r) := user_vm_map_page root pg p (Z.lor (Z.lor PTE_PRESENT PTE_WRITABLE) PTE_USER) (zero_page p s) in
  if r <? 0 then (s <| frames ::= Pmm.pmm_page_unref p |>, false) else (s, true).

Definition syscall_brk (new_brk : Z) (s : vm) : vm * Z :=
  match current_user s with
  | None => (s, ERR64)
  | Some c =>
      let p := proc_at (sc s) c in
      if new_brk =? 0 then (s, brk_current p) else
      if new_brk <? brk_start p then (s, brk_current p) else
      let old_end := page_up (brk_current p) in
      let new_end := page_up new_brk in
      let '(s, ok) := for_while (pages_between old_end new_end) 0
        (fun k => brk_page (cr3 p) (old_end + 4096 * Z.of_nat k)) s in
      if ok then (set_current c (fun p => p <| brk_current := new_brk |>) s, new_brk)
      else (s, brk_current p)
  end.

Record mmap_args := mk_mmap_args {
  m_addr : Z; m_len : Z; m_prot : Z; m_flags : Z; m_fd : Z; m_offset : Z
}.

(** The descriptor part: type, inode, file offset and device base of the area,
    and whether it succeeded.  [fb] is the frame buffer's physical address once
    it is initialised. *)
Definition mmap_backing (fb : option Z) (p : process) (a : mmap_args) (v : vma) : vma * bool :=
  if has (m_flags a) MAP_ANONYMOUS
  then (v <| v_type := VMA_ANON |> <| v_file_inode := 0 |> <| v_file_offset := 0 |>, true)
  else
    let v := v <| v_type := VMA_FILE |> <| v_file_offset := m_offset a |> in
    let fail := (v <| v_in_use := false |>, false) in
    if (m_fd a <? 0) || (Z.of_nat PROCESS_MAX_FDS <=? m_fd a) then fail else
    let pfd := zget (fd_table p) (m_fd a) in
    if fd_type pfd =? FD_EXT2 then (v <| v_file_inode := u32 (fd_data pfd) |>, true)
    else if fd_type pfd =? FD_DEVICE then
      if fd_data pfd =? 0 then fail else
      match fb with
      | Some base => (v <| v_type := VMA_DEVICE |> <| v_dev_phys_base := u64 (base + m_offset a) |>
                        <| v_file_inode := 0 |> <| v_file_offset := 0 |>, true)
      | None => fail
      end
    else fail.

Definition advance_next (e : Z) (p : process) : process :=
  if mmap_next p <? e then p <| mmap_next := e |> else p.

Definition syscall_mmap (fb : option Z) (args_ptr : Z) (a : mmap_args) (s : vm) : vm * Z :=
  match current_user s with
  | None => (s, ERR64)
  | Some c =>
      let p := proc_at (sc s) c in
      if KERNEL_VMA <=? args_ptr then (s, ERR64) else
      if m_len a =? 0 then (s, ERR64) else
      let len := page_up (m_len a) in
      let fixed := has (m_flags a) MAP_FIXED && negb (m_addr a =? 0) in
      let addr := if fixed then page_down (m_addr a)
                  else default 0 (vma_find_free_range p (m_addr a) len) in
      if negb fixed && (addr =? 0) then (s, ERR64) else
      match vma_alloc p with
      | None => (s, ERR64)
      | Some j =>
          let v := (vmas p !!! j) <| v_start := addr |> <| v_end := u64 (addr + len) |> <| v_prot := m_prot a |>
                     <| v_flags := m_flags a |> <| v_in_use := true |> <| v_shared_phys := 0 |> in
          let '(v, ok) := mmap_backing fb p a v in
          let s := set_current c (fun p => p <| vmas ::= <[j := v]> |>) s in
          if ok then (set_current c (advance_next (u64 (addr + len))) s, addr) else (s, ERR64)
      end
  end.

Definition syscall_munmap (addr len : Z) (s : vm) : vm * Z :=
  match current_user s with
  | None => (s, ERR64)
  | Some c => (vma_unmap c addr len s, 0)
  end.

Definition syscall_mprotect (addr len prot : Z) (s : vm) : vm * Z :=
  match current_user s with
  | None => (s, ERR64)
  | Some c => (vma_protect c addr len (u32 prot) s, 0)
  end.

(** ** Specification *)

(** Areas below [2 ^ 62], in which no address computation wraps. *)
Definition area_ok (v : vma) : Prop := 0 <= v_start v <= v_end v /\ v_end v <= 2 ^ 62.

Definition apart (a b lo hi : Z) : Prop := b <= lo \/ hi <= a.

(** The areas in use are page aligned, in range and pairwise disjoint. *)
Definition areas_inv (l : list vma) : Prop :=
  (forall i v, l !! i = Some v -> v_in_use v = true ->
     area_ok v /\ v_start v mod 4096 = 0 /\ v_end v mod 4096 = 0) /\
  (forall i j v w, l !! i = Some v -> l !! j = Some w -> v_in_use v = true -> v_in_use w = true ->
     i <> j -> apart (v_start v) (v_end v) (v_start w) (v_end w)).

(** What a fresh page of a private area holds. *)
Definition page_contents (file_page : Z -> Z -> option (Z -> Z)) (kmem : Z -> Z) (v : vma) (page : Z) : Z -> Z :=
  if v_type v =? VMA_FILE then
    default (fun _ => 0) (file_page (v_file_inode v) (u64 (v_file_offset v + (page - v_start v))))
  else if (v_type v =? VMA_ELF) && negb (v_elf_data v =? 0) then elf_page kmem v page
  else fun _ => 0.

(** ** Free ranges *)

Lemma countb_lt {A} (p q : A -> bool) l i x :
  (forall y, p y = true -> q y = true) -> l !! i = Some x -> q x = true -> p x = false ->
  countb p l < countb q l.
Proof.
  intros Hpq. revert i. induction l as [|y l IH]; intros i Hi Hq Hp; [done|].
  assert (countb p l <= countb q l) as Hle.
  { clear -Hpq. induction l as [|z l IHl]; simpl; [lia|]. specialize (Hpq z).
    destruct (p z), (q z); simpl; try lia. }
  destruct i as [|i]; cbn [countb] in *.
  - simpl in Hi; injection Hi as ->. rewrite Hp, Hq. simpl. lia.
  - specialize (IH i Hi Hq Hp). specialize (Hpq y). destruct (p y), (q y); simpl; try lia.
Qed.

(** The loop ends: every retry leaves one more area behind. *)
Lemma free_range_total l len fuel base :
  countb (fun v => v_in_use v && (base <? v_end v)) l < Z.of_nat fuel ->
  exists r, free_range_from fuel l base len = Some r.
Proof.
  revert base. induction fuel as [|k IH]; intros base Hc.
  { pose proof (countb_bounds (fun v => v_in_use v && (base <? v_end v)) l). lia. }
  cbn [free_range_from]. case_if; [by eexists|].
  destruct (find_index _ _) as [i|] eqn:Hi; [|by eexists].
  destruct (find_index_Some _ _ _ Hi) as (v & Hv & Ho & _). unfold overlaps in Ho. b2p.
  rewrite (list_lookup_total_correct _ _ _ Hv). apply IH.
  assert (countb (fun w => v_in_use w && (v_end v <? v_end w)) l
          < countb (fun w => v_in_use w && (base <? v_end w)) l); [|lia].
  apply (countb_lt _ _ l i v); [|done| |].
  - intros w Hw. b2p. apply andb_true_iff. split; [done|lia].
  - apply andb_true_iff. split; [done|lia].
  - apply andb_false_iff. right. lia.
Qed.

Lemma free_range_spec l len fuel base r :
  (forall i v, l !! i = Some v -> v_in_use v = true -> area_ok v /\ v_end v mod 4096 = 0) ->
  0 <= base <= 2 ^ 62 -> base mod 4096 = 0 -> 0 <= len <= 2 ^ 62 -> free_range_from fuel l base len = Some r -> r <> 0 ->
  base <= r /\ r mod 4096 = 0 /\ r + len <= MMAP_TOP /\
  forall i v, l !! i = Some v -> v_in_use v = true -> apart (v_start v) (v_end v) r (r + len).
Proof.
  intros Hok. revert base. induction fuel as [|k IH]; intros base Hb Hm Hl; [done|].
  cbn [free_range_from]. unfold overlaps. rewrite u64_small by lia.
  case_if; [by intros [= <-]|]. b2p. destruct (find_index _ _) as [i|] eqn:Hi.
  - destruct (find_index_Some _ _ _ Hi) as (v & Hv & Ho & _). b2p.
    destruct (Hok i v Hv) as [[? ?] ?]; [done|]. rewrite (list_lookup_total_correct _ _ _ Hv).
    intros Hr Hn. destruct (IH (v_end v)) as (? & ?); [lia..|done|done|]. split; [lia|done].
  - intros [= <-] _. split_and!; [lia|done|lia|]. intros i v Hv Hu.
    rewrite find_index_None in Hi. specialize (Hi i v Hv). rewrite Hu in Hi. simpl in Hi.
    apply andb_false_iff in Hi as [Hi|Hi]; b2p; [by left|by right].
Qed.

Lemma vma_find_free_range_spec p hint len :
  (length (vmas p) <= VMA_MAX)%nat -> areas_inv (vmas p) -> 0 <= mmap_next p <= 2 ^ 61 -> 0 <= len <= 2 ^ 62 ->
  exists r, vma_find_free_range p hint len = Some r /\
    (r <> 0 -> 0 <= r /\ r mod 4096 = 0 /\ r + len <= MMAP_TOP /\
      forall i v, vmas p !! i = Some v -> v_in_use v = true -> apart (v_start v) (v_end v) r (r + len)).
Proof.
  intros Hlen [Hok _] Hn Hl. unfold vma_find_free_range.
  match goal with |- context [page_up ?b] => set (base := b) end.
  assert (0 <= base <= 2 ^ 61) as Hb by (unfold base, MMAP_BASE, MMAP_TOP; case_if; b2p; lia). clearbody base.
  destruct (free_range_total (vmas p) len (S VMA_MAX) (page_up base)) as [r Hr].
  { pose proof (countb_bounds (fun v => v_in_use v && (page_up base <? v_end v)) (vmas p)). lia. }
  exists r. split; [done|]. intros H0. unfold page_up in Hr. rewrite u64_small in Hr by lia.
  pose proof (page_down_le (base + 4095)). pose proof (page_down_aligned (base + 4095)).
  destruct (free_range_spec (vmas p) len (S VMA_MAX) (page_down (base + 4095)) r) as (? & ? & ? & ?); try done; [|lia..|].
  - intros i v Hv Hu. destruct (Hok i v Hv Hu) as (? & _ & ?). done.
  - split; [lia|done].
Qed.

(** ** [mmap] *)

Definition holds (addr : Z) (v : vma) : bool := v_in_use v && (v_start v <=? addr) && (addr <? v_end v).

Lemma vma_find_holds p addr : vma_find p addr = find_index (holds addr) (vmas p).
Proof. done. Qed.

(** With disjoint areas the area of an address does not depend on the order. *)
Lemma find_area l addr j v : areas_inv l -> l !! j = Some v -> holds addr v = true ->
  find_index (holds addr) l = Some j.
Proof.
  intros [_ Hd] Hj Hh. apply (find_index_unique _ _ _ v); [done|done|].
  intros k w Hk Hw. destruct (holds addr w) eqn:E; [|done]. exfalso. unfold holds in *. b2p.
  destruct (Hd j k v w Hj Hw) as [?|?]; [done|done|lia..].
Qed.

(** Writing a free slot. *)
Lemma find_area_insert l addr j u v : areas_inv (<[j := v]> l) -> l !! j = Some u -> v_in_use u = false ->
  find_index (holds addr) (<[j := v]> l) = if holds addr v then Some j else find_index (holds addr) l.
Proof.
  intros Hi Hj Hu. pose proof (lookup_lt_Some _ _ _ Hj) as Hlt. destruct (holds addr v) eqn:E.
  - apply (find_area _ _ _ v); [done|by apply list_lookup_insert_eq|done].
  - assert (holds addr u = false) as Eu by (unfold holds; by rewrite Hu). clear Hi Hu.
    revert j Hj Hlt. induction l as [|w l IH]; intros j Hj Hlt; [done|].
    destruct j as [|j]; simpl in *; [injection Hj as ->; by rewrite E, Eu|].
    case_if; [done|]. by rewrite IH by (done || lia).
Qed.

Lemma areas_insert l j v : areas_inv l ->
  (v_in_use v = true -> area_ok v /\ v_start v mod 4096 = 0 /\ v_end v mod 4096 = 0 /\
     forall i w, l !! i = Some w -> v_in_use w = true -> apart (v_start w) (v_end w) (v_start v) (v_end v)) ->
  areas_inv (<[j := v]> l).
Proof.
  intros [H1 H2] Hv. split.
  - intros i w Hi Hu. apply list_lookup_insert_Some in Hi as [(-> & -> & _)|[_ Hi]]; [|by eapply H1].
    by destruct (Hv Hu) as (? & ? & ? & _).
  - intros i k w x Hi Hk Hw Hx Hne. unfold apart in *.
    apply list_lookup_insert_Some in Hi as [(-> & -> & _)|[_ Hi]];
    apply list_lookup_insert_Some in Hk as [(-> & -> & _)|[_ Hk]]; [done| | |by eapply H2].
    + destruct (Hv Hw) as (_ & _ & _ & H). specialize (H _ _ Hk Hx). lia.
    + destruct (Hv Hx) as (_ & _ & _ & H). by specialize (H _ _ Hi Hw).
Qed.

Lemma mmap_backing_fields fb p a v : v_in_use v = true ->
  let '(v', ok) := mmap_backing fb p a v in
  v_start v' = v_start v /\ v_end v' = v_end v /\ v_prot v' = v_prot v /\ v_in_use v' = ok.
Proof. intros Hv. unfold mmap_backing. repeat case_if; try done. by destruct fb. Qed.

Lemma proc_set_current c f s : (c < length (procs (sc s)))%nat ->
  proc_at (sc (set_current c f s)) c = f (proc_at (sc s) c) /\
  (forall i, i <> c -> proc_at (sc (set_current c f s)) i = proc_at (sc s) i) /\
  length (procs (sc (set_current c f s))) = length (procs (sc s)).
Proof.
  intros Hc. unfold proc_at. cbn. split_and!.
  - by apply list_lookup_total_alter_eq.
  - intros i Hi. by apply list_lookup_total_alter_ne.
  - apply length_alter.
Qed.

(** A call that maps nothing. *)
Ltac no_mapping := cbv zeta; split_and!; [done|done|done|done|left; by split].

(** An mmap call at an address of the kernel's choice keeps the areas disjoint
    and page aligned.  It fails without changing what is mapped, or adds one area
    of the requested length and protection below [MMAP_TOP]; every address
    outside it belongs to the area it belonged to before. *)
Theorem syscall_mmap_correct fb ptr a s c :
  let p := proc_at (sc s) c in
  current_user s = Some c -> (c < length (procs (sc s)))%nat -> areas_inv (vmas p) -> length (vmas p) = VMA_MAX ->
  0 <= mmap_next p <= 2 ^ 61 -> 0 <= m_len a <= 2 ^ 61 -> has (m_flags a) MAP_FIXED = false ->
  let '(s', r) := syscall_mmap fb ptr a s in
  let p' := proc_at (sc s') c in
  let len := page_up (m_len a) in
  areas_inv (vmas p') /\ 0 <= mmap_next p' <= 2 ^ 61 /\
  (forall i, i <> c -> proc_at (sc s') i = proc_at (sc s) i) /\
  (r = ERR64 /\ (forall addr, vma_find p' addr = vma_find p addr) \/
   exists j, r mod 4096 = 0 /\ r + len <= MMAP_TOP /\ m_len a <= len /\ v_prot (vmas p' !!! j) = m_prot a /\
     forall addr, vma_find p' addr = if (r <=? addr) && (addr <? r + len) then Some j else vma_find p addr).
Proof.
  intros p Hc Hlt Hinv Hlen Hn Hm Hf. destruct Hn as [Hn1 Hn2]. unfold syscall_mmap. rewrite Hc. fold p. rewrite Hf. cbn [andb negb].
  assert (page_up (m_len a) mod 4096 = 0 /\ m_len a <= page_up (m_len a) <= 2 ^ 62) as [Hl1 Hl2].
  { unfold page_up. rewrite u64_small by lia. pose proof (page_down_le (m_len a + 4095)).
    split; [apply page_down_aligned|lia]. }
  case_if; [no_mapping|]. case_if; [no_mapping|]. b2p.
  destruct (vma_find_free_range_spec p (m_addr a) (page_up (m_len a))) as (r & -> & Hr); [lia|done|lia|lia|].
  change (default 0 (Some r)) with r. case_if; b2p; [no_mapping|]. destruct (Hr ltac:(done)) as (R0 & R1 & R2 & R3). clear Hr.
  destruct (vma_alloc p) as [j|] eqn:Hj; [|no_mapping].
  destruct (find_index_Some _ _ _ Hj) as (u & Hu & Hin & _). apply negb_true_iff in Hin.
  set (len := page_up (m_len a)) in *. unfold MMAP_TOP in *. rewrite (u64_small (r + len)) by lia.
  match goal with |- context [mmap_backing fb p a ?x] => pose proof (mmap_backing_fields fb p a x eq_refl) as B end.
  destruct (mmap_backing _ _ _ _) as [v ok]. cbn [v_start v_end v_prot upd eta_of eta_vma] in B. cbn in B.
  destruct B as (B1 & B2 & B3 & B4).
  assert (areas_inv (<[j := v]> (vmas p))) as Hinv'.
  { apply areas_insert; [done|]. intros _. unfold area_ok. rewrite B1, B2. split_and!; [lia..|done|zsolve|done]. }
  assert (forall addr, holds addr v = ok && (r <=? addr) && (addr <? r + len)) as Hh
    by (intros addr; unfold holds; by rewrite B1, B2, B4).
  destruct (proc_set_current c (fun p => p <| vmas ::= <[j := v]> |>) s Hlt) as (P1 & P2 & P3). fold p in P1.
  set (s1 := set_current c _ s) in *. destruct ok.
  - destruct (proc_set_current c (advance_next (r + len)) s1) as (Q1 & Q2 & _); [by rewrite P3|].
    assert (vmas (proc_at (sc (set_current c (advance_next (r + len)) s1)) c) = <[j := v]> (vmas p)) as Ev
      by (rewrite Q1, P1; unfold advance_next; by case_if).
    cbv zeta. rewrite Ev. split; [done|]. split; [|split; [|right; exists j]].
    + rewrite Q1, P1. unfold advance_next. case_if; b2p; cbn in *; lia.
    + intros i Hi. by rewrite Q2, P2.
    + split_and!; [done|done|lia| |].
      * rewrite list_lookup_total_insert_eq; [done|by eapply lookup_lt_Some].
      * intros addr. rewrite !vma_find_holds, Ev, (find_area_insert _ _ _ u) by done. by rewrite Hh.
  - assert (vmas (proc_at (sc s1) c) = <[j := v]> (vmas p)) as Ev by by rewrite P1.
    cbv zeta. rewrite Ev. split; [done|]. split; [by rewrite P1|]. split; [done|left; split; [done|]].
    intros addr. rewrite !vma_find_holds, Ev, (find_area_insert _ _ _ u) by done. by rewrite Hh.
Qed.

(** ** Page faults *)

Lemma leaf_entry_spec p flags : 0 <= p < 2 ^ 52 -> p mod 4096 = 0 -> 0 <= flags < 4096 ->
  let e := Z.lor (Z.lor (Z.land p PTE_ADDR_MASK) flags) PTE_PRESENT in
  Z.land e PTE_ADDR_MASK = p /\ has e PTE_PRESENT = true /\ has e PTE_WRITABLE = has flags PTE_WRITABLE.
Proof.
  intros Hp Hm Hf e. assert (Z.land p PTE_ADDR_MASK = p) as Ep.
  { rewrite <- (Z.add_0_r p) at 1. apply mask_page; lia. }
  unfold e. rewrite Ep. split_and!.
  - rewrite <- Z.lor_assoc. rewrite (lor_low p (Z.lor flags PTE_PRESENT) 12); [apply mask_page; try lia|lia|done|].
    all: change (2 ^ 12) with 4096; unfold PTE_PRESENT.
    all: rewrite <- (Z.mod_small flags 4096) by lia; change 4096 with (2 ^ 12);
      rewrite <- Z.land_ones by lia; change 1 with (Z.land 1 (Z.ones 12));
      rewrite <- Z.land_lor_distr_l, Z.land_ones by lia; apply Z.mod_pos_bound; lia.
  - change PTE_PRESENT with (2 ^ 0). rewrite has_bit, Z.lor_spec by lia. apply orb_true_r.
  - change PTE_WRITABLE with (2 ^ 1). rewrite !has_bit, !Z.lor_spec by lia.
    rewrite (low_bits p 1) by (done || lia). cbn [orb]. apply orb_false_r.
Qed.

Lemma prot_flags_spec prot :
  let f := prot_flags prot (Z.lor PTE_PRESENT PTE_USER) in
  0 <= f < 4096 /\ has f PTE_WRITABLE = has prot PROT_WRITE.
Proof. unfold prot_flags. destruct (has prot PROT_WRITE); vm_compute; split; [split|..]; done. Qed.

Lemma load_page_frame fp km v page p s :
  let s' := load_page fp km v page p s in
  frames s' = frames s /\ sc s' = sc s /\ swap_slots s' = swap_slots s /\ disk s' = disk s.
Proof. unfold load_page. destruct (_ =? _), (fp _ _); repeat case_if; done. Qed.

Lemma load_page_words fp km v page p s : p mod 4096 = 0 ->
  let s' := load_page fp km v page p (zero_page p s) in
  (forall a, a / 4096 <> p / 4096 -> ldq (phys s') a = ldq (phys s) a) /\
  (forall i, 0 <= i < 512 -> ldq (phys s') (p + 8 * i) = page_contents fp km v page i).
Proof.
  intros Hp. unfold load_page, page_contents, zero_page.
  destruct (v_type v =? VMA_FILE) eqn:E1.
  - replace (v_type v =? VMA_ELF) with false by (unfold VMA_FILE, VMA_ELF in *; b2p; lia). cbn [andb].
    destruct (fp _ _) as [w|]; split; intros; cbn [phys upd]; first [by rewrite !fill_outside|by rewrite fill_inside].
  - destruct (_ && _); split; intros; cbn [phys upd]; first [by rewrite !fill_outside|by rewrite fill_inside].
Qed.

Lemma private_fault_spec fp km s c addr w j :
  let root := cr3 (proc_at (sc s) c) in let v := vma_at s c j in
  space_wf s root -> user_addr addr -> quiet s 4 -> vma_find (proc_at (sc s) c) addr = Some j ->
  (w = true -> has (v_prot v) PROT_WRITE = true) ->
  has (v_flags v) MAP_SHARED && (v_type v =? VMA_ANON) = false -> v_type v <> VMA_DEVICE ->
  let '(s', r) := vma_handle_fault fp km c addr w s in
  let e := pte_val s' root addr in let p := Z.land e PTE_ADDR_MASK in
  r = 0 /\ space_wf s' root /\ keeps_data s s' root /\ swap_slots s' = swap_slots s /\ sc s' = sc s /\
  has e PTE_PRESENT = true /\ has e PTE_WRITABLE = has (v_prot v) PROT_WRITE /\
  Pmm.used (frames s) (p / 4096) = false /\
  (forall i, 0 <= i < 512 -> ldq (phys s') (p + 8 * i) = page_contents fp km v (page_down addr) i) /\
  (forall x, user_addr x -> x / 4096 <> addr / 4096 -> pte_val s' root x = pte_val s root x).
Proof.
  intros root v Hw Ha Hq Hj Hperm Hsh Hdev. unfold vma_handle_fault. rewrite Hj. fold v root.
  assert (w && negb (has (v_prot v) PROT_WRITE) = false) as -> by (destruct w; [by rewrite Hperm|done]).
  rewrite Hsh. destruct (alloc_quiet s 4 Hq ltac:(lia)) as (f & p & -> & T).
  pose proof (tk_pos _ _ _ T). replace (p =? 0) with false by lia.
  replace (v_type v =? VMA_DEVICE) with false by lia.
  destruct (load_page_words fp km v (page_down addr) p (s <| frames := f |>) (tk_align _ _ _ T)) as [L1 L2].
  destruct (load_page_frame fp km v (page_down addr) p (zero_page p (s <| frames := f |>))) as (L3 & L4 & L5 & L6).
  set (s2 := load_page _ _ _ _ _ _) in *.
  destruct (fresh_frame s s2 root f p Hw T L3 L1) as (W2 & K2 & T2 & V2 & N2).
  assert (quiet s2 3) as Hq2.
  { destruct Hq as [_ Hq]. split; rewrite L3; [apply T|]. cbn. rewrite (tk_count _ _ _ T). lia. }
  assert (page_down addr / 4096 = addr / 4096) as Epg by (rewrite page_down_spec; zsolve).
  assert (user_addr (page_down addr)) as Hpd by (unfold user_addr in *; rewrite page_down_spec; zsolve).
  destruct (prot_flags_spec (v_prot v)) as [Hf1 Hf2]. set (flags := prot_flags _ _) in *.
  pose proof (map_page_spec s2 root (page_down addr) p flags 3 W2 Hpd Hq2 ltac:(lia)) as M.
  destruct (user_vm_map_page _ _ _ _ _) as [s' r]. destruct M as (-> & W3 & _ & K3 & S3 & _ & C3 & V3).
  destruct (leaf_entry_spec p flags) as (E1 & E2 & E3); [|apply T|done|].
  { pose proof (tk_bound _ _ _ T). destruct Hq as ((W0 & _) & _). pose proof (Pmm.wf_total _ W0). zsolve. }
  assert (data_page s2 root (p / 4096)) as Dp.
  { split_and!; [zsolve|rewrite L3; cbn; rewrite (tk_used _ _ _ T) by zsolve; by rewrite bool_decide_true|].
    intros l t Hl. rewrite T2 by done. by apply N2. }
  rewrite V3 by done. rewrite decide_True by done. rewrite E1, E2, E3.
  split_and!; [done|done|by eapply keeps_data_trans|by rewrite S3, L5|by rewrite C3, L4|done|done|apply T| |].
  - intros i Hi. destruct (K3 _ Dp) as [_ ->]; [by apply L2|]. apply words_in_page; [apply T|done].
  - intros x Hx Hne. rewrite V3, decide_False by (done || lia). by apply V2.
Qed.

(** ** Loops over areas: [vma_unmap] and [vma_protect] *)

(** The areas a call with the page range [[lo, hi)] works on. *)
Definition hit (lo hi : Z) (v : vma) : bool :=
  v_in_use v && negb ((hi <=? v_start v) || (v_end v <=? lo)).

Definition covered (lo hi : Z) (l : list vma) (x : Z) : bool :=
  existsb (fun v => hit lo hi v && (v_start v <=? x) && (x <? v_end v)) l.

Definition in_user (v : vma) : Prop :=
  0 <= v_start v <= v_end v /\ v_end v <= 2 ^ 47 /\ v_start v mod 4096 = 0 /\ v_end v mod 4096 = 0.

(** Extending a partly mapped list by one element. *)
Lemma map_prefix_step {A} (F : A -> A) (l : list A) k v : l !! k = Some v ->
  ((F <$> take k l) ++ drop k l) !! k = Some v /\
  (F <$> take (S k) l) ++ drop (S k) l = <[k := F v]> ((F <$> take k l) ++ drop k l).
Proof.
  intros Hv. pose proof (lookup_lt_Some _ _ _ Hv) as Hk.
  assert (length (F <$> take k l) = k) as Hlen by (rewrite length_fmap, length_take; lia).
  rewrite (drop_S l v k Hv). split.
  - by rewrite lookup_app_r, Hlen, Nat.sub_diag by lia.
  - rewrite (take_S_r _ _ _ Hv), fmap_app, <- app_assoc.
    by rewrite insert_app_r_alt, Hlen, Nat.sub_diag by lia.
Qed.

Section area_loop.
Context (root : Z) (Inv : vm -> Prop) (G : Z -> Z) (leaf : Z -> vm -> vm) (h : vma -> vma).
Hypothesis G_idem : forall e, G (G e) = G e.
Hypothesis Inv_sc : forall s f, Inv s -> Inv (s <| sc ::= f |>).
Hypothesis leaf_spec : forall pg s, Inv s -> user_addr pg ->
  Inv (leaf pg s) /\ sc (leaf pg s) = sc s /\
  forall x, user_addr x ->
    pte_val (leaf pg s) root x = if decide (x / 4096 = pg / 4096) then G (pte_val s root x) else pte_val s root x.

Lemma pages_spec n lo s :
  Inv s -> 0 <= lo -> lo mod 4096 = 0 -> lo + 4096 * Z.of_nat n <= 2 ^ 47 ->
  let s' := page_loop n lo leaf s in
  Inv s' /\ sc s' = sc s /\
  forall x, user_addr x ->
    pte_val s' root x = if decide (lo <= x < lo + 4096 * Z.of_nat n) then G (pte_val s root x) else pte_val s root x.
Proof.
  intros HI H0 Hm Hn.
  pose proof (page_loop_inv (fun k s' => Inv s' /\ sc s' = sc s /\ forall x, user_addr x ->
    pte_val s' root x = if decide (lo <= x < k) then G (pte_val s root x) else pte_val s root x) n lo leaf s) as H.
  apply H; clear H.
  - split_and!; [done|done|]. intros x Hx. by rewrite decide_False by lia.
  - intros k s1 Hk Hkm (I1 & C1 & V1). destruct (leaf_spec k s1 I1) as (I2 & C2 & V2); [unfold user_addr; lia|].
    split_and!; [done|congruence|]. intros x Hx. rewrite V2, V1 by done.
    destruct (decide (x / 4096 = k / 4096)).
    + rewrite !decide_False by zsolve. by rewrite decide_True by zsolve.
    + repeat destruct (decide _); try done; exfalso; zsolve.
Qed.

Definition area_body (f : nat -> vm -> vm) (c : nat) : Prop :=
  forall j s, Inv s -> (c < length (procs (sc s)))%nat -> cr3 (proc_at (sc s) c) = root ->
    in_user (vma_at s c j) ->
    let v := vma_at s c j in
    Inv (f j s) /\ sc (f j s) = set_proc c (fun p => p <| vmas ::= alter h j |>) (sc s) /\
    forall x, user_addr x -> pte_val (f j s) root x =
      if decide (v_start v <= x < v_end v) then G (pte_val s root x) else pte_val s root x.

Definition touch (lo hi : Z) (v : vma) : vma := if hit lo hi v then h v else v.

Lemma each_area_spec f c addr len s :
  let lo := page_down addr in let hi := page_up (addr + len) in
  let l := vmas (proc_at (sc s) c) in
  area_body f c -> Inv s -> (c < length (procs (sc s)))%nat -> cr3 (proc_at (sc s) c) = root ->
  length l = VMA_MAX -> (forall i v, l !! i = Some v -> v_in_use v = true -> in_user v) ->
  let s' := each_area f c addr len s in
  Inv s' /\ sc s' = set_proc c (fun p => p <| vmas := touch lo hi <$> l |>) (sc s) /\
  forall x, user_addr x ->
    pte_val s' root x = if covered lo hi l x then G (pte_val s root x) else pte_val s root x.
Proof.
  intros lo hi l Hf HI Hc Hr Hl Hu. unfold each_area. fold lo hi.
  match goal with |- context [for_loop VMA_MAX 0 ?b s] => set (body := b) end.
  pose proof (for_loop_inv (fun k s' => Inv s' /\
    sc s' = set_proc c (fun p => p <| vmas := (touch lo hi <$> take k l) ++ drop k l |>) (sc s) /\
    forall x, user_addr x ->
      pte_val s' root x = if covered lo hi (take k l) x then G (pte_val s root x) else pte_val s root x)
    VMA_MAX 0 body s) as H.
  cbv beta in H. change (0 + VMA_MAX)%nat with VMA_MAX in H.
  rewrite (take_ge l VMA_MAX), (drop_ge l VMA_MAX), app_nil_r in H by lia. apply H; clear H.
  - split_and!; [done| |done]. simpl. rewrite drop_0. symmetry. by apply set_proc_id; [|destruct (proc_at _ _)].
  - intros k s1 [_ Hk] (I1 & C1 & V1). destruct (lookup_lt_is_Some_2 l k) as [v Hv]; [lia|].
    destruct (map_prefix_step (touch lo hi) l k v Hv) as [Hat Hnext].
    set (lk := (touch lo hi <$> take k l) ++ drop k l) in *.
    assert (c < length (procs (sc s1)))%nat as Hc1 by by rewrite C1, length_set_proc.
    assert (proc_at (sc s1) c = (proc_at (sc s) c) <| vmas := lk |>) as P1 by by rewrite C1, proc_at_set_proc.
    assert (vma_at s1 c k = v) as Ev by (unfold vma_at; rewrite P1; by apply list_lookup_total_correct).
    assert (forall x, covered lo hi (take (S k) l) x
              = covered lo hi (take k l) x || (hit lo hi v && (v_start v <=? x) && (x <? v_end v))) as Hcov.
    { intros x. unfold covered. by rewrite (take_S_r _ _ _ Hv), existsb_app; cbn; rewrite orb_false_r. }
    assert (body k s1 = if hit lo hi v then f k s1 else s1) as ->.
    { unfold body, hit. rewrite Ev. by destruct (v_in_use v), (_ || _). }
    destruct (hit lo hi v) eqn:Eh.
    + destruct (Hf k s1 I1 Hc1) as (I2 & C2 & V2).
      { by rewrite P1. } { rewrite Ev. apply (Hu k v Hv). unfold hit in Eh. by b2p. }
      split_and!; [done| |].
      * rewrite C2, C1, set_proc_twice. apply set_proc_ext; [done|]. rewrite Hnext.
        replace (<[k := touch lo hi v]> lk) with (alter h k lk); [by destruct (proc_at (sc s) c)|].
        unfold touch. rewrite Eh. by apply list_alter_insert_at.
      * intros x Hx. rewrite V2, V1, Ev, Hcov by done. cbn [andb].
        destruct (covered _ _ _ _); cbn [orb]; [rewrite G_idem; by destruct (decide _)|].
        destruct (decide _); [by replace (_ && _) with true by lia|by replace (_ && _) with false by lia].
    + split_and!; [done| |].
      * rewrite C1, Hnext. replace (touch lo hi v) with v by (unfold touch; by rewrite Eh).
        by rewrite list_insert_id.
      * intros x Hx. by rewrite V1, Hcov, orb_false_r.
Qed.

End area_loop.

(** One leaf entry, seen through the page-table map. *)
Lemma leaf_cases s root x : space_wf s root -> user_addr x ->
  user_vm_get_pte s root x = None /\ pte_val s root x = 0 \/
  exists t, table_at (phys s) root (path_of x) = Some t /\
    user_vm_get_pte s root x = Some (t + 8 * PT_INDEX x) /\ pte_val s root x = ld s (t + 8 * PT_INDEX x).
Proof.
  intros Hw Hx. unfold pte_val. rewrite get_pte_table by done.
  destruct (table_at _ _ _) as [t|]; [right; by exists t|by left].
Qed.

Lemma same_page_pte s root x y : space_wf s root -> user_addr x -> user_addr y -> x / 4096 = y / 4096 ->
  pte_val s root x = pte_val s root y.
Proof.
  intros Hw Hx Hy E. destruct (same_page_path _ _ E) as [E1 E2].
  unfold pte_val. by rewrite !get_pte_table, E1, E2 by done.
Qed.

(** *** mprotect *)

Definition protect_entry (prot e : Z) : Z :=
  if has e PTE_PRESENT then Z.lor (Z.land e PTE_ADDR_MASK) (prot_flags prot (Z.lor PTE_PRESENT PTE_USER)) else e.

Lemma protect_entry_spec prot e : has e PTE_PRESENT = true ->
  let e' := protect_entry prot e in
  Z.land e' PTE_ADDR_MASK = Z.land e PTE_ADDR_MASK /\ has e' PTE_PRESENT = true /\
  has e' PTE_WRITABLE = has prot PROT_WRITE /\ has e' PTE_COW = false.
Proof.
  intros He. unfold protect_entry. rewrite He. destruct (mask_range e) as [Hr Hm]. set (a := Z.land e PTE_ADDR_MASK) in *.
  assert (Z.land a PTE_ADDR_MASK = a) as Ea by (rewrite <- (Z.add_0_r a) at 1; apply mask_page; lia).
  change PTE_PRESENT with (2 ^ 0). change PTE_COW with (2 ^ 9). change (has _ PTE_WRITABLE) with (has (Z.lor a
    (prot_flags prot (Z.lor (2 ^ 0) PTE_USER))) (2 ^ 1)).
  rewrite Z.land_lor_distr_l, Ea, !has_bit, !Z.lor_spec, !(low_bits a) by (done || lia).
  unfold prot_flags. destruct (has prot PROT_WRITE); (split_and!; [|done..]);
    [change (Z.land _ _) with 0|change (Z.land _ _) with 0]; apply Z.lor_0_r.
Qed.

Lemma protect_entry_idem prot e : protect_entry prot (protect_entry prot e) = protect_entry prot e.
Proof.
  destruct (has e PTE_PRESENT) eqn:He; [|unfold protect_entry; by rewrite !He].
  destruct (protect_entry_spec prot e He) as (E1 & E2 & _). unfold protect_entry at 1. rewrite E2, E1.
  unfold protect_entry. by rewrite He.
Qed.

Lemma protect_leaf_spec root prot f0 pg s :
  space_wf s root /\ frames s = f0 -> user_addr pg ->
  (space_wf (protect_leaf root prot pg s) root /\ frames (protect_leaf root prot pg s) = f0) /\
  sc (protect_leaf root prot pg s) = sc s /\
  forall x, user_addr x -> pte_val (protect_leaf root prot pg s) root x =
    if decide (x / 4096 = pg / 4096) then protect_entry prot (pte_val s root x) else pte_val s root x.
Proof.
  intros [Hw Hf] Hpg. unfold protect_leaf, protect_entry.
  destruct (leaf_cases s root pg Hw Hpg) as [[-> E]|(t & Ht & -> & E)].
  - split_and!; [done..|]. intros x Hx. destruct (decide _) as [Ex|]; [|done].
    by rewrite (same_page_pte s root x pg), E.
  - destruct (has (ld s _) PTE_PRESENT) eqn:Hp.
    + match goal with |- context [st _ ?e s] => destruct (leaf_write s root pg t e Hw Hpg Ht) as (W & _ & V) end.
      split_and!; [done..|]. intros x Hx. rewrite V by done. destruct (decide _) as [Ex|]; [|done].
      by rewrite (same_page_pte s root x pg), E, Hp.
    + split_and!; [done..|]. intros x Hx. destruct (decide _) as [Ex|]; [|done].
      by rewrite (same_page_pte s root x pg), E, Hp.
Qed.

Lemma area_pages_end v : in_user v -> v_start v + 4096 * Z.of_nat (area_pages v) = v_end v.
Proof. intros (H1 & H2 & H3 & H4). unfold area_pages, pages_between. zsolve. Qed.

Lemma set_vma_at c j h s : (c < length (procs (sc s)))%nat ->
  cr3 (proc_at (sc (set_vma c j h s)) c) = cr3 (proc_at (sc s) c) /\
  (vma_at (set_vma c j h s) c j = h (vma_at s c j) \/ vma_at (set_vma c j h s) c j = vma_at s c j).
Proof.
  intros Hc. unfold vma_at. change (sc (set_vma c j h s)) with (set_proc c (fun p => p <| vmas ::= alter h j |>) (sc s)).
  rewrite proc_at_set_proc by done. split; [done|].
  change (vmas ((proc_at (sc s) c) <| vmas ::= alter h j |>)) with (alter h j (vmas (proc_at (sc s) c))).
  rewrite list_lookup_total_alter. destruct (decide _); auto.
Qed.

Lemma vma_protect_spec c addr len prot s :
  let root := cr3 (proc_at (sc s) c) in let l := vmas (proc_at (sc s) c) in
  let lo := page_down addr in let hi := page_up (addr + len) in
  space_wf s root -> (c < length (procs (sc s)))%nat -> length l = VMA_MAX ->
  (forall i v, l !! i = Some v -> v_in_use v = true -> in_user v) ->
  let s' := vma_protect c addr len prot s in
  (space_wf s' root /\ frames s' = frames s) /\
  vmas (proc_at (sc s') c) = touch (fun v => v <| v_prot := prot |>) lo hi <$> l /\
  forall x, user_addr x -> pte_val s' root x =
    if covered lo hi l x then protect_entry prot (pte_val s root x) else pte_val s root x.
Proof.
  intros root l lo hi Hw Hc Hl Hu. unfold vma_protect.
  match goal with |- context [each_area ?b _ _ _ _] => set (f := b) end.
  destruct (each_area_spec root (fun s' => space_wf s' root /\ frames s' = frames s) (protect_entry prot)
    (fun v => v <| v_prot := prot |>) (protect_entry_idem prot) f c addr len s) as (I & C & V); try done.
  { intros j s1 [W1 F1] Hc1 R1 U1. cbv zeta. unfold f.
    destruct (set_vma_at c j (fun v => v <| v_prot := prot |>) s1 Hc1) as [R2 Ev]. rewrite R2, R1.
    set (v := vma_at s1 c j) in *. set (s2 := set_vma c j _ s1) in *.
    assert (v_start (vma_at s2 c j) = v_start v /\ v_end (vma_at s2 c j) = v_end v) as [E1 E2]
      by by destruct Ev as [-> | ->].
    assert (area_pages (vma_at s2 c j) = area_pages v) as -> by (unfold area_pages; by rewrite E1, E2).
    destruct (pages_spec root _ (protect_entry prot) (protect_leaf root prot) (protect_leaf_spec root prot (frames s))
      (area_pages v) (v_start v) s2) as (I2 & C2 & V2); 
        [split; [by apply (space_same s1)|done]|apply U1|apply U1|by rewrite area_pages_end; [apply U1|]|].
    rewrite E1. rewrite area_pages_end in V2 by done. split_and!; [apply I2..|by rewrite C2|done]. }
  split_and!; [apply I..| |done]. by rewrite C, proc_at_set_proc.
Qed.

(** *** munmap *)

(** No table of the address space is mapped as user data. *)
Definition unmap_inv (root : Z) (s : vm) : Prop :=
  space_wf s root /\ Pmm.safe (frames s) /\
  forall x l t, user_addr x -> has (pte_val s root x) PTE_PRESENT = true -> user_path l ->
    table_at (phys s) root l = Some t -> t / 4096 <> Z.land (pte_val s root x) PTE_ADDR_MASK / 4096.

Definition absent (e : Z) : Z := if has e PTE_PRESENT then 0 else e.

Lemma absent_idem e : absent (absent e) = absent e.
Proof. unfold absent. destruct (has e PTE_PRESENT) eqn:E; [done|]. by rewrite E. Qed.

Lemma unmap_leaf_spec root pg s : unmap_inv root s -> user_addr pg ->
  unmap_inv root (unmap_leaf root pg s) /\ sc (unmap_leaf root pg s) = sc s /\
  forall x, user_addr x -> pte_val (unmap_leaf root pg s) root x =
    if decide (x / 4096 = pg / 4096) then absent (pte_val s root x) else pte_val s root x.
Proof.
  intros (Hw & Hs & Hn) Hpg. unfold unmap_leaf, absent.
  destruct (leaf_cases s root pg Hw Hpg) as [[-> E]|(t & Ht & -> & E)].
  { split_and!; [done..|]. intros x Hx. destruct (decide _) as [Ex|]; [|done].
    by rewrite (same_page_pte s root x pg), E. }
  destruct (has (ld s _) PTE_PRESENT) eqn:Hp.
  2: { split_and!; [done..|]. intros x Hx. destruct (decide _) as [Ex|]; [|done].
    by rewrite (same_page_pte s root x pg), E, Hp. }
  rewrite <- E in *. set (q := Z.land (pte_val s root pg) PTE_ADDR_MASK) in *.
  destruct (mask_range (pte_val s root pg)) as [Hq _]. fold q in Hq.
  assert (space_wf (s <| frames ::= Pmm.pmm_page_unref q |>) root) as W1
    by (apply space_unref; [done|done|lia|]; intros l x Hl Hx; by apply (Hn pg l)).
  set (s1 := s <| frames ::= Pmm.pmm_page_unref q |>) in *.
  destruct (leaf_write s1 root pg t 0 W1 Hpg Ht) as (W2 & _ & V2).
  assert (forall x, user_addr x -> pte_val (st (t + 8 * PT_INDEX pg) 0 s1) root x =
    if decide (x / 4096 = pg / 4096) then (if has (pte_val s root x) PTE_PRESENT then 0 else pte_val s root x)
    else pte_val s root x) as V.
  { intros x Hx. rewrite V2 by done. destruct (decide _) as [Ex|]; [|done].
    by rewrite (same_page_pte s root x pg), Hp. }
  split_and!; [split_and!; [done| |]|done|done].
  - by apply (Pmm.safe_step (Pmm.OpUnref q)); [|simpl; lia].
  - intros x l t' Hx Hpx Hl. rewrite (leaf_write_tables s1 root pg t 0 l W1 Hpg Ht Hl). intros Ht'.
    rewrite V in * by done. destruct (decide _); [destruct (has (pte_val s root x) PTE_PRESENT) eqn:Ep; [done|congruence]|by apply (Hn x l)].
Qed.

Lemma vma_unmap_spec c addr len s :
  let root := cr3 (proc_at (sc s) c) in let l := vmas (proc_at (sc s) c) in
  let lo := page_down addr in let hi := page_up (addr + len) in
  unmap_inv root s -> (c < length (procs (sc s)))%nat -> length l = VMA_MAX ->
  (forall i v, l !! i = Some v -> v_in_use v = true -> in_user v) ->
  let s' := vma_unmap c addr len s in
  unmap_inv root s' /\
  vmas (proc_at (sc s') c) = touch (fun v => v <| v_in_use := false |>) lo hi <$> l /\
  forall x, user_addr x -> pte_val s' root x =
    if covered lo hi l x then absent (pte_val s root x) else pte_val s root x.
Proof.
  intros root l lo hi Hi Hc Hl Hu. unfold vma_unmap.
  match goal with |- context [each_area ?b _ _ _ _] => set (f := b) end.
  destruct (each_area_spec root (unmap_inv root) absent (fun v => v <| v_in_use := false |>) absent_idem f c addr len s)
    as (I & C & V); try done.
  { intros j s1 I1 Hc1 R1 U1. cbv zeta. unfold f. set (v := vma_at s1 c j) in *.
    destruct (pages_spec root _ absent (unmap_leaf root) (unmap_leaf_spec root) (area_pages v) (v_start v) s1)
      as (I2 & C2 & V2); [done|apply U1|apply U1|by rewrite area_pages_end; [apply U1|]|].
    rewrite area_pages_end in V2 by done. rewrite R1. set (s2 := page_loop _ _ _ s1) in *.
    split_and!; [|by rewrite <- C2|done]. destruct I2 as (W2 & S2 & N2).
    split_and!; [by apply (space_same s2)|done|done]. }
  split_and!; [done| |done]. by rewrite C, proc_at_set_proc.
Qed.

(** ** System calls and faults *)

Definition mapped_zero (s : vm) (root x : Z) : Prop :=
  let e := pte_val s root x in
  has e PTE_PRESENT = true /\ has e PTE_WRITABLE = true /\
  data_page s root (Z.land e PTE_ADDR_MASK / 4096) /\
  forall i, 0 <= i < 512 -> ldq (phys s) (Z.land e PTE_ADDR_MASK + 8 * i) = 0.

Lemma brk_page_spec s root pg n : space_wf s root -> user_addr pg -> quiet s n -> 4 <= n ->
  exists s', brk_page root pg s = (s', true) /\ space_wf s' root /\ quiet s' (n - 4) /\
    keeps_data s s' root /\ sc s' = sc s /\
    (forall x, user_addr x -> x / 4096 = pg / 4096 -> mapped_zero s' root x) /\
    (forall x, user_addr x -> x / 4096 <> pg / 4096 -> pte_val s' root x = pte_val s root x).
Proof.
  intros Hw Hpg Hq Hn. unfold brk_page.
  destruct (alloc_quiet s n Hq ltac:(lia)) as (f & p & -> & T).
  pose proof (tk_pos _ _ _ T). replace (p =? 0) with false by lia.
  destruct (fresh_fill s root f p (fun _ => 0) Hw T) as (W1 & K1 & T1 & V1 & N1).
  change (zero_page p (s <| frames := f |>)) with (s <| frames := f |> <| phys ::= fill_page p (fun _ => 0) |>).
  set (s1 := s <| frames := f |> <| phys ::= _ |>) in *.
  assert (quiet s1 (n - 1)) as Hq1.
  { destruct Hq as [_ Hq]. split; [apply T|]. cbn. rewrite (tk_count _ _ _ T). lia. }
  pose proof (map_page_spec s1 root pg p (Z.lor (Z.lor PTE_PRESENT PTE_WRITABLE) PTE_USER) (n - 1) W1 Hpg Hq1 ltac:(lia)) as M.
  destruct (user_vm_map_page _ _ _ _ _) as [s' r]. destruct M as (-> & W2 & Q2 & K2 & _ & _ & C2 & V2).
  destruct (leaf_entry_spec p (Z.lor (Z.lor PTE_PRESENT PTE_WRITABLE) PTE_USER)) as (E1 & E2 & E3); [|apply T|done|].
  { pose proof (tk_bound _ _ _ T). destruct Hq as ((W0 & _) & _). pose proof (Pmm.wf_total _ W0). zsolve. }
  assert (data_page s1 root (p / 4096)) as Dp.
  { split_and!; [zsolve|cbn; rewrite (tk_used _ _ _ T) by zsolve; by rewrite bool_decide_true|].
    intros l t Hl. rewrite T1 by done. by apply N1. }
  change (0 <? 0) with false. cbv iota. exists s'.
  split_and!; [done|done|by replace (n - 4) with (n - 1 - 3) by lia|by eapply keeps_data_trans|by rewrite C2| |].
  - intros x Hx Ex. unfold mapped_zero. rewrite V2, decide_True by done. rewrite E1, E2, E3. cbv zeta.
    split_and!; [done|done|by apply K2|]. intros i Hi.
    destruct (K2 _ Dp) as [_ ->]; [by apply fill_inside; [apply T|]|apply words_in_page; [apply T|done]].
  - intros x Hx Ex. rewrite V2, decide_False by done. by apply V1.
Qed.

Lemma mapped_zero_keeps s s' root x : mapped_zero s root x -> keeps_data s s' root ->
  pte_val s' root x = pte_val s root x -> mapped_zero s' root x.
Proof.
  intros (H1 & H2 & H3 & H4) K E. unfold mapped_zero. rewrite E. destruct (K _ H3) as [D F]. split_and!; [done..|].
  intros i Hi. rewrite F; [by apply H4|]. apply words_in_page; [apply mask_range|done].
Qed.

(** A loop that maps one page after the other: what each turn establishes for
    its page holds for all pages at the end, if the later turns keep it. *)
Definition page_step (root : Z) (step : Z -> vm -> vm * bool) (Q : vm -> Z -> Prop) (pg : Z) : Prop :=
  forall s n, space_wf s root -> quiet s n -> 4 <= n ->
  exists s', step pg s = (s', true) /\ space_wf s' root /\ quiet s' (n - 4) /\
    keeps_data s s' root /\ sc s' = sc s /\
    (forall x, user_addr x -> x / 4096 = pg / 4096 -> Q s' x) /\
    (forall x, user_addr x -> x / 4096 <> pg / 4096 -> pte_val s' root x = pte_val s root x).

Definition kept (root : Z) (Q : vm -> Z -> Prop) : Prop :=
  forall s s' x, Q s x -> keeps_data s s' root -> pte_val s' root x = pte_val s root x -> Q s' x.

Lemma map_loop_spec root step Q n k base s m :
  kept root Q -> (forall i, (k <= i < k + n)%nat -> page_step root step Q (base + 4096 * Z.of_nat i)) ->
  space_wf s root -> 0 <= base -> base mod 4096 = 0 -> base + 4096 * Z.of_nat (k + n) <= 2 ^ 47 ->
  quiet s m -> 4 * Z.of_nat n <= m ->
  let lo := base + 4096 * Z.of_nat k in let hi := base + 4096 * Z.of_nat (k + n) in
  exists s', for_while n k (fun k => step (base + 4096 * Z.of_nat k)) s = (s', true) /\
    space_wf s' root /\ quiet s' (m - 4 * Z.of_nat n) /\ keeps_data s s' root /\ sc s' = sc s /\
    (forall x, lo <= x < hi -> Q s' x) /\
    (forall x, user_addr x -> ~ lo <= x < hi -> pte_val s' root x = pte_val s root x).
Proof.
  intros HQ. revert k s m. induction n as [|n IH]; intros k s m Hs Hw Hb Hm Hh Hq Hn lo hi.
  { exists s. split_and!; [done|done|by rewrite Z.mul_0_r, Z.sub_0_r| |done| |done]. { by intros x D. } intros x Hx. unfold lo, hi in Hx. lia. }
  cbn [for_while]. destruct (Hs k ltac:(lia) s m Hw Hq ltac:(lia)) as (s1 & -> & W1 & Q1 & K1 & C1 & Z1 & V1). fold lo in Z1, V1.
  destruct (IH (S k) s1 (m - 4) ltac:(intros; apply Hs; lia) W1 Hb Hm ltac:(lia) Q1 ltac:(lia)) as (s2 & E2 & W2 & Q2 & K2 & C2 & Z2 & V2).
  exists s2. rewrite E2. split_and!; [done|done|by replace (m - 4 * Z.of_nat (S n)) with (m - 4 - 4 * Z.of_nat n) by lia|by eapply keeps_data_trans|congruence| |].
  - intros x Hx. destruct (decide (x / 4096 = lo / 4096)) as [Ex|Ex].
    + assert (user_addr x) by (unfold user_addr; unfold lo, hi in *; lia).
      apply (HQ s1); [by apply Z1|done|]. apply V2; [done|]. unfold lo in *. zsolve.
    + apply Z2. unfold lo, hi in *. zsolve.
  - intros x Hx Hn'. rewrite V2, V1; [done|done| |done|]; unfold lo, hi in *; zsolve.
Qed.

(** Brk with a larger value maps every page up to the new break, zeroed and
    writable, returns the new break and changes no other page. *)
Theorem syscall_brk_correct new_brk s c :
  let p := proc_at (sc s) c in
  let lo := page_up (brk_current p) in let hi := page_up new_brk in
  current_user s = Some c -> (c < length (procs (sc s)))%nat -> space_wf s (cr3 p) ->
  0 <= brk_start p <= brk_current p -> brk_current p <= new_brk <= 2 ^ 46 -> 0 < new_brk ->
  quiet s (4 * Z.of_nat (pages_between lo hi)) ->
  let '(s', r) := syscall_brk new_brk s in
  r = new_brk /\ brk_current (proc_at (sc s') c) = new_brk /\ space_wf s' (cr3 p) /\
  (forall x, lo <= x < hi -> mapped_zero s' (cr3 p) x) /\
  (forall x, user_addr x -> ~ lo <= x < hi -> pte_val s' (cr3 p) x = pte_val s (cr3 p) x) /\
  (forall i, i <> c -> proc_at (sc s') i = proc_at (sc s) i).
Proof.
  intros p lo hi Hc Hlt Hw Hs Hb H0 Hq. unfold syscall_brk. rewrite Hc. fold p.
  replace (new_brk =? 0) with false by lia. replace (new_brk <? brk_start p) with false by lia. fold lo hi.
  assert (lo mod 4096 = 0 /\ hi mod 4096 = 0 /\ 0 <= lo <= hi /\ hi <= 2 ^ 47) as (A & B & C & D).
  { unfold lo, hi, page_up. rewrite !u64_small, !page_down_spec by lia. zsolve. }
  assert (lo + 4096 * Z.of_nat (pages_between lo hi) = hi) as E by (unfold pages_between; zsolve).
  destruct (map_loop_spec (cr3 p) (brk_page (cr3 p)) (fun s => mapped_zero s (cr3 p)) (pages_between lo hi) 0 lo s (4 * Z.of_nat (pages_between lo hi)))
    as (s1 & -> & W & _ & _ & C1 & Z1 & V1); [intros ? ? ?; by apply mapped_zero_keeps| |done|lia|done|simpl; lia|done|lia|].
  { intros i Hi s0 n0 W0 Q0 N0. apply (brk_page_spec s0 _ _ n0 W0); [unfold user_addr; lia|done|done]. }
  simpl Nat.add in Z1, V1. rewrite E in Z1, V1. rewrite Z.mul_0_r, Z.add_0_r in Z1, V1.
  destruct (proc_set_current c (fun p => p <| brk_current := new_brk |>) s1) as (P1 & P2 & _); [by rewrite C1|].
  set (s2 := set_current c _ s1) in *.
  split; [done|]. split; [by rewrite P1|]. split; [by apply (space_same s1)|]. split_and!; [|done|].
  - intros x Hx. apply (mapped_zero_keeps s1); [by apply Z1| |done]. by apply (space_same s1).
  - intros i Hi. by rewrite P2, C1.
Qed.

(** Brk does not check for wrap-around: the largest possible value is accepted
    although no page is mapped for it. *)
Theorem brk_top_accepted s c :
  current_user s = Some c -> (c < length (procs (sc s)))%nat -> brk_start (proc_at (sc s) c) < 2 ^ 64 ->
  let '(s', r) := syscall_brk (2 ^ 64 - 1) s in
  r = 2 ^ 64 - 1 /\ brk_current (proc_at (sc s') c) = 2 ^ 64 - 1 /\ phys s' = phys s /\ frames s' = frames s.
Proof.
  intros Hc Hlt Hb. unfold syscall_brk. rewrite Hc. change (2 ^ 64 - 1 =? 0) with false.
  replace (_ <? brk_start _) with false by lia.
  assert (pages_between (page_up (brk_current (proc_at (sc s) c))) (page_up (2 ^ 64 - 1)) = 0%nat) as ->.
  { change (page_up (2 ^ 64 - 1)) with 0. unfold pages_between, page_up. rewrite page_down_spec.
    pose proof (u64_range (brk_current (proc_at (sc s) c) + 4095)). zsolve. }
  cbn [for_while]. destruct (proc_set_current c (fun p => p <| brk_current := 2 ^ 64 - 1 |>) s Hlt) as (-> & _). done.
Qed.

(** Munmap removes every area that meets the range and leaves none of its
    pages mapped; pages of other areas and addresses outside are unchanged. *)
Theorem syscall_munmap_correct addr len s c :
  let p := proc_at (sc s) c in
  let lo := page_down addr in let hi := page_up (addr + len) in
  current_user s = Some c -> (c < length (procs (sc s)))%nat -> unmap_inv (cr3 p) s ->
  length (vmas p) = VMA_MAX -> (forall i v, vmas p !! i = Some v -> v_in_use v = true -> in_user v) ->
  let '(s', r) := syscall_munmap addr len s in
  r = 0 /\ unmap_inv (cr3 p) s' /\
  (forall x, user_addr x -> covered lo hi (vmas p) x = true -> has (pte_val s' (cr3 p) x) PTE_PRESENT = false) /\
  (forall x, user_addr x -> covered lo hi (vmas p) x = false -> pte_val s' (cr3 p) x = pte_val s (cr3 p) x) /\
  (forall i v, vmas p !! i = Some v -> vmas (proc_at (sc s') c) !! i =
     Some (if hit lo hi v then v <| v_in_use := false |> else v)).
Proof.
  intros p lo hi Hc Hlt Hi Hl Hu. unfold syscall_munmap. rewrite Hc.
  destruct (vma_unmap_spec c addr len s Hi Hlt Hl Hu) as (I & E & V). fold p lo hi in I, E, V.
  split; [done|]. split; [done|]. split_and!.
  - intros x Hx Hcov. rewrite V, Hcov by done. unfold absent. by destruct (has (pte_val s _ x) PTE_PRESENT) eqn:Ex.
  - intros x Hx Hcov. by rewrite V, Hcov.
  - intros i v Hv. rewrite E, list_lookup_fmap, Hv. done.
Qed.

(** Unmapping one page of an area unmaps all of it: a page of the area outside
    the requested range is no longer mapped and no area holds it. *)
Theorem munmap_drops_whole_area addr len s c i v :
  let p := proc_at (sc s) c in
  current_user s = Some c -> (c < length (procs (sc s)))%nat -> unmap_inv (cr3 p) s ->
  length (vmas p) = VMA_MAX -> (forall i v, vmas p !! i = Some v -> v_in_use v = true -> in_user v) ->
  areas_inv (vmas p) -> vmas p !! i = Some v -> v_in_use v = true ->
  v_start v <= page_down addr < v_end v -> page_down addr < page_up (addr + len) ->
  forall x, v_start v <= x < v_end v ->
  let s' := (syscall_munmap addr len s).1 in
  has (pte_val s' (cr3 p) x) PTE_PRESENT = false /\ vma_find (proc_at (sc s') c) x = None.
Proof.
  intros p Hc Hlt Hi Hl Hu [_ Hd] Hv Hin Hr Hne x Hx. unfold syscall_munmap. rewrite Hc.
  destruct (vma_unmap_spec c addr len s Hi Hlt Hl Hu) as (I & E & V). fold p in I, E, V. cbn [fst].
  set (lo := page_down addr) in *. set (hi := page_up (addr + len)) in *.
  assert (hit lo hi v = true) as Hh by (unfold hit; rewrite Hin; cbn [andb]; apply negb_true_iff, orb_false_iff; lia).
  destruct (Hu i v Hv Hin) as (U1 & U2 & _).
  assert (covered lo hi (vmas p) x = true) as Hcov.
  { unfold covered. apply existsb_exists. exists v. split; [by apply list_elem_of_In; eapply list_elem_of_lookup_2|].
    rewrite Hh. lia. }
  split.
  - rewrite V by (unfold user_addr; lia). rewrite Hcov. unfold absent.
    by destruct (has (pte_val s _ x) PTE_PRESENT) eqn:Ex.
  - rewrite vma_find_holds, E. apply find_index_None. intros j w Hj. rewrite list_lookup_fmap in Hj.
    destruct (vmas p !! j) as [w0|] eqn:Hw; [|done]. injection Hj as <-. unfold touch.
    destruct (hit lo hi w0) eqn:Eh; [done|]. unfold holds. destruct (v_in_use w0) eqn:Ew; [|done].
    destruct (decide (i = j)) as [->|Hij]; [congruence|].
    destruct (Hd i j v w0 Hv Hw Hin Ew Hij) as [?|?]; lia.
Qed.

(** Mprotect with write permission makes a copy-on-write page writable in
    place: the entry keeps the frame it shares with the other process, and the
    frame's reference count is not looked at. *)
Theorem mprotect_breaks_cow addr len prot s c x :
  let p := proc_at (sc s) c in let e := pte_val s (cr3 p) x in
  current_user s = Some c -> (c < length (procs (sc s)))%nat -> space_wf s (cr3 p) ->
  length (vmas p) = VMA_MAX -> (forall i v, vmas p !! i = Some v -> v_in_use v = true -> in_user v) ->
  user_addr x -> covered (page_down addr) (page_up (addr + len)) (vmas p) x = true ->
  has e PTE_PRESENT = true -> has e PTE_COW = true -> has (u32 prot) PROT_WRITE = true ->
  let s' := (syscall_mprotect addr len prot s).1 in
  let e' := pte_val s' (cr3 p) x in
  Z.land e' PTE_ADDR_MASK = Z.land e PTE_ADDR_MASK /\ has e' PTE_WRITABLE = true /\ has e' PTE_COW = false /\
  frames s' = frames s.
Proof.
  intros p e Hc Hlt Hw Hl Hu Hx Hcov He _ Hp. unfold syscall_mprotect. rewrite Hc. cbn [fst]. cbv zeta.
  destruct (vma_protect_spec c addr len (u32 prot) s Hw Hlt Hl Hu) as ([_ F] & _ & V).
  fold p in V. rewrite V, Hcov by done. fold e.
  destruct (protect_entry_spec (u32 prot) e He) as (-> & _ & -> & ->). done.
Qed.

Lemma not_present_no_cow err : has err 1 = false -> (Z.land err 3 =? 3) = false.
Proof.
  change 1 with (2 ^ 0). rewrite has_bit by lia. intros H. apply Z.eqb_neq. intros E.
  assert (Z.testbit (Z.land err 3) 0 = true) as E' by by rewrite E. by rewrite Z.land_spec, H in E'.
Qed.

(** The handler on a not-present fault that the area code resolves. *)
Lemma page_fault_area fp km cr2 err s c s' :
  has err 1 = false -> cr2 < KERNEL_VMA -> current_process (sc s) = Some c -> cr3 (proc_at (sc s) c) <> 0 ->
  vma_handle_fault fp km c cr2 (has err 2) s = (s', 0) -> page_fault_handler fp km cr2 err s = Some s'.
Proof.
  intros He Hk Hc Hr Hv. unfold page_fault_handler, fault_try. rewrite not_present_no_cow, He by done.
  replace (cr2 <? KERNEL_VMA) with true by lia. cbn [andb negb]. rewrite Hc.
  replace (cr3 _ =? 0) with false by lia. by rewrite Hv.
Qed.


(** A page that was swapped out and lies in a private area is not swapped in:
    the fault handler tries the area first, so the page is replaced by a fresh
    one with the area's initial contents; what was in swap is not read and its
    slot stays allocated. *)
Theorem swapped_page_lost fp km cr2 err s c j k w :
  let root := cr3 (proc_at (sc s) c) in let v := vma_at s c j in
  space_wf s root -> user_addr cr2 -> quiet s 4 -> current_process (sc s) = Some c -> root <> 0 ->
  has err 1 = false -> vma_find (proc_at (sc s) c) cr2 = Some j ->
  (has err 2 = true -> has (v_prot v) PROT_WRITE = true) ->
  has (v_flags v) MAP_SHARED && (v_type v =? VMA_ANON) = false -> v_type v = VMA_ANON ->
  swapped_out s root cr2 k w ->
  exists s', page_fault_handler fp km cr2 err s = Some s' /\
  has (pte_val s' root cr2) PTE_PRESENT = true /\
  (forall i, 0 <= i < 512 -> ldq (phys s') (Z.land (pte_val s' root cr2) PTE_ADDR_MASK + 8 * i) = 0) /\
  zget (swap_slots s') k = true.
Proof.
  intros root v Hw Ha Hq Hc Hr He Hj Hp Hs Ht (_ & _ & _ & Hk & _).
  assert (v_type v <> VMA_DEVICE) as Hd by (rewrite Ht; done).
  pose proof (private_fault_spec fp km s c cr2 (has err 2) j Hw Ha Hq Hj Hp Hs Hd) as H.
  destruct (vma_handle_fault _ _ _ _ _ _) as [s' r] eqn:Ev.
  destruct H as (-> & _ & _ & S & _ & P & _ & _ & D & _). exists s'. split_and!; [|done| |by rewrite S].
  - eapply page_fault_area; [done| |done|done|done]. unfold user_addr, KERNEL_VMA in *. lia.
  - intros i Hi. rewrite D by done. fold v. unfold page_contents. by rewrite Ht.
Qed.

(** ** A concrete process

    One private anonymous area of two pages at 0x400000, writable; the page
    tables are those of [demo_vm]. *)

Definition demo_area : vma := vma_zero <| v_start := 0x400000 |> <| v_end := 0x402000 |> <| v_prot := 3 |>
  <| v_flags := 0x22 |> <| v_in_use := true |>.

Definition demo_user_proc : process := process_zero <| pid := 5 |> <| state := PROCESS_RUNNING |> <| cr3 := 0x2000 |>
  <| is_user := true |> <| vmas := demo_area :: replicate 31 vma_zero |> <| mmap_next := MMAP_BASE |>
  <| brk_start := 0x600000 |> <| brk_current := 0x600000 |>.

Definition demo_mm (e : Z) : vm :=
  (demo_vm e 1) <| sc := mk_sched [process_zero; demo_user_proc] (Some 1%nat) None None 0 true 0x2000 0x2000 0 |>.

Lemma demo_mm_space e : space_wf (demo_mm e) 0x2000.
Proof. apply (space_same (demo_vm e 1)); [done|done|apply demo_space]. Qed.

Lemma demo_mm_quiet e n : n <= 26 -> quiet (demo_mm e) n.
Proof. intros Hn. split; [by apply demo_frames_safe; auto|]. change (32 + n <= 57 + 1). lia. Qed.

Lemma demo_areas i v : vmas demo_user_proc !! i = Some v -> v_in_use v = true -> i = 0%nat /\ v = demo_area.
Proof.
  destruct i as [|i]; [intros [= <-]; done|]. intros Hv. change (replicate 31 vma_zero !! i = Some v) in Hv.
  apply lookup_replicate in Hv as [-> _]. done.
Qed.

Lemma demo_areas_user i v : vmas demo_user_proc !! i = Some v -> v_in_use v = true -> in_user v.
Proof. intros Hv Hu. destruct (demo_areas i v Hv Hu) as [_ ->]. by vm_compute. Qed.

Lemma demo_areas_inv : areas_inv (vmas demo_user_proc).
Proof.
  split.
  - intros i v Hv Hu. destruct (demo_areas i v Hv Hu) as [_ ->]. by vm_compute.
  - intros i j v w Hv Hw Hu Hu' Hne. destruct (demo_areas i v Hv Hu), (demo_areas j w Hw Hu'). lia.
Qed.

Lemma demo_unmap_inv e : e = 0 \/ e = 0x6007 -> unmap_inv 0x2000 (demo_mm e).
Proof.
  intros He. split_and!; [apply demo_mm_space|by apply demo_frames_safe; auto|].
  intros x l t Hx Hp Hl Ht. assert (t / 4096 <= 5) as Ht5.
  { by destruct (demo_tables e 1 l t Hl Ht) as [[= -> ->]|[[= -> ->]|[[= -> ->]|[= -> ->]]]]. }
  assert (pte_val (demo_mm e) 0x2000 x = 0 \/ pte_val (demo_mm e) 0x2000 x = e) as [E|E].
  { rewrite pte_val_table by (done || apply demo_mm_space).
    destruct (table_at _ _ (path_of x)) as [u|] eqn:Hu; [|by left].
    destruct (index_range x) as (_ & _ & _ & Hr).
    destruct (demo_tables e 1 _ u (user_path_of x Hx) Hu) as [F|[F|[F|F]]]; [done..|].
    injection F as _ _ _ ->. cbn [phys demo_mm demo_vm upd]. rewrite !ldq_insert.
    repeat (destruct (decide _); [first [by right|lia]|]). by left. }
  - by rewrite E in Hp.
  - rewrite E in *. destruct He as [-> | ->]; [done|]. change (Z.land 0x6007 PTE_ADDR_MASK / 4096) with 6. lia.
Qed.

Lemma syscall_mmap_correct_witness :
  areas_inv (vmas (proc_at (sc (syscall_mmap None 0x1000 (mk_mmap_args 0 5000 3 0x22 0 0) (demo_mm 0)).1) 1)).
Proof.
  pose proof (syscall_mmap_correct None 0x1000 (mk_mmap_args 0 5000 3 0x22 0 0) (demo_mm 0) 1 eq_refl
    ltac:(simpl; lia) demo_areas_inv eq_refl ltac:(done) ltac:(done) eq_refl) as H.
  destruct (syscall_mmap _ _ _ _) as [s' r]. exact (proj1 H).
Defined.

Lemma syscall_brk_correct_witness :
  mapped_zero (syscall_brk 0x602800 (demo_mm 0)).1 0x2000 0x601234.
Proof.
  pose proof (syscall_brk_correct 0x602800 (demo_mm 0) 1 eq_refl ltac:(simpl; lia) (demo_mm_space 0)
    ltac:(done) ltac:(done) ltac:(done) (demo_mm_quiet 0 12 ltac:(done))) as H.
  destruct (syscall_brk _ _) as [s' r]. destruct H as (_ & _ & _ & H & _). apply H. done.
Defined.

Lemma brk_top_accepted_witness : (syscall_brk (2 ^ 64 - 1) (demo_mm 0)).2 = 2 ^ 64 - 1.
Proof.
  pose proof (brk_top_accepted (demo_mm 0) 1 eq_refl ltac:(simpl; lia) ltac:(done)) as H.
  destruct (syscall_brk _ _) as [s' r]. exact (proj1 H).
Defined.

Lemma syscall_munmap_correct_witness :
  has (pte_val (syscall_munmap 0x400000 4096 (demo_mm 0x6007)).1 0x2000 0x400010) PTE_PRESENT = false.
Proof.
  pose proof (syscall_munmap_correct 0x400000 4096 (demo_mm 0x6007) 1 eq_refl ltac:(simpl; lia)
    (demo_unmap_inv _ ltac:(auto)) eq_refl demo_areas_user) as H.
  destruct (syscall_munmap _ _ _) as [s' r]. destruct H as (_ & _ & H & _). by apply H.
Defined.

Lemma munmap_drops_whole_area_witness :
  vma_find (proc_at (sc (syscall_munmap 0x401000 4096 (demo_mm 0x6007)).1) 1) 0x400010 = None.
Proof.
  by apply (munmap_drops_whole_area 0x401000 4096 (demo_mm 0x6007) 1 0 demo_area eq_refl ltac:(simpl; lia)
    (demo_unmap_inv _ ltac:(auto)) eq_refl demo_areas_user demo_areas_inv).
Defined.

Lemma mprotect_breaks_cow_witness :
  has (pte_val (syscall_mprotect 0x400000 4096 3 (demo_mm 0x6205)).1 0x2000 0x400000) PTE_WRITABLE = true.
Proof.
  by apply (mprotect_breaks_cow 0x400000 4096 3 (demo_mm 0x6205) 1 0x400000 eq_refl ltac:(simpl; lia)
    (demo_mm_space _) eq_refl demo_areas_user).
Defined.


Lemma swapped_page_lost_witness :
  exists s', page_fault_handler (fun _ _ => None) (fun _ => 0) 0x400000 4 (demo_mm 0x3400) = Some s' /\
    zget (swap_slots s') 3 = true.
Proof.
  assert (swapped_out (demo_mm 0x3400) (cr3 (proc_at (sc (demo_mm 0x3400)) 1)) 0x400000 3
    (fun i => ldq (disk (demo_mm 0x3400)) (slot_base 3 + 8 * i))) as Sw.
  { unfold swapped_out. split_and!; [by vm_compute|done|done|by vm_compute|by vm_compute|]. intros i Hi. reflexivity. }
  pose proof (swapped_page_lost (fun _ _ => None) (fun _ => 0) 0x400000 4 (demo_mm 0x3400) 1 0 3
    (fun i => ldq (disk (demo_mm 0x3400)) (slot_base 3 + 8 * i)) (demo_mm_space _)
    ltac:(done) (demo_mm_quiet _ 4 ltac:(lia)) eq_refl ltac:(done) eq_refl) as H.
  specialize (H eq_refl ltac:(done)). specialize (H eq_refl eq_refl Sw).
  destruct H as (s' & H & _ & _ & K). exists s'. split; [exact H|exact K].
Defined.

End Mmap.
