(* ===== verification/Malloc.v ===== *)
(** * The user heap (user/lib/malloc.c)

    First-fit allocation on a doubly linked list of block headers that grows
    with the brk system call.  Headers live in a map indexed by address, as
    their pointers do; the contents of the allocated blocks are a map of bytes
    of their own.  The system call is behind an interface, which the kernel's
    brk of Mmap.v implements.  The invariant describes the heap as a list of
    blocks in address order that do not overlap. *)

From stdpp Require Import prelude gmap.
From Stdlib Require Import ZArith Lia.
From S2P Require Import Prelude Pmm Process Sched Vm Mmap.
Local Open Scope Z_scope.

(** ** The system call *)

Class BrkOps (K : Type) := sys_brk_libc : Z -> K -> K * Z.

Module Malloc.

Definition ERR64 : Z := 2 ^ 64 - 1.

(** What the library relies on: a query returns the break; a larger break is
    either set and returned, or refused, and then the old one is returned. *)
Class BrkLaws (K : Type) `{BrkOps K} := {
  brk_ok : K -> Prop;
  break : K -> Z;
  brk_query k : brk_ok k -> sys_brk_libc 0 k = (k, break k);
  brk_grow n k : brk_ok k -> break k <= n < 2 ^ 63 ->
    let '(k', r) := sys_brk_libc n k in brk_ok k' /\ break k' = r /\ (r = n \/ r = break k)
}.

(** ** Blocks *)

(** [struct malloc_block]; pointers are addresses, 0 is NULL. *)
Record malloc_block := mk_block { size : Z; free_ : bool; next : Z; prev : Z }.

#[export] Instance eta_malloc_block : Eta malloc_block := fun b => mk_block (size b) (free_ b) (next b) (prev b).
#[export] Instance malloc_block_inhabited : Inhabited malloc_block := populate (mk_block 0 false 0 0).

Definition HEADER_SIZE : Z := 32.
Definition MIN_SPLIT : Z := HEADER_SIZE + 16.

Section heap.
Context {K : Type} `{BrkOps K}.

Record heap := mk_heap {
  heap_head : Z;
  heap_end : Z;
  mem : gmap Z malloc_block;
  bytes : gmap Z Z;
  kern : K
}.

#[local] Instance eta_heap : Eta heap := fun h => mk_heap (heap_head h) (heap_end h) (mem h) (bytes h) (kern h).

Definition hdr (h : heap) (a : Z) : malloc_block := mem h !!! a.
Definition put (a : Z) (b : malloc_block) (h : heap) : heap := h <| mem ::= <[a := b]> |>.
Definition set_next (a v : Z) (h : heap) : heap := put a ((hdr h a) <| next := v |>) h.
Definition set_prev (a v : Z) (h : heap) : heap := put a ((hdr h a) <| prev := v |>) h.
Definition set_size (a v : Z) (h : heap) : heap := put a ((hdr h a) <| size := v |>) h.
Definition set_free (a : Z) (v : bool) (h : heap) : heap := put a ((hdr h a) <| free_ := v |>) h.

(** [if (n) n->prev = v;] *)
Definition relink (n v : Z) (h : heap) : heap := if n =? 0 then h else set_prev n v h.

(** Extend the heap. *)
Definition sbrk (sz : Z) (h : heap) : heap * Z :=
  let '(h, ok) := if heap_end h =? 0 then let '(k, r) := sys_brk_libc 0 (kern h) in (h <| heap_end := r |> <| kern := k |>, negb (r =? ERR64)) else (h, true) in
  if negb ok then (h, 0) else
  let old_end := heap_end h in
  let new_end := u64 (heap_end h + sz) in
  let '(k, result) := sys_brk_libc new_end (kern h) in
  let h := h <| kern := k |> in
  if (result =? ERR64) || (result <? new_end) then (h, 0) else (h <| heap_end := result |>, old_end).

(** ** Allocation *)

(** Give out block [b], split if the rest can hold a block. *)
Definition take_block (b sz : Z) (h : heap) : heap :=
  let h := if u64 (sz + MIN_SPLIT) <=? size (hdr h b) then
      let rest := u64 (b + HEADER_SIZE + sz) in
      let h := put rest (mk_block (u64 (size (hdr h b) - sz - HEADER_SIZE)) true (next (hdr h b)) b) h in
      let h := relink (next (hdr h rest)) rest h in
      set_size b sz (set_next b rest h)
    else h in
  set_free b false h.

(** The first-fit walk; [fuel] bounds the number of blocks visited. *)
Fixpoint malloc_walk (fuel : nat) (sz b : Z) (h : heap) : option (heap * Z) :=
  match fuel with
  | O => None
  | S fuel' =>
      if b =? 0 then None
      else if free_ (hdr h b) && (sz <=? size (hdr h b)) then Some (take_block b sz h, b + HEADER_SIZE)
      else malloc_walk fuel' sz (next (hdr h b)) h
  end.

(** The last block of the list from [b] on. *)
Fixpoint last_block (fuel : nat) (b : Z) (h : heap) : Z :=
  match fuel with
  | O => b
  | S fuel' => if next (hdr h b) =? 0 then b else last_block fuel' (next (hdr h b)) h
  end.

(** The headers that were ever written bound every walk. *)
Definition walk_fuel (h : heap) : nat := S (base.size (mem h)).

(** No free block: extend the heap and append the new block. *)
Definition malloc_extend (sz : Z) (h : heap) : heap * Z :=
  let '(h, nb) := sbrk (u64 (HEADER_SIZE + sz)) h in
  if nb =? 0 then (h, 0) else
  let h := put nb (mk_block sz false 0 0) h in
  let h := if heap_head h =? 0 then h <| heap_head := nb |> else
      let b := last_block (walk_fuel h) (heap_head h) h in
      set_prev nb b (set_next b nb h) in
  (h, nb + HEADER_SIZE).

Definition round8 (sz : Z) : Z := Z.land (u64 (sz + 7)) (Z.lnot 7).

Definition malloc (sz : Z) (h : heap) : heap * Z :=
  if sz =? 0 then (h, 0) else
  let sz := round8 sz in
  match malloc_walk (walk_fuel h) sz (heap_head h) h with
  | Some r => r
  | None => malloc_extend sz h
  end.

(** ** Release *)

(** Block [b] absorbs block [n] behind it. *)
Definition absorb (b n : Z) (h : heap) : heap :=
  let h := set_size b (u64 (size (hdr h b) + HEADER_SIZE + size (hdr h n))) h in
  let h := set_next b (next (hdr h n)) h in
  relink (next (hdr h b)) b h.

(** Absorb the free blocks behind [b]. *)
Fixpoint coalesce_next (fuel : nat) (b : Z) (h : heap) : heap :=
  match fuel with
  | O => h
  | S fuel' =>
      let n := next (hdr h b) in
      if (n =? 0) || negb (free_ (hdr h n)) then h else coalesce_next fuel' b (absorb b n h)
  end.

(** Let the free blocks before [b] absorb it. *)
Fixpoint coalesce_prev (fuel : nat) (b : Z) (h : heap) : heap :=
  match fuel with
  | O => h
  | S fuel' =>
      let p := prev (hdr h b) in
      if (p =? 0) || negb (free_ (hdr h p)) then h else coalesce_prev fuel' p (absorb p b h)
  end.

Definition free (ptr : Z) (h : heap) : heap :=
  if ptr =? 0 then h else
  let b := ptr - HEADER_SIZE in
  let h := set_free b true h in
  let h := coalesce_next (walk_fuel h) b h in
  coalesce_prev (walk_fuel h) b h.

(** ** Contents *)

Definition load (h : heap) (a : Z) : Z := default 0 (bytes h !! a).

(** [memset] and [memcpy] of the user library, byte by byte. *)
Fixpoint memset_loop (n : nat) (d c : Z) (m : gmap Z Z) : gmap Z Z := match n with O => m | S n => memset_loop n (d + 1) c (<[d := c]> m) end.
Fixpoint memcpy_loop (n : nat) (d s : Z) (m : gmap Z Z) : gmap Z Z := match n with O => m | S n => memcpy_loop n (d + 1) (s + 1) (<[d := default 0 (m !! s)]> m) end.
Definition memset (dst c n : Z) (h : heap) : heap := h <| bytes ::= memset_loop (Z.to_nat n) dst (u8 c) |>.
Definition memcpy (dst src n : Z) (h : heap) : heap := h <| bytes ::= memcpy_loop (Z.to_nat n) dst src |>.

Definition realloc (ptr sz : Z) (h : heap) : heap * Z :=
  if ptr =? 0 then malloc sz h else
  if sz =? 0 then (free ptr h, 0) else
  let b := ptr - HEADER_SIZE in
  if sz <=? size (hdr h b) then (h, ptr) else
  let '(h, new_ptr) := malloc sz h in
  if new_ptr =? 0 then (h, 0) else
  (free ptr (memcpy new_ptr ptr (size (hdr h b)) h), new_ptr).

Definition calloc (nmemb sz : Z) (h : heap) : heap * Z :=
  let total := u64 (nmemb * sz) in
  let '(h, ptr) := malloc total h in
  (if ptr =? 0 then h else memset ptr 0 total h, ptr).

(** ** Specification: the heap as a list of blocks *)

Record blk := mk_blk { b_addr : Z; b_size : Z; b_used : bool }.

Definition b_end (b : blk) : Z := b_addr b + HEADER_SIZE + b_size b.

(** The headers from [p] on, whose predecessor is [q], are those of [l]; behind
    them, [p'] comes next, and its predecessor is [q']. *)
Fixpoint seg (m : gmap Z malloc_block) (q p : Z) (l : list blk) (q' p' : Z) : Prop :=
  match l with
  | [] => q' = q /\ p' = p
  | b :: l' => p = b_addr b /\ exists n, m !! p = Some (mk_block (b_size b) (negb (b_used b)) n q) /\ seg m p n l' q' p'
  end.

(** Blocks in address order between [lo] and [hi]. *)
Fixpoint ordered (lo : Z) (l : list blk) (hi : Z) : Prop :=
  match l with
  | [] => lo <= hi
  | b :: l' => lo <= b_addr b /\ b_addr b mod 8 = 0 /\ 0 <= b_size b /\ b_size b mod 8 = 0 /\ ordered (b_end b) l' hi
  end.

(** The end of the heap; before the first allocation it is not known to the
    library. *)
Definition top `{!BrkLaws K} (h : heap) : Z := break (kern h).

Record heap_inv `{!BrkLaws K} (h : heap) (l : list blk) : Prop := mk_heap_inv {
  inv_seg : exists e, seg (mem h) 0 (heap_head h) l e 0;
  inv_ordered : ordered 1 l (top h);
  inv_end : heap_end h = top h \/ heap_end h = 0 /\ l = [];
  inv_brk : brk_ok (kern h);
  inv_align : top h mod 8 = 0;
  inv_max : top h < 2 ^ 62
}.

(** ** Lists of blocks *)

Lemma seg_app m q p l1 l2 q' p' : seg m q p (l1 ++ l2) q' p' <-> exists r s, seg m q p l1 r s /\ seg m r s l2 q' p'.
Proof.
  revert q p. induction l1 as [|b l1 IH]; intros q p; cbn.
  - split; [by exists q, p|]. by intros (r & s & [-> ->] & ?).
  - split.
    + intros [-> (n & Hm & (r & s & H1 & H2)%IH)]. exists r, s. split; [|done]. split; [done|]. by exists n.
    + intros (r & s & [-> (n & Hm & H1)] & H2). split; [done|]. exists n. split; [done|]. apply IH. by exists r, s.
Qed.

Lemma seg_ext m m' q p l q' p' : (forall b, b ∈ l -> m' !! b_addr b = m !! b_addr b) -> seg m q p l q' p' -> seg m' q p l q' p'.
Proof.
  revert q p. induction l as [|b l IH]; intros q p He; [done|]. cbn. intros [-> (n & Hm & Hs)]. split; [done|]. exists n. rewrite He by (by left). split; [done|]. apply IH; [|done]. intros c Hc. apply He. by right.
Qed.

Lemma seg_insert m q p l q' p' a x : a ∉ b_addr <$> l -> seg m q p l q' p' -> seg (<[a := x]> m) q p l q' p'.
Proof. intros Ha. apply seg_ext. intros b Hb. apply lookup_insert_ne. intros ->. apply Ha. apply list_elem_of_fmap. by exists b. Qed.

(** The successor's pointer back. *)
Lemma seg_relink h q n l q' x : seg (mem h) q n l q' 0 -> NoDup (b_addr <$> l) -> Forall (fun b => b_addr b <> 0) l ->
  (exists e, seg (mem (relink n x h)) x n l e 0) /\ forall a, a <> n -> mem (relink n x h) !! a = mem h !! a.
Proof.
  intros Hs Hd H0. unfold relink. destruct l as [|b l].
  - destruct Hs as [-> ->]. rewrite Z.eqb_refl. split; [by exists x|done].
  - destruct Hs as [-> (k & Hm & Hs)]. apply Forall_cons in H0 as [Hb _]. apply NoDup_cons in Hd as [Hn _]. rewrite (proj2 (Z.eqb_neq _ 0)) by done. split.
    + exists q'. split; [done|]. exists k. unfold set_prev, put, hdr. cbn. rewrite lookup_insert_eq. unfold lookup_total, map_lookup_total. rewrite Hm. split; [done|by apply seg_insert].
    + intros a Ha. unfold set_prev, put. cbn. by rewrite lookup_insert_ne.
Qed.

Lemma ordered_app lo l1 l2 hi : ordered lo (l1 ++ l2) hi <-> exists m, ordered lo l1 m /\ ordered m l2 hi.
Proof.
  revert lo. induction l1 as [|b l1 IH]; intros lo; cbn [app ordered].
  - split; [intros H2; exists lo; split; [lia|done]|]. intros (m & Hle & H2). destruct l2 as [|c l2]; cbn in *; [lia|]. destruct H2 as (? & ?). split; [lia|done].
  - rewrite IH. split; [intros (? & ? & ? & ? & m & ? & ?); by exists m|]. intros (m & (? & ? & ? & ? & ?) & ?). split_and!; try done. by exists m.
Qed.

Lemma ordered_weaken lo lo' l hi : lo' <= lo -> ordered lo l hi -> ordered lo' l hi.
Proof. destruct l as [|b l]; cbn; [lia|]. intros Hle (? & ?). split; [lia|done]. Qed.

Lemma ordered_bounds lo l hi : ordered lo l hi -> lo <= hi /\ Forall (fun b => lo <= b_addr b /\ b_end b <= hi /\ 0 <= b_size b) l.
Proof.
  revert lo. induction l as [|b l IH]; intros lo; cbn [ordered]; [by intros; split; [|apply Forall_nil_2]|]. intros (H1 & H2 & H3 & H4 & Ho). destruct (IH _ Ho) as [Hle Hf]. unfold b_end, HEADER_SIZE in *.
  split; [lia|]. apply Forall_cons. split; [lia|]. eapply Forall_impl; [done|]. cbn. lia.
Qed.

Lemma ordered_NoDup lo l hi : ordered lo l hi -> NoDup (b_addr <$> l).
Proof.
  revert lo. induction l as [|b l IH]; intros lo; cbn [ordered fmap list_fmap]; [constructor|]. intros (H1 & H2 & H3 & H4 & Ho). constructor; [|by eapply IH].
  intros (c & Hc & Hin)%list_elem_of_fmap. destruct (ordered_bounds _ _ _ Ho) as [_ Hf]. rewrite Forall_forall in Hf. specialize (Hf c Hin) as (Hlo & _). unfold b_end, HEADER_SIZE in Hlo. lia.
Qed.

(** Two blocks of the heap do not overlap. *)
Lemma ordered_apart lo l hi b c : ordered lo l hi -> b ∈ l -> c ∈ l -> b_addr b <> b_addr c -> b_end b <= b_addr c \/ b_end c <= b_addr b.
Proof.
  revert lo. induction l as [|d l IH]; intros lo; cbn [ordered]; [by intros _ ?%elem_of_nil|]. intros (H1 & H2 & H3 & H4 & Ho) Hb Hc Hne. destruct (ordered_bounds _ _ _ Ho) as [_ Hf]. rewrite Forall_forall in Hf.
  apply elem_of_cons in Hb as [-> |Hb], Hc as [-> |Hc]; [done|left; by apply Hf|right; by apply Hf|by eapply IH].
Qed.

(** The block [b] and its neighbours. *)
Lemma seg_at m q p l1 b l2 e : seg m q p (l1 ++ b :: l2) e 0 ->
  exists r n, seg m q p l1 r (b_addr b) /\ m !! b_addr b = Some (mk_block (b_size b) (negb (b_used b)) n r) /\ seg m (b_addr b) n l2 e 0.
Proof. intros (r & s & H1 & [-> (n & Hm & H2)])%seg_app. by exists r, n. Qed.

Lemma seg_put m q p l1 r b n l2 e : seg m q p l1 r (b_addr b) -> m !! b_addr b = Some (mk_block (b_size b) (negb (b_used b)) n r) -> seg m (b_addr b) n l2 e 0 ->
  seg m q p (l1 ++ b :: l2) e 0.
Proof. intros H1 H2 H3. apply seg_app. exists r, (b_addr b). split; [done|]. split; [done|]. by exists n. Qed.

Lemma inv_addrs `{!BrkLaws K} h l : heap_inv h l -> NoDup (b_addr <$> l) /\ Forall (fun b => b_addr b <> 0) l.
Proof.
  intros Hi. split; [eapply ordered_NoDup, (inv_ordered h l Hi)|]. destruct (ordered_bounds _ _ _ (inv_ordered h l Hi)) as [_ Hf]. eapply Forall_impl; [done|]. cbn. lia.
Qed.

Lemma seg_keys m q p l q' p' : seg m q p l q' p' -> NoDup (b_addr <$> l) -> (length l <= base.size m)%nat.
Proof.
  intros Hs Hd. rewrite <- (length_fmap b_addr l). rewrite <- (size_list_to_set (C := gset Z)) by done. rewrite <- size_dom. apply subseteq_size. intros a Ha%elem_of_list_to_set.
  apply list_elem_of_fmap in Ha as (b & -> & Hb). apply list_elem_of_split in Hb as (l1 & l2 & ->). apply seg_app in Hs as (r & s & _ & [-> (n & Hm & _)]). apply elem_of_dom. by rewrite Hm.
Qed.

(** ** Allocation *)

(** The blocks that replace [b] when [n] bytes of it are given out. *)
Definition carve (b : blk) (n : Z) : list blk :=
  if n + MIN_SPLIT <=? b_size b then [mk_blk (b_addr b) n true; mk_blk (b_addr b + HEADER_SIZE + n) (b_size b - n - HEADER_SIZE) false]
  else [mk_blk (b_addr b) (b_size b) true].

Lemma block_lookup h a b : mem h !! a = Some b -> hdr h a = b.
Proof. unfold hdr, lookup_total, map_lookup_total. by intros ->. Qed.

Lemma block_put a b h : hdr (put a b h) a = b.
Proof. apply block_lookup. apply lookup_insert_eq. Qed.

Lemma block_put_ne a c b h : a <> c -> hdr (put a b h) c = hdr h c.
Proof. intros Hne. unfold hdr, put. cbn. unfold lookup_total, map_lookup_total. by rewrite lookup_insert_ne. Qed.

(** Only the headers matter to the chain. *)
Lemma take_block_seg h q p l1 b l2 e lo hi n : seg (mem h) q p (l1 ++ b :: l2) e 0 -> ordered lo (l1 ++ b :: l2) hi -> 0 < lo -> hi < 2 ^ 62 -> 0 <= n <= b_size b ->
  let h' := take_block (b_addr b) n h in (exists e, seg (mem h') q p (l1 ++ carve b n ++ l2) e 0) /\ heap_head h' = heap_head h /\ heap_end h' = heap_end h /\ kern h' = kern h.
Proof.
  intros Hs Ho Hlo Hhi Hn. cbn zeta. destruct (seg_at _ _ _ _ _ _ _ Hs) as (r & k & S1 & Hb & S2). pose proof (ordered_NoDup _ _ _ Ho) as Hd. destruct (ordered_bounds _ _ _ Ho) as [_ Hf].
  assert (Forall (fun b => b_addr b <> 0) l2) as H0. { apply Forall_app in Hf as [_ Hf]. apply Forall_cons in Hf as [_ Hf]. eapply Forall_impl; [done|]. cbn. lia. }
  rewrite fmap_app, NoDup_app in Hd. destruct Hd as (_ & Hd12 & Hd). cbn in Hd. apply NoDup_cons in Hd as [Hbn Hd2].
  assert (b_addr b ∉ b_addr <$> l1) as Hb1 by (intros Hin; apply (Hd12 _ Hin); by left).
  pose proof Hf as Hf'. apply Forall_app in Hf' as [_ Hf']. apply Forall_cons in Hf' as [(Hb0 & Hbe & _) _]. unfold take_block, carve. rewrite (block_lookup _ _ _ Hb). cbn [size next]. unfold MIN_SPLIT, b_end, HEADER_SIZE in *.
  rewrite u64_small by lia. destruct (Z.leb_spec (n + (32 + 16)) (b_size b)) as [Hsp|_].
  - rewrite !u64_small by lia. set (rest := b_addr b + 32 + n). set (R := mk_block (b_size b - n - 32) true k (b_addr b)). set (h1 := put rest R h). replace (hdr h1 rest) with R by (symmetry; apply block_put). change (next R) with k.
    assert (forall c, c ∈ l1 ++ b :: l2 -> b_addr c <> rest) as Hrest.
    { intros c Hc Ec. rewrite Forall_forall in Hf. destruct (decide (b_addr c = b_addr b)) as [E|E]; [unfold rest in Ec; lia|].
      destruct (ordered_apart _ _ _ b c Ho) as [Ha|Ha]; [apply elem_of_app; right; by left|done|congruence| |]; unfold b_end, HEADER_SIZE, rest in *; specialize (Hf c Hc); lia. }
    assert (seg (mem h1) (b_addr b) k l2 e 0) as S2'. { apply seg_insert; [|done]. intros (c & E & Hc)%list_elem_of_fmap. apply (Hrest c); [|done]. apply elem_of_app. right. by right. }
    destruct (seg_relink h1 (b_addr b) k l2 e rest S2' Hd2 H0) as [(e' & S3) Hr]. set (h2 := relink k rest h1) in *.
    assert (k <> b_addr b) as Hkb. { destruct l2 as [|c l2]; [destruct S2 as [_ <-]; lia|]. destruct S2 as [-> _]. intros E. apply Hbn. rewrite <- E. by left. }
    assert (k <> rest) as Hkr. { destruct l2 as [|c l2]; [destruct S2 as [_ <-]; unfold rest; lia|]. destruct S2 as [-> _]. apply Hrest. apply elem_of_app. right. right. by left. }
    assert (forall c, c ∈ l1 -> b_addr c <> k) as Hk1. { intros c Hc E. assert (b_addr c ∈ b_addr <$> l1) as Hin by (apply list_elem_of_fmap; by exists c). destruct l2 as [|d l2].
      - destruct S2 as [_ <-]. rewrite Forall_forall in Hf. specialize (Hf c). rewrite elem_of_app in Hf. specialize (Hf ltac:(by left)). lia.
      - destruct S2 as [-> _]. apply (Hd12 _ Hin). rewrite E. right. by left. }
    assert (rest <> b_addr b) as Hrb by (unfold rest; lia). assert (hdr h2 (b_addr b) = mk_block (b_size b) (negb (b_used b)) k r) as Eb2. { apply block_lookup. rewrite Hr by done. cbn. by rewrite lookup_insert_ne. }
    unfold set_free, set_size, set_next. rewrite !block_put, Eb2. cbn [size free_ next prev]. cbn [mem heap_head heap_end kern put].
    set (B := mk_block n false rest r). assert (mem (put (b_addr b) B h2) = <[b_addr b := B]> (mem h2)) as Em by done.
    split_and!; [|by unfold h2, relink; destruct (_ =? 0)..]. exists e'. cbn. rewrite !insert_insert_eq. apply (seg_put _ q p l1 r (mk_blk (b_addr b) n true) rest); cbn [b_addr b_size b_used negb].
    + apply seg_insert; [done|]. apply (seg_ext (mem h)); [|done]. intros c Hc. rewrite Hr by (by apply Hk1). cbn. apply lookup_insert_ne. intros E. apply (Hrest c); [apply elem_of_app; by left|done].
    + apply lookup_insert_eq.
    + split; [done|]. exists k. cbn [b_addr b_size b_used negb]. split; [rewrite lookup_insert_ne, Hr by done; cbn; by rewrite lookup_insert_eq|]. by apply seg_insert.
  - split_and!; [|done..]. exists e. cbn. unfold set_free. rewrite (block_lookup _ _ _ Hb). apply (seg_put _ q p l1 r (mk_blk (b_addr b) (b_size b) true) k); cbn [b_addr b_size b_used negb].
    + by apply seg_insert.
    + cbn. by rewrite lookup_insert_eq.
    + by apply seg_insert.
Qed.

Definition fits (n : Z) (b : blk) : bool := negb (b_used b) && (n <=? b_size b).

Lemma malloc_walk_spec h n fuel r cur l e : seg (mem h) r cur l e 0 -> Forall (fun b => b_addr b <> 0) l -> (length l < fuel)%nat ->
  (exists l1 b l2, l = l1 ++ b :: l2 /\ Forall (fun c => fits n c = false) l1 /\ fits n b = true /\ malloc_walk fuel n cur h = Some (take_block (b_addr b) n h, b_addr b + HEADER_SIZE)) \/
  (Forall (fun c => fits n c = false) l /\ malloc_walk fuel n cur h = None).
Proof.
  intros Hs H0. revert r cur fuel Hs. induction H0 as [|b l Hb H0 IH]; intros r cur fuel Hs Hf; (destruct fuel as [|fuel]; [lia|]); cbn [malloc_walk].
  - destruct Hs as [_ <-]. right. split; [apply Forall_nil_2|done].
  - destruct Hs as [-> (k & Hm & Hs)]. rewrite (proj2 (Z.eqb_neq _ 0)), (block_lookup _ _ _ Hm) by done. cbn [free_ size next]. fold (fits n b). destruct (fits n b) eqn:E.
    + left. exists [], b, l. split_and!; [done|apply Forall_nil_2|done|done].
    + destruct (IH _ _ fuel Hs ltac:(cbn in Hf; lia)) as [(l1 & c & l2 & -> & H1 & H2 & H3)|[H1 H2]]; [left|right; split; [by apply Forall_cons|done]].
      exists (b :: l1), c, l2. split_and!; [done|by apply Forall_cons|done|done].
Qed.

Lemma last_block_spec h fuel r cur l b e : seg (mem h) r cur (l ++ [b]) e 0 -> Forall (fun b => b_addr b <> 0) (l ++ [b]) -> (length l < fuel)%nat -> last_block fuel cur h = b_addr b.
Proof.
  revert r cur fuel. induction l as [|c l IH]; intros r cur fuel Hs H0 Hf; (destruct fuel as [|fuel]; [lia|]); cbn [last_block].
  - destruct Hs as [-> (k & Hm & [_ <-])]. by rewrite (block_lookup _ _ _ Hm).
  - destruct Hs as [-> (k & Hm & Hs)]. apply Forall_cons in H0 as [Hc H0]. rewrite (block_lookup _ _ _ Hm). cbn [next]. assert (k <> 0) as Hk. { destruct l as [|d l]; destruct Hs as [-> _]; cbn in H0; by apply Forall_cons in H0 as [? _]. }
    rewrite (proj2 (Z.eqb_neq k 0)) by done. apply (IH (b_addr c)); [done|done|cbn in Hf; lia].
Qed.

Lemma round8_spec sz : 0 < sz < 2 ^ 63 -> sz <= round8 sz < sz + 8 /\ round8 sz mod 8 = 0.
Proof.
  intros Hs. assert (round8 sz = (sz + 7) - (sz + 7) mod 8) as ->; [|zsolve]. unfold round8. rewrite u64_small by lia. apply (land_lnot_ones (sz + 7) 3). lia.
Qed.

Lemma ordered_carve lo b n hi : ordered lo [b] hi -> 0 <= n <= b_size b -> n mod 8 = 0 -> ordered lo (carve b n) hi.
Proof.
  intros (H1 & H2 & H3 & H4 & H5) Hn Hm. unfold carve, MIN_SPLIT. destruct (Z.leb_spec (n + (HEADER_SIZE + 16)) (b_size b)); cbn; unfold b_end, HEADER_SIZE in *; cbn in *; split_and!; try lia; zsolve.
Qed.

(** [l] with a block in it replaced. *)
Lemma ordered_replace lo l1 l l' l2 hi : ordered lo (l1 ++ l ++ l2) hi -> (forall a z, ordered a l z -> ordered a l' z) -> ordered lo (l1 ++ l' ++ l2) hi.
Proof. intros (m & H1 & (m' & H2 & H3)%ordered_app)%ordered_app Hr. apply ordered_app. exists m. split; [done|]. apply ordered_app. exists m'. split; [by apply Hr|done]. Qed.

Section laws.
Context `{!BrkLaws K}.

Lemma inv_fuel h l : heap_inv h l -> (length l < walk_fuel h)%nat.
Proof. intros Hi. destruct (inv_seg h l Hi) as [e Hs]. destruct (inv_addrs h l Hi) as [Hd _]. pose proof (seg_keys _ _ _ _ _ _ Hs Hd). unfold walk_fuel. lia. Qed.

Lemma give_out_inv h l1 b l2 n : heap_inv h (l1 ++ b :: l2) -> 0 <= n <= b_size b -> n mod 8 = 0 -> heap_inv (take_block (b_addr b) n h) (l1 ++ carve b n ++ l2).
Proof.
  intros Hi Hn Hm. pose proof Hi as [[e Hs] Ho He Hb Ha Hx]. destruct (take_block_seg h 0 (heap_head h) l1 b l2 e 1 (top h) n Hs Ho ltac:(lia) Hx Hn) as (Hs' & E1 & E2 & E3).
  split; unfold top in *; rewrite ?E1, ?E2, ?E3; try done.
  - change (l1 ++ b :: l2) with (l1 ++ [b] ++ l2) in Ho. apply (ordered_replace 1 l1 [b]); [done|]. intros a z Hab. by apply ordered_carve.
  - destruct He as [?|[_ H0]]; [by left|]. by destruct l1.
Qed.

(** The heap may grow by [n] bytes. *)
Definition may_grow (n : Z) (h : heap) : Prop := top h + n < 2 ^ 62.

Lemma sbrk_spec h l sz : heap_inv h l -> 0 < sz -> may_grow sz h ->
  exists h' r, sbrk sz h = (h', r) /\ mem h' = mem h /\ bytes h' = bytes h /\ heap_head h' = heap_head h /\ brk_ok (kern h') /\ heap_end h' = top h' /\
    (r = top h /\ r <> 0 /\ top h' = top h + sz \/ r = 0 /\ top h' = top h).
Proof.
  intros [_ Ho He Hb _ Hx] Hsz Hg. unfold may_grow in Hg. destruct (ordered_bounds _ _ _ Ho) as [Hp _]. unfold sbrk, ERR64. set (r1 := if heap_end h =? 0 then _ else _).
  assert (exists h1, r1 = (h1, true) /\ heap_end h1 = top h /\ kern h1 = kern h /\ mem h1 = mem h /\ bytes h1 = bytes h /\ heap_head h1 = heap_head h) as (h1 & -> & E1 & E2 & E3 & E4 & E5).
  { unfold r1. destruct He as [He|[He _]]; rewrite He; [rewrite (proj2 (Z.eqb_neq _ 0)) by lia; by exists h|]. cbn [Z.eqb]. rewrite (brk_query _ Hb). fold (top h). rewrite (proj2 (Z.eqb_neq (top h) _)) by lia. by eexists. }
  cbn [negb]. rewrite E1, E2. rewrite u64_small by lia. pose proof (brk_grow (top h + sz) (kern h) Hb) as Hgr. fold (top h) in Hgr. specialize (Hgr ltac:(lia)).
  destruct (sys_brk_libc (top h + sz) (kern h)) as [k r]. destruct Hgr as (Hk & Er & Hr). rewrite (proj2 (Z.eqb_neq r _)) by lia. cbn [orb]. destruct (Z.ltb_spec r (top h + sz)).
  - assert (r = top h) as -> by lia. eexists _, _. split; [done|]. unfold top. cbn. split_and!; try done; [by rewrite Er|by right].
  - eexists _, _. split; [done|]. unfold top in *. cbn. split_and!; try done. left. split_and!; [done|lia|]. rewrite Er. lia.
Qed.

(** The new block at the end of the list. *)
Lemma append_seg h l e nb x : seg (mem h) 0 (heap_head h) l e 0 -> NoDup (b_addr <$> l) -> Forall (fun b => b_addr b <> 0) l -> nb <> 0 -> nb ∉ b_addr <$> l ->
  let h1 := put nb (mk_block x false 0 0) h in
  let h2 := if heap_head h1 =? 0 then h1 <| heap_head := nb |> else let b := last_block (walk_fuel h1) (heap_head h1) h1 in set_prev nb b (set_next b nb h1) in
  exists e, seg (mem h2) 0 (heap_head h2) (l ++ [mk_blk nb x true]) e 0.
Proof.
  intros Hs Hd H0 Hnb Hn h1 h2. assert (seg (mem h1) 0 (heap_head h1) l e 0) as S1 by (by apply seg_insert). assert (mem h1 !! nb = Some (mk_block x false 0 0)) as Enb by (cbn; apply lookup_insert_eq).
  assert (length l < walk_fuel h1)%nat as Hfuel by (pose proof (seg_keys _ _ _ _ _ _ S1 Hd); unfold walk_fuel; lia). clearbody h1. destruct l as [|b l' _] using rev_ind.
  - destruct S1 as [_ E]. unfold h2. rewrite <- E. exists nb. split; [done|]. exists 0. done.
  - assert (heap_head h1 <> 0) as Hh. { destruct l' as [|c l']; destruct S1 as [-> _]; by apply Forall_cons in H0 as [? _]. } unfold h2. rewrite (proj2 (Z.eqb_neq _ 0)) by done.
    rewrite length_app in Hfuel. cbn in Hfuel. rewrite (last_block_spec h1 _ 0 _ l' b e S1 H0) by lia. destruct (seg_at _ _ _ _ _ _ _ S1) as (r & k & S2 & Hb & [-> <-]).
    rewrite fmap_app in Hd, Hn. cbn in Hd, Hn. apply not_elem_of_app in Hn as [Hn1 Hn2]. apply NoDup_app in Hd as (_ & Hd & _). assert (b_addr b <> nb) as Hbn by (intros E; apply Hn2; rewrite E; by left).
    assert (b_addr b ∉ b_addr <$> l') as Hb' by (intros Hin; apply (Hd _ Hin); by left). exists nb. rewrite <- app_assoc. unfold set_prev, set_next. cbn [mem heap_head put].
    rewrite (block_put_ne (b_addr b) nb) by done. rewrite (block_lookup h1 _ _ Enb), (block_lookup h1 _ _ Hb). cbn. apply (seg_put _ 0 _ l' r b nb).
    + apply seg_insert; [done|]. by apply seg_insert.
    + rewrite lookup_insert_ne, lookup_insert_eq by done. done.
    + split; [done|]. exists 0. cbn [b_addr b_size b_used negb]. by rewrite lookup_insert_eq.
Qed.

Lemma list_ordered_snoc lo l hi b hi' : ordered lo l hi -> ordered hi [b] hi' -> ordered lo (l ++ [b]) hi'.
Proof. intros H1 H2. apply ordered_app. by exists hi. Qed.

(** What an allocation of [n] bytes does to the blocks. *)
Definition allocated (n : Z) (l l' : list blk) (ptr : Z) (lim : Z) : Prop :=
  (exists l1 b l2, l = l1 ++ b :: l2 /\ Forall (fun c => fits n c = false) l1 /\ fits n b = true /\ l' = l1 ++ carve b n ++ l2 /\ ptr = b_addr b + HEADER_SIZE) \/
  (Forall (fun c => fits n c = false) l /\ l' = l ++ [mk_blk lim n true] /\ ptr = lim + HEADER_SIZE).

Lemma malloc_spec h l sz : heap_inv h l -> 0 < sz -> may_grow (sz + 8 + HEADER_SIZE) h ->
  exists h' ptr, malloc sz h = (h', ptr) /\ bytes h' = bytes h /\
    ((exists l', ptr <> 0 /\ heap_inv h' l' /\ allocated (round8 sz) l l' ptr (top h)) \/ (ptr = 0 /\ heap_inv h' l)) /\ top h <= top h'.
Proof.
  intros Hi Hsz Hg. pose proof Hi as [[e Hs] Ho He Hb Ha Hx]. destruct (inv_addrs h l Hi) as [Hd H0]. destruct (ordered_bounds _ _ _ Ho) as [Ht Hf]. unfold may_grow, HEADER_SIZE in Hg.
  destruct (round8_spec sz ltac:(lia)) as [Hr Hr8]. unfold malloc. rewrite (proj2 (Z.eqb_neq sz 0)) by lia. set (n := round8 sz) in *. clearbody n.
  destruct (malloc_walk_spec h n (walk_fuel h) 0 (heap_head h) l e Hs H0 (inv_fuel h l Hi)) as [(l1 & b & l2 & -> & H1 & H2 & ->)|[H1 ->]].
  - pose proof H2 as [_ Hn%Z.leb_le]%andb_true_iff. eexists _, _. split; [done|]. destruct (take_block_seg h 0 (heap_head h) l1 b l2 e 1 (top h) n Hs Ho ltac:(lia) Hx ltac:(lia)) as (_ & _ & _ & Ek). split_and!.
    + unfold take_block, relink, set_prev, set_size, set_next, set_free, put. by repeat case_match.
    + left. exists (l1 ++ carve b n ++ l2). split_and!; [|apply give_out_inv; [done|lia|done]|left; by exists l1, b, l2].
      apply Forall_app in Hf as [_ Hf]. apply Forall_cons in Hf as [Hf _]. unfold HEADER_SIZE. lia.
    + unfold top. by rewrite Ek.
  - unfold malloc_extend. unfold HEADER_SIZE at 1. rewrite (u64_small (32 + n)) by lia. destruct (sbrk_spec h l (32 + n) Hi ltac:(lia) ltac:(unfold may_grow; lia)) as (h1 & r & -> & E1 & E2 & E3 & E4 & E5 & Hc).
    destruct Hc as [(-> & Hr0 & Et)|[-> Et]].
    + rewrite (proj2 (Z.eqb_neq _ 0)) by done. assert (top h ∉ b_addr <$> l) as Hn. { intros (b & E & Hin)%list_elem_of_fmap. rewrite Forall_forall in Hf. specialize (Hf b Hin). unfold b_end, HEADER_SIZE in Hf. lia. }
      rewrite <- E1, <- E3 in Hs. destruct (append_seg h1 l e (top h) n Hs Hd H0 Hr0 Hn) as [e' Hs']. cbn zeta in Hs'. set (h2 := if heap_head _ =? 0 then _ else _) in *. assert (kern h2 = kern h1 /\ heap_end h2 = heap_end h1 /\ bytes h2 = bytes h1) as (K1 & K2 & K3) by (unfold h2; by destruct (_ =? 0)).
      clearbody h2. exists h2, (top h + HEADER_SIZE). split; [done|]. split; [congruence|]. unfold top in *. rewrite K1. split; [left|lia]. exists (l ++ [mk_blk (break (kern h)) n true]). split_and!; [unfold HEADER_SIZE; lia| |right; done].
      split; unfold top; rewrite ?K1, ?K2; try done; [by exists e'| |by left|rewrite Et; zsolve|lia]. eapply list_ordered_snoc; [done|]. cbn. unfold b_end, HEADER_SIZE. cbn. split_and!; try done; lia.
    + exists h1, 0. split; [done|]. split; [done|]. split; [right|lia]. split; [done|]. split; rewrite ?E1, ?E3, ?Et; try done; [by exists e|]. left. congruence.
Qed.

(** ** Release *)

(** [b] and [c] as one block; whatever lies between them is lost. *)
Definition join (b c : blk) : blk := mk_blk (b_addr b) (b_size b + HEADER_SIZE + b_size c) (b_used b).

Lemma absorb_seg h q p l1 b c l2 e lo hi : seg (mem h) q p (l1 ++ b :: c :: l2) e 0 -> ordered lo (l1 ++ b :: c :: l2) hi -> 0 < lo -> hi < 2 ^ 62 ->
  let h' := absorb (b_addr b) (b_addr c) h in (exists e, seg (mem h') q p (l1 ++ join b c :: l2) e 0) /\ heap_head h' = heap_head h /\ heap_end h' = heap_end h /\ kern h' = kern h /\ bytes h' = bytes h.
Proof.
  intros Hs Ho Hlo Hhi. cbn zeta. destruct (seg_at _ _ _ _ _ _ _ Hs) as (r & k & S1 & Hb & [-> (j & Hc & S2)]). pose proof (ordered_NoDup _ _ _ Ho) as Hd. destruct (ordered_bounds _ _ _ Ho) as [_ Hf].
  assert (Forall (fun b => b_addr b <> 0) (l1 ++ b :: c :: l2)) as H0 by (eapply Forall_impl; [done|]; cbn; lia). apply Forall_app in H0 as [H01 H0]. apply Forall_cons in H0 as [Hb0 H0]. apply Forall_cons in H0 as [_ H02].
  pose proof Ho as (m & _ & (A1 & A2 & A3 & A4 & A5 & A6 & A7 & A8 & _))%ordered_app. apply Forall_app in Hf as [_ Hf]. apply Forall_cons in Hf as [(Hbl & _) Hf]. apply Forall_cons in Hf as [(_ & Hce & _) _]. unfold b_end, HEADER_SIZE in *.
  rewrite fmap_app, NoDup_app in Hd. destruct Hd as (_ & Hd12 & Hd). cbn in Hd. apply NoDup_cons in Hd as [Hbn Hd2]. apply NoDup_cons in Hd2 as [_ Hd2]. apply not_elem_of_cons in Hbn as [Hbc Hbn].
  assert (b_addr b ∉ b_addr <$> l1) as Hb1 by (intros Hin; apply (Hd12 _ Hin); by left). unfold absorb. rewrite (block_lookup _ _ _ Hb), (block_lookup _ _ _ Hc). cbn [size]. unfold HEADER_SIZE. rewrite u64_small by lia.
  unfold set_size, set_next. rewrite (block_put_ne (b_addr b) (b_addr c)), block_put, block_put by done. rewrite (block_lookup _ _ _ Hb), (block_lookup _ _ _ Hc). cbn [size free_ next prev].
  set (B := _ <| next := j |>). set (h1 := put _ B _). assert (mem h1 !! b_addr b = Some B) as EB by (cbn; apply lookup_insert_eq). assert (forall a, a <> b_addr b -> mem h1 !! a = mem h !! a) as Eo by (intros a Ha; cbn; by rewrite !lookup_insert_ne).
  change (next B) with j. assert (seg (mem h1) (b_addr c) j l2 e 0) as S2'. { apply (seg_ext (mem h)); [|done]. intros d Hd'. apply Eo. intros E. apply Hbn. rewrite <- E. apply list_elem_of_fmap. by exists d. }
  destruct (seg_relink h1 (b_addr c) j l2 e (b_addr b) S2' Hd2 H02) as [[e' S3] Hr]. assert (forall a, a <> 0 -> (a ∉ b_addr <$> l2) -> a <> j) as Hj. { intros a Ha Hn ->. destruct l2 as [|d l2]; [by destruct S2 as [_ <-]|]. destruct S2 as [-> _]. apply Hn. by left. }
  split; [|by unfold relink; destruct (j =? 0)]. exists e'. apply (seg_put _ q p l1 r (join b c) j); cbn [join b_addr b_size b_used].
  - apply (seg_ext (mem h)); [|done]. intros d Hd'. assert (b_addr d ∈ b_addr <$> l1) as Hin by (apply list_elem_of_fmap; by exists d). rewrite Hr, Eo; [done| |].
    + intros E. apply (Hd12 _ Hin). rewrite E. by left.
    + apply Hj; [by apply (Forall_forall (fun b => b_addr b <> 0) l1)|]. intros Hin2. apply (Hd12 _ Hin). by do 2 right.
  - rewrite Hr by (by apply Hj). exact EB.
  - done.
Qed.

Lemma absorb_inv h l1 b c l2 : heap_inv h (l1 ++ b :: c :: l2) -> let h' := absorb (b_addr b) (b_addr c) h in
  heap_inv h' (l1 ++ join b c :: l2) /\ bytes h' = bytes h /\ top h' = top h.
Proof.
  intros [[e Hs] Ho He Hb Ha Hx]. destruct (absorb_seg h 0 (heap_head h) l1 b c l2 e 1 (top h) Hs Ho ltac:(lia) Hx) as (Hs' & E1 & E2 & E3 & E4). cbn zeta. split_and!; [|done|unfold top; by rewrite E3].
  split; unfold top in *; rewrite ?E1, ?E2, ?E3; try done; [|destruct He as [?|[_ H0]]; [by left|by destruct l1]].
  change (l1 ++ b :: c :: l2) with (l1 ++ [b; c] ++ l2) in Ho. change (l1 ++ join b c :: l2) with (l1 ++ [join b c] ++ l2). apply (ordered_replace 1 l1 [b; c]); [done|].
  intros a z. cbn. unfold b_end, HEADER_SIZE. intros (H1 & H2 & H3 & H4 & H5 & H6 & H7 & H8 & H9). cbn. unfold HEADER_SIZE. split_and!; try lia; zsolve.
Qed.

(** The blocks in use. *)
Definition used (l : list blk) : list blk := filter (fun b => b_used b = true) l.

Lemma used_app l1 l2 : used (l1 ++ l2) = used l1 ++ used l2.
Proof. apply filter_app. Qed.

Lemma used_cons b l : used (b :: l) = if b_used b then b :: used l else used l.
Proof. unfold used. rewrite filter_cons. by destruct (b_used b). Qed.

Lemma absorb_next_inv fuel h l1 b l2 : heap_inv h (l1 ++ b :: l2) -> b_used b = false -> (length l2 < fuel)%nat -> let h' := coalesce_next fuel (b_addr b) h in
  exists b' l2', heap_inv h' (l1 ++ b' :: l2') /\ b_addr b' = b_addr b /\ b_used b' = false /\ used l2' = used l2 /\ bytes h' = bytes h /\ top h' = top h.
Proof.
  revert h b l2. induction fuel as [|fuel IH]; intros h b l2 Hi Hu Hf; [lia|]. cbn [coalesce_next]. destruct (inv_seg _ _ Hi) as [e Hs]. destruct (seg_at _ _ _ _ _ _ _ Hs) as (r & k & _ & Hb & S2). rewrite (block_lookup _ _ _ Hb). cbn [next].
  destruct l2 as [|c l2]; [destruct S2 as [_ <-]; by exists b, []|]. destruct S2 as [-> (j & Hc & _)]. destruct (inv_addrs _ _ Hi) as [_ H0]. apply Forall_app in H0 as [_ H0]. apply Forall_cons in H0 as [_ H0]. apply Forall_cons in H0 as [Hc0 _].
  rewrite (proj2 (Z.eqb_neq _ 0)), (block_lookup _ _ _ Hc) by done. cbn [free_ orb]. destruct (b_used c) eqn:Uc; cbn [negb]; [by exists b, (c :: l2)|].
  destruct (absorb_inv h l1 b c l2 Hi) as (Hi' & E1 & E2). destruct (IH _ (join b c) l2 Hi' Hu ltac:(cbn in Hf; lia)) as (b' & l2' & H1 & H2 & H3 & H4 & H5 & H6). change (b_addr (join b c)) with (b_addr b) in *. exists b', l2'. split_and!; [done|done|done| |congruence|congruence].
  rewrite used_cons, Uc. done.
Qed.

Lemma absorb_prev_inv fuel h l1 b l2 : heap_inv h (l1 ++ b :: l2) -> b_used b = false -> (length l1 < fuel)%nat -> let h' := coalesce_prev fuel (b_addr b) h in
  exists l', heap_inv h' l' /\ used l' = used l1 ++ used l2 /\ bytes h' = bytes h /\ top h' = top h.
Proof.
  revert h l1 b. induction fuel as [|fuel IH]; intros h l1 b Hi Hu Hf; [lia|]. cbn [coalesce_prev]. destruct (inv_seg _ _ Hi) as [e Hs]. destruct (seg_at _ _ _ _ _ _ _ Hs) as (r & k & S1 & Hb & _). rewrite (block_lookup _ _ _ Hb). cbn [prev].
  assert (used (l1 ++ b :: l2) = used l1 ++ used l2) as Hu' by (by rewrite used_app, used_cons, Hu). destruct l1 as [|p l1 _] using rev_ind; [destruct S1 as [-> _]; by exists (b :: l2)|].
  apply seg_app in S1 as (r' & s & _ & [-> (j & Hp & [-> _])]). destruct (inv_addrs _ _ Hi) as [_ H0]. apply Forall_app in H0 as [H0 _]. apply Forall_app in H0 as [_ H0]. apply Forall_cons in H0 as [Hp0 _].
  rewrite (proj2 (Z.eqb_neq _ 0)), (block_lookup _ _ _ Hp) by done. cbn [free_ orb]. destruct (b_used p) eqn:Up; cbn [negb]; [by exists ((l1 ++ [p]) ++ b :: l2)|]. rewrite <- app_assoc in Hi. cbn [app] in Hi.
  destruct (absorb_inv h l1 p b l2 Hi) as (Hi' & E1 & E2). rewrite length_app in Hf. cbn in Hf. destruct (IH _ l1 (join p b) Hi' Up ltac:(lia)) as (l' & H1 & H2 & H3 & H4). change (b_addr (join p b)) with (b_addr p) in *. exists l'. split_and!; [done| |congruence|congruence].
  rewrite used_app, used_cons, Up. by rewrite app_nil_r.
Qed.

Lemma set_free_inv h l1 b l2 v : heap_inv h (l1 ++ b :: l2) -> heap_inv (set_free (b_addr b) (negb v) h) (l1 ++ mk_blk (b_addr b) (b_size b) v :: l2).
Proof.
  intros Hi. pose proof Hi as [[e Hs] Ho He Hb Ha Hx]. destruct (inv_addrs _ _ Hi) as [Hd _]. destruct (seg_at _ _ _ _ _ _ _ Hs) as (r & k & S1 & Hh & S2). rewrite fmap_app, NoDup_app in Hd. destruct Hd as (_ & Hd12 & Hd). cbn in Hd. apply NoDup_cons in Hd as [Hbn _].
  split; try done; [|by change (l1 ++ b :: l2) with (l1 ++ [b] ++ l2) in Ho; apply (ordered_replace 1 l1 [b] [mk_blk (b_addr b) (b_size b) v])|destruct He as [?|[_ H0]]; [by left|by destruct l1]].
  exists e. unfold set_free. rewrite (block_lookup _ _ _ Hh). cbn. apply (seg_put _ 0 _ l1 r (mk_blk (b_addr b) (b_size b) v) k); cbn [b_addr b_size b_used]; [|by rewrite lookup_insert_eq|by apply seg_insert].
  apply seg_insert; [|done]. intros Hin. apply (Hd12 _ Hin). by left.
Qed.

Lemma free_spec h l1 b l2 : heap_inv h (l1 ++ b :: l2) -> let h' := free (b_addr b + HEADER_SIZE) h in
  exists l', heap_inv h' l' /\ used l' = used (l1 ++ l2) /\ bytes h' = bytes h /\ top h' = top h.
Proof.
  intros Hi. destruct (ordered_bounds _ _ _ (inv_ordered _ _ Hi)) as [_ Hf]. apply Forall_app in Hf as [_ Hf]. apply Forall_cons in Hf as [(Hb & _) _]. unfold free. rewrite (proj2 (Z.eqb_neq _ 0)) by (unfold HEADER_SIZE; lia).
  replace (b_addr b + HEADER_SIZE - HEADER_SIZE) with (b_addr b) by lia. pose proof (set_free_inv h l1 b l2 false Hi) as H1. cbn [negb] in H1. set (h1 := set_free _ true h) in *. set (b1 := mk_blk (b_addr b) (b_size b) false) in *.
  pose proof (inv_fuel _ _ H1) as F1. rewrite length_app in F1. cbn [length] in F1. destruct (absorb_next_inv (walk_fuel h1) h1 l1 b1 l2 H1 eq_refl ltac:(lia)) as (b2 & l2' & H2 & A2 & U2 & L2 & B2 & T2). change (b_addr b1) with (b_addr b) in *.
  set (h2 := coalesce_next _ _ h1) in *. rewrite <- A2. pose proof (inv_fuel _ _ H2) as F2. rewrite length_app in F2. cbn [length] in F2. destruct (absorb_prev_inv (walk_fuel h2) h2 l1 b2 l2' H2 U2 ltac:(lia)) as (l' & H3 & U3 & B3 & T3).
  exists l'. split_and!; [done|by rewrite used_app, U3, L2|by rewrite B3, B2|by rewrite T3, T2].
Qed.

(** An allocation adds one block in use. *)
Lemma allocated_used n l l' ptr lim : allocated n l l' ptr lim -> exists b, used l' ≡ₚ b :: used l /\ b_used b = true /\ n <= b_size b /\ ptr = b_addr b + HEADER_SIZE.
Proof.
  intros [(l1 & b & l2 & -> & _ & Hf & -> & ->)|(_ & -> & ->)].
  - apply andb_true_iff in Hf as [Hu%negb_true_iff Hn%Z.leb_le]. rewrite !used_app, used_cons, Hu. unfold carve. destruct (n + MIN_SPLIT <=? b_size b).
    + exists (mk_blk (b_addr b) n true). split_and!; [cbn; solve_Permutation|done|cbn; lia|done].
    + exists (mk_blk (b_addr b) (b_size b) true). split_and!; [cbn; solve_Permutation|done|cbn; lia|done].
  - exists (mk_blk lim n true). split_and!; [|done|cbn; lia|done]. rewrite used_app. cbn. symmetry. apply Permutation_cons_append.
Qed.

(** ** Histories *)

Definition record (p sz : Z) (L : gmap Z Z) : gmap Z Z := if p =? 0 then L else <[p := sz]> L.

(** The heaps a program reaches, with the sizes it asked for of the pointers it
    has not given back: it frees and resizes only such pointers, and writes
    only into the memory they point to. *)
Inductive run : heap -> gmap Z Z -> Prop :=
| run_start k : brk_ok k -> 0 < break k < 2 ^ 62 -> break k mod 8 = 0 -> run (mk_heap 0 0 ∅ ∅ k) ∅
| run_malloc h L sz h' p : run h L -> 0 < sz -> may_grow (sz + 8 + HEADER_SIZE) h -> malloc sz h = (h', p) -> run h' (record p sz L)
| run_calloc h L a b h' p : run h L -> 0 < u64 (a * b) -> may_grow (u64 (a * b) + 8 + HEADER_SIZE) h -> calloc a b h = (h', p) -> run h' (record p (u64 (a * b)) L)
| run_realloc h L p old sz h' q : run h L -> L !! p = Some old -> 0 < sz -> may_grow (sz + 8 + HEADER_SIZE) h -> realloc p sz h = (h', q) ->
    run h' (if q =? 0 then L else <[q := sz]> (delete p L))
| run_free h L p sz : run h L -> L !! p = Some sz -> run (free p h) (delete p L)
| run_write h L p sz i v : run h L -> L !! p = Some sz -> 0 <= i < sz -> run (h <| bytes ::= <[p + i := v]> |>) L.

(** The pointers given out are those of the blocks in use. *)
Record good (h : heap) (l : list blk) (L : gmap Z Z) : Prop := mk_good {
  good_inv : heap_inv h l;
  good_live : forall p sz, L !! p = Some sz -> exists b, b ∈ used l /\ p = b_addr b + HEADER_SIZE /\ 0 < sz <= b_size b;
  good_used : forall b, b ∈ used l -> is_Some (L !! (b_addr b + HEADER_SIZE))
}.

Lemma heap_inv_bytes h l f : heap_inv h l -> heap_inv (h <| bytes ::= f |>) l.
Proof. by intros []. Qed.

Lemma good_bytes h l L f : good h l L -> good (h <| bytes ::= f |>) l L.
Proof. intros [H1 H2 H3]. split; [by apply heap_inv_bytes|done|done]. Qed.

Lemma used_elem b l : b ∈ used l <-> b_used b = true /\ b ∈ l.
Proof. unfold used. by rewrite list_elem_of_filter. Qed.

Lemma used_NoDup h l : heap_inv h l -> NoDup (b_addr <$> used l).
Proof.
  intros Hi. destruct (inv_addrs h l Hi) as [Hd _]. clear Hi. induction l as [|b l IH]; [constructor|]. cbn in Hd. apply NoDup_cons in Hd as [Hn Hd]. rewrite used_cons. destruct (b_used b); [|by apply IH]. cbn. constructor; [|by apply IH].
  intros (c & E & Hc)%list_elem_of_fmap. apply Hn. apply list_elem_of_fmap. exists c. split; [done|]. by apply used_elem in Hc as [_ ?].
Qed.

Lemma good_malloc h l L sz h' p : good h l L -> 0 < sz -> may_grow (sz + 8 + HEADER_SIZE) h -> malloc sz h = (h', p) ->
  bytes h' = bytes h /\ (p = 0 /\ good h' l L \/ p <> 0 /\ exists l' b, good h' l' (<[p := sz]> L) /\ used l' ≡ₚ b :: used l /\ p = b_addr b + HEADER_SIZE /\ sz <= b_size b).
Proof.
  intros [Hi Hl Hu] Hsz Hg E. destruct (malloc_spec h l sz Hi Hsz Hg) as (h1 & p1 & E1 & Eb & [(l' & Hp & Hi' & Ha)|[Hp Hi']] & _); rewrite E in E1; injection E1 as <- <-; (split; [done|]).
  2: { left. by split. }
  right. split; [done|]. destruct (allocated_used _ _ _ _ _ Ha) as (b & HP & _ & Hn & Ep). unfold may_grow, HEADER_SIZE in Hg. destruct (ordered_bounds _ _ _ (inv_ordered _ _ Hi)) as [Ht _]. destruct (round8_spec sz ltac:(lia)) as [Hr _].
  exists l', b. split_and!; [|done|done|lia]. split; [done| |].
  - intros q tz. rewrite lookup_insert_Some. intros [[<- <-]|[Hne Hq]]; [exists b; split_and!; [rewrite HP; by left|done|lia|lia]|]. destruct (Hl q tz Hq) as (c & Hc & ? & ?). exists c. split; [rewrite HP; by right|done].
  - intros c Hc. rewrite HP in Hc. apply elem_of_cons in Hc as [-> |Hc]; [rewrite <- Ep, lookup_insert_eq; by eexists|]. destruct (Hu c Hc) as [z Hz]. rewrite lookup_insert_is_Some. destruct (decide (p = b_addr c + HEADER_SIZE)); [by left|right; by rewrite Hz].
Qed.

Lemma good_free h l L p sz : good h l L -> L !! p = Some sz -> exists l', good (free p h) l' (delete p L) /\ bytes (free p h) = bytes h.
Proof.
  intros [Hi Hl Hu] Hp. destruct (Hl p sz Hp) as (b & Hb & -> & Hsz). apply used_elem in Hb as [Hbu Hb]. apply list_elem_of_split in Hb as (l1 & l2 & ->). destruct (free_spec h l1 b l2 Hi) as (l' & Hi' & Hu' & Hb' & _).
  pose proof (used_NoDup _ _ Hi) as Hd. rewrite used_app, used_cons, Hbu, fmap_app in Hd. cbn in Hd. assert (forall c, c ∈ used (l1 ++ l2) -> b_addr c <> b_addr b) as Hne.
  { intros c Hc E. apply NoDup_app in Hd as (_ & Hd1 & Hd2). apply NoDup_cons in Hd2 as [Hd2 _]. rewrite used_app in Hc. apply elem_of_app in Hc as [Hc|Hc].
    - apply (Hd1 (b_addr c)); [apply list_elem_of_fmap; by exists c|]. rewrite E. by left.
    - apply Hd2. apply list_elem_of_fmap. by exists c. }
  exists l'. split; [|done]. split; [done| |].
  - intros q tz. rewrite lookup_delete_Some. intros [Hq Hz]. destruct (Hl q tz Hz) as (c & Hc & -> & Hcz). exists c. split; [|done]. rewrite Hu'. rewrite used_app, used_cons, Hbu in Hc. rewrite used_app. apply elem_of_app in Hc as [Hc|Hc]; [apply elem_of_app; by left|].
    apply elem_of_cons in Hc as [-> |Hc]; [done|]. apply elem_of_app. by right.
  - intros c Hc. rewrite Hu' in Hc. specialize (Hne c Hc). rewrite lookup_delete_ne by lia. apply Hu. rewrite used_app, used_cons, Hbu. rewrite used_app in Hc. apply elem_of_app in Hc as [Hc|Hc]; apply elem_of_app; [by left|right; by right].
Qed.

(** The size field of a block in use. *)
Lemma good_size h l b : heap_inv h l -> b ∈ l -> size (hdr h (b_addr b)) = b_size b.
Proof. intros Hi Hb. apply list_elem_of_split in Hb as (l1 & l2 & ->). destruct (inv_seg _ _ Hi) as [e Hs]. destruct (seg_at _ _ _ _ _ _ _ Hs) as (r & k & _ & Hm & _). by rewrite (block_lookup _ _ _ Hm). Qed.

(** Between ranges that do not overlap [memcpy] copies the bytes, and it touches nothing else. *)
Lemma memcpy_loop_get n d s m x : d + Z.of_nat n <= s \/ s + Z.of_nat n <= d ->
  memcpy_loop n d s m !! x = if decide (0 <= x - d < Z.of_nat n) then Some (default 0 (m !! (s + (x - d)))) else m !! x.
Proof.
  revert d s m. induction n as [|n IH]; intros d s m Hd; cbn [memcpy_loop]; [by rewrite decide_False by lia|]. rewrite IH by lia. repeat case_decide; try lia.
  - rewrite lookup_insert_ne by lia. do 3 f_equal. lia.
  - assert (x = d) as -> by lia. rewrite lookup_insert_eq. do 3 f_equal. lia.
  - by rewrite lookup_insert_ne by lia.
Qed.

Lemma load_memcpy d s n h x : 0 <= n -> d + n <= s \/ s + n <= d -> load (memcpy d s n h) x = if decide (0 <= x - d < n) then load h (s + (x - d)) else load h x.
Proof. intros Hn Hd. unfold load, memcpy. cbn [bytes]. cbn. rewrite memcpy_loop_get, Z2Nat.id by lia. by case_decide. Qed.

Lemma used_apart h l b c : heap_inv h l -> b ∈ used l -> c ∈ used l -> b_addr b <> b_addr c -> b_end b <= b_addr c \/ b_end c <= b_addr b.
Proof. intros Hi [_ Hb]%used_elem [_ Hc]%used_elem Hne. by apply (ordered_apart _ _ _ b c (inv_ordered _ _ Hi)). Qed.

Lemma good_realloc h l L p old sz h' q : good h l L -> L !! p = Some old -> 0 < sz -> may_grow (sz + 8 + HEADER_SIZE) h -> realloc p sz h = (h', q) ->
  (q = 0 /\ bytes h' = bytes h /\ exists l', good h' l' L) \/
  (q <> 0 /\ (exists l', good h' l' (<[q := sz]> (delete p L))) /\ (forall i, 0 <= i < Z.min old sz -> load h' (q + i) = load h (p + i)) /\
    forall r tz i, L !! r = Some tz -> r <> p -> 0 <= i < tz -> load h' (r + i) = load h (r + i)).
Proof.
  intros Hgd Hp Hsz Hg E. pose proof Hgd as [Hi Hl Hu]. destruct (Hl p old Hp) as (b & Hb & Ep & Hold). pose proof Hb as [Hbu Hbl]%used_elem. destruct (ordered_bounds _ _ _ (inv_ordered _ _ Hi)) as [_ Hf]. rewrite Forall_forall in Hf. specialize (Hf b Hbl) as Hfb.
  assert (p <> 0) as Hp0 by (unfold HEADER_SIZE in Ep; lia). unfold realloc in E. rewrite (proj2 (Z.eqb_neq p 0)), (proj2 (Z.eqb_neq sz 0)) in E by lia. replace (p - HEADER_SIZE) with (b_addr b) in E by lia. rewrite (good_size h l b Hi Hbl) in E.
  destruct (Z.leb_spec sz (b_size b)) as [Hle|Hgt].
  - injection E as <- <-. right. split; [done|]. split; [|split; [intros; done|intros; done]]. exists l. rewrite insert_delete_eq. split; [done| |].
    + intros r tz [[<- <-]|[Hne Hr]]%lookup_insert_Some; [exists b; split_and!; (done || lia)|by apply Hl].
    + intros c Hc. rewrite lookup_insert_is_Some. destruct (decide (p = b_addr c + HEADER_SIZE)); [by left|right; split; [done|by apply Hu]].
  - destruct (malloc sz h) as [h1 q1] eqn:Em. destruct (good_malloc h l L sz h1 q1 Hgd Hsz Hg Em) as [Eb1 [[-> Hg1]|(Hq & l1 & nb & Hg1 & HP & Eq & Hn)]].
    { cbn in E. injection E as <- <-. left. split_and!; [done|done|by exists l]. }
    rewrite (proj2 (Z.eqb_neq q1 0)) in E by done. pose proof (good_inv _ _ _ Hg1) as Hi1. assert (b ∈ used l1) as Hb1 by (rewrite HP; by right). pose proof Hb1 as [_ Hbl1]%used_elem. rewrite (good_size h1 l1 b Hi1 Hbl1) in E.
    injection E as <- <-. right. split; [done|]. assert (nb ∈ used l1) as Hnb by (rewrite HP; by left). assert (forall c, c ∈ used l -> b_addr c <> b_addr nb) as Hnew.
    { intros c Hc E. pose proof (used_NoDup _ _ Hi1) as Hd. rewrite HP in Hd. cbn in Hd. apply NoDup_cons in Hd as [Hd _]. apply Hd. rewrite <- E. apply list_elem_of_fmap. by exists c. }
    assert (q1 <> p) as Hqp by (specialize (Hnew b Hb); lia). set (h2 := memcpy q1 p (b_size b) h1).
    destruct (good_free h2 l1 (<[q1 := sz]> L) p old) as (l' & Hg' & Eb'); [by apply good_bytes|by rewrite lookup_insert_ne|]. rewrite delete_insert_ne in Hg' by done.
    assert (forall x, load (free p h2) x = if decide (0 <= x - q1 < b_size b) then load h (p + (x - q1)) else load h x) as Hload.
    { intros x. unfold load at 1. rewrite Eb'. fold (load h2 x). destruct (used_apart h1 l1 b nb Hi1 Hb1 Hnb (Hnew b Hb)); unfold b_end, HEADER_SIZE in *; unfold h2; rewrite load_memcpy by lia; unfold load; by rewrite Eb1. }
    split; [by exists l'|]. split.
    + intros i Hii. rewrite Hload, decide_True by lia. f_equal. lia.
    + intros r tz i Hr Hrp Hii. rewrite Hload. case_decide as Hx; [|done]. destruct (Hl r tz Hr) as (c & Hc & -> & Hcz). assert (c ∈ used l1) as Hc1 by (rewrite HP; by right).
      destruct (used_apart h1 l1 c nb Hi1 Hc1 Hnb (Hnew c Hc)); unfold b_end, HEADER_SIZE in *; lia.
Qed.

Lemma run_good h L : run h L -> exists l, good h l L.
Proof.
  induction 1 as [k Hk Hb Ha|h L sz h' p _ [l Hg] Hsz Hgr E|h L a b h' p _ [l Hg] Hsz Hgr E|h L p old sz h' q _ [l Hg] Hp Hsz Hgr E|h L p sz _ [l Hg] Hp|h L p sz i v _ [l Hg] Hp Hi].
  - exists []. split; [|by intros p sz ?%lookup_empty_Some|by intros b ?%elem_of_nil]. split; try done; unfold top; cbn; [by exists 0|lia|by right|lia].
  - destruct (good_malloc h l L sz h' p Hg Hsz Hgr E) as [_ [[-> Hg']|(Hp & l' & b & Hg' & _)]]; [by exists l|]. unfold record. rewrite (proj2 (Z.eqb_neq p 0)) by done. by exists l'.
  - unfold calloc in E. destruct (malloc (u64 (a * b)) h) as [h1 p1] eqn:Em. destruct (good_malloc h l L _ h1 p1 Hg Hsz Hgr Em) as [_ [[-> Hg']|(Hp & l' & c & Hg' & _)]]; injection E as <- <-; [by exists l|].
    unfold record. rewrite (proj2 (Z.eqb_neq p1 0)) by done. exists l'. by apply good_bytes.
  - destruct (good_realloc h l L p old sz h' q Hg Hp Hsz Hgr E) as [(-> & _ & l' & Hg')|(Hq & [l' Hg'] & _)]; [by exists l'|]. rewrite (proj2 (Z.eqb_neq q 0)) by done. by exists l'.
  - destruct (good_free h l L p sz Hg Hp) as (l' & Hg' & _). by exists l'.
  - exists l. by apply good_bytes.
Qed.

(** ** Claims *)

(** C8: memory given out by the user heap: whatever sequence of malloc, calloc,
    realloc and free a program runs, as long as it frees and resizes only
    pointers it holds and its requests stay below the address space, the
    memory of the pointers it holds is aligned, lies below the break, and the
    memory of two pointers does not overlap. *)
Theorem user_heap_safe h L p sz q tz : run h L -> L !! p = Some sz -> L !! q = Some tz -> p <> q ->
  0 < p /\ p mod 8 = 0 /\ p + sz <= break (kern h) /\ (p + sz <= q \/ q + tz <= p).
Proof.
  intros Hr Hp Hq Hne. destruct (run_good h L Hr) as [l [Hi Hl _]]. destruct (Hl p sz Hp) as (b & Hb & -> & Hsz). destruct (Hl q tz Hq) as (c & Hc & -> & Htz). pose proof (used_apart h l b c Hi Hb Hc ltac:(lia)) as Ha.
  apply used_elem in Hb as [_ Hb]. destruct (ordered_bounds _ _ _ (inv_ordered _ _ Hi)) as [_ Hf]. rewrite Forall_forall in Hf. destruct (Hf b Hb) as (H1 & H2 & _). unfold top in H2.
  assert (b_addr b mod 8 = 0) as H8. { apply list_elem_of_split in Hb as (l1 & l2 & ->). pose proof (inv_ordered _ _ Hi) as (m & _ & (_ & ? & _))%ordered_app. done. }
  unfold b_end, HEADER_SIZE in *. split_and!; try lia. zsolve.
Qed.

(** Realloc keeps the contents: when it returns a pointer, the first bytes
    there, up to the smaller of the old and the new size, are those of the old
    memory, and the memory of every other pointer the program holds is as it
    was. *)
Theorem realloc_keeps_contents h L p old sz h' q : run h L -> L !! p = Some old -> 0 < sz -> may_grow (sz + 8 + HEADER_SIZE) h -> realloc p sz h = (h', q) -> q <> 0 ->
  (forall i, 0 <= i < Z.min old sz -> load h' (q + i) = load h (p + i)) /\ forall r tz i, L !! r = Some tz -> r <> p -> 0 <= i < tz -> load h' (r + i) = load h (r + i).
Proof.
  intros Hr Hp Hsz Hg E Hq. destruct (run_good h L Hr) as [l Hgd]. destruct (good_realloc h l L p old sz h' q Hgd Hp Hsz Hg E) as [(-> & _)|(_ & _ & H1 & H2)]; [done|]. by split.
Qed.

(** A request of almost the whole address space: the size of the new block
    wraps around, so the break moves down, and the block that is returned lies
    beyond it; the next block will overlap it. *)
Theorem malloc_huge_shrinks h l k : heap_inv h l -> Forall (fun b => b_used b = true) l -> heap_end h = top h -> 64 < top h -> sys_brk_libc (top h - 32) (kern h) = (k, top h - 32) ->
  let '(h', p) := malloc (2 ^ 64 - 64) h in p = top h + 32 /\ heap_end h' = top h - 32.
Proof.
  intros Hi Hu He Ht Hk. pose proof (inv_max _ _ Hi) as Hx. unfold malloc. change (2 ^ 64 - 64 =? 0) with false. cbn match. change (round8 (2 ^ 64 - 64)) with (2 ^ 64 - 64). destruct (inv_seg _ _ Hi) as [e Hs]. destruct (inv_addrs _ _ Hi) as [_ H0].
  destruct (malloc_walk_spec h (2 ^ 64 - 64) (walk_fuel h) 0 (heap_head h) l e Hs H0 (inv_fuel h l Hi)) as [(l1 & b & l2 & -> & _ & Hf & _)|[_ ->]].
  { apply Forall_app in Hu as [_ Hu]. apply Forall_cons in Hu as [Hu _]. unfold fits in Hf. by rewrite Hu in Hf. }
  unfold malloc_extend, HEADER_SIZE. change (u64 (32 + (2 ^ 64 - 64))) with (2 ^ 64 - 32). unfold sbrk, ERR64. rewrite He, (proj2 (Z.eqb_neq (top h) 0)) by lia. cbn [negb]. rewrite He.
  assert (u64 (top h + (2 ^ 64 - 32)) = top h - 32) as -> by zsolve. rewrite Hk, (proj2 (Z.eqb_neq (top h - 32) _)), Z.ltb_irrefl by lia. cbn [orb]. rewrite (proj2 (Z.eqb_neq (top h) 0)) by lia. split; [done|]. by destruct (_ =? 0).
Qed.

End laws.
End heap.

(** A break that may be set to any address up to a limit. *)
#[local] Instance flat_brk : BrkOps Z := fun n k => if (n =? 0) || (2 ^ 40 <? n) then (k, k) else (n, n).

#[local] Instance flat_laws : BrkLaws Z.
Proof.
  refine {| brk_ok := fun k => 0 < k; break := fun k => k |}; [done|]. intros n k Hk Hn. unfold sys_brk_libc, flat_brk. rewrite (proj2 (Z.eqb_neq n 0)) by lia. cbn [orb]. destruct (2 ^ 40 <? n); split_and!; try lia; auto.
Defined.

Definition demo_start : heap (K := Z) := mk_heap 0 0 ∅ ∅ 4096.

Lemma demo_run : run demo_start ∅.
Proof. by apply run_start. Qed.

(** Two blocks. *)
Definition demo_two : heap (K := Z) := (malloc 5 (malloc 100 demo_start).1).1.

Lemma demo_two_run : run demo_two (<[4264 := 5]> (<[4128 := 100]> ∅)).
Proof.
  assert (run (malloc 100 demo_start).1 (<[4128 := 100]> ∅)) as H1 by (apply (run_malloc demo_start ∅ 100 _ 4128 demo_run); [lia|done|by vm_compute]).
  apply (run_malloc _ _ 5 _ 4264 H1); [lia|by vm_compute|by vm_compute].
Qed.

Lemma user_heap_safe_witness : 4128 + 100 <= 4264 \/ 4264 + 5 <= 4128.
Proof. apply (user_heap_safe demo_two (<[4264 := 5]> (<[4128 := 100]> ∅)) 4128 100 4264 5 demo_two_run); [by vm_compute|by vm_compute|done]. Defined.

Lemma realloc_keeps_contents_witness : let '(h', q) := realloc 4128 1000 demo_two in load h' (q + 99) = load demo_two (4128 + 99).
Proof.
  destruct (realloc 4128 1000 demo_two) as [h' q] eqn:E. destruct (realloc_keeps_contents demo_two (<[4264 := 5]> (<[4128 := 100]> ∅)) 4128 100 1000 h' q demo_two_run) as [H _]; [by vm_compute|lia|by vm_compute|exact E| |apply H; lia].
  intros ->. vm_compute in E. discriminate E.
Defined.

Lemma malloc_huge_shrinks_witness : let '(h', p) := malloc (2 ^ 64 - 64) demo_two in p = 4304 /\ heap_end h' = 4240.
Proof.
  assert (heap_inv demo_two [mk_blk 4096 104 true; mk_blk 4232 8 true]) as Hi2.
  { split; try done; [exists 4232; repeat (split; [done|]; eexists; split; [by vm_compute|]); done|by left]. }
  apply (malloc_huge_shrinks demo_two _ 4240 Hi2); [by repeat constructor|done|done|done].
Defined.

End Malloc.

(** ** The kernel's brk *)

Module KernelBrk.
Import Process Sched Vm Mmap.

Lemma sc_brk_page root pg s : sc (brk_page root pg s).1 = sc s.
Proof.
  unfold brk_page. pose proof (sc_pmm_alloc_page s) as E1. destruct (pmm_alloc_page s) as [s1 p]. destruct (p =? 0); [done|]. set (f := Z.lor _ _). pose proof (sc_user_vm_map_page root pg p f (zero_page p s1)) as E2. destruct (user_vm_map_page _ _ _ _ _) as [s2 r]. cbn in *. destruct (r <? 0); cbn; congruence.
Qed.

#[export] Instance vm_brk : BrkOps vm := syscall_brk.

(** The system call satisfies what the library relies on, in the process that
    runs it. *)
#[export] Instance vm_brk_laws : Malloc.BrkLaws vm.
Proof.
  refine {| Malloc.brk_ok := fun s => exists c, current_user s = Some c /\ (c < length (procs (sc s)))%nat /\ brk_start (proc_at (sc s) c) <= brk_current (proc_at (sc s) c);
            Malloc.break := fun s => match current_user s with Some c => brk_current (proc_at (sc s) c) | None => 0 end |}.
  - intros s (c & Hc & _). unfold sys_brk_libc, vm_brk, syscall_brk. by rewrite Hc.
  - intros n s (c & Hc & Hl & Hs) Hn. rewrite Hc in *. unfold sys_brk_libc, vm_brk, syscall_brk. rewrite Hc. destruct (n =? 0); [rewrite Hc; split_and!; [by exists c|done|by right]|].
    rewrite (proj2 (Z.ltb_ge n _)) by lia. set (lo := page_up _). set (m := pages_between _ _). pose proof (sc_for_while m 0 (fun k => brk_page (cr3 (proc_at (sc s) c)) (lo + 4096 * Z.of_nat k)) s ltac:(intros; apply sc_brk_page)) as E. destruct (for_while m 0 _ s) as [s1 ok]. cbn in E.
    assert (current_user s1 = Some c) as Hc1 by (unfold current_user in *; by rewrite E). destruct ok.
    + destruct (proc_set_current c (fun p => p <| brk_current := n |>) s1) as (P1 & _ & P3); [by rewrite E|]. set (s2 := set_current c _ s1) in *.
      assert (current_user s2 = Some c) as Hc2. { unfold current_user in *. change (current_process (sc s2)) with (current_process (sc s1)). destruct (current_process (sc s1)) as [d|]; [|done]. destruct (is_user (proc_at (sc s1) d)) eqn:Eu; [|done]. injection Hc1 as ->. rewrite P1. transitivity (if is_user (proc_at (sc s1) c) then Some c else None); [done|by rewrite Eu]. }
      rewrite Hc2, P1. split_and!; [|done|by left]. exists c. rewrite P1, P3, E. cbn. split_and!; [done|done|lia].
    + rewrite Hc1, E. split_and!; [exists c; rewrite ?E; done|done|by right].
Defined.

End KernelBrk.
