(* ===== verification/Disk.v ===== *)
(** * The disk (drivers/ata.c)

    The disk is a map from sector numbers to sectors of 512 bytes.  The driver
    writes a request one sector at a time and flushes the drive's cache after
    each, so a request is a list of sector writes, and a crash leaves a prefix
    of the writes issued. *)

From stdpp Require Import prelude gmap.
From Stdlib Require Import ZArith Lia.
From S2P Require Import Prelude.
Local Open Scope Z_scope.

Module Disk.

Abbreviation sector := (list Z).
Abbreviation disk := (gmap Z sector).
Abbreviation writes := (list (Z * sector)).

Definition zero_sector : sector := replicate 512 0.

Definition read_sector (d : disk) (lba : Z) : sector := default zero_sector (d !! lba).

(** A count of 0 stands for 256 sectors; the drive sees the low 28 bits of the
    sector number. *)
Definition num_sectors (count : Z) : Z := if u8 count =? 0 then 256 else u8 count.
Definition lba28 (lba : Z) : Z := lba mod 2 ^ 28.

Definition ata_write_sectors (lba count : Z) (buf : list Z) : writes :=
  (fun i => (lba28 lba + i, slice buf (512 * i) 512)) <$> seqZ 0 (num_sectors count).

Definition ata_read_sectors (lba count : Z) (d : disk) : list Z :=
  mjoin ((fun i => read_sector d (lba28 lba + i)) <$> seqZ 0 (num_sectors count)).

(** The effect of a list of sector writes. *)
Definition run (ws : writes) (d : disk) : disk := foldl (fun d w => <[w.1 := w.2]> d) d ws.

(** ** Lemmas *)

Lemma run_app ws ws' d : run (ws ++ ws') d = run ws' (run ws d).
Proof. apply foldl_app. Qed.

Lemma run_notin ws d l : l ∉ ws.*1 -> run ws d !! l = d !! l.
Proof.
  revert d. induction ws as [|w ws IH]; intros d Hl; [done|]. cbn. cbn in Hl.
  apply not_elem_of_cons in Hl as [Hne Hl]. change (run ws (<[w.1 := w.2]> d) !! l = d !! l).
  by rewrite IH, lookup_insert_ne by done.
Qed.

Lemma run_in ws d d' l : l ∈ ws.*1 -> run ws d !! l = run ws d' !! l.
Proof.
  revert d d'. induction ws as [|w ws IH]; intros d d' Hl; [by apply elem_of_nil in Hl|].
  change (run ws (<[w.1 := w.2]> d) !! l = run ws (<[w.1 := w.2]> d') !! l).
  destruct (decide (l ∈ ws.*1)) as [Hin|Hout]; [by apply IH|].
  cbn in Hl. apply elem_of_cons in Hl as [->|]; [|done]. by rewrite !run_notin, !lookup_insert_eq.
Qed.

(** Repeating an interrupted list of writes completes it. *)
Lemma run_again ws k d : run ws (run (take k ws) d) = run ws d.
Proof.
  apply map_eq. intros l. destruct (decide (l ∈ ws.*1)); [by apply run_in|].
  rewrite !run_notin; [done|done| |done]. intros Hin. rewrite fmap_take in Hin.
  apply elem_of_take in Hin as (i & Hi & _). by apply list_elem_of_lookup_2 in Hi.
Qed.

Lemma write_targets lba count buf : (ata_write_sectors lba count buf).*1 = (fun i => lba28 lba + i) <$> seqZ 0 (num_sectors count).
Proof. unfold ata_write_sectors. by rewrite <- list_fmap_compose. Qed.

Lemma join_slices (buf : list Z) n : mjoin ((fun i => slice buf (512 * i) 512) <$> seqZ 0 (Z.of_nat n)) = take (512 * n) buf.
Proof.
  induction n as [|n IH]; [by rewrite Nat.mul_0_r|].
  rewrite seqZ_S, fmap_app, join_app, IH. cbn [fmap list_fmap mjoin list_join]. rewrite app_nil_r. unfold slice.
  replace (Z.to_nat (512 * (0 + Z.of_nat n))) with (512 * n)%nat by lia. change (Z.to_nat 512) with 512%nat.
  rewrite take_take_drop. f_equal. lia.
Qed.

(** Reading back what was written, when nothing wrote the sectors in between. *)
Lemma read_back lba count buf d :
  0 < num_sectors count -> Z.of_nat (length buf) = 512 * num_sectors count ->
  (forall i, 0 <= i < num_sectors count -> read_sector d (lba28 lba + i) = slice buf (512 * i) 512) ->
  ata_read_sectors lba count d = buf.
Proof.
  intros H0 Hl Hr. unfold ata_read_sectors.
  rewrite (list_fmap_ext _ (fun i => slice buf (512 * i) 512)).
  - rewrite <- (Z2Nat.id (num_sectors count)), join_slices by lia. apply take_ge. lia.
  - intros k i Hi. apply Hr. apply lookup_seqZ in Hi. lia.
Qed.

Lemma run_write d lba count buf i : 0 <= i < num_sectors count ->
  read_sector (run (ata_write_sectors lba count buf) d) (lba28 lba + i) = slice buf (512 * i) 512.
Proof.
  intros Hi. unfold ata_write_sectors, read_sector. set (n := num_sectors count) in *. clearbody n.
  rewrite <- (Z2Nat.id n) in * by lia. set (m := Z.to_nat n) in *. clearbody m. clear n count.
  induction m as [|m IH]; [lia|].
  rewrite seqZ_S, fmap_app, run_app. cbn.
  destruct (decide (i = Z.of_nat m)) as [->|Hne].
  - by rewrite lookup_insert_eq.
  - rewrite lookup_insert_ne by lia. apply IH. lia.
Qed.

(** ** Blocks of [n] sectors *)

Definition get_blk (n : Z) (d : disk) (b : Z) : list Z := ata_read_sectors (u32 (b * n)) (u8 n) d.
Definition put_blk (n b : Z) (bytes : list Z) (d : disk) : disk := run (ata_write_sectors (u32 (b * n)) (u8 n) bytes) d.

Definition disk_wf (d : disk) : Prop := forall lba s, d !! lba = Some s -> length s = 512%nat.

Lemma block_lba n b : 1 <= n <= 8 -> 0 <= b < 2 ^ 25 -> lba28 (u32 (b * n)) = b * n /\ num_sectors (u8 n) = n.
Proof.
  intros Hn Hb. assert (0 <= b * n < 2 ^ 28) by nia. unfold lba28, num_sectors. rewrite u32_small, Z.mod_small by lia.
  rewrite !u8_small by (try apply u8_range; unfold u8; zsolve). split; [done|]. replace (n =? 0) with false by lia. done.
Qed.

(** Blocks of different sizes that do not meet. *)
Lemma get_put_apart n m b b' bytes d : 1 <= n <= 8 -> 1 <= m <= 8 -> 0 <= b < 2 ^ 25 -> 0 <= b' < 2 ^ 25 -> b * n + n <= b' * m \/ b' * m + m <= b * n ->
  get_blk m (put_blk n b bytes d) b' = get_blk m d b'.
Proof.
  intros Hn Hm Hb Hb' Ha. unfold get_blk, put_blk. destruct (block_lba n b Hn Hb) as [E1 E2]. destruct (block_lba m b' Hm Hb') as [E1' E2'].
  unfold ata_read_sectors. f_equal. apply list_fmap_ext. intros k i Hi. apply lookup_seqZ in Hi. rewrite E2' in Hi.
  unfold read_sector. rewrite run_notin; [done|]. rewrite write_targets, E1, E1', E2.
  intros (j & Hj & Hin)%list_elem_of_fmap. apply elem_of_seqZ in Hin. lia.
Qed.

Lemma get_put n b b' bytes d : 1 <= n <= 8 -> 0 <= b < 2 ^ 25 -> 0 <= b' < 2 ^ 25 -> 512 * n <= Z.of_nat (length bytes) ->
  get_blk n (put_blk n b bytes d) b' = if decide (b' = b) then take (Z.to_nat (512 * n)) bytes else get_blk n d b'.
Proof.
  intros Hn Hb Hb' Hl. unfold get_blk, put_blk. destruct (block_lba n b Hn Hb) as [E1 E2]. destruct (block_lba n b' Hn Hb') as [E1' _].
  set (ws := ata_write_sectors _ _ _). destruct (decide (b' = b)) as [->|Hne].
  - assert (take (Z.to_nat (512 * n)) bytes = slice bytes 0 (512 * n)) as Et by (unfold slice; by rewrite drop_0).
    rewrite Et. apply read_back; [lia| |].
    + rewrite length_slice by lia. lia.
    + intros i Hi. unfold ws. rewrite run_write by done. unfold slice. rewrite skipn_firstn_comm, take_take. cbn [Z.to_nat]. rewrite drop_0. f_equal. lia.
  - apply get_put_apart; [done..|]. nia.
Qed.

Lemma put_wf n b bytes d : 1 <= n <= 8 -> 0 <= b < 2 ^ 25 -> 512 * n <= Z.of_nat (length bytes) -> disk_wf d -> disk_wf (put_blk n b bytes d).
Proof.
  intros Hn Hb Hl Hw lba s. unfold put_blk. destruct (block_lba n b Hn Hb) as [E1 E2].
  destruct (decide (lba ∈ (ata_write_sectors (u32 (b * n)) (u8 n) bytes).*1)) as [Hin|Hout]; [|rewrite run_notin by done; apply Hw].
  rewrite write_targets, E2 in Hin. apply list_elem_of_fmap in Hin as (m & -> & Hm). apply elem_of_seqZ in Hm.
  pose proof (run_write d (u32 (b * n)) (u8 n) bytes m) as HR. rewrite E2 in HR. specialize (HR ltac:(lia)).
  unfold read_sector in HR. intros E. rewrite E in HR. cbn in HR. rewrite HR. rewrite length_slice by lia. done.
Qed.

Lemma length_get n d b : 1 <= n <= 8 -> 0 <= b < 2 ^ 25 -> disk_wf d -> Z.of_nat (length (get_blk n d b)) = 512 * n.
Proof.
  intros Hn Hb Hw. unfold get_blk, ata_read_sectors. destruct (block_lba n b Hn Hb) as [E1 E2]. rewrite E1, E2.
  assert (forall i, length (read_sector d i) = 512%nat) as Hr.
  { intros i. unfold read_sector. destruct (d !! i) as [x|] eqn:E; [by eapply Hw|done]. }
  generalize (b * n). intros base. rewrite <- (Z2Nat.id n) by lia. generalize (Z.to_nat n) as m. intros m. induction m as [|m IH]; [done|].
  rewrite seqZ_S, fmap_app, join_app, length_app. cbn [fmap list_fmap mjoin list_join]. rewrite app_nil_r, Hr. lia.
Qed.

End Disk.
