(* ===== verification/Dev.v ===== *)
(** * Devices (drivers/device.c, dev_null.c, dev_zero.c, dev_random.c, dev_tty.c,
    dev_input.c, mouse.c, fb.c and the block device of ata.c)

    The registry is an array of slots.  A driver's function pointers are
    constructors of [dev_fn] (the read and write functions of one driver) and
    [dev_ops]; [dev_read] and [dev_write] run the function a pointer stands for
    on the state of all drivers.  Strings are lists of their characters. *)

From stdpp Require Import prelude gmap.
From Stdlib Require Import ZArith Lia.
From S2P Require Import Prelude Process Sched Tty Disk.
Import Process Sched Disk.
Local Open Scope Z_scope.

Module Dev.

(** ** The registry *)

Definition MAX_DEVICES : nat := 64.
Definition DEV_NAME_MAX : nat := 32.
Definition DEV_CHAR : Z := 1.
Definition DEV_BLOCK : Z := 2.
Definition DEV_STATE_ACTIVE : Z := 1.

Inductive dev_fn := null_fn | zero_fn | random_fn | tty_fn | input_kb_fn | input_mouse_fn | mouse_fn.
Inductive dev_ops := ata_dev_ops | fb_dev_ops.

Record device := mk_device {
  d_name : list Z;
  d_type : Z;
  d_state : Z;
  d_major : Z;
  d_minor : Z;
  d_fn : option dev_fn;
  d_ops : option dev_ops;
  d_in_use : bool
}.

#[export] Instance eta_device : Eta device := fun d =>
  mk_device (d_name d) (d_type d) (d_state d) (d_major d) (d_minor d) (d_fn d) (d_ops d) (d_in_use d).

Definition device_zero : device := mk_device [] 0 0 0 0 None None false.
#[export] Instance device_inhabited : Inhabited device := populate device_zero.

Definition device_init : list device := replicate MAX_DEVICES device_zero.

(** The first free slot gets the device; the name is cut to fit. *)
Definition device_add (d : device) (ds : list device) : list device * option nat :=
  match find_index (fun d => negb (d_in_use d)) ds with
  | Some i => (<[i := d]> ds, Some i)
  | None => (ds, None)
  end.

Definition device_register (nm : list Z) (fn : dev_fn) (ds : list device) : list device * option nat :=
  device_add (mk_device (take (DEV_NAME_MAX - 1) nm) DEV_CHAR DEV_STATE_ACTIVE 0 0 (Some fn) None true) ds.

Definition device_register_ex (nm : list Z) (type major minor : Z) (ops : dev_ops) (ds : list device) : list device * option nat :=
  device_add (mk_device (take (DEV_NAME_MAX - 1) nm) type DEV_STATE_ACTIVE major minor None (Some ops) true) ds.

Definition device_find (nm : list Z) (ds : list device) : option nat :=
  find_index (fun d => d_in_use d && bool_decide (d_name d = nm)) ds.

Definition device_find_by_number (major minor : Z) (ds : list device) : option nat :=
  find_index (fun d => d_in_use d && (d_major d =? major) && (d_minor d =? minor)) ds.

Definition device_get_count (ds : list device) : Z := countb d_in_use ds.

(** The slot of the [index]th device in use, from slot [i] on. *)
Fixpoint nth_device (ds : list device) (index : Z) (i : nat) : option nat :=
  match ds with
  | [] => None
  | d :: ds' => if d_in_use d then if index =? 0 then Some i else nth_device ds' (index - 1) (S i) else nth_device ds' index (S i)
  end.

Definition device_get_by_index (index : Z) (ds : list device) : option nat := nth_device ds index 0.

(** ** The mouse *)

Definition RING_SIZE : Z := 64.

Record mouse_event := mk_event { dx : Z; dy : Z; buttons : Z }.
#[export] Instance event_inhabited : Inhabited mouse_event := populate (mk_event 0 0 0).

Record mouse := mk_mouse {
  ring : list mouse_event;
  ring_head : Z;
  ring_tail : Z;
  pkt : list Z;
  pkt_byte : Z
}.

#[export] Instance eta_mouse : Eta mouse := fun m => mk_mouse (ring m) (ring_head m) (ring_tail m) (pkt m) (pkt_byte m).

Definition mouse_zero : mouse := mk_mouse (replicate 64 (mk_event 0 0 0)) 0 0 [0; 0; 0] 0.

Definition ring_push (ev : mouse_event) (m : mouse) : mouse :=
  let next := (ring_head m + 1) mod RING_SIZE in
  if next =? ring_tail m then m else m <| ring ::= fun r => zset r (ring_head m) ev |> <| ring_head := next |>.

Definition bit (x mask : Z) : bool := negb (Z.land x mask =? 0).

(** The event in the three bytes of a packet. *)
Definition decode_packet (p : list Z) : mouse_event :=
  let x := if bit (zget p 0) 0x10 then zget p 1 - 256 else zget p 1 in
  let y := if bit (zget p 0) 0x20 then zget p 2 - 256 else zget p 2 in
  mk_event x (- y) (Z.land (zget p 0) 7).

(** [status] and [data] are what the ports 0x64 and 0x60 deliver. *)
Definition mouse_handler (status data : Z) (m : mouse) : mouse :=
  if negb (bit status 0x20) then m else
  let m := m <| pkt ::= fun p => zset p (pkt_byte m) data |> <| pkt_byte ::= Z.succ |> in
  if negb (pkt_byte m =? 3) then m else
  let m := m <| pkt_byte := 0 |> in
  if negb (bit (zget (pkt m) 0) 8) then m else ring_push (decode_packet (pkt m)) m.

Definition mouse_read_event (m : mouse) : mouse * option mouse_event :=
  if ring_head m =? ring_tail m then (m, None)
  else (m <| ring_tail ::= fun t => (t + 1) mod RING_SIZE |>, Some (zget (ring m) (ring_tail m))).

(** [struct mouse_event] as bytes; the last one is padding. *)
Definition EVENT_SIZE : Z := 6.
Definition event_bytes (e : mouse_event) : list Z := le_bytes 2 (dx e) ++ le_bytes 2 (dy e) ++ [u8 (buttons e); 0].

Definition mouse_dev_read (count : Z) (m : mouse) : mouse * (Z * list Z) :=
  if count <? EVENT_SIZE then (m, (-1, [])) else
  if ring_head m =? ring_tail m then (m, (0, [])) else
  (m <| ring_tail ::= fun t => (t + 1) mod RING_SIZE |>, (EVENT_SIZE, event_bytes (zget (ring m) (ring_tail m)))).

(** ** The input, null and zero devices *)

Definition input_mouse_read (count : Z) (m : mouse) : mouse * (Z * list Z) :=
  if count <? EVENT_SIZE then (m, (-1, [])) else
  match mouse_read_event m with
  | (m, Some e) => (m, (EVENT_SIZE, event_bytes e))
  | (m, None) => (m, (0, []))
  end.

Definition input_kb_read (count : Z) (k : Tty.kbd) : Tty.kbd * (Z * list Z) :=
  if count =? 0 then (k, (0, [])) else
  match Tty.keyboard_getchar k with
  | Some (c, k) => (k, (1, [u8 c]))
  | None => (k, (0, []))
  end.

Definition null_read (count : Z) : Z * list Z := (0, []).
Definition null_write (buf : list Z) : Z := s32 (Z.of_nat (length buf)).
Definition zero_read (count : Z) : Z * list Z := (s32 count, replicate (Z.to_nat count) 0).
Definition zero_write (buf : list Z) : Z := s32 (Z.of_nat (length buf)).

(** ** Random numbers *)

Definition xorshift64 (x : Z) : Z :=
  let x := Z.lxor x (u64 (Z.shiftl x 13)) in
  let x := Z.lxor x (Z.shiftr x 7) in
  Z.lxor x (u64 (Z.shiftl x 17)).

(** Eight bytes per number; [fuel] is the number of rounds. *)
Fixpoint random_bytes (fuel : nat) (count x : Z) : Z * list Z :=
  match fuel with
  | O => (x, [])
  | S k =>
      if count <=? 0 then (x, []) else
      let r := xorshift64 x in
      let '(x, rest) := random_bytes k (count - 8) r in
      (x, take (Z.to_nat count) (le_bytes 8 r) ++ rest)
  end.

Definition random_read (count x : Z) : Z * (Z * list Z) :=
  let '(x, bs) := random_bytes (Z.to_nat count) count x in (x, (s32 count, bs)).

Definition seed (i : nat) (b x : Z) : Z := Z.lxor x (Z.shiftl b (8 * Z.of_nat i)).

Definition random_write (buf : list Z) (x : Z) : Z * Z :=
  let x := foldl (fun x ib => seed ib.1 ib.2 x) x (zip (seq 0 8) buf) in
  (if x =? 0 then 0xDEADBEEFCAFEBABE else x, s32 (Z.of_nat (length buf))).

Definition dev_random_seed (ticks : Z) : Z := if ticks =? 0 then 0x12345678ABCDEF01 else ticks.

(** ** The frame buffer *)

Record fb_info := mk_fb { fb_width : Z; fb_height : Z; fb_pitch : Z; fb_bpp : Z; fb_phys_addr : Z }.

Definition FBIOGET_INFO : Z := 0x4600.

Definition fb_get_size (f : fb_info) : Z := u64 (fb_pitch f * fb_height f).

Definition fb_ops_ioctl (cmd arg : Z) (f : fb_info) : Z * option fb_info :=
  if cmd =? FBIOGET_INFO then if arg =? 0 then (-1, None) else (0, Some f) else (-1, None).

(** The physical address of the range, or [None] for -1. *)
Definition fb_ops_mmap (offset size : Z) (f : fb_info) : option Z :=
  if fb_get_size f <? u64 (offset + size) then None else Some (u64 (fb_phys_addr f + offset)).

(** ** All drivers *)

Record io := mk_io {
  devices : list device;
  random_state : Z;
  mice : mouse;
  keys : Tty.kbd;
  term : Tty.tty;
  fb : fb_info;
  image : disk;
  primary_present : bool
}.

#[export] Instance eta_io : Eta io := fun w =>
  mk_io (devices w) (random_state w) (mice w) (keys w) (term w) (fb w) (image w) (primary_present w).

(** The legacy read of a driver: result and bytes stored, or [None] when the
    caller is put to sleep. *)
Definition dev_read (fn : dev_fn) (count : Z) (w : io) (s : sched) : io * sched * option (Z * list Z) :=
  match fn with
  | null_fn => (w, s, Some (null_read count))
  | zero_fn => (w, s, Some (zero_read count))
  | random_fn => let '(x, r) := random_read count (random_state w) in (w <| random_state := x |>, s, Some r)
  | tty_fn => let '(t, s, r) := Tty.tty_read count (term w) s in (w <| term := t |>, s, r)
  | input_kb_fn => let '(k, r) := input_kb_read count (keys w) in (w <| keys := k |>, s, Some r)
  | input_mouse_fn => let '(m, r) := input_mouse_read count (mice w) in (w <| mice := m |>, s, Some r)
  | mouse_fn => let '(m, r) := mouse_dev_read count (mice w) in (w <| mice := m |>, s, Some r)
  end.

(** The legacy write: result, and what the terminal shows. *)
Definition dev_write (fn : dev_fn) (buf : list Z) (w : io) : io * Z * list Z :=
  match fn with
  | null_fn => (w, null_write buf, [])
  | zero_fn => (w, zero_write buf, [])
  | random_fn => let '(x, r) := random_write buf (random_state w) in (w <| random_state := x |>, r, [])
  | tty_fn => let '(r, out) := Tty.tty_write buf in (w, r, out)
  | input_kb_fn | input_mouse_fn | mouse_fn => (w, -1, [])
  end.

Definition bad_sectors (count offset : Z) : bool :=
  negb (offset mod 512 =? 0) || negb (count mod 512 =? 0) || (count / 512 =? 0) || (256 <? count / 512).

Definition ata_dev_read (count offset : Z) (w : io) : Z * list Z :=
  if negb (primary_present w) then (-1, []) else
  if bad_sectors count offset then (-1, []) else
  (s32 count, Disk.ata_read_sectors (u32 (offset / 512)) (u8 (count / 512)) (image w)).

Definition ata_dev_write (buf : list Z) (offset : Z) (w : io) : io * Z :=
  let count := Z.of_nat (length buf) in
  if negb (primary_present w) then (w, -1) else
  if bad_sectors count offset then (w, -1) else
  (w <| image ::= Disk.run (Disk.ata_write_sectors (u32 (offset / 512)) (u8 (count / 512)) buf) |>, s32 count).

Definition ops_read (o : dev_ops) (count offset : Z) (w : io) : Z * list Z :=
  match o with ata_dev_ops => ata_dev_read count offset w | fb_dev_ops => (-1, []) end.

Definition ops_write (o : dev_ops) (buf : list Z) (offset : Z) (w : io) : io * Z :=
  match o with ata_dev_ops => ata_dev_write buf offset w | fb_dev_ops => (w, -1) end.

(** ** The registry as a map *)

Definition used_names (ds : list device) : list (list Z) := d_name <$> filter (fun d => d_in_use d = true) ds.

Lemma device_find_spec nm ds i : device_find nm ds = Some i -> exists d, ds !! i = Some d /\ d_in_use d = true /\ d_name d = nm.
Proof. intros (d & Hd & Hp & _)%find_index_Some. apply andb_prop in Hp as [Hu Hn]. apply bool_decide_eq_true in Hn. by exists d. Qed.

Lemma device_add_spec d ds ds' i : d_in_use d = true -> device_add d ds = (ds', Some i) ->
  (forall j, ds' !! j = if decide (j = i) then Some d else ds !! j) /\ (exists e, ds !! i = Some e /\ d_in_use e = false) /\ device_get_count ds' = device_get_count ds + 1.
Proof.
  intros Hd. unfold device_add. destruct (find_index _ ds) as [k|] eqn:E; [|done]. intros [= <- ->]. destruct (find_index_Some _ _ _ E) as (e & He & Hp & _).
  apply negb_true_iff in Hp. split_and!; [|by exists e|].
  - intros j. case_decide as Hj; [subst; apply list_lookup_insert_eq; by eapply lookup_lt_Some|by apply list_lookup_insert_ne].
  - unfold device_get_count. rewrite (countb_insert _ _ _ d e), Hd, Hp by done. cbn [Z.b2z]. lia.
Qed.

(** ** The mouse queue *)

Definition count (m : mouse) : Z := (ring_head m - ring_tail m) mod RING_SIZE.

Definition events (m : mouse) : list mouse_event := (fun i => zget (ring m) ((ring_tail m + i) mod RING_SIZE)) <$> seqZ 0 (count m).

Record mouse_wf (m : mouse) : Prop := mk_mouse_wf {
  mw_ring : length (ring m) = 64%nat;
  mw_head : 0 <= ring_head m < RING_SIZE;
  mw_tail : 0 <= ring_tail m < RING_SIZE;
  mw_pkt : length (pkt m) = 3%nat;
  mw_byte : 0 <= pkt_byte m < 3
}.

Lemma ring_push_spec ev m : mouse_wf m ->
  mouse_wf (ring_push ev m) /\ events (ring_push ev m) = (if count m <? 63 then events m ++ [ev] else events m).
Proof.
  intros [H1 H2 H3 H4 H5]. unfold ring_push, RING_SIZE in *. assert (count m < 63 <-> (ring_head m + 1) mod 64 <> ring_tail m) as Hc by (unfold count, RING_SIZE; zsolve).
  destruct (Z.eqb_spec ((ring_head m + 1) mod 64) (ring_tail m)) as [E|E]; [replace (count m <? 63) with false by lia; done|]. replace (count m <? 63) with true by lia.
  split; [split; cbn; unfold RING_SIZE; [by rewrite length_zset|zsolve|done|done|done]|]. unfold events.
  set (m' := m <| ring ::= _ |> <| ring_head := _ |>). assert (count m' = Z.succ (count m)) as Ec by (unfold count, m', RING_SIZE in *; cbn; zsolve).
  assert (0 <= count m) as H0 by (unfold count, RING_SIZE; zsolve). rewrite Ec. replace (Z.succ (count m)) with (Z.of_nat (S (Z.to_nat (count m)))) by lia.
  rewrite seqZ_S, fmap_app, Z2Nat.id by lia. cbn [fmap list_fmap]. f_equal; [|f_equal].
  - apply list_fmap_ext. intros k i [-> Hk]%lookup_seqZ. unfold m'. cbn. unfold count, RING_SIZE in *. apply zget_zset_ne; [lia|zsolve|zsolve].
  - unfold m'. cbn. replace ((ring_tail m + (0 + count m)) mod RING_SIZE) with (ring_head m) by (unfold count, RING_SIZE in *; zsolve). apply zget_zset_eq. lia.
Qed.

Lemma mouse_read_spec m : mouse_wf m -> let '(m', e) := mouse_read_event m in
  mouse_wf m' /\ pkt m' = pkt m /\ pkt_byte m' = pkt_byte m /\ e = head (events m) /\ events m' = tail (events m).
Proof.
  intros [H1 H2 H3 H4 H5]. unfold mouse_read_event, RING_SIZE in *. destruct (Z.eqb_spec (ring_head m) (ring_tail m)) as [E|E].
  - split_and!; try done. all: unfold events; replace (count m) with 0 by (unfold count, RING_SIZE; zsolve); done.
  - set (m' := m <| ring_tail ::= _ |>). assert (count m = Z.of_nat (S (Z.to_nat (count m')))) as Ec by (unfold count, m', RING_SIZE in *; cbn; zsolve).
    assert (events m = zget (ring m) (ring_tail m) :: events m') as Ee.
    { unfold events at 1. rewrite Ec. cbn [seqZ]. rewrite seqZ_cons by lia. cbn [fmap list_fmap]. f_equal; [f_equal; unfold RING_SIZE; zsolve|].
      unfold events. replace (Z.pred (Z.of_nat (S (Z.to_nat (count m'))))) with (count m') by (unfold count, RING_SIZE in *; zsolve).
      apply list_eq. intros i. rewrite !list_lookup_fmap. destruct (decide (Z.of_nat i < count m')).
      - rewrite !(proj2 (lookup_seqZ _ _ _ _)) by (split; [reflexivity|lia]). cbn. do 2 f_equal. unfold RING_SIZE. zsolve.
      - rewrite !lookup_seqZ_ge by lia. done. }
    rewrite Ee. split_and!; try done. split; cbn; unfold RING_SIZE; (done || zsolve).
Qed.

(** ** Packets *)

(** What the mouse sends for an event. *)
Definition packet (e : mouse_event) : list Z :=
  [8 + buttons e + (if dx e <? 0 then 16 else 0) + (if 0 <? dy e then 32 else 0); u8 (dx e); u8 (- dy e)].

Definition event_ok (e : mouse_event) : Prop := -256 <= dx e < 256 /\ -256 < dy e <= 256 /\ 0 <= buttons e < 8.

Lemma decode_encode e : event_ok e -> decode_packet (packet e) = e /\ bit (zget (packet e) 0) 8 = true.
Proof.
  intros (Hx & Hy & Hb). destruct e as [x y b]. cbn [dx dy buttons] in *. unfold packet. cbn [dx dy buttons].
  set (b0 := 8 + b + _ + _). assert (decode_packet [b0; u8 x; u8 (- y)] = mk_event (if bit b0 0x10 then u8 x - 256 else u8 x) (- (if bit b0 0x20 then u8 (- y) - 256 else u8 (- y))) (Z.land b0 7)) as -> by done.
  assert (bit b0 0x10 = (x <? 0) /\ bit b0 0x20 = (0 <? y) /\ Z.land b0 7 = b /\ bit b0 8 = true) as (-> & -> & -> & E).
  { assert (b = 0 \/ b = 1 \/ b = 2 \/ b = 3 \/ b = 4 \/ b = 5 \/ b = 6 \/ b = 7) as Hb8 by lia. unfold b0. destruct (x <? 0), (0 <? y), Hb8 as [-> |[-> |[-> |[-> |[-> |[-> |[-> | ->]]]]]]]; by vm_compute. }
  split; [|exact E]. destruct (Z.ltb_spec x 0), (Z.ltb_spec 0 y); f_equal; zsolve.
Qed.

(** A byte in each of the three positions of a packet. *)
Lemma feed_packet m b0 b1 b2 : mouse_wf m -> pkt_byte m = 0 ->
  let m' := mouse_handler 0x20 b2 (mouse_handler 0x20 b1 (mouse_handler 0x20 b0 m)) in
  let p := [b0; b1; b2] in let m1 := m <| pkt := p |> in
  mouse_wf m1 /\ m' = if bit b0 8 then ring_push (decode_packet p) m1 else m1.
Proof.
  intros [H1 H2 H3 H4 H5] H0. destruct m as [r h t q k]. cbn in H0, H4. subst k. destruct q as [|q0 [|q1 [|q2 [|]]]]; try done.
  split; [split; done|]. 
  change (mouse_handler 0x20 b0 (mk_mouse r h t [q0; q1; q2] 0)) with (mk_mouse r h t [b0; q1; q2] 1).
  change (mouse_handler 0x20 b1 (mk_mouse r h t [b0; q1; q2] 1)) with (mk_mouse r h t [b0; b1; q2] 2).
  change (mouse_handler 0x20 b2 (mk_mouse r h t [b0; b1; q2] 2)) with
    (if negb (bit b0 8) then mk_mouse r h t [b0; b1; b2] 0 else ring_push (decode_packet [b0; b1; b2]) (mk_mouse r h t [b0; b1; b2] 0)). by destruct (bit b0 8).
Qed.

Definition feed (m : mouse) (l : list (Z * Z)) : mouse := foldl (fun m sb => mouse_handler sb.1 sb.2 m) m l.

Lemma feed_skip m l : feed m l = feed m (filter (fun sb => bit sb.1 0x20 = true) l).
Proof.
  revert m. induction l as [|[st b] l IH]; intros m; [done|]. rewrite filter_cons. cbn [feed foldl fst snd]. fold (feed (mouse_handler st b m) l).
  case_decide as Hb; [exact (IH _)|]. cbn [fst] in Hb. apply not_true_is_false in Hb. unfold mouse_handler. rewrite Hb. cbn [negb]. apply IH.
Qed.

(** The bytes of mouse interrupts only. *)
Definition aux (l : list Z) : list (Z * Z) := (fun b => (0x20, b)) <$> l.

Lemma feed_app m l k : feed m (l ++ k) = feed (feed m l) k.
Proof. apply foldl_app. Qed.

Lemma feed_events m es : mouse_wf m -> pkt_byte m = 0 -> Forall event_ok es -> count m + Z.of_nat (length es) <= 63 ->
  let m' := feed m (aux (mjoin (packet <$> es))) in mouse_wf m' /\ pkt_byte m' = 0 /\ events m' = events m ++ es.
Proof.
  intros Hw H0 Hok. revert m Hw H0. induction Hok as [|e es He _ IH]; intros m Hw H0 Hc; [by rewrite app_nil_r|]. cbn [length] in Hc.
  change (mjoin (packet <$> e :: es)) with (packet e ++ mjoin (packet <$> es)). unfold aux. rewrite fmap_app, feed_app. fold (aux (mjoin (packet <$> es))).
  destruct (decode_encode e He) as [Hd Hb]. destruct (feed_packet m (zget (packet e) 0) (zget (packet e) 1) (zget (packet e) 2) Hw H0) as [W1 E1].
  change (feed m ((fun b => (0x20, b)) <$> packet e)) with (mouse_handler 0x20 (zget (packet e) 2) (mouse_handler 0x20 (zget (packet e) 1) (mouse_handler 0x20 (zget (packet e) 0) m))). rewrite E1, Hb.
  change [zget (packet e) 0; zget (packet e) 1; zget (packet e) 2] with (packet e) in *. rewrite Hd. set (m1 := m <| pkt := packet e |>) in *.
  destruct (ring_push_spec e m1 W1) as [W2 Ev]. change (count m1) with (count m) in Ev. change (events m1) with (events m) in Ev. replace (count m <? 63) with true in Ev by lia.
  assert (pkt_byte (ring_push e m1) = 0) as P2 by (unfold ring_push; by case_if).
  assert (count (ring_push e m1) = count m + 1) as C2.
  { assert (length (events (ring_push e m1)) = S (length (events m))) as L by (rewrite Ev, length_app; cbn; lia). unfold events in L. rewrite !length_fmap, !length_seqZ in L.
    assert (0 <= count m /\ 0 <= count (ring_push e m1)) by (unfold count, RING_SIZE; zsolve). lia. }
  destruct (IH (ring_push e m1) W2 P2 ltac:(lia)) as (W3 & P3 & E3). split_and!; [done|done|]. rewrite E3, Ev. by rewrite <- app_assoc.
Qed.

(** Take [n] events from the queue. *)
Fixpoint read_events (n : nat) (m : mouse) : list mouse_event :=
  match n with O => [] | S k => match mouse_read_event m with (m, Some e) => e :: read_events k m | (_, None) => [] end end.

Lemma read_all n m : mouse_wf m -> read_events n m = take n (events m).
Proof.
  revert m. induction n as [|n IH]; intros m Hw; [done|]. cbn [read_events]. pose proof (mouse_read_spec m Hw) as H. destruct (mouse_read_event m) as [m' e].
  destruct H as (W & _ & _ & -> & E). destruct (events m) as [|a l]; [done|]. cbn [head take]. rewrite IH by done. cbn [tail] in E. by rewrite E.
Qed.

(** ** The random number generator *)

Lemma xor_shl_zero x k : 0 <= x < 2 ^ 64 -> 0 < k -> Z.lxor x (u64 (Z.shiftl x k)) = 0 -> x = 0.
Proof.
  intros Hx Hk H. apply Z.lxor_eq in H. assert (forall n, 0 <= n -> forall i, 0 <= i < n -> Z.testbit x i = false) as Hbits.
  { apply (natlike_ind (fun n => forall i, 0 <= i < n -> Z.testbit x i = false)); [lia|]. intros n Hn IH i Hi. destruct (decide (i < n)); [apply IH; lia|].
    rewrite H. unfold u64. change 18446744073709551616 with (2 ^ 64). destruct (decide (i < 64)); [|apply Z.mod_pow2_bits_high; lia].
    rewrite Z.mod_pow2_bits_low, Z.shiftl_spec by lia. destruct (decide (i < k)); [apply Z.testbit_neg_r; lia|]. apply IH. lia. }
  apply Z.bits_inj'. intros i Hi. rewrite Z.bits_0. apply (Hbits (i + 1)); lia.
Qed.

Lemma xor_shr_zero x k : 0 <= x -> 0 < k -> Z.lxor x (Z.shiftr x k) = 0 -> x = 0.
Proof.
  intros Hx Hk H. apply Z.lxor_eq in H. rewrite Z.shiftr_div_pow2 in H by lia. assert (2 <= 2 ^ k) by (apply (Z.pow_le_mono_r 2 1 k); lia).
  destruct (decide (x = 0)); [done|]. assert (x / 2 ^ k < x) by (apply Z.div_lt; lia). lia.
Qed.

Lemma lxor_64 x y : 0 <= x < 2 ^ 64 -> 0 <= y < 2 ^ 64 -> 0 <= Z.lxor x y < 2 ^ 64.
Proof.
  intros Hx Hy. split; [apply Z.lxor_nonneg; lia|]. destruct (decide (Z.lxor x y = 0)) as [-> |]; [lia|]. apply Z.log2_lt_pow2; [pose proof (proj2 (Z.lxor_nonneg x y)); lia|].
  pose proof (Z.log2_lxor x y ltac:(lia) ltac:(lia)). assert (forall z, 0 <= z < 2 ^ 64 -> Z.log2 z < 64) as Hl.
  { intros z Hz. destruct (decide (z = 0)) as [-> |]; [done|]. apply Z.log2_lt_pow2; lia. }
  pose proof (Hl x Hx). pose proof (Hl y Hy). lia.
Qed.

Lemma xorshift_ok x : 0 < x < 2 ^ 64 -> 0 < xorshift64 x < 2 ^ 64.
Proof.
  intros Hx. unfold xorshift64. set (a := Z.lxor x _). set (b := Z.lxor a _). set (c := Z.lxor b _).
  assert (0 <= a < 2 ^ 64) as Ha by (apply lxor_64; [lia|apply u64_range]). assert (a <> 0) as Na by (intros E; apply xor_shl_zero in E; lia).
  assert (0 <= b < 2 ^ 64) as Hb. { apply lxor_64; [lia|]. rewrite Z.shiftr_div_pow2 by lia. zsolve. } assert (b <> 0) as Nb by (intros E; apply xor_shr_zero in E; lia).
  assert (0 <= c < 2 ^ 64) as Hc by (apply lxor_64; [lia|apply u64_range]). assert (c <> 0) by (intros E; apply xor_shl_zero in E; lia). lia.
Qed.

Lemma random_bytes_ok n cnt x : 0 < x < 2 ^ 64 -> 0 < (random_bytes n cnt x).1 < 2 ^ 64.
Proof.
  revert cnt x. induction n as [|n IH]; intros cnt x Hx; [done|]. cbn [random_bytes]. case_if; [done|].
  specialize (IH (cnt - 8) _ (xorshift_ok x Hx)). by destruct (random_bytes n (cnt - 8) (xorshift64 x)).
Qed.

Lemma random_bytes_length n cnt x : cnt <= 8 * Z.of_nat n -> length (random_bytes n cnt x).2 = Z.to_nat cnt.
Proof.
  revert cnt x. induction n as [|n IH]; intros cnt x Hn; cbn [random_bytes]; [cbn; lia|]. destruct (Z.leb_spec cnt 0); [cbn; lia|].
  specialize (IH (cnt - 8) (xorshift64 x) ltac:(lia)). destruct (random_bytes n (cnt - 8) (xorshift64 x)) as [y rest]. cbn [snd] in *.
  rewrite length_app, length_take, length_le_bytes, IH. lia.
Qed.

Lemma seed_ok i b x : (i < 8)%nat -> 0 <= b < 256 -> 0 <= x < 2 ^ 64 -> 0 <= seed i b x < 2 ^ 64.
Proof.
  intros Hi Hb Hx. apply lxor_64; [done|]. rewrite Z.shiftl_mul_pow2 by lia.
  assert (2 ^ (8 * Z.of_nat i) <= 2 ^ 56) by (apply Z.pow_le_mono_r; lia). assert (0 < 2 ^ (8 * Z.of_nat i)) by (apply Z.pow_pos_nonneg; lia). change (2 ^ 64) with (256 * 2 ^ 56). nia.
Qed.

Lemma random_write_ok buf x : Forall (fun b => 0 <= b < 256) buf -> 0 <= x < 2 ^ 64 -> 0 < (random_write buf x).1 < 2 ^ 64.
Proof.
  intros Hb Hx. unfold random_write. cbn [fst]. set (y := foldl _ _ _). assert (0 <= y < 2 ^ 64) as Hy; [|destruct (Z.eqb_spec y 0); lia].
  unfold y. clear y. assert (Forall (fun ib => (ib.1 < 8)%nat /\ 0 <= ib.2 < 256) (zip (seq 0 8) buf)) as Hz.
  { apply Forall_lookup. intros k [i b] Hk. apply lookup_zip_with_Some in Hk as (i' & b' & [= -> ->] & Hs & Hl). apply lookup_seq in Hs. split; [cbn; lia|by apply (Forall_lookup_1 _ _ _ _ Hb Hl)]. }
  revert x Hx. induction Hz as [|[i b] l [Hi Hbb] _ IH]; intros x Hx; cbn [foldl]; [done|]. apply IH. by apply seed_ok.
Qed.

(** ** Claims *)

(** Mouse packets are decoded without loss: whatever keyboard bytes arrive in
    between, as long as the queue has room the events read back are the ones the
    mouse sent, in order, and the driver is ready for the next packet. *)
Theorem mouse_roundtrip m es stream :
  mouse_wf m -> pkt_byte m = 0 -> events m = [] -> Forall event_ok es -> (length es <= 63)%nat ->
  filter (fun sb => bit sb.1 0x20 = true) stream = aux (mjoin (packet <$> es)) ->
  let m' := feed m stream in
  mouse_wf m' /\ pkt_byte m' = 0 /\ read_events (length es) m' = es.
Proof.
  intros Hw H0 He Hok Hn Hs. rewrite feed_skip, Hs. assert (count m = 0) as Hc.
  { apply (f_equal length) in He. unfold events in He. rewrite length_fmap, length_seqZ in He. cbn in He. unfold count, RING_SIZE in *. zsolve. }
  destruct (feed_events m es Hw H0 Hok ltac:(lia)) as (W & P & E). split_and!; [done|done|]. rewrite read_all, E, He by done. apply take_ge. cbn. lia.
Qed.

(** The driver never finds back into step: after one lost or extra byte the
    packets of a movement without vertical part are all thrown away, however
    many arrive. *)
Theorem mouse_out_of_step m n b0 b1 b2 :
  mouse_wf m -> pkt_byte m = 1 -> bit (zget (pkt m) 0) 8 = false -> bit b2 8 = false ->
  let m' := feed m (aux (mjoin (replicate n [b0; b1; b2]))) in events m' = events m /\ pkt_byte m' = 1.
Proof.
  intros Hw. revert m Hw. induction n as [|n IH]; intros m Hw H1 Hb Hb2; [done|]. cbn [replicate].
  change (aux (mjoin ([b0; b1; b2] :: replicate n [b0; b1; b2]))) with ([(0x20, b0); (0x20, b1); (0x20, b2)] ++ aux (mjoin (replicate n [b0; b1; b2]))). rewrite feed_app.
  destruct Hw as [W1 W2 W3 W4 W5]. destruct m as [r h t q k]. cbn in H1, W4. subst k. destruct q as [|q0 [|q1 [|q2 [|]]]]; try done. change (bit q0 8 = false) in Hb.
  assert (feed (mk_mouse r h t [q0; q1; q2] 1) [(0x20, b0); (0x20, b1); (0x20, b2)] = mk_mouse r h t [b2; b0; b1] 1) as ->.
  { unfold feed. cbn [foldl fst snd]. change (mouse_handler 0x20 b0 (mk_mouse r h t [q0; q1; q2] 1)) with (mk_mouse r h t [q0; b0; q2] 2).
    change (mouse_handler 0x20 b1 (mk_mouse r h t [q0; b0; q2] 2)) with (if negb (bit q0 8) then mk_mouse r h t [q0; b0; b1] 0 else ring_push (decode_packet [q0; b0; b1]) (mk_mouse r h t [q0; b0; b1] 0)). by rewrite Hb. }
  apply (IH (mk_mouse r h t [b2; b0; b1] 1)); [by split|done|done|done].
Qed.

(** The random number generator never falls into the zero state, from which it
    could not leave: seeding, reading any number of bytes and mixing in what a
    user writes all keep the state a non-zero 64-bit number, and a read delivers
    as many bytes as it was asked for. *)
Theorem random_never_zero x n buf ticks :
  0 < x < 2 ^ 64 -> 0 <= n < 2 ^ 31 -> Forall (fun b => 0 <= b < 256) buf -> 0 <= ticks < 2 ^ 64 ->
  0 < dev_random_seed ticks < 2 ^ 64 /\ 0 < (random_read n x).1 < 2 ^ 64 /\ 0 < (random_write buf x).1 < 2 ^ 64 /\
  (random_read n x).2.1 = n /\ Z.of_nat (length (random_read n x).2.2) = n.
Proof.
  intros Hx Hn Hb Ht. unfold dev_random_seed, random_read. pose proof (random_bytes_ok (Z.to_nat n) n x Hx) as Hr. pose proof (random_bytes_length (Z.to_nat n) n x ltac:(lia)) as Hl.
  destruct (random_bytes (Z.to_nat n) n x) as [y bs]. cbn [fst snd] in *. split_and!; [case_if; b2p; lia..|lia|lia|apply random_write_ok; [done|lia]|apply random_write_ok; [done|lia]|apply s32_small; lia|lia].
Qed.

(** ** Examples *)

Lemma mouse_zero_wf : mouse_wf mouse_zero.
Proof. by split. Qed.

Definition demo_event : mouse_event := mk_event (-3) 7 1.

Lemma mouse_roundtrip_witness : read_events 1 (feed mouse_zero ((0x1C, 30) :: aux (packet demo_event))) = [demo_event].
Proof. apply (mouse_roundtrip mouse_zero [demo_event] ((0x1C, 30) :: aux (packet demo_event)) mouse_zero_wf eq_refl eq_refl); [by repeat constructor|cbn; lia|done]. Defined.

Lemma mouse_out_of_step_witness : events (feed (mouse_zero <| pkt_byte := 1 |>) (aux (mjoin (replicate 100 [8; 5; 0])))) = [].
Proof. etrans; [apply (mouse_out_of_step (mouse_zero <| pkt_byte := 1 |>) 100 8 5 0); [by split|done|done|done]|done]. Defined.

Lemma random_never_zero_witness : Z.of_nat (length (random_read 3 1).2.2) = 3.
Proof. apply (random_never_zero 1 3 [] 0); [done|done|constructor|done]. Defined.

End Dev.
