(* ===== verification/Journal.v ===== *)
(** * The write-ahead journal (fs/journal.c)

    A transaction collects block buffers by pointer; [mem] gives the 4096 bytes a
    buffer pointer refers to when the transaction commits.  Commit and recovery
    are lists of sector writes on the disk of [Disk]; a crash leaves a prefix. *)

From stdpp Require Import prelude gmap.
From Stdlib Require Import ZArith Lia.
From S2P Require Import Prelude Disk.
Import Disk.
Local Open Scope Z_scope.

Module Journal.

Definition JOURNAL_MAGIC : Z := 0x4A524E4C.
Definition JOURNAL_MAX_BLOCKS : nat := 16.
Definition JOURNAL_START_LBA : Z := 65536.

Record journal := mk_journal { journal_seq : Z; journal_ready : bool; disk_present : bool }.

Record journal_txn := mk_txn {
  target_blocks : list Z;
  block_data : list Z;
  count : nat;
  active : bool
}.

Record journal_header := mk_header {
  magic : Z;
  seq_no : Z;
  block_count : Z;
  committed : Z;
  targets : list Z
}.

#[export] Instance eta_txn : Eta journal_txn := fun t =>
  mk_txn (target_blocks t) (block_data t) (count t) (active t).
#[export] Instance eta_header : Eta journal_header := fun h =>
  mk_header (magic h) (seq_no h) (block_count h) (committed h) (targets h).
#[export] Instance eta_journal : Eta journal := fun j =>
  mk_journal (journal_seq j) (journal_ready j) (disk_present j).

(** ** The header sector *)

Definition header_words (h : journal_header) : list Z :=
  [magic h; seq_no h; block_count h; committed h] ++ targets h.

Definition header_sector (h : journal_header) : sector :=
  mjoin (le_bytes 4 <$> header_words h) ++ replicate (512 - 4 * length (header_words h)) 0.

Definition header_of (b : sector) : journal_header :=
  mk_header (rd32 b 0) (rd32 b 4) (rd32 b 8) (rd32 b 12)
    ((fun i => rd32 b (16 + 4 * i)) <$> seqZ 0 (Z.of_nat JOURNAL_MAX_BLOCKS)).

(** ** Operations *)

Definition journal_init (j : journal) : journal := j <| journal_seq := 0 |> <| journal_ready := true |>.

Definition txn_zero : journal_txn :=
  mk_txn (replicate JOURNAL_MAX_BLOCKS 0) (replicate JOURNAL_MAX_BLOCKS 0) 0 false.

Definition journal_begin (j : journal) (t : journal_txn) : journal_txn * Z :=
  if journal_ready j then (txn_zero <| active := true |>, 0) else (t, -1).

Definition journal_log (t : journal_txn) (block_no data : Z) : journal_txn * Z :=
  if negb (active t) then (t, -1) else
  if (JOURNAL_MAX_BLOCKS <=? count t)%nat then (t, -1) else
  (t <| target_blocks ::= <[count t := block_no]> |> <| block_data ::= <[count t := data]> |>
     <| count ::= S |>, 0).

(** The header of a transaction: unused target entries are zero. *)
Definition txn_header (seq : Z) (t : journal_txn) (c : Z) : journal_header :=
  mk_header JOURNAL_MAGIC seq (Z.of_nat (count t)) c
    (take (count t) (target_blocks t) ++ replicate (JOURNAL_MAX_BLOCKS - count t) 0).

Definition write_header (h : journal_header) : writes := ata_write_sectors JOURNAL_START_LBA 1 (header_sector h).

(** Block [i] of a transaction in the journal area and at its place. *)
Definition log_write (i : nat) (data : list Z) : writes :=
  ata_write_sectors (JOURNAL_START_LBA + 1 + 8 * Z.of_nat i) 8 data.
Definition home_write (block_no : Z) (data : list Z) : writes := ata_write_sectors (u32 (block_no * 8)) 8 data.

Section commit.
Context (mem : Z -> list Z).

Definition log_writes (t : journal_txn) : writes :=
  mjoin ((fun i => log_write i (mem (block_data t !!! i))) <$> seq 0 (count t)).

Definition home_writes (t : journal_txn) : writes :=
  mjoin ((fun i => home_write (target_blocks t !!! i) (mem (block_data t !!! i))) <$> seq 0 (count t)).

(** The sector writes of one commit, in order. *)
Definition commit_writes (seq : Z) (t : journal_txn) : writes :=
  write_header (txn_header seq t 0) ++ log_writes t ++
  write_header (txn_header seq t 1) ++ home_writes t ++ write_header (txn_header seq t 2).

Definition journal_commit (j : journal) (t : journal_txn) : journal * journal_txn * writes * Z :=
  if negb (active t) || (count t =? 0)%nat then (j, t, [], -1) else
  (j <| journal_seq ::= fun n => u32 (n + 1) |>, t <| active := false |>,
   if disk_present j then commit_writes (journal_seq j) t else [], 0).
End commit.

(** Replay: read block [i] from the journal area, write it to its place. *)
Fixpoint recover_loop (n i : nat) (h : journal_header) (d : disk) : writes :=
  match n with
  | O => []
  | S n' =>
      let data := ata_read_sectors (JOURNAL_START_LBA + 1 + 8 * Z.of_nat i) 8 d in
      let ws := home_write (targets h !!! i) data in
      ws ++ recover_loop n' (S i) h (run ws d)
  end.

Definition journal_recover (j : journal) (d : disk) : writes * Z :=
  if negb (journal_ready j) then ([], -1) else
  if negb (disk_present j) then ([], -1) else
  let b := ata_read_sectors JOURNAL_START_LBA 1 d in
  let h := header_of b in
  if negb (magic h =? JOURNAL_MAGIC) then ([], 0) else
  if committed h =? 1 then
    (recover_loop (Nat.min (Z.to_nat (block_count h)) JOURNAL_MAX_BLOCKS) 0 h d
       ++ ata_write_sectors JOURNAL_START_LBA 1 (blit b 12 (le_bytes 4 2)), 1)
  else ([], 0).

(** ** Specification *)

(** Sectors of the journal area; everything else belongs to the file system. *)
Definition in_journal (lba : Z) : Prop := JOURNAL_START_LBA <= lba <= JOURNAL_START_LBA + 128.

Definition fs_eq (d d' : disk) : Prop := forall lba, ~ in_journal lba -> read_sector d lba = read_sector d' lba.

Definition outside (block_no : Z) : Prop := forall i, 0 <= i < 8 -> ~ in_journal (lba28 (u32 (block_no * 8)) + i).

(** The header on disk. *)
Definition disk_header (d : disk) : journal_header := header_of (ata_read_sectors JOURNAL_START_LBA 1 d).

(** Nothing to replay. *)
Definition quiescent (d : disk) : Prop :=
  magic (disk_header d) <> JOURNAL_MAGIC \/ committed (disk_header d) <> 1.

Definition recovered (j : journal) (d : disk) : disk := run (journal_recover j d).1 d.

Record txn_wf (mem : Z -> list Z) (t : journal_txn) : Prop := mk_txn_wf {
  tw_count : (count t <= JOURNAL_MAX_BLOCKS)%nat;
  tw_len : length (target_blocks t) = JOURNAL_MAX_BLOCKS /\ length (block_data t) = JOURNAL_MAX_BLOCKS;
  tw_target : forall i b, target_blocks t !! i = Some b -> 0 <= b < 2 ^ 32;
  tw_outside : forall i b, (i < count t)%nat -> target_blocks t !! i = Some b -> outside b;
  tw_data : forall p, length (mem p) = 4096%nat
}.

(** ** The header sector *)

Definition header_ok (h : journal_header) : Prop :=
  Forall (fun w => 0 <= w < 2 ^ 32) (header_words h) /\ length (targets h) = JOURNAL_MAX_BLOCKS.

Lemma length_header_sector h : header_ok h -> length (header_sector h) = 512%nat.
Proof.
  intros [_ Hl]. unfold header_sector. rewrite length_app, length_words, length_replicate.
  unfold header_words. rewrite length_app, Hl. reflexivity.
Qed.

(** Writing a header and parsing the sector gives the header back. *)
Lemma header_roundtrip h : header_ok h -> header_of (header_sector h) = h.
Proof.
  intros [HF Hl]. unfold header_of, header_sector. set (pad := replicate _ 0). clearbody pad.
  assert (forall k w, header_words h !! k = Some w ->
    rd32 (mjoin (le_bytes 4 <$> header_words h) ++ pad) (4 * Z.of_nat k) = w) as Hrd.
  { intros k w Hk. rewrite (rd32_words _ _ _ w) by done. apply u32_small. by eapply (Forall_lookup_1 _ _ _ _ HF). }
  pose proof (Hrd 0%nat _ eq_refl) as H0. pose proof (Hrd 1%nat _ eq_refl) as H1.
  pose proof (Hrd 2%nat _ eq_refl) as H2. pose proof (Hrd 3%nat _ eq_refl) as H3.
  change (4 * Z.of_nat 0) with 0 in H0. change (4 * Z.of_nat 1) with 4 in H1.
  change (4 * Z.of_nat 2) with 8 in H2. change (4 * Z.of_nat 3) with 12 in H3. rewrite H0, H1, H2, H3. destruct h as [a b c e l]. cbn [targets magic seq_no block_count committed] in *.
  f_equal. apply list_eq. intros i. rewrite list_lookup_fmap. destruct (decide (i < 16)%nat) as [Hi|Hi].
  - change (Z.of_nat JOURNAL_MAX_BLOCKS) with 16. rewrite (lookup_seqZ_lt 0 16 i) by lia. cbn [fmap option_fmap option_map].
    destruct (lookup_lt_is_Some_2 l i) as [w Hw]; [rewrite Hl; done|]. rewrite Hw. f_equal.
    replace (16 + 4 * (0 + Z.of_nat i)) with (4 * Z.of_nat (4 + i)) by lia. by apply Hrd.
  - rewrite lookup_seqZ_ge by (unfold JOURNAL_MAX_BLOCKS; lia). symmetry. apply lookup_ge_None. rewrite Hl. unfold JOURNAL_MAX_BLOCKS. lia.
Qed.

(** ** The header on disk *)

Lemma read_header_sector d : ata_read_sectors JOURNAL_START_LBA 1 d = read_sector d JOURNAL_START_LBA.
Proof.
  unfold ata_read_sectors. change (seqZ 0 (num_sectors 1)) with [0]. cbn [fmap list_fmap mjoin list_join].
  by rewrite app_nil_r.
Qed.

Lemma write_header_eq b : length b = 512%nat -> ata_write_sectors JOURNAL_START_LBA 1 b = [(JOURNAL_START_LBA, b)].
Proof.
  intros Hb. unfold ata_write_sectors. change (seqZ 0 (num_sectors 1)) with [0]. cbn [fmap list_fmap].
  do 2 f_equal. unfold slice. change (Z.to_nat (512 * 0)) with 0%nat. change (Z.to_nat 512) with 512%nat.
  rewrite drop_0, take_ge; [done|]. by rewrite Hb.
Qed.

Lemma disk_header_write h d : header_ok h -> disk_header (run (write_header h) d) = h.
Proof.
  intros Hh. unfold disk_header, write_header. rewrite read_header_sector, write_header_eq by by apply length_header_sector.
  cbn. unfold read_sector. rewrite lookup_insert_eq. by apply header_roundtrip.
Qed.

Lemma disk_header_other ws d : JOURNAL_START_LBA ∉ ws.*1 -> disk_header (run ws d) = disk_header d.
Proof. intros H. unfold disk_header. rewrite !read_header_sector. unfold read_sector. by rewrite run_notin. Qed.

Lemma txn_header_ok mem t s c : txn_wf mem t -> 0 <= s < 2 ^ 32 -> 0 <= c <= 2 -> header_ok (txn_header s t c).
Proof.
  intros [W1 [W2 _] W3 _ _] Hs Hc. unfold JOURNAL_MAX_BLOCKS in *. split.
  - unfold header_words, txn_header. cbn. repeat (constructor; [unfold JOURNAL_MAGIC in *; lia|]).
    apply Forall_app. split; [|apply Forall_replicate; lia].
    apply Forall_take, Forall_lookup. intros i x Hx. by apply (W3 i).
  - cbn. rewrite length_app, length_take, length_replicate, W2. unfold JOURNAL_MAX_BLOCKS. lia.
Qed.

(** ** Where the writes go *)

Lemma elem_write_targets lba n buf x :
  x ∈ (ata_write_sectors lba n buf).*1 <-> exists i, 0 <= i < num_sectors n /\ x = lba28 lba + i.
Proof.
  rewrite write_targets, list_elem_of_fmap. split; intros (i & H1 & H2); exists i.
  - apply elem_of_seqZ in H2. split; [lia|done].
  - split; [done|]. apply elem_of_seqZ. lia.
Qed.

Lemma log_lba i : (i < 16)%nat -> lba28 (JOURNAL_START_LBA + 1 + 8 * Z.of_nat i) = JOURNAL_START_LBA + 1 + 8 * Z.of_nat i.
Proof. intros Hi. unfold lba28, JOURNAL_START_LBA. apply Z.mod_small. lia. Qed.

Lemma elem_log_writes mem t x : (count t <= 16)%nat -> x ∈ (log_writes mem t).*1 ->
  JOURNAL_START_LBA < x /\ in_journal x.
Proof.
  intros Hc Hx. apply list_elem_of_fmap in Hx as (w & -> & Hw).
  apply list_elem_of_join in Hw as (ws & Hw & Hws). apply list_elem_of_fmap in Hws as (i & -> & Hi).
  apply elem_of_seq in Hi. apply (list_elem_of_fmap_2 fst) in Hw. apply elem_write_targets in Hw as (k & Hk & ->).
  rewrite log_lba by lia. change (num_sectors 8) with 8 in Hk. unfold in_journal, JOURNAL_START_LBA. lia.
Qed.

Lemma elem_home_write b data x : outside b -> x ∈ (home_write b data).*1 -> ~ in_journal x.
Proof. intros Ho Hx. apply elem_write_targets in Hx as (k & Hk & ->). by apply Ho. Qed.

Lemma elem_homes (T : nat -> Z) (D : nat -> list Z) n x : (forall i, (i < n)%nat -> outside (T i)) ->
  x ∈ (mjoin ((fun i => home_write (T i) (D i)) <$> seq 0 n)).*1 -> ~ in_journal x.
Proof.
  intros Ho Hx. apply list_elem_of_fmap in Hx as (w & -> & Hw).
  apply list_elem_of_join in Hw as (ws & Hw & Hws). apply list_elem_of_fmap in Hws as (i & -> & Hi).
  apply elem_of_seq in Hi. apply (list_elem_of_fmap_2 fst) in Hw. eapply elem_home_write; [|done]. apply Ho. lia.
Qed.

(** Writes to the journal area do not change the file system, and vice versa. *)
Lemma fs_eq_journal ws d : (forall x, x ∈ ws.*1 -> in_journal x) -> fs_eq (run ws d) d.
Proof.
  intros H l Hl. unfold read_sector. rewrite run_notin; [done|]. intros Hx. by apply Hl, H.
Qed.

Lemma fs_eq_run ws d d' : fs_eq d d' -> fs_eq (run ws d) (run ws d').
Proof.
  intros H l Hl. unfold read_sector. destruct (decide (l ∈ ws.*1)) as [Hin|Hout].
  - by rewrite (run_in ws d d').
  - rewrite !run_notin by done. by apply H.
Qed.

Lemma read_outside ws d i : (i < 16)%nat -> (forall x, x ∈ ws.*1 -> ~ in_journal x \/ x = JOURNAL_START_LBA) ->
  ata_read_sectors (JOURNAL_START_LBA + 1 + 8 * Z.of_nat i) 8 (run ws d)
  = ata_read_sectors (JOURNAL_START_LBA + 1 + 8 * Z.of_nat i) 8 d.
Proof.
  intros Hi Hws. unfold ata_read_sectors. f_equal. apply list_fmap_ext. intros k x Hx.
  apply lookup_seqZ in Hx as [-> Hx]. change (num_sectors 8) with 8 in Hx. unfold read_sector. rewrite run_notin; [done|].
  intros Hin. specialize (Hws _ Hin). rewrite log_lba in Hws by done. unfold in_journal, JOURNAL_START_LBA in Hws. lia.
Qed.

(** ** Replay *)

Lemma recover_loop_spec n i h d :
  (i + n <= 16)%nat -> (forall k, (i <= k < i + n)%nat -> outside (targets h !!! k)) ->
  recover_loop n i h d
  = mjoin ((fun k => home_write (targets h !!! k)
                      (ata_read_sectors (JOURNAL_START_LBA + 1 + 8 * Z.of_nat k) 8 d)) <$> seq i n).
Proof.
  revert i d. induction n as [|n IH]; intros i d Hn Ho; [done|].
  cbn [recover_loop seq fmap list_fmap mjoin list_join]. f_equal. rewrite IH by (lia || (intros; apply Ho; lia)).
  f_equal. apply list_fmap_ext. intros k x Hx. apply lookup_seq in Hx as [-> Hx]. f_equal.
  apply read_outside; [lia|]. intros y Hy. left. eapply elem_home_write; [|done]. apply Ho. lia.
Qed.

(** The mark that ends recovery is one write to the header sector. *)
Lemma mark_target b x : x ∈ (ata_write_sectors JOURNAL_START_LBA 1 b).*1 -> x = JOURNAL_START_LBA.
Proof.
  intros Hx. apply elem_write_targets in Hx as (i & Hi & ->). change (num_sectors 1) with 1 in Hi.
  change (lba28 JOURNAL_START_LBA) with JOURNAL_START_LBA. lia.
Qed.

Lemma in_journal_mark b x : x ∈ (ata_write_sectors JOURNAL_START_LBA 1 b).*1 -> in_journal x.
Proof.
  intros ->%mark_target. unfold in_journal. lia.
Qed.

Lemma recovered_quiescent j d : quiescent d -> recovered j d = d.
Proof.
  intros Hq. unfold recovered, journal_recover. destruct (journal_ready j), (disk_present j); try done. cbn [negb].
  fold (disk_header d). destruct (magic (disk_header d) =? JOURNAL_MAGIC) eqn:E1; [|done]. cbn [negb].
  destruct (committed (disk_header d) =? 1) eqn:E2; [|done]. b2p. destruct Hq; lia.
Qed.

(** What recovery writes for a committed header. *)
Definition replay (h : journal_header) (d : disk) : writes :=
  mjoin ((fun k => home_write (targets h !!! k)
                    (ata_read_sectors (JOURNAL_START_LBA + 1 + 8 * Z.of_nat k) 8 d))
         <$> seq 0 (Nat.min (Z.to_nat (block_count h)) JOURNAL_MAX_BLOCKS)).

Definition replayable (j : journal) (d : disk) : Prop :=
  journal_ready j = true /\ disk_present j = true /\ magic (disk_header d) = JOURNAL_MAGIC /\
  committed (disk_header d) = 1 /\
  forall k, (k < Nat.min (Z.to_nat (block_count (disk_header d))) JOURNAL_MAX_BLOCKS)%nat ->
    outside (targets (disk_header d) !!! k).

Definition mark_applied (d : disk) : writes :=
  ata_write_sectors JOURNAL_START_LBA 1 (blit (ata_read_sectors JOURNAL_START_LBA 1 d) 12 (le_bytes 4 2)).

Lemma recover_writes j d : replayable j d ->
  (journal_recover j d).1 = replay (disk_header d) d ++ mark_applied d.
Proof.
  intros (Hj & Hp & Hm & Hc & Ho). unfold journal_recover. rewrite Hj, Hp. cbn [negb].
  fold (disk_header d). rewrite Hm, Hc. rewrite !Z.eqb_refl. cbn [negb fst]. rewrite recover_loop_spec; [done| |].
  - unfold JOURNAL_MAX_BLOCKS. lia.
  - intros k Hk. apply Ho. lia.
Qed.

Lemma recovered_replay j d : replayable j d -> fs_eq (recovered j d) (run (replay (disk_header d) d) d).
Proof.
  intros H. unfold recovered. rewrite (recover_writes j d H), run_app.
  apply fs_eq_journal, in_journal_mark.
Qed.

(** ** Crash safety *)

(** The log area after the log writes. *)
Lemma log_read (D : nat -> list Z) n d i : (i < n <= 16)%nat -> (forall k, length (D k) = 4096%nat) ->
  ata_read_sectors (JOURNAL_START_LBA + 1 + 8 * Z.of_nat i) 8
    (run (mjoin ((fun k => log_write k (D k)) <$> seq 0 n)) d) = D i.
Proof.
  intros Hi Hl. apply read_back; [done|by rewrite Hl|]. intros s Hs. change (num_sectors 8) with 8 in Hs.
  revert Hi. induction n as [|n IH]; intros Hi; [lia|].
  rewrite seq_S, fmap_app, join_app, run_app. cbn [fmap list_fmap mjoin list_join]. rewrite app_nil_r.
  destruct (decide (i = n)) as [->|Hne]; [by apply run_write|].
  rewrite <- IH by lia. unfold read_sector. rewrite run_notin; [done|]. intros Hx.
  apply elem_write_targets in Hx as (s' & Hs' & E). change (num_sectors 8) with 8 in Hs'.
  simpl Nat.add in E. rewrite !log_lba in E by lia. lia.
Qed.

Lemma take_app_cases {A} k (X Y : list A) :
  take k (X ++ Y) = take k X \/ exists m, take k (X ++ Y) = X ++ take m Y.
Proof.
  destruct (decide (k <= length X)%nat); [left; by apply take_app_le|right].
  exists (k - length X)%nat. rewrite take_app, (take_ge X) by lia. done.
Qed.

Lemma elem_take_targets k (ws : writes) x : x ∈ (take k ws).*1 -> x ∈ ws.*1.
Proof.
  rewrite fmap_take. intros (i & Hi & _)%elem_of_take. by eapply list_elem_of_lookup_2.
Qed.

Section crash.
Context (mem : Z -> list Z) (j : journal) (t : journal_txn) (d : disk) (s : Z).
Hypothesis (Hj : journal_ready j = true) (Hp : disk_present j = true) (Ht : txn_wf mem t) (Hs : 0 <= s < 2 ^ 32).

Let A := write_header (txn_header s t 0).
Let B := log_writes mem t.
Let C := write_header (txn_header s t 1).
Let D := home_writes mem t.
Let E := write_header (txn_header s t 2).

Lemma target_outside i : (i < count t)%nat -> outside (target_blocks t !!! i).
Proof.
  intros Hi. destruct (lookup_lt_is_Some_2 (target_blocks t) i) as [b Hb].
  { rewrite (proj1 (tw_len _ _ Ht)). pose proof (tw_count _ _ Ht). lia. }
  rewrite (list_lookup_total_correct _ _ _ Hb). by apply (tw_outside _ _ Ht i).
Qed.

Lemma homes_outside x : x ∈ D.*1 -> ~ in_journal x.
Proof. apply (elem_homes (fun i => target_blocks t !!! i)), target_outside. Qed.

Lemma prepare_journal x : x ∈ (A ++ B).*1 -> in_journal x.
Proof.
  rewrite fmap_app. intros [Hx|Hx]%elem_of_app; [by apply in_journal_mark in Hx|].
  by destruct (elem_log_writes _ _ _ (tw_count _ _ Ht) Hx).
Qed.

Lemma start_not_log x : x ∈ B.*1 -> x <> JOURNAL_START_LBA.
Proof. intros Hx. apply elem_log_writes in Hx; [|apply Ht]. lia. Qed.

(** Before the commit mark: nothing to replay, the file system is the old one. *)
Lemma crash_before k : quiescent d -> fs_eq (recovered j (run (take k (A ++ B)) d)) d.
Proof.
  intros Hq. assert (fs_eq (run (take k (A ++ B)) d) d) as Hfs.
  { apply fs_eq_journal. intros x Hx. apply prepare_journal. by eapply elem_take_targets. }
  rewrite recovered_quiescent; [done|].
  assert (A = [(JOURNAL_START_LBA, header_sector (txn_header s t 0))]) as EA
    by (apply write_header_eq, length_header_sector; by eapply txn_header_ok).
  destruct k as [|k]; [done|]. rewrite EA. cbn [app take].
  change (_ :: take k B) with ([(JOURNAL_START_LBA, header_sector (txn_header s t 0))] ++ take k B).
  rewrite <- EA, run_app. right. rewrite disk_header_other.
  - unfold A. rewrite disk_header_write; [done|by eapply txn_header_ok].
  - intros Hx. by apply elem_take_targets, start_not_log in Hx.
Qed.

(** After it: whatever part of the home writes was done, replay completes them. *)
Lemma crash_after m : fs_eq (recovered j (run (take m D) (run (A ++ B ++ C) d))) (run D d).
Proof.
  set (X := run (A ++ B ++ C) d). assert (forall x, x ∈ (take m D).*1 -> ~ in_journal x) as Ho
    by (intros x Hx; apply homes_outside; by eapply elem_take_targets).
  assert (header_ok (txn_header s t 1)) as Hok by by eapply txn_header_ok.
  assert (disk_header (run (take m D) X) = txn_header s t 1) as Hh.
  { rewrite disk_header_other; [|intros Hx; apply (Ho _ Hx); by vm_compute]. unfold X.
    rewrite app_assoc, run_app. by apply disk_header_write. }
  assert (Nat.min (Z.to_nat (block_count (txn_header s t 1))) JOURNAL_MAX_BLOCKS = count t) as Hn
    by (cbn; pose proof (tw_count _ _ Ht); lia).
  assert (forall k, (k < count t)%nat -> targets (txn_header s t 1) !!! k = target_blocks t !!! k) as Htg.
  { intros k Hk. cbn. pose proof (tw_count _ _ Ht). pose proof (proj1 (tw_len _ _ Ht)).
    rewrite !list_lookup_total_alt, lookup_app_l, lookup_take_lt by (rewrite ?length_take; lia). done. }
  assert (replay (txn_header s t 1) (run (take m D) X) = D) as Hr.
  { unfold replay. rewrite Hn. unfold D, home_writes. f_equal. apply list_fmap_ext. intros k y Hy.
    apply lookup_seq in Hy as [-> Hy]. simpl Nat.add. rewrite Htg by done. f_equal.
    pose proof (tw_count _ _ Ht). unfold JOURNAL_MAX_BLOCKS in *.
    rewrite read_outside by (lia || (intros x Hx; left; by apply Ho)). unfold X. rewrite app_assoc, run_app.
    rewrite read_outside by (lia || (intros x Hx; right; by apply mark_target in Hx)). rewrite run_app.
    apply (log_read (fun k => mem (block_data t !!! k))); [lia|]. intros i. apply Ht. }
  assert (replayable j (run (take m D) X)) as Hrep.
  { unfold replayable. rewrite Hh, Hn. split_and!; [done..|]. intros k Hk. rewrite Htg by done.
    by apply target_outside. }
  intros l Hl. rewrite (recovered_replay _ _ Hrep l Hl), Hh, Hr, run_again. apply (fs_eq_run D X d); [|done].
  unfold X. apply fs_eq_journal. intros x Hx. rewrite app_assoc, fmap_app in Hx.
  apply elem_of_app in Hx as [Hx|Hx]; [by apply prepare_journal|by apply in_journal_mark in Hx].
Qed.

Lemma commit_fs_done : fs_eq (recovered j (run (commit_writes mem s t) d)) (run D d).
Proof.
  unfold commit_writes. fold A B C D E. rewrite !app_assoc, run_app.
  rewrite recovered_quiescent.
  - intros l Hl. rewrite (fs_eq_journal E); [|by apply in_journal_mark|done].
    rewrite <- !app_assoc, !run_app. revert l Hl. apply fs_eq_run. rewrite <- !run_app.
    apply fs_eq_journal. intros x Hx. rewrite app_assoc, fmap_app in Hx.
    apply elem_of_app in Hx as [Hx|Hx]; [by apply prepare_journal|by apply in_journal_mark in Hx].
  - right. unfold E. rewrite disk_header_write; [done|by eapply txn_header_ok].
Qed.
End crash.

Lemma commit_issues mem j t : active t = true -> count t <> 0%nat -> disk_present j = true ->
  (journal_commit mem j t).1.2 = commit_writes mem (journal_seq j) t.
Proof.
  intros Ha Hc Hp. unfold journal_commit. rewrite Ha, Hp. by destruct (Nat.eqb_spec (count t) 0).
Qed.

Lemma take_header m h ws : header_ok h ->
  take m (write_header h ++ ws) = [] \/ exists n, take m (write_header h ++ ws) = write_header h ++ take n ws.
Proof.
  intros Hh. unfold write_header. rewrite write_header_eq by by apply length_header_sector.
  destruct m as [|m]; [by left|right]. by exists m.
Qed.

Lemma recover_cases j d : journal_ready j = true -> disk_present j = true ->
  (forall i, (i < Nat.min (Z.to_nat (block_count (disk_header d))) JOURNAL_MAX_BLOCKS)%nat ->
     outside (targets (disk_header d) !!! i)) ->
  (journal_recover j d).1 = [] \/ replayable j d.
Proof.
  intros Hj Hp Ho. unfold replayable, journal_recover. rewrite Hj, Hp. cbn [negb]. fold (disk_header d).
  destruct (Z.eqb_spec (magic (disk_header d)) JOURNAL_MAGIC); cbn [negb]; [|by left].
  destruct (Z.eqb_spec (committed (disk_header d)) 1); [by right|by left].
Qed.

Lemma length_mark d : length (read_sector d JOURNAL_START_LBA) = 512%nat ->
  length (blit (ata_read_sectors JOURNAL_START_LBA 1 d) 12 (le_bytes 4 2)) = 512%nat.
Proof.
  intros Hl. rewrite read_header_sector, length_blit; [done|lia|]. rewrite Hl, length_le_bytes. lia.
Qed.

(** The replayed transaction is marked as applied. *)
Lemma mark_quiescent d d' : length (read_sector d JOURNAL_START_LBA) = 512%nat -> quiescent (run (mark_applied d) d').
Proof.
  intros Hl. right. unfold mark_applied, disk_header.
  rewrite read_header_sector, write_header_eq by by apply length_mark. cbn [run foldl]. unfold read_sector at 1.
  cbn [fst snd]. rewrite lookup_insert_eq. cbn [default from_option id]. cbn [committed header_of].
  rewrite rd32_blit; [done|lia|]. rewrite read_header_sector, Hl. lia.
Qed.

(** A replay on top of part of itself. *)
Lemma replay_again j d k : replayable j d ->
  fs_eq (recovered j (run (take k (replay (disk_header d) d)) d)) (run (replay (disk_header d) d) d).
Proof.
  intros Hr. destruct Hr as (Hj & Hp & Hm & Hc & Ho). set (ws := replay (disk_header d) d).
  assert (forall x, x ∈ (take k ws).*1 -> ~ in_journal x) as Hout.
  { intros x Hx%elem_take_targets. by apply elem_homes in Hx. }
  assert (disk_header (run (take k ws) d) = disk_header d) as Hh
    by (apply disk_header_other; intros Hx; apply (Hout _ Hx); by vm_compute).
  assert (replay (disk_header d) (run (take k ws) d) = ws) as Hw.
  { unfold ws, replay. f_equal. apply list_fmap_ext. intros i x Hx. apply lookup_seq in Hx as [-> Hx]. f_equal.
    apply read_outside; [unfold JOURNAL_MAX_BLOCKS in Hx; lia|]. intros y Hy. left. by apply Hout. }
  intros l Hln. rewrite recovered_replay by (try done; unfold replayable; by rewrite Hh).
  rewrite Hh, Hw, run_again. done.
Qed.

(** C1: a transaction is atomic with respect to crashes.  Whatever prefix of the
    sector writes of a commit reached the disk, recovery leaves the file system
    either as it was or with every block of the transaction in place. *)
Theorem journal_crash_atomic mem j t d k :
  journal_ready j = true -> disk_present j = true -> 0 <= journal_seq j < 2 ^ 32 -> txn_wf mem t ->
  active t = true -> count t <> 0%nat -> quiescent d ->
  let ws := (journal_commit mem j t).1.2 in
  let d' := recovered j (run (take k ws) d) in
  fs_eq d' d \/ fs_eq d' (run (home_writes mem t) d).
Proof.
  intros Hj Hp Hs Ht Ha Hc Hq. cbv zeta. rewrite commit_issues by done. set (q := journal_seq j) in *.
  destruct (take_app_cases k (write_header (txn_header q t 0) ++ log_writes mem t)
    (write_header (txn_header q t 1) ++ home_writes mem t ++ write_header (txn_header q t 2)))
    as [E|[m E]]; unfold commit_writes; rewrite app_assoc, E; [left; by apply crash_before|]. clear E.
  destruct (take_header m (txn_header q t 1) (home_writes mem t ++ write_header (txn_header q t 2))) as [E|[n E]];
    [by eapply txn_header_ok|..]; rewrite E.
  - left. rewrite app_nil_r, <- (take_ge (_ ++ _) (length (write_header (txn_header q t 0) ++ log_writes mem t))) by done.
    by apply crash_before.
  - right. clear E. destruct (take_app_cases n (home_writes mem t) (write_header (txn_header q t 2))) as [E|[i E]]; rewrite E.
    + rewrite app_assoc, run_app, <- app_assoc. by apply crash_after.
    + destruct (take_header i (txn_header q t 2) []) as [E'|[o E']]; [by eapply txn_header_ok|..];
        rewrite app_nil_r in E'; rewrite E'.
      * rewrite app_nil_r, app_assoc, run_app, <- app_assoc.
        pose proof (crash_after mem j t d q Hj Hp Ht Hs (length (home_writes mem t))) as H.
        by rewrite take_ge in H.
      * rewrite take_nil, app_nil_r, <- app_assoc. by apply commit_fs_done.
Qed.

(** Once commit has returned, the transaction is durable: the file system holds
    all its blocks, also after any later recovery. *)
Theorem journal_commit_durable mem j t d :
  journal_ready j = true -> disk_present j = true -> 0 <= journal_seq j < 2 ^ 32 -> txn_wf mem t ->
  active t = true -> count t <> 0%nat -> quiescent d ->
  let '(j', t', ws, r) := journal_commit mem j t in
  r = 0 /\ active t' = false /\ quiescent (run ws d) /\
  fs_eq (run ws d) (run (home_writes mem t) d) /\ fs_eq (recovered j' (run ws d)) (run (home_writes mem t) d).
Proof.
  intros Hj Hp Hs Ht Ha Hc Hq. pose proof (commit_issues mem j t Ha Hc Hp) as E.
  unfold journal_commit in *. rewrite Ha, Hp in *. destruct (Nat.eqb_spec (count t) 0); [done|]. cbn [negb orb fst snd] in *.
  assert (quiescent (run (commit_writes mem (journal_seq j) t) d)) as Hq'.
  { right. unfold commit_writes. rewrite !app_assoc, run_app, disk_header_write; [done|by eapply txn_header_ok]. }
  pose proof (commit_fs_done mem j t d (journal_seq j) Ht Hs) as Hd.
  split_and!; [done|done|done| |]; [by rewrite recovered_quiescent in Hd|].
  rewrite recovered_quiescent by done. by rewrite recovered_quiescent in Hd.
Qed.

(** Recovery can itself be interrupted: after a crash in the middle of a
    replay, running it again gives the file system the first run would have given. *)
Theorem journal_recover_restartable j d k :
  journal_ready j = true -> disk_present j = true -> length (read_sector d JOURNAL_START_LBA) = 512%nat ->
  (forall i, (i < Nat.min (Z.to_nat (block_count (disk_header d))) JOURNAL_MAX_BLOCKS)%nat ->
     outside (targets (disk_header d) !!! i)) ->
  fs_eq (recovered j (run (take k (journal_recover j d).1) d)) (recovered j d).
Proof.
  intros Hj Hp Hl Ho. destruct (recover_cases j d Hj Hp Ho) as [E|Hr]; [by rewrite E, take_nil|].
  pose proof (recovered_replay j d Hr) as Hd. rewrite (recover_writes j d Hr).
  destruct (take_app_cases k (replay (disk_header d) d) (mark_applied d)) as [->|[m ->]].
  - intros l Hln. rewrite Hd by done. by apply replay_again.
  - rewrite run_app. destruct m as [|m].
    + intros l Hln. rewrite Hd by done. cbn [take].
      rewrite <- (take_ge (replay (disk_header d) d) (length (replay (disk_header d) d))) at 1 by done. by apply replay_again.
    + rewrite take_ge by (unfold mark_applied; rewrite write_header_eq; [simpl; lia|by apply length_mark]).
      rewrite recovered_quiescent by by apply mark_quiescent.
      intros l Hln. rewrite Hd by done. apply fs_eq_journal; [|done]. intros x. apply in_journal_mark.
Qed.

(** ** A concrete transaction: one block, written to block 5 *)

Definition demo_journal : journal := mk_journal 7 true true.
Definition demo_mem (p : Z) : list Z := replicate 4096 (u8 p).
Definition demo_txn : journal_txn := (journal_log (journal_begin demo_journal txn_zero).1 5 200).1.

(** The disk after a crash right behind the commit mark. *)
Definition demo_crashed : disk := run (take 10 (journal_commit demo_mem demo_journal demo_txn).1.2) ∅.

Lemma outside_5 : outside 5.
Proof. intros i Hi. change (lba28 (u32 (5 * 8))) with 40. unfold in_journal, JOURNAL_START_LBA. lia. Qed.

Lemma demo_txn_wf : txn_wf demo_mem demo_txn.
Proof.
  constructor.
  - vm_compute. lia.
  - done.
  - intros i b Hb. do 16 (destruct i as [|i]; [by injection Hb as <-|]). done.
  - intros i b Hi Hb. assert (i = 0%nat) as -> by (vm_compute in Hi; lia). injection Hb as <-. apply outside_5.
  - intros p. apply length_replicate.
Qed.

Lemma demo_quiescent : quiescent ∅.
Proof. left. by vm_compute. Qed.

Lemma journal_crash_atomic_witness :
  fs_eq (recovered demo_journal demo_crashed) ∅ \/
  fs_eq (recovered demo_journal demo_crashed) (run (home_writes demo_mem demo_txn) ∅).
Proof.
  exact (journal_crash_atomic demo_mem demo_journal demo_txn ∅ 10 eq_refl eq_refl ltac:(done) demo_txn_wf
    eq_refl ltac:(done) demo_quiescent).
Defined.

Lemma journal_commit_durable_witness :
  quiescent (run (journal_commit demo_mem demo_journal demo_txn).1.2 ∅).
Proof.
  pose proof (journal_commit_durable demo_mem demo_journal demo_txn ∅ eq_refl eq_refl ltac:(done) demo_txn_wf
    eq_refl ltac:(done) demo_quiescent) as H.
  destruct (journal_commit _ _ _) as [[[j' t'] ws] r]. destruct H as (_ & _ & H & _). exact H.
Defined.

Lemma journal_recover_restartable_witness :
  fs_eq (recovered demo_journal (run (take 3 (journal_recover demo_journal demo_crashed).1) demo_crashed))
    (recovered demo_journal demo_crashed).
Proof.
  apply (journal_recover_restartable demo_journal demo_crashed 3 eq_refl eq_refl); [by vm_compute|].
  intros i Hi. assert (i = 0%nat) as -> by (vm_compute in Hi; lia).
  replace (targets (disk_header demo_crashed) !!! 0%nat) with 5 by by vm_compute. apply outside_5.
Defined.

End Journal.
