(* ===== verification/BlockCache.v ===== *)
(** * The block cache (drivers/blockcache.c, blockcache.h)

    Cached blocks with their hash chains, least-recently-used eviction with
    write-back, and the disk behind them.  A pointer to an entry is its index in
    [cache]; [data] is the address of its buffer (0 when the allocation failed)
    and [buf] the buffer's bytes. *)

From stdpp Require Import prelude gmap.
From Stdlib Require Import ZArith Lia.
From S2P Require Import Prelude Kheap Disk.
Import Disk.
Local Open Scope Z_scope.

Module BlockCache.

Definition BCACHE_SIZE : nat := 256.
Definition BCACHE_HASH_SIZE : Z := 64.

Record bcache_entry := mk_entry {
  block_no : Z;
  data : Z;
  buf : list Z;
  dirty : bool;
  valid : bool;
  in_use : bool;
  refcount : Z;
  lru_tick : Z;
  hash_next : option nat
}.

#[export] Instance eta_entry : Eta bcache_entry := fun e =>
  mk_entry (block_no e) (data e) (buf e) (dirty e) (valid e) (in_use e) (refcount e) (lru_tick e) (hash_next e).

Definition entry_zero : bcache_entry := mk_entry 0 0 (replicate 4096 0) false false false 0 0 None.

#[export] Instance entry_inhabited : Inhabited bcache_entry := populate entry_zero.

Record bcache := mk_bcache {
  cache : list bcache_entry;
  hash_table : list (option nat);
  bcache_ready : bool;
  cache_hits : Z;
  cache_misses : Z;
  cached_block_size : Z;
  dsk : disk;
  present : bool
}.

#[export] Instance eta_bcache : Eta bcache := fun c =>
  mk_bcache (cache c) (hash_table c) (bcache_ready c) (cache_hits c) (cache_misses c) (cached_block_size c)
    (dsk c) (present c).

Definition ent (c : bcache) (i : nat) : bcache_entry := cache c !!! i.
Definition set_ent (i : nat) (f : bcache_entry -> bcache_entry) (c : bcache) : bcache := c <| cache ::= alter f i |>.

Definition hash_fn (block : Z) : Z := block mod BCACHE_HASH_SIZE.

(** One buffer from the heap for each entry, until one is refused. *)
Fixpoint init_buffers (n : nat) (i : nat) (h : Kheap.kheap) (c : bcache) : Kheap.kheap * bcache :=
  match n with
  | O => (h, c)
  | S n' =>
      let '(h, p) := Kheap.kmalloc 4096 h in
      let c := set_ent i (fun e => e <| data := p |>) c in
      if p =? 0 then (h, c) else init_buffers n' (S i) h c
  end.

Definition bcache_init (h : Kheap.kheap) (c : bcache) : Kheap.kheap * bcache :=
  let c := c <| cache := replicate BCACHE_SIZE entry_zero |> <| hash_table := replicate 64 None |> in
  let '(h, c) := init_buffers BCACHE_SIZE 0 h c in
  (h, c <| bcache_ready := true |>).

Definition bcache_set_block_size (bs : Z) (c : bcache) : bcache := c <| cached_block_size := bs |>.

Definition sectors_per_block (c : bcache) : Z := cached_block_size c / 512.

(** The block's bytes, or [None] without a disk. *)
Definition bcache_disk_read (b : Z) (c : bcache) : option (list Z) :=
  if present c then Some (ata_read_sectors (u32 (b * sectors_per_block c)) (u8 (sectors_per_block c)) (dsk c)) else None.

Definition bcache_disk_write (b : Z) (bytes : list Z) (c : bcache) : bcache :=
  if present c
  then c <| dsk ::= run (ata_write_sectors (u32 (b * sectors_per_block c)) (u8 (sectors_per_block c)) bytes) |>
  else c.

(** ** Hash chains *)

Fixpoint find_from (fuel : nat) (b : Z) (e : option nat) (c : bcache) : option nat :=
  match fuel, e with
  | S fuel', Some i => if valid (ent c i) && (block_no (ent c i) =? b) then Some i
                       else find_from fuel' b (hash_next (ent c i)) c
  | _, _ => None
  end.

Definition chain_fuel (c : bcache) : nat := S (length (cache c)).

Definition bcache_hash_find (b : Z) (c : bcache) : option nat :=
  find_from (chain_fuel c) b (zget (hash_table c) (hash_fn b)) c.

(** The walk from the link of [p] to the link that points to [i]. *)
Fixpoint unlink (fuel : nat) (i p : nat) (c : bcache) : bcache :=
  match fuel, hash_next (ent c p) with
  | S fuel', Some q =>
      if (q =? i)%nat
      then set_ent i (fun e => e <| hash_next := None |>) (set_ent p (fun e => e <| hash_next := hash_next (ent c i) |>) c)
      else unlink fuel' i q c
  | _, _ => c
  end.

Definition bcache_hash_remove (i : nat) (c : bcache) : bcache :=
  let h := hash_fn (block_no (ent c i)) in
  match zget (hash_table c) h with
  | None => c
  | Some q =>
      if (q =? i)%nat
      then set_ent i (fun e => e <| hash_next := None |>) (c <| hash_table ::= fun t => zset t h (hash_next (ent c i)) |>)
      else unlink (chain_fuel c) i q c
  end.

Definition bcache_hash_insert (i : nat) (c : bcache) : bcache :=
  let h := hash_fn (block_no (ent c i)) in
  (set_ent i (fun e => e <| hash_next := zget (hash_table c) h |>) c) <| hash_table ::= fun t => zset t h (Some i) |>.

(** ** Eviction *)

(** [if (e.lru_tick < best_tick) { best_tick = e.lru_tick; best = e; }] *)
Definition older (i : nat) (e : bcache_entry) (best : option nat * Z) : option nat * Z :=
  if lru_tick e <? best.2 then (Some i, lru_tick e) else best.

(** First pass: an unused slot ([inl]), or the oldest clean unpinned entry. *)
Fixpoint clean_pass (l : list bcache_entry) (i : nat) (best : option nat * Z) : nat + option nat * Z :=
  match l with
  | [] => inr best
  | e :: l' =>
      if data e =? 0 then clean_pass l' (S i) best
      else if negb (valid e) then inl i
      else clean_pass l' (S i) (if (refcount e =? 0) && negb (dirty e) then older i e best else best)
  end.

(** Second pass: the oldest unpinned entry. *)
Fixpoint any_pass (l : list bcache_entry) (i : nat) (best : option nat * Z) : option nat * Z :=
  match l with
  | [] => best
  | e :: l' =>
      any_pass l' (S i) (if (data e =? 0) || negb (valid e) then best
                         else if refcount e =? 0 then older i e best else best)
  end.

Definition drop_entry (i : nat) (c : bcache) : bcache :=
  set_ent i (fun e => e <| valid := false |>) (bcache_hash_remove i c).

(** Write back an entry that differs from the disk. *)
Definition write_back (i : nat) (c : bcache) : bcache :=
  if dirty (ent c i)
  then set_ent i (fun e => e <| dirty := false |>) (bcache_disk_write (block_no (ent c i)) (buf (ent c i)) c)
  else c.

Definition bcache_evict (c : bcache) : bcache * option nat :=
  match clean_pass (cache c) 0 (None, 0xFFFFFFFF) with
  | inl i => (c, Some i)
  | inr (Some i, _) => (drop_entry i c, Some i)
  | inr (None, tick) =>
      match any_pass (cache c) 0 (None, tick) with
      | (Some i, _) => (drop_entry i (write_back i c), Some i)
      | (None, _) => (c, None)
      end
  end.

(** ** Interface *)

Definition bcache_get (now b : Z) (c : bcache) : bcache * option nat :=
  if negb (bcache_ready c) then (c, None) else
  match bcache_hash_find b c with
  | Some i =>
      ((set_ent i (fun e => e <| refcount ::= fun r => u32 (r + 1) |> <| lru_tick := u32 now |>) c)
         <| cache_hits ::= fun x => u64 (x + 1) |>, Some i)
  | None =>
      let c := c <| cache_misses ::= fun x => u64 (x + 1) |> in
      let '(c, e) := bcache_evict c in
      match e with
      | None => (c, None)
      | Some i =>
          let c := set_ent i (fun e => e <| block_no := b |> <| dirty := false |> <| refcount := 1 |>
                                         <| lru_tick := u32 now |>) c in
          match bcache_disk_read b c with
          | None => (set_ent i (fun e => e <| valid := false |>) c, None)
          | Some bytes =>
              let c := set_ent i (fun e => e <| buf ::= fun d => blit d 0 bytes |> <| valid := true |> <| in_use := true |>) c in
              (bcache_hash_insert i c, Some i)
          end
      end
  end.

Definition bcache_release (i : nat) (c : bcache) : bcache :=
  if 0 <? refcount (ent c i) then set_ent i (fun e => e <| refcount ::= fun r => r - 1 |>) c else c.

Definition bcache_mark_dirty (i : nat) (c : bcache) : bcache := set_ent i (fun e => e <| dirty := true |>) c.

Definition sync_entry (i : nat) (c : bcache) : bcache := if valid (ent c i) then write_back i c else c.

Definition bcache_sync (c : bcache) : bcache :=
  if negb (bcache_ready c) then c else for_loop (length (cache c)) 0 sync_entry c.

(** ** What a client sees *)

(** A client that holds an entry writes its buffer and marks it. *)
Definition client_write (i : nat) (bytes : list Z) (c : bcache) : bcache :=
  bcache_mark_dirty i (set_ent i (fun e => e <| buf := bytes |>) c).

Definition disk_block (c : bcache) (b : Z) : list Z :=
  ata_read_sectors (u32 (b * sectors_per_block c)) (u8 (sectors_per_block c)) (dsk c).

Definition holds (b : Z) (e : bcache_entry) : bool := valid e && (block_no e =? b).

(** The contents of block [b]: its entry if it is cached, else the disk. *)
Definition view (c : bcache) (b : Z) : list Z :=
  match find_index (holds b) (cache c) with
  | Some i => take (Z.to_nat (cached_block_size c)) (buf (ent c i))
  | None => disk_block c b
  end.

(** A linked list through [nx]. *)
Fixpoint linked (nx : nat -> option nat) (h : option nat) (l : list nat) : Prop :=
  match l with
  | [] => h = None
  | i :: l' => h = Some i /\ linked nx (nx i) l'
  end.

Definition links (c : bcache) (i : nat) : option nat := hash_next (ent c i).

(** [l] is the chain of bucket [h]: exactly the valid entries that hash to it. *)
Definition bucket (c : bcache) (h : Z) (l : list nat) : Prop :=
  linked (links c) (zget (hash_table c) h) l /\ NoDup l /\
  forall i, i ∈ l <-> exists e, cache c !! i = Some e /\ valid e = true /\ hash_fn (block_no e) = h.

Record cache_inv (c : bcache) : Prop := mk_cache_inv {
  ci_table : length (hash_table c) = 64%nat;
  ci_size : exists n, 1 <= n <= 8 /\ cached_block_size c = 512 * n;
  ci_bucket : forall h, 0 <= h < 64 -> exists l, bucket c h l;
  ci_entry : forall i e, cache c !! i = Some e -> valid e = true ->
    data e <> 0 /\ 0 <= block_no e < 2 ^ 25 /\ length (buf e) = 4096%nat /\
    (dirty e = false -> take (Z.to_nat (cached_block_size c)) (buf e) = disk_block c (block_no e));
  ci_uniq : forall i j e f, cache c !! i = Some e -> cache c !! j = Some f -> valid e = true -> valid f = true ->
    block_no e = block_no f -> i = j;
  ci_buf : forall i e, cache c !! i = Some e -> length (buf e) = 4096%nat;
  ci_disk : forall lba s, dsk c !! lba = Some s -> length s = 512%nat;
  ci_present : present c = true
}.

(** Same entries but for the links, same everything else but the table. *)
Definition no_link (e : bcache_entry) : bcache_entry := e <| hash_next := None |>.

Definition relinked (c c' : bcache) : Prop :=
  no_link <$> cache c' = no_link <$> cache c /\ length (hash_table c') = length (hash_table c) /\
  c' = c <| cache := cache c' |> <| hash_table := hash_table c' |>.

(** What [c'] may differ from [c] in when entry [i] is worked on: [i] itself and
    the links of the others. *)
Definition only (i : nat) (c c' : bcache) : Prop :=
  length (cache c') = length (cache c) /\ cached_block_size c' = cached_block_size c /\ present c' = present c /\
  bcache_ready c' = bcache_ready c /\
  forall j e', j <> i -> cache c' !! j = Some e' -> exists e, cache c !! j = Some e /\ no_link e' = no_link e.

(** The blocks a client sees are the same. *)
Definition same_view (c c' : bcache) : Prop := forall b, 0 <= b < 2 ^ 25 -> view c' b = view c b.

Definition without (i : nat) (l : list nat) : list nat := filter (fun j => j <> i) l.

(** The links after [i], whose predecessor is [pr], is taken out. *)
Definition skip (nx : nat -> option nat) (i pr j : nat) : option nat :=
  if decide (j = i) then None else if decide (j = pr) then nx i else nx j.

(** Entries the two passes of [bcache_evict] may choose. *)
Definition idle (e : bcache_entry) : bool := negb (data e =? 0) && valid e && (refcount e =? 0).
Definition idle_clean (e : bcache_entry) : bool := idle e && negb (dirty e).

(** [r] is the oldest entry of [l] (numbered from [i0]) among those in [q] and
    older than [best]. *)
Definition oldest (q : bcache_entry -> bool) (l : list bcache_entry) (i0 : nat) (best r : option nat * Z) : Prop :=
  r.2 <= best.2 /\ (forall e, e ∈ l -> q e = true -> r.2 <= lru_tick e) /\
  (r = best \/ exists j e, l !! j = Some e /\ r = (Some (i0 + j)%nat, lru_tick e) /\ q e = true).

(** ** Histories of a client *)

(** The entries a client holds, with the blocks it asked for. *)
Definition handles := list (nat * Z).

Definition pins (i : nat) (hs : handles) : Z := countb (fun h => (h.1 =? i)%nat) hs.

(** One call of a client, with the block it changes. *)
Inductive cache_step : bcache * handles -> option (Z * list Z) -> bcache * handles -> Prop :=
| step_get now b c hs c' i : 0 <= b < 2 ^ 25 -> Z.of_nat (length hs) + 1 < 2 ^ 32 -> bcache_get now b c = (c', Some i) ->
    cache_step (c, hs) None (c', (i, b) :: hs)
| step_get_fails now b c hs c' : 0 <= b < 2 ^ 25 -> bcache_get now b c = (c', None) -> cache_step (c, hs) None (c', hs)
| step_release c i b hs1 hs2 : cache_step (c, hs1 ++ (i, b) :: hs2) None (bcache_release i c, hs1 ++ hs2)
| step_write c i b hs bytes : (i, b) ∈ hs -> length bytes = 4096%nat ->
    cache_step (c, hs) (Some (b, take (Z.to_nat (cached_block_size c)) bytes)) (client_write i bytes c, hs)
| step_sync c hs : cache_step (c, hs) None (bcache_sync c, hs).

Inductive cache_steps : bcache * handles -> list (Z * list Z) -> bcache * handles -> Prop :=
| steps_nil s : cache_steps s [] s
| steps_snoc s ws s' w s'' : cache_steps s ws s' -> cache_step s' w s'' -> cache_steps s (ws ++ option_list w) s''.

(** The block store the cache stands for: the last write to the block, else
    what it was. *)
Definition store (m : Z -> list Z) (ws : list (Z * list Z)) (b : Z) : list Z :=
  foldl (fun v w => if w.1 =? b then w.2 else v) (m b) ws.

Record client_inv (c : bcache) (hs : handles) : Prop := mk_client_inv {
  cl_cache : cache_inv c;
  cl_ready : bcache_ready c = true;
  cl_few : Z.of_nat (length hs) < 2 ^ 32;
  cl_holds : forall i b, (i, b) ∈ hs -> 0 <= b < 2 ^ 25 /\ exists e, cache c !! i = Some e /\ holds b e = true;
  cl_pins : forall i e, cache c !! i = Some e -> refcount e = pins i hs
}.

(** What a client's handles depend on. *)
Definition pinned_as (e : bcache_entry) : bool * Z * Z := (valid e, block_no e, refcount e).

(** The flush up to entry [k]. *)
Definition synced (c : bcache) (k : nat) (s : bcache) : Prop :=
  cache_inv s /\ same_view c s /\ bcache_ready s = true /\ pinned_as <$> cache s = pinned_as <$> cache c /\
  cached_block_size s = cached_block_size c /\
  forall j e, (j < k)%nat -> cache s !! j = Some e -> valid e = true -> dirty e = false.

(** ** Linked lists *)

Lemma linked_ext nx nx' h l : (forall i, i ∈ l -> nx' i = nx i) -> linked nx h l -> linked nx' h l.
Proof.
  revert h. induction l as [|i l IH]; intros h Hx; [done|]. intros [-> Hl]. split; [done|].
  rewrite Hx by (by left). apply IH; [|done]. intros j Hj. apply Hx. by right.
Qed.

Lemma linked_skip_tail nx h pr i l2 : linked nx h (pr :: i :: l2) -> NoDup (pr :: i :: l2) ->
  linked (skip nx i pr) h (pr :: l2).
Proof.
  intros (-> & Hi & Hl) Hn. split; [done|]. apply NoDup_cons in Hn as [Hp Hn]. apply NoDup_cons in Hn as [Hi2 Hn].
  replace (skip nx i pr pr) with (nx i) by (unfold skip; by rewrite decide_False, decide_True by (done || set_solver)).
  eapply linked_ext; [|exact Hl]. intros j Hj. unfold skip. rewrite !decide_False; [done|set_solver..].
Qed.

Lemma linked_skip nx h l1 pr i l2 : linked nx h (l1 ++ pr :: i :: l2) -> NoDup (l1 ++ pr :: i :: l2) ->
  linked (skip nx i pr) h (l1 ++ pr :: l2).
Proof.
  revert h. induction l1 as [|j l1 IH]; intros h; [by apply linked_skip_tail|].
  intros [-> Hl] Hn. cbn in Hn. apply NoDup_cons in Hn as [Hj Hn]. split; [done|].
  replace (skip nx i pr j) with (nx j) by (unfold skip; by rewrite !decide_False by set_solver). by apply IH.
Qed.

Lemma linked_drop_head nx i l : linked nx (Some i) (i :: l) -> i ∉ l ->
  linked (fun j => if decide (j = i) then None else nx j) (nx i) l.
Proof.
  intros [_ Hl] Hi. eapply linked_ext; [|exact Hl]. intros j Hj. rewrite decide_False; [done|]. by intros ->.
Qed.

Lemma linked_cons nx h i l : linked nx h l -> i ∉ l ->
  linked (fun j => if decide (j = i) then h else nx j) (Some i) (i :: l).
Proof.
  intros Hl Hi. split; [done|]. rewrite decide_True by done. eapply linked_ext; [|exact Hl].
  intros j Hj. rewrite decide_False; [done|]. by intros ->.
Qed.

(** ** Entries *)

Lemma ent_lookup c i e : cache c !! i = Some e -> ent c i = e.
Proof. apply list_lookup_total_correct. Qed.

Lemma lookup_set_ent c i f j : cache (set_ent i f c) !! j = if decide (i = j) then f <$> cache c !! j else cache c !! j.
Proof.
  unfold set_ent. cbn. destruct (decide (i = j)) as [->|].
  - by rewrite list_lookup_alter_eq.
  - by rewrite list_lookup_alter_ne.
Qed.

Lemma length_set_ent c i f : length (cache (set_ent i f c)) = length (cache c).
Proof. apply length_alter. Qed.

Lemma ent_set_ent c i f j : (i < length (cache c))%nat -> ent (set_ent i f c) j = if decide (i = j) then f (ent c j) else ent c j.
Proof.
  intros Hi. unfold ent. rewrite !list_lookup_total_alt, lookup_set_ent. destruct (decide (i = j)) as [->|]; [|done].
  destruct (lookup_lt_is_Some_2 _ _ Hi) as [e ->]. done.
Qed.

Lemma ent_set_ent' c i f j : (j < length (cache c))%nat -> ent (set_ent i f c) j = if decide (i = j) then f (ent c j) else ent c j.
Proof.
  intros Hj. unfold ent. rewrite !list_lookup_total_alt, lookup_set_ent. destruct (decide (i = j)) as [->|]; [|done].
  destruct (lookup_lt_is_Some_2 _ _ Hj) as [e ->]. done.
Qed.

Lemma links_set_ent c i g j : (i < length (cache c))%nat ->
  links (set_ent i (fun e => e <| hash_next := g |>) c) j = if decide (j = i) then g else links c j.
Proof. intros Hi. unfold links. rewrite ent_set_ent by done. repeat case_decide; (done || congruence). Qed.

Lemma relinked_refl c : relinked c c.
Proof. split_and!; [done|done|]. by destruct c. Qed.

Lemma relinked_trans c1 c2 c3 : relinked c1 c2 -> relinked c2 c3 -> relinked c1 c3.
Proof.
  intros (A1 & B1 & C1) (A2 & B2 & C2). split_and!; [congruence|congruence|]. rewrite C2, C1. by destruct c1.
Qed.

Lemma relinked_set c i g : relinked c (set_ent i (fun e => e <| hash_next := g |>) c).
Proof.
  split_and!; [|done|by destruct c]. apply list_eq. intros j. rewrite !list_lookup_fmap, lookup_set_ent.
  destruct (decide (i = j)); [|done]. by destruct (cache c !! j).
Qed.

Lemma relinked_table c t : length t = length (hash_table c) -> relinked c (c <| hash_table := t |>).
Proof. intros E. split_and!; [done|done|by destruct c]. Qed.

Lemma relinked_lookup c c' i e' : relinked c c' -> cache c' !! i = Some e' ->
  exists e, cache c !! i = Some e /\ no_link e' = no_link e.
Proof.
  intros (E & _) Hi. apply (f_equal (fun l => l !! i)) in E. rewrite !list_lookup_fmap, Hi in E.
  destruct (cache c !! i) as [e|]; [|done]. exists e. split; [done|]. by apply (inj Some) in E.
Qed.

Lemma relinked_sym c c' : relinked c c' -> relinked c' c.
Proof. intros (A & B & C). split_and!; [done|done|]. rewrite C. by destruct c, c'. Qed.

(** ** Removing from a chain *)

Lemma unlink_spec fuel i p c l1 l2 :
  linked (links c) (Some p) (p :: l1 ++ i :: l2) -> NoDup (p :: l1 ++ i :: l2) ->
  (i < length (cache c))%nat -> (forall j, j ∈ p :: l1 -> (j < length (cache c))%nat) -> (length l1 < fuel)%nat ->
  let c' := unlink fuel i p c in
  relinked c c' /\ hash_table c' = hash_table c /\ exists pr l0, p :: l1 = l0 ++ [pr] /\ forall j, links c' j = skip (links c) i pr j.
Proof.
  revert fuel p. induction l1 as [|q l1 IH]; intros fuel p Hl Hn Hi Hlt Hf; (destruct fuel as [|fuel]; [cbn in Hf; lia|]).
  - destruct Hl as (_ & Hp & Hl). cbn [unlink]. unfold links in Hp. rewrite Hp, Nat.eqb_refl.
    split; [eapply relinked_trans; apply relinked_set|]. split; [done|]. exists p, []. split; [done|].
    intros j. rewrite !links_set_ent; [|apply Hlt; by left|rewrite length_set_ent; done]. done.
  - destruct Hl as (_ & Hp & Hl). cbn [unlink]. unfold links in Hp. rewrite Hp.
    cbn in Hn. apply NoDup_cons in Hn as [Hpn Hn]. assert (q <> i) as Hqi by (apply NoDup_cons in Hn as [Hq _]; set_solver).
    replace (q =? i)%nat with false by (symmetry; by apply Nat.eqb_neq).
    destruct (IH fuel q) as (R1 & R2 & pr & l0 & E & R3); [by rewrite <- Hp|done|done| |cbn in Hf; lia|].
    { intros j Hj. apply Hlt. by right. }
    split; [done|]. split; [done|]. exists pr, (p :: l0). split; [cbn; by rewrite E|done].
Qed.

Lemma bucket_lt c h l i : bucket c h l -> i ∈ l -> (i < length (cache c))%nat.
Proof. intros (_ & _ & Hm) (e & He & _)%Hm. by eapply lookup_lt_Some. Qed.

Lemma bucket_length c h l : bucket c h l -> (length l <= length (cache c))%nat.
Proof.
  intros Hb. pose proof Hb as (_ & Hn & _). rewrite <- (length_seq (length (cache c)) 0).
  apply submseteq_length, NoDup_submseteq; [done|]. intros i Hi. apply elem_of_seq. pose proof (bucket_lt _ _ _ _ Hb Hi). lia.
Qed.

Lemma without_other i l : i ∉ l -> without i l = l.
Proof.
  unfold without. induction l as [|j l IH]; intros Hi; [done|]. apply not_elem_of_cons in Hi as [Hne Hi].
  by rewrite filter_cons_True, IH by congruence.
Qed.

Lemma without_mid i l1 l2 : NoDup (l1 ++ i :: l2) -> without i (l1 ++ i :: l2) = l1 ++ l2.
Proof.
  intros (_ & Hd & Hn)%NoDup_app. apply NoDup_cons in Hn as [Hi _]. unfold without.
  rewrite filter_app, filter_cons_False by naive_solver. f_equal; apply without_other; [set_solver|done].
Qed.

Lemma linked_det nx h l l' : linked nx h l -> linked nx h l' -> l = l'.
Proof.
  revert h l'. induction l as [|i l IH]; intros h [|j l']; cbn; try done.
  - by intros -> [? _].
  - by intros [-> _] ?.
  - intros [-> H1] [[= ->] H2]. f_equal. by eapply IH.
Qed.

(** An entry is in one bucket only. *)
Lemma bucket_disjoint c h k l l' i : bucket c h l -> bucket c k l' -> h <> k -> i ∈ l -> i ∉ l'.
Proof.
  intros (_ & _ & Hm) (_ & _ & Hm') Hne (e & He & _ & E)%Hm (e' & He' & _ & E')%Hm'. congruence.
Qed.

(** Taking a valid entry out of its chain leaves every other chain alone. *)
Lemma hash_remove_spec c i e : cache_inv c -> cache c !! i = Some e -> valid e = true ->
  let c' := bcache_hash_remove i c in
  relinked c c' /\ forall h l, 0 <= h < 64 -> bucket c h l -> linked (links c') (zget (hash_table c') h) (without i l).
Proof.
  intros Hinv Hi Hv. set (k := hash_fn (block_no e)). pose proof (lookup_lt_Some _ _ _ Hi) as Hlt.
  assert (0 <= k < 64) as Hk by (unfold k, hash_fn, BCACHE_HASH_SIZE; apply Z.mod_pos_bound; lia).
  destruct (ci_bucket _ Hinv k Hk) as [l0 Hb]. pose proof Hb as (Hl & Hn & Hm).
  assert (i ∈ l0) as Hil by (apply Hm; eauto).
  pose proof (fun h l Hbh (Hne : h <> k) => bucket_disjoint c k h l0 l i Hb Hbh (not_eq_sym Hne) Hil) as Hother.
  apply list_elem_of_split in Hil as (l1 & l2 & ->).
  unfold bcache_hash_remove. rewrite (ent_lookup _ _ _ Hi). fold k. cbv zeta. destruct l1 as [|q l1].
  - cbn in Hl. pose proof Hl as [E _]. rewrite E, Nat.eqb_refl.
    split. { eapply relinked_trans; [apply relinked_table|apply relinked_set]. by rewrite length_zset. }
    intros h l Hh Hbh. set (c1 := c <| hash_table ::= _ |>).
    change (hash_table (set_ent _ _ c1)) with (zset (hash_table c) k (hash_next e)).
    apply (linked_ext (fun j => if decide (j = i) then None else links c j)); [intros j _; by apply (links_set_ent c1)|].
    destruct (decide (h = k)) as [->|Hne].
    + rewrite zget_zset_eq by (rewrite (ci_table _ Hinv); lia).
      rewrite (linked_det _ _ _ _ (proj1 Hbh) (proj1 Hb)), (without_mid i [] l2 Hn).
      apply NoDup_cons in Hn as [Hni _].
      replace (hash_next e) with (links c i) by (unfold links; by rewrite (ent_lookup _ _ _ Hi)).
      apply linked_drop_head; [|done]. rewrite E in Hl. done.
    + rewrite zget_zset_ne by lia. rewrite without_other by (by apply (Hother h)).
      eapply linked_ext; [|apply Hbh]. intros j Hj. cbn beta. rewrite decide_False; [done|]. intros ->. by apply (Hother h l Hbh).
  - pose proof Hl as [E _]. cbn [app] in E. rewrite E.
    assert (q <> i) as Hqi by (cbn in Hn; apply NoDup_cons in Hn as [Hq _]; set_solver).
    replace (q =? i)%nat with false by (symmetry; by apply Nat.eqb_neq). rewrite E in Hl.
    destruct (unlink_spec (chain_fuel c) i q c l1 l2) as (R1 & R2 & pr & l3 & El & R3); [done|done|done| | |].
    { intros j Hj. apply (bucket_lt _ _ _ _ Hb). set_solver. }
    { pose proof (bucket_length _ _ _ Hb) as Hlen. cbn in Hlen. rewrite length_app in Hlen. cbn in Hlen. unfold chain_fuel. lia. }
    split; [done|]. intros h l Hh Hbh. rewrite R2. apply (linked_ext (skip (links c) i pr)); [auto|].
    change ((q :: l1) ++ i :: l2) with ((q :: l1) ++ [i] ++ l2) in *. 
    destruct (decide (h = k)) as [->|Hne].
    + rewrite (linked_det _ _ _ _ (proj1 Hbh) (proj1 Hb)). cbn [app] in *. change (q :: l1 ++ i :: l2) with ((q :: l1) ++ i :: l2) in *.
      rewrite without_mid by done. rewrite El in *. rewrite <- app_assoc in *. cbn [app] in *. apply linked_skip; [|done]. apply Hb.
    + rewrite without_other by (by apply (Hother h)). eapply linked_ext; [|apply Hbh]. intros j Hj. unfold skip.
      rewrite !decide_False; [done| |].
      * intros ->. apply (bucket_disjoint c k h _ l pr Hb Hbh); [done| |done].
        change ((q :: l1) ++ [i] ++ l2) with ((q :: l1) ++ i :: l2). rewrite El. set_solver.
      * intros ->. by apply (Hother h l Hbh).
Qed.

(** ** Blocks on the disk *)

Lemma spb c n : cached_block_size c = 512 * n -> sectors_per_block c = n.
Proof. intros E. unfold sectors_per_block. rewrite E. zsolve. Qed.

Lemma disk_block_write c n b b' bytes : cached_block_size c = 512 * n -> 1 <= n <= 8 ->
  0 <= b < 2 ^ 25 -> 0 <= b' < 2 ^ 25 -> length bytes = 4096%nat -> present c = true ->
  disk_block (bcache_disk_write b bytes c) b' = if decide (b' = b) then take (Z.to_nat (cached_block_size c)) bytes else disk_block c b'.
Proof.
  intros Es Hn Hb Hb' Hl Hp. unfold bcache_disk_write, disk_block. rewrite Hp, (spb c n Es).
  change (sectors_per_block (c <| dsk ::= _ |>)) with (sectors_per_block c). rewrite (spb c n Es), Es. apply get_put; lia.
Qed.

Lemma dsk_write_wf c n b bytes lba s : cached_block_size c = 512 * n -> 1 <= n <= 8 -> 0 <= b < 2 ^ 25 -> length bytes = 4096%nat ->
  (forall lba s, dsk c !! lba = Some s -> length s = 512%nat) ->
  dsk (bcache_disk_write b bytes c) !! lba = Some s -> length s = 512%nat.
Proof.
  intros Es Hn Hb Hl Hw. unfold bcache_disk_write. destruct (present c); [|apply Hw]. rewrite (spb c n Es). apply (put_wf n b bytes (dsk c)); [done..|lia|exact Hw].
Qed.

Lemma length_disk_block c n b : cached_block_size c = 512 * n -> 1 <= n <= 8 -> 0 <= b < 2 ^ 25 ->
  (forall lba s, dsk c !! lba = Some s -> length s = 512%nat) -> Z.of_nat (length (disk_block c b)) = 512 * n.
Proof. intros Es Hn Hb Hw. unfold disk_block. rewrite (spb c n Es). by apply length_get. Qed.

(** ** The view *)

Lemma holds_valid b e : holds b e = true <-> valid e = true /\ block_no e = b.
Proof. unfold holds. rewrite andb_true_iff, Z.eqb_eq. done. Qed.

Lemma view_hit c i e : cache_inv c -> cache c !! i = Some e -> valid e = true ->
  view c (block_no e) = take (Z.to_nat (cached_block_size c)) (buf e).
Proof.
  intros Hinv Hi Hv. unfold view.
  rewrite (find_index_unique _ _ i e); [by rewrite (ent_lookup _ _ _ Hi)|done|by apply holds_valid|].
  intros j f Hj Hf. destruct (holds (block_no e) f) eqn:E; [|done]. apply holds_valid in E as [E1 E2].
  assert (i = j) by (by eapply (ci_uniq _ Hinv)). lia.
Qed.

Lemma view_miss c b : (forall i e, cache c !! i = Some e -> holds b e = false) -> view c b = disk_block c b.
Proof.
  intros Hn. unfold view. destruct (find_index (holds b) (cache c)) as [i|] eqn:E; [|done].
  apply find_index_Some in E as (e & He & Hb & _). rewrite (Hn i e He) in Hb. done.
Qed.

(** A block is cached or not. *)
Lemma cached_dec c b : (exists i e, cache c !! i = Some e /\ valid e = true /\ block_no e = b) \/
  (forall i e, cache c !! i = Some e -> holds b e = false).
Proof.
  destruct (find_index (holds b) (cache c)) as [i|] eqn:E.
  - apply find_index_Some in E as (e & He & [Hv Hb]%holds_valid & _). left. eauto.
  - right. by apply find_index_None.
Qed.

(** ** Searching *)

Lemma find_from_spec c b fuel h l : linked (links c) h l -> (length l < fuel)%nat ->
  match find_from fuel b h c with
  | Some i => i ∈ l /\ holds b (ent c i) = true
  | None => forall i, i ∈ l -> holds b (ent c i) = false
  end.
Proof.
  revert h fuel. induction l as [|i l IH]; intros h fuel; cbn [linked].
  - intros -> _. destruct fuel; cbn; set_solver.
  - intros [-> Hl] Hf. destruct fuel as [|fuel]; [cbn in Hf; lia|]. cbn [find_from]. fold (holds b (ent c i)).
    destruct (holds b (ent c i)) eqn:E; [split; [by left|done]|].
    specialize (IH _ fuel Hl ltac:(cbn in Hf; lia)). fold (links c i). destruct (find_from fuel b (links c i) c).
    + split; [right; apply IH|apply IH].
    + intros j [->|Hj]%elem_of_cons; [done|by apply IH].
Qed.

Lemma hash_range b : 0 <= hash_fn b < 64.
Proof. unfold hash_fn, BCACHE_HASH_SIZE. apply Z.mod_pos_bound. lia. Qed.

(** The hash table finds a block exactly when it is cached. *)
Lemma hash_find_spec c b : cache_inv c ->
  match bcache_hash_find b c with
  | Some i => exists e, cache c !! i = Some e /\ valid e = true /\ block_no e = b
  | None => forall i e, cache c !! i = Some e -> holds b e = false
  end.
Proof.
  intros Hinv. destruct (ci_bucket _ Hinv (hash_fn b) (hash_range b)) as [l Hb]. pose proof Hb as (Hl & _ & Hm).
  pose proof (find_from_spec c b (chain_fuel c) _ l Hl) as HF. pose proof (bucket_length _ _ _ Hb) as Hlen.
  specialize (HF ltac:(unfold chain_fuel; lia)). unfold bcache_hash_find. destruct (find_from _ _ _ _) as [i|].
  - destruct HF as [(e & He & _)%Hm Hh]. rewrite (ent_lookup _ _ _ He) in Hh. apply holds_valid in Hh as []. eauto.
  - intros i e He. destruct (holds b e) eqn:E; [|done]. pose proof E as [Hv Hbn]%holds_valid.
    rewrite <- E, <- (ent_lookup _ _ _ He). apply HF, Hm. exists e. by rewrite Hbn.
Qed.

(** ** Changing one entry *)

Lemma only_set i f c : only i c (set_ent i f c).
Proof.
  split_and!; [apply length_set_ent|done..|]. intros j e' Hne. rewrite lookup_set_ent, decide_False by done. eauto.
Qed.

Lemma only_trans i c1 c2 c3 : only i c1 c2 -> only i c2 c3 -> only i c1 c3.
Proof.
  intros (A1 & A2 & A3 & A4 & A5) (B1 & B2 & B3 & B4 & B5). split_and!; [congruence..|].
  intros j e' Hne Hj. destruct (B5 j e' Hne Hj) as (e2 & He2 & E2). destruct (A5 j e2 Hne He2) as (e1 & He1 & E1).
  exists e1. split; [done|congruence].
Qed.

Lemma no_link_fields e e' : no_link e' = no_link e ->
  block_no e' = block_no e /\ data e' = data e /\ buf e' = buf e /\ dirty e' = dirty e /\ valid e' = valid e /\ refcount e' = refcount e.
Proof. intros E. destruct e, e'. by injection E as -> -> -> -> -> -> -> ->. Qed.

Lemma relinked_only i c c' : relinked c c' -> only i c c'.
Proof.
  intros R. pose proof R as (A & B & C). split_and!; [|by rewrite C..|].
  - apply (f_equal length) in A. by rewrite !length_fmap in A.
  - intros j e' _ Hj. by eapply relinked_lookup.
Qed.

(** Entries other than [i] hold the same blocks. *)
Lemma only_holds i c c' b j e' : only i c c' -> j <> i -> cache c' !! j = Some e' -> exists e, cache c !! j = Some e /\ holds b e' = holds b e.
Proof.
  intros (_ & _ & _ & _ & H) Hne Hj. destruct (H j e' Hne Hj) as (e & He & E). exists e. split; [done|].
  destruct (no_link_fields _ _ E) as (E1 & _ & _ & _ & E5 & _). unfold holds. by rewrite E1, E5.
Qed.

Lemma only_back i c c' j e : only i c c' -> j <> i -> cache c !! j = Some e -> exists e', cache c' !! j = Some e' /\ no_link e' = no_link e.
Proof.
  intros (L & _ & _ & _ & H) Hne Hj. destruct (lookup_lt_is_Some_2 (cache c') j) as [e' He'];
    [rewrite L; by eapply lookup_lt_Some|]. exists e'. split; [done|]. destruct (H j e' Hne He') as (e0 & He0 & E). congruence.
Qed.

(** Views agree at a block held by an entry other than [i]. *)
Lemma view_other i c c' j e : cache_inv c -> cache_inv c' -> only i c c' -> j <> i -> cache c !! j = Some e -> valid e = true ->
  view c' (block_no e) = view c (block_no e).
Proof.
  intros Hc Hc' Ho Hne Hj Hv. destruct (only_back _ _ _ _ _ Ho Hne Hj) as (e' & He' & E).
  destruct (no_link_fields _ _ E) as (E1 & _ & E3 & _ & E5 & _). rewrite (view_hit c j e) by done.
  rewrite <- E1, (view_hit c' j e') by (done || congruence). destruct Ho as (_ & Eb & _). by rewrite Eb, E3.
Qed.

(** Proving the invariant from that of a state that differs in [i]. *)
Lemma inv_only i c c' : cache_inv c -> only i c c' -> length (hash_table c') = 64%nat ->
  (forall b, 0 <= b < 2 ^ 25 -> disk_block c' b = disk_block c b) -> (forall lba s, dsk c' !! lba = Some s -> length s = 512%nat) ->
  (forall h, 0 <= h < 64 -> exists l, bucket c' h l) ->
  (forall e, cache c' !! i = Some e -> length (buf e) = 4096%nat /\ (valid e = true -> data e <> 0 /\ 0 <= block_no e < 2 ^ 25 /\
     (dirty e = false -> take (Z.to_nat (cached_block_size c)) (buf e) = disk_block c (block_no e)) /\
     forall j f, j <> i -> cache c !! j = Some f -> holds (block_no e) f = false)) ->
  cache_inv c'.
Proof.
  intros [I1 I2 I3 I4 I5 I6 I7 I8] Ho Ht Hd Hw Hb Hi. pose proof Ho as (L & Es & Ep & _ & Hoth).
  assert (forall j e', j <> i -> cache c' !! j = Some e' -> exists e, cache c !! j = Some e /\ block_no e' = block_no e /\ data e' = data e /\
    buf e' = buf e /\ dirty e' = dirty e /\ valid e' = valid e) as Hoth'.
  { intros j e' Hne Hj. destruct (Hoth j e' Hne Hj) as (e & He & E). exists e. destruct (no_link_fields _ _ E) as (? & ? & ? & ? & ? & ?). done. }
  constructor; [done|by rewrite Es|done| | | |done|by rewrite Ep].
  - intros j e' Hj Hv. rewrite Es. destruct (decide (j = i)) as [->|Hne].
    + destruct (Hi e' Hj) as (B1 & B2). destruct (B2 Hv) as (C1 & C2 & C3 & _). rewrite Hd by done. done.
    + destruct (Hoth' j e' Hne Hj) as (e & He & E1 & E2 & E3 & E4 & E5). destruct (I4 j e He) as (D1 & D2 & D3 & D4); [congruence|].
      rewrite E1, E2, E3, E4, Hd by done. done.
  - intros j m e' f' Hj Hm Hv Hvf Eb.
    assert (forall j e' f', j <> i -> cache c' !! j = Some e' -> cache c' !! i = Some f' -> valid e' = true -> valid f' = true ->
      block_no e' = block_no f' -> False) as Hx.
    { clear j m e' f' Hj Hm Hv Hvf Eb. intros j e' f' Hne Hj Hf Hv Hvf Eb. destruct (Hi f' Hf) as (_ & B2). destruct (B2 Hvf) as (_ & _ & _ & C4).
      destruct (Hoth' j e' Hne Hj) as (e & He & E1 & _ & _ & _ & E5). specialize (C4 j e Hne He).
      assert (holds (block_no f') e = true) by (apply holds_valid; split; congruence). congruence. }
    destruct (decide (j = i)) as [->|Hj'], (decide (m = i)) as [->|Hm']; [done|exfalso; by eapply (Hx m f' e')|exfalso; by eapply (Hx j e' f')|].
    destruct (Hoth' j e' Hj' Hj) as (e & He & E1 & _ & _ & _ & E5). destruct (Hoth' m f' Hm' Hm) as (f & Hf & F1 & _ & _ & _ & F5).
    apply (I5 j m e f); congruence.
  - intros j e' Hj. destruct (decide (j = i)) as [->|Hne]; [by apply Hi|].
    destruct (Hoth' j e' Hne Hj) as (e & He & _ & _ & -> & _). by eapply I6.
Qed.

(** Membership in a bucket: entries other than [i] as before. *)
Lemma bucket_other i c c' h l j : only i c c' -> bucket c h l -> j <> i ->
  (j ∈ l <-> exists e, cache c' !! j = Some e /\ valid e = true /\ hash_fn (block_no e) = h).
Proof.
  intros Ho (_ & _ & Hm) Hne. rewrite Hm. split.
  - intros (e & He & Hv & Hh). destruct (only_back _ _ _ _ _ Ho Hne He) as (e' & He' & E).
    destruct (no_link_fields _ _ E) as (E1 & _ & _ & _ & E5 & _). exists e'. rewrite E1, E5. done.
  - intros (e' & He' & Hv & Hh). destruct Ho as (_ & _ & _ & _ & H). destruct (H j e' Hne He') as (e & He & E).
    destruct (no_link_fields _ _ E) as (E1 & _ & _ & _ & E5 & _). exists e. rewrite <- E1, <- E5. done.
Qed.

Lemma disk_block_same c c' b : cached_block_size c' = cached_block_size c -> dsk c' = dsk c -> disk_block c' b = disk_block c b.
Proof. intros E1 E2. unfold disk_block, sectors_per_block. by rewrite E1, E2. Qed.

(** Changes to an entry that keep what the chains depend on. *)
Lemma set_keeps_buckets c i f h l : (forall e, valid (f e) = valid e /\ block_no (f e) = block_no e /\ hash_next (f e) = hash_next e) ->
  bucket c h l -> bucket (set_ent i f c) h l.
Proof.
  intros Hf Hb. pose proof Hb as (Hl & Hn & Hm). split_and!; [|done|].
  - eapply linked_ext; [|exact Hl]. intros j Hj. unfold links. rewrite ent_set_ent' by (by eapply bucket_lt). case_decide; [|done]. apply Hf.
  - intros j. destruct (decide (j = i)) as [->|Hne]; [|by apply (bucket_other i c); [apply only_set|..]].
    rewrite Hm, lookup_set_ent, decide_True by done. destruct (cache c !! i) as [e|]; [|naive_solver]. destruct (Hf e) as (E1 & E2 & _).
    cbn. split; intros (e0 & [= <-] & Hv & Hh); eexists; (split; [done|]); rewrite ?E1, ?E2 in *; done.
Qed.

(** ** The operations keep the invariant and the view *)

(** The view of a state that differs in [i], when the block [i] holds reads the
    same before and after. *)
Lemma view_only i c c' : cache_inv c -> cache_inv c' -> only i c c' ->
  (forall b, 0 <= b < 2 ^ 25 -> (forall j e, cache c' !! j = Some e -> holds b e = false) ->
     (forall j e, j <> i -> cache c !! j = Some e -> holds b e = false) -> view c b = disk_block c' b) ->
  (forall e', cache c' !! i = Some e' -> valid e' = true -> view c (block_no e') = take (Z.to_nat (cached_block_size c)) (buf e')) ->
  same_view c c'.
Proof.
  intros Hc Hc' Ho Hmiss Hi b Hb. destruct (cached_dec c' b) as [(j & e' & Hj & Hv & <-)|Hn].
  - destruct (decide (j = i)) as [->|Hne].
    + rewrite (view_hit c' i e') by done. rewrite (Hi e') by done. destruct Ho as (_ & Es & _). by rewrite Es.
    + pose proof Ho as (_ & _ & _ & _ & H). destruct (H j e' Hne Hj) as (e & He & E).
      destruct (no_link_fields _ _ E) as (E1 & _ & _ & _ & E5 & _). rewrite E1. apply (view_other i c c' j); congruence.
  - rewrite view_miss by done. symmetry. apply Hmiss; [done|done|]. intros j e Hne He.
    destruct (only_back _ _ _ _ _ Ho Hne He) as (e' & He' & E). destruct (no_link_fields _ _ E) as (E1 & _ & _ & _ & E5 & _).
    rewrite <- (Hn j e' He'). unfold holds. by rewrite E1, E5.
Qed.

(** Changing an entry that stays in its chain: the view changes at its block only. *)
Lemma set_spec c i f e : cache_inv c -> cache c !! i = Some e ->
  (forall e, valid (f e) = valid e /\ block_no (f e) = block_no e /\ hash_next (f e) = hash_next e) ->
  data (f e) = data e -> length (buf (f e)) = 4096%nat ->
  (valid e = true -> dirty (f e) = false -> take (Z.to_nat (cached_block_size c)) (buf (f e)) = disk_block c (block_no e)) ->
  cache_inv (set_ent i f c) /\ forall b, 0 <= b < 2 ^ 25 ->
    view (set_ent i f c) b = if holds b e then take (Z.to_nat (cached_block_size c)) (buf (f e)) else view c b.
Proof.
  intros Hc Hi Hf Hda Hl Hd. set (c' := set_ent i f c). destruct (Hf e) as (E1 & E2 & _).
  assert (cache c' !! i = Some (f e)) as Hi' by (unfold c'; by rewrite lookup_set_ent, decide_True, Hi).
  assert (cache_inv c') as Hc'.
  { apply (inv_only i c); [done|apply only_set|apply Hc|done|apply Hc| |].
    - intros h Hh. destruct (ci_bucket _ Hc h Hh) as [l Hb]. exists l. by apply set_keeps_buckets.
    - intros e'. rewrite Hi'. intros [= <-]. rewrite E1, E2, Hda. split; [done|]. intros Hv.
      destruct (ci_entry _ Hc i e Hi Hv) as (D1 & D2 & D3 & D4). split_and!; [done|lia|lia|auto|].
      intros j g Hne Hg. destruct (holds (block_no e) g) eqn:E; [|done].
      apply holds_valid in E as [Hvg Eb]. destruct Hne. by apply (ci_uniq _ Hc j i g e). }
  split; [done|]. intros b Hb. destruct (holds b e) eqn:Eh.
  - apply holds_valid in Eh as [Hv <-]. rewrite <- E2. apply (view_hit c' i (f e)); [done..|congruence].
  - destruct (cached_dec c b) as [(j & g & Hj & Hv & <-)|Hn].
    + assert (j <> i). { intros ->. simplify_eq. assert (holds (block_no e) e = true) by (by apply holds_valid). congruence. }
      rewrite (view_hit c j g) by done. apply (view_hit c' j g); [done| |done]. unfold c'. by rewrite lookup_set_ent, decide_False.
    + rewrite (view_miss c b) by done. change (disk_block c b) with (disk_block c' b). apply view_miss. intros j g.
      unfold c'. rewrite lookup_set_ent. case_decide as Hij; [|apply Hn]. subst j. rewrite Hi. intros [= <-]. unfold holds in *. congruence.
Qed.

(** Changing what is not the block: counters, ticks, a dirty flag that is set. *)
Lemma touch_spec c i f e : cache_inv c -> cache c !! i = Some e ->
  (forall e, valid (f e) = valid e /\ block_no (f e) = block_no e /\ hash_next (f e) = hash_next e) ->
  data (f e) = data e -> buf (f e) = buf e ->
  (valid e = true -> dirty (f e) = false -> take (Z.to_nat (cached_block_size c)) (buf e) = disk_block c (block_no e)) ->
  cache_inv (set_ent i f c) /\ same_view c (set_ent i f c).
Proof.
  intros Hc Hi Hf Hda Hbu Hd. destruct (set_spec c i f e) as [Hc' Hv]; [done..|rewrite Hbu; by eapply (ci_buf _ Hc)|by rewrite Hbu|].
  split; [done|]. intros b Hb. rewrite Hv, Hbu by done. destruct (holds b e) eqn:Eh; [|done]. apply holds_valid in Eh as [He <-].
  symmetry. by apply (view_hit c i).
Qed.

Lemma bucket_ext c c' h l : cache c' = cache c -> hash_table c' = hash_table c -> bucket c h l -> bucket c' h l.
Proof. unfold bucket, links, ent. by intros -> ->. Qed.

Lemma disk_write_same b bytes c : let c' := bcache_disk_write b bytes c in
  cache c' = cache c /\ hash_table c' = hash_table c /\ cached_block_size c' = cached_block_size c /\
  present c' = present c /\ bcache_ready c' = bcache_ready c.
Proof. unfold bcache_disk_write. destruct (present c) eqn:E; cbv zeta; split_and!; by rewrite ?E. Qed.

(** Writing a cached block's bytes to the disk. *)
Lemma disk_write_spec c i e : cache_inv c -> cache c !! i = Some e -> valid e = true ->
  let c' := bcache_disk_write (block_no e) (buf e) c in cache_inv c' /\ same_view c c' /\
  forall b, 0 <= b < 2 ^ 25 -> disk_block c' b = if decide (b = block_no e) then take (Z.to_nat (cached_block_size c)) (buf e) else disk_block c b.
Proof.
  intros Hc Hi Hv. destruct (ci_size _ Hc) as (n & Hn & Es). destruct (ci_entry _ Hc i e Hi Hv) as (D1 & D2 & D3 & D4).
  intros c'. destruct (disk_write_same (block_no e) (buf e) c) as (F1 & F2 & F3 & F4 & F5). fold c' in F1, F2, F3, F4, F5.
  assert (forall b, 0 <= b < 2 ^ 25 -> disk_block c' b = if decide (b = block_no e) then take (Z.to_nat (cached_block_size c)) (buf e) else disk_block c b) as Hdb
    by (intros b Hb; apply (disk_block_write c n); try done; apply Hc).
  assert (forall j f, cache c !! j = Some f -> valid f = true -> block_no f = block_no e -> f = e) as Hu.
  { intros j f Hf Hvf Eb. assert (j = i) as -> by (by apply (ci_uniq _ Hc j i f e)). congruence. }
  split_and!; [|intros b Hb|done].
  - constructor; [by rewrite F2; apply Hc|rewrite F3; by eexists| | |rewrite F1; apply Hc|rewrite F1; apply Hc| |rewrite F4; apply Hc].
    + intros h Hh. destruct (ci_bucket _ Hc h Hh) as [l Hb]. exists l. by apply (bucket_ext c).
    + rewrite F1, F3. intros j f Hf Hvf. destruct (ci_entry _ Hc j f Hf Hvf) as (G1 & G2 & G3 & G4). split_and!; [done|lia|lia|done|]. intros Hd.
      rewrite Hdb by done. case_decide as Eb; [|auto]. by rewrite (Hu j f Hf Hvf Eb).
    + intros lba sct. apply (dsk_write_wf c n); try done. apply Hc.
  - unfold view. rewrite F1, F3. destruct (find_index (holds b) (cache c)) as [j|] eqn:E; [unfold ent; by rewrite F1|].
    rewrite Hdb by done. rewrite decide_False; [done|]. intros ->.
    assert (holds (block_no e) e = false) as Hh by (eapply find_index_None; eauto).
    assert (holds (block_no e) e = true) by (apply holds_valid; done). congruence.
Qed.

(** Writing back: the disk catches up with the entry. *)
Lemma write_back_spec c i e : cache_inv c -> cache c !! i = Some e -> valid e = true ->
  let c' := write_back i c in cache_inv c' /\ same_view c c' /\ only i c c' /\
  cache c' !! i = Some (e <| dirty := false |>) /\ disk_block c' (block_no e) = take (Z.to_nat (cached_block_size c)) (buf e) /\
  (forall b, 0 <= b < 2 ^ 25 -> b <> block_no e -> disk_block c' b = disk_block c b).
Proof.
  intros Hc Hi Hv. destruct (ci_entry _ Hc i e Hi Hv) as (D1 & D2 & D3 & D4).
  unfold write_back. rewrite (ent_lookup _ _ _ Hi). destruct (dirty e) eqn:Hd; cbv zeta.
  2: { split_and!; [done|done|split_and!; try done; eauto| |by rewrite D4|done]. rewrite Hi. f_equal. destruct e; cbn in *; by subst. }
  destruct (disk_write_spec c i e Hc Hi Hv) as (Hc1 & Hs1 & Hd1). destruct (disk_write_same (block_no e) (buf e) c) as (F1 & F2 & F3 & F4 & F5).
  set (c1 := bcache_disk_write _ _ c) in *. set (f := fun e => e <| dirty := false |>).
  destruct (touch_spec c1 i f e) as [Hc2 Hs2]; [done|by rewrite F1|done..|by intros; rewrite Hd1, decide_True, F3|].
  split_and!; [done|intros b Hb; rewrite Hs2; auto| |by rewrite lookup_set_ent, F1, decide_True, Hi| |].
  - split_and!; [by rewrite length_set_ent, F1|done..|]. intros j e' Hne. rewrite lookup_set_ent, F1, decide_False by done. eauto.
  - change (disk_block (set_ent i f c1)) with (disk_block c1). by rewrite Hd1, decide_True.
  - intros b Hb Hne. change (disk_block (set_ent i f c1)) with (disk_block c1). by rewrite Hd1, decide_False.
Qed.

Lemma relinked_same c c' : relinked c c' ->
  dsk c' = dsk c /\ cached_block_size c' = cached_block_size c /\ length (hash_table c') = length (hash_table c) /\ length (cache c') = length (cache c).
Proof.
  intros (A & B & C). apply (f_equal length) in A. rewrite !length_fmap in A. split_and!; [by rewrite C|by rewrite C|done|done].
Qed.

(** Dropping a clean entry. *)
Lemma drop_spec c i e : cache_inv c -> cache c !! i = Some e -> valid e = true -> dirty e = false ->
  let c' := drop_entry i c in cache_inv c' /\ same_view c c' /\ only i c c' /\
  exists e', cache c' !! i = Some e' /\ valid e' = false /\ data e' = data e.
Proof.
  intros Hc Hi Hv Hd c'. destruct (hash_remove_spec c i e Hc Hi Hv) as [Hr Hl]. destruct (ci_entry _ Hc i e Hi Hv) as (D1 & D2 & D3 & D4).
  set (c1 := bcache_hash_remove i c) in *. assert (only i c c') as Ho by (apply (only_trans i c c1); [by apply relinked_only|apply only_set]).
  destruct (relinked_lookup c1 c i e (relinked_sym _ _ Hr) Hi) as (e1 & Hi1 & E). destruct (no_link_fields _ _ E) as (E1 & E2 & E3 & E4 & E5 & _).
  assert (cache c' !! i = Some (e1 <| valid := false |>)) as Hi' by (unfold c', drop_entry; fold c1; by rewrite lookup_set_ent, decide_True, Hi1).
  destruct (relinked_same c c1 Hr) as (R1 & R2 & R3 & R4).
  assert (forall b, disk_block c' b = disk_block c b) as Hdb by (intros b; by apply disk_block_same).
  assert (cache_inv c') as Hc'.
  { apply (inv_only i c); [done|done|by rewrite <- (ci_table _ Hc)|done|change (dsk c') with (dsk c1); rewrite R1; apply Hc| |].
    - intros h Hh. destruct (ci_bucket _ Hc h Hh) as [l Hb]. exists (without i l). split_and!.
      + eapply linked_ext; [|by apply (Hl h l)]. intros j [_ Hj]%list_elem_of_filter. unfold links, c', drop_entry. fold c1.
        rewrite ent_set_ent' by (rewrite R4; by eapply bucket_lt). by case_decide.
      + apply NoDup_filter, Hb.
      + intros j. unfold without. rewrite list_elem_of_filter. destruct (decide (j = i)) as [->|Hne].
        * split; [by intros []|]. rewrite Hi'. intros (g & [= <-] & Hg & _). done.
        * rewrite <- (bucket_other i c c' h l j) by done. tauto.
    - rewrite Hi'. intros g [= <-]. split; [|done]. cbn. congruence. }
  split_and!; [done| |done|].
  - apply (view_only i); [done..| |by rewrite Hi'; intros g [= <-]].
    intros b Hb _ Hn. rewrite Hdb. destruct (holds b e) eqn:Eh.
    + apply holds_valid in Eh as [_ <-]. rewrite (view_hit c i e) by done. auto.
    + apply view_miss. intros j g Hg. destruct (decide (j = i)) as [->|]; [congruence|eauto].
  - eexists. split; [exact Hi'|]. done.
Qed.

(** Chaining in an entry that was not valid. *)
Lemma insert_spec c i e f : cache_inv c -> cache c !! i = Some e -> valid e = false ->
  valid (f e) = true -> data (f e) <> 0 -> 0 <= block_no (f e) < 2 ^ 25 -> length (buf (f e)) = 4096%nat ->
  take (Z.to_nat (cached_block_size c)) (buf (f e)) = disk_block c (block_no (f e)) ->
  (forall j g, cache c !! j = Some g -> holds (block_no (f e)) g = false) ->
  let c' := bcache_hash_insert i (set_ent i f c) in
  cache_inv c' /\ same_view c c' /\ only i c c' /\ exists e', cache c' !! i = Some e' /\ no_link e' = no_link (f e).
Proof.
  intros Hc Hi Hv Hv' Hda Hb Hlen Hbuf Hnot. set (c1 := set_ent i f c). set (k := hash_fn (block_no (f e))).
  assert (cache c1 !! i = Some (f e)) as Hi1 by (unfold c1; by rewrite lookup_set_ent, decide_True, Hi).
  unfold bcache_hash_insert. rewrite (ent_lookup _ _ _ Hi1). fold k. change (hash_table c1) with (hash_table c).
  set (g := fun e' => e' <| hash_next := zget (hash_table c) k |>). set (c' := (set_ent i g c1) <| hash_table ::= fun t => zset t k (Some i) |>). cbv zeta.
  assert (only i c c') as Ho by (apply (only_trans i c c1); [apply only_set|apply (only_set i g c1)]).
  assert (cache c' !! i = Some (g (f e))) as Hi' by (change (cache c') with (cache (set_ent i g c1)); by rewrite lookup_set_ent, decide_True, Hi1).
  pose proof (hash_range (block_no (f e))) as Hk. fold k in Hk. pose proof (lookup_lt_Some _ _ _ Hi) as Hlt.
  assert (forall j, j <> i -> links c' j = links c j) as Hlk.
  { intros j Hne. unfold links. change (ent c' j) with (ent (set_ent i g c1) j). unfold c1.
    rewrite !ent_set_ent, !decide_False by (rewrite ?length_set_ent; congruence || done). done. }
  assert (forall h l, bucket c h l -> i ∉ l) as Hnl by (intros h l (_ & _ & Hm) (x & Hx & Hvx & _)%Hm; congruence).
  assert (cache_inv c') as Hc'.
  { apply (inv_only i c); [done|done| |done|apply Hc| |].
    - change (hash_table c') with (zset (hash_table c) k (Some i)). rewrite length_zset. apply Hc.
    - intros h Hh. destruct (ci_bucket _ Hc h Hh) as [l Hbk]. pose proof Hbk as (L1 & L2 & L3).
      assert (linked (links c') (zget (hash_table c) h) l) as L1' by (eapply linked_ext; [|exact L1]; intros j Hj; apply Hlk; intros ->; by apply (Hnl h l)).
      exists (if decide (h = k) then i :: l else l). split_and!.
      + change (hash_table c') with (zset (hash_table c) k (Some i)). case_decide as Ek; [subst h|by rewrite zget_zset_ne by lia].
        rewrite zget_zset_eq by (rewrite (ci_table _ Hc); lia). split; [done|]. unfold links at 2. by rewrite (ent_lookup _ _ _ Hi').
      + case_decide; [|done]. apply NoDup_cons. split; [by eapply Hnl|done].
      + intros j. destruct (decide (j = i)) as [->|Hne].
        * rewrite Hi'. case_decide as Ek; [subst h; split; [by eexists|by left]|]. split; [by intros ?%(Hnl h l)|].
          intros (x & [= <-] & _ & Ex). by destruct Ek.
        * rewrite <- (bucket_other i c c' h l j) by done. case_decide; [|done]. set_solver.
    - intros e'. rewrite Hi'. intros [= <-]. split; [done|]. intros _. split_and!; [done|apply Hb|apply Hb|done|]. intros j x _. apply Hnot. }
  split_and!; [done| |done|by eexists].
  apply (view_only i); [done..| |].
  - intros b Hb' _ Hn. change (disk_block c' b) with (disk_block c b). apply view_miss. intros j x Hx. destruct (decide (j = i)) as [->|]; [|eauto]. unfold holds. by simplify_eq; rewrite Hv.
  - intros e'. rewrite Hi'. intros [= <-] _. rewrite view_miss by done. by symmetry.
Qed.

(** ** Eviction *)

Lemma oldest_cons q e l i0 best r :
  oldest q l (S i0) (if q e then older i0 e best else best) r -> oldest q (e :: l) i0 best r.
Proof.
  intros (H1 & H2 & H3). set (b' := if q e then older i0 e best else best) in *.
  assert (b'.2 <= best.2 /\ (q e = true -> b'.2 <= lru_tick e) /\ (b' = best \/ b' = (Some (i0 + 0)%nat, lru_tick e) /\ q e = true)) as (B1 & B2 & B3).
  { unfold b', older. destruct (q e); [|by split_and!; auto; lia]. case_match; cbn; split_and!; rewrite ?Nat.add_0_r; auto; lia. }
  split_and!; [lia| |].
  - intros x [->|Hx]%elem_of_cons Hq; [|eauto]. etrans; [exact H1|auto].
  - destruct H3 as [->|(j & x & Hj & -> & Hq)].
    + destruct B3 as [->|[-> Hq]]; [by left|]. right. by exists 0%nat, e.
    + right. exists (S j), x. by rewrite Nat.add_succ_r.
Qed.

Lemma clean_pass_spec l : forall i0 best,
  match clean_pass l i0 best with
  | inl i => exists j e, i = (i0 + j)%nat /\ l !! j = Some e /\ data e <> 0 /\ valid e = false
  | inr r => oldest idle_clean l i0 best r /\ forall e, e ∈ l -> data e <> 0 -> valid e = true
  end.
Proof.
  induction l as [|e l IH]; intros i0 best; [split; [split_and!; [lia| |by left]|]; intros ? []%elem_of_nil|].
  assert (clean_pass (e :: l) i0 best = if negb (data e =? 0) && negb (valid e) then inl i0
    else clean_pass l (S i0) (if idle_clean e then older i0 e best else best)) as ->
    by (cbn [clean_pass]; unfold idle_clean, idle; by destruct (data e =? 0), (valid e), (refcount e =? 0)).
  destruct (negb (data e =? 0) && negb (valid e)) eqn:E.
  - exists 0%nat, e. rewrite Nat.add_0_r. apply andb_true_iff in E as [Ed Ev%negb_true_iff]. split_and!; [done..|lia|done].
  - specialize (IH (S i0) (if idle_clean e then older i0 e best else best)). destruct (clean_pass l _ _) as [i|r].
    + destruct IH as (j & x & -> & Hj & Hx). exists (S j), x. by rewrite Nat.add_succ_r.
    + destruct IH as [Ho Hv]. split; [by apply oldest_cons|]. intros x [->|Hx]%elem_of_cons Hd; [|auto].
      destruct (valid e); [done|]. cbn in E. lia.
Qed.

Lemma any_pass_spec l : forall i0 best, oldest idle l i0 best (any_pass l i0 best).
Proof.
  induction l as [|e l IH]; intros i0 best; [split_and!; [cbn; lia|by intros ? []%elem_of_nil|by left]|].
  cbn [any_pass]. apply oldest_cons. unfold idle at 2. destruct (data e =? 0), (valid e), (refcount e =? 0); apply IH.
Qed.

(** Eviction yields an entry that holds nothing; it fails only when every
    entry with a buffer is pinned (or carries the last tick). *)
Lemma evict_spec c : cache_inv c ->
  match bcache_evict c with
  | (c', Some i) => cache_inv c' /\ same_view c c' /\ only i c c' /\
      (exists e, cache c !! i = Some e /\ (valid e = true -> idle e = true)) /\
      exists e', cache c' !! i = Some e' /\ valid e' = false /\ data e' <> 0
  | (c', None) => c' = c /\ forall e, e ∈ cache c -> data e <> 0 -> valid e = true /\ (refcount e = 0 -> 0xFFFFFFFF <= lru_tick e)
  end.
Proof.
  intros Hc. unfold bcache_evict. pose proof (clean_pass_spec (cache c) 0 (None, 0xFFFFFFFF)) as Hp.
  destruct (clean_pass _ _ _) as [i|[[i|] t]].
  - destruct Hp as (j & e & -> & Hj & Hd & Hv). split_and!; [done|done|apply relinked_only, relinked_refl|exists e; split; [done|congruence]|by exists e].
  - destruct Hp as [(_ & _ & [|(j & e & Hj & [= -> ->] & Hq)]) _]; [done|]. apply andb_true_iff in Hq as [Hq Hd%negb_true_iff].
    assert (data e <> 0 /\ valid e = true) as [D1 D2] by (unfold idle in Hq; b2p; done).
    destruct (drop_spec c j e) as (A & B & C & x & D & E & F); [done..|]. split_and!; [done|done|done|by exists e|exists x; split_and!; congruence].
  - destruct Hp as [(_ & _ & [[= ->]|(j & e & _ & ? & _)]) Hv]; [|done].
    pose proof (any_pass_spec (cache c) 0 (None, 0xFFFFFFFF)) as (_ & H2 & H3). destruct (any_pass _ _ _) as [[i|] t].
    + destruct H3 as [|(j & e & Hj & [= -> ->] & Hq)]; [done|].
      assert (data e <> 0 /\ valid e = true) as [D1 D2] by (unfold idle in Hq; b2p; done).
      destruct (write_back_spec c j e) as (A & B & C & D & _); [done..|].
      destruct (drop_spec (write_back j c) j (e <| dirty := false |>)) as (A' & B' & C' & x & D' & E' & F'); [done..|].
      split_and!; [done|intros b Hb; rewrite B', B by done; done|by eapply only_trans|by exists e|exists x; split_and!; cbn in F'; congruence].
    + split; [done|]. intros e He Hd. split; [by apply Hv|]. intros Hr. destruct H3 as [[= ->]|(? & ? & _ & ? & _)]; [|done].
      apply (H2 e He). unfold idle. rewrite (Hv e He Hd). by destruct (data e =? 0) eqn:?; [lia|]; rewrite Hr.
Qed.

(** ** The interface *)

(** The hit and miss counters play no part. *)
Lemma inv_counters c x y : cache_inv c -> cache_inv (c <| cache_hits := x |> <| cache_misses := y |>).
Proof. intros [? ? ? ? ? ? ? ?]. by constructor. Qed.

Lemma set_twice i f g c : set_ent i f (set_ent i g c) = set_ent i (fun e => f (g e)) c.
Proof.
  unfold set_ent. destruct c. cbn. f_equal. apply alter_twice.
Qed.

Lemma get_spec now b c : cache_inv c -> bcache_ready c = true -> 0 <= b < 2 ^ 25 ->
  match bcache_get now b c with
  | (c', Some i) => cache_inv c' /\ same_view c c' /\ only i c c' /\
      exists e e', cache c !! i = Some e /\ cache c' !! i = Some e' /\ holds b e' = true /\
        (valid e = true -> block_no e = b \/ refcount e = 0) /\
        refcount e' = (if holds b e then u32 (refcount e + 1) else 1)
  | (c', None) => cache_inv c' /\ same_view c c' /\ cache c' = cache c /\ bcache_ready c' = true /\
      (forall i e, cache c !! i = Some e -> holds b e = false) /\
      forall e, e ∈ cache c -> data e <> 0 -> valid e = true /\ (refcount e = 0 -> 0xFFFFFFFF <= lru_tick e)
  end.
Proof.
  intros Hc Hr Hb. unfold bcache_get. rewrite Hr. pose proof (hash_find_spec c b Hc) as Hf. destruct (bcache_hash_find b c) as [i|]; cbn [negb].
  - destruct Hf as (e & Hi & Hv & <-). set (f := fun e => e <| refcount ::= _ |> <| lru_tick := _ |>).
    destruct (touch_spec c i f e) as [Hc' Hs]; [done..|apply (ci_entry _ Hc i e); done|].
    split_and!; [by apply (inv_counters _ (u64 (cache_hits c + 1)) (cache_misses c)) in Hc'|done|apply (only_set i f c)|].
    exists e, (f e). split_and!; [done| |by apply holds_valid|by left|].
    + change (cache (set_ent i f c) !! i = Some (f e)). by rewrite lookup_set_ent, decide_True, Hi.
    + assert (holds (block_no e) e = true) as -> by (by apply holds_valid). done.
  - set (c0 := c <| cache_misses ::= _ |>). assert (cache_inv c0) as Hc0 by (by apply (inv_counters c (cache_hits c))).
    pose proof (evict_spec c0 Hc0) as He. destruct (bcache_evict c0) as [c1 [i|]].
    2: { destruct He as [-> He]. by split_and!. }
    destruct He as (Hc1 & Hs1 & Ho1 & (e & Hi & Hid) & e1 & Hi1 & Hv1 & Hd1).
    cbv zeta. set (g := fun e => e <| block_no := b |> <| dirty := false |> <| refcount := 1 |> <| lru_tick := _ |>).
    assert (bcache_disk_read b (set_ent i g c1) = Some (disk_block c1 b)) as -> by (unfold bcache_disk_read; change (present (set_ent i g c1)) with (present c1); by rewrite (ci_present _ Hc1)).
    rewrite set_twice. set (f := fun e => _ <| in_use := true |>). destruct (ci_size _ Hc1) as (n & Hn & Es).
    assert (Z.of_nat (length (disk_block c1 b)) = 512 * n) as Hl by (apply length_disk_block; [done..|apply Hc1]).
    pose proof (ci_buf _ Hc1 i e1 Hi1) as Hb1.
    assert (forall j x, cache c1 !! j = Some x -> holds b x = false) as Hnot.
    { intros j x Hx. destruct (decide (j = i)) as [->|Hne]; [simplify_eq; unfold holds; by rewrite Hv1|].
      destruct Ho1 as (_ & _ & _ & _ & H). destruct (H j x Hne Hx) as (y & Hy & E). rewrite <- (Hf j y Hy). unfold holds.
      destruct (no_link_fields _ _ E) as (-> & _ & _ & _ & -> & _). done. }
    destruct (insert_spec c1 i e1 f) as (Hc' & Hs & Ho & e' & Hi' & E); [done..| | |done|].
    + cbn. rewrite length_blit; lia.
    + cbn. rewrite Es, <- Hl. apply (slice_blit (buf e1) 0); lia.
    + destruct (no_link_fields _ _ E) as (E1 & _ & _ & _ & E5 & E6). split_and!; [done|intros b' Hb'; rewrite Hs, Hs1 by done; done|by eapply only_trans|].
      exists e, e'. split_and!; [done..| | |].
      * apply holds_valid. by rewrite E5, E1.
      * intros Hv. right. specialize (Hid Hv). unfold idle in Hid. b2p. done.
      * rewrite (Hf i e Hi), E6. done.
Qed.

(** One turn of the flush. *)
Lemma sync_entry_spec c k s : synced c k s -> synced c (S k) (sync_entry k s).
Proof.
  intros (H1 & H2 & H3 & H4 & H5 & H6). unfold sync_entry. destruct (cache s !! k) as [e|] eqn:Hk.
  2: { assert (ent s k = entry_zero) as -> by (unfold ent; by rewrite list_lookup_total_alt, Hk). change (synced c (S k) s). split_and!; [done..|].
       intros j g Hj Hg. apply (H6 j g); [|done]. destruct (decide (j = k)) as [->|]; [congruence|lia]. }
  rewrite (ent_lookup _ _ _ Hk). destruct (valid e) eqn:Hv.
  2: { split_and!; [done..|]. intros j g Hj Hg Hvg. destruct (decide (j = k)) as [->|]; [congruence|]. apply (H6 j g); (lia || done). }
  destruct (write_back_spec s k e) as (A & B & C & D & _); [done..|]. pose proof C as (C1 & C2 & C3 & C4 & C5).
  split_and!; [done|intros b Hb; rewrite B, H2 by done; done|congruence| |congruence|].
  - rewrite <- H4. apply list_eq. intros j. rewrite !list_lookup_fmap. destruct (decide (j = k)) as [->|Hne]; [by rewrite D, Hk|].
    destruct (cache s !! j) as [g|] eqn:Hg.
    + destruct (only_back k s _ j g C Hne Hg) as (g' & Hg' & E). rewrite Hg'. cbn. f_equal. unfold pinned_as.
      destruct (no_link_fields _ _ E) as (-> & _ & _ & _ & -> & ->). done.
    + apply lookup_ge_None in Hg. assert (cache (write_back k s) !! j = None) as -> by (apply lookup_ge_None; lia). done.
  - intros j g Hj Hg Hvg. destruct (decide (j = k)) as [->|Hne]; [rewrite D in Hg; by injection Hg as <-|].
    destruct (C5 j g Hne Hg) as (g0 & Hg0 & E). destruct (no_link_fields _ _ E) as (_ & _ & _ & E4 & E5 & _).
    rewrite E4. apply (H6 j g0); [lia|done|congruence].
Qed.

(** Flushing: every block of the disk is what a client sees. *)
Lemma sync_spec c : cache_inv c -> bcache_ready c = true ->
  let c' := bcache_sync c in cache_inv c' /\ same_view c c' /\ bcache_ready c' = true /\ pinned_as <$> cache c' = pinned_as <$> cache c /\
  cached_block_size c' = cached_block_size c /\ forall b, 0 <= b < 2 ^ 25 -> disk_block c' b = view c b.
Proof.
  intros Hc Hr. unfold bcache_sync. rewrite Hr. cbn [negb]. cbv zeta.
  assert (synced c (0 + length (cache c)) (for_loop (length (cache c)) 0 sync_entry c)) as (H1 & H2 & H3 & H4 & H5 & H6).
  { apply (for_loop_inv (synced c)); [split_and!; try done; lia|]. intros k s _. apply sync_entry_spec. }
  split_and!; [done..|]. intros b Hb. rewrite <- (H2 b Hb). set (c' := for_loop _ _ _ _) in *.
  destruct (cached_dec c' b) as [(j & e & Hj & Hv & <-)|Hn]; [|by rewrite view_miss].
  rewrite (view_hit c' j e) by done. symmetry. apply (ci_entry _ H1 j e Hj Hv). apply (H6 j e); [|done..].
  apply lookup_lt_Some in Hj. apply (f_equal length) in H4. rewrite !length_fmap in H4. lia.
Qed.

(** ** Clients *)

Lemma pins_cons i j b hs : pins i ((j, b) :: hs) = (if decide (j = i) then 1 else 0) + pins i hs.
Proof. unfold pins. cbn. destruct (Nat.eqb_spec j i); repeat case_decide; (done || lia). Qed.

Lemma pins_app i hs hs' : pins i (hs ++ hs') = pins i hs + pins i hs'.
Proof. apply countb_app. Qed.

Lemma pins_range i hs : 0 <= pins i hs <= Z.of_nat (length hs).
Proof. apply countb_bounds. Qed.

Lemma pins_in i b hs : (i, b) ∈ hs -> 0 < pins i hs.
Proof. intros (h1 & h2 & ->)%list_elem_of_split. rewrite pins_app, pins_cons, decide_True by done. pose proof (pins_range i h1). pose proof (pins_range i h2). lia. Qed.

(** Keeping the handles when what they depend on is kept. *)
Lemma client_pinned c c' hs : client_inv c hs -> cache_inv c' -> bcache_ready c' = true ->
  pinned_as <$> cache c' = pinned_as <$> cache c -> client_inv c' hs.
Proof.
  intros [C1 C2 C3 C4 C5] Hc Hr Hp.
  assert (forall j, pinned_as <$> cache c' !! j = pinned_as <$> cache c !! j) as Hj
    by (intros j; rewrite <- !list_lookup_fmap; by rewrite Hp).
  constructor; [done..| |].
  - intros i b Hi. destruct (C4 i b Hi) as (Hb & e & He & Hh). split; [done|]. specialize (Hj i). rewrite He in Hj.
    destruct (cache c' !! i) as [e'|]; [|done]. injection Hj as E1 E2 _. exists e'. split; [done|]. unfold holds. by rewrite E1, E2.
  - intros i e' He'. specialize (Hj i). rewrite He' in Hj. destruct (cache c !! i) as [e|] eqn:He; [|done].
    injection Hj as _ _ E. rewrite E. by apply C5.
Qed.

Lemma get_client now b c hs c' i : client_inv c hs -> 0 <= b < 2 ^ 25 -> Z.of_nat (length hs) + 1 < 2 ^ 32 ->
  bcache_get now b c = (c', Some i) -> client_inv c' ((i, b) :: hs) /\ same_view c c' /\ cached_block_size c' = cached_block_size c.
Proof.
  intros [C1 C2 C3 C4 C5] Hb Hn E. pose proof (get_spec now b c C1 C2 Hb) as H. rewrite E in H.
  destruct H as (Hc' & Hs & Ho & e & e' & Hi & Hi' & Hh & Hor & Hrc). pose proof Ho as (O1 & O2 & O3 & O4 & O5).
  split_and!; [|done|done]. constructor; [done|congruence|cbn; lia| |].
  - intros j b' [[= -> ->]|Hj]%elem_of_cons; [split; [done|by exists e']|]. destruct (C4 j b' Hj) as (Hb' & g & Hg & Hgb). split; [done|].
    destruct (decide (j = i)) as [->|Hne].
    + exists e'. split; [done|]. simplify_eq. apply holds_valid in Hgb as [Hv <-]. destruct (Hor Hv) as [<-|Hz]; [done|].
      pose proof (pins_in i _ hs Hj). pose proof (C5 i _ Hi). lia.
    + destruct (only_back i c c' j g Ho Hne Hg) as (g' & Hg' & E'). exists g'. split; [done|]. unfold holds.
      destruct (no_link_fields _ _ E') as (-> & _ & _ & _ & -> & _). done.
  - intros j g Hg. rewrite pins_cons. case_decide as Hij.
    + subst j. simplify_eq. pose proof (pins_range i hs). rewrite Hrc. destruct (holds b e) eqn:Ehb; [rewrite (C5 i e Hi), u32_small by lia; lia|].
      assert (pins i hs = 0); [|lia]. destruct (valid e) eqn:Hv.
      * destruct (Hor eq_refl) as [Hbe|Hz]; [|by rewrite <- (C5 i e Hi)]. assert (holds b e = true) by (by apply holds_valid). congruence.
      * apply countb_zero. intros k [j b'] Hk%list_elem_of_lookup_2. cbn. apply Nat.eqb_neq. intros ->.
        destruct (C4 i b' Hk) as (_ & g & Hg' & [Hvg _]%holds_valid). congruence.
    + destruct (O5 j g (not_eq_sym Hij) Hg) as (g0 & Hg0 & E'). destruct (no_link_fields _ _ E') as (_ & _ & _ & _ & _ & ->). by rewrite (C5 j g0 Hg0).
Qed.

Lemma release_client c i b hs1 hs2 : client_inv c (hs1 ++ (i, b) :: hs2) ->
  client_inv (bcache_release i c) (hs1 ++ hs2) /\ same_view c (bcache_release i c) /\
  cached_block_size (bcache_release i c) = cached_block_size c.
Proof.
  intros [C1 C2 C3 C4 C5]. destruct (C4 i b) as (Hb & e & He & Hh); [set_solver|].
  assert (0 < refcount e) as Hp by (rewrite (C5 i e He); apply (pins_in i b); set_solver).
  unfold bcache_release. rewrite (ent_lookup _ _ _ He), (proj2 (Z.ltb_lt _ _) Hp). set (f := fun e => e <| refcount ::= _ |>).
  destruct (touch_spec c i f e) as [Hc' Hs]; [done..|apply (ci_entry _ C1 i e He)|]. split_and!; [|done|done].
  constructor; [done..|rewrite length_app in C3 |- *; cbn in C3; lia| |].
  - intros j b' Hj. destruct (C4 j b') as (Hb' & g & Hg & Hgb); [set_solver|]. split; [done|]. rewrite lookup_set_ent.
    case_decide as Hij; [|by exists g]. subst j. rewrite Hg. exists (f g). done.
  - intros j g. rewrite lookup_set_ent, pins_app. specialize (C5 j). rewrite pins_app, pins_cons in C5. case_decide as Hij.
    + subst j. rewrite He. intros [= <-]. specialize (C5 e He). cbn. lia.
    + intros Hg. specialize (C5 g Hg). lia.
Qed.

Lemma write_client c i b hs bytes : client_inv c hs -> (i, b) ∈ hs -> length bytes = 4096%nat ->
  client_inv (client_write i bytes c) hs /\ cached_block_size (client_write i bytes c) = cached_block_size c /\
  forall b', 0 <= b' < 2 ^ 25 -> view (client_write i bytes c) b' = if b =? b' then take (Z.to_nat (cached_block_size c)) bytes else view c b'.
Proof.
  intros Hcl Hi Hl. destruct (cl_holds _ _ Hcl i b Hi) as (Hb & e & He & [Hv Hbe]%holds_valid).
  unfold client_write, bcache_mark_dirty. rewrite set_twice. set (f := fun e => e <| buf := bytes |> <| dirty := true |>).
  destruct (set_spec c i f e) as [Hc' Hs]; [apply Hcl|done..|]. split_and!; [|done|].
  - apply (client_pinned c); [done|done|apply Hcl|]. apply list_eq. intros j. rewrite !list_lookup_fmap, lookup_set_ent. case_decide; [|done]. by destruct (cache c !! j).
  - intros b' Hb'. rewrite Hs by done. unfold holds. by rewrite Hv, Hbe.
Qed.

Lemma client_step c hs w c' hs' : client_inv c hs -> cache_step (c, hs) w (c', hs') ->
  client_inv c' hs' /\ forall b, 0 <= b < 2 ^ 25 -> view c' b = store (view c) (option_list w) b.
Proof.
  intros Hcl H. inversion H as [now b ? ? ? i Hb Hn E|now b ? ? ? Hb E|? i b h1 h2|? i b ? bytes Hi Hl|? ?]; subst.
  - destruct (get_client now b c hs c' i) as (A & B & _); done.
  - pose proof (get_spec now b c (cl_cache _ _ Hcl) (cl_ready _ _ Hcl) Hb) as G. rewrite E in G. destruct G as (G1 & G2 & G3 & G4 & _).
    split; [|done]. apply (client_pinned c); [done..|by rewrite G3].
  - destruct (release_client c i b h1 h2) as (A & B & _); done.
  - destruct (write_client c i b hs' bytes) as (A & _ & B); [done..|]. split; [done|]. intros b' Hb'. by rewrite B.
  - destruct (sync_spec c) as (A & B & C & D & _); [apply Hcl..|]. split; [|done]. by apply (client_pinned c).
Qed.

Lemma store_app m ws ws' b : store m (ws ++ ws') b = store (store m ws) ws' b.
Proof. apply foldl_app. Qed.

Lemma store_ext m m' ws b : m b = m' b -> store m ws b = store m' ws b.
Proof. unfold store. by intros ->. Qed.

Lemma client_steps s ws s' : cache_steps s ws s' -> client_inv s.1 s.2 ->
  client_inv s'.1 s'.2 /\ forall b, 0 <= b < 2 ^ 25 -> view s'.1 b = store (view s.1) ws b.
Proof.
  induction 1 as [s|s ws [c hs] w [c' hs'] _ IH Hst]; intros Hcl; [done|]. destruct (IH Hcl) as [IH1 IH2].
  destruct (client_step c hs w c' hs' IH1 Hst) as [H1 H2]. split; [done|]. intros b Hb. rewrite store_app, H2 by done. by apply store_ext, IH2.
Qed.

(** ** Starting up *)

Definition blank (e : bcache_entry) : Prop := valid e = false /\ refcount e = 0 /\ length (buf e) = 4096%nat.

Lemma init_buffers_spec n : forall i h c,
  let c' := (init_buffers n i h c).2 in
  Forall blank (cache c) -> Forall blank (cache c') /\ hash_table c' = hash_table c /\ dsk c' = dsk c /\ present c' = present c.
Proof.
  induction n as [|n IH]; intros i h c; [done|]. cbn [init_buffers]. destruct (Kheap.kmalloc 4096 h) as [h' p]. intros Hc.
  assert (Forall blank (cache (set_ent i (fun e => e <| data := p |>) c))) as Hc1.
  { apply Forall_alter; [done|]. intros x _ Hx. exact Hx. }
  destruct (p =? 0); [done|]. exact (IH (S i) h' _ Hc1).
Qed.

Lemma blank_client c n : cached_block_size c = 512 * n -> 1 <= n <= 8 -> present c = true -> bcache_ready c = true ->
  (forall lba s, dsk c !! lba = Some s -> length s = 512%nat) -> hash_table c = replicate 64 None -> Forall blank (cache c) ->
  client_inv c [] /\ forall b, view c b = disk_block c b.
Proof.
  intros Hbs Hn Hp Hr Hd Ht Hb. rewrite Forall_lookup in Hb. split.
  - constructor; [|done|done|by intros ? ? ?%elem_of_nil|by intros i e (_ & -> & _)%Hb].
    constructor; [by rewrite Ht, length_replicate|by exists n| | | |by intros i e (_ & _ & ?)%Hb|done|done].
    + intros h Hh. exists []. split_and!; [|constructor|].
      * cbn. rewrite Ht. unfold zget. apply lookup_total_replicate_2. lia.
      * intros i. split; [by intros ?%elem_of_nil|]. intros (e & (Hv & _)%Hb & ? & _). congruence.
    + intros i e (Hv & _)%Hb. congruence.
    + intros i j e f (Hv & _)%Hb. congruence.
  - intros b. apply view_miss. intros i e (Hv & _)%Hb. unfold holds. by rewrite Hv.
Qed.

Lemma init_client h c n : 1 <= n <= 8 -> present c = true -> (forall lba s, dsk c !! lba = Some s -> length s = 512%nat) ->
  let c' := bcache_set_block_size (512 * n) (bcache_init h c).2 in
  client_inv c' [] /\ forall b, view c' b = disk_block (bcache_set_block_size (512 * n) c) b.
Proof.
  intros Hn Hp Hd c'. set (c0 := c <| cache := replicate BCACHE_SIZE entry_zero |> <| hash_table := replicate 64 None |>).
  destruct (init_buffers_spec BCACHE_SIZE 0 h c0) as (E1 & E2 & E3 & E4).
  { apply Forall_replicate. split_and!; [done|done|]. apply length_replicate. }
  unfold c', bcache_init. fold c0. destruct (init_buffers BCACHE_SIZE 0 h c0) as [h' c1]. cbn [snd] in *. clear c'.
  destruct (blank_client (bcache_set_block_size (512 * n) (c1 <| bcache_ready := true |>)) n) as [A B];
    [done|done|by rewrite <- Hp|done|change (forall lba s, dsk c1 !! lba = Some s -> length s = 512%nat); by rewrite E3|done|done|].
  split; [done|]. intros b. rewrite B. by apply disk_block_same.
Qed.

(** C3: from start-up, whatever a client does with the cache, it sees a plain
    block store over the disk: the contents of a block are the last bytes
    written through any handle, whether the block stayed cached, was evicted
    and read again, or shares its hash chain with others; the buffer behind
    every handle is the block it was obtained for, as last written; and a flush
    leaves exactly the store on the disk. *)
Theorem cache_refines_store h c0 n ws c hs : 1 <= n <= 8 -> present c0 = true ->
  (forall lba s, dsk c0 !! lba = Some s -> length s = 512%nat) ->
  cache_steps (bcache_set_block_size (512 * n) (bcache_init h c0).2, []) ws (c, hs) ->
  let m := store (disk_block (bcache_set_block_size (512 * n) c0)) ws in
  (forall b, 0 <= b < 2 ^ 25 -> view c b = m b) /\
  (forall i b, (i, b) ∈ hs -> block_no (ent c i) = b /\ take (Z.to_nat (cached_block_size c)) (buf (ent c i)) = m b) /\
  (forall b, 0 <= b < 2 ^ 25 -> disk_block (bcache_sync c) b = m b).
Proof.
  intros Hn Hp Hd Hst m. destruct (init_client h c0 n Hn Hp Hd) as [Hcl Hv0].
  destruct (client_steps _ _ _ Hst Hcl) as [H1 H2]. cbn [fst snd] in H1, H2.
  assert (forall b, 0 <= b < 2 ^ 25 -> view c b = m b) as Hv by (intros b Hb; rewrite H2 by done; by apply store_ext).
  split_and!; [done| |].
  - intros i b Hi. destruct (cl_holds _ _ H1 i b Hi) as (Hb & e & He & [Hve <-]%holds_valid). rewrite (ent_lookup _ _ _ He).
    split; [done|]. rewrite <- Hv by done. symmetry. by apply (view_hit c i e); [apply H1|..].
  - intros b Hb. rewrite <- Hv by done. apply (sync_spec c); [apply H1..|done].
Qed.

(** ** A concrete history: two buffers, three blocks of one hash chain *)

Definition demo_heap : Kheap.kheap := (Kheap.kheap_init [4096; 8192; 12288]).1.
Definition demo_off : bcache := mk_bcache [] [] false 0 0 0 ∅ true.
Definition demo_on : bcache := bcache_set_block_size 512 (bcache_init demo_heap demo_off).2.
Definition demo_written : bcache := client_write 0 (replicate 4096 7) (bcache_get 1 5 demo_on).1.
Definition demo_released : bcache := (bcache_get 2 69 (bcache_release 0 demo_written)).1.
Definition demo_evicted : bcache := (bcache_get 3 133 demo_released).1.

Lemma demo_get now b c i : (bcache_get now b c).2 = Some i -> bcache_get now b c = ((bcache_get now b c).1, Some i).
Proof. destruct (bcache_get now b c) as [c' r]. cbn. by intros ->. Qed.

Lemma demo_steps : cache_steps (demo_on, []) [(5, replicate 512 7)] (demo_evicted, [(0%nat, 133); (1%nat, 69)]).
Proof.
  change [(5, replicate 512 7)] with ((((([] ++ option_list None) ++ option_list (Some (5, take 512 (replicate 4096 7)))) ++ option_list None) ++ option_list (None : option (Z * list Z))) ++ option_list None).
  eapply steps_snoc; [eapply steps_snoc; [eapply steps_snoc; [eapply steps_snoc; [eapply steps_snoc; [apply steps_nil|]|]|]|]|].
  - apply (step_get 1 5 demo_on [] (bcache_get 1 5 demo_on).1 0); [lia|done|]. apply demo_get. vm_compute. reflexivity.
  - refine (eq_ind _ (fun bs => cache_step _ (Some (5, take (Z.to_nat bs) _)) _) (step_write (bcache_get 1 5 demo_on).1 0 5 [(0%nat, 5)] (replicate 4096 7) _ _) 512 _);
      [by left|apply length_replicate|]. vm_compute. reflexivity.
  - apply (step_release demo_written 0 5 [] []).
  - apply (step_get 2 69 (bcache_release 0 demo_written) [] demo_released 1); [lia|done|]. apply demo_get. vm_compute. reflexivity.
  - apply (step_get 3 133 demo_released [(1%nat, 69)] demo_evicted 0); [lia|done|]. apply demo_get. vm_compute. reflexivity.
Qed.

Lemma cache_refines_store_witness : disk_block (bcache_sync demo_evicted) 5 = replicate 512 7.
Proof.
  destruct (cache_refines_store demo_heap demo_off 1 [(5, replicate 512 7)] demo_evicted [(0%nat, 133); (1%nat, 69)]) as (_ & _ & H);
    [lia|reflexivity|intros lba s E; discriminate E|exact demo_steps|]. apply H. lia.
Defined.

End BlockCache.
