(* ===== verification/Ext2.v ===== *)
(** * The ext2 file system: blocks, inodes and files (fs/ext2.c, ext2.h)

    The mounted file system is the static state of ext2.c over the disk: the
    superblock, the group descriptors and the geometry.  The scratch buffers
    [block_buf] and [ind_buf] are refilled before each use, so that they are
    local here.  Structs are records with the bytes they have on disk.  The
    operations on files are here, those on directories in Ext2Dir. *)

From stdpp Require Import prelude gmap.
From Stdlib Require Import ZArith Lia.
From S2P Require Import Prelude Pmm Disk.
Import Disk.
Local Open Scope Z_scope.

Module Ext2.

(** ** Data *)

Definition EXT2_MAGIC : Z := 0xEF53.
Definition EXT2_S_IFREG : Z := 0x8000.
Definition EXT2_S_IFDIR : Z := 0x4000.
Definition EXT2_ROOT_INODE : Z := 2.

Record ext2_superblock := mk_sb {
  s_inodes_count : Z; s_blocks_count : Z; s_r_blocks_count : Z; s_free_blocks_count : Z; s_free_inodes_count : Z;
  s_first_data_block : Z; s_log_block_size : Z; s_log_frag_size : Z; s_blocks_per_group : Z; s_frags_per_group : Z;
  s_inodes_per_group : Z; s_mtime : Z; s_wtime : Z;
  s_mnt_count : Z; s_max_mnt_count : Z; s_magic : Z; s_state : Z; s_errors : Z; s_minor_rev_level : Z;
  s_lastcheck : Z; s_checkinterval : Z; s_creator_os : Z; s_rev_level : Z; s_def_resuid : Z; s_def_resgid : Z;
  s_first_ino : Z; s_inode_size : Z; s_block_group_nr : Z; s_feature_compat : Z; s_feature_incompat : Z; s_feature_ro_compat : Z;
  s_uuid : list Z; s_volume_name : list Z; s_last_mounted : list Z; s_algo_bitmap : Z
}.

#[export] Instance eta_sb : Eta ext2_superblock := fun s =>
  mk_sb (s_inodes_count s) (s_blocks_count s) (s_r_blocks_count s) (s_free_blocks_count s) (s_free_inodes_count s)
    (s_first_data_block s) (s_log_block_size s) (s_log_frag_size s) (s_blocks_per_group s) (s_frags_per_group s)
    (s_inodes_per_group s) (s_mtime s) (s_wtime s) (s_mnt_count s) (s_max_mnt_count s) (s_magic s) (s_state s) (s_errors s)
    (s_minor_rev_level s) (s_lastcheck s) (s_checkinterval s) (s_creator_os s) (s_rev_level s) (s_def_resuid s) (s_def_resgid s)
    (s_first_ino s) (s_inode_size s) (s_block_group_nr s) (s_feature_compat s) (s_feature_incompat s) (s_feature_ro_compat s)
    (s_uuid s) (s_volume_name s) (s_last_mounted s) (s_algo_bitmap s).

Definition SB_SIZE : Z := 204.

Definition sb_of (b : list Z) : ext2_superblock :=
  mk_sb (rd32 b 0) (rd32 b 4) (rd32 b 8) (rd32 b 12) (rd32 b 16) (rd32 b 20) (rd32 b 24) (rd32 b 28) (rd32 b 32) (rd32 b 36)
    (rd32 b 40) (rd32 b 44) (rd32 b 48) (rd16 b 52) (rd16 b 54) (rd16 b 56) (rd16 b 58) (rd16 b 60) (rd16 b 62)
    (rd32 b 64) (rd32 b 68) (rd32 b 72) (rd32 b 76) (rd16 b 80) (rd16 b 82) (rd32 b 84) (rd16 b 88) (rd16 b 90)
    (rd32 b 92) (rd32 b 96) (rd32 b 100) (slice b 104 16) (slice b 120 16) (slice b 136 64) (rd32 b 200).

Definition sb_bytes (s : ext2_superblock) : list Z :=
  le_bytes 4 (s_inodes_count s) ++ le_bytes 4 (s_blocks_count s) ++ le_bytes 4 (s_r_blocks_count s) ++
  le_bytes 4 (s_free_blocks_count s) ++ le_bytes 4 (s_free_inodes_count s) ++ le_bytes 4 (s_first_data_block s) ++
  le_bytes 4 (s_log_block_size s) ++ le_bytes 4 (s_log_frag_size s) ++ le_bytes 4 (s_blocks_per_group s) ++
  le_bytes 4 (s_frags_per_group s) ++ le_bytes 4 (s_inodes_per_group s) ++ le_bytes 4 (s_mtime s) ++ le_bytes 4 (s_wtime s) ++
  le_bytes 2 (s_mnt_count s) ++ le_bytes 2 (s_max_mnt_count s) ++ le_bytes 2 (s_magic s) ++ le_bytes 2 (s_state s) ++
  le_bytes 2 (s_errors s) ++ le_bytes 2 (s_minor_rev_level s) ++ le_bytes 4 (s_lastcheck s) ++ le_bytes 4 (s_checkinterval s) ++
  le_bytes 4 (s_creator_os s) ++ le_bytes 4 (s_rev_level s) ++ le_bytes 2 (s_def_resuid s) ++ le_bytes 2 (s_def_resgid s) ++
  le_bytes 4 (s_first_ino s) ++ le_bytes 2 (s_inode_size s) ++ le_bytes 2 (s_block_group_nr s) ++ le_bytes 4 (s_feature_compat s) ++
  le_bytes 4 (s_feature_incompat s) ++ le_bytes 4 (s_feature_ro_compat s) ++
  s_uuid s ++ s_volume_name s ++ s_last_mounted s ++ le_bytes 4 (s_algo_bitmap s).

Record ext2_block_group_desc := mk_bg {
  bg_block_bitmap : Z; bg_inode_bitmap : Z; bg_inode_table : Z;
  bg_free_blocks_count : Z; bg_free_inodes_count : Z; bg_used_dirs_count : Z; bg_pad : Z; bg_reserved : list Z
}.

#[export] Instance eta_bg : Eta ext2_block_group_desc := fun g =>
  mk_bg (bg_block_bitmap g) (bg_inode_bitmap g) (bg_inode_table g) (bg_free_blocks_count g) (bg_free_inodes_count g)
    (bg_used_dirs_count g) (bg_pad g) (bg_reserved g).
#[export] Instance bg_inhabited : Inhabited ext2_block_group_desc := populate (mk_bg 0 0 0 0 0 0 0 []).

Definition BG_SIZE : Z := 32.

Definition bg_of (b : list Z) : ext2_block_group_desc :=
  mk_bg (rd32 b 0) (rd32 b 4) (rd32 b 8) (rd16 b 12) (rd16 b 14) (rd16 b 16) (rd16 b 18) (slice b 20 12).

Definition bg_bytes (g : ext2_block_group_desc) : list Z :=
  le_bytes 4 (bg_block_bitmap g) ++ le_bytes 4 (bg_inode_bitmap g) ++ le_bytes 4 (bg_inode_table g) ++
  le_bytes 2 (bg_free_blocks_count g) ++ le_bytes 2 (bg_free_inodes_count g) ++ le_bytes 2 (bg_used_dirs_count g) ++
  le_bytes 2 (bg_pad g) ++ bg_reserved g.

Record ext2_inode := mk_inode {
  i_mode : Z; i_uid : Z; i_size : Z; i_atime : Z; i_ctime : Z; i_mtime : Z; i_dtime : Z; i_gid : Z; i_links_count : Z;
  i_blocks : Z; i_flags : Z; i_osd1 : Z; i_block : list Z; i_generation : Z; i_file_acl : Z; i_dir_acl : Z; i_faddr : Z; i_osd2 : list Z
}.

#[export] Instance eta_inode : Eta ext2_inode := fun n =>
  mk_inode (i_mode n) (i_uid n) (i_size n) (i_atime n) (i_ctime n) (i_mtime n) (i_dtime n) (i_gid n) (i_links_count n)
    (i_blocks n) (i_flags n) (i_osd1 n) (i_block n) (i_generation n) (i_file_acl n) (i_dir_acl n) (i_faddr n) (i_osd2 n).

Definition INODE_SIZE : Z := 128.

Definition inode_zero : ext2_inode := mk_inode 0 0 0 0 0 0 0 0 0 0 0 0 (replicate 15 0) 0 0 0 0 (replicate 12 0).

Definition inode_of (b : list Z) : ext2_inode :=
  mk_inode (rd16 b 0) (rd16 b 2) (rd32 b 4) (rd32 b 8) (rd32 b 12) (rd32 b 16) (rd32 b 20) (rd16 b 24) (rd16 b 26)
    (rd32 b 28) (rd32 b 32) (rd32 b 36) ((fun j : nat => rd32 b (40 + 4 * Z.of_nat j)) <$> seq 0 15)
    (rd32 b 100) (rd32 b 104) (rd32 b 108) (rd32 b 112) (slice b 116 12).

Definition inode_bytes (n : ext2_inode) : list Z :=
  le_bytes 2 (i_mode n) ++ le_bytes 2 (i_uid n) ++ le_bytes 4 (i_size n) ++ le_bytes 4 (i_atime n) ++ le_bytes 4 (i_ctime n) ++
  le_bytes 4 (i_mtime n) ++ le_bytes 4 (i_dtime n) ++ le_bytes 2 (i_gid n) ++ le_bytes 2 (i_links_count n) ++
  le_bytes 4 (i_blocks n) ++ le_bytes 4 (i_flags n) ++ le_bytes 4 (i_osd1 n) ++ mjoin (le_bytes 4 <$> i_block n) ++
  le_bytes 4 (i_generation n) ++ le_bytes 4 (i_file_acl n) ++ le_bytes 4 (i_dir_acl n) ++ le_bytes 4 (i_faddr n) ++ i_osd2 n.

Record ext2 := mk_ext2 {
  ext2_mounted : bool;
  sb : ext2_superblock;
  bgdt : list ext2_block_group_desc;
  block_size : Z;
  num_block_groups : Z;
  inode_size : Z;
  ata_disk_present : bool;
  image : disk
}.

#[export] Instance eta_ext2 : Eta ext2 := fun s =>
  mk_ext2 (ext2_mounted s) (sb s) (bgdt s) (block_size s) (num_block_groups s) (inode_size s) (ata_disk_present s) (image s).

Definition upd_bg (g : Z) (f : ext2_block_group_desc -> ext2_block_group_desc) (s : ext2) : ext2 :=
  s <| bgdt ::= alter f (Z.to_nat g) |>.

(** ** Blocks *)

Definition ext2_read_block (block_no : Z) (s : ext2) : option (list Z) :=
  let spb := block_size s / 512 in
  if ata_disk_present s then Some (ata_read_sectors (u32 (block_no * spb)) (u8 spb) (image s)) else None.

Definition ext2_write_block (block_no : Z) (buf : list Z) (s : ext2) : ext2 * Z :=
  let spb := block_size s / 512 in
  if ata_disk_present s then (s <| image ::= run (ata_write_sectors (u32 (block_no * spb)) (u8 spb) buf) |>, 0) else (s, -1).

(** ** Mounting *)

(** The descriptors in the memory at [mem]. *)
Definition bgs_of (n : nat) (mem : list Z) : list ext2_block_group_desc :=
  (fun j : nat => bg_of (drop (32 * j) mem)) <$> seq 0 n.

Definition bgdt_block (s : ext2) : Z := if block_size s =? 1024 then 2 else 1.

(** [fresh] is what [kmalloc] returns: the bytes of the new memory, or [None].
    The result is [None] when the division by [s_blocks_per_group] faults. *)
Definition ext2_init (fresh : option (list Z)) (s : ext2) : option (ext2 * Z) :=
  if negb (ata_disk_present s) then Some (s, -1) else
  let s := s <| sb := sb_of (ata_read_sectors 2 2 (image s)) |> in
  if negb (s_magic (sb s) =? EXT2_MAGIC) then Some (s, -1) else
  if s_blocks_per_group (sb s) =? 0 then None else
  let s := s <| block_size := u32 (Z.shiftl 1024 (Z.land (s_log_block_size (sb s)) 31)) |>
             <| inode_size := if 1 <=? s_rev_level (sb s) then s_inode_size (sb s) else 128 |>
             <| num_block_groups := u32 (s_blocks_count (sb s) + s_blocks_per_group (sb s) - 1) / s_blocks_per_group (sb s) |> in
  if 4096 <? block_size s then Some (s, -1) else
  let size := u32 (num_block_groups s * BG_SIZE) in
  match fresh with
  | None => Some (s, -1)
  | Some mem =>
      match ext2_read_block (bgdt_block s) s with
      | None => Some (s, -1)
      | Some b =>
          let mem := blit mem 0 (take (Z.to_nat (Z.min size (block_size s))) b) in
          Some (s <| bgdt := bgs_of (Z.to_nat (num_block_groups s)) mem |> <| ext2_mounted := true |>, 0)
      end
  end.

(** Write the superblock and the descriptors back. *)
Definition ext2_flush_metadata (s : ext2) : ext2 :=
  if negb (ata_disk_present s) then s else
  let sb_buf := sb_bytes (sb s) ++ replicate (1024 - length (sb_bytes (sb s))) 0 in
  let s := s <| image ::= run (ata_write_sectors 2 2 sb_buf) |> in
  let size := u32 (num_block_groups s * BG_SIZE) in
  match ext2_read_block (bgdt_block s) s with
  | None => s
  | Some b => (ext2_write_block (bgdt_block s) (blit b 0 (take (Z.to_nat (Z.min size (block_size s))) (mjoin (bg_bytes <$> bgdt s)))) s).1
  end.

(** ** Inodes *)

(** The block of the inode table with inode [ino], and where in it. *)
Definition inode_place (ino : Z) (s : ext2) : Z * Z :=
  let bg := u32 (ino - 1) / s_inodes_per_group (sb s) in
  let idx := u32 (ino - 1) mod s_inodes_per_group (sb s) in
  let off := u32 (idx * inode_size s) in
  (u32 (bg_inode_table (zget (bgdt s) bg) + off / block_size s), off mod block_size s).

Definition ext2_read_inode (ino : Z) (s : ext2) : option ext2_inode :=
  if negb (ext2_mounted s) || (ino =? 0) then None else
  let '(b, off) := inode_place ino s in
  match ext2_read_block b s with
  | None => None
  | Some buf => Some (inode_of (drop (Z.to_nat off) buf))
  end.

Definition ext2_write_inode (ino : Z) (n : ext2_inode) (s : ext2) : ext2 * Z :=
  if negb (ext2_mounted s) || (ino =? 0) then (s, -1) else
  let '(b, off) := inode_place ino s in
  match ext2_read_block b s with
  | None => (s, -1)
  | Some buf => ext2_write_block b (blit buf off (inode_bytes n)) s
  end.

(** ** Bitmaps *)

(** The first clear bit below [n]. *)
Definition first_clear (bm : list Z) (n : Z) : option Z :=
  Z.of_nat <$> find_index (fun i => negb (Pmm.bitmap_test bm i)) (seqZ 0 n).

(** The loop over the block groups from [bg] on. *)
Fixpoint alloc_block_from (groups : nat) (bg : Z) (s : ext2) : ext2 * Z :=
  match groups with
  | O => (s, 0)
  | S groups' =>
      let g := zget (bgdt s) bg in
      if bg_free_blocks_count g =? 0 then alloc_block_from groups' (bg + 1) s else
      match ext2_read_block (bg_block_bitmap g) s with
      | None => alloc_block_from groups' (bg + 1) s
      | Some bm =>
          match first_clear bm (s_blocks_per_group (sb s)) with
          | None => alloc_block_from groups' (bg + 1) s
          | Some i =>
              let s := (ext2_write_block (bg_block_bitmap g) (Pmm.bitmap_set bm i) s).1 in
              let s := upd_bg bg (fun g => g <| bg_free_blocks_count ::= fun c => u16 (c - 1) |>) s in
              let s := s <| sb ::= fun b => b <| s_free_blocks_count ::= fun c => u32 (c - 1) |> |> in
              (s, u32 (bg * s_blocks_per_group (sb s) + i + s_first_data_block (sb s)))
          end
      end
  end.

Definition ext2_alloc_block (s : ext2) : ext2 * Z := alloc_block_from (Z.to_nat (num_block_groups s)) 0 s.

Definition ext2_free_block (block_no : Z) (s : ext2) : ext2 :=
  if block_no =? 0 then s else
  let adjusted := u32 (block_no - s_first_data_block (sb s)) in
  let bg := adjusted / s_blocks_per_group (sb s) in
  let idx := adjusted mod s_blocks_per_group (sb s) in
  if num_block_groups s <=? bg then s else
  let g := zget (bgdt s) bg in
  match ext2_read_block (bg_block_bitmap g) s with
  | None => s
  | Some bm =>
      let s := (ext2_write_block (bg_block_bitmap g) (Pmm.bitmap_clear bm idx) s).1 in
      let s := upd_bg bg (fun g => g <| bg_free_blocks_count ::= fun c => u16 (c + 1) |>) s in
      s <| sb ::= fun b => b <| s_free_blocks_count ::= fun c => u32 (c + 1) |> |>
  end.

Fixpoint alloc_inode_from (groups : nat) (bg : Z) (s : ext2) : ext2 * Z :=
  match groups with
  | O => (s, 0)
  | S groups' =>
      let g := zget (bgdt s) bg in
      if bg_free_inodes_count g =? 0 then alloc_inode_from groups' (bg + 1) s else
      match ext2_read_block (bg_inode_bitmap g) s with
      | None => alloc_inode_from groups' (bg + 1) s
      | Some bm =>
          match first_clear bm (s_inodes_per_group (sb s)) with
          | None => alloc_inode_from groups' (bg + 1) s
          | Some i =>
              let s := (ext2_write_block (bg_inode_bitmap g) (Pmm.bitmap_set bm i) s).1 in
              let s := upd_bg bg (fun g => g <| bg_free_inodes_count ::= fun c => u16 (c - 1) |>) s in
              let s := s <| sb ::= fun b => b <| s_free_inodes_count ::= fun c => u32 (c - 1) |> |> in
              (s, u32 (bg * s_inodes_per_group (sb s) + i + 1))
          end
      end
  end.

Definition ext2_alloc_inode (s : ext2) : ext2 * Z := alloc_inode_from (Z.to_nat (num_block_groups s)) 0 s.

Definition ext2_free_inode (ino : Z) (s : ext2) : ext2 :=
  if ino =? 0 then s else
  let bg := u32 (ino - 1) / s_inodes_per_group (sb s) in
  let idx := u32 (ino - 1) mod s_inodes_per_group (sb s) in
  if num_block_groups s <=? bg then s else
  let g := zget (bgdt s) bg in
  match ext2_read_block (bg_inode_bitmap g) s with
  | None => s
  | Some bm =>
      let s := (ext2_write_block (bg_inode_bitmap g) (Pmm.bitmap_clear bm idx) s).1 in
      let s := upd_bg bg (fun g => g <| bg_free_inodes_count ::= fun c => u16 (c + 1) |>) s in
      s <| sb ::= fun b => b <| s_free_inodes_count ::= fun c => u32 (c + 1) |> |>
  end.

(** ** The blocks of a file *)

Definition ext2_get_block (n : ext2_inode) (block_idx : Z) (s : ext2) : Z :=
  let ptrs := block_size s / 4 in
  let entry b i := match ext2_read_block b s with Some buf => rd32 buf (4 * i) | None => 0 end in
  if block_idx <? 12 then zget (i_block n) block_idx else
  let block_idx := block_idx - 12 in
  if block_idx <? ptrs then
    let ind := zget (i_block n) 12 in
    if ind =? 0 then 0 else entry ind block_idx
  else
  let block_idx := block_idx - ptrs in
  if block_idx <? u32 (ptrs * ptrs) then
    let dind := zget (i_block n) 13 in
    if dind =? 0 then 0 else
    let ind := entry dind (block_idx / ptrs) in
    if ind =? 0 then 0 else entry ind (block_idx mod ptrs)
  else 0.

Definition ext2_set_block (n : ext2_inode) (block_idx disk_block : Z) (s : ext2) : ext2 * ext2_inode * Z :=
  let ptrs := block_size s / 4 in
  if block_idx <? 12 then (s, n <| i_block ::= fun l => zset l block_idx disk_block |>, 0) else
  let block_idx := block_idx - 12 in
  if block_idx <? ptrs then
    let '(s, n, ok) :=
      (if zget (i_block n) 12 =? 0 then
         let '(s, ind) := ext2_alloc_block s in
         if ind =? 0 then (s, n, false) else
         ((ext2_write_block ind (replicate (Z.to_nat (block_size s)) 0) s).1, n <| i_block ::= fun l => zset l 12 ind |>, true)
       else (s, n, true)) in
    if negb ok then (s, n, -1) else
    match ext2_read_block (zget (i_block n) 12) s with
    | None => (s, n, -1)
    | Some buf =>
        let '(s, r) := ext2_write_block (zget (i_block n) 12) (blit buf (4 * block_idx) (le_bytes 4 disk_block)) s in (s, n, r)
    end
  else (s, n, -1).

(** The read loop: [pos] is the next byte of the file, [left] how many are
    still to come. *)
Fixpoint read_from (fuel : nat) (n : ext2_inode) (pos left : Z) (s : ext2) : option (list Z) :=
  match fuel with
  | O => Some []
  | S fuel' =>
      if left <=? 0 then Some [] else
      let off := u32 (pos mod block_size s) in
      let to_read := Z.min (block_size s - off) left in
      let b := ext2_get_block n (u32 (pos / block_size s)) s in
      let rest := read_from fuel' n (pos + to_read) (left - to_read) s in
      if b =? 0 then app (replicate (Z.to_nat to_read) 0) <$> rest else
      match ext2_read_block b s with
      | None => None
      | Some buf => app (slice buf off to_read) <$> rest
      end
  end.

(** The bytes read, or [None] for an error. *)
Definition ext2_read_file (n : ext2_inode) (offset size : Z) (s : ext2) : option (list Z) :=
  if i_size n <=? offset then Some [] else
  let size := Z.min size (i_size n - offset) in
  read_from (Z.to_nat size) n offset size s.

(** The disk block for the block [idx] of the file, allocated if there is
    none; 0 when the disk is full. *)
Definition block_for (n : ext2_inode) (idx : Z) (s : ext2) : ext2 * ext2_inode * Z :=
  let b := ext2_get_block n idx s in
  if b =? 0 then
    let '(s, b) := ext2_alloc_block s in
    if b =? 0 then (s, n, 0) else
    let '(s, n, _) := ext2_set_block n idx b s in
    ((ext2_write_block b (replicate (Z.to_nat (block_size s)) 0) s).1,
     n <| i_blocks ::= fun c => u32 (c + block_size s / 512) |>, b)
  else (s, n, b).

(** One turn of the write loop: [chunk] goes to offset [off] of block [idx]. *)
Definition write_chunk (n : ext2_inode) (idx off : Z) (chunk : list Z) (s : ext2) : ext2 * ext2_inode * bool :=
  let '(s, n, b) := block_for n idx s in
  if b =? 0 then (s, n, false) else
  let whole := (off =? 0) && (Z.of_nat (length chunk) =? block_size s) in
  match (if whole then Some (replicate (Z.to_nat (block_size s)) 0) else ext2_read_block b s) with
  | None => (s, n, false)
  | Some buf => let '(s, r) := ext2_write_block b (blit buf off chunk) s in (s, n, 0 <=? r)
  end.

(** The write loop: the number of bytes written, and whether all were. *)
Fixpoint write_from (fuel : nat) (n : ext2_inode) (pos : Z) (data : list Z) (s : ext2) : ext2 * ext2_inode * Z * bool :=
  match fuel, data with
  | S fuel', _ :: _ =>
      let off := u32 (pos mod block_size s) in
      let k := Z.min (block_size s - off) (Z.of_nat (length data)) in
      let '(s, n, ok) := write_chunk n (u32 (pos / block_size s)) off (take (Z.to_nat k) data) s in
      if negb ok then (s, n, 0, false) else
      let '(s, n, w, ok) := write_from fuel' n (pos + k) (drop (Z.to_nat k) data) s in (s, n, k + w, ok)
  | _, _ => (s, n, 0, true)
  end.

Definition ext2_write_file (ino : Z) (n : ext2_inode) (offset : Z) (data : list Z) (s : ext2) : ext2 * ext2_inode * Z :=
  if negb (ext2_mounted s) then (s, n, -1) else
  let '(s, n, w, ok) := write_from (length data) n offset data s in
  if negb ok then (s, n, if 0 <? w then w else -1) else
  let new_end := u64 (offset + w) in
  let n := if i_size n <? new_end then n <| i_size := u32 new_end |> else n in
  (ext2_flush_metadata (ext2_write_inode ino n s).1, n, w).

Definition ext2_get_stats (s : ext2) : option (Z * Z * Z * Z * Z) :=
  if negb (ext2_mounted s) then None
  else Some (s_blocks_count (sb s), s_free_blocks_count (sb s), s_inodes_count (sb s), s_free_inodes_count (sb s), block_size s).

(** ** Blocks and geometry *)

(** The contents of block [b]. *)
Definition blk (s : ext2) (b : Z) : list Z := get_blk (block_size s / 512) (image s) b.

Definition bbm (s : ext2) (g : Z) : Z := bg_block_bitmap (zget (bgdt s) g).
Definition ibm (s : ext2) (g : Z) : Z := bg_inode_bitmap (zget (bgdt s) g).
Definition itab (s : ext2) (g : Z) : Z := bg_inode_table (zget (bgdt s) g).

Definition bpg (s : ext2) : Z := s_blocks_per_group (sb s).
Definition ipg (s : ext2) : Z := s_inodes_per_group (sb s).
Definition fdb (s : ext2) : Z := s_first_data_block (sb s).

(** What never changes while the file system is mounted. *)
Definition geom (s : ext2) : bool * bool * Z * Z * Z * (Z * Z * Z) * list (Z * Z * Z) :=
  (ext2_mounted s, ata_disk_present s, block_size s, inode_size s, num_block_groups s, (bpg s, ipg s, fdb s),
   (fun g => (bg_block_bitmap g, bg_inode_bitmap g, bg_inode_table g)) <$> bgdt s).

(** A block of the groups, and its bit in the bitmaps. *)
Definition in_range (s : ext2) (b : Z) : Prop := fdb s <= b < fdb s + num_block_groups s * bpg s.
Definition used (s : ext2) (b : Z) : bool := Pmm.bitmap_test (blk s (bbm s ((b - fdb s) / bpg s))) ((b - fdb s) mod bpg s).

Definition group (s : ext2) (g : Z) : Prop := 0 <= g < num_block_groups s.
Definition in_itab (s : ext2) (g b : Z) : Prop := itab s g <= b < itab s g + ipg s * inode_size s / block_size s.

(** Blocks with metadata: the superblock and the descriptors, the bitmaps and
    the inode tables. *)
Definition is_meta (s : ext2) (b : Z) : Prop :=
  0 <= b <= bgdt_block s \/ exists g, group s g /\ (b = bbm s g \/ b = ibm s g \/ in_itab s g b).

Record geo (s : ext2) : Prop := mk_geo {
  geo_mounted : ext2_mounted s = true;
  geo_present : ata_disk_present s = true;
  geo_disk : disk_wf (image s);
  geo_bs : block_size s = 1024 \/ block_size s = 2048 \/ block_size s = 4096;
  geo_bpg : 0 < bpg s <= 8 * block_size s;
  geo_ipg : 0 < ipg s <= 8 * block_size s;
  geo_isz : 128 <= inode_size s;
  geo_idiv : (inode_size s | block_size s);
  geo_tdiv : (block_size s | ipg s * inode_size s);
  geo_len : Z.of_nat (length (bgdt s)) = num_block_groups s;
  geo_fdb : 0 <= fdb s;
  geo_end : fdb s + num_block_groups s * bpg s <= 2 ^ 25;
  geo_range : forall b, is_meta s b -> 0 <= b < 2 ^ 25;
  geo_used : forall b, is_meta s b -> in_range s b -> used s b = true;
  geo_high : forall g b, group s g -> b = bbm s g \/ b = ibm s g \/ in_itab s g b -> bgdt_block s < b;
  geo_bb : forall g h, group s g -> group s h -> bbm s g = bbm s h -> g = h;
  geo_ii : forall g h, group s g -> group s h -> ibm s g = ibm s h -> g = h;
  geo_bi : forall g h, group s g -> group s h -> bbm s g <> ibm s h;
  geo_bt : forall g h b, group s g -> group s h -> in_itab s h b -> b <> bbm s g /\ b <> ibm s g;
  geo_tt : forall g h b, group s g -> group s h -> in_itab s g b -> in_itab s h b -> g = h;
  geo_count : forall g, group s g -> bg_free_blocks_count (zget (bgdt s) g) = countb negb (Pmm.view (blk s (bbm s g)) (bpg s));
  geo_icount : forall g, group s g -> bg_free_inodes_count (zget (bgdt s) g) = countb negb (Pmm.view (blk s (ibm s g)) (ipg s))
}.

Lemma geo_spb s : geo s -> exists n, block_size s = 512 * n /\ block_size s / 512 = n /\ 2 <= n <= 8.
Proof. intros Hg. destruct (geo_bs s Hg) as [-> | [-> | ->]]; [exists 2|exists 4|exists 8]; done. Qed.

Lemma read_blk s b : geo s -> ext2_read_block b s = Some (blk s b).
Proof. intros Hg. unfold ext2_read_block. by rewrite (geo_present s Hg). Qed.

Lemma length_blk s b : geo s -> 0 <= b < 2 ^ 25 -> Z.of_nat (length (blk s b)) = block_size s.
Proof.
  intros Hg Hb. destruct (geo_spb s Hg) as (n & E & En & Hn). unfold blk. rewrite En, E. apply length_get; [lia|done|apply Hg].
Qed.

(** Writing a block. *)
Definition put (b : Z) (buf : list Z) (s : ext2) : ext2 := s <| image ::= put_blk (block_size s / 512) b buf |>.

Lemma write_blk s b buf : geo s -> ext2_write_block b buf s = (put b buf s, 0).
Proof. intros Hg. unfold ext2_write_block. by rewrite (geo_present s Hg). Qed.

Lemma blk_put s b buf x : geo s -> 0 <= b < 2 ^ 25 -> 0 <= x < 2 ^ 25 -> Z.of_nat (length buf) = block_size s ->
  blk (put b buf s) x = if decide (x = b) then buf else blk s x.
Proof.
  intros Hg Hb Hx Hl. destruct (geo_spb s Hg) as (n & E & En & Hn). unfold blk, put. change (block_size (s <| image ::= _ |>)) with (block_size s).
  change (image (s <| image ::= ?f |>)) with (f (image s)). rewrite En, get_put by lia. destruct (decide (x = b)); [|done]. apply take_ge. lia.
Qed.

(** ** States with the same geometry *)

Lemma geom_bg s s' g : geom s' = geom s -> bbm s' g = bbm s g /\ ibm s' g = ibm s g /\ itab s' g = itab s g.
Proof.
  unfold geom. intros [= _ _ _ _ _ _ _ _ E]. unfold bbm, ibm, itab, zget. rewrite !list_lookup_total_alt.
  assert ((fun g => (bg_block_bitmap g, bg_inode_bitmap g, bg_inode_table g)) <$> bgdt s' !! Z.to_nat g =
          (fun g => (bg_block_bitmap g, bg_inode_bitmap g, bg_inode_table g)) <$> bgdt s !! Z.to_nat g) as E' by (by rewrite <- !list_lookup_fmap, E).
  destruct (bgdt s' !! Z.to_nat g), (bgdt s !! Z.to_nat g); cbn in *; [|done|done|done]. injection E' as E1 E2 E3. done.
Qed.

Lemma geom_eq s s' : geom s' = geom s -> ext2_mounted s' = ext2_mounted s /\ ata_disk_present s' = ata_disk_present s /\ block_size s' = block_size s /\
  inode_size s' = inode_size s /\ num_block_groups s' = num_block_groups s /\ bpg s' = bpg s /\ ipg s' = ipg s /\ fdb s' = fdb s /\ bgdt_block s' = bgdt_block s /\
  length (bgdt s') = length (bgdt s).
Proof.
  unfold geom. intros E. injection E as E1 E2 E3 E4 E5 E6 E7 E8 E9. unfold bgdt_block. rewrite E1, E2, E3, E4, E5, E6, E7, E8.
  split_and!; try done. by rewrite <- (length_fmap (fun g => (bg_block_bitmap g, bg_inode_bitmap g, bg_inode_table g)) (bgdt s')), E9, length_fmap.
Qed.

(** The predicates that depend on the geometry only. *)
Lemma geom_group s s' g : geom s' = geom s -> group s' g <-> group s g.
Proof. intros E. destruct (geom_eq s s' E) as (_ & _ & _ & _ & E5 & _). unfold group. by rewrite E5. Qed.

Lemma geom_in_itab s s' g b : geom s' = geom s -> in_itab s' g b <-> in_itab s g b.
Proof.
  intros E. destruct (geom_eq s s' E) as (_ & _ & E3 & E4 & _ & _ & E7 & _). destruct (geom_bg s s' g E) as (_ & _ & Et). unfold in_itab. by rewrite E3, E4, E7, Et.
Qed.

Lemma geom_meta s s' b : geom s' = geom s -> is_meta s' b <-> is_meta s b.
Proof.
  intros E. destruct (geom_eq s s' E) as (_ & _ & _ & _ & _ & _ & _ & _ & E9 & _). unfold is_meta. rewrite E9.
  assert (forall g, group s' g /\ (b = bbm s' g \/ b = ibm s' g \/ in_itab s' g b) <-> group s g /\ (b = bbm s g \/ b = ibm s g \/ in_itab s g b)) as H.
  { intros g. destruct (geom_bg s s' g E) as (-> & -> & _). by rewrite (geom_group s s' g E), (geom_in_itab s s' g b E). }
  split; (intros [?|[g Hg]]; [by left|right; exists g; by apply H]).
Qed.

Lemma geom_range s s' b : geom s' = geom s -> in_range s' b <-> in_range s b.
Proof. intros E. destruct (geom_eq s s' E) as (_ & _ & _ & _ & E5 & E6 & _ & E8 & _). unfold in_range. by rewrite E5, E6, E8. Qed.

Lemma geo_step s s' : geo s -> geom s' = geom s -> disk_wf (image s') ->
  (forall b, is_meta s b -> in_range s b -> used s' b = true) ->
  (forall g, group s g -> bg_free_blocks_count (zget (bgdt s') g) = countb negb (Pmm.view (blk s' (bbm s g)) (bpg s))) ->
  (forall g, group s g -> bg_free_inodes_count (zget (bgdt s') g) = countb negb (Pmm.view (blk s' (ibm s g)) (ipg s))) -> geo s'.
Proof.
  intros Hg E Hd Hu Hc Hi. destruct (geom_eq s s' E) as (E1 & E2 & E3 & E4 & E5 & E6 & E7 & E8 & E9 & E10).
  assert (forall g, bbm s' g = bbm s g /\ ibm s' g = ibm s g /\ itab s' g = itab s g) as Eb by (intros g; by apply geom_bg).
  split; rewrite ?E1, ?E2, ?E3, ?E4, ?E5, ?E6, ?E7, ?E8, ?E10; try apply Hg; try done.
  - intros b. rewrite (geom_meta s s' b E). apply (geo_range s Hg).
  - intros b. rewrite (geom_meta s s' b E), (geom_range s s' b E). apply Hu.
  - intros g b. rewrite (geom_group s s' g E), (geom_in_itab s s' g b E), E9. destruct (Eb g) as (-> & -> & _). apply (geo_high s Hg).
  - intros g h. rewrite !(geom_group s s' _ E). destruct (Eb g) as (-> & _), (Eb h) as (-> & _). apply (geo_bb s Hg).
  - intros g h. rewrite !(geom_group s s' _ E). destruct (Eb g) as (_ & -> & _), (Eb h) as (_ & -> & _). apply (geo_ii s Hg).
  - intros g h. rewrite !(geom_group s s' _ E). destruct (Eb g) as (-> & _), (Eb h) as (_ & -> & _). apply (geo_bi s Hg).
  - intros g h b. rewrite !(geom_group s s' _ E), (geom_in_itab s s' h b E). destruct (Eb g) as (-> & -> & _). apply (geo_bt s Hg).
  - intros g h b. rewrite !(geom_group s s' _ E), !(geom_in_itab s s' _ b E). apply (geo_tt s Hg).
  - intros g. rewrite (geom_group s s' g E). destruct (Eb g) as (-> & _). apply Hc.
  - intros g. rewrite (geom_group s s' g E). destruct (Eb g) as (_ & -> & _). apply Hi.
Qed.

Lemma range_group s b : geo s -> in_range s b -> group s ((b - fdb s) / bpg s) /\ 0 <= (b - fdb s) mod bpg s < bpg s.
Proof.
  intros Hg Hb. pose proof (geo_bpg s Hg). unfold in_range, group in *. split; [|apply Z.mod_pos_bound; lia].
  split; [apply Z.div_pos; lia|apply Z.div_lt_upper_bound; lia].
Qed.

Lemma range_small s b : geo s -> in_range s b -> 0 <= b < 2 ^ 25.
Proof. intros Hg Hb. pose proof (geo_fdb s Hg). pose proof (geo_end s Hg). unfold in_range in Hb. lia. Qed.

Lemma bbm_small s g : geo s -> group s g -> 0 <= bbm s g < 2 ^ 25.
Proof. intros Hg Hgr. apply (geo_range s Hg). right. exists g. auto. Qed.

Lemma ibm_small s g : geo s -> group s g -> 0 <= ibm s g < 2 ^ 25.
Proof. intros Hg Hgr. apply (geo_range s Hg). right. exists g. auto. Qed.

(** A block that is no bitmap. *)
Definition no_bitmap (s : ext2) (b : Z) : Prop := forall g, group s g -> b <> bbm s g /\ b <> ibm s g.

Lemma used_put s b buf x : geo s -> 0 <= b < 2 ^ 25 -> no_bitmap s b -> Z.of_nat (length buf) = block_size s -> in_range s x ->
  used (put b buf s) x = used s x.
Proof.
  intros Hg Hb Hn Hl Hx. destruct (range_group s x Hg Hx) as [Hgr _]. unfold used.
  change (bbm (put b buf s)) with (bbm s). change (fdb (put b buf s)) with (fdb s). change (bpg (put b buf s)) with (bpg s).
  rewrite blk_put, decide_False; [done| |done|done|by apply bbm_small|done]. destruct (Hn _ Hgr). congruence.
Qed.

Lemma geo_put s b buf : geo s -> 0 <= b < 2 ^ 25 -> no_bitmap s b -> Z.of_nat (length buf) = block_size s -> geo (put b buf s).
Proof.
  intros Hg Hb Hn Hl. destruct (geo_spb s Hg) as (n & E & En & Hs). apply (geo_step s); [done|done| | | |].
  - unfold put. cbn. rewrite En. apply put_wf; [lia|done|lia|apply Hg].
  - intros x Hx Hr. rewrite used_put by done. by apply (geo_used s Hg).
  - intros g Hgr. rewrite blk_put, decide_False; [by apply (geo_count s Hg)| |done|done|by apply bbm_small|done]. destruct (Hn g Hgr). congruence.
  - intros g Hgr. rewrite blk_put, decide_False; [by apply (geo_icount s Hg)| |done|done|by apply ibm_small|done]. destruct (Hn g Hgr). congruence.
Qed.

(** A free block is no metadata. *)
Lemma free_not_meta s b : geo s -> in_range s b -> used s b = false -> ~ is_meta s b.
Proof. intros Hg Hr Hu Hm. by rewrite (geo_used s Hg b Hm Hr) in Hu. Qed.

Lemma not_meta_no_bitmap s b : ~ is_meta s b -> no_bitmap s b.
Proof. intros Hm g Hg. split; intros ->; apply Hm; right; exists g; auto. Qed.

(** ** Allocating and freeing blocks *)

Lemma first_clear_spec bm n i : first_clear bm n = Some i -> 0 <= i < n /\ Pmm.bitmap_test bm i = false.
Proof.
  unfold first_clear. intros (k & Hk & ->)%fmap_Some. apply find_index_Some in Hk as (x & Hx & Hp & _).
  apply lookup_seqZ in Hx as [-> Hlt]. split; [lia|]. rewrite Z.add_0_l in Hp. by destruct (Pmm.bitmap_test bm _).
Qed.

Lemma first_clear_None bm n i : first_clear bm n = None -> 0 <= i < n -> Pmm.bitmap_test bm i = true.
Proof.
  unfold first_clear. intros H Hi. apply fmap_None in H. pose proof (proj1 (find_index_None _ _) H (Z.to_nat i) i) as Hc. clear H. rename Hc into H.
  rewrite lookup_seqZ in H. specialize (H ltac:(lia)). by destruct (Pmm.bitmap_test bm i).
Qed.

(** The state after block [b] was taken. *)
Definition claim (b : Z) (s : ext2) : ext2 :=
  let g := (b - fdb s) / bpg s in
  let s' := put (bbm s g) (Pmm.bitmap_set (blk s (bbm s g)) ((b - fdb s) mod bpg s)) s in
  (upd_bg g (fun g => g <| bg_free_blocks_count ::= fun c => u16 (c - 1) |>) s')
    <| sb ::= fun b => b <| s_free_blocks_count ::= fun c => u32 (c - 1) |> |>.

Lemma alloc_from_spec groups bg s : geo s -> 0 <= bg -> bg + Z.of_nat groups = num_block_groups s ->
  let '(s', b) := alloc_block_from groups bg s in
  (b = 0 /\ s' = s /\ forall x, in_range s x -> bg <= (x - fdb s) / bpg s -> used s x = true) \/
  (in_range s b /\ used s b = false /\ s' = claim b s).
Proof.
  intros Hg. revert bg. induction groups as [|groups IH]; intros bg H0 Hn; cbn [alloc_block_from].
  - left. split_and!; [done..|]. intros x Hx Hle. destruct (range_group s x Hg Hx) as [[? ?] _]. lia.
  - assert (group s bg) as Hgr by (unfold group; lia). specialize (IH (bg + 1) ltac:(lia) ltac:(lia)).
    assert ((forall i, 0 <= i < bpg s -> Pmm.bitmap_test (blk s (bbm s bg)) i = true) ->
      let '(s', b) := alloc_block_from groups (bg + 1) s in
      (b = 0 /\ s' = s /\ forall x, in_range s x -> bg <= (x - fdb s) / bpg s -> used s x = true) \/
      (in_range s b /\ used s b = false /\ s' = claim b s)) as Hskip.
    { intros Hfull. destruct (alloc_block_from groups (bg + 1) s) as [s' b]. destruct IH as [(-> & -> & Hx)|IH]; [left|by right]. split_and!; [done..|].
      intros x Hr Hle. destruct (decide ((x - fdb s) / bpg s = bg)) as [E|]; [|apply Hx; [done|lia]]. unfold used. rewrite E. apply Hfull.
      apply (range_group s x Hg Hr). }
    destruct (Z.eqb_spec (bg_free_blocks_count (zget (bgdt s) bg)) 0) as [E|E].
    + apply Hskip. intros i Hi. rewrite (geo_count s Hg bg Hgr) in E. destruct (Pmm.bitmap_test _ i) eqn:Et; [done|].
      pose proof (Pmm.count_free_pos _ _ _ Hi Et). lia.
    + fold (bbm s bg). rewrite read_blk by done. destruct (first_clear (blk s (bbm s bg)) (s_blocks_per_group (sb s))) as [i|] eqn:Ef.
      * apply first_clear_spec in Ef as [Hi Ht]. fold (bpg s) in *. right. rewrite write_blk by done. cbn [fst].
        pose proof (geo_fdb s Hg). pose proof (geo_end s Hg). pose proof (geo_bpg s Hg). unfold group in Hgr.
        set (b := u32 _). assert (b = fdb s + bg * bpg s + i) as Eb by (change (u32 (bg * bpg s + i + fdb s) = fdb s + bg * bpg s + i); rewrite u32_small; nia).
        clearbody b. subst b.
        assert ((fdb s + bg * bpg s + i - fdb s) / bpg s = bg) as Ed by (replace (fdb s + bg * bpg s + i - fdb s) with (i + bg * bpg s) by lia; rewrite Z.div_add, Z.div_small by lia; lia).
        assert ((fdb s + bg * bpg s + i - fdb s) mod bpg s = i) as Em by (replace (fdb s + bg * bpg s + i - fdb s) with (i + bg * bpg s) by lia; rewrite Z.mod_add, Z.mod_small by lia; lia).
        split_and!; [unfold in_range; nia| |].
        -- unfold used. by rewrite Ed, Em.
        -- unfold claim. by rewrite Ed, Em.
      * apply Hskip. intros i Hi. by apply (first_clear_None _ (bpg s)).
Qed.

(** A change to one descriptor that keeps its blocks. *)
Lemma geom_upd_bg g f s : (forall d, bg_block_bitmap (f d) = bg_block_bitmap d /\ bg_inode_bitmap (f d) = bg_inode_bitmap d /\ bg_inode_table (f d) = bg_inode_table d) ->
  geom (upd_bg g f s) = geom s.
Proof.
  intros Hf. unfold geom, upd_bg. cbn. f_equal. apply list_eq. intros i. rewrite !list_lookup_fmap. destruct (decide (Z.to_nat g = i)) as [<-|].
  - rewrite list_lookup_alter_eq. destruct (bgdt s !! Z.to_nat g) as [d|]; [|done]. cbn. destruct (Hf d) as (-> & -> & ->). done.
  - by rewrite list_lookup_alter_ne.
Qed.

Lemma zget_upd_bg g f s h : geo s -> group s g -> group s h ->
  zget (bgdt (upd_bg g f s)) h = if decide (h = g) then f (zget (bgdt s) h) else zget (bgdt s) h.
Proof.
  intros Hg Hgr Hh. pose proof (geo_len s Hg). unfold group, upd_bg, zget in *. cbn. rewrite !list_lookup_total_alt. destruct (decide (h = g)) as [->|].
  - rewrite list_lookup_alter_eq. destruct (lookup_lt_is_Some_2 (bgdt s) (Z.to_nat g)) as [d ->]; [lia|done].
  - by rewrite list_lookup_alter_ne by lia.
Qed.

(** What taking a block changes: its bit, and nothing outside the bitmaps. *)
Lemma claim_spec s b : geo s -> in_range s b -> used s b = false ->
  geo (claim b s) /\ geom (claim b s) = geom s /\
  (forall x, in_range s x -> used (claim b s) x = used s x || bool_decide (x = b)) /\
  (forall x, 0 <= x < 2 ^ 25 -> (forall g, group s g -> x <> bbm s g) -> blk (claim b s) x = blk s x).
Proof.
  intros Hg Hr Hu. destruct (range_group s b Hg Hr) as [Hgr Hi]. set (g := (b - fdb s) / bpg s) in *. set (i := (b - fdb s) mod bpg s) in *.
  set (bm := Pmm.bitmap_set (blk s (bbm s g)) i). pose proof (bbm_small s g Hg Hgr) as Hb. pose proof (length_blk s _ Hg Hb) as Hlen. pose proof (geo_bpg s Hg) as Hbpg.
  assert (Z.of_nat (length bm) = block_size s) as Hl by (unfold bm; by rewrite Pmm.length_bitmap_set). fold g i in Hu. unfold used in Hu. fold g i in Hu.
  assert (forall x, 0 <= x < 2 ^ 25 -> blk (claim b s) x = if decide (x = bbm s g) then bm else blk s x) as Hblk by (intros x Hx; by apply (blk_put s)).
  assert (geom (claim b s) = geom s) as Eg
    by (transitivity (geom (upd_bg g (fun g => g <| bg_free_blocks_count ::= fun c => u16 (c - 1) |>) s)); [done|by apply geom_upd_bg]).
  assert (forall x, in_range s x -> used (claim b s) x = used s x || bool_decide (x = b)) as Hused.
  { intros x Hx. destruct (range_group s x Hg Hx) as [Hgx Hix]. unfold used. destruct (geom_eq _ _ Eg) as (_ & _ & _ & _ & _ & -> & _ & -> & _).
    destruct (geom_bg _ _ ((x - fdb s) / bpg s) Eg) as (-> & _). rewrite Hblk by (by apply bbm_small). destruct (decide (bbm s ((x - fdb s) / bpg s) = bbm s g)) as [E|E].
    - apply (geo_bb s Hg) in E; [|done|done]. rewrite E. unfold bm. rewrite Pmm.bitmap_set_spec by zsolve. rewrite orb_comm. f_equal.
      apply bool_decide_ext. unfold i, g in *. pose proof (Z.div_mod (x - fdb s) (bpg s)). pose proof (Z.div_mod (b - fdb s) (bpg s)). split; [|intros ->; done]. nia.
    - rewrite bool_decide_false, orb_false_r; [done|]. intros ->. by apply E. }
  split_and!; [|done|done|].
  - apply (geo_step s); [done|done| | | |].
    + unfold claim. destruct (geo_spb s Hg) as (n & E & En & Hs). cbn. rewrite En. apply put_wf; [lia|done|fold g i bm; lia|apply Hg].
    + intros x Hm Hx. rewrite Hused by done. by rewrite (geo_used s Hg x Hm Hx).
    + intros h Hh. rewrite Hblk by (by apply bbm_small). change (zget (bgdt (claim b s)) h) with (zget (bgdt (upd_bg g (fun g => g <| bg_free_blocks_count ::= fun c => u16 (c - 1) |>) s)) h).
      rewrite zget_upd_bg by done. destruct (decide (h = g)) as [->|Hne].
      * rewrite decide_True by done. unfold bm. rewrite Pmm.count_set by (done || zsolve). change (u16 (bg_free_blocks_count (zget (bgdt s) g) - 1) = countb negb (Pmm.view (blk s (bbm s g)) (bpg s)) - 1).
        rewrite (geo_count s Hg g Hgr). pose proof (Pmm.count_free_bounds (blk s (bbm s g)) (bpg s) ltac:(lia)). pose proof (Pmm.count_free_pos _ _ _ Hi Hu).
        apply u16_small. destruct (geo_bs s Hg) as [E|[E|E]]; rewrite E in Hbpg; lia.
      * rewrite decide_False; [by apply (geo_count s Hg)|]. intros E. apply Hne. by apply (geo_bb s Hg).
    + intros h Hh. rewrite Hblk by (by apply ibm_small). rewrite decide_False by (intros E; by apply (geo_bi s Hg g h)).
      change (zget (bgdt (claim b s)) h) with (zget (bgdt (upd_bg g (fun g => g <| bg_free_blocks_count ::= fun c => u16 (c - 1) |>) s)) h).
      rewrite zget_upd_bg by done. destruct (decide (h = g)) as [->|Hne]; by apply (geo_icount s Hg).
  - intros x Hx Hn. rewrite Hblk, decide_False by (done || by apply Hn). done.
Qed.

Definition free (s : ext2) (b : Z) : Prop := in_range s b /\ used s b = false.

(** At least [k] blocks are free. *)
Definition room (k : nat) (s : ext2) : Prop := exists l, NoDup l /\ length l = k /\ Forall (free s) l.

Lemma free_nonzero s b : geo s -> free s b -> b <> 0.
Proof.
  intros Hg [Hr Hu] ->. apply (free_not_meta s 0 Hg Hr Hu). left. unfold bgdt_block. destruct (block_size s =? 1024); lia.
Qed.

Lemma alloc_spec s : geo s -> let '(s', b) := ext2_alloc_block s in
  (b = 0 /\ s' = s /\ forall x, ~ free s x) \/ (b <> 0 /\ free s b /\ s' = claim b s).
Proof.
  intros Hg. unfold ext2_alloc_block. pose proof (geo_len s Hg). pose proof (alloc_from_spec (Z.to_nat (num_block_groups s)) 0 s Hg ltac:(lia) ltac:(lia)) as H1.
  destruct (alloc_block_from _ 0 s) as [s' b]. destruct H1 as [(-> & -> & Hx)|(Hr & Hu & ->)].
  - left. split_and!; [done..|]. intros x [Hr Hu]. rewrite Hx in Hu; [done|done|]. apply (range_group s x Hg Hr).
  - right. split_and!; [|by split|done]. by apply (free_nonzero s).
Qed.

Lemma alloc_room s k : geo s -> room (S k) s -> exists b, ext2_alloc_block s = (claim b s, b) /\ b <> 0 /\ free s b.
Proof.
  intros Hg ([|x l] & _ & Hl & Hf); [done|]. pose proof (alloc_spec s Hg) as Ha. destruct (ext2_alloc_block s) as [s' b].
  destruct Ha as [(-> & -> & Hx)|(Hb & Hfb & ->)]; [|by exists b]. apply Forall_cons in Hf as [Hf _]. by destruct (Hx x).
Qed.

Lemma free_claim s b x : geo s -> free s b -> free (claim b s) x <-> free s x /\ x <> b.
Proof.
  intros Hg [Hr Hu]. destruct (claim_spec s b Hg Hr Hu) as (_ & E & Hus & _). unfold free. rewrite (geom_range s _ x E). split.
  - intros [Hx Hux]. rewrite Hus in Hux by done. apply orb_false_iff in Hux as [H1 H2%bool_decide_eq_false]. done.
  - intros [[Hx Hux] Hne]. split; [done|]. rewrite Hus, Hux by done. by rewrite bool_decide_false.
Qed.

Lemma room_claim s b k : geo s -> free s b -> room (S k) s -> room k (claim b s).
Proof.
  intros Hg Hb (l & Hd & Hl & Hf). assert (exists m, NoDup m /\ length m = k /\ Forall (free s) m /\ b ∉ m) as (m & H1 & H2 & H3 & H4).
  { destruct (decide (b ∈ l)) as [Hin|Hout].
    - apply elem_of_Permutation in Hin as [m Hm]. rewrite Hm in Hd, Hf. apply NoDup_cons in Hd as [Hn Hd]. apply Forall_cons in Hf as [_ Hf].
      exists m. split_and!; [done| |done|done]. apply Permutation_length in Hm. cbn in Hm. lia.
    - destruct l as [|x m]; [done|]. apply NoDup_cons in Hd as [_ Hd]. apply Forall_cons in Hf as [_ Hf]. apply not_elem_of_cons in Hout as [_ Hout].
      exists m. split_and!; [done|by injection Hl|done|done]. }
  exists m. split_and!; [done|done|]. apply Forall_forall. intros x Hx. apply free_claim; [done..|]. rewrite Forall_forall in H3. split; [by apply H3|by intros ->].
Qed.

(** ** Files *)

(** The pointers of an inode without double indirection: twelve direct ones,
    the indirect block, and its entries. *)
Definition slot (n : ext2_inode) (s : ext2) (k : Z) : Z :=
  if k <? 13 then zget (i_block n) k else
  if zget (i_block n) 12 =? 0 then 0 else rd32 (blk s (zget (i_block n) 12)) (4 * (k - 13)).

Definition ptrs (s : ext2) : Z := block_size s / 4.
Definition is_slot (s : ext2) (k : Z) : Prop := 0 <= k < 13 + ptrs s.

(** Where the block [idx] of the file is. *)
Definition slot_of (idx : Z) : Z := if idx <? 12 then idx else idx + 1.
Definition is_idx (s : ext2) (idx : Z) : Prop := 0 <= idx < 12 + ptrs s.

(** A block that belongs to a file. *)
Definition owned (s : ext2) (b : Z) : Prop := in_range s b /\ used s b = true /\ ~ is_meta s b.

Record file_ok (n : ext2_inode) (s : ext2) : Prop := mk_file_ok {
  file_len : length (i_block n) = 15%nat;
  file_owned : forall k, is_slot s k -> slot n s k <> 0 -> owned s (slot n s k);
  file_inj : forall j k, is_slot s j -> is_slot s k -> slot n s j = slot n s k -> slot n s j <> 0 -> j = k
}.

Lemma get_block_slot n s idx : geo s -> is_idx s idx -> ext2_get_block n idx s = slot n s (slot_of idx).
Proof.
  intros Hg Hi. unfold is_idx, ptrs in Hi. unfold ext2_get_block, slot, slot_of. destruct (Z.ltb_spec idx 12) as [H1|H1].
  - by rewrite (proj2 (Z.ltb_lt idx 13)) by lia.
  - rewrite (proj2 (Z.ltb_lt (idx - 12) _)), (proj2 (Z.ltb_ge (idx + 1) 13)) by lia. rewrite read_blk by done. by replace (idx + 1 - 13) with (idx - 12) by lia.
Qed.

Lemma slot_of_inj i j : slot_of i = slot_of j -> i = j.
Proof. unfold slot_of. destruct (Z.ltb_spec i 12), (Z.ltb_spec j 12); lia. Qed.

Lemma slot_of_range s idx : is_idx s idx -> is_slot s (slot_of idx) /\ slot_of idx <> 12.
Proof. unfold is_idx, is_slot, slot_of. destruct (Z.ltb_spec idx 12); lia. Qed.

Lemma ptrs_size s : geo s -> 256 <= ptrs s <= 1024 /\ 4 * ptrs s = block_size s.
Proof. intros Hg. unfold ptrs. destruct (geo_bs s Hg) as [-> | [-> | ->]]; done. Qed.

(** The slots are the blocks of the file and the indirect block. *)
Lemma slot_cases s k : geo s -> is_slot s k -> k = 12 \/ exists idx, is_idx s idx /\ k = slot_of idx.
Proof.
  intros Hg. pose proof (ptrs_size s Hg). unfold is_slot, is_idx, slot_of. intros Hk. destruct (decide (k = 12)) as [->|]; [by left|right].
  destruct (decide (k < 12)); [exists k|exists (k - 1)]; [rewrite (proj2 (Z.ltb_lt _ _)) by lia|rewrite (proj2 (Z.ltb_ge _ _)) by lia]; lia.
Qed.

Lemma owned_small s b : geo s -> owned s b -> 0 <= b < 2 ^ 25 /\ no_bitmap s b.
Proof. intros Hg (Hr & _ & Hm). split; [by apply (range_small s)|by apply not_meta_no_bitmap]. Qed.

(** Owned blocks stay owned as long as they stay used. *)
Lemma owned_geom s s' b : geom s' = geom s -> owned s b -> used s' b = true -> owned s' b.
Proof. intros E (Hr & _ & Hm) Hu. split_and!; [by apply (geom_range s)|done|by rewrite (geom_meta s s' b E)]. Qed.

(** A block that was free before it was taken is now owned. *)
Lemma owned_claim s b : geo s -> free s b -> owned (claim b s) b.
Proof.
  intros Hg [Hr Hu]. destruct (claim_spec s b Hg Hr Hu) as (_ & E & Hus & _). split_and!; [by apply (geom_range s)| |].
  - rewrite Hus by done. by rewrite bool_decide_true, orb_true_r.
  - rewrite (geom_meta s _ b E). by apply free_not_meta.
Qed.

Lemma owned_not_free s b : owned s b -> ~ free s b.
Proof. intros (_ & Hu & _) [_ Hf]. congruence. Qed.

(** ** Loads and stores in a block *)

Lemma zget_zeros m i : 0 <= i < Z.of_nat m -> zget (replicate m 0) i = 0.
Proof. intros Hi. unfold zget. rewrite lookup_total_replicate_2 by lia. done. Qed.

Lemma rd32_zeros m off : 0 <= off -> off + 4 <= Z.of_nat m -> rd32 (replicate m 0) off = 0.
Proof. intros H0 H1. unfold rd32. cbn [rd_le]. by rewrite !zget_zeros by lia. Qed.

Lemma rd32_store buf i j v : 0 <= i -> 0 <= j -> 4 * i + 4 <= Z.of_nat (length buf) -> 4 * j + 4 <= Z.of_nat (length buf) -> 0 <= v < 2 ^ 32 ->
  rd32 (blit buf (4 * i) (le_bytes 4 v)) (4 * j) = if decide (j = i) then v else rd32 buf (4 * j).
Proof.
  intros Hi Hj Hli Hlj Hv. destruct (decide (j = i)) as [->|Hne]; [rewrite rd32_blit by lia; by apply u32_small|].
  apply rd_le_ext. intros k Hk. apply zget_blit_out; rewrite ?length_le_bytes; cbn in *; lia.
Qed.

(** ** Frames *)

(** From [s] to [s'] nothing changed but the block bitmaps, blocks that were
    free in [s], and the blocks in [X]; used blocks stay used. *)
Record frame (s s' : ext2) (X : Z -> Prop) : Prop := mk_frame {
  fr_geom : geom s' = geom s;
  fr_used : forall x, in_range s x -> used s x = true -> used s' x = true;
  fr_blk : forall x, 0 <= x < 2 ^ 25 -> (forall g, group s g -> x <> bbm s g) -> ~ free s x -> ~ X x -> blk s' x = blk s x
}.

Lemma frame_refl s X : frame s s X.
Proof. by split. Qed.

Lemma frame_trans s s1 s2 (X Y : Z -> Prop) : frame s s1 X -> frame s1 s2 Y -> (forall x, Y x -> X x \/ free s x) -> frame s s2 X.
Proof.
  intros [G1 U1 B1] [G2 U2 B2] Hxy. split; [congruence| |].
  - intros x Hx Hu. apply U2; [by apply (geom_range s)|auto].
  - intros x Hx Hb Hf HX. rewrite B2; [auto|done| | |].
    + intros g. rewrite (geom_group s s1 g G1). destruct (geom_bg s s1 g G1) as (-> & _). apply Hb.
    + intros [Hr Hu]. apply (geom_range s s1 x G1) in Hr. apply Hf. split; [done|]. destruct (used s x) eqn:E; [|done]. rewrite U1 in Hu; done.
    + intros HY. destruct (Hxy x HY); auto.
Qed.

Lemma frame_weaken s s' (X Y : Z -> Prop) : frame s s' X -> (forall x, X x -> Y x) -> frame s s' Y.
Proof. intros [G U B] H. split; [done|done|]. intros x Hx Hb Hf HY. apply B; auto. Qed.

Lemma frame_claim s b X : geo s -> free s b -> frame s (claim b s) X.
Proof.
  intros Hg [Hr Hu]. destruct (claim_spec s b Hg Hr Hu) as (_ & E & Hus & Hb). split; [done| |].
  - intros x Hx Hux. by rewrite Hus, Hux.
  - intros x Hx Hn _ _. by apply Hb.
Qed.

Lemma frame_put s b buf : geo s -> 0 <= b < 2 ^ 25 -> no_bitmap s b -> Z.of_nat (length buf) = block_size s -> frame s (put b buf s) (fun x => x = b).
Proof.
  intros Hg Hb Hn Hl. split; [done| |].
  - intros x Hx Hu. by rewrite used_put.
  - intros x Hx _ _ Hne. by rewrite blk_put, decide_False.
Qed.

(** Owned blocks outside the frame. *)
Lemma frame_owned s s' X x : geo s -> frame s s' X -> owned s x -> owned s' x /\ (~ X x -> blk s' x = blk s x).
Proof.
  intros Hg [G U B] Hx. destruct (owned_small s x Hg Hx) as [Hr Hb]. split.
  - apply (owned_geom s); [done|done|]. destruct Hx as (H1 & H2 & _). auto.
  - intros HX. apply B; [done| |by apply owned_not_free|done]. intros g Hgr. apply (Hb g Hgr).
Qed.

(** A file that the frame leaves alone. *)
Lemma file_frame n s s' X : geo s -> geo s' -> frame s s' X -> file_ok n s -> (slot n s 12 <> 0 -> ~ X (slot n s 12)) ->
  file_ok n s' /\ forall k, is_slot s k -> slot n s' k = slot n s k.
Proof.
  intros Hg Hg' Hf [L O I] HX. pose proof (geom_eq _ _ (fr_geom _ _ _ Hf)) as (_ & _ & Ebs & _).
  assert (forall k, is_slot s' k <-> is_slot s k) as Esl by (intros k; unfold is_slot, ptrs; by rewrite Ebs).
  assert (forall k, is_slot s k -> slot n s' k = slot n s k) as Es.
  { intros k Hk. unfold slot. destruct (k <? 13); [done|]. destruct (Z.eqb_spec (zget (i_block n) 12) 0) as [|Hne]; [done|]. f_equal.
    pose proof (ptrs_size s Hg). assert (is_slot s 12) as H12 by (unfold is_slot; lia). destruct (frame_owned s s' X (zget (i_block n) 12) Hg Hf) as [_ ->]; [exact (O 12 H12 Hne)|done|by apply HX]. }
  split; [|done]. split; [done| |].
  - intros k Hk. rewrite Esl in Hk. rewrite Es by done. intros Hne. by apply (frame_owned s s' X _ Hg Hf (O k Hk Hne)).
  - intros j k Hj Hk. rewrite Esl in Hj, Hk. rewrite !Es by done. by apply I.
Qed.

(** A file with one more block in an empty slot. *)
Lemma file_add n n' s s' k b : geo s -> file_ok n s -> is_slot s k -> slot n s k = 0 -> length (i_block n') = 15%nat ->
  (forall j, is_slot s' j <-> is_slot s j) -> (forall x, owned s x -> owned s' x) -> owned s' b -> (forall j, is_slot s j -> slot n s j <> b) -> b <> 0 ->
  (forall j, is_slot s j -> slot n' s' j = if decide (j = k) then b else slot n s j) -> file_ok n' s'.
Proof.
  intros Hg [L O I] Hk H0 Hl Hs Ho Hb Hn Hb0 E. split; [done| |].
  - intros j Hj. rewrite Hs in Hj. rewrite E by done. destruct (decide (j = k)); [done|]. intros Hne. by apply Ho, O.
  - intros i j Hi Hj. rewrite Hs in Hi, Hj. rewrite !E by done. destruct (decide (i = k)) as [->|], (decide (j = k)) as [->|]; [done| | |by apply I].
    + intros Heq. by destruct (Hn j Hj).
    + intros Heq. by destruct (Hn i Hi).
Qed.

(** The result of giving the block [idx] of a file the disk block [b]. *)
Definition set_done (n : ext2_inode) (idx b : Z) (s : ext2) (s' : ext2) (n' : ext2_inode) : Prop :=
  geo s' /\ frame s s' (fun x => x <> 0 /\ x = slot n s 12) /\ file_ok n' s' /\ n' = n <| i_block := i_block n' |> /\
  (forall j, is_idx s j -> slot n' s' (slot_of j) = if decide (j = idx) then b else slot n s (slot_of j)) /\
  (slot n' s' 12 = slot n s 12 \/ free s (slot n' s' 12)).

(** The conditions for it. *)
Definition set_pre (n : ext2_inode) (idx b : Z) (s : ext2) : Prop :=
  geo s /\ file_ok n s /\ is_idx s idx /\ slot n s (slot_of idx) = 0 /\ owned s b /\ (forall j, is_slot s j -> slot n s j <> b) /\ b <> 0.

Lemma is_slot_12 s : geo s -> is_slot s 12.
Proof. intros Hg. pose proof (ptrs_size s Hg). unfold is_slot. lia. Qed.

(** The change of one slot, by the index of its block. *)
Lemma slot_change n n' s s' idx b : (forall j, is_slot s j -> slot n' s' j = if decide (j = slot_of idx) then b else slot n s j) ->
  forall j, is_idx s j -> slot n' s' (slot_of j) = if decide (j = idx) then b else slot n s (slot_of j).
Proof.
  intros H j Hj. rewrite H by apply (slot_of_range s j Hj). destruct (decide (j = idx)) as [->|Hne]; [by rewrite decide_True|].
  rewrite decide_False; [done|]. intros E. by apply Hne, slot_of_inj.
Qed.

Lemma set_direct n idx b s : set_pre n idx b s -> idx < 12 -> set_done n idx b s s (n <| i_block ::= fun l => zset l idx b |>).
Proof.
  intros (Hg & Hf & Hi & H0 & Hb & Hn & Hb0) Hlt. pose proof (file_len _ _ Hf) as L. unfold is_idx in Hi.
  assert (forall j, 0 <= j -> zget (zset (i_block n) idx b) j = if decide (j = idx) then b else zget (i_block n) j) as Ez.
  { intros j Hj. destruct (decide (j = idx)) as [->|]; [by rewrite zget_zset_eq by lia|by rewrite zget_zset_ne by lia]. }
  set (n' := n <| i_block ::= _ |>). assert (slot_of idx = idx) as Eo by (unfold slot_of; by rewrite (proj2 (Z.ltb_lt _ _)) by lia).
  assert (forall j, is_slot s j -> slot n' s j = if decide (j = idx) then b else slot n s j) as Es.
  { intros j Hj. unfold is_slot in Hj. unfold slot, n'. cbn. rewrite !Ez, (decide_False (P := 12 = idx)) by lia. destruct (Z.ltb_spec j 13); [done|]. by rewrite decide_False by lia. }
  assert (file_ok n' s) as Hf'.
  { apply (file_add n n' s s idx b); try done; [unfold is_slot; lia|by rewrite Eo in H0|cbn; by rewrite length_zset]. }
  split_and!; [done|apply frame_refl|done|done| |left; rewrite Es, decide_False; [done|lia|by apply is_slot_12]].
  apply slot_change. by rewrite Eo.
Qed.

Lemma set_indirect n idx b s : set_pre n idx b s -> 12 <= idx -> slot n s 12 <> 0 ->
  set_done n idx b s (put (slot n s 12) (blit (blk s (slot n s 12)) (4 * (idx - 12)) (le_bytes 4 b)) s) n.
Proof.
  intros (Hg & Hf & Hi & H0 & Hb & Hn & Hb0) Hge H12. pose proof (ptrs_size s Hg) as [Hp Hp4]. unfold is_idx in Hi.
  pose proof (is_slot_12 s Hg) as S12. pose proof (file_owned _ _ Hf 12 S12 H12) as Hown. set (ind := slot n s 12) in *.
  destruct (owned_small s ind Hg Hown) as [Hsm Hnb]. destruct (owned_small s b Hg Hb) as [Hbs _]. pose proof (length_blk s ind Hg Hsm) as Hlb.
  set (buf := blit _ _ _). assert (Z.of_nat (length buf) = block_size s) as Hl by (unfold buf; rewrite length_blit; [lia|lia|rewrite length_le_bytes; lia]).
  assert (slot_of idx = idx + 1) as Eo by (unfold slot_of; by rewrite (proj2 (Z.ltb_ge _ _)) by lia).
  assert (zget (i_block n) 12 = ind) as E12 by done.
  assert (forall j, is_slot s j -> slot n (put ind buf s) j = if decide (j = idx + 1) then b else slot n s j) as Es.
  { intros j Hj. unfold is_slot in Hj. unfold slot. rewrite !E12, (proj2 (Z.eqb_neq ind 0)) by done. destruct (Z.ltb_spec j 13); [by rewrite decide_False by lia|].
    rewrite blk_put, decide_True by done. unfold buf. rewrite rd32_store by lia. destruct (decide (j - 13 = idx - 12)), (decide (j = idx + 1)); (done || lia). }
  assert (geo (put ind buf s)) as Hg' by (by apply geo_put). pose proof (frame_put s ind buf Hg Hsm Hnb Hl) as Hfr.
  split_and!; [done|eapply frame_weaken; [apply Hfr|by intros x ->]| |by destruct n| |left; rewrite Es, decide_False by (done || lia); done].
  - apply (file_add n n s _ (idx + 1) b); try done; [unfold is_slot; lia|by rewrite <- Eo|apply Hf| |by apply (frame_owned s _ _ b Hg Hfr)].
    intros x Hx. by apply (frame_owned s _ _ x Hg Hfr).
  - apply slot_change. by rewrite Eo.
Qed.

Lemma frame_free s s' X x : frame s s' X -> free s' x -> free s x.
Proof.
  intros [G U _] [Hr Hu]. apply (geom_range s s' x G) in Hr. split; [done|]. destruct (used s x) eqn:E; [|done]. by rewrite U in Hu.
Qed.

Lemma frame_slots s s' X k : frame s s' X -> is_slot s' k <-> is_slot s k.
Proof. intros [G _ _]. destruct (geom_eq _ _ G) as (_ & _ & E & _). unfold is_slot, ptrs. by rewrite E. Qed.

Lemma frame_idx s s' X k : frame s s' X -> is_idx s' k <-> is_idx s k.
Proof. intros [G _ _]. destruct (geom_eq _ _ G) as (_ & _ & E & _). unfold is_idx, ptrs. by rewrite E. Qed.

(** A new block, zeroed. *)
Definition fresh (c : Z) (s : ext2) : ext2 := put c (replicate (Z.to_nat (block_size s)) 0) (claim c s).

Lemma fresh_spec s c : geo s -> free s c ->
  geo (fresh c s) /\ frame s (fresh c s) (fun _ => False) /\ owned (fresh c s) c /\ blk (fresh c s) c = replicate (Z.to_nat (block_size s)) 0.
Proof.
  intros Hg Hc. destruct (claim_spec s c Hg) as (Hg' & E & _); [apply Hc..|]. pose proof (owned_claim s c Hg Hc) as Ho.
  destruct (owned_small _ c Hg' Ho) as [Hsm Hnb]. destruct (geom_eq _ _ E) as (_ & _ & Ebs & _).
  assert (Z.of_nat (length (replicate (Z.to_nat (block_size s)) 0)) = block_size (claim c s)) as Hl.
  { rewrite length_replicate, Ebs. destruct (geo_bs s Hg) as [-> | [-> | ->]]; done. }
  pose proof (frame_put _ c _ Hg' Hsm Hnb Hl) as Hp. unfold fresh. split_and!.
  - by apply geo_put.
  - eapply frame_trans; [by apply (frame_claim s c)|apply Hp|]. intros x ->. by right.
  - by apply (frame_owned _ _ _ c Hg' Hp).
  - by rewrite blk_put, decide_True.
Qed.

(** The inode with a fresh indirect block. *)
Lemma set_fresh n idx b s c : set_pre n idx b s -> slot n s 12 = 0 -> free s c ->
  let n1 := n <| i_block ::= fun l => zset l 12 c |> in
  set_pre n1 idx b (fresh c s) /\ (forall j, is_slot s j -> slot n1 (fresh c s) j = if decide (j = 12) then c else slot n s j).
Proof.
  intros (Hg & Hf & Hi & H0 & Hb & Hn & Hb0) H12 Hc n1. destruct (fresh_spec s c Hg Hc) as (Hg1 & Hfr & Hoc & Hz). set (s1 := fresh c s) in *. clearbody s1.
  pose proof (file_len _ _ Hf) as L. pose proof (free_nonzero s c Hg Hc) as Hc0. pose proof (ptrs_size s Hg) as [Hp Hp4].
  assert (forall j, is_slot s j -> slot n1 s1 j = if decide (j = 12) then c else slot n s j) as Es.
  { intros j Hj. unfold is_slot in Hj. change (zget (i_block n) 12 = 0) in H12. unfold slot. change (i_block n1) with (zset (i_block n) 12 c).
    rewrite zget_zset_eq, Hz, H12, (proj2 (Z.eqb_neq c 0)), Z.eqb_refl by lia. destruct (Z.ltb_spec j 13).
    - destruct (decide (j = 12)) as [->|]; [by rewrite zget_zset_eq by lia|by rewrite zget_zset_ne by lia].
    - rewrite decide_False by lia. apply rd32_zeros; lia. }
  assert (forall j, is_slot s j -> slot n s j <> c) as Hnc.
  { intros j Hj E. apply (owned_not_free s c); [|done]. rewrite <- E. apply (file_owned _ _ Hf j Hj). by rewrite E. }
  pose proof (slot_of_range s idx Hi) as [Hs1 Hs2]. split; [|done]. split_and!; [done| |by apply (frame_idx s s1 _ idx Hfr)| | | |done].
  - apply (file_add n n1 s s1 12 c); try done; [by apply is_slot_12|cbn; by rewrite length_zset|intros j; apply (frame_slots s s1 _ j Hfr)|].
    intros x Hx. by apply (frame_owned s s1 _ x Hg Hfr).
  - by rewrite Es, decide_False.
  - by apply (frame_owned s s1 _ b Hg Hfr).
  - intros j Hj. apply (frame_slots s s1 _ j Hfr) in Hj. rewrite Es by done. destruct (decide (j = 12)); [|by apply Hn].
    intros ->. by apply (owned_not_free s b Hb).
Qed.

Lemma room_0 s : room 0 s.
Proof. exists []. split_and!; [apply NoDup_nil_2|done|apply Forall_nil_2]. Qed.

Lemma room_put s b buf k : geo s -> 0 <= b < 2 ^ 25 -> no_bitmap s b -> Z.of_nat (length buf) = block_size s -> room k s -> room k (put b buf s).
Proof.
  intros Hg Hb Hn Hl (l & Hd & Hk & Hf). exists l. split_and!; [done..|]. eapply Forall_impl; [done|]. intros x [Hr Hu]. split; [done|].
  by rewrite used_put.
Qed.

Lemma room_owned s b buf k : geo s -> owned s b -> Z.of_nat (length buf) = block_size s -> room k s -> room k (put b buf s).
Proof. intros Hg Hb. destruct (owned_small s b Hg Hb). by apply room_put. Qed.

(** The blocks a file needs beside the ones for its data. *)
Definition need (n : ext2_inode) : nat := if zget (i_block n) 12 =? 0 then 1 else 0.

(** The indirect block [c] with its entry for [idx] set. *)
Definition store (c idx b : Z) (s : ext2) : ext2 := put c (blit (blk s c) (4 * (idx - 12)) (le_bytes 4 b)) s.

Lemma room_store s c idx b k : geo s -> owned s c -> is_idx s idx -> 12 <= idx -> room k s -> room k (store c idx b s).
Proof.
  intros Hg Hc Hi Hge. destruct (owned_small s c Hg Hc) as [Hs _]. pose proof (length_blk s c Hg Hs). pose proof (ptrs_size s Hg). unfold is_idx in Hi.
  apply room_owned; [done|done|]. rewrite length_blit; [done|lia|rewrite length_le_bytes; lia].
Qed.

Lemma room_fresh s c k : geo s -> free s c -> room (S k) s -> room k (fresh c s).
Proof.
  intros Hg Hc Hr. destruct (claim_spec s c Hg) as (Hg' & E & _); [apply Hc..|]. destruct (geom_eq _ _ E) as (_ & _ & Ebs & _).
  apply room_owned; [done|by apply owned_claim| |by apply room_claim]. rewrite length_replicate, Ebs. destruct (geo_bs s Hg) as [-> | [-> | ->]]; done.
Qed.

Lemma set_after_fresh n idx b s c s' : set_pre n idx b s -> slot n s 12 = 0 -> free s c ->
  let n1 := n <| i_block ::= fun l => zset l 12 c |> in set_done n1 idx b (fresh c s) s' n1 -> set_done n idx b s s' n1.
Proof.
  intros Hpre E Hc n1 (D1 & D2 & D3 & D4 & D5 & D6). pose proof Hpre as (Hg & _). destruct (set_fresh n idx b s c Hpre E Hc) as [_ Es]. fold n1 in Es.
  destruct (fresh_spec s c Hg Hc) as (_ & Hfr & _). pose proof (Es 12 (is_slot_12 s Hg)) as E12. rewrite decide_True in E12 by done.
  split_and!; [done| |done|by destruct n| |].
  - eapply frame_trans; [eapply frame_weaken; [apply Hfr|done]|apply D2|]. intros x [_ ->]. right. by rewrite E12.
  - intros j Hj. rewrite D5 by (by apply (frame_idx s _ _ j Hfr)). destruct (slot_of_range s j Hj) as [Hj1 Hj2]. by rewrite Es, (decide_False (P := slot_of j = 12)).
  - right. destruct D6 as [-> |D6]; [by rewrite E12|by apply (frame_free s _ _ _ Hfr)].
Qed.

Lemma set_block_spec n idx b s : set_pre n idx b s -> room (need n) s ->
  exists s' n', ext2_set_block n idx b s = (s', n', 0) /\ set_done n idx b s s' n' /\ forall k, room (need n + k) s -> room (need n' + k) s'.
Proof.
  intros Hpre Hroom. pose proof Hpre as (Hg & Hf & Hi & _). pose proof (file_len _ _ Hf) as L. pose proof (is_slot_12 s Hg) as S12.
  unfold ext2_set_block. fold (ptrs s). destruct (Z.ltb_spec idx 12).
  { eexists _, _. split_and!; [done|by apply set_direct|]. intros k. unfold need. cbn. unfold is_idx in Hi. by rewrite zget_zset_ne by lia. }
  rewrite (proj2 (Z.ltb_lt (idx - 12) _)) by (unfold is_idx in Hi; lia). unfold need in *. destruct (Z.eqb_spec (zget (i_block n) 12) 0) as [E|E].
  - destruct (alloc_room s 0 Hg Hroom) as (c & Ea & Hc0 & Hc). rewrite Ea, (proj2 (Z.eqb_neq c 0)) by done.
    destruct (claim_spec s c Hg) as (Hgc & Egc & _); [apply Hc..|]. destruct (geom_eq _ _ Egc) as (_ & _ & Ebs & _).
    rewrite Ebs, write_blk by done. cbn [fst negb]. fold (fresh c s). set (n1 := n <| i_block ::= _ |>).
    destruct (set_fresh n idx b s c Hpre E Hc) as [Hpre1 Es]. fold n1 in Hpre1, Es. destruct (fresh_spec s c Hg Hc) as (Hg1 & Hfr & Ho1 & _).
    assert (zget (i_block n1) 12 = c) as E12 by (unfold n1; cbn; by rewrite zget_zset_eq by lia).
    rewrite E12, read_blk, write_blk by done. fold (store c idx b (fresh c s)). eexists _, n1. split_and!; [done| |].
    + apply (set_after_fresh n idx b s c); [done..|]. fold n1. pose proof (set_indirect n1 idx b (fresh c s) Hpre1) as Hs. unfold slot in Hs. cbn [Z.ltb Z.compare Pos.compare Pos.compare_cont] in Hs.
      rewrite E12 in Hs. by apply Hs.
    + intros k Hk. rewrite E12, (proj2 (Z.eqb_neq c 0)) by done. apply room_store; [done|done|by apply (frame_idx s _ _ idx Hfr)|done|]. by apply room_fresh.
  - cbn [negb]. rewrite read_blk, write_blk by done. eexists _, n. split_and!; [done|by apply (set_indirect n idx b s)|].
    intros k Hk. rewrite (proj2 (Z.eqb_neq _ 0)) by done. apply room_store; [done| |done|done|done]. by apply (file_owned _ _ Hf 12 S12).
Qed.

(** ** The bytes of a file *)

(** The byte at [p]; a block the file does not have reads as zeros. *)
Definition fbyte (n : ext2_inode) (s : ext2) (p : Z) : Z :=
  let b := slot n s (slot_of (p / block_size s)) in if b =? 0 then 0 else zget (blk s b) (p mod block_size s).

(** The blocks of a file. *)
Definition blocks_of (n : ext2_inode) (s : ext2) (x : Z) : Prop := x <> 0 /\ exists k, is_slot s k /\ x = slot n s k.

(** An inode whose pointers and block count only changed. *)
Definition same_inode (n n' : ext2_inode) : Prop := n' = n <| i_block := i_block n' |> <| i_blocks := i_blocks n' |>.

Lemma same_inode_trans n n1 n2 : same_inode n n1 -> same_inode n1 n2 -> same_inode n n2.
Proof. unfold same_inode. intros H1 H2. rewrite H2, H1. by destruct n, n2. Qed.

(** What a step of a write keeps: the file and everything outside it, with
    [k] of the free blocks still free. *)
Record wstep (k : nat) (n n' : ext2_inode) (s s' : ext2) : Prop := mk_wstep {
  ws_geo : geo s';
  ws_frame : frame s s' (blocks_of n s);
  ws_file : file_ok n' s';
  ws_inode : same_inode n n';
  ws_blocks : forall x, blocks_of n' s' x -> blocks_of n s x \/ free s x;
  ws_room : room (need n' + k) s'
}.

Lemma bs_pos s : geo s -> 0 < block_size s.
Proof. intros Hg. destruct (geo_bs s Hg) as [-> | [-> | ->]]; done. Qed.

(** A block of the file other than the indirect one. *)
Lemma data_not_indirect n s idx : geo s -> file_ok n s -> is_idx s idx -> slot n s (slot_of idx) <> 0 -> slot n s (slot_of idx) <> slot n s 12.
Proof.
  intros Hg Hf Hi Hne E. destruct (slot_of_range s idx Hi) as [Hs H12]. apply H12. by apply (file_inj _ _ Hf _ _ Hs (is_slot_12 s Hg)).
Qed.

Lemma set_pre_claim n idx c s : geo s -> file_ok n s -> is_idx s idx -> slot n s (slot_of idx) = 0 -> free s c ->
  set_pre n idx c (claim c s) /\ forall k, is_slot s k -> slot n (claim c s) k = slot n s k.
Proof.
  intros Hg Hf Hi H0 Hc. destruct (claim_spec s c Hg) as (Hgc & _); [apply Hc..|]. pose proof (frame_claim s c (fun _ => False) Hg Hc) as Hfr.
  destruct (file_frame n s _ _ Hg Hgc Hfr Hf) as [Hf' Es]; [by intros _ []|]. split; [|done]. split_and!; [done|done|by apply (frame_idx s _ _ idx Hfr)| |by apply owned_claim| |by apply (free_nonzero s)].
  - rewrite Es; [done|apply (slot_of_range s idx Hi)].
  - intros j Hj E. apply (frame_slots s _ _ j Hfr) in Hj. rewrite Es in E by done. apply (owned_not_free s c); [|done]. rewrite <- E. apply (file_owned _ _ Hf j Hj).
    rewrite E. by apply (free_nonzero s).
Qed.

Lemma length_zeros s : geo s -> Z.of_nat (length (replicate (Z.to_nat (block_size s)) 0)) = block_size s.
Proof. intros Hg. rewrite length_replicate. destruct (geo_bs s Hg) as [-> | [-> | ->]]; done. Qed.

(** A zeroed block in place of none does not change the bytes. *)
Lemma set_done_bytes n n' idx c s s' : geo s -> file_ok n s -> set_done n idx c s s' n' -> slot n s (slot_of idx) = 0 -> c <> 0 ->
  blk s' c = replicate (Z.to_nat (block_size s)) 0 -> forall p, is_idx s (p / block_size s) -> fbyte n' s' p = fbyte n s p.
Proof.
  intros Hg Hf (D1 & D2 & D3 & _ & D5 & _) H0 Hc Hz p Hp. pose proof (bs_pos s Hg). destruct (geom_eq _ _ (fr_geom _ _ _ D2)) as (_ & _ & Ebs & _).
  unfold fbyte. rewrite Ebs, D5 by done. destruct (decide (p / block_size s = idx)) as [->|Hne].
  - rewrite H0, Z.eqb_refl, (proj2 (Z.eqb_neq c 0)), Hz by done. apply zget_zeros. pose proof (Z.mod_pos_bound p (block_size s)). lia.
  - destruct (Z.eqb_spec (slot n s (slot_of (p / block_size s))) 0) as [|Hb]; [done|]. f_equal. destruct (slot_of_range s _ Hp) as [Hs _].
    apply (frame_owned s s' _ _ Hg D2 (file_owned _ _ Hf _ Hs Hb)). intros [_ E]. by apply (data_not_indirect n s _ Hg Hf Hp Hb).
Qed.

Lemma room_mono s j k : (j <= k)%nat -> room k s -> room j s.
Proof.
  intros Hjk (l & Hd & Hl & Hf). exists (take j l). split_and!; [|rewrite length_take; lia|by apply Forall_take].
  rewrite <- (take_drop j l) in Hd. by apply NoDup_app in Hd as [? _].
Qed.

(** The blocks of a file that got one more. *)
Lemma set_done_blocks n n' idx c s s' : geo s -> set_done n idx c s s' n' -> free s c -> forall x, blocks_of n' s' x -> blocks_of n s x \/ free s x.
Proof.
  intros Hg (D1 & D2 & _ & _ & D5 & D6) Hc x [Hx (k & Hk & ->)]. apply (frame_slots s _ _ _ D2) in Hk. destruct (slot_cases s k Hg Hk) as [-> |(j & Hj & ->)].
  - destruct D6 as [E|?]; [|by right]. rewrite E in *. left. split; [done|]. by exists 12.
  - rewrite D5 in * by done. destruct (decide (j = idx)); [by right|]. left. split; [done|]. by exists (slot_of j).
Qed.

Lemma block_new n idx c s s2 n2 buf : geo s -> file_ok n s -> is_idx s idx -> slot n s (slot_of idx) = 0 -> free s c -> set_done n idx c (claim c s) s2 n2 ->
  Z.of_nat (length buf) = block_size s2 -> let s3 := put c buf s2 in set_done n idx c s s3 n2 /\ owned s2 c /\ blk s3 c = buf.
Proof.
  intros Hg Hf Hi H0 Hc (D1 & D2 & D3 & D4 & D5 & D6) Hl s3. destruct (set_pre_claim n idx c s Hg Hf Hi H0 Hc) as [Hpre Es].
  pose proof (frame_claim s c (fun x => x <> 0 /\ x = slot n s 12) Hg Hc) as Hfc. pose proof (proj1 Hpre) as Hgc. pose proof (is_slot_12 s Hg) as S12.
  assert (owned s2 c) as Hoc by (apply (frame_owned (claim c s) s2 _ c Hgc D2); apply Hpre). destruct (owned_small s2 c D1 Hoc) as [Hsm Hnb].
  pose proof (frame_put s2 c buf D1 Hsm Hnb Hl) as Hp. fold s3 in Hp. assert (geo s3) as Hg3 by (by apply geo_put).
  assert (frame s s2 (fun x => x <> 0 /\ x = slot n s 12)) as F2 by (eapply frame_trans; [apply Hfc|apply D2|rewrite Es by done; auto]).
  assert (frame s s3 (fun x => x <> 0 /\ x = slot n s 12)) as F3 by (eapply frame_trans; [apply F2|apply Hp|intros x ->; by right]).
  assert (forall j, is_idx s j -> slot n2 s2 (slot_of j) = if decide (j = idx) then c else slot n s (slot_of j)) as D5'.
  { intros j Hj. rewrite D5 by (by apply (frame_idx s _ _ j Hfc)). rewrite Es; [done|apply (slot_of_range s j Hj)]. }
  assert (slot n2 s2 (slot_of idx) = c) as Ec by (by rewrite D5', decide_True). pose proof (free_nonzero s c Hg Hc) as Hc0.
  destruct (file_frame n2 s2 s3 _ D1 Hg3 Hp D3) as [Hf3 E3].
  { intros _. rewrite <- Ec. apply not_eq_sym, data_not_indirect; [done|done|by apply (frame_idx s _ _ idx F2)|by rewrite Ec]. }
  assert (forall j, is_idx s j -> slot n2 s3 (slot_of j) = if decide (j = idx) then c else slot n s (slot_of j)) as D5''.
  { intros j Hj. rewrite E3, D5' by (done || apply (frame_slots s _ _ _ F2), (slot_of_range s j Hj)). done. }
  split; [|split; [done|unfold s3; by rewrite blk_put, decide_True]].
  split_and!; [done|done|done|exact D4|done|]. rewrite E3 by (by apply (frame_slots s _ _ _ F2)).
  destruct D6 as [-> |D6]; [left; by apply Es|right; by apply (frame_free s _ _ _ Hfc)].
Qed.

(** A block is allocated, attached to the file as its block [idx], and filled. *)
Lemma attach_spec k n idx buf s : geo s -> file_ok n s -> is_idx s idx -> slot n s (slot_of idx) = 0 -> room (need n + S k) s -> Z.of_nat (length buf) = block_size s ->
  exists c s2 n2, ext2_alloc_block s = (claim c s, c) /\ c <> 0 /\ free s c /\ ext2_set_block n idx c (claim c s) = (s2, n2, 0) /\ geo s2 /\ block_size s2 = block_size s /\
    let s3 := put c buf s2 in set_done n idx c s s3 n2 /\ blk s3 c = buf /\ room (need n2 + k) s3.
Proof.
  intros Hg Hf Hi H0 Hroom Hl. replace (need n + S k)%nat with (S (need n + k)) in Hroom by lia. destruct (alloc_room s (need n + k) Hg Hroom) as (c & Ea & Hc0 & Hc).
  destruct (set_pre_claim n idx c s Hg Hf Hi H0 Hc) as [Hpre Es]. pose proof (room_claim s c (need n + k) Hg Hc Hroom) as Hr1.
  destruct (set_block_spec n idx c (claim c s) Hpre) as (s2 & n2 & Eset & Hd & Hr2); [eapply room_mono; [|done]; lia|]. pose proof Hd as (D1 & D2 & _).
  destruct (claim_spec s c Hg) as (_ & Gc & _); [apply Hc..|]. assert (block_size s2 = block_size s) as Ebs.
  { destruct (geom_eq _ _ (fr_geom _ _ _ D2)) as (_ & _ & E2 & _). destruct (geom_eq _ _ Gc) as (_ & _ & E1 & _). congruence. }
  destruct (block_new n idx c s s2 n2 buf Hg Hf Hi H0 Hc Hd ltac:(congruence)) as (Hd3 & Ho & Hb). exists c, s2, n2.
  do 2 (split; [done|]). split; [done|]. do 3 (split; [done|]). split; [done|]. split; [done|]. apply room_owned; [done|done|congruence|by apply Hr2].
Qed.

Lemma block_for_spec k n idx s : geo s -> file_ok n s -> is_idx s idx -> room (need n + S k) s ->
  exists s' n' b, block_for n idx s = (s', n', b) /\ b <> 0 /\ slot n' s' (slot_of idx) = b /\ wstep k n n' s s' /\
    forall p, is_idx s (p / block_size s) -> fbyte n' s' p = fbyte n s p.
Proof.
  intros Hg Hf Hi Hroom. unfold block_for. rewrite get_block_slot by done. destruct (Z.eqb_spec (slot n s (slot_of idx)) 0) as [H0|H0].
  2: { eexists _, _, _. split_and!; [done..| |done]. split; [done|apply frame_refl|done|by destruct n|auto|eapply room_mono; [|done]; lia]. }
  destruct (attach_spec k n idx (replicate (Z.to_nat (block_size s)) 0) s Hg Hf Hi H0 Hroom (length_zeros s Hg)) as (c & s2 & n2 & -> & Hc0 & Hc & Eset & D1 & Ebs & Hd3 & Hz & Hr3).
  rewrite (proj2 (Z.eqb_neq c 0)), Eset by done. rewrite write_blk by done. cbn [fst]. rewrite Ebs. set (s3 := put c _ s2) in *. clearbody s3.
  pose proof (set_done_bytes n n2 idx c s s3 Hg Hf Hd3 H0 Hc0 Hz) as Hb. pose proof (set_done_blocks n n2 idx c s s3 Hg Hd3 Hc) as Hbl. destruct Hd3 as (E1 & E2 & E3 & E4 & E5 & E6).
  eexists _, _, _. split_and!; [done|done|by rewrite <- (decide_True (P := idx = idx) c (slot n s (slot_of idx)) eq_refl), <- E5| |done].
  split; [done| |by destruct E3|by rewrite E4; destruct n|done|done]. eapply frame_weaken; [apply E2|]. intros x [Hx ->]. split; [done|]. exists 12.
  split; [by apply is_slot_12|done].
Qed.

Lemma wstep_refl k n s : geo s -> file_ok n s -> room (need n + k) s -> wstep k n n s s.
Proof. intros. split; [done|apply frame_refl|done|by destruct n|auto|done]. Qed.

Lemma wstep_trans k k' n n1 n2 s s1 s2 : wstep k n n1 s s1 -> wstep k' n1 n2 s1 s2 -> wstep k' n n2 s s2.
Proof.
  intros [G1 F1 L1 I1 B1 R1] [G2 F2 L2 I2 B2 R2]. split; [done|by eapply frame_trans|done|by eapply same_inode_trans| |done].
  intros x Hx. destruct (B2 x Hx) as [?|Hf]; [by apply B1|right; by apply (frame_free s _ _ _ F1)].
Qed.

Lemma wstep_bs k n n' s s' : wstep k n n' s s' -> block_size s' = block_size s.
Proof. intros [_ F _ _ _ _]. by destruct (geom_eq _ _ (fr_geom _ _ _ F)) as (_ & _ & E & _). Qed.

(** Writing a data block of a file. *)
Lemma wstep_put k n idx buf s : geo s -> file_ok n s -> is_idx s idx -> slot n s (slot_of idx) <> 0 -> Z.of_nat (length buf) = block_size s ->
  room (need n + k) s -> let s' := put (slot n s (slot_of idx)) buf s in
  wstep k n n s s' /\ forall p, is_idx s (p / block_size s) -> fbyte n s' p = if decide (p / block_size s = idx) then zget buf (p mod block_size s) else fbyte n s p.
Proof.
  intros Hg Hf Hi H0 Hl Hr s'. destruct (slot_of_range s idx Hi) as [Hs _]. pose proof (file_owned _ _ Hf _ Hs H0) as Ho. destruct (owned_small s _ Hg Ho) as [Hsm Hnb].
  pose proof (frame_put s _ buf Hg Hsm Hnb Hl) as Hp. fold s' in Hp. assert (geo s') as Hg' by (by apply geo_put).
  destruct (file_frame n s s' _ Hg Hg' Hp Hf) as [Hf' Es]; [intros _; by apply not_eq_sym, data_not_indirect|]. split.
  - split; [done| |done|by destruct n| |by apply room_owned].
    + eapply frame_weaken; [apply Hp|]. intros x ->. split; [done|]. by exists (slot_of idx).
    + intros x [Hx (j & Hj & ->)]. apply (frame_slots s _ _ _ Hp) in Hj. left. split; [done|]. exists j. split; [done|by apply Es].
  - intros p Hpi. destruct (slot_of_range s _ Hpi) as [Hsp _]. unfold fbyte. change (block_size s') with (block_size s). rewrite Es by done.
    destruct (decide (p / block_size s = idx)) as [E|E].
    + rewrite E, (proj2 (Z.eqb_neq _ 0)) by done. unfold s'. by rewrite blk_put, decide_True.
    + destruct (Z.eqb_spec (slot n s (slot_of (p / block_size s))) 0) as [|Hb]; [done|]. f_equal.
      apply (frame_owned s s' _ _ Hg Hp (file_owned _ _ Hf _ Hsp Hb)). intros Heq. by apply E, slot_of_inj, (file_inj _ _ Hf _ _ Hsp Hs).
Qed.

Lemma write_chunk_spec k n idx off chunk s : geo s -> file_ok n s -> is_idx s idx -> 0 <= off -> off + Z.of_nat (length chunk) <= block_size s -> room (need n + S k) s ->
  exists s' n', write_chunk n idx off chunk s = (s', n', true) /\ wstep k n n' s s' /\
    forall p, is_idx s (p / block_size s) -> let q := p - (idx * block_size s + off) in
      fbyte n' s' p = if decide (0 <= q < Z.of_nat (length chunk)) then zget chunk q else fbyte n s p.
Proof.
  intros Hg Hf Hi H0 Hlen Hr. destruct (block_for_spec k n idx s Hg Hf Hi Hr) as (s1 & n1 & b & Eb & Hb & Es & Hw & Hby). unfold write_chunk.
  rewrite Eb, (proj2 (Z.eqb_neq b 0)) by done. pose proof (wstep_bs _ _ _ _ _ Hw) as Ebs. rewrite Ebs. pose proof Hw as [Hg1 Hf1 Hfile1 _ _ Hr1].
  assert (is_idx s1 idx) as Hi1 by (by apply (frame_idx s _ _ idx Hf1)). destruct (slot_of_range s1 idx Hi1) as [Hs1 _].
  pose proof (file_owned _ _ Hfile1 _ Hs1 ltac:(congruence)) as Ho. rewrite Es in Ho. destruct (owned_small s1 b Hg1 Ho) as [Hsm _].
  pose proof (length_blk s1 b Hg1 Hsm) as Hlb. rewrite read_blk by done. set (buf := blit (blk s1 b) off chunk).
  assert (Z.of_nat (length buf) = block_size s) as Hlbuf by (unfold buf; rewrite length_blit; lia).
  assert (exists x, (if (off =? 0) && (Z.of_nat (length chunk) =? block_size s) then Some (replicate (Z.to_nat (block_size s)) 0) else Some (blk s1 b)) = Some x /\ blit x off chunk = buf)
    as (x & -> & ->).
  { destruct (Z.eqb_spec off 0) as [->|], (Z.eqb_spec (Z.of_nat (length chunk)) (block_size s)) as [E|]; try (eexists; split; [done|done]). eexists. split; [done|].
    unfold buf, blit. cbn [Z.to_nat Nat.add]. rewrite !drop_ge; [done|lia|rewrite length_replicate; lia]. }
  rewrite write_blk by done. eexists _, n1. split; [done|]. pose proof (wstep_put k n1 idx buf s1 Hg1 Hfile1 Hi1) as Hput. rewrite Es in Hput.
  destruct Hput as [Hw2 Hby2]; [done|lia|done|]. split; [by eapply wstep_trans|]. intros p Hp. set (q := p - _). rewrite Hby2 by (rewrite Ebs; by apply (frame_idx s _ _ _ Hf1)). rewrite Ebs, <- Hby by done.
  pose proof (bs_pos s Hg) as Hbs. pose proof (Z.div_mod p (block_size s)) as Hdm. pose proof (Z.mod_pos_bound p (block_size s)) as Hmb.
  destruct (decide (p / block_size s = idx)) as [E|E].
  - unfold fbyte. rewrite Ebs, E, Es, (proj2 (Z.eqb_neq b 0)) by done. rewrite E in Hdm. unfold buf. case_decide.
    + rewrite zget_blit_in by lia. f_equal. unfold q. lia.
    + rewrite zget_blit_out by lia. done.
  - rewrite decide_False; [done|]. unfold q. nia.
Qed.

(** The number of blocks that the bytes from [pos] to [pos + len] are in. *)
Definition chunks (s : ext2) (pos len : Z) : Z := (pos + len - 1) / block_size s - pos / block_size s + 1.

(** The largest file the indirect block allows. *)
Definition max_size (s : ext2) : Z := (12 + ptrs s) * block_size s.

Lemma pos_idx s pos : geo s -> 0 <= pos < max_size s ->
  is_idx s (pos / block_size s) /\ u32 (pos / block_size s) = pos / block_size s /\ u32 (pos mod block_size s) = pos mod block_size s.
Proof.
  intros Hg Hp. pose proof (bs_pos s Hg) as Hbs. pose proof (ptrs_size s Hg) as [Hpt _]. unfold max_size in Hp.
  assert (0 <= pos / block_size s < 12 + ptrs s) as Hd by (split; [apply Z.div_pos; lia|apply Z.div_lt_upper_bound; lia]).
  pose proof (Z.mod_pos_bound pos (block_size s)). assert (block_size s <= 4096) by (destruct (geo_bs s Hg) as [-> | [-> | ->]]; done).
  split_and!; [done|apply u32_small; lia|apply u32_small; lia].
Qed.

(** After the first block. *)
Lemma chunks_step s pos len : geo s -> 0 <= pos -> 0 < len -> let k := Z.min (block_size s - pos mod block_size s) len in
  0 < k <= len /\ 1 <= chunks s pos len /\ (k < len -> chunks s (pos + k) (len - k) = chunks s pos len - 1).
Proof.
  intros Hg Hp Hl k. pose proof (bs_pos s Hg) as Hbs. pose proof (Z.mod_pos_bound pos (block_size s) Hbs) as Hm. pose proof (Z.div_mod pos (block_size s)) as Hdm.
  unfold chunks. split_and!; [lia|lia| |].
  - pose proof (Z.div_le_mono pos (pos + len - 1) (block_size s)). lia.
  - intros Hk. assert (pos + k = 0 + (pos / block_size s + 1) * block_size s) as E by (unfold k in *; lia). rewrite E at 2. rewrite Z.div_add, Z.div_0_l by lia.
    replace (pos + k + (len - k) - 1) with (pos + len - 1) by lia. lia.
Qed.

Lemma write_from_spec fuel m n pos data s : geo s -> file_ok n s -> 0 <= pos -> pos + Z.of_nat (length data) <= max_size s -> (length data <= fuel)%nat ->
  (data <> [] -> chunks s pos (Z.of_nat (length data)) <= Z.of_nat m) -> room (need n + m) s ->
  exists s' n', write_from fuel n pos data s = (s', n', Z.of_nat (length data), true) /\ wstep 0 n n' s s' /\
    forall p, is_idx s (p / block_size s) -> fbyte n' s' p = if decide (0 <= p - pos < Z.of_nat (length data)) then zget data (p - pos) else fbyte n s p.
Proof.
  revert m n pos data s. induction fuel as [|fuel IH]; intros m n pos data s Hg Hf Hp Hmax Hlen Hm Hr; destruct data as [|d data']; cbn [write_from].
  1, 3: exists s, n; split_and!; [done|apply wstep_refl; [done..|eapply room_mono; [|done]; lia]|intros p _; by rewrite decide_False by (cbn; lia)].
  { cbn in Hlen. lia. }
  specialize (Hm ltac:(done)). assert (0 < Z.of_nat (length (d :: data'))) as Hl0 by (cbn; lia). set (data := d :: data') in *. clearbody data.
  destruct (pos_idx s pos Hg ltac:(lia)) as (Hi & -> & ->). destruct (chunks_step s pos _ Hg Hp Hl0) as (Hk & Hc1 & Hck). set (k := Z.min _ _) in *. 
  pose proof (bs_pos s Hg) as Hbs. pose proof (Z.mod_pos_bound pos (block_size s) Hbs) as Hmb. destruct m as [|m]; [lia|].
  assert (Z.of_nat (length (take (Z.to_nat k) data)) = k) as Htk by (rewrite length_take; lia).
  destruct (write_chunk_spec m n (pos / block_size s) (pos mod block_size s) (take (Z.to_nat k) data) s Hg Hf Hi ltac:(lia) ltac:(lia) Hr) as (s1 & n1 & -> & Hw & Hb1).
  pose proof (wstep_bs _ _ _ _ _ Hw) as Ebs. pose proof Hw as [Hg1 Hfr1 Hf1 _ _ Hr1]. cbn [negb].
  assert (Z.of_nat (length (drop (Z.to_nat k) data)) = Z.of_nat (length data) - k) as Hdk by (rewrite length_drop; lia).
  destruct (IH m n1 (pos + k) (drop (Z.to_nat k) data) s1 Hg1 Hf1) as (s2 & n2 & -> & Hw2 & Hb2); [lia| |lia| |done|].
  - unfold max_size, ptrs in *. rewrite Ebs. lia.
  - intros Hd. unfold chunks in *. rewrite Ebs, Hdk. enough (k < Z.of_nat (length data)) by lia. destruct (drop _ _); [done|]. cbn in Hdk. lia.
  - exists s2, n2. split_and!; [f_equal; f_equal; lia|by eapply wstep_trans|].
    intros p Hpi. rewrite Hb2 by (rewrite Ebs; by apply (frame_idx s _ _ _ Hfr1)). rewrite Hb1 by done. 
    pose proof (Z.div_mod pos (block_size s)). replace (p - (pos / block_size s * block_size s + pos mod block_size s)) with (p - pos) by lia. rewrite Htk, Hdk.
    destruct (decide (0 <= p - pos < Z.of_nat (length data))); repeat case_decide; try lia; try done.
    + rewrite zget_drop by lia. f_equal. lia.
    + by rewrite zget_take by lia.
Qed.

(** The bytes within one block. *)
Lemma fbytes_block n s pos k : geo s -> file_ok n s -> 0 <= pos < max_size s -> 0 <= k <= block_size s - pos mod block_size s ->
  fbyte n s <$> seqZ pos k =
    let b := slot n s (slot_of (pos / block_size s)) in if b =? 0 then replicate (Z.to_nat k) 0 else slice (blk s b) (pos mod block_size s) k.
Proof.
  intros Hg Hf Hp Hk. pose proof (bs_pos s Hg) as Hbs. pose proof (Z.mod_pos_bound pos (block_size s) Hbs) as Hmb. pose proof (Z.div_mod pos (block_size s)) as Hdm.
  destruct (pos_idx s pos Hg Hp) as (Hi & _). cbn zeta. set (b := slot n s _). apply list_eq. intros i.
  assert (forall j, 0 <= j < k -> (pos + j) / block_size s = pos / block_size s /\ (pos + j) mod block_size s = pos mod block_size s + j) as Hj.
  { intros j Hj. replace (pos + j) with (pos mod block_size s + j + pos / block_size s * block_size s) by lia. rewrite Z.div_add, Z.mod_add, Z.div_small, Z.mod_small by lia. lia. }
  assert (if b =? 0 then True else Z.of_nat (length (blk s b)) = block_size s) as Hlb.
  { destruct (Z.eqb_spec b 0); [done|]. apply length_blk; [done|]. apply (owned_small s b Hg), (file_owned _ _ Hf); [apply (slot_of_range s _ Hi)|done]. }
  rewrite list_lookup_fmap. destruct (decide (Z.of_nat i < k)) as [Hlt|Hge].
  - rewrite (proj2 (lookup_seqZ pos k i (pos + Z.of_nat i))) by lia. cbn. unfold fbyte. destruct (Hj (Z.of_nat i) ltac:(lia)) as [-> ->]. fold b.
    destruct (b =? 0); [by rewrite lookup_replicate_2 by lia|]. unfold slice. rewrite lookup_take_lt, lookup_drop by lia.
    rewrite <- (zget_lookup (blk s b)) by lia. f_equal. lia.
  - rewrite lookup_seqZ_ge by lia. symmetry. apply lookup_ge_None. destruct (b =? 0); [rewrite length_replicate; lia|]. rewrite length_slice by lia. lia.
Qed.

Lemma read_from_spec fuel n pos left s : geo s -> file_ok n s -> 0 <= pos -> 0 <= left -> pos + left <= max_size s -> left <= Z.of_nat fuel ->
  read_from fuel n pos left s = Some (fbyte n s <$> seqZ pos left).
Proof.
  intros Hg Hf. revert pos left. induction fuel as [|fuel IH]; intros pos left Hp Hl Hmax Hfuel; cbn [read_from].
  { by replace left with 0 by lia. }
  destruct (Z.leb_spec left 0) as [|Hpos]; [by replace left with 0 by lia|]. pose proof (bs_pos s Hg) as Hbs. destruct (pos_idx s pos Hg ltac:(lia)) as (Hi & -> & ->).
  rewrite get_block_slot by done. destruct (chunks_step s pos left Hg Hp Hpos) as (Hk & _). set (k := Z.min _ _) in *.
  rewrite IH by lia. pose proof (fbytes_block n s pos k Hg Hf ltac:(lia) ltac:(lia)) as Hb. cbn zeta in Hb.
  assert (seqZ pos left = seqZ pos k ++ seqZ (pos + k) (left - k)) as -> by (rewrite <- seqZ_app by lia; f_equal; lia). rewrite fmap_app, Hb, read_blk by done.
  by destruct (_ =? 0).
Qed.

Lemma read_file_spec n pos left s : geo s -> file_ok n s -> 0 <= pos -> 0 <= left -> i_size n <= max_size s ->
  ext2_read_file n pos left s = Some (fbyte n s <$> seqZ pos (Z.min left (i_size n - pos))).
Proof.
  intros Hg Hf Hp Hl Hs. unfold ext2_read_file. destruct (Z.leb_spec (i_size n) pos).
  - rewrite (seqZ_nil pos) by lia. done.
  - apply read_from_spec; (done || lia).
Qed.

(** ** Inodes on disk *)

(** Fields within their widths. *)
Definition inode_wf (n : ext2_inode) : Prop :=
  0 <= i_mode n < 2 ^ 16 /\ 0 <= i_uid n < 2 ^ 16 /\ 0 <= i_size n < 2 ^ 32 /\ 0 <= i_atime n < 2 ^ 32 /\ 0 <= i_ctime n < 2 ^ 32 /\ 0 <= i_mtime n < 2 ^ 32 /\
  0 <= i_dtime n < 2 ^ 32 /\ 0 <= i_gid n < 2 ^ 16 /\ 0 <= i_links_count n < 2 ^ 16 /\ 0 <= i_blocks n < 2 ^ 32 /\ 0 <= i_flags n < 2 ^ 32 /\ 0 <= i_osd1 n < 2 ^ 32 /\
  length (i_block n) = 15%nat /\ Forall (fun b => 0 <= b < 2 ^ 32) (i_block n) /\
  0 <= i_generation n < 2 ^ 32 /\ 0 <= i_file_acl n < 2 ^ 32 /\ 0 <= i_dir_acl n < 2 ^ 32 /\ 0 <= i_faddr n < 2 ^ 32 /\ length (i_osd2 n) = 12%nat.

Lemma length_inode_bytes n : length (i_block n) = 15%nat -> length (i_osd2 n) = 12%nat -> length (inode_bytes n) = 128%nat.
Proof. intros H1 H2. unfold inode_bytes. rewrite !length_app, !length_le_bytes, length_words, H1, H2. done. Qed.

Lemma inode_of_bytes n rest : inode_wf n -> inode_of (inode_bytes n ++ rest) = n.
Proof.
  intros (H1 & H2 & H3 & H4 & H5 & H6 & H7 & H8 & H9 & H10 & H11 & H12 & L & F & H13 & H14 & H15 & H16 & L2).
  pose proof (length_words (i_block n)) as Lw. rewrite L in Lw.
  assert (forall m k off, 60 <= off -> rd_le m (mjoin (le_bytes 4 <$> i_block n) ++ k) off = rd_le m k (off - 60)) as Hskip.
  { intros m k off Ho. rewrite rd_le_skip by lia. f_equal. lia. }
  unfold inode_of, rd16, rd32. destruct n as [a1 a2 a3 a4 a5 a6 a7 a8 a9 a10 a11 a12 bl a13 a14 a15 a16 osd]; unfold inode_bytes; cbn [i_mode i_uid i_size i_atime i_ctime i_mtime i_dtime i_gid i_links_count i_blocks i_flags i_osd1 i_block i_generation i_file_acl i_dir_acl i_faddr i_osd2] in *.
  f_equal; load_field; rewrite ?Hskip by (by vm_compute); load_field.
  - etrans; [|by apply (rd32_all_words bl)]. rewrite L. apply list_fmap_ext. intros _ j _. rewrite !rd_le_skip_field by lia. unfold rd32. f_equal. lia.
  - rewrite !slice_skip_field by (by vm_compute). rewrite slice_skip by (rewrite Lw; by vm_compute). rewrite Lw, !slice_skip_field by (by vm_compute).
    apply (slice_at []); [by vm_compute|by rewrite L2].
Qed.

Lemma inode_of_slice b : inode_of b = inode_of (slice b 0 128).
Proof.
  assert (forall m off, 0 <= off -> off + Z.of_nat m <= 128 -> rd_le m b off = rd_le m (slice b 0 128) off) as Hr.
  { intros m off H0 H1. apply rd_le_ext. intros i Hi. unfold slice. rewrite drop_0, zget_take by lia. done. }
  unfold inode_of, rd16, rd32. rewrite !(Hr 2%nat), !(Hr 4%nat) by lia. f_equal.
  - apply list_fmap_ext. intros i j Hj. apply lookup_seq in Hj. apply Hr; lia.
  - by rewrite slice_slice.
Qed.

(** The inodes of the table. *)
Definition is_ino (s : ext2) (ino : Z) : Prop := 1 <= ino <= num_block_groups s * ipg s /\ ino < 2 ^ 32.

(** Inode [ino] is the [i]-th of group [g], in block [b] at offset [off]. *)
Definition place (s : ext2) (ino g i b off : Z) : Prop :=
  group s g /\ 0 <= i < ipg s /\ ino - 1 = g * ipg s + i /\ in_itab s g b /\ b = itab s g + i * inode_size s / block_size s /\
  off = (i * inode_size s) mod block_size s /\ 0 <= off /\ off + inode_size s <= block_size s.

Lemma bs_max s : geo s -> block_size s <= 4096.
Proof. intros Hg. destruct (geo_bs s Hg) as [-> | [-> | ->]]; done. Qed.

Lemma isz_max s : geo s -> inode_size s <= block_size s.
Proof. intros Hg. apply Z.divide_pos_le; [by apply bs_pos|apply Hg]. Qed.

(** A multiple of the inode size, taken modulo the block size, leaves room for
    an inode. *)
Lemma slot_fits s i : geo s -> 0 <= i -> 0 <= (i * inode_size s) mod block_size s /\ (i * inode_size s) mod block_size s + inode_size s <= block_size s.
Proof.
  intros Hg Hi. pose proof (geo_isz s Hg). destruct (geo_idiv s Hg) as [r Er]. pose proof (bs_pos s Hg). rewrite Er, Zmult_mod_distr_r.
  assert (0 < r) by nia. pose proof (Z.mod_pos_bound i r). nia.
Qed.

Lemma place_spec s ino : geo s -> is_ino s ino -> exists g i b off, inode_place ino s = (b, off) /\ place s ino g i b off.
Proof.
  intros Hg Hi. unfold is_ino in Hi. pose proof (geo_ipg s Hg) as Hipg. pose proof (geo_isz s Hg) as Hisz. pose proof (bs_pos s Hg) as Hbs.
  unfold inode_place. fold (ipg s). rewrite (u32_small (ino - 1)) by lia. set (g := (ino - 1) / ipg s). set (i := (ino - 1) mod ipg s). fold (itab s g).
  assert (group s g) as Hgr by (unfold group, g; split; [apply Z.div_pos; lia|apply Z.div_lt_upper_bound; lia]).
  assert (0 <= i < ipg s) as Hir by (apply Z.mod_pos_bound; lia). assert (ino - 1 = g * ipg s + i) as E by (pose proof (Z.div_mod (ino - 1) (ipg s)); unfold g, i; lia).
  destruct (geo_tdiv s Hg) as [t Et]. clearbody g i. destruct (slot_fits s i Hg ltac:(lia)) as [Ho1 Ho2].
  pose proof (bs_max s Hg). pose proof (isz_max s Hg). set (o := i * inode_size s) in *. assert (0 <= o < t * block_size s) as Ho by (rewrite <- Et; unfold o; split; [lia|apply Z.mul_lt_mono_pos_r; lia]).
  assert (o < 2 ^ 32) as Hmax by (unfold o; transitivity (32768 * 4097); [|done]; apply Z.mul_lt_mono_nonneg; lia). rewrite (u32_small o) by lia.
  assert (0 <= o / block_size s < t) as Hq by (split; [apply Z.div_pos; lia|apply Z.div_lt_upper_bound; lia]).
  assert (in_itab s g (itab s g + o / block_size s)) as Hit by (unfold in_itab; rewrite Et, Z.div_mul; lia).
  assert (0 <= itab s g + o / block_size s < 2 ^ 25) as Hb by (apply (geo_range s Hg); right; exists g; auto). rewrite u32_small by lia.
  exists g, i, (itab s g + o / block_size s), (o mod block_size s). split; [done|]. split_and!; (done || lia).
Qed.

(** Different inodes are at different places. *)
Lemma place_disjoint s ino ino' g i b off g' i' off' : geo s -> place s ino g i b off -> place s ino' g' i' b off' -> ino <> ino' ->
  off + inode_size s <= off' \/ off' + inode_size s <= off.
Proof.
  intros Hg (P1 & P2 & P3 & P4 & P5 & P6 & P7 & P8) (Q1 & Q2 & Q3 & Q4 & Q5 & Q6 & Q7 & Q8) Hne. pose proof (geo_tt s Hg g g' b P1 Q1 P4 Q4) as <-.
  pose proof (bs_pos s Hg) as Hbs. pose proof (geo_isz s Hg). pose proof (Z.div_mod (i * inode_size s) (block_size s)). pose proof (Z.div_mod (i' * inode_size s) (block_size s)).
  assert (i <> i') by lia. set (q := i * _ / _) in *. set (q' := i' * _ / _) in *. assert (q = q') as Eq by lia. clearbody q q'. subst q'.
  assert (off' - off = (i' - i) * inode_size s) by lia. destruct (decide (i < i')); nia.
Qed.

(** The state after inode [ino] was written. *)
Definition put_inode (ino : Z) (n : ext2_inode) (s : ext2) : ext2 :=
  let '(b, off) := inode_place ino s in put b (blit (blk s b) off (inode_bytes n)) s.

Lemma write_inode_put s ino n : geo s -> is_ino s ino -> ext2_write_inode ino n s = (put_inode ino n s, 0).
Proof.
  intros Hg [Hi _]. unfold ext2_write_inode, put_inode. rewrite (geo_mounted s Hg), (proj2 (Z.eqb_neq ino 0)) by lia. cbn [negb orb].
  destruct (inode_place ino s) as [b off]. by rewrite read_blk, write_blk.
Qed.

(** The bytes of an inode. *)
Lemma read_inode_slice s ino g i b off : geo s -> is_ino s ino -> inode_place ino s = (b, off) -> place s ino g i b off ->
  ext2_read_inode ino s = Some (inode_of (slice (blk s b) off 128)).
Proof.
  intros Hg [Hi _] E (_ & _ & _ & _ & _ & _ & Ho & _). unfold ext2_read_inode. rewrite (geo_mounted s Hg), (proj2 (Z.eqb_neq ino 0)) by lia. cbn [negb orb].
  rewrite E, read_blk by done. f_equal. rewrite (inode_of_slice (drop _ _)). f_equal.
Qed.

Lemma itab_small s g b : geo s -> group s g -> in_itab s g b -> 0 <= b < 2 ^ 25 /\ no_bitmap s b.
Proof. intros Hg Hgr Hb. split; [apply (geo_range s Hg); right; exists g; auto|]. intros h Hh. by apply (geo_bt s Hg h g b). Qed.

Lemma inode_place_geom s s' ino : geom s' = geom s -> inode_place ino s' = inode_place ino s.
Proof.
  intros E. destruct (geom_eq _ _ E) as (_ & _ & E3 & E4 & _ & _ & E7 & _). unfold inode_place. fold (ipg s) (ipg s'). rewrite E3, E4, E7.
  set (g := _ / _). fold (itab s' g) (itab s g). by destruct (geom_bg s s' g E) as (_ & _ & ->).
Qed.

(** Writing an inode: it reads back, the others stay, and only a block of the
    inode table changes. *)
Lemma put_inode_spec s ino n : geo s -> is_ino s ino -> inode_wf n -> let s' := put_inode ino n s in
  geo s' /\ frame s s' (fun x => exists g, group s g /\ in_itab s g x) /\ (forall k, room k s -> room k s') /\
  ext2_read_inode ino s' = Some n /\ forall ino', is_ino s ino' -> ino' <> ino -> ext2_read_inode ino' s' = ext2_read_inode ino' s.
Proof.
  intros Hg Hi Hn. destruct (place_spec s ino Hg Hi) as (g & i & b & off & E & Hp). unfold put_inode. rewrite E. set (buf := blit _ _ _). set (s' := put b buf s).
  pose proof Hp as (P1 & _ & _ & P4 & _ & _ & P7 & P8). destruct (itab_small s g b Hg P1 P4) as [Hsm Hnb]. pose proof (length_blk s b Hg Hsm) as Hlb. pose proof (geo_isz s Hg).
  assert (length (inode_bytes n) = 128%nat) as Hin by (apply length_inode_bytes; apply Hn).
  assert (Z.of_nat (length buf) = block_size s) as Hl by (unfold buf; rewrite length_blit; lia). assert (geo s') as Hg' by (by apply geo_put).
  pose proof (frame_put s b buf Hg Hsm Hnb Hl) as Hfr. fold s' in Hfr.
  assert (forall j, inode_place j s' = inode_place j s) as Epl by done. assert (blk s' b = buf) as Eb by (unfold s'; by rewrite blk_put, decide_True).
  cbn zeta. split_and!; [done|eapply frame_weaken; [apply Hfr|intros x ->; by exists g]|by intros k; apply room_put| |].
  - rewrite (read_inode_slice s' ino g i b off Hg' Hi E Hp), Eb. f_equal. unfold buf. replace 128 with (Z.of_nat (length (inode_bytes n))) by lia.
    rewrite slice_blit by lia. rewrite <- (app_nil_r (inode_bytes n)). by apply inode_of_bytes.
  - intros ino' Hi' Hne. destruct (place_spec s ino' Hg Hi') as (g' & i' & b' & off' & E' & Hp'). pose proof Hp' as (Q1 & _ & _ & Q4 & _ & _ & Q7 & Q8).
    rewrite (read_inode_slice s' ino' g' i' b' off' Hg' Hi' E' Hp'), (read_inode_slice s ino' g' i' b' off' Hg Hi' E' Hp'). do 2 f_equal.
    unfold s'. destruct (itab_small s g' b' Hg Q1 Q4). rewrite blk_put by done. destruct (decide (b' = b)) as [->|]; [|done].
    apply slice_blit_out; try lia. pose proof (place_disjoint s ino' ino g' i' b off' g i off Hg Hp' Hp Hne). lia.
Qed.

(** ** Writing the metadata back *)

Definition sb_block (s : ext2) : list Z := sb_bytes (sb s) ++ replicate (1024 - length (sb_bytes (sb s))) 0.
Definition bg_area (s : ext2) : list Z := take (Z.to_nat (Z.min (u32 (num_block_groups s * BG_SIZE)) (block_size s))) (mjoin (bg_bytes <$> bgdt s)).

Lemma flush_image s : geo s -> ext2_flush_metadata s =
  s <| image := put_blk (block_size s / 512) (bgdt_block s) (blit (blk s (bgdt_block s)) 0 (bg_area s)) (put_blk 2 1 (sb_block s) (image s)) |>.
Proof.
  intros Hg. unfold ext2_flush_metadata. rewrite (geo_present s Hg). cbn [negb]. fold (sb_block s). set (s1 := s <| image ::= _ |>).
  assert (ext2_read_block (bgdt_block s1) s1 = Some (blk s (bgdt_block s))) as ->.
  { unfold ext2_read_block. change (ata_disk_present s1) with (ata_disk_present s). rewrite (geo_present s Hg). f_equal.
    change (get_blk (block_size s / 512) (put_blk 2 1 (sb_block s) (image s)) (bgdt_block s) = get_blk (block_size s / 512) (image s) (bgdt_block s)).
    unfold bgdt_block. destruct (geo_bs s Hg) as [-> | [-> | ->]]; apply get_put_apart; cbn [Z.eqb Pos.eqb]; zsolve. }
  unfold ext2_write_block. change (ata_disk_present s1) with (ata_disk_present s). rewrite (geo_present s Hg). done.
Qed.

Lemma bgdt_block_pos s : 1 <= bgdt_block s <= 2.
Proof. unfold bgdt_block. destruct (block_size s =? 1024); lia. Qed.

Lemma length_bg_area s : geo s -> Z.of_nat (length (bg_area s)) <= block_size s.
Proof. intros Hg. pose proof (bs_pos s Hg). unfold bg_area. rewrite length_take. lia. Qed.

Lemma length_sb_block s : 1024 <= Z.of_nat (length (sb_block s)).
Proof. unfold sb_block. rewrite length_app, length_replicate. lia. Qed.

Lemma flush_spec s : geo s -> let s' := ext2_flush_metadata s in
  geo s' /\ frame s s' (fun x => 0 <= x <= bgdt_block s) /\ (forall k, room k s -> room k s') /\
  forall x, bgdt_block s < x < 2 ^ 25 -> blk s' x = blk s x.
Proof.
  intros Hg. pose proof (bgdt_block_pos s) as Hb. destruct (geo_spb s Hg) as (n & E & En & Hs). pose proof (length_sb_block s) as L1. pose proof (length_bg_area s Hg) as L2.
  pose proof (length_blk s (bgdt_block s) Hg ltac:(lia)) as L3. rewrite flush_image by done. set (buf := blit _ _ _). set (im := put_blk _ _ _ _). cbn zeta. set (s' := s <| image := im |>).
  assert (Z.of_nat (length buf) = 512 * n) as Lb by (unfold buf; rewrite length_blit; lia).
  assert (forall x, bgdt_block s < x < 2 ^ 25 -> blk s' x = blk s x) as Hblk.
  { intros x Hx. unfold blk. change (block_size s') with (block_size s). change (image s') with im. unfold im. rewrite En, get_put by lia. rewrite decide_False by lia.
    apply get_put_apart; [lia|lia|lia|lia|]. left. unfold bgdt_block in Hx. destruct (Z.eqb_spec (block_size s) 1024); nia. }
  assert (forall g, group s g -> bgdt_block s < bbm s g < 2 ^ 25 /\ bgdt_block s < ibm s g < 2 ^ 25) as Hgr.
  { intros g Hh. pose proof (bbm_small s g Hg Hh). pose proof (ibm_small s g Hg Hh). pose proof (geo_high s Hg g (bbm s g) Hh ltac:(auto)). pose proof (geo_high s Hg g (ibm s g) Hh ltac:(auto)). lia. }
  assert (forall x, in_range s x -> used s' x = used s x) as Hu.
  { intros x Hx. destruct (range_group s x Hg Hx) as [H1 _]. unfold used. change (bbm s') with (bbm s). change (fdb s') with (fdb s). change (bpg s') with (bpg s).
    by rewrite Hblk by apply (Hgr _ H1). }
  split_and!; [| | |done].
  - apply (geo_step s); [done|done| | | |].
    + change (image s') with im. unfold im. rewrite En. apply put_wf; [lia|lia|lia|]. apply put_wf; [lia|lia|lia|apply Hg].
    + intros x Hm Hr. rewrite Hu by done. by apply (geo_used s Hg).
    + intros g Hh. rewrite Hblk by apply (Hgr g Hh). by apply (geo_count s Hg).
    + intros g Hh. rewrite Hblk by apply (Hgr g Hh). by apply (geo_icount s Hg).
  - split; [done| |]; [intros x Hx Hux; by rewrite Hu|]. intros x Hx _ _ Hn. apply Hblk. lia.
  - intros k (l & Hd & Hl & Hf). exists l. split_and!; [done..|]. eapply Forall_impl; [done|]. intros x [Hr Hux]. split; [done|by rewrite Hu].
Qed.

(** ** Mounting again *)

Definition is_u32 (z : Z) : Prop := 0 <= z < 2 ^ 32.
Definition is_u16 (z : Z) : Prop := 0 <= z < 2 ^ 16.

Definition sb_wf (b : ext2_superblock) : Prop :=
  Forall is_u32 [s_inodes_count b; s_blocks_count b; s_r_blocks_count b; s_free_blocks_count b; s_free_inodes_count b; s_first_data_block b; s_log_block_size b;
    s_log_frag_size b; s_blocks_per_group b; s_frags_per_group b; s_inodes_per_group b; s_mtime b; s_wtime b; s_lastcheck b; s_checkinterval b; s_creator_os b;
    s_rev_level b; s_first_ino b; s_feature_compat b; s_feature_incompat b; s_feature_ro_compat b; s_algo_bitmap b] /\
  Forall is_u16 [s_mnt_count b; s_max_mnt_count b; s_magic b; s_state b; s_errors b; s_minor_rev_level b; s_def_resuid b; s_def_resgid b; s_inode_size b; s_block_group_nr b] /\
  length (s_uuid b) = 16%nat /\ length (s_volume_name b) = 16%nat /\ length (s_last_mounted b) = 64%nat.

Definition bg_wf (g : ext2_block_group_desc) : Prop :=
  Forall is_u32 [bg_block_bitmap g; bg_inode_bitmap g; bg_inode_table g] /\
  Forall is_u16 [bg_free_blocks_count g; bg_free_inodes_count g; bg_used_dirs_count g; bg_pad g] /\ length (bg_reserved g) = 12%nat.

Lemma sb_of_bytes b rest : sb_wf b -> sb_of (sb_bytes b ++ rest) = b.
Proof.
  intros (H32 & H16 & L1 & L2 & L3). repeat rewrite Forall_cons in H32; repeat rewrite Forall_cons in H16. unfold is_u32, is_u16 in *. unfold sb_of, rd16, rd32.
  assert (forall m l k off, length l = m -> Z.of_nat m <= off -> rd_le 4 (l ++ k) off = rd_le 4 k (off - Z.of_nat m)) as Hs by (intros m l k off <-; apply rd_le_skip).
  destruct b as [a1 a2 a3 a4 a5 a6 a7 a8 a9 a10 a11 a12 a13 a14 a15 a16 a17 a18 a19 a20 a21 a22 a23 a24 a25 a26 a27 a28 a29 a30 a31 uuid vol last a35].
  unfold sb_bytes; cbn [s_inodes_count s_blocks_count s_r_blocks_count s_free_blocks_count s_free_inodes_count s_first_data_block s_log_block_size s_log_frag_size s_blocks_per_group s_frags_per_group
    s_inodes_per_group s_mtime s_wtime s_mnt_count s_max_mnt_count s_magic s_state s_errors s_minor_rev_level s_lastcheck s_checkinterval s_creator_os s_rev_level s_def_resuid s_def_resgid
    s_first_ino s_inode_size s_block_group_nr s_feature_compat s_feature_incompat s_feature_ro_compat s_uuid s_volume_name s_last_mounted s_algo_bitmap] in *.
  f_equal; load_field; rewrite ?slice_skip_field by (by vm_compute).
  - apply (slice_at []); [by vm_compute|by rewrite L1].
  - rewrite slice_skip by (rewrite L1; by vm_compute). rewrite L1. apply (slice_at []); [by vm_compute|by rewrite L2].
  - rewrite slice_skip by (rewrite L1; by vm_compute). rewrite L1, slice_skip by (rewrite L2; by vm_compute). rewrite L2. apply (slice_at []); [by vm_compute|by rewrite L3].
  - rewrite (Hs 16%nat), (Hs 16%nat), (Hs 64%nat) by (done || by vm_compute). load_field.
Qed.

Lemma bg_of_bytes g rest : bg_wf g -> bg_of (bg_bytes g ++ rest) = g.
Proof.
  intros (H32 & H16 & L). repeat rewrite Forall_cons in H32; repeat rewrite Forall_cons in H16. unfold is_u32, is_u16 in *. unfold bg_of, rd16, rd32. destruct g as [a1 a2 a3 a4 a5 a6 a7 r]. unfold bg_bytes.
  cbn [bg_block_bitmap bg_inode_bitmap bg_inode_table bg_free_blocks_count bg_free_inodes_count bg_used_dirs_count bg_pad bg_reserved] in *.
  f_equal; load_field. rewrite !slice_skip_field by (by vm_compute). apply (slice_at []); [by vm_compute|by rewrite L].
Qed.

Lemma length_bg_bytes g : bg_wf g -> length (bg_bytes g) = 32%nat.
Proof. intros (_ & _ & L). unfold bg_bytes. by rewrite !length_app, !length_le_bytes, L. Qed.

Lemma length_bgs l : Forall bg_wf l -> length (mjoin (bg_bytes <$> l)) = (32 * length l)%nat.
Proof.
  induction 1 as [|g l Hg _ IH]; [done|]. change (mjoin (bg_bytes <$> g :: l)) with (bg_bytes g ++ mjoin (bg_bytes <$> l)).
  rewrite length_app, length_bg_bytes, IH by done. cbn. lia.
Qed.

Lemma bgs_of_bytes l : Forall bg_wf l -> bgs_of (length l) (mjoin (bg_bytes <$> l)) = l.
Proof.
  intros F. unfold bgs_of. apply list_eq. intros i. rewrite list_lookup_fmap. destruct (l !! i) as [g|] eqn:E.
  - pose proof (lookup_lt_Some _ _ _ E). rewrite lookup_seq_lt by lia. cbn [fmap option_fmap option_map Nat.add]. f_equal.
    rewrite <- (take_drop_middle l i g E) at 1. rewrite fmap_app, join_app. cbn [fmap list_fmap mjoin list_join].
    rewrite drop_app_length'; [apply bg_of_bytes; by apply (Forall_lookup_1 _ _ _ _ F E)|]. rewrite length_bgs by (by apply Forall_take). rewrite length_take. lia.
  - apply lookup_ge_None in E. by rewrite lookup_seq_ge.
Qed.

(** The numbers derived at mount time agree with the superblock, and the
    descriptors fit into the one block that is read and written. *)
Record meta_ok (s : ext2) : Prop := mk_meta_ok {
  meta_sb : sb_wf (sb s);
  meta_bg : Forall bg_wf (bgdt s);
  meta_magic : s_magic (sb s) = EXT2_MAGIC;
  meta_bs : block_size s = u32 (Z.shiftl 1024 (Z.land (s_log_block_size (sb s)) 31));
  meta_isz : inode_size s = if 1 <=? s_rev_level (sb s) then s_inode_size (sb s) else 128;
  meta_groups : num_block_groups s = u32 (s_blocks_count (sb s) + s_blocks_per_group (sb s) - 1) / s_blocks_per_group (sb s);
  meta_fits : num_block_groups s * BG_SIZE <= block_size s
}.

Lemma length_sb_bytes b : sb_wf b -> length (sb_bytes b) = 204%nat.
Proof. intros (_ & _ & L1 & L2 & L3). unfold sb_bytes. by rewrite !length_app, !length_le_bytes, L1, L2, L3. Qed.

Lemma flush_sb s : geo s -> sb_wf (sb s) -> sb_of (ata_read_sectors 2 2 (image (ext2_flush_metadata s))) = sb s.
Proof.
  intros Hg Hw. pose proof (bgdt_block_pos s). destruct (geo_spb s Hg) as (n & E & En & Hs). rewrite flush_image by done. set (b := blit _ _ _).
  change (sb_of (get_blk 2 (put_blk (block_size s / 512) (bgdt_block s) b (put_blk 2 1 (sb_block s) (image s))) 1) = sb s).
  rewrite get_put_apart; [|zsolve|lia|lia|lia|right; unfold bgdt_block; destruct (geo_bs s Hg) as [-> | [-> | ->]]; cbn [Z.eqb Pos.eqb]; zsolve].
  rewrite get_put by (pose proof (length_sb_block s); lia). rewrite decide_True, take_ge by (done || unfold sb_block; rewrite length_app, length_replicate, length_sb_bytes by done; done).
  by apply sb_of_bytes.
Qed.

Lemma flush_bgdt s mem : geo s -> meta_ok s -> Z.of_nat (length mem) = num_block_groups s * BG_SIZE ->
  let s' := ext2_flush_metadata s in
  bgs_of (Z.to_nat (num_block_groups s)) (blit mem 0 (take (Z.to_nat (num_block_groups s * BG_SIZE)) (blk s' (bgdt_block s)))) = bgdt s.
Proof.
  intros Hg Hm Hl. pose proof (bgdt_block_pos s). destruct (geo_spb s Hg) as (n & E & En & Hs). rewrite flush_image by done. cbn zeta. pose proof (geo_len s Hg) as Hlen.
  pose proof (length_blk s (bgdt_block s) Hg ltac:(lia)) as L3. pose proof (meta_fits s Hm) as Hfit. pose proof (bs_max s Hg). unfold BG_SIZE in *.
  pose proof (length_bgs (bgdt s) (meta_bg s Hm)) as Lb. assert (bg_area s = mjoin (bg_bytes <$> bgdt s)) as Ea.
  { unfold bg_area, BG_SIZE. rewrite u32_small, Z.min_l by lia. apply take_ge. lia. }
  assert (Z.of_nat (length (blit (blk s (bgdt_block s)) 0 (bg_area s))) = 512 * n) as Lbl by (rewrite length_blit; rewrite ?Ea; lia).
  set (s' := s <| image := _ |>). assert (blk s' (bgdt_block s) = blit (blk s (bgdt_block s)) 0 (bg_area s)) as ->.
  { unfold blk. change (block_size s') with (block_size s). change (image s') with (put_blk (block_size s / 512) (bgdt_block s) (blit (blk s (bgdt_block s)) 0 (bg_area s)) (put_blk 2 1 (sb_block s) (image s))).
    rewrite En, get_put, decide_True, take_ge by lia. unfold blk. by rewrite En. }
  rewrite Ea. unfold blit. change (Z.to_nat 0) with 0%nat. rewrite !take_0. cbn [app Nat.add]. rewrite take_app_length' by lia.
  rewrite drop_ge by lia. rewrite app_nil_r. replace (Z.to_nat (num_block_groups s)) with (length (bgdt s)) by lia. apply bgs_of_bytes. apply Hm.
Qed.

Lemma remount s t mem : geo s -> meta_ok s -> ata_disk_present t = true -> image t = image (ext2_flush_metadata s) ->
  Z.of_nat (length mem) = num_block_groups s * BG_SIZE -> ext2_init (Some mem) t = Some (ext2_flush_metadata s, 0).
Proof.
  intros Hg Hm Ht Ei Hl. unfold ext2_init. rewrite Ht. cbn [negb]. rewrite Ei, flush_sb by (done || apply Hm). 
  set (t1 := t <| sb := sb s |>). change (sb t1) with (sb s). rewrite (meta_magic s Hm), Z.eqb_refl. cbn [negb].
  pose proof (geo_bpg s Hg) as Hbpg. rewrite (proj2 (Z.eqb_neq (s_blocks_per_group (sb s)) 0)) by (unfold bpg in Hbpg; lia).
  rewrite <- (meta_bs s Hm), <- (meta_isz s Hm), <- (meta_groups s Hm). set (t2 := t1 <| block_size := _ |> <| inode_size := _ |> <| num_block_groups := _ |>).
  pose proof (bs_max s Hg). pose proof (meta_fits s Hm). pose proof (geo_len s Hg). change (block_size t2) with (block_size s). change (num_block_groups t2) with (num_block_groups s).
  rewrite (proj2 (Z.ltb_ge 4096 _)) by done. unfold BG_SIZE in *. rewrite u32_small, Z.min_l by lia.
  change (bgdt_block t2) with (bgdt_block s). assert (ext2_read_block (bgdt_block s) t2 = Some (blk (ext2_flush_metadata s) (bgdt_block s))) as ->.
  { unfold ext2_read_block. change (ata_disk_present t2) with (ata_disk_present t). rewrite Ht. change (image t2) with (image t). rewrite Ei. f_equal. by rewrite flush_image. }
  rewrite flush_bgdt by done. do 2 f_equal. rewrite flush_image in * by done. unfold t2, t1. cbn in Ei. destruct t, s. cbn in *. subst.
  pose proof (geo_mounted _ Hg) as E1. pose proof (geo_present _ Hg) as E2. cbn in E1, E2. by subst.
Qed.

(** ** Field widths are kept *)

Lemma meta_image s f : meta_ok s -> meta_ok (s <| image ::= f |>).
Proof. by intros []. Qed.

Lemma meta_write b buf s : meta_ok s -> meta_ok (ext2_write_block b buf s).1.
Proof. intros Hm. unfold ext2_write_block. destruct (ata_disk_present s); [by apply meta_image|done]. Qed.

(** One field replaced by a value of the same width. *)
Ltac wf_field H := cbn; repeat rewrite Forall_cons in H; repeat rewrite Forall_cons; tauto.

Lemma meta_flush s : meta_ok s -> meta_ok (ext2_flush_metadata s).
Proof.
  intros Hm. unfold ext2_flush_metadata. destruct (negb _); [done|]. destruct (ext2_read_block _ _); [apply meta_write|]; by apply meta_image.
Qed.

Lemma bg_wf_count g c : bg_wf g -> is_u16 c -> bg_wf (g <| bg_free_blocks_count := c |>).
Proof.
  intros (H1 & H2 & H3) Hc. split_and!; [done| |done]. wf_field H2.
Qed.

Lemma sb_wf_count b c : sb_wf b -> is_u32 c -> sb_wf (b <| s_free_blocks_count := c |>).
Proof.
  intros (H1 & H2 & H3) Hc. split; [|by split]. wf_field H1.
Qed.

Lemma bg_wf_icount g c : bg_wf g -> is_u16 c -> bg_wf (g <| bg_free_inodes_count := c |>).
Proof.
  intros (H1 & H2 & H3) Hc. split_and!; [done| |done]. wf_field H2.
Qed.

Lemma bg_wf_dirs g c : bg_wf g -> is_u16 c -> bg_wf (g <| bg_used_dirs_count := c |>).
Proof.
  intros (H1 & H2 & H3) Hc. split_and!; [done| |done]. wf_field H2.
Qed.

Lemma sb_wf_icount b c : sb_wf b -> is_u32 c -> sb_wf (b <| s_free_inodes_count := c |>).
Proof.
  intros (H1 & H2 & H3) Hc. split; [|by split]. wf_field H1.
Qed.

(** Counts replaced in one descriptor and in the superblock. *)
Lemma meta_blocks bg c c' s : meta_ok s ->
  meta_ok ((upd_bg bg (fun g => g <| bg_free_blocks_count ::= fun x => u16 (c x) |>) s) <| sb ::= fun b => b <| s_free_blocks_count ::= fun x => u32 (c' x) |> |>).
Proof.
  intros [S1 S2 S3 S4 S5 S6 S7]. split; try done; cbn; [apply sb_wf_count; [done|apply u32_range]|]. apply Forall_alter; [done|]. intros g _ Hg. apply bg_wf_count; [done|apply u16_range].
Qed.

Lemma meta_inodes bg c c' s : meta_ok s ->
  meta_ok ((upd_bg bg (fun g => g <| bg_free_inodes_count ::= fun x => u16 (c x) |>) s) <| sb ::= fun b => b <| s_free_inodes_count ::= fun x => u32 (c' x) |> |>).
Proof.
  intros [S1 S2 S3 S4 S5 S6 S7]. split; try done; cbn; [apply sb_wf_icount; [done|apply u32_range]|]. apply Forall_alter; [done|]. intros g _ Hg. apply bg_wf_icount; [done|apply u16_range].
Qed.

Lemma alloc_meta groups bg s : meta_ok s -> meta_ok (alloc_block_from groups bg s).1 /\ is_u32 (alloc_block_from groups bg s).2.
Proof.
  revert bg. induction groups as [|groups IH]; intros bg Hm; cbn [alloc_block_from]; [done|]. destruct (_ =? 0); [by apply IH|].
  destruct (ext2_read_block _ s) as [bm|]; [|by apply IH]. destruct (first_clear bm _) as [i|]; [|by apply IH]. split; [|apply u32_range].
  cbn [fst]. by apply (meta_blocks bg (fun c => c - 1) (fun c => c - 1)), meta_write.
Qed.

Lemma alloc_inode_meta groups bg s : meta_ok s -> meta_ok (alloc_inode_from groups bg s).1.
Proof.
  revert bg. induction groups as [|groups IH]; intros bg Hm; cbn [alloc_inode_from]; [done|]. destruct (_ =? 0); [by apply IH|].
  destruct (ext2_read_block _ s) as [bm|]; [|by apply IH]. destruct (first_clear bm _) as [i|]; [|by apply IH]. cbn [fst]. by apply (meta_inodes bg (fun c => c - 1) (fun c => c - 1)), meta_write.
Qed.

Lemma free_block_meta b s : meta_ok s -> meta_ok (ext2_free_block b s).
Proof.
  intros Hm. unfold ext2_free_block. destruct (b =? 0); [done|]. destruct (_ <=? _); [done|]. destruct (ext2_read_block _ s); [|done]. by apply (meta_blocks _ (fun c => c + 1) (fun c => c + 1)), meta_write.
Qed.

Lemma free_inode_meta ino s : meta_ok s -> meta_ok (ext2_free_inode ino s).
Proof.
  intros Hm. unfold ext2_free_inode. destruct (ino =? 0); [done|]. destruct (_ <=? _); [done|]. destruct (ext2_read_block _ s); [|done]. by apply (meta_inodes _ (fun c => c + 1) (fun c => c + 1)), meta_write.
Qed.

Lemma write_inode_meta ino n s : meta_ok s -> meta_ok (ext2_write_inode ino n s).1.
Proof.
  intros Hm. unfold ext2_write_inode. destruct (negb _ || _); [done|]. destruct (inode_place ino s). destruct (ext2_read_block _ s); [by apply meta_write|done].
Qed.

Lemma inode_wf_block n i b : inode_wf n -> is_u32 b -> inode_wf (n <| i_block ::= fun l => zset l i b |>).
Proof.
  unfold inode_wf. cbn. intros (H1 & H2 & H3 & H4 & H5 & H6 & H7 & H8 & H9 & H10 & H11 & H12 & L & F & H) Hb. rewrite length_zset.
  assert (Forall (fun b => 0 <= b < 2 ^ 32) (zset (i_block n) i b)) by (by apply Forall_insert). tauto.
Qed.

Lemma set_block_meta n idx b s : meta_ok s -> inode_wf n -> is_u32 b ->
  meta_ok (ext2_set_block n idx b s).1.1 /\ inode_wf (ext2_set_block n idx b s).1.2.
Proof.
  intros Hm Hn Hb. unfold ext2_set_block. destruct (idx <? 12); [split; [done|by apply inode_wf_block]|]. destruct (_ <? _); [|done].
  set (r := if zget (i_block n) 12 =? 0 then _ else _). assert (meta_ok r.1.1 /\ inode_wf r.1.2) as [H1 H2].
  { unfold r. destruct (_ =? 0); [|done]. destruct (alloc_meta (Z.to_nat (num_block_groups s)) 0 s Hm) as [Ha Hi]. fold (ext2_alloc_block s) in Ha, Hi.
    destruct (ext2_alloc_block s) as [s1 ind]. destruct (ind =? 0); [done|]. split; [by apply meta_write|by apply inode_wf_block]. }
  destruct r as [[s1 n1] ok]. destruct (negb ok); [done|]. destruct (ext2_read_block _ s1) as [buf|]; [|done].
  pose proof (meta_write (zget (i_block n1) 12) (blit buf (4 * (idx - 12)) (le_bytes 4 b)) s1 H1) as H3. by destruct (ext2_write_block _ _ s1).
Qed.

Lemma block_for_meta n idx s : meta_ok s -> inode_wf n -> meta_ok (block_for n idx s).1.1 /\ inode_wf (block_for n idx s).1.2.
Proof.
  intros Hm Hn. unfold block_for. destruct (_ =? 0); [|done]. destruct (alloc_meta (Z.to_nat (num_block_groups s)) 0 s Hm) as [Ha Hi]. fold (ext2_alloc_block s) in Ha, Hi.
  destruct (ext2_alloc_block s) as [s1 b]. destruct (b =? 0); [done|]. destruct (set_block_meta n idx b s1 Ha Hn Hi) as [H1 H2].
  destruct (ext2_set_block n idx b s1) as [[s2 n2] r]. split; [by apply meta_write|]. destruct H2 as (? & ? & ? & ? & ? & ? & ? & ? & ? & ? & ?).
  unfold inode_wf. cbn. split_and!; try tauto; apply u32_range.
Qed.

Lemma write_chunk_meta n idx off chunk s : meta_ok s -> inode_wf n -> meta_ok (write_chunk n idx off chunk s).1.1 /\ inode_wf (write_chunk n idx off chunk s).1.2.
Proof.
  intros Hm Hn. unfold write_chunk. destruct (block_for_meta n idx s Hm Hn) as [H1 H2]. destruct (block_for n idx s) as [[s1 n1] b]. destruct (b =? 0); [done|].
  destruct (if _ : bool then _ else _) as [buf|]; [|done]. pose proof (meta_write b (blit buf off chunk) s1 H1) as H3. by destruct (ext2_write_block _ _ s1).
Qed.

Lemma write_from_meta fuel n pos data s : meta_ok s -> inode_wf n -> meta_ok (write_from fuel n pos data s).1.1.1 /\ inode_wf (write_from fuel n pos data s).1.1.2.
Proof.
  revert n pos data s. induction fuel as [|fuel IH]; intros n pos data s Hm Hn; [done|]. destruct data as [|d data']; [done|]. cbn [write_from]. set (data := d :: data').
  set (k := Z.min _ _). destruct (write_chunk_meta n (u32 (pos / block_size s)) (u32 (pos mod block_size s)) (take (Z.to_nat k) data) s Hm Hn) as [H1 H2].
  destruct (write_chunk _ _ _ _ s) as [[s1 n1] ok]. destruct (negb ok); [done|]. specialize (IH n1 (pos + k) (drop (Z.to_nat k) data) s1 H1 H2).
  by destruct (write_from fuel n1 _ _ s1) as [[[s2 n2] w] ok'].
Qed.

(** ** Reading and writing files *)

(** The pointers and the blocks of a file are the same. *)
Definition same_file (n : ext2_inode) (s s' : ext2) : Prop :=
  block_size s' = block_size s /\ (forall k, is_slot s k -> slot n s' k = slot n s k) /\ forall x, blocks_of n s x -> blk s' x = blk s x.

Lemma same_blocks n s s' x : same_file n s s' -> blocks_of n s' x -> blocks_of n s x.
Proof. intros (E & S & _) [Hx (k & Hk & ->)]. assert (is_slot s k) as Hk' by (unfold is_slot, ptrs in *; by rewrite <- E). split; [done|]. exists k. split; [done|by apply S]. Qed.

Lemma same_file_trans n s s1 s2 : same_file n s s1 -> same_file n s1 s2 -> same_file n s s2.
Proof.
  intros (E1 & S1 & B1) (E2 & S2 & B2). assert (forall k, is_slot s1 k <-> is_slot s k) as Hs by (intros k; unfold is_slot, ptrs; by rewrite E1). split_and!; [congruence| |].
  - intros k Hk. rewrite S2 by (by apply Hs). by apply S1.
  - intros x Hx. rewrite B2; [by apply B1|]. destruct Hx as [Hx (k & Hk & ->)]. split; [done|]. exists k. split; [by apply Hs|by rewrite S1].
Qed.

Lemma same_file_bytes n s s' p : same_file n s s' -> is_idx s (p / block_size s) -> fbyte n s' p = fbyte n s p.
Proof.
  intros (E & S & B) Hp. destruct (slot_of_range s _ Hp) as [Hk _]. unfold fbyte. rewrite E, S by done. destruct (Z.eqb_spec (slot n s (slot_of (p / block_size s))) 0) as [|Hne]; [done|].
  f_equal. apply B. split; [done|by exists (slot_of (p / block_size s))].
Qed.

(** A file whose blocks the frame leaves alone. *)
Lemma fbyte_frame n s s' X : geo s -> geo s' -> frame s s' X -> file_ok n s -> (forall x, blocks_of n s x -> ~ X x) -> file_ok n s' /\ same_file n s s'.
Proof.
  intros Hg Hg' Hfr Hf HX. pose proof (is_slot_12 s Hg) as S12. destruct (geom_eq _ _ (fr_geom _ _ _ Hfr)) as (_ & _ & Ebs & _).
  destruct (file_frame n s s' X Hg Hg' Hfr Hf) as [Hf' Es]; [intros Hne; apply HX; split; [done|by exists 12]|]. split; [done|]. split_and!; [done|done|].
  intros x Hx. apply (frame_owned s s' X x Hg Hfr); [|by apply HX]. destruct Hx as [Hx (k & Hk & ->)]. by apply (file_owned _ _ Hf).
Qed.

Lemma blocks_not_meta n s x : file_ok n s -> blocks_of n s x -> ~ is_meta s x.
Proof. intros Hf [Hx (k & Hk & ->)]. by apply (file_owned _ _ Hf k Hk). Qed.

Lemma read_inode_frame ino s s' X : geo s -> geo s' -> frame s s' X -> is_ino s ino -> (forall g x, group s g -> in_itab s g x -> ~ X x) ->
  ext2_read_inode ino s' = ext2_read_inode ino s.
Proof.
  intros Hg Hg' [G U B] Hi HX. destruct (place_spec s ino Hg Hi) as (g & i & b & off & E & (P1 & _ & _ & P4 & _)). unfold ext2_read_inode.
  rewrite (geo_mounted s Hg), (geo_mounted s' Hg'), (inode_place_geom s s' ino G), E, !read_blk by done. destruct (itab_small s g b Hg P1 P4) as [Hsm Hnb].
  rewrite B; [done|done|intros h Hh; by apply Hnb| |by apply (HX g)]. intros [Hr Hu]. rewrite (geo_used s Hg b) in Hu; [done| |done]. right. exists g. auto.
Qed.

(** No block of one file belongs to the other. *)
Definition apart (n m : ext2_inode) (s : ext2) : Prop := forall x, blocks_of n s x -> ~ blocks_of m s x.

Lemma inode_wf_size n sz : inode_wf n -> is_u32 sz -> inode_wf (n <| i_size := sz |>).
Proof. intros Hn Hs. unfold inode_wf, is_u32 in *. cbn. tauto. Qed.

Lemma max_size_small s : geo s -> max_size s < 2 ^ 31.
Proof. intros Hg. pose proof (ptrs_size s Hg). pose proof (bs_max s Hg). pose proof (bs_pos s Hg). unfold max_size. nia. Qed.

(** Storing the inode and the metadata does not touch the files. *)
Lemma put_inode_flush s ino n : geo s -> meta_ok s -> is_ino s ino -> inode_wf n -> let s2 := put_inode ino n s in let s' := ext2_flush_metadata s2 in
  geo s2 /\ meta_ok s2 /\ geo s' /\ ext2_read_inode ino s' = Some n /\
  (forall ino', is_ino s ino' -> ino' <> ino -> ext2_read_inode ino' s' = ext2_read_inode ino' s) /\
  (forall m, file_ok m s -> file_ok m s' /\ same_file m s s') /\ geom s' = geom s /\
  (forall x, in_range s x -> used s x = true -> used s' x = true).
Proof.
  intros Hg Hm Hi Hn s2 s'. destruct (put_inode_spec s ino n Hg Hi Hn) as (Hg2 & F2 & _ & R2 & O2). fold s2 in Hg2, F2, R2, O2.
  assert (meta_ok s2) as Hm2 by (unfold s2, put_inode; destruct (inode_place ino s); by apply meta_image).
  destruct (flush_spec s2 Hg2) as (Hg' & F' & _). fold s' in Hg', F'. pose proof (fr_geom _ _ _ F2) as G2. destruct (geom_eq _ _ G2) as (_ & _ & Ebs & _ & E5 & _ & E7 & _).
  assert (forall j, is_ino s j <-> is_ino s2 j) as Hino by (intros j; unfold is_ino; by rewrite E5, E7).
  assert (forall j, is_ino s j -> ext2_read_inode j s' = ext2_read_inode j s2) as Hr.
  { intros j Hj. apply (read_inode_frame j s2 s' _ Hg2 Hg' F'); [by apply Hino|]. intros g x H1 H2 H3. pose proof (geo_high s2 Hg2 g x H1 ltac:(auto)). lia. }
  split_and!; [done..|by rewrite Hr| | | |].
  - intros j Hj Hne. rewrite Hr by done. by apply O2.
  - intros m Hf. destruct (fbyte_frame m s s2 _ Hg Hg2 F2 Hf) as [Hf2 B2].
    { intros x Hx (g & H1 & H2). apply (blocks_not_meta m s x Hf Hx). right. exists g. auto. }
    destruct (fbyte_frame m s2 s' _ Hg2 Hg' F' Hf2) as [Hf' B']; [intros x Hx Hb; apply (blocks_not_meta m s2 x Hf2 Hx); by left|].
    split; [done|]. by eapply same_file_trans.
  - rewrite (fr_geom _ _ _ F'). exact G2.
  - intros x Hx Hu. apply (fr_used _ _ _ F'); [by apply (geom_range s)|by apply (fr_used _ _ _ F2)].
Qed.

Lemma write_file_spec ino n off data s : geo s -> meta_ok s -> is_ino s ino -> file_ok n s -> inode_wf n -> data <> [] ->
  0 <= off -> off + Z.of_nat (length data) <= max_size s -> room (need n + Z.to_nat (chunks s off (Z.of_nat (length data)))) s ->
  exists s2 n', let s' := ext2_flush_metadata s2 in
    ext2_write_file ino n off data s = (s', n', Z.of_nat (length data)) /\ geo s2 /\ meta_ok s2 /\ geo s' /\ num_block_groups s2 = num_block_groups s /\ block_size s' = block_size s /\
    ext2_read_inode ino s' = Some n' /\ file_ok n' s' /\ i_size n' = Z.max (i_size n) (off + Z.of_nat (length data)) /\
    (forall p, is_idx s (p / block_size s) -> fbyte n' s' p = if decide (0 <= p - off < Z.of_nat (length data)) then zget data (p - off) else fbyte n s p) /\
    (forall ino', is_ino s ino' -> ino' <> ino -> ext2_read_inode ino' s' = ext2_read_inode ino' s) /\
    (forall m, file_ok m s -> apart m n s -> file_ok m s' /\ same_file m s s').
Proof.
  intros Hg Hm Hi Hf Hn Hd H0 Hmax Hroom. pose proof (max_size_small s Hg). assert (0 < Z.of_nat (length data)) as Hl by (destruct data; [done|cbn; lia]).
  destruct (chunks_step s off _ Hg H0 Hl) as (_ & Hc & _).
  destruct (write_from_spec (length data) (Z.to_nat (chunks s off (Z.of_nat (length data)))) n off data s Hg Hf H0 Hmax ltac:(lia) ltac:(lia) Hroom) as (s1 & n1 & E & [Hg1 F1 Hf1 I1 _ _] & B1).
  pose proof (write_from_meta (length data) n off data s Hm Hn) as [Hm1 Hn1]. rewrite E in Hm1, Hn1. cbn [fst snd] in Hm1, Hn1.
  unfold ext2_write_file. rewrite (geo_mounted s Hg). cbn [negb]. rewrite E. cbn [negb]. rewrite u64_small, u32_small by lia.
  set (n' := if _ : bool then _ else _). assert (i_size n1 = i_size n) as Es1 by (by rewrite I1).
  assert (i_size n' = Z.max (i_size n) (off + Z.of_nat (length data))) as Esz by (unfold n'; rewrite Es1; destruct (Z.ltb_spec (i_size n) (off + Z.of_nat (length data))); cbn; lia).
  assert (inode_wf n') as Hn' by (unfold n'; destruct (_ <? _); [apply inode_wf_size; [done|unfold is_u32; lia]|done]).
  assert (forall t, file_ok n1 t -> file_ok n' t) as Hff by (intros t []; unfold n'; by destruct (_ <? _)).
  assert (forall t p, fbyte n' t p = fbyte n1 t p) as Hfb by (intros t p; unfold n'; by destruct (_ <? _)). clearbody n'.
  destruct (geom_eq _ _ (fr_geom _ _ _ F1)) as (_ & _ & Ebs & _ & E5 & _ & E7 & _).
  assert (forall j, is_ino s1 j <-> is_ino s j) as Hino by (intros j; unfold is_ino; by rewrite E5, E7). rewrite write_inode_put by (done || by apply Hino). cbn [fst].
  destruct (put_inode_flush s1 ino n' Hg1 Hm1 (proj2 (Hino ino) Hi) Hn') as (G2 & M2 & G3 & R3 & O3 & B3 & Eg3 & _).
  exists (put_inode ino n' s1), n'. cbn zeta. set (s' := ext2_flush_metadata _) in *. split_and!; try done.
  - destruct (geom_eq _ _ Eg3) as (_ & _ & E3 & _). congruence.
  - by apply Hff, B3.
  - intros p Hp. rewrite Hfb, (same_file_bytes n1 s1 s' p (proj2 (B3 n1 Hf1))) by (rewrite Ebs; by apply (frame_idx s _ _ _ F1)). by apply B1.
  - intros j Hj Hne. rewrite O3 by (done || by apply Hino). apply (read_inode_frame j s s1 _ Hg Hg1 F1 Hj). intros g x H1 H2 H3.
    apply (blocks_not_meta n s x Hf H3). right. exists g. auto.
  - intros m Hfm Hap. destruct (fbyte_frame m s s1 _ Hg Hg1 F1 Hfm Hap) as [Hfm1 Bm]. destruct (B3 m Hfm1) as [Hfm' Bm']. split; [done|]. by eapply same_file_trans.
Qed.

(** ** Allocating inodes *)

Definition iused (s : ext2) (ino : Z) : bool := Pmm.bitmap_test (blk s (ibm s ((ino - 1) / ipg s))) ((ino - 1) mod ipg s).

(** The state after inode [ino] was taken. *)
Definition claim_inode (ino : Z) (s : ext2) : ext2 :=
  let g := (ino - 1) / ipg s in
  let s' := put (ibm s g) (Pmm.bitmap_set (blk s (ibm s g)) ((ino - 1) mod ipg s)) s in
  (upd_bg g (fun g => g <| bg_free_inodes_count ::= fun c => u16 (c - 1) |>) s')
    <| sb ::= fun b => b <| s_free_inodes_count ::= fun c => u32 (c - 1) |> |>.

Lemma ino_group s ino : geo s -> is_ino s ino -> group s ((ino - 1) / ipg s) /\ 0 <= (ino - 1) mod ipg s < ipg s.
Proof.
  intros Hg Hi. pose proof (geo_ipg s Hg). unfold is_ino, group in *. split; [|apply Z.mod_pos_bound; lia]. split; [apply Z.div_pos; lia|apply Z.div_lt_upper_bound; lia].
Qed.

Lemma inodes_max s : geo s -> meta_ok s -> num_block_groups s * ipg s < 2 ^ 32.
Proof. intros Hg Hm. pose proof (meta_fits s Hm) as Hf. pose proof (bs_max s Hg). pose proof (geo_ipg s Hg). pose proof (geo_len s Hg). unfold BG_SIZE in Hf. nia. Qed.

Lemma alloc_inode_from_spec groups bg s : geo s -> meta_ok s -> 0 <= bg -> bg + Z.of_nat groups = num_block_groups s ->
  let '(s', ino) := alloc_inode_from groups bg s in
  (ino = 0 /\ s' = s /\ forall x, is_ino s x -> bg <= (x - 1) / ipg s -> iused s x = true) \/
  (is_ino s ino /\ iused s ino = false /\ s' = claim_inode ino s).
Proof.
  intros Hg Hm. revert bg. induction groups as [|groups IH]; intros bg H0 Hn; cbn [alloc_inode_from].
  - left. split_and!; [done..|]. intros x Hx Hle. destruct (ino_group s x Hg Hx) as [[? ?] _]. lia.
  - assert (group s bg) as Hgr by (unfold group; lia). specialize (IH (bg + 1) ltac:(lia) ltac:(lia)).
    assert ((forall i, 0 <= i < ipg s -> Pmm.bitmap_test (blk s (ibm s bg)) i = true) ->
      let '(s', ino) := alloc_inode_from groups (bg + 1) s in
      (ino = 0 /\ s' = s /\ forall x, is_ino s x -> bg <= (x - 1) / ipg s -> iused s x = true) \/
      (is_ino s ino /\ iused s ino = false /\ s' = claim_inode ino s)) as Hskip.
    { intros Hfull. destruct (alloc_inode_from groups (bg + 1) s) as [s' b]. destruct IH as [(-> & -> & Hx)|IH]; [left|by right]. split_and!; [done..|].
      intros x Hr Hle. destruct (decide ((x - 1) / ipg s = bg)) as [E|]; [|apply Hx; [done|lia]]. unfold iused. rewrite E. apply Hfull. apply (ino_group s x Hg Hr). }
    destruct (Z.eqb_spec (bg_free_inodes_count (zget (bgdt s) bg)) 0) as [E|E].
    + apply Hskip. intros i Hi. rewrite (geo_icount s Hg bg Hgr) in E. destruct (Pmm.bitmap_test _ i) eqn:Et; [done|]. pose proof (Pmm.count_free_pos _ _ _ Hi Et). lia.
    + fold (ibm s bg). rewrite read_blk by done. destruct (first_clear (blk s (ibm s bg)) (s_inodes_per_group (sb s))) as [i|] eqn:Ef.
      * apply first_clear_spec in Ef as [Hi Ht]. fold (ipg s) in *. right. rewrite write_blk by done. cbn [fst]. pose proof (inodes_max s Hg Hm). pose proof (geo_ipg s Hg). unfold group in Hgr.
        set (b := u32 _). assert (b = bg * ipg s + i + 1) as Eb by (change (u32 (bg * ipg s + i + 1) = bg * ipg s + i + 1); rewrite u32_small; nia). clearbody b. subst b.
        assert ((bg * ipg s + i + 1 - 1) / ipg s = bg) as Ed by (replace (bg * ipg s + i + 1 - 1) with (i + bg * ipg s) by lia; rewrite Z.div_add, Z.div_small by lia; lia).
        assert ((bg * ipg s + i + 1 - 1) mod ipg s = i) as Em by (replace (bg * ipg s + i + 1 - 1) with (i + bg * ipg s) by lia; rewrite Z.mod_add, Z.mod_small by lia; lia).
        split_and!; [unfold is_ino; nia| |]; [unfold iused|unfold claim_inode]; by rewrite Ed, Em.
      * apply Hskip. intros i Hi. by apply (first_clear_None _ (ipg s)).
Qed.

Lemma alloc_inode_spec s : geo s -> meta_ok s -> (exists x, is_ino s x /\ iused s x = false) ->
  exists ino, ext2_alloc_inode s = (claim_inode ino s, ino) /\ is_ino s ino /\ iused s ino = false.
Proof.
  intros Hg Hm (x & Hx & Hf). pose proof (geo_len s Hg). pose proof (alloc_inode_from_spec (Z.to_nat (num_block_groups s)) 0 s Hg Hm ltac:(lia) ltac:(lia)) as H1. unfold ext2_alloc_inode.
  destruct (alloc_inode_from _ 0 s) as [s' ino]. destruct H1 as [(_ & _ & Hall)|(H1 & H2 & ->)]; [|by exists ino]. rewrite Hall in Hf; [done|done|]. apply (ino_group s x Hg Hx).
Qed.

(** Files do not notice a change of metadata only. *)
Lemma files_kept s s' X : geo s -> geo s' -> frame s s' X -> (forall x, X x -> is_meta s x) -> forall m, file_ok m s -> file_ok m s' /\ same_file m s s'.
Proof. intros Hg Hg' Hfr HX m Hf. apply (fbyte_frame m s s' X); [done..|]. intros x Hx H. by apply (blocks_not_meta m s x Hf Hx), HX. Qed.

(** What taking an inode changes: its bit, and nothing outside the bitmaps. *)
Lemma claim_inode_spec s ino : geo s -> meta_ok s -> is_ino s ino -> iused s ino = false -> let s' := claim_inode ino s in
  geo s' /\ meta_ok s' /\ frame s s' (fun x => exists g, group s g /\ x = ibm s g) /\ forall k, room k s -> room k s'.
Proof.
  intros Hg Hm Hi Hu s'. destruct (ino_group s ino Hg Hi) as [Hgr Hir]. unfold iused in Hu. set (g := (ino - 1) / ipg s) in *. set (i := (ino - 1) mod ipg s) in *.
  set (bm := Pmm.bitmap_set (blk s (ibm s g)) i). pose proof (ibm_small s g Hg Hgr) as Hb. pose proof (length_blk s _ Hg Hb) as Hlen. pose proof (geo_ipg s Hg) as Hipg.
  assert (Z.of_nat (length bm) = block_size s) as Hl by (unfold bm; by rewrite Pmm.length_bitmap_set).
  assert (forall x, 0 <= x < 2 ^ 25 -> blk s' x = if decide (x = ibm s g) then bm else blk s x) as Hblk by (intros x Hx; by apply (blk_put s)).
  set (f := fun g : ext2_block_group_desc => g <| bg_free_inodes_count ::= fun c => u16 (c - 1) |>). assert (geom s' = geom s) as Eg by (transitivity (geom (upd_bg g f s)); [done|by apply geom_upd_bg]).
  assert (forall x, in_range s x -> used s' x = used s x) as Hused.
  { intros x Hx. destruct (range_group s x Hg Hx) as [Hgx _]. unfold used. destruct (geom_eq _ _ Eg) as (_ & _ & _ & _ & _ & -> & _ & -> & _). destruct (geom_bg _ _ ((x - fdb s) / bpg s) Eg) as (-> & _).
    rewrite Hblk, decide_False by (by apply bbm_small || by apply (geo_bi s Hg)). done. }
  split_and!.
  - apply (geo_step s); [done|done| | | |].
    + unfold s', claim_inode. destruct (geo_spb s Hg) as (n & E & En & Hs). cbn. rewrite En. apply put_wf; [lia|done|fold g i bm; lia|apply Hg].
    + intros x Hmx Hx. rewrite Hused by done. by rewrite (geo_used s Hg x Hmx Hx).
    + intros h Hh. rewrite Hblk, decide_False by (by apply bbm_small || by apply (geo_bi s Hg)). change (zget (bgdt s') h) with (zget (bgdt (upd_bg g f s)) h).
      rewrite zget_upd_bg by done. destruct (decide (h = g)); by apply (geo_count s Hg).
    + intros h Hh. rewrite Hblk by (by apply ibm_small). change (zget (bgdt s') h) with (zget (bgdt (upd_bg g f s)) h). rewrite zget_upd_bg by done. destruct (decide (h = g)) as [->|Hne].
      * rewrite decide_True by done. unfold bm. rewrite Pmm.count_set by (done || zsolve). change (u16 (bg_free_inodes_count (zget (bgdt s) g) - 1) = countb negb (Pmm.view (blk s (ibm s g)) (ipg s)) - 1).
        rewrite (geo_icount s Hg g Hgr). pose proof (Pmm.count_free_bounds (blk s (ibm s g)) (ipg s) ltac:(lia)). pose proof (Pmm.count_free_pos _ _ _ Hir Hu). pose proof (bs_max s Hg). apply u16_small. lia.
      * rewrite decide_False; [by apply (geo_icount s Hg)|]. intros E. apply Hne. by apply (geo_ii s Hg).
  - by apply (meta_inodes g (fun c => c - 1) (fun c => c - 1)), meta_image.
  - split; [done|intros x Hx; by rewrite Hused|]. intros x Hx _ _ HX. rewrite Hblk, decide_False; [done| |done]. intros ->. apply HX. by exists g.
  - intros k (l & Hd & Hk & Hf). exists l. split_and!; [done..|]. eapply Forall_impl; [done|]. intros x [Hr Hfx]. split; [by apply (geom_range s)|]. by rewrite Hused.
Qed.

(** ** Claims *)

(** A slice of the bytes of a file. *)
Lemma fbytes_data n s off (data : list Z) : geo s -> 0 <= off -> off + Z.of_nat (length data) <= max_size s ->
  (forall p, is_idx s (p / block_size s) -> 0 <= p - off < Z.of_nat (length data) -> fbyte n s p = zget data (p - off)) ->
  fbyte n s <$> seqZ off (Z.of_nat (length data)) = data.
Proof.
  intros Hg H0 Hmax H. apply list_eq. intros i. rewrite list_lookup_fmap. destruct (decide (Z.of_nat i < Z.of_nat (length data))) as [Hlt|Hge].
  - rewrite (proj2 (lookup_seqZ off _ i (off + Z.of_nat i))) by lia. cbn. rewrite H; [|apply pos_idx; [done|lia]|lia].
    rewrite <- (zget_lookup data) by lia. f_equal. lia.
  - rewrite lookup_seqZ_ge by lia. symmetry. apply lookup_ge_None. lia.
Qed.

(** C6: Writing to a file, then mounting the disk afresh and reading: as long as
    the file stays within its indirect block and enough blocks are free, all
    bytes are written; the machine that mounts the disk finds the same file
    system; the inode it reads gives back the data, the old bytes of the file
    outside the written range, and the larger size; other inodes and the
    contents of other files are as before. *)
Theorem ext2_write_persists ino n off data s t mem ino2 m :
  geo s -> meta_ok s -> is_ino s ino -> file_ok n s -> inode_wf n -> i_size n <= max_size s -> data <> [] ->
  0 <= off -> off + Z.of_nat (length data) <= max_size s -> room (need n + Z.to_nat (chunks s off (Z.of_nat (length data)))) s ->
  is_ino s ino2 -> ino2 <> ino -> ext2_read_inode ino2 s = Some m -> file_ok m s -> apart m n s -> i_size m <= max_size s ->
  ata_disk_present t = true -> Z.of_nat (length mem) = num_block_groups s * BG_SIZE ->
  let '(s1, _, w) := ext2_write_file ino n off data s in
  w = Z.of_nat (length data) /\
  exists s' n', ext2_init (Some mem) (t <| image := image s1 |>) = Some (s', 0) /\ ext2_read_inode ino s' = Some n' /\
    i_size n' = Z.max (i_size n) (off + Z.of_nat (length data)) /\ ext2_read_file n' off (Z.of_nat (length data)) s' = Some data /\
    (forall p, 0 <= p < i_size n -> p < off \/ off + Z.of_nat (length data) <= p -> ext2_read_file n' p 1 s' = ext2_read_file n p 1 s) /\
    ext2_read_inode ino2 s' = Some m /\ forall p k, 0 <= p -> 0 <= k -> ext2_read_file m p k s' = ext2_read_file m p k s.
Proof.
  intros Hg Hm Hi Hf Hn Hsz Hd H0 Hmax Hroom Hi2 Hne Hr2 Hf2 Hap Hsz2 Ht Hl.
  destruct (write_file_spec ino n off data s Hg Hm Hi Hf Hn Hd H0 Hmax Hroom) as (s2 & n' & W & G2 & M2 & G' & En & Ebs & R & F' & Es & B & O & A).
  cbn zeta in *. rewrite W. set (s' := ext2_flush_metadata s2) in *. split; [done|]. exists s', n'.
  assert (max_size s' = max_size s) as Ems by (unfold max_size, ptrs; by rewrite Ebs).
  destruct (A m Hf2 Hap) as [Fm Bm]. split_and!; [apply remount; [done|done|done|done|by rewrite En]|done|done| | |by rewrite O|].
  - rewrite read_file_spec by (done || lia). rewrite Z.min_l by lia. f_equal. apply fbytes_data; [done|done|lia|].
    intros p Hp Hq. rewrite B by (unfold is_idx, ptrs in *; by rewrite <- Ebs). by rewrite decide_True.
  - intros p Hp Hout. rewrite !read_file_spec by (done || lia). rewrite !Z.min_l by lia. f_equal. apply list_fmap_ext. intros i q Hq. apply lookup_seqZ in Hq.
    rewrite B by (apply pos_idx; [done|lia]). by rewrite decide_False by lia.
  - intros p k Hp Hk. rewrite !read_file_spec by (done || lia). f_equal. apply list_fmap_ext. intros i q Hq. apply lookup_seqZ in Hq. apply (same_file_bytes m s s' _ Bm), pos_idx; [done|lia].
Qed.

(** A block index that needs the double indirect block. *)
Definition beyond (s : ext2) (idx : Z) : Prop := 12 + ptrs s <= idx < 12 + ptrs s + ptrs s * ptrs s.

Lemma get_beyond n idx s : geo s -> beyond s idx -> zget (i_block n) 13 = 0 -> ext2_get_block n idx s = 0.
Proof.
  intros Hg Hb E. pose proof (ptrs_size s Hg). unfold beyond in Hb. unfold ext2_get_block. fold (ptrs s).
  rewrite !(proj2 (Z.ltb_ge _ _)) by lia. rewrite E, Z.eqb_refl. by destruct (_ <? _).
Qed.

Lemma write_chunk_beyond n idx off chunk s : geo s -> beyond s idx -> zget (i_block n) 13 = 0 -> room 1 s -> 0 <= off -> off + Z.of_nat (length chunk) <= block_size s ->
  exists c s1, write_chunk n idx off chunk s = (s1, n <| i_blocks ::= fun x => u32 (x + block_size s / 512) |>, true) /\ free s c /\ geo s1 /\ geom s1 = geom s /\ used s1 c = true.
Proof.
  intros Hg Hb E Hr H0 Hl. pose proof (ptrs_size s Hg). pose proof Hb as Hb'. unfold beyond in Hb'. unfold write_chunk, block_for. rewrite get_beyond, Z.eqb_refl by done.
  destruct (alloc_room s 0 Hg Hr) as (c & -> & Hc0 & Hc). rewrite (proj2 (Z.eqb_neq c 0)) by done. destruct (claim_spec s c Hg) as (Hgc & Gc & Uc & _); [apply Hc..|].
  destruct (geom_eq _ _ Gc) as (_ & _ & Ebs & _). unfold ext2_set_block. rewrite Ebs. fold (ptrs s). rewrite !(proj2 (Z.ltb_ge _ _)) by lia. rewrite Ebs, write_blk by done. cbn [fst].
  rewrite (proj2 (Z.eqb_neq c 0)) by done. destruct (fresh_spec s c Hg Hc) as (Hg1 & F1 & O1 & _). fold (fresh c s). set (s1 := fresh c s) in *. clearbody s1.
  destruct (geom_eq _ _ (fr_geom _ _ _ F1)) as (_ & _ & Ebs1 & _). rewrite Ebs1, read_blk by done. destruct (owned_small s1 c Hg1 O1) as [Hsm Hnb]. pose proof (length_blk s1 c Hg1 Hsm) as Lb.
  assert (exists x, (if (off =? 0) && (Z.of_nat (length chunk) =? block_size s) then Some (replicate (Z.to_nat (block_size s)) 0) else Some (blk s1 c)) = Some x /\
    Z.of_nat (length x) = block_size s1) as (x & -> & Lx) by (destruct (_ && _); eexists; (split; [done|]); [rewrite Ebs1; by apply length_zeros|done]).
  rewrite write_blk by done. assert (Z.of_nat (length (blit x off chunk)) = block_size s1) as Lbl by (rewrite length_blit; lia).
  exists c, (put c (blit x off chunk) s1). do 2 (split; [done|]). split; [by apply geo_put|]. split; [apply F1|]. rewrite used_put; [apply O1|done..|apply O1].
Qed.

(** A write within one block. *)
Lemma write_from_one n pos data s s1 n1 : data <> [] -> u32 (pos mod block_size s) + Z.of_nat (length data) <= block_size s ->
  write_chunk n (u32 (pos / block_size s)) (u32 (pos mod block_size s)) data s = (s1, n1, true) ->
  write_from (length data) n pos data s = (s1, n1, Z.of_nat (length data), true).
Proof.
  intros Hd Hl W. destruct data as [|d data]; [done|]. change (length (d :: data)) with (S (length data)) in *. cbn [write_from]. change (length (d :: data)) with (S (length data)).
  rewrite Z.min_r, Nat2Z.id by lia. rewrite take_ge, drop_ge by done. rewrite W. cbn [negb]. destruct (length data); cbn [write_from]; by rewrite Z.add_0_r.
Qed.

(** Reading a block the file does not have. *)
Lemma read_hole n pos (k : nat) s : geo s -> (0 < k)%nat -> pos mod block_size s + Z.of_nat k <= block_size s -> ext2_get_block n (u32 (pos / block_size s)) s = 0 ->
  read_from k n pos (Z.of_nat k) s = Some (replicate k 0).
Proof.
  intros Hg Hk Hl E. pose proof (bs_max s Hg). pose proof (Z.mod_pos_bound pos (block_size s) (bs_pos s Hg)). destruct k as [|k]; [lia|]. cbn [read_from]. rewrite (proj2 (Z.leb_gt _ _)), E, Z.eqb_refl by lia.
  rewrite (u32_small (pos mod _)), Z.min_r, Nat2Z.id, Z.sub_diag by lia. destruct k; cbn; by rewrite ?app_nil_r.
Qed.

(** C39: A write beyond the single indirect block reports success and extends the
    file, but the block it allocates is attached to nothing: the data reads
    back as zeros, and the block stays marked used. *)
Theorem ext2_write_beyond_lost ino n off data s :
  geo s -> meta_ok s -> is_ino s ino -> inode_wf n -> data <> [] -> 0 <= off -> beyond s (off / block_size s) -> zget (i_block n) 13 = 0 ->
  off mod block_size s + Z.of_nat (length data) <= block_size s -> off + Z.of_nat (length data) < 2 ^ 32 -> i_size n <= off -> room 1 s ->
  let '(s', n', w) := ext2_write_file ino n off data s in
  w = Z.of_nat (length data) /\ i_size n' = off + Z.of_nat (length data) /\ i_block n' = i_block n /\
  ext2_read_file n' off (Z.of_nat (length data)) s' = Some (replicate (length data) 0) /\ exists c, free s c /\ used s' c = true.
Proof.
  intros Hg Hm Hi Hn Hd H0 Hb E13 Hfit H32 Hsz Hr. pose proof (bs_pos s Hg) as Hbs. pose proof (bs_max s Hg). pose proof (Z.mod_pos_bound off (block_size s) Hbs) as Hmb.
  assert (0 < Z.of_nat (length data)) as Hl by (destruct data; [done|cbn; lia]). set (L := Z.of_nat (length data)) in *.
  assert (0 <= off / block_size s <= off) as Hq by (split; [apply Z.div_pos; lia|apply Z.div_le_upper_bound; nia]).
  destruct (write_chunk_beyond n (off / block_size s) (off mod block_size s) data s Hg Hb E13 Hr ltac:(lia) Hfit) as (c & s1 & W & Hc & Hg1 & G1 & U1).
  set (n1 := n <| i_blocks ::= _ |>) in *. assert (write_from (length data) n off data s = (s1, n1, L, true)) as Ew.
  { apply write_from_one; [done| |]; rewrite ?(u32_small (off / _)), (u32_small (off mod _)) by lia; done. }
  unfold ext2_write_file. rewrite (geo_mounted s Hg). cbn [negb]. rewrite Ew. cbn [negb]. rewrite u64_small, u32_small by lia. change (i_size n1) with (i_size n).
  rewrite (proj2 (Z.ltb_lt (i_size n) _)) by lia. set (n' := n1 <| i_size := _ |>).
  pose proof (write_from_meta (length data) n off data s Hm Hn) as [Hm1 Hn1]. rewrite Ew in Hm1, Hn1. cbn [fst snd] in Hm1, Hn1.
  destruct (geom_eq _ _ G1) as (_ & _ & Ebs & _ & E5 & _ & E7 & _). assert (is_ino s1 ino) as Hi1 by (unfold is_ino; by rewrite E5, E7). rewrite write_inode_put by done. cbn [fst].
  destruct (put_inode_flush s1 ino n' Hg1 Hm1 Hi1) as (G2 & M2 & G3 & _ & _ & _ & (_ & _ & Ebs3 & _)%geom_eq & U3); [apply inode_wf_size; [done|unfold is_u32; lia]|].
  set (s' := ext2_flush_metadata _) in *. split_and!; [done..| |].
  - unfold ext2_read_file. change (i_size n') with (off + L). rewrite (proj2 (Z.leb_gt _ _)), Z.min_l by lia. unfold L. rewrite Nat2Z.id.
    apply read_hole; rewrite ?Ebs3, ?Ebs; [done|lia|done|]. rewrite u32_small by lia. apply get_beyond; [done| |done]. unfold beyond, ptrs in *. by rewrite Ebs3, Ebs.
  - exists c. split; [done|]. apply U3; [apply (geom_range s s1 c G1), Hc|done].
Qed.

(** A small disk: one group of 16 blocks of 1024 bytes, of which the first
    five hold the metadata, and 8 inodes. *)
Definition demo_sb : ext2_superblock :=
  mk_sb 8 16 0 11 6 1 0 0 16 16 8 0 0 0 0 EXT2_MAGIC 0 0 0 0 0 0 0 0 0 11 128 0 0 0 0 (replicate 16 0) (replicate 16 0) (replicate 64 0) 0.
Definition demo_bg : ext2_block_group_desc := mk_bg 3 4 5 11 6 0 0 (replicate 12 0).
Definition demo_image : disk := <[6 := 0x1F :: replicate 511 0]> (<[8 := 0x03 :: replicate 511 0]> ∅).
Definition demo_ext2 : ext2 := mk_ext2 true demo_sb [demo_bg] 1024 1 128 true demo_image.
Definition demo_file : ext2_inode := inode_zero <| i_mode := EXT2_S_IFREG + 0x1A4 |> <| i_links_count := 1 |>.

Lemma empty_file_ok n s : i_block n = replicate 15 0 -> file_ok n s.
Proof.
  intros E. assert (forall k, is_slot s k -> slot n s k = 0) as H0.
  { intros k Hk. unfold is_slot in Hk. unfold slot. rewrite E. destruct (Z.ltb_spec k 13); [by rewrite zget_zeros by lia|done]. }
  split; [by rewrite E|intros k Hk; by rewrite H0|intros j k Hj _ _; by rewrite H0].
Qed.

Lemma demo_group g : group demo_ext2 g <-> g = 0.
Proof. unfold group. cbn. lia. Qed.

Lemma demo_itab b : in_itab demo_ext2 0 b <-> b = 5.
Proof. unfold in_itab. change (itab demo_ext2 0) with 5. change (ipg demo_ext2 * inode_size demo_ext2 / block_size demo_ext2) with 1. lia. Qed.

Lemma demo_meta b : is_meta demo_ext2 b <-> 0 <= b <= 5.
Proof.
  unfold is_meta. change (bgdt_block demo_ext2) with 2. setoid_rewrite demo_group. split.
  - intros [?|(g & -> & [-> |[-> |Hb]])]; [lia|done|done|]. apply demo_itab in Hb. lia.
  - intros Hb. destruct (decide (b <= 2)); [left; lia|right; exists 0]. rewrite demo_itab. change (bbm demo_ext2 0) with 3. change (ibm demo_ext2 0) with 4. split; [done|lia].
Qed.

Lemma demo_used b : 1 <= b <= 16 -> used demo_ext2 b = bool_decide (b <= 5).
Proof.
  intros Hb. assert (forallb (fun x => Bool.eqb (used demo_ext2 x) (bool_decide (x <= 5))) (seqZ 1 16) = true) as H by (by vm_compute).
  rewrite forallb_forall in H. apply eqb_prop, H. apply list_elem_of_In, elem_of_seqZ. lia.
Qed.

Lemma demo_geo : geo demo_ext2.
Proof.
  split; try done; try (by left); try (intros g h H1%demo_group H2%demo_group; congruence).
  - intros lba x. unfold demo_ext2, demo_image. cbn [image]. intros [[<- <-]|[Hne [[<- <-]|[_ H]]%lookup_insert_Some]]%lookup_insert_Some; [done|done|]. by rewrite lookup_empty in H.
  - by exists 8.
  - intros b Hb%demo_meta. lia.
  - intros b Hb%demo_meta Hr. unfold in_range in Hr. cbn in Hr. rewrite demo_used by lia. apply bool_decide_eq_true. lia.
  - intros g b ->%demo_group. rewrite demo_itab. change (bgdt_block demo_ext2) with 2. change (bbm demo_ext2 0) with 3. change (ibm demo_ext2 0) with 4. lia.
  - by intros g h ->%demo_group ->%demo_group.
  - intros g h b ->%demo_group ->%demo_group ->%demo_itab. by vm_compute.
  - intros g h b ->%demo_group ->%demo_group. done.
  - intros g ->%demo_group. by vm_compute.
  - intros g ->%demo_group. by vm_compute.
Qed.

Lemma demo_meta_ok : meta_ok demo_ext2.
Proof.
  split; try done; [split_and!; try done|]; repeat constructor; done.
Qed.

Lemma demo_room k : (k <= 11)%nat -> room k demo_ext2.
Proof.
  intros Hk. exists (take k (seqZ 6 11)). split_and!; [|rewrite length_take, length_seqZ; lia|].
  - pose proof (NoDup_seqZ 6 11) as Hd. rewrite <- (take_drop k (seqZ 6 11)) in Hd. by apply NoDup_app in Hd as [? _].
  - apply Forall_take, Forall_forall. intros x Hx%elem_of_seqZ. split; [unfold in_range; cbn; lia|]. rewrite demo_used by lia. apply bool_decide_eq_false. lia.
Qed.

Lemma ext2_write_persists_witness :
  let '(s1, _, w) := ext2_write_file 3 demo_file 1022 [1; 2; 3; 4] demo_ext2 in
  w = 4 /\ exists s' n', ext2_init (Some (replicate 32 0)) (demo_ext2 <| image := image s1 |>) = Some (s', 0) /\ ext2_read_inode 3 s' = Some n' /\
    i_size n' = 1026 /\ ext2_read_file n' 1022 4 s' = Some [1; 2; 3; 4].
Proof.
  pose proof (ext2_write_persists 3 demo_file 1022 [1; 2; 3; 4] demo_ext2 demo_ext2 (replicate 32 0) 4 inode_zero demo_geo demo_meta_ok) as H.
  specialize (H ltac:(unfold is_ino; cbn; lia) ltac:(by apply empty_file_ok) ltac:(unfold inode_wf; split_and!; try done; by repeat constructor) ltac:(done) ltac:(done) ltac:(done) ltac:(done)
    ltac:(apply demo_room; vm_compute; lia) ltac:(unfold is_ino; cbn; lia) ltac:(done) ltac:(by vm_compute) ltac:(by apply empty_file_ok)).
  destruct (ext2_write_file 3 demo_file 1022 [1; 2; 3; 4] demo_ext2) as [[s1 n1] w]. destruct H as [Hw (s' & n' & H1 & H2 & H3 & H4 & _)]; [|done|done|done|].
  - intros x [Hx (k & Hk & ->)]. destruct Hx. unfold slot. destruct (Z.ltb_spec k 13); [|done]. unfold is_slot in Hk. change (i_block inode_zero) with (replicate 15 0). by rewrite zget_zeros by lia.
  - split; [done|]. exists s', n'. done.
Defined.

Lemma ext2_write_beyond_lost_witness :
  let '(s', n', w) := ext2_write_file 3 demo_file 274432 [1; 2; 3] demo_ext2 in
  w = 3 /\ i_size n' = 274435 /\ ext2_read_file n' 274432 3 s' = Some [0; 0; 0].
Proof.
  pose proof (ext2_write_beyond_lost 3 demo_file 274432 [1; 2; 3] demo_ext2 demo_geo demo_meta_ok) as H.
  specialize (H ltac:(unfold is_ino; cbn; lia) ltac:(unfold inode_wf; split_and!; try done; by repeat constructor) ltac:(done) ltac:(done) ltac:(by vm_compute) ltac:(done)
    ltac:(by vm_compute) ltac:(done) ltac:(done) ltac:(apply demo_room; lia)).
  destruct (ext2_write_file 3 demo_file 274432 [1; 2; 3] demo_ext2) as [[s' n'] w]. destruct H as (H1 & H2 & _ & H3 & _). done.
Defined.

End Ext2.
