(* ===== verification/Ext2Dir.v ===== *)
(** * Directories and paths of the ext2 file system (kernel/fs/ext2.c)

    Lookup, insertion and removal of directory entries, the calls that create,
    remove and rename files, and path resolution, on top of the blocks and
    inodes of Ext2.v.  Names and paths are lists of characters without the
    terminator.  A walk over the entries of a block ends with an answer; it may
    also run forever, when an entry has length 0, and it may leave the block,
    when the lengths of the entries do not add up; what the code reads there
    is not determined by the block. *)

From stdpp Require Import prelude gmap.
From Stdlib Require Import ZArith Lia.
From S2P Require Import Prelude KString Disk Pmm Ext2.
Import Disk Ext2.
Local Open Scope Z_scope.

Module Ext2Dir.

(** ** Answers *)

Inductive answer (A : Type) :=
| Answer (a : A)
| Running
| Stray.
Arguments Answer {A} a.
Arguments Running {A}.
Arguments Stray {A}.

#[export] Instance answer_bind : MBind answer := fun A B f m =>
  match m with Answer a => f a | Running => Running | Stray => Stray end.

Definition EXT2_FT_REG_FILE : Z := 1.
Definition EXT2_FT_DIR : Z := 2.

(** ** Entries

    [struct ext2_dir_entry] at offset [o] of a block: inode, record length, name
    length, file type, and the name behind these 8 bytes. *)

Definition DE_SIZE : Z := 8.
Definition de_inode (buf : list Z) (o : Z) : Z := rd32 buf o.
Definition de_rec_len (buf : list Z) (o : Z) : Z := rd16 buf (o + 4).
Definition de_name_len (buf : list Z) (o : Z) : Z := zget buf (o + 6).

(** Whether the entry has the name; the comparison may leave the block. *)
Definition de_matches (buf : list Z) (o : Z) (name : list Z) : answer bool :=
  if negb (de_inode buf o =? 0) && (de_name_len buf o =? Z.of_nat (length name)) then
    match KString.strncmp (length name) (drop (Z.to_nat (o + DE_SIZE)) buf) (name ++ [0]) with
    | Some r => Answer (r =? 0)
    | None => Stray
    end
  else Answer false.

(** A new entry. *)
Definition de_bytes (ino rec_len name_len file_type : Z) (name : list Z) : list Z :=
  le_bytes 4 ino ++ le_bytes 2 rec_len ++ [u8 name_len; u8 file_type] ++ name.

(** [(x + 3) & ~3u] *)
Definition round4 (x : Z) : Z := Z.land (u32 (x + 3)) (2 ^ 32 - 4).

(** ** Lookup *)

(** Where a walk over a block ended: at an entry, or at the offset where the
    next block is to be read. *)
Inductive walked := At (bo : Z) | Moved (offset : Z).

(** The inner loop: [bo] is the offset in the block, [offset] in the directory. *)
Fixpoint walk (fuel : nat) (hit : Z -> answer bool) (buf : list Z) (bs size offset bo : Z) : answer walked :=
  match fuel with
  | O => Running
  | S fuel' =>
      if negb ((bo <? bs) && (offset <? size)) then Answer (Moved offset) else
      if bs <? bo + DE_SIZE then Stray else
      if de_rec_len buf bo =? 0 then Answer (Moved offset) else
      h ← hit bo;
      if h : bool then Answer (At bo) else
      walk fuel' hit buf bs size (u32 (offset + de_rec_len buf bo)) (u32 (bo + de_rec_len buf bo))
  end.

(** The outer loop.  [fuel] bounds its rounds. *)
Fixpoint lookup_loop (fuel : nat) (n : ext2_inode) (name : list Z) (offset : Z) (s : ext2) : answer Z :=
  match fuel with
  | O => Running
  | S fuel' =>
      if negb (offset <? i_size n) then Answer 0 else
      let b := ext2_get_block n (offset / block_size s) s in
      if b =? 0 then Answer 0 else
      match ext2_read_block b s with
      | None => Answer 0
      | Some buf =>
          w ← walk (S (Z.to_nat (block_size s))) (fun bo => de_matches buf bo name) buf (block_size s) (i_size n) offset (offset mod block_size s);
          match w with
          | At bo => Answer (de_inode buf bo)
          | Moved offset => lookup_loop fuel' n name offset s
          end
      end
  end.

(** A round that makes progress moves on by at least one byte, so a lookup
    that is still running after as many rounds as the directory has bytes
    never ends. *)
Definition rounds (n : ext2_inode) : nat := S (Z.to_nat (i_size n)).

Definition ext2_lookup (parent_ino : Z) (name : list Z) (s : ext2) : answer Z :=
  match ext2_read_inode parent_ino s with
  | None => Answer 0
  | Some n => if Z.land (i_mode n) EXT2_S_IFDIR =? 0 then Answer 0 else lookup_loop (rounds n) n name 0 s
  end.

(** ** Paths *)

Definition SLASH : Z := 47.

(** The characters up to the first slash, and those behind it. *)
Fixpoint component (p : list Z) : list Z * option (list Z) :=
  match p with
  | [] => ([], None)
  | c :: p' => if c =? SLASH then ([], Some p') else let '(w, r) := component p' in (c :: w, r)
  end.

(** The loop over the components, [fuel] more than the characters left. *)
Fixpoint path_loop (fuel : nat) (cur_ino : Z) (p : list Z) (s : ext2) : answer Z :=
  match fuel, p with
  | O, _ => Running
  | S _, [] => Answer cur_ino
  | S fuel', _ :: _ =>
      match component p with
      | ([], _) => Answer cur_ino
      | (w, rest) =>
          ino ← ext2_lookup cur_ino w s;
          if ino =? 0 then Answer 0 else
          match rest with
          | Some p => path_loop fuel' ino p s
          | None => Answer ino
          end
      end
  end.

Definition ext2_path_lookup (path : list Z) (s : ext2) : answer Z :=
  if negb (ext2_mounted s) then Answer 0 else
  let path := match path with c :: p => if c =? SLASH then p else path | [] => [] end in
  match path with
  | [] => Answer EXT2_ROOT_INODE
  | _ :: _ => path_loop 256 EXT2_ROOT_INODE (take 255 path) s
  end.

(** The bytes read, or [None] for an error. *)
Definition ext2_read_path (path : list Z) (buf_size : Z) (s : ext2) : answer (option (list Z)) :=
  ino ← ext2_path_lookup path s;
  if ino =? 0 then Answer None else
  match ext2_read_inode ino s with
  | None => Answer None
  | Some n => Answer (ext2_read_file n 0 buf_size s)
  end.

(** The position of the last slash. *)
Fixpoint last_slash (i : Z) (path : list Z) : Z :=
  match path with
  | [] => -1
  | c :: p => let r := last_slash (i + 1) p in if r =? -1 then (if c =? SLASH then i else -1) else r
  end.

(** The parent's path and the name. *)
Definition ext2_path_split (path : list Z) : list Z * list Z :=
  let slash := last_slash 0 path in
  let name := take 127 (drop (Z.to_nat (slash + 1)) path) in
  if slash <=? 0 then ([SLASH], name) else (take (Z.to_nat (Z.min slash 127)) path, name).

(** ** Adding and removing entries *)

(** The length that an entry needs for its name. *)
Definition de_actual (buf : list Z) (o : Z) : Z := round4 (DE_SIZE + de_name_len buf o).

(** An entry with [needed] bytes to spare behind its name. *)
Definition has_room (buf : list Z) (needed : Z) (bo : Z) : answer bool :=
  Answer (needed <=? u32 (de_rec_len buf bo - de_actual buf bo)).

(** Split the entry at [bo]. *)
Definition split_entry (buf : list Z) (bo ino file_type : Z) (name : list Z) : list Z :=
  let actual := de_actual buf bo in
  let old_rec_len := de_rec_len buf bo in
  let buf := blit buf (bo + 4) (le_bytes 2 actual) in
  blit buf (bo + actual) (de_bytes ino (old_rec_len - actual) (Z.of_nat (length name)) file_type name).

(** The search for room, block by block: the changed state, or the end of the
    directory. *)
Fixpoint add_loop (fuel : nat) (n : ext2_inode) (ino : Z) (name : list Z) (file_type offset : Z) (s : ext2) : answer (option (ext2 * Z)) :=
  match fuel with
  | O => Running
  | S fuel' =>
      if negb (offset <? i_size n) then Answer None else
      let b := ext2_get_block n (offset / block_size s) s in
      if b =? 0 then Answer None else
      match ext2_read_block b s with
      | None => Answer (Some (s, -1))
      | Some buf =>
          let needed := round4 (DE_SIZE + Z.of_nat (length name)) in
          w ← walk (S (Z.to_nat (block_size s))) (has_room buf needed) buf (block_size s) (i_size n) offset (offset mod block_size s);
          match w with
          | At bo =>
              if block_size s <? bo + de_actual buf bo + DE_SIZE + Z.of_nat (length name) then Stray else
              Answer (Some ((ext2_write_block b (split_entry buf bo ino file_type name) s).1, 0))
          | Moved offset => add_loop fuel' n ino name file_type offset s
          end
      end
  end.

(** No room in the existing blocks: a new block with one entry. *)
Definition add_block (dir_ino : Z) (n : ext2_inode) (ino : Z) (name : list Z) (file_type : Z) (s : ext2) : answer (ext2 * Z) :=
  let '(s, b) := ext2_alloc_block s in
  if b =? 0 then Answer (s, -1) else
  let '(s, n', _) := ext2_set_block n (i_size n / block_size s) b s in
  let n := n' <| i_blocks ::= fun c => u32 (c + block_size s / 512) |> <| i_size ::= fun c => u32 (c + block_size s) |> in
  if block_size s <? DE_SIZE + Z.of_nat (length name) then Stray else
  let buf := blit (replicate (Z.to_nat (block_size s)) 0) 0 (de_bytes ino (block_size s) (Z.of_nat (length name)) file_type name) in
  let s := (ext2_write_block b buf s).1 in
  let s := (ext2_write_inode dir_ino n s).1 in
  Answer (ext2_flush_metadata s, 0).

Definition ext2_add_dir_entry (dir_ino ino : Z) (name : list Z) (file_type : Z) (s : ext2) : answer (ext2 * Z) :=
  match ext2_read_inode dir_ino s with
  | None => Answer (s, -1)
  | Some n =>
      r ← add_loop (rounds n) n ino name file_type 0 s;
      match r with
      | Some r => Answer r
      | None => add_block dir_ino n ino name file_type s
      end
  end.

(** The inner loop of the removal: the block without the entry.  [prev] is the
    entry before [bo]. *)
Fixpoint remove_walk (fuel : nat) (buf : list Z) (bs bo : Z) (prev : option Z) (name : list Z) : answer (option (list Z)) :=
  match fuel with
  | O => Running
  | S fuel' =>
      if negb (bo <? bs) then Answer None else
      if bs <? bo + DE_SIZE then Stray else
      if de_rec_len buf bo =? 0 then Answer None else
      h ← de_matches buf bo name;
      if h : bool then
        Answer (Some (match prev with
                      | Some p => blit buf (p + 4) (le_bytes 2 (de_rec_len buf p + de_rec_len buf bo))
                      | None => blit buf bo (le_bytes 4 0)
                      end))
      else remove_walk fuel' buf bs (u32 (bo + de_rec_len buf bo)) (Some bo) name
  end.

Fixpoint remove_loop (fuel : nat) (n : ext2_inode) (name : list Z) (offset : Z) (s : ext2) : answer (ext2 * Z) :=
  match fuel with
  | O => Running
  | S fuel' =>
      if negb (offset <? i_size n) then Answer (s, -1) else
      let b := ext2_get_block n (offset / block_size s) s in
      if b =? 0 then Answer (s, -1) else
      match ext2_read_block b s with
      | None => Answer (s, -1)
      | Some buf =>
          r ← remove_walk (S (Z.to_nat (block_size s))) buf (block_size s) 0 None name;
          match r with
          | Some buf => Answer ((ext2_write_block b buf s).1, 0)
          | None => remove_loop fuel' n name (u32 (offset + block_size s)) s
          end
      end
  end.

Definition ext2_remove_dir_entry (dir_ino : Z) (name : list Z) (s : ext2) : answer (ext2 * Z) :=
  match ext2_read_inode dir_ino s with
  | None => Answer (s, -1)
  | Some n => remove_loop (rounds n) n name 0 s
  end.

(** ** Creating and removing files *)

Definition ext2_create (parent_ino : Z) (name : list Z) (mode : Z) (s : ext2) : answer (ext2 * Z) :=
  if negb (ext2_mounted s) then Answer (s, 0) else
  l ← ext2_lookup parent_ino name s;
  if negb (l =? 0) then Answer (s, 0) else
  let '(s, ino) := ext2_alloc_inode s in
  if ino =? 0 then Answer (s, 0) else
  let n := inode_zero <| i_mode := u16 mode |> <| i_links_count := 1 |> in
  let '(s, r) := ext2_write_inode ino n s in
  if r <? 0 then Answer (ext2_free_inode ino s, 0) else
  let ft := if Z.land mode EXT2_S_IFDIR =? 0 then EXT2_FT_REG_FILE else EXT2_FT_DIR in
  '(s, r) ← ext2_add_dir_entry parent_ino ino name ft s;
  if r <? 0 then Answer (ext2_free_inode ino s, 0) else Answer (ext2_flush_metadata s, ino).

(** The block of a new directory, with its two entries. *)
Definition dot_block (ino parent_ino bs : Z) : list Z :=
  let buf := blit (replicate (Z.to_nat bs) 0) 0 (de_bytes ino 12 1 EXT2_FT_DIR [46]) in
  blit buf 12 (de_bytes parent_ino (bs - 12) 2 EXT2_FT_DIR [46; 46]).

Definition ext2_mkdir (parent_ino : Z) (name : list Z) (s : ext2) : answer (ext2 * Z) :=
  if negb (ext2_mounted s) then Answer (s, 0) else
  l ← ext2_lookup parent_ino name s;
  if negb (l =? 0) then Answer (s, 0) else
  let '(s, ino) := ext2_alloc_inode s in
  if ino =? 0 then Answer (s, 0) else
  let '(s, dir_block) := ext2_alloc_block s in
  if dir_block =? 0 then Answer (ext2_free_inode ino s, 0) else
  let n := inode_zero <| i_mode := EXT2_S_IFDIR + 0x1ED |> <| i_links_count := 2 |> <| i_size := block_size s |>
             <| i_blocks := block_size s / 512 |> <| i_block ::= fun l => zset l 0 dir_block |> in
  let s := (ext2_write_block dir_block (dot_block ino parent_ino (block_size s)) s).1 in
  let s := (ext2_write_inode ino n s).1 in
  '(s, r) ← ext2_add_dir_entry parent_ino ino name EXT2_FT_DIR s;
  if r <? 0 then Answer (ext2_free_inode ino (ext2_free_block dir_block s), 0) else
  let s := match ext2_read_inode parent_ino s with
           | Some p => (ext2_write_inode parent_ino (p <| i_links_count ::= fun c => u16 (c + 1) |>) s).1
           | None => s
           end in
  let bg := u32 (ino - 1) / s_inodes_per_group (sb s) in
  let s := upd_bg bg (fun g => g <| bg_used_dirs_count ::= fun c => u16 (c + 1) |>) s in
  Answer (ext2_flush_metadata s, ino).

(** Free the blocks in a list of pointers. *)
Definition free_list (bs : list Z) (s : ext2) : ext2 := foldl (fun s b => if b =? 0 then s else ext2_free_block b s) s bs.

(** The data blocks of a file that is removed: the direct ones its size covers,
    then the indirect block. *)
Definition free_file (n : ext2_inode) (s : ext2) : ext2 :=
  let num_blocks := u32 (i_size n + block_size s - 1) / block_size s in
  let s := free_list (take (Z.to_nat (Z.min num_blocks 12)) (i_block n)) s in
  let ind := zget (i_block n) 12 in
  if ind =? 0 then s else
  let s := match ext2_read_block ind s with
           | Some buf => free_list ((fun i => rd32 buf (4 * i)) <$> seqZ 0 (block_size s / 4)) s
           | None => s
           end in
  ext2_free_block ind s.

Definition ext2_unlink (parent_ino : Z) (name : list Z) (s : ext2) : answer (ext2 * Z) :=
  if negb (ext2_mounted s) then Answer (s, -1) else
  ino ← ext2_lookup parent_ino name s;
  if ino =? 0 then Answer (s, -1) else
  '(s, r) ← ext2_remove_dir_entry parent_ino name s;
  if r <? 0 then Answer (s, -1) else
  match ext2_read_inode ino s with
  | None => Answer (s, -1)
  | Some n =>
      let n := n <| i_links_count ::= fun c => u16 (c - 1) |> in
      let '(s, n) := if i_links_count n =? 0 then (ext2_free_inode ino (free_file n s), inode_zero) else (s, n) in
      Answer (ext2_flush_metadata (ext2_write_inode ino n s).1, 0)
  end.

Definition ext2_rename (old_path new_path : list Z) (s : ext2) : answer (ext2 * Z) :=
  if negb (ext2_mounted s) then Answer (s, -1) else
  old_ino ← ext2_path_lookup old_path s;
  if old_ino =? 0 then Answer (s, -1) else
  let '(old_parent, old_name) := ext2_path_split old_path in
  let '(new_parent, new_name) := ext2_path_split new_path in
  old_dir_ino ← ext2_path_lookup old_parent s;
  new_dir_ino ← ext2_path_lookup new_parent s;
  if (old_dir_ino =? 0) || (new_dir_ino =? 0) then Answer (s, -1) else
  match ext2_read_inode old_ino s with
  | None => Answer (s, -1)
  | Some n =>
      let ftype := if Z.land (i_mode n) EXT2_S_IFDIR =? 0 then EXT2_FT_REG_FILE else EXT2_FT_DIR in
      dst_ino ← ext2_lookup new_dir_ino new_name s;
      '(s, _) ← (if dst_ino =? 0 then Answer (s, 0) else ext2_unlink new_dir_ino new_name s);
      '(s, r) ← ext2_add_dir_entry new_dir_ino old_ino new_name ftype s;
      if r <? 0 then Answer (s, -1) else
      '(s, r) ← ext2_remove_dir_entry old_dir_ino old_name s;
      if r <? 0 then '(s, _) ← ext2_remove_dir_entry new_dir_ino new_name s; Answer (s, -1)
      else Answer (ext2_flush_metadata s, 0)
  end.

(** ** Directories as lists of entries *)

Record dent := mk_dent { d_ino : Z; d_rec : Z; d_type : Z; d_name : list Z; d_slack : list Z }.

#[export] Instance eta_dent : Eta dent := fun d => mk_dent (d_ino d) (d_rec d) (d_type d) (d_name d) (d_slack d).

Definition dent_bytes (d : dent) : list Z :=
  le_bytes 4 (d_ino d) ++ le_bytes 2 (d_rec d) ++ [Z.of_nat (length (d_name d)); d_type d] ++ d_name d ++ d_slack d.

(** The length an entry with the name needs. *)
Definition actual (name : list Z) : Z := round4 (DE_SIZE + Z.of_nat (length name)).

Record dent_ok (d : dent) : Prop := mk_dent_ok {
  dent_ino : 0 <= d_ino d < 2 ^ 32;
  dent_rec : d_rec d = DE_SIZE + Z.of_nat (length (d_name d)) + Z.of_nat (length (d_slack d));
  dent_max : d_rec d < 2 ^ 16;
  dent_fits : actual (d_name d) <= d_rec d;
  dent_name : Z.of_nat (length (d_name d)) < 256;
  dent_type : 0 <= d_type d < 256;
  dent_name_bytes : KString.bytes (d_name d);
  dent_slack_bytes : KString.bytes (d_slack d)
}.

(** The bytes of a run of entries. *)
Definition area (ds : list dent) : list Z := mjoin (dent_bytes <$> ds).

Lemma area_app ds ds' : area (ds ++ ds') = area ds ++ area ds'.
Proof. unfold area. by rewrite fmap_app, join_app. Qed.

Lemma area_cons d ds : area (d :: ds) = dent_bytes d ++ area ds.
Proof. done. Qed.

Lemma length_dent d : dent_ok d -> Z.of_nat (length (dent_bytes d)) = d_rec d.
Proof. intros Hd. rewrite (dent_rec d Hd). unfold dent_bytes. rewrite !length_app, !length_le_bytes. cbn. unfold DE_SIZE. lia. Qed.

Lemma dent_pos d : dent_ok d -> 8 <= d_rec d.
Proof. intros Hd. rewrite (dent_rec d Hd). unfold DE_SIZE. lia. Qed.

Lemma length_area ds : Forall dent_ok ds -> 8 * Z.of_nat (length ds) <= Z.of_nat (length (area ds)).
Proof.
  induction 1 as [|d ds Hd _ IH]; [done|]. rewrite area_cons, length_app. pose proof (length_dent d Hd). pose proof (dent_pos d Hd). cbn [length]. lia.
Qed.

Lemma bytes_le n z : KString.bytes (le_bytes n z).
Proof. apply le_bytes_range. Qed.

Lemma bytes_dent d : dent_ok d -> KString.bytes (dent_bytes d).
Proof.
  intros Hd. unfold dent_bytes. repeat (apply Forall_app; split); try apply bytes_le; try apply Hd.
  repeat constructor; [lia|apply (dent_name d Hd)|apply (dent_type d Hd)..].
Qed.

Lemma bytes_area ds : Forall dent_ok ds -> KString.bytes (area ds).
Proof. induction 1 as [|d ds Hd _ IH]; [apply Forall_nil_2|]. rewrite area_cons. apply Forall_app. split; [by apply bytes_dent|done]. Qed.

(** Reading the entry behind [pre]. *)
Lemma entry_at pre d post : dent_ok d -> let o := Z.of_nat (length pre) in let buf := pre ++ dent_bytes d ++ post in
  de_inode buf o = d_ino d /\ de_rec_len buf o = d_rec d /\ de_name_len buf o = Z.of_nat (length (d_name d)) /\
  drop (Z.to_nat (o + DE_SIZE)) buf = d_name d ++ d_slack d ++ post.
Proof.
  intros Hd o buf. unfold de_inode, de_rec_len, de_name_len, rd32, rd16, buf, dent_bytes, DE_SIZE. pose proof (dent_pos d Hd). pose proof (dent_max d Hd). split_and!.
  - rewrite <- !app_assoc. rewrite rd_le_at by done. apply Z.mod_small, Hd.
  - rewrite <- !app_assoc, (app_assoc pre), rd_le_at by (rewrite length_app, length_le_bytes; lia). apply Z.mod_small. cbn. lia.
  - rewrite <- !app_assoc, (app_assoc pre), (app_assoc (pre ++ _)). apply zget_at. rewrite !length_app, !length_le_bytes. lia.
  - rewrite <- !app_assoc, (app_assoc pre), (app_assoc (pre ++ _)), (app_assoc ((pre ++ _) ++ _)). apply drop_app_length'. rewrite !length_app, !length_le_bytes. cbn. lia.
Qed.

(** A live entry with the name. *)
Definition named (name : list Z) (d : dent) : bool := negb (d_ino d =? 0) && bool_decide (d_name d = name).

Definition name_ok (name : list Z) : Prop := Forall (fun c => 0 < c < 256) name /\ (length name < 256)%nat.

Lemma matches_named pre d post name : dent_ok d -> Forall (fun c => 0 < c < 256) name -> KString.bytes post ->
  de_matches (pre ++ dent_bytes d ++ post) (Z.of_nat (length pre)) name = Answer (named name d).
Proof.
  intros Hd Hn Hp. destruct (entry_at pre d post Hd) as (E1 & _ & E3 & E4). unfold de_matches, named. rewrite E1, E3, E4. destruct (d_ino d =? 0); cbn [negb andb]; [done|].
  destruct (Z.eqb_spec (Z.of_nat (length (d_name d))) (Z.of_nat (length name))) as [El|Hne].
  - destruct (KString.strncmp_name (length name) (d_name d ++ d_slack d ++ post) name) as (r & -> & Hr); [done|rewrite length_app; lia|done| |].
    + repeat (apply Forall_app; split); [apply Hd|apply Hd|done].
    + f_equal. rewrite take_app_length' in Hr by lia. apply eq_true_iff_eq. by rewrite Z.eqb_eq, bool_decide_eq_true, Hr.
  - rewrite bool_decide_false; [done|]. intros E. apply Hne. by rewrite E.
Qed.

Lemma round4_spec x : 0 <= x < 2 ^ 31 -> x <= round4 x < x + 4 /\ round4 x mod 4 = 0.
Proof.
  intros Hx. unfold round4. rewrite u32_small by lia. assert (Z.land (x + 3) (2 ^ 32 - 4) = 4 * ((x + 3) / 4)) as ->; [|zsolve].
  assert (2 ^ 32 - 4 = Z.shiftl (Z.ones 30) 2) as -> by done. replace (4 * ((x + 3) / 4)) with (Z.shiftl (Z.shiftr (x + 3) 2) 2) by (rewrite Z.shiftl_mul_pow2, Z.shiftr_div_pow2 by lia; change (2 ^ 2) with 4; lia).
  apply Z.bits_inj'. intros i Hi. rewrite Z.land_spec. destruct (decide (i < 2)) as [Hl|Hl].
  - rewrite !Z.shiftl_spec_low by done. apply andb_false_r.
  - rewrite !Z.shiftl_spec, Z.shiftr_spec by lia. replace (i - 2 + 2) with i by lia. destruct (decide (i < 32)).
    + rewrite Z.ones_spec_low by lia. apply andb_true_r.
    + rewrite Z.ones_spec_high by lia. rewrite andb_false_r. symmetry. apply Z.bits_above_log2; [lia|]. apply Z.log2_lt_pow2; [lia|]. apply (Z.lt_le_trans _ (2 ^ 32)); [lia|]. apply Z.pow_le_mono_r; lia.
Qed.

(** ** Walks *)

(** The offset of the entries behind [ds]. *)
Definition pos (ds : list dent) : Z := Z.of_nat (length (area ds)).

Lemma pos_app ds ds' : pos (ds ++ ds') = pos ds + pos ds'.
Proof. unfold pos. rewrite area_app, length_app. lia. Qed.

Lemma pos_cons d ds : dent_ok d -> pos (d :: ds) = d_rec d + pos ds.
Proof. intros Hd. unfold pos. rewrite area_cons, length_app. pose proof (length_dent d Hd). lia. Qed.

(** A walk stops at the first entry that the test accepts. *)
Lemma walk_spec fuel hit (hit' : dent -> bool) pre ds bs size base :
  Forall dent_ok ds -> pos (pre ++ ds) = bs -> (length ds < fuel)%nat -> 0 <= base -> base + bs <= size -> size < 2 ^ 32 ->
  (forall l d r, ds = l ++ d :: r -> hit (pos (pre ++ l)) = Answer (hit' d)) ->
  walk fuel hit (area (pre ++ ds)) bs size (base + pos pre) (pos pre) =
    Answer (match find_index hit' ds with Some i => At (pos (pre ++ take i ds)) | None => Moved (base + bs) end).
Proof.
  intros Hf. revert fuel pre. induction Hf as [|d ds Hd Hf IH]; intros fuel pre Hbs Hfuel Hb Hs Hs32 Hh; (destruct fuel as [|fuel]; [lia|]); cbn [walk].
  - rewrite app_nil_r in Hbs. rewrite Hbs, Z.ltb_irrefl. done.
  - pose proof (dent_pos d Hd) as H8. assert (0 <= pos pre) as Hp0 by (unfold pos; lia). assert (0 <= pos ds) as Hd0 by (unfold pos; lia). rewrite pos_app, pos_cons in Hbs by done.
    rewrite (proj2 (Z.ltb_lt (pos pre) bs)), (proj2 (Z.ltb_lt (base + pos pre) size)) by lia. cbn [andb negb]. rewrite (proj2 (Z.ltb_ge bs _)) by (unfold DE_SIZE; lia).
    destruct (entry_at (area pre) d (area ds) Hd) as (_ & E2 & _). rewrite area_app, area_cons. fold (pos pre) in E2. rewrite E2, (proj2 (Z.eqb_neq (d_rec d) 0)) by lia.
    specialize (Hh [] d ds eq_refl) as Hh0. rewrite app_nil_r in Hh0. rewrite Hh0. cbn [mbind answer_bind find_index]. destruct (hit' d).
    + cbn [take]. by rewrite app_nil_r.
    + rewrite !u32_small by lia. specialize (IH fuel (pre ++ [d])). assert (pos (pre ++ [d]) = pos pre + d_rec d) as Ep by (rewrite pos_app, pos_cons by done; change (pos []) with 0; lia).
      rewrite Ep, <- !app_assoc in IH. cbn [app] in IH.
      rewrite <- area_cons, <- area_app. rewrite <- Z.add_assoc, IH; [| rewrite pos_app, pos_cons by done; lia|cbn in Hfuel; lia|done|done|done|].
      * destruct (find_index hit' ds) as [i|]; [|done]. cbn. by rewrite <- app_assoc.
      * intros l x r E. specialize (Hh (d :: l) x r). rewrite E in Hh. by rewrite <- app_assoc; apply Hh.
Qed.

(** ** Directories *)

(** The file [n] is a directory whose blocks hold the entries [bls]. *)
Record dir_ok (n : ext2_inode) (bls : list (list dent)) (s : ext2) : Prop := mk_dir_ok {
  dir_file : file_ok n s;
  dir_size : i_size n = block_size s * Z.of_nat (length bls);
  dir_max : Z.of_nat (length bls) <= 12 + ptrs s;
  dir_block : forall i ds, bls !! i = Some ds -> slot n s (slot_of (Z.of_nat i)) <> 0 /\ blk s (slot n s (slot_of (Z.of_nat i))) = area ds /\ Forall dent_ok ds;
  dir_end : forall j, Z.of_nat (length bls) <= j -> is_idx s j -> slot n s (slot_of j) = 0
}.

Lemma dir_area n bls s i ds : geo s -> dir_ok n bls s -> bls !! i = Some ds -> pos ds = block_size s /\ is_idx s (Z.of_nat i) /\ ext2_get_block n (Z.of_nat i) s <> 0 /\
  ext2_read_block (ext2_get_block n (Z.of_nat i) s) s = Some (area ds).
Proof.
  intros Hg Hd Hi. destruct (dir_block _ _ _ Hd i ds Hi) as (Hne & Eb & _). pose proof (lookup_lt_Some _ _ _ Hi). pose proof (dir_max _ _ _ Hd).
  assert (is_idx s (Z.of_nat i)) as Hx by (unfold is_idx; lia). rewrite get_block_slot, read_blk by done. split; [|split; [done|split; [done|by f_equal]]].
  unfold pos. rewrite <- Eb. apply length_blk; [done|]. apply (owned_small s _ Hg), (file_owned _ _ (dir_file _ _ _ Hd)); [apply (slot_of_range s _ Hx)|done].
Qed.

Lemma dir_small n bls s : geo s -> dir_ok n bls s -> i_size n <= max_size s /\ i_size n < 2 ^ 31.
Proof.
  intros Hg Hd. pose proof (max_size_small s Hg). rewrite (dir_size _ _ _ Hd). pose proof (dir_max _ _ _ Hd). pose proof (bs_pos s Hg). unfold max_size in *. nia.
Qed.

(** Where block [i] starts. *)
Lemma block_start s (i : nat) : geo s -> (block_size s * Z.of_nat i) / block_size s = Z.of_nat i /\ (block_size s * Z.of_nat i) mod block_size s = 0.
Proof. intros Hg. pose proof (bs_pos s Hg). rewrite Z.mul_comm, Z.div_mul, Z.mod_mul by lia. done. Qed.

(** The walk over block [i] of a directory. *)
Lemma dir_walk n bls s i ds hit (hit' : dent -> bool) : geo s -> dir_ok n bls s -> bls !! i = Some ds -> (forall l d r, ds = l ++ d :: r -> hit (pos l) = Answer (hit' d)) ->
  walk (S (Z.to_nat (block_size s))) hit (area ds) (block_size s) (i_size n) (block_size s * Z.of_nat i) 0 =
    Answer (match find_index hit' ds with Some k => At (pos (take k ds)) | None => Moved (block_size s * Z.of_nat (S i)) end).
Proof.
  intros Hg Hd Hi Hh. destruct (dir_area n bls s i ds Hg Hd Hi) as (Hp & _). destruct (dir_block _ _ _ Hd i ds Hi) as (_ & _ & Hf). pose proof (lookup_lt_Some _ _ _ Hi). pose proof (bs_pos s Hg).
  destruct (dir_small n bls s Hg Hd) as [_ Hsz]. pose proof (dir_size _ _ _ Hd) as Es.
  pose proof (walk_spec (S (Z.to_nat (block_size s))) hit hit' [] ds (block_size s) (i_size n) (block_size s * Z.of_nat i) Hf Hp) as Hw. change (pos []) with 0 in Hw. rewrite Z.add_0_r in Hw. cbn [app] in Hw.
  replace (block_size s * Z.of_nat (S i)) with (block_size s * Z.of_nat i + block_size s) by lia. apply Hw; [|nia|nia|lia|done]. pose proof (length_area ds Hf) as Hla. fold (pos ds) in Hla. lia.
Qed.

(** What a lookup of the name finds. *)
Definition find_ino (name : list Z) (ds : list dent) : Z :=
  match List.find (named name) ds with Some d => d_ino d | None => 0 end.

Lemma find_find_index {A} (p : A -> bool) l : List.find p l = i ← find_index p l; l !! i.
Proof. induction l as [|x l IH]; [done|]. cbn. destruct (p x); [done|]. rewrite IH. by destruct (find_index p l). Qed.

Lemma find_app_l {A} (p : A -> bool) l k : List.find p (l ++ k) = match List.find p l with Some x => Some x | None => List.find p k end.
Proof. induction l as [|x l IH]; [done|]. cbn. by destruct (p x). Qed.

Lemma lookup_loop_spec fuel n bls s name i : geo s -> dir_ok n bls s -> Forall (fun c => 0 < c < 256) name -> (length bls - i < fuel)%nat ->
  lookup_loop fuel n name (block_size s * Z.of_nat i) s = Answer (find_ino name (mjoin (drop i bls))).
Proof.
  intros Hg Hd Hn. revert i. induction fuel as [|fuel IH]; intros i Hf; [lia|]. cbn [lookup_loop]. pose proof (bs_pos s Hg). rewrite (dir_size _ _ _ Hd). destruct (bls !! i) as [ds|] eqn:Ei.
  - pose proof (lookup_lt_Some _ _ _ Ei). rewrite (proj2 (Z.ltb_lt _ _)) by nia. cbn [negb]. destruct (block_start s i Hg) as [-> ->]. destruct (dir_area n bls s i ds Hg Hd Ei) as (_ & _ & Hb & ->).
    rewrite (proj2 (Z.eqb_neq _ 0)) by done. rewrite <- (dir_size _ _ _ Hd), (dir_walk n bls s i ds _ (named name) Hg Hd Ei).
    + cbn [mbind answer_bind]. rewrite (drop_S bls ds i Ei). change (mjoin (ds :: drop (S i) bls)) with (ds ++ mjoin (drop (S i) bls)). unfold find_ino. rewrite find_app_l, find_find_index.
      destruct (find_index (named name) ds) as [k|] eqn:Ek; [|apply IH; lia]. cbn [mbind option_bind]. apply find_index_Some in Ek as (d & Hk & _). rewrite Hk.
      destruct (dir_block _ _ _ Hd i ds Ei) as (_ & _ & HF). pose proof (take_drop_middle ds k d Hk) as Eds. f_equal. rewrite <- Eds at 1. rewrite area_app, area_cons.
      apply (entry_at (area (take k ds))). by apply (Forall_lookup_1 _ _ _ _ HF Hk).
    + intros l d r E. destruct (dir_block _ _ _ Hd i ds Ei) as (_ & _ & HF). rewrite E in HF. apply Forall_app in HF as [_ HF]. apply Forall_cons in HF as [Hdo HF].
      rewrite E, area_app, area_cons. apply matches_named; [done|done|by apply bytes_area].
  - apply lookup_ge_None in Ei. rewrite (proj2 (Z.ltb_ge _ _)) by nia. cbn [negb]. by rewrite drop_ge.
Qed.

(** The inode is a directory. *)
Definition is_dir (n : ext2_inode) : Prop := Z.land (i_mode n) EXT2_S_IFDIR <> 0.

Lemma lookup_spec s parent n bls name : geo s -> ext2_read_inode parent s = Some n -> is_dir n -> dir_ok n bls s -> Forall (fun c => 0 < c < 256) name ->
  ext2_lookup parent name s = Answer (find_ino name (mjoin bls)).
Proof.
  intros Hg Hr Hm Hd Hn. unfold ext2_lookup. rewrite Hr, (proj2 (Z.eqb_neq _ 0)) by done. pose proof (lookup_loop_spec (rounds n) n bls s name 0 Hg Hd Hn) as H. rewrite Z.mul_0_r, drop_0 in H. apply H.
  unfold rounds. rewrite (dir_size _ _ _ Hd). pose proof (bs_pos s Hg). nia.
Qed.

(** ** A directory as a map from names to inodes *)

Definition live (ds : list dent) : list (list Z * Z) := (fun d => (d_name d, d_ino d)) <$> filter (fun d => d_ino d <> 0) ds.

Definition dir_map (bls : list (list dent)) : gmap (list Z) Z := list_to_map (live (mjoin bls)).

(** No name is used twice. *)
Definition distinct (bls : list (list dent)) : Prop := NoDup (live (mjoin bls)).*1.

Lemma live_app ds ds' : live (ds ++ ds') = live ds ++ live ds'.
Proof. unfold live. by rewrite filter_app, fmap_app. Qed.

Lemma live_cons d ds : live (d :: ds) = if decide (d_ino d <> 0) then (d_name d, d_ino d) :: live ds else live ds.
Proof. unfold live. rewrite filter_cons. by destruct (decide (d_ino d <> 0)). Qed.

Lemma find_ino_map name ds : find_ino name ds = default 0 ((list_to_map (live ds) : gmap (list Z) Z) !! name).
Proof.
  induction ds as [|d ds IH]; [done|]. rewrite live_cons. unfold find_ino in *. cbn [List.find]. unfold named at 1. case_decide as H0.
  - rewrite (proj2 (Z.eqb_neq _ 0)) by done. cbn [negb andb list_to_map foldr]. unfold uncurry. destruct (decide (d_name d = name)) as [->|Hne].
    + by rewrite bool_decide_true, lookup_insert_eq.
    + by rewrite bool_decide_false, lookup_insert_ne.
  - by rewrite H0, Z.eqb_refl.
Qed.

(** The block with number [i] replaced. *)
Lemma join_insert {A} (bls : list (list A)) i ds ds' : bls !! i = Some ds ->
  exists a b, mjoin bls = a ++ ds ++ b /\ mjoin (<[i := ds']> bls) = a ++ ds' ++ b.
Proof.
  intros Hi. exists (mjoin (take i bls)), (mjoin (drop (S i) bls)). pose proof (lookup_lt_Some _ _ _ Hi). rewrite insert_take_drop by done.
  rewrite <- (take_drop_middle bls i ds Hi) at 1. by rewrite !join_app.
Qed.

Lemma blit_at {A} (pre a b post : list A) off : off = Z.of_nat (length pre) -> length b = length a -> blit (pre ++ a ++ post) off b = pre ++ b ++ post.
Proof.
  intros -> E. unfold blit. rewrite Nat2Z.id, take_app_length, drop_app. rewrite drop_ge by lia. f_equal. cbn [app]. f_equal. apply drop_app_length'. lia.
Qed.

(** The part of the entry that its name needs, and the new entry in the rest. *)
Definition spare (d : dent) : Z := actual (d_name d) - DE_SIZE - Z.of_nat (length (d_name d)).
Definition shrunk (d : dent) : dent := d <| d_rec := actual (d_name d) |> <| d_slack ::= take (Z.to_nat (spare d)) |>.
Definition added (d : dent) (ino file_type : Z) (name : list Z) : dent :=
  mk_dent ino (d_rec d - actual (d_name d)) file_type name (drop (Z.to_nat (spare d + DE_SIZE + Z.of_nat (length name))) (d_slack d)).
Definition roomy (name : list Z) (d : dent) : bool := actual name <=? d_rec d - actual (d_name d).

Lemma actual_spec name : (length name < 256)%nat -> DE_SIZE + Z.of_nat (length name) <= actual name < DE_SIZE + Z.of_nat (length name) + 4.
Proof. intros Hl. unfold actual. apply round4_spec. unfold DE_SIZE. lia. Qed.

Lemma name_bytes name : name_ok name -> KString.bytes name.
Proof. intros [Hn _]. eapply Forall_impl; [done|]. intros c Hc. cbn in *. lia. Qed.

Lemma split_ok d ino file_type name : dent_ok d -> roomy name d = true -> name_ok name -> 0 <= ino < 2 ^ 32 -> 0 <= file_type < 256 ->
  dent_ok (shrunk d) /\ dent_ok (added d ino file_type name).
Proof.
  intros Hd Hr%Z.leb_le Hn Hi Ht. pose proof Hd as [D1 D2 D3 D4 D5 D6 D7 D8]. pose proof (actual_spec (d_name d) ltac:(lia)) as A1. pose proof (actual_spec name ltac:(apply Hn)) as A2. split.
  - split; cbn; try done; [|lia|by apply Forall_take]. unfold spare, DE_SIZE in *. rewrite length_take. lia.
  - unfold DE_SIZE in *. split; cbn; try done; [|lia|destruct Hn; lia|by apply name_bytes|by apply Forall_drop]. unfold spare, DE_SIZE in *. rewrite length_drop. lia.
Qed.

Lemma split_entry_spec pre d post ino file_type name : dent_ok d -> roomy name d = true -> name_ok name -> 0 <= file_type < 256 ->
  split_entry (pre ++ dent_bytes d ++ post) (Z.of_nat (length pre)) ino file_type name = pre ++ dent_bytes (shrunk d) ++ dent_bytes (added d ino file_type name) ++ post.
Proof.
  intros Hd Hr%Z.leb_le Hn Ht. pose proof Hd as [D1 D2 D3 D4 D5 D6 D7 D8]. pose proof (actual_spec (d_name d) ltac:(lia)) as A1. pose proof (actual_spec name ltac:(apply Hn)) as A2.
  destruct (entry_at pre d post Hd) as (_ & E2 & E3 & _). unfold split_entry, de_actual. rewrite E2, E3. fold (actual (d_name d)). destruct Hn as [_ Hn].
  set (k := Z.to_nat (spare d)). set (m := Z.to_nat (DE_SIZE + Z.of_nat (length name))). unfold spare, DE_SIZE in *.
  assert (dent_bytes d = le_bytes 4 (d_ino d) ++ le_bytes 2 (d_rec d) ++ [Z.of_nat (length (d_name d)); d_type d] ++ d_name d ++ take k (d_slack d) ++ take m (drop k (d_slack d)) ++ drop m (drop k (d_slack d))) as ->.
  { unfold dent_bytes. by rewrite !take_drop. }
  rewrite <- !app_assoc, (app_assoc pre), (blit_at _ (le_bytes 2 (d_rec d))) by (rewrite ?length_app, ?length_le_bytes; lia).
  rewrite <- (app_assoc pre). set (h := pre ++ le_bytes 4 (d_ino d) ++ le_bytes 2 (actual (d_name d)) ++ [Z.of_nat (length (d_name d)); d_type d] ++ d_name d ++ take k (d_slack d)).
  transitivity (blit (h ++ take m (drop k (d_slack d)) ++ drop m (drop k (d_slack d)) ++ post) (Z.of_nat (length h)) (de_bytes ino (d_rec d - actual (d_name d)) (Z.of_nat (length name)) file_type name)).
  { f_equal; [unfold h; by rewrite <- !app_assoc|]. unfold h. rewrite !length_app, !length_le_bytes, length_take. cbn [length]. lia. }
  rewrite blit_at; [|done|unfold de_bytes; rewrite !length_app, !length_le_bytes, length_take, length_drop; cbn [length]; lia].
  unfold h, shrunk, added, dent_bytes, de_bytes. cbn [d_ino d_rec d_type d_name d_slack]. rewrite (u8_small (Z.of_nat _)), (u8_small file_type) by lia.
  rewrite drop_drop. unfold spare, DE_SIZE. replace (k + m)%nat with (Z.to_nat (actual (d_name d) - 8 - Z.of_nat (length (d_name d)) + 8 + Z.of_nat (length name))) by lia. by rewrite <- !app_assoc.
Qed.

(** ** Adding an entry *)

(** A block of the directory is rewritten. *)
Lemma dir_put n bls s i ds ds' : geo s -> dir_ok n bls s -> bls !! i = Some ds -> Forall dent_ok ds' -> pos ds' = block_size s ->
  let b := slot n s (slot_of (Z.of_nat i)) in let s' := put b (area ds') s in
  geo s' /\ frame s s' (fun x => x = b) /\ blocks_of n s b /\ dir_ok n (<[i := ds']> bls) s'.
Proof.
  intros Hg Hd Hi Hok Hl b s'. destruct (dir_block _ _ _ Hd i ds Hi) as (Hne & _ & _). destruct (dir_area n bls s i ds Hg Hd Hi) as (_ & Hx & _ & _). destruct (slot_of_range s _ Hx) as [Hs _].
  pose proof (dir_file _ _ _ Hd) as Hf. pose proof (file_owned _ _ Hf _ Hs Hne) as Ho. destruct (owned_small s b Hg Ho) as [Hsm Hnb].
  pose proof (frame_put s b (area ds') Hg Hsm Hnb Hl) as Hp. fold s' in Hp. assert (geo s') as Hg' by (by apply geo_put).
  destruct (file_frame n s s' _ Hg Hg' Hp Hf) as [Hf' Es]; [intros _; by apply not_eq_sym, data_not_indirect|]. pose proof (dir_max _ _ _ Hd) as Hmax.
  split_and!; [done|done|split; [done|by exists (slot_of (Z.of_nat i))]|]. split; [done|rewrite length_insert; apply (dir_size _ _ _ Hd)|by rewrite length_insert| |].
  - intros j dj Hj. assert (is_idx s (Z.of_nat j)) as Hjx by (pose proof (lookup_lt_Some _ _ _ Hj) as Hlt; rewrite length_insert in Hlt; unfold is_idx; lia).
    destruct (slot_of_range s _ Hjx) as [Hsj _]. rewrite Es by done. destruct (decide (i = j)) as [<-|Hij].
    + rewrite list_lookup_insert_eq in Hj by (by eapply lookup_lt_Some). injection Hj as <-. split_and!; [done| |done]. fold b. unfold s'. by rewrite blk_put, decide_True.
    + rewrite list_lookup_insert_ne in Hj by done. destruct (dir_block _ _ _ Hd j dj Hj) as (Hnj & Ej & Fj). split_and!; [done| |done]. rewrite <- Ej.
      apply (frame_owned s s' _ _ Hg Hp (file_owned _ _ Hf _ Hsj Hnj)). intros E. apply Hij. apply Nat2Z.inj. symmetry. apply slot_of_inj. by apply (file_inj _ _ Hf _ _ Hsj Hs).
  - intros j. rewrite length_insert. intros Hj Hjx. apply (frame_idx s _ _ _ Hp) in Hjx. rewrite Es by apply (slot_of_range s j Hjx). by apply (dir_end _ _ _ Hd).
Qed.

Lemma room_answer l d r name : dent_ok d -> has_room (area (l ++ d :: r)) (actual name) (pos l) = Answer (roomy name d).
Proof.
  intros Hd. destruct (entry_at (area l) d (area r) Hd) as (_ & E2 & E3 & _). unfold has_room, de_actual, roomy. rewrite area_app, area_cons. fold (pos l) in *. rewrite E2, E3.
  fold (actual (d_name d)). pose proof (dent_fits d Hd). pose proof (dent_max d Hd). pose proof (actual_spec (d_name d) ltac:(pose proof (dent_name d Hd); lia)). unfold DE_SIZE in *. by rewrite u32_small by lia.
Qed.

(** The entries of a block, with the one at [d] split. *)
Definition split_at (l : list dent) (d : dent) (r : list dent) (ino file_type : Z) (name : list Z) : list dent := l ++ shrunk d :: added d ino file_type name :: r.

Lemma live_split bls i l d r ino file_type name : bls !! i = Some (l ++ d :: r) -> ino <> 0 ->
  live (mjoin (<[i := split_at l d r ino file_type name]> bls)) ≡ₚ (name, ino) :: live (mjoin bls).
Proof.
  intros Hi H0. destruct (join_insert bls i _ (split_at l d r ino file_type name) Hi) as (a & b & -> & ->). unfold split_at. rewrite <- !app_assoc. cbn [app]. rewrite !live_app, !live_cons. cbn [shrunk added d_ino d_name].
  rewrite (decide_True (P := ino <> 0)) by done. change (d_ino (shrunk d)) with (d_ino d). change (d_name (shrunk d)) with (d_name d). case_decide; solve_Permutation.
Qed.

Lemma pos_split l d r ino file_type name : dent_ok d -> roomy name d = true -> name_ok name -> 0 <= ino < 2 ^ 32 -> 0 <= file_type < 256 ->
  pos (split_at l d r ino file_type name) = pos (l ++ d :: r).
Proof.
  intros Hd Hr Hn Hi Ht. destruct (split_ok d ino file_type name Hd Hr Hn Hi Ht) as [H1 H2]. unfold split_at. rewrite !pos_app, !pos_cons by done. cbn. lia.
Qed.

(** The search for room: the first entry that has it is split. *)
Lemma add_loop_spec fuel n bls s ino name file_type i : geo s -> dir_ok n bls s -> name_ok name -> 0 <= file_type < 256 -> (length bls - i < fuel)%nat ->
  exists r, add_loop fuel n ino name file_type (block_size s * Z.of_nat i) s = Answer r /\
    match r with
    | Some (s', c) => c = 0 /\ exists j l d k, bls !! j = Some (l ++ d :: k) /\ roomy name d = true /\ s' = put (slot n s (slot_of (Z.of_nat j))) (area (split_at l d k ino file_type name)) s
    | None => Forall (fun d => roomy name d = false) (mjoin (drop i bls))
    end.
Proof.
  intros Hg Hd Hn Ht. revert i. induction fuel as [|fuel IH]; intros i Hf; [lia|]. cbn [add_loop]. pose proof (bs_pos s Hg). rewrite (dir_size _ _ _ Hd). destruct (bls !! i) as [ds|] eqn:Ei.
  2: { apply lookup_ge_None in Ei. rewrite (proj2 (Z.ltb_ge _ _)) by nia. cbn [negb]. eexists. split; [done|]. cbn. rewrite drop_ge by done. apply Forall_nil_2. }
  pose proof (lookup_lt_Some _ _ _ Ei). rewrite (proj2 (Z.ltb_lt _ _)) by nia. cbn [negb]. destruct (block_start s i Hg) as [-> ->]. destruct (dir_area n bls s i ds Hg Hd Ei) as (Hp & Hx & Hb & ->).
  destruct (dir_block _ _ _ Hd i ds Ei) as (_ & _ & HF). fold (actual name). rewrite (proj2 (Z.eqb_neq _ 0)) by done. rewrite <- (dir_size _ _ _ Hd), (dir_walk n bls s i ds _ (roomy name) Hg Hd Ei).
  - cbn [mbind answer_bind]. destruct (find_index (roomy name) ds) as [k|] eqn:Ek.
    + apply find_index_Some in Ek as (d & Hk & Hr & _). pose proof (take_drop_middle ds k d Hk) as Eds. set (l := take k ds) in *. set (r := drop (S k) ds) in *. clearbody l r. subst ds.
      apply Forall_app in HF as [_ HF]. apply Forall_cons in HF as [Hdo _]. destruct (entry_at (area l) d (area r) Hdo) as (_ & E2 & E3 & _). rewrite area_app, area_cons. fold (pos l) in *.
      unfold de_actual. rewrite E3. fold (actual (d_name d)). pose proof (actual_spec name ltac:(apply Hn)). pose proof Hr as Hr'%Z.leb_le. rewrite pos_app, pos_cons in Hp by done. assert (0 <= pos r) by (unfold pos; lia).
      rewrite (proj2 (Z.ltb_ge _ _)) by lia. rewrite write_blk, get_block_slot by done. cbn [fst]. eexists. split; [done|]. split; [done|]. exists i, l, d, r. split_and!; [done|done|]. f_equal.
      unfold pos. rewrite split_entry_spec by done. unfold split_at. by rewrite area_app, !area_cons.
    + destruct (IH (S i) ltac:(lia)) as (r & -> & Hr). exists r. split; [done|]. destruct r as [[s' c]|]; [done|]. rewrite (drop_S bls ds i Ei). change (mjoin (ds :: drop (S i) bls)) with (ds ++ mjoin (drop (S i) bls)).
      apply Forall_app. split; [|done]. apply Forall_lookup_2. intros k d Hk. apply (proj1 (find_index_None _ _) Ek k d Hk).
  - intros l d r ->. apply Forall_app in HF as [_ HF]. apply Forall_cons in HF as [Hdo _]. by apply room_answer.
Qed.

(** The block of a directory that grows. *)
Definition lone (bs ino file_type : Z) (name : list Z) : dent := mk_dent ino bs file_type name (replicate (Z.to_nat (bs - DE_SIZE - Z.of_nat (length name))) 0).

Lemma lone_ok s ino file_type name : geo s -> name_ok name -> 0 <= ino < 2 ^ 32 -> 0 <= file_type < 256 -> dent_ok (lone (block_size s) ino file_type name).
Proof.
  intros Hg Hn Hi Ht. destruct Hn as [Hc Hl]. pose proof (bs_max s Hg). assert (1024 <= block_size s) by (destruct (geo_bs s Hg) as [-> | [-> | ->]]; done). pose proof (actual_spec name Hl).
  unfold DE_SIZE in *. split; unfold lone, DE_SIZE; cbn [d_ino d_rec d_type d_name d_slack]; [done|rewrite length_replicate; lia|lia|lia|lia|done|by apply name_bytes|]. apply Forall_replicate. lia.
Qed.

Lemma lone_bytes bs ino file_type name : DE_SIZE + Z.of_nat (length name) <= bs -> (length name < 256)%nat -> 0 <= file_type < 256 ->
  blit (replicate (Z.to_nat bs) 0) 0 (de_bytes ino bs (Z.of_nat (length name)) file_type name) = area [lone bs ino file_type name].
Proof.
  intros Hb Hl Ht. unfold DE_SIZE in *. set (m := Z.to_nat (bs - DE_SIZE - Z.of_nat (length name))). replace (Z.to_nat bs) with (8 + length name + m)%nat by (unfold m, DE_SIZE; lia).
  rewrite replicate_add. change (replicate (8 + length name) 0 ++ replicate m 0) with ([] ++ replicate (8 + length name) 0 ++ replicate m 0).
  rewrite blit_at by (done || unfold de_bytes; rewrite !length_app, !length_le_bytes, length_replicate; cbn [length]; lia).
  unfold area, lone, dent_bytes, de_bytes, m. cbn [fmap list_fmap mjoin list_join d_ino d_rec d_type d_name d_slack app]. rewrite (u8_small (Z.of_nat _)), (u8_small file_type) by lia. by rewrite app_nil_r, <- !app_assoc.
Qed.

(** Inode [parent] is a directory with the entries [bls]. *)
Record dir_at (parent : Z) (n : ext2_inode) (bls : list (list dent)) (s : ext2) : Prop := mk_dir_at {
  at_ino : is_ino s parent;
  at_inode : ext2_read_inode parent s = Some n;
  at_dir : is_dir n;
  at_wf : inode_wf n;
  at_ok : dir_ok n bls s
}.

(** What an operation on the directory [parent] keeps. *)
Record dir_step (parent : Z) (n n' : ext2_inode) (bls' : list (list dent)) (s s' : ext2) : Prop := mk_dir_step {
  st_geo : geo s';
  st_meta : meta_ok s';
  st_geom : geom s' = geom s;
  st_at : dir_at parent n' bls' s';
  st_inodes : forall ino, is_ino s ino -> ino <> parent -> ext2_read_inode ino s' = ext2_read_inode ino s;
  st_files : forall m, file_ok m s -> apart m n s -> file_ok m s' /\ same_file m s s'
}.

Lemma is_ino_geom s s' ino : geom s' = geom s -> is_ino s' ino <-> is_ino s ino.
Proof. intros E. destruct (geom_eq _ _ E) as (_ & _ & _ & _ & E5 & _ & E7 & _). unfold is_ino. by rewrite E5, E7. Qed.

Lemma dir_same n bls s s' : dir_ok n bls s -> file_ok n s' -> same_file n s s' -> dir_ok n bls s'.
Proof.
  intros [F S M B E] F' (Ebs & Es & Eb). assert (forall j, is_idx s' j <-> is_idx s j) as Hx by (intros j; unfold is_idx, ptrs; by rewrite Ebs). split; [done|by rewrite Ebs|unfold ptrs in *; by rewrite Ebs| |].
  - intros i ds Hi. destruct (B i ds Hi) as (Hne & Ea & HF). assert (is_idx s (Z.of_nat i)) as Hi' by (pose proof (lookup_lt_Some _ _ _ Hi); unfold is_idx; lia). destruct (slot_of_range s _ Hi') as [Hs _].
    rewrite Es by done. split_and!; [done| |done]. rewrite <- Ea. apply Eb. split; [done|by exists (slot_of (Z.of_nat i))].
  - intros j Hj Hjx. apply Hx in Hjx. rewrite Es by apply (slot_of_range s j Hjx). by apply E.
Qed.

(** Blocks outside the metadata are in no inode table. *)
Lemma file_no_itab n s (X : Z -> Prop) g x : file_ok n s -> (forall x, X x -> blocks_of n s x) -> group s g -> in_itab s g x -> ~ X x.
Proof. intros Hf HX Hg Hx H. apply (blocks_not_meta n s x Hf (HX x H)). right. exists g. auto. Qed.

(** A change of one block. *)
Lemma put_step parent n bls i ds ds' s : geo s -> meta_ok s -> dir_at parent n bls s -> bls !! i = Some ds -> Forall dent_ok ds' -> pos ds' = block_size s ->
  dir_step parent n n (<[i := ds']> bls) s (put (slot n s (slot_of (Z.of_nat i))) (area ds') s).
Proof.
  intros Hg Hm [A1 A2 A3 A4 A5] Hi Hok Hl. destruct (dir_put n bls s i ds ds' Hg A5 Hi Hok Hl) as (Hg' & Hfr & Hb & Hd'). cbn zeta in *. set (s' := put _ _ s) in *. pose proof (dir_file _ _ _ A5) as Hf.
  assert (forall x, x = slot n s (slot_of (Z.of_nat i)) -> blocks_of n s x) as HX by (by intros x ->).
  assert (forall ino, is_ino s ino -> ext2_read_inode ino s' = ext2_read_inode ino s) as Hr by (intros ino H; apply (read_inode_frame ino s s' _ Hg Hg' Hfr H); intros g x Hgr Hx; exact (file_no_itab n s _ g x Hf HX Hgr Hx)).
  split; [done|by apply meta_image|done| |by intros ino H _; apply Hr|].
  - split; [done|by rewrite Hr|done|done|done].
  - intros m Hfm Hap. apply (fbyte_frame m s s' _ Hg Hg' Hfr Hfm). intros x Hx ->. by apply (Hap _ Hx).
Qed.

Lemma set_done_dir n n2 bls s s3 c d : geo s -> dir_ok n bls s -> Z.of_nat (length bls) < 12 + ptrs s -> set_done n (Z.of_nat (length bls)) c s s3 n2 -> c <> 0 -> blk s3 c = area [d] -> dent_ok d ->
  forall n3, i_block n3 = i_block n2 -> i_size n3 = i_size n + block_size s -> dir_ok n3 (bls ++ [[d]]) s3.
Proof.
  intros Hg Hd Hlt (D1 & D2 & D3 & D4 & D5 & D6) Hc Hb Hok n3 E3 Ez. pose proof Hd as [F S M B E]. assert (forall k, slot n3 s3 k = slot n2 s3 k) as Es by (intros k; unfold slot; by rewrite E3).
  destruct (geom_eq _ _ (fr_geom _ _ _ D2)) as (_ & _ & Ebs & _). split.
  - destruct D3 as [L O I]. split; [by rewrite E3|intros k; by rewrite Es; apply O|intros j k; rewrite !Es; by apply I].
  - rewrite length_app, Ez, Ebs, S. cbn. lia.
  - rewrite length_app. unfold ptrs in *. rewrite Ebs. cbn. lia.
  - intros i ds Hi. assert (Z.of_nat i <= Z.of_nat (length bls)) as Hle by (pose proof (lookup_lt_Some _ _ _ Hi) as Hl; rewrite length_app in Hl; cbn in Hl; lia).
    assert (is_idx s (Z.of_nat i)) as Hx by (unfold is_idx; lia). rewrite Es, D5 by done. destruct (decide (Z.of_nat i = Z.of_nat (length bls))) as [Ei|Hne].
    + apply Nat2Z.inj in Ei as ->. rewrite lookup_app_r, Nat.sub_diag in Hi by lia. injection Hi as <-. split_and!; [done|done|by apply Forall_singleton].
    + rewrite lookup_app_l in Hi by lia. destruct (B i ds Hi) as (Hn0 & Ea & HF). split_and!; [done| |done]. rewrite <- Ea. destruct (slot_of_range s _ Hx) as [Hs _].
      apply (frame_owned s s3 _ _ Hg D2 (file_owned _ _ F _ Hs Hn0)). intros [_ E12]. by apply (data_not_indirect n s _ Hg F Hx).
  - intros j. rewrite length_app. cbn. intros Hj Hjx. apply (frame_idx s _ _ _ D2) in Hjx. rewrite Es, D5, decide_False by (done || lia). apply E; [lia|done].
Qed.

Lemma inode_wf_grow n b z : inode_wf n -> is_u32 b -> is_u32 z -> inode_wf (n <| i_blocks := b |> <| i_size := z |>).
Proof. intros Hn Hb Hz. unfold inode_wf, is_u32 in *. cbn. tauto. Qed.

Lemma add_block_step parent n bls ino name file_type s : geo s -> meta_ok s -> dir_at parent n bls s -> name_ok name -> 0 < ino < 2 ^ 32 -> 0 <= file_type < 256 ->
  room (need n + 1) s -> Z.of_nat (length bls) < 12 + ptrs s ->
  exists s' n', add_block parent n ino name file_type s = Answer (s', 0) /\ dir_step parent n n' (bls ++ [[lone (block_size s) ino file_type name]]) s s'.
Proof.
  intros Hg Hm [A1 A2 A3 A4 A5] Hn Hi Ht Hroom Hlt. set (d := lone _ _ _ _). pose proof (lone_ok s ino file_type name Hg Hn ltac:(lia) Ht) as Hdo. fold d in Hdo. pose proof (dir_file _ _ _ A5) as Hf.
  assert (is_idx s (Z.of_nat (length bls))) as Hx by (unfold is_idx; lia). assert (Z.of_nat (length (area [d])) = block_size s) as Hla by (fold (pos [d]); rewrite pos_cons by done; change (pos []) with 0; cbn; lia).
  destruct (attach_spec 0 n (Z.of_nat (length bls)) (area [d]) s Hg Hf Hx (dir_end _ _ _ A5 _ (Z.le_refl _) Hx) Hroom Hla) as (c & s2 & n2 & Ea & Hc0 & Hc & Eset & Hg2 & Ebs & Hd3 & Hb3 & _).
  pose proof (alloc_meta (Z.to_nat (num_block_groups s)) 0 s Hm) as [Hm1 Hu1]. fold (ext2_alloc_block s) in Hm1, Hu1. rewrite Ea in Hm1, Hu1. cbn [fst snd] in Hm1, Hu1.
  destruct (set_block_meta n (Z.of_nat (length bls)) c (claim c s) Hm1 A4 Hu1) as [Hm2 Hw2]. rewrite Eset in Hm2, Hw2. cbn [fst snd] in Hm2, Hw2.
  unfold add_block. rewrite Ea, (proj2 (Z.eqb_neq c 0)) by done. change (block_size (claim c s)) with (block_size s). pose proof (bs_pos s Hg). rewrite (dir_size _ _ _ A5), (proj1 (block_start s (length bls) Hg)), Eset. rewrite Ebs.
  pose proof (dent_fits d Hdo) as Hfit. pose proof (actual_spec name ltac:(apply Hn)). change (d_rec d) with (block_size s) in Hfit. change (d_name d) with name in Hfit. rewrite (proj2 (Z.ltb_ge _ _)) by lia.
  rewrite lone_bytes by (lia || apply Hn). fold d. rewrite write_blk by done. cbn [fst]. set (s3 := put c (area [d]) s2) in *. set (n3 := _ <| i_size ::= _ |>).
  pose proof Hd3 as (Hg3 & F3 & _ & I3 & _). assert (i_size n2 = i_size n) as Es2 by (by rewrite I3). destruct (dir_small n bls s Hg A5) as [_ Hs31]. pose proof (bs_max s Hg).
  assert (i_size n3 = i_size n + block_size s) as Es3. { change (u32 (i_size n2 + block_size s) = i_size n + block_size s). rewrite Es2. pose proof (dir_size _ _ _ A5). apply u32_small. nia. }
  assert (inode_wf n3) as Hw3 by (apply (inode_wf_grow n2); [done|apply u32_range|apply u32_range]). assert (is_dir n3) as Hdir by (unfold is_dir; change (i_mode n3) with (i_mode n2); rewrite I3; exact A3).
  pose proof (set_done_dir n n2 bls s s3 c d Hg A5 Hlt Hd3 Hc0 Hb3 Hdo n3 eq_refl Es3) as Hok. pose proof (fr_geom _ _ _ F3) as G3.
  assert (is_ino s3 parent) as Hi3 by (by apply (is_ino_geom s)). rewrite write_inode_put by done. cbn [fst]. assert (meta_ok s3) as Hm3 by (by apply meta_image). clearbody n3 s3 d.
  destruct (put_inode_flush s3 parent n3 Hg3 Hm3 Hi3 Hw3) as (G4 & M4 & G5 & R5 & O5 & B5 & E5 & _). eexists _, n3. split; [done|]. set (s' := ext2_flush_metadata _) in *.
  assert (forall x, x <> 0 /\ x = slot n s 12 -> blocks_of n s x) as HX by (intros x [Hx0 ->]; split; [done|]; exists 12; split; [by apply is_slot_12|done]).
  split; [done|by apply meta_flush|congruence| | |].
  - split; [apply (is_ino_geom s3); done|done|done|done|]. destruct (B5 n3 (dir_file _ _ _ Hok)) as [F5 S5]. by apply (dir_same n3 _ s3).
  - intros j Hj Hne. rewrite O5 by (done || by apply (is_ino_geom s)). apply (read_inode_frame j s s3 _ Hg Hg3 F3 Hj). intros g x Hgr Hxi. exact (file_no_itab n s _ g x Hf HX Hgr Hxi).
  - intros m Hfm Hap. destruct (fbyte_frame m s s3 _ Hg Hg3 F3 Hfm) as [Fm Sm]; [intros x Hx1 Hx2; apply (Hap x Hx1), HX, Hx2|]. destruct (B5 m Fm) as [Fm' Sm']. split; [done|by eapply same_file_trans].
Qed.

(** Adding an entry succeeds when an entry has room for it or the directory may
    grow by a block; the live entries are then those there were and the new one. *)
Lemma add_spec parent n bls ino name file_type s : geo s -> meta_ok s -> dir_at parent n bls s -> name_ok name -> 0 < ino < 2 ^ 32 -> 0 <= file_type < 256 ->
  Exists (fun d => roomy name d = true) (mjoin bls) \/ room (need n + 1) s /\ Z.of_nat (length bls) < 12 + ptrs s ->
  exists s' n' bls', ext2_add_dir_entry parent ino name file_type s = Answer (s', 0) /\ dir_step parent n n' bls' s s' /\ live (mjoin bls') ≡ₚ (name, ino) :: live (mjoin bls).
Proof.
  intros Hg Hm Hat Hn Hi Ht Hspace. pose proof Hat as [A1 A2 A3 A4 A5]. unfold ext2_add_dir_entry. rewrite A2.
  destruct (add_loop_spec (rounds n) n bls s ino name file_type 0 Hg A5 Hn Ht) as (r & E & Hr). { unfold rounds. rewrite (dir_size _ _ _ A5). pose proof (bs_pos s Hg). nia. }
  rewrite Z.mul_0_r in E. rewrite E. cbn [mbind answer_bind]. destruct r as [[s' c]|].
  - destruct Hr as (-> & j & l & d & k & Hj & Hro & ->). destruct (dir_area n bls s j _ Hg A5 Hj) as (Hp & _). destruct (dir_block _ _ _ A5 j _ Hj) as (_ & _ & HF). pose proof HF as HF'.
    apply Forall_app in HF' as [Hl HF']. apply Forall_cons in HF' as [Hd Hk]. eexists _, n, _. split; [done|]. split.
    + apply (put_step parent n bls j (l ++ d :: k)); [done|done|done|done| |by rewrite pos_split by (done || lia)].
      destruct (split_ok d ino file_type name Hd Hro Hn ltac:(lia) Ht) as [S1 S2]. apply Forall_app. split; [done|]. by do 2 (apply Forall_cons; split; [done|]).
    + apply live_split; [done|lia].
  - rewrite drop_0 in Hr. destruct Hspace as [Hex|[Hroom Hlt]]. { apply Exists_exists in Hex as (d & Hd & Hro). rewrite Forall_forall in Hr. rewrite (Hr d Hd) in Hro. done. }
    destruct (add_block_step parent n bls ino name file_type s Hg Hm Hat Hn Hi Ht Hroom Hlt) as (s' & n' & E' & Hst). exists s', n', (bls ++ [[lone (block_size s) ino file_type name]]). split; [done|]. split; [done|].
    rewrite join_app, live_app. change (mjoin [[lone (block_size s) ino file_type name]]) with [lone (block_size s) ino file_type name]. rewrite live_cons, decide_True by (cbn [lone d_ino]; lia). symmetry. apply Permutation_cons_append.
Qed.

(** ** Removing an entry *)

(** The entry [d] absorbed by its predecessor [p]. *)
Definition merged (p d : dent) : dent := p <| d_rec := d_rec p + d_rec d |> <| d_slack := d_slack p ++ dent_bytes d |>.

(** The entries without [d]: the first of a block is only marked free. *)
Definition dropped (d : dent) (ds ds' : list dent) : Prop :=
  (exists r, ds = d :: r /\ ds' = (d <| d_ino := 0 |>) :: r) \/ exists l p r, ds = l ++ p :: d :: r /\ ds' = l ++ merged p d :: r.

Lemma merged_ok p d : dent_ok p -> dent_ok d -> d_rec p + d_rec d < 2 ^ 16 -> dent_ok (merged p d).
Proof.
  intros [P1 P2 P3 P4 P5 P6 P7 P8] Hd Hlt. pose proof (dent_pos d Hd). pose proof (length_dent d Hd). split; cbn [merged d_ino d_rec d_type d_name d_slack]; try done.
  - change (d_rec p + d_rec d = DE_SIZE + Z.of_nat (length (d_name p)) + Z.of_nat (length (d_slack p ++ dent_bytes d))). rewrite length_app. lia.
  - change (actual (d_name p) <= d_rec p + d_rec d). lia.
  - apply Forall_app. split; [done|by apply bytes_dent].
Qed.

Lemma cleared_ok d : dent_ok d -> dent_ok (d <| d_ino := 0 |>).
Proof. by intros []. Qed.

Lemma merge_bytes pre p d post : dent_ok p -> dent_ok d -> let buf := area (pre ++ p :: d :: post) in
  blit buf (pos pre + 4) (le_bytes 2 (de_rec_len buf (pos pre) + de_rec_len buf (pos (pre ++ [p])))) = area (pre ++ merged p d :: post).
Proof.
  intros Hp Hd buf. unfold buf. replace (pre ++ p :: d :: post) with ((pre ++ [p]) ++ d :: post) at 3 by (by rewrite <- app_assoc). rewrite !area_app, !area_cons.
  destruct (entry_at (area pre) p (dent_bytes d ++ area post) Hp) as (_ & E1 & _). destruct (entry_at (area pre ++ dent_bytes p) d (area post) Hd) as (_ & E2 & _).
  unfold pos. rewrite area_app, area_cons. change (area []) with (@nil Z). rewrite app_nil_r. rewrite E1, E2.
  change (dent_bytes (merged p d)) with (le_bytes 4 (d_ino p) ++ le_bytes 2 (d_rec p + d_rec d) ++ [Z.of_nat (length (d_name p)); d_type p] ++ d_name p ++ d_slack p ++ dent_bytes d).
  change (dent_bytes p) with (le_bytes 4 (d_ino p) ++ le_bytes 2 (d_rec p) ++ [Z.of_nat (length (d_name p)); d_type p] ++ d_name p ++ d_slack p).
  rewrite <- !app_assoc, (app_assoc (area pre)), (blit_at _ (le_bytes 2 (d_rec p))) by (rewrite ?length_app, ?length_le_bytes; lia). by rewrite <- !app_assoc.
Qed.

Lemma clear_bytes d post : blit (area (d :: post)) 0 (le_bytes 4 0) = area ((d <| d_ino := 0 |>) :: post).
Proof.
  rewrite !area_cons. unfold dent_bytes. cbn [d_ino d_rec d_type d_name d_slack]. rewrite <- !app_assoc.
  rewrite <- (app_nil_l (le_bytes 4 (d_ino d) ++ _)). rewrite (blit_at [] (le_bytes 4 (d_ino d))) by (done || by rewrite !length_le_bytes). done.
Qed.

(** The walk with the position of the entry before. *)
Lemma remove_walk_spec fuel pre prev ds bs name : Forall dent_ok (pre ++ ds) -> pos (pre ++ ds) = bs -> bs < 2 ^ 16 -> Forall (fun c => 0 < c < 256) name -> (length ds < fuel)%nat ->
  (pre = [] /\ prev = None) \/ (exists l p, pre = l ++ [p] /\ prev = Some (pos l)) ->
  exists r, remove_walk fuel (area (pre ++ ds)) bs (pos pre) prev name = Answer r /\
    match r with
    | Some buf => exists d ds', named name d = true /\ dropped d (pre ++ ds) ds' /\ buf = area ds'
    | None => Forall (fun d => named name d = false) ds
    end.
Proof.
  intros Hf Hbs H16 Hn. revert fuel pre prev Hf Hbs. induction ds as [|d ds IH]; intros fuel pre prev Hf Hbs Hfuel Hprev; (destruct fuel as [|fuel]; [cbn in Hfuel; lia|]); cbn [remove_walk].
  - rewrite app_nil_r in *. rewrite Hbs, Z.ltb_irrefl. eexists. split; [done|]. apply Forall_nil_2.
  - pose proof Hf as Hf'. apply Forall_app in Hf' as [Hpre Hf']. apply Forall_cons in Hf' as [Hd Hds]. pose proof (dent_pos d Hd). assert (0 <= pos pre) by (unfold pos; lia). assert (0 <= pos ds) by (unfold pos; lia).
    pose proof Hbs as Hbs'. rewrite pos_app, pos_cons in Hbs' by done. rewrite (proj2 (Z.ltb_lt (pos pre) bs)), (proj2 (Z.ltb_ge bs _)) by (unfold DE_SIZE; lia). cbn [negb].
    destruct (entry_at (area pre) d (area ds) Hd) as (_ & E2 & _). fold (pos pre) in E2. rewrite <- area_cons, <- area_app in E2. rewrite E2, (proj2 (Z.eqb_neq _ 0)) by lia.
    pose proof (matches_named (area pre) d (area ds) name Hd Hn (bytes_area ds Hds)) as Em. fold (pos pre) in Em. rewrite <- area_cons, <- area_app in Em. rewrite Em. cbn [mbind answer_bind].
    destruct (named name d) eqn:En.
    + eexists. split; [done|]. destruct Hprev as [[-> ->]|(l & p & -> & ->)].
      * exists d, ((d <| d_ino := 0 |>) :: ds). split_and!; [done|left; by exists ds|apply clear_bytes].
      * rewrite <- E2, <- !app_assoc. cbn [app]. exists d, (l ++ merged p d :: ds). apply Forall_app in Hpre as [_ Hp]. apply Forall_cons in Hp as [Hp _]. split_and!; [done|right; by exists l, p, ds|].
        by apply merge_bytes.
    + rewrite u32_small by lia. specialize (IH fuel (pre ++ [d]) (Some (pos pre))). assert (pos (pre ++ [d]) = pos pre + d_rec d) as Ep by (rewrite pos_app, pos_cons by done; change (pos []) with 0; lia).
      rewrite Ep, <- !app_assoc in IH. cbn [app] in IH. destruct IH as (r & Er & Hr); [done|done|cbn in Hfuel; lia|right; by exists pre, d|]. exists r. split; [done|].
      destruct r; [done|]. by apply Forall_cons.
Qed.

Lemma dropped_ok bs d ds ds' : Forall dent_ok ds -> pos ds = bs -> bs < 2 ^ 16 -> dropped d ds ds' -> Forall dent_ok ds' /\ pos ds' = bs.
Proof.
  intros HF Hp H16 [(r & -> & ->)|(l & p & r & -> & ->)].
  - apply Forall_cons in HF as [Hd Hr]. pose proof (cleared_ok d Hd) as Hc. split; [by apply Forall_cons|]. rewrite pos_cons in * by done. exact Hp.
  - apply Forall_app in HF as [Hl HF]. apply Forall_cons in HF as [Hpo HF]. apply Forall_cons in HF as [Hd Hr]. rewrite pos_app, !pos_cons in Hp by done. assert (0 <= pos l) by (unfold pos; lia). assert (0 <= pos r) by (unfold pos; lia).
    pose proof (merged_ok p d Hpo Hd ltac:(lia)) as Hm. split; [apply Forall_app; split; [done|by apply Forall_cons]|]. rewrite pos_app, pos_cons by done. change (d_rec (merged p d)) with (d_rec p + d_rec d). lia.
Qed.

Lemma live_dropped bls i d ds ds' name : bls !! i = Some ds -> named name d = true -> dropped d ds ds' -> live (mjoin bls) ≡ₚ (name, d_ino d) :: live (mjoin (<[i := ds']> bls)).
Proof.
  intros Hi Hn Hd. destruct (join_insert bls i ds ds' Hi) as (a & b & -> & ->). apply andb_true_iff in Hn as [H0%negb_true_iff%Z.eqb_neq <-%bool_decide_eq_true]. destruct Hd as [(r & -> & ->)|(l & p & r & -> & ->)].
  - cbn [app]. rewrite !live_app, !live_cons. rewrite (decide_True (P := d_ino d <> 0)) by done. change (d_ino (d <| d_ino := 0 |>)) with 0. rewrite decide_False by (intros H; by apply H). solve_Permutation.
  - rewrite <- !app_assoc. cbn [app]. rewrite !live_app, !live_cons. change (d_ino (merged p d)) with (d_ino p). change (d_name (merged p d)) with (d_name p).
    rewrite (decide_True (P := d_ino d <> 0)) by done. case_decide; solve_Permutation.
Qed.

(** Removing finds the first live entry with the name, or reports that there
    is none. *)
Lemma remove_loop_spec fuel n bls s name i : geo s -> dir_ok n bls s -> Forall (fun c => 0 < c < 256) name -> (length bls - i < fuel)%nat ->
  (remove_loop fuel n name (block_size s * Z.of_nat i) s = Answer (s, -1) /\ Forall (fun d => named name d = false) (mjoin (drop i bls))) \/
  exists j d ds ds', bls !! j = Some ds /\ named name d = true /\ dropped d ds ds' /\
    remove_loop fuel n name (block_size s * Z.of_nat i) s = Answer (put (slot n s (slot_of (Z.of_nat j))) (area ds') s, 0).
Proof.
  intros Hg Hd Hn. revert i. induction fuel as [|fuel IH]; intros i Hf; [lia|]. cbn [remove_loop]. pose proof (bs_pos s Hg). pose proof (bs_max s Hg). rewrite (dir_size _ _ _ Hd). destruct (bls !! i) as [ds|] eqn:Ei.
  2: { apply lookup_ge_None in Ei. rewrite (proj2 (Z.ltb_ge _ _)) by nia. left. split; [done|]. rewrite drop_ge by done. apply Forall_nil_2. }
  pose proof (lookup_lt_Some _ _ _ Ei). rewrite (proj2 (Z.ltb_lt _ _)) by nia. cbn [negb]. destruct (block_start s i Hg) as [-> _]. destruct (dir_area n bls s i ds Hg Hd Ei) as (Hp & Hx & Hb & ->).
  destruct (dir_block _ _ _ Hd i ds Ei) as (_ & _ & HF). rewrite (proj2 (Z.eqb_neq _ 0)) by done. pose proof (length_area ds HF) as Hla. fold (pos ds) in Hla.
  destruct (remove_walk_spec (S (Z.to_nat (block_size s))) [] None ds (block_size s) name HF Hp ltac:(lia) Hn ltac:(lia) ltac:(by left)) as (r & Er & Hr). change (pos []) with 0 in Er. cbn [app] in Er. rewrite Er.
  cbn [mbind answer_bind]. destruct r as [buf|].
  - destruct Hr as (d & ds' & Hnd & Hdr & ->). right. exists i, d, ds, ds'. split_and!; [done..|]. by rewrite write_blk, get_block_slot.
  - destruct (dir_small n bls s Hg Hd) as [_ Hsm]. pose proof (dir_size _ _ _ Hd) as Esz. rewrite u32_small by nia. replace (block_size s * Z.of_nat i + block_size s) with (block_size s * Z.of_nat (S i)) by lia.
    rewrite (drop_S bls ds i Ei). change (mjoin (ds :: drop (S i) bls)) with (ds ++ mjoin (drop (S i) bls)). destruct (IH (S i) ltac:(lia)) as [[-> Hno]|?]; [left|by right].
    split; [done|]. apply Forall_app. by split.
Qed.

Lemma find_ino_none name ds : find_ino name ds = 0 <-> Forall (fun d => named name d = false) ds.
Proof.
  unfold find_ino. induction ds as [|d ds IH]; [split; [intros; apply Forall_nil_2|done]|]. cbn [List.find]. rewrite Forall_cons. destruct (named name d) eqn:E; [|by rewrite IH; tauto].
  apply andb_true_iff in E as [H0%negb_true_iff%Z.eqb_neq _]. split; [done|by intros [? _]].
Qed.

Lemma remove_spec parent n bls name s : geo s -> meta_ok s -> dir_at parent n bls s -> name_ok name ->
  (find_ino name (mjoin bls) = 0 /\ ext2_remove_dir_entry parent name s = Answer (s, -1)) \/
  exists s' bls' ino, ext2_remove_dir_entry parent name s = Answer (s', 0) /\ dir_step parent n n bls' s s' /\ live (mjoin bls) ≡ₚ (name, ino) :: live (mjoin bls').
Proof.
  intros Hg Hm Hat Hn. pose proof Hat as [A1 A2 A3 A4 A5]. unfold ext2_remove_dir_entry. rewrite A2. pose proof (bs_pos s Hg). pose proof (bs_max s Hg).
  destruct (remove_loop_spec (rounds n) n bls s name 0 Hg A5 ltac:(apply Hn)) as [[E Hno]|(j & d & ds & ds' & Hj & Hnd & Hdr & E)].
  - unfold rounds. rewrite (dir_size _ _ _ A5). nia.
  - rewrite Z.mul_0_r in E. left. split; [|done]. by apply find_ino_none.
  - rewrite Z.mul_0_r in E. right. destruct (dir_area n bls s j ds Hg A5 Hj) as (Hp & _). destruct (dir_block _ _ _ A5 j ds Hj) as (_ & _ & HF).
    destruct (dropped_ok _ d ds ds' HF Hp ltac:(lia) Hdr) as [HF' Hp']. eexists _, _, (d_ino d). split; [done|]. split; [by apply (put_step parent n bls j ds)|by apply (live_dropped bls j d ds)].
Qed.

(** Names that are used once make the entries a map. *)
Lemma dir_map_cons bls bls' name ino : distinct bls -> live (mjoin bls') ≡ₚ (name, ino) :: live (mjoin bls) -> dir_map bls !! name = None ->
  distinct bls' /\ dir_map bls' = <[name := ino]> (dir_map bls).
Proof.
  intros Hd Hp Hn. assert (distinct bls') as Hd'. { unfold distinct. rewrite Hp. cbn. apply NoDup_cons. split; [|done]. by apply not_elem_of_list_to_map. }
  split; [done|]. unfold dir_map. by rewrite (list_to_map_proper _ _ Hd' Hp).
Qed.

Lemma dir_map_uncons bls bls' name ino : distinct bls -> live (mjoin bls) ≡ₚ (name, ino) :: live (mjoin bls') ->
  distinct bls' /\ dir_map bls !! name = Some ino /\ dir_map bls' = delete name (dir_map bls).
Proof.
  intros Hd Hp. pose proof Hd as Hd'. unfold distinct in Hd'. rewrite Hp in Hd'. cbn in Hd'. apply NoDup_cons in Hd' as [Hn Hd']. split; [done|]. unfold dir_map. rewrite (list_to_map_proper _ _ Hd Hp). cbn.
  split; [apply lookup_insert_eq|]. rewrite delete_insert_id; [done|]. by apply not_elem_of_list_to_map.
Qed.

(** ** Creating a file *)

(** A step that leaves every inode and every file alone. *)
Lemma flush_quiet s : geo s -> meta_ok s -> let s' := ext2_flush_metadata s in
  geo s' /\ meta_ok s' /\ geom s' = geom s /\ (forall ino, is_ino s ino -> ext2_read_inode ino s' = ext2_read_inode ino s) /\ forall m, file_ok m s -> file_ok m s' /\ same_file m s s'.
Proof.
  intros Hg Hm s'. destruct (flush_spec s Hg) as (Hg' & F' & _). fold s' in Hg', F'. split_and!; [done|by apply meta_flush|apply F'| |].
  - intros ino Hi. apply (read_inode_frame ino s s' _ Hg Hg' F' Hi). intros g x H1 H2 H3. pose proof (geo_high s Hg g x H1 ltac:(auto)). lia.
  - apply (files_kept s s' _ Hg Hg' F'). intros x Hx. by left.
Qed.

Lemma dir_at_kept parent n bls s s' : dir_at parent n bls s -> geom s' = geom s -> ext2_read_inode parent s' = ext2_read_inode parent s ->
  (forall m, file_ok m s -> file_ok m s' /\ same_file m s s') -> dir_at parent n bls s'.
Proof.
  intros [A1 A2 A3 A4 A5] E R F. destruct (F n (dir_file _ _ _ A5)) as [F1 F2]. split; [by apply (is_ino_geom s)|congruence|done|done|by apply (dir_same n bls s)].
Qed.

(** The inode a new file gets. *)
Definition new_inode (mode : Z) : ext2_inode := inode_zero <| i_mode := u16 mode |> <| i_links_count := 1 |>.

Lemma new_inode_wf mode : inode_wf (new_inode mode).
Proof. unfold inode_wf. cbn [new_inode]. pose proof (u16_range mode) as Hm. split; [exact Hm|]. split_and!; try done. by repeat constructor. Qed.

(** A new inode is taken and written. *)
Lemma inode_step s ino m : geo s -> meta_ok s -> is_ino s ino -> iused s ino = false -> inode_wf m -> let s' := put_inode ino m (claim_inode ino s) in
  geo (claim_inode ino s) /\ geo s' /\ meta_ok s' /\ geom s' = geom s /\ ext2_read_inode ino s' = Some m /\ (forall k, room k s -> room k s') /\
  (forall j, is_ino s j -> j <> ino -> ext2_read_inode j s' = ext2_read_inode j s) /\ forall m, file_ok m s -> file_ok m s' /\ same_file m s s'.
Proof.
  intros Hg Hm Hi Hu Hw s'. destruct (claim_inode_spec s ino Hg Hm Hi Hu) as (G1 & M1 & F1 & R1). set (s1 := claim_inode ino s) in *. pose proof (fr_geom _ _ _ F1) as E1.
  destruct (put_inode_spec s1 ino m G1 (proj2 (is_ino_geom s s1 ino E1) Hi) Hw) as (G2 & F2 & R2 & I2 & O2). fold s' in G2, F2, R2, I2, O2. pose proof (fr_geom _ _ _ F2) as E2.
  assert (meta_ok s') as M2 by (unfold s', put_inode; destruct (inode_place ino s1); by apply meta_image). split_and!; [done|done|done|congruence|done|intros k Hk; by apply R2, R1| |].
  - intros j Hj Hne. rewrite O2 by (done || by apply (is_ino_geom s)). apply (read_inode_frame j s s1 _ Hg G1 F1 Hj). intros g x H1 H2 (h & H3 & ->). by destruct (geo_bt s Hg h g (ibm s h) H3 H1 H2).
  - intros f Hf. destruct (files_kept s s1 _ Hg G1 F1) with f as [Hf1 S1]; [|done|]. { intros x (g & H1 & ->). right. exists g. auto. }
    destruct (files_kept s1 s' _ G1 G2 F2) with f as [Hf2 S2]; [|done|]. { intros x (g & H1 & H2). right. exists g. auto. } split; [done|by eapply same_file_trans].
Qed.

(** Room for one more entry with the name. *)
Definition has_space (name : list Z) (n : ext2_inode) (bls : list (list dent)) (s : ext2) : Prop :=
  Exists (fun d => roomy name d = true) (mjoin bls) \/ room (need n + 1) s /\ Z.of_nat (length bls) < 12 + ptrs s.

Lemma create_spec parent n bls name mode s : geo s -> meta_ok s -> dir_at parent n bls s -> iused s parent = true -> name_ok name -> find_ino name (mjoin bls) = 0 ->
  (exists x, is_ino s x /\ iused s x = false) -> has_space name n bls s ->
  exists s1 n' bls' ino, let s' := ext2_flush_metadata s1 in ext2_create parent name mode s = Answer (s', ino) /\ geo s1 /\ meta_ok s1 /\ geom s1 = geom s /\ is_ino s ino /\ iused s ino = false /\
    dir_at parent n' bls' s' /\ live (mjoin bls') ≡ₚ (name, ino) :: live (mjoin bls) /\ ext2_read_inode ino s' = Some (new_inode mode) /\
    (forall j, is_ino s j -> j <> ino -> j <> parent -> ext2_read_inode j s' = ext2_read_inode j s) /\ forall m, file_ok m s -> apart m n s -> file_ok m s' /\ same_file m s s'.
Proof.
  intros Hg Hm Hat Hpu Hn Hno Hfree Hsp. pose proof Hat as [A1 A2 A3 A4 A5]. unfold ext2_create. rewrite (geo_mounted s Hg). cbn [negb].
  rewrite (lookup_spec s parent n bls name Hg A2 A3 A5 ltac:(apply Hn)), Hno. cbn [mbind answer_bind Z.eqb negb]. destruct (alloc_inode_spec s Hg Hm Hfree) as (ino & -> & Hi & Hu).
  rewrite (proj2 (Z.eqb_neq ino 0)) by (unfold is_ino in Hi; lia). fold (new_inode mode). destruct (inode_step s ino (new_inode mode) Hg Hm Hi Hu (new_inode_wf mode)) as (G1 & G2 & M2 & E2 & I2 & R2 & O2 & F2). cbn zeta in *.
  destruct (claim_inode_spec s ino Hg Hm Hi Hu) as (_ & _ & F1 & _). rewrite write_inode_put by (done || by apply (is_ino_geom s), Hi || apply (is_ino_geom s _ ino (fr_geom _ _ _ F1)), Hi).
  set (s2 := put_inode _ _ _) in *. cbn [Z.ltb Z.compare]. assert (parent <> ino) as Hpi by (intros ->; congruence). pose proof (dir_at_kept parent n bls s s2 Hat E2 (O2 parent A1 Hpi) F2) as Hat2.
  set (ft := if _ =? 0 then _ else _). assert (0 <= ft < 256) as Hft by (unfold ft; destruct (_ =? 0); done).
  assert (has_space name n bls s2) as Hsp2 by (destruct Hsp as [?|[Hr Hl]]; [by left|right; split; [by apply R2|]]; destruct (geom_eq _ _ E2) as (_ & _ & Eb & _); unfold ptrs; by rewrite Eb).
  destruct (add_spec parent n bls ino name ft s2 G2 M2 Hat2 Hn ltac:(unfold is_ino in Hi; lia) Hft Hsp2) as (s3 & n' & bls' & -> & [G3 M3 E3 T3 I3 F3] & Hlive).
  cbn [mbind answer_bind Z.ltb Z.compare]. destruct (flush_quiet s3 G3 M3) as (G4 & M4 & E4 & I4 & F4). cbn zeta in *. assert (geom s3 = geom s) as Es3 by congruence.
  assert (is_ino s2 ino) as Hi2 by (by apply (is_ino_geom s)). exists s3, n', bls', ino. cbn zeta. split_and!; try done.
  - apply (dir_at_kept parent n' bls' s3); [done|done|apply I4, T3|done].
  - rewrite I4 by (by apply (is_ino_geom s)). by rewrite I3.
  - intros j Hj Hne Hnp. rewrite I4 by (by apply (is_ino_geom s)). rewrite I3 by (done || by apply (is_ino_geom s)). by apply O2.
  - intros m Hf Hap. destruct (F2 m Hf) as [Hf2 S2]. destruct (F2 n (dir_file _ _ _ A5)) as [Hn2 Sn2]. destruct (F3 m Hf2) as [Hf3 S3].
    + intros x Hx Hxn. apply (Hap x); [by apply (same_blocks m s s2 x S2)|by apply (same_blocks n s s2 x Sn2)].
    + destruct (F4 m Hf3) as [Hf4 S4]. split; [done|]. eapply same_file_trans; [done|]. by eapply same_file_trans.
Qed.

(** ** Field widths *)

(** An answer whose state keeps the field widths. *)
Definition answer_meta {A} (r : answer (ext2 * A)) : Prop := match r with Answer (s, _) => meta_ok s | _ => True end.

Lemma answer_meta_bind {A B} (r : answer (ext2 * A)) (f : ext2 * A -> answer (ext2 * B)) : answer_meta r -> (forall s a, meta_ok s -> answer_meta (f (s, a))) -> answer_meta (r ≫= f).
Proof. destruct r as [[s a]| |]; [|done..]. intros H Hf. by apply Hf. Qed.

Lemma answer_bind_meta {A B} (r : answer A) (f : A -> answer (ext2 * B)) : (forall a, answer_meta (f a)) -> answer_meta (r ≫= f).
Proof. destruct r; [|done..]. intros Hf. by apply Hf. Qed.

Lemma add_loop_meta fuel n ino name ft off s : meta_ok s -> match add_loop fuel n ino name ft off s with Answer (Some (s', _)) => meta_ok s' | _ => True end.
Proof.
  intros Hm. revert off. induction fuel as [|fuel IH]; intros off; [done|]. cbn [add_loop]. destruct (negb _); [done|]. destruct (_ =? 0); [done|]. destruct (ext2_read_block _ s) as [buf|]; [|done].
  destruct (walk _ _ _ _ _ _ _) as [[bo|o]| |]; cbn [mbind answer_bind]; [|apply IH|done..]. destruct (_ <? _); [done|]. by apply meta_write.
Qed.

Lemma remove_loop_meta fuel n name off s : meta_ok s -> answer_meta (remove_loop fuel n name off s).
Proof.
  intros Hm. revert off. induction fuel as [|fuel IH]; intros off; [done|]. cbn [remove_loop]. destruct (negb _); [done|]. destruct (_ =? 0); [done|]. destruct (ext2_read_block _ s) as [buf|]; [|done].
  apply answer_bind_meta. intros [b|]; [by apply meta_write|apply IH].
Qed.

Lemma alloc_block_meta s : meta_ok s -> meta_ok (ext2_alloc_block s).1 /\ is_u32 (ext2_alloc_block s).2.
Proof. apply alloc_meta. Qed.

Lemma set_block_state n idx b s : meta_ok s -> meta_ok (ext2_set_block n idx b s).1.1.
Proof.
  intros Hm. unfold ext2_set_block. destruct (idx <? 12); [done|]. destruct (_ <? _); [|done]. set (r := if _ =? 0 then _ else _). assert (meta_ok r.1.1) as H1.
  { unfold r. destruct (_ =? 0); [|done]. destruct (alloc_block_meta s Hm) as [Ha _]. destruct (ext2_alloc_block s) as [s1 ind]. destruct (ind =? 0); [done|]. by apply meta_write. }
  destruct r as [[s1 n1] ok]. destruct (negb ok); [done|]. destruct (ext2_read_block _ s1) as [buf|]; [|done].
  pose proof (meta_write (zget (i_block n1) 12) (blit buf (4 * (idx - 12)) (le_bytes 4 b)) s1 H1) as H3. by destruct (ext2_write_block _ _ s1).
Qed.

Lemma add_meta dir ino name ft s : meta_ok s -> answer_meta (ext2_add_dir_entry dir ino name ft s).
Proof.
  intros Hm. unfold ext2_add_dir_entry. destruct (ext2_read_inode dir s) as [n|]; [|done]. pose proof (add_loop_meta (rounds n) n ino name ft 0 s Hm) as Hl.
  destruct (add_loop _ _ _ _ _ _ s) as [[[s' c]|]| |]; cbn [mbind answer_bind]; [done| |done..]. unfold add_block. destruct (alloc_block_meta s Hm) as [Ha _]. destruct (ext2_alloc_block s) as [s1 b]. destruct (b =? 0); [done|].
  pose proof (set_block_state n (i_size n / block_size s1) b s1 Ha) as Hs. destruct (ext2_set_block n _ b s1) as [[s2 n2] r]. destruct (_ <? _); [done|]. by apply meta_flush, write_inode_meta, meta_write.
Qed.

Lemma remove_meta dir name s : meta_ok s -> answer_meta (ext2_remove_dir_entry dir name s).
Proof. intros Hm. unfold ext2_remove_dir_entry. destruct (ext2_read_inode dir s) as [n|]; [by apply remove_loop_meta|done]. Qed.

Lemma free_list_meta bs s : meta_ok s -> meta_ok (free_list bs s).
Proof. revert s. induction bs as [|b bs IH]; intros s Hm; [done|]. cbn. apply IH. destruct (b =? 0); [done|by apply free_block_meta]. Qed.

Lemma free_file_meta n s : meta_ok s -> meta_ok (free_file n s).
Proof.
  intros Hm. unfold free_file. pose proof (free_list_meta (take (Z.to_nat (Z.min (u32 (i_size n + block_size s - 1) / block_size s) 12)) (i_block n)) s Hm) as H1. destruct (_ =? 0); [done|].
  apply free_block_meta. destruct (ext2_read_block _ _); [by apply free_list_meta|done].
Qed.

Lemma unlink_meta parent name s : meta_ok s -> answer_meta (ext2_unlink parent name s).
Proof.
  intros Hm. unfold ext2_unlink. destruct (negb _); [done|]. apply answer_bind_meta. intros ino. destruct (ino =? 0); [done|]. apply answer_meta_bind; [by apply remove_meta|]. intros s1 r H1. destruct (r <? 0); [done|].
  destruct (ext2_read_inode ino s1) as [n|]; [|done]. destruct (_ =? 0); apply meta_flush, write_inode_meta; [by apply free_inode_meta, free_file_meta|done].
Qed.

Lemma create_meta parent name mode s : meta_ok s -> answer_meta (ext2_create parent name mode s).
Proof.
  intros Hm. unfold ext2_create. destruct (negb _); [done|]. apply answer_bind_meta. intros l. destruct (negb _); [done|]. pose proof (alloc_inode_meta (Z.to_nat (num_block_groups s)) 0 s Hm) as Ha. fold (ext2_alloc_inode s) in Ha.
  destruct (ext2_alloc_inode s) as [s1 ino]. destruct (ino =? 0); [done|]. set (n := _ <| i_links_count := 1 |>). pose proof (write_inode_meta ino n s1 Ha) as Hw. destruct (ext2_write_inode ino n s1) as [s2 r]. destruct (r <? 0); [by apply free_inode_meta|].
  apply answer_meta_bind; [by apply add_meta|]. intros s3 r' H3. destruct (r' <? 0); [by apply free_inode_meta|by apply meta_flush].
Qed.

Lemma meta_dirs bg s : meta_ok s -> meta_ok (upd_bg bg (fun g => g <| bg_used_dirs_count ::= fun c => u16 (c + 1) |>) s).
Proof.
  intros [S1 S2 S3 S4 S5 S6 S7]. split; try done. cbn. apply Forall_alter; [done|]. intros g _ Hg. apply bg_wf_dirs; [done|apply u16_range].
Qed.

Lemma mkdir_meta parent name s : meta_ok s -> answer_meta (ext2_mkdir parent name s).
Proof.
  intros Hm. unfold ext2_mkdir. destruct (negb _); [done|]. apply answer_bind_meta. intros l. destruct (negb _); [done|]. pose proof (alloc_inode_meta (Z.to_nat (num_block_groups s)) 0 s Hm) as Ha. fold (ext2_alloc_inode s) in Ha.
  destruct (ext2_alloc_inode s) as [s1 ino]. destruct (ino =? 0); [done|]. destruct (alloc_block_meta s1 Ha) as [Hb _]. destruct (ext2_alloc_block s1) as [s2 b]. destruct (b =? 0); [by apply free_inode_meta|].
  apply answer_meta_bind; [by apply add_meta, write_inode_meta, meta_write|]. intros s3 r H3. destruct (r <? 0); [by apply free_inode_meta, free_block_meta|]. apply meta_flush, meta_dirs. destruct (ext2_read_inode parent s3); [by apply write_inode_meta|done].
Qed.

Lemma rename_meta old new s : meta_ok s -> answer_meta (ext2_rename old new s).
Proof.
  intros Hm. unfold ext2_rename. destruct (negb _); [done|]. apply answer_bind_meta. intros ino. destruct (ino =? 0); [done|]. destruct (ext2_path_split old), (ext2_path_split new). do 2 (apply answer_bind_meta; intros ?). destruct (_ || _); [done|].
  destruct (ext2_read_inode ino s) as [n|]; [|done]. apply answer_bind_meta. intros dst. apply answer_meta_bind; [destruct (dst =? 0); [done|by apply unlink_meta]|]. intros s1 r1 H1. apply answer_meta_bind; [by apply add_meta|]. intros s2 r2 H2.
  destruct (r2 <? 0); [done|]. apply answer_meta_bind; [by apply remove_meta|]. intros s3 r3 H3. destruct (r3 <? 0); [|by apply meta_flush]. apply answer_meta_bind; [by apply remove_meta|]. by intros s4 r4 H4.
Qed.

Lemma write_file_meta ino n off data s : meta_ok s -> inode_wf n -> meta_ok (ext2_write_file ino n off data s).1.1 /\ inode_wf (ext2_write_file ino n off data s).1.2.
Proof.
  intros Hm Hn. unfold ext2_write_file. destruct (negb (ext2_mounted s)); [done|]. destruct (write_from_meta (length data) n off data s Hm Hn) as [H1 H2]. destruct (write_from _ _ _ _ s) as [[[s1 n1] w] ok]. cbn [fst snd] in H1, H2.
  destruct (negb ok); [done|]. cbn [fst snd]. set (n' := if _ <? _ then _ else _). assert (inode_wf n') as Hn' by (unfold n'; destruct (_ <? _); [apply inode_wf_size; [done|apply u32_range]|done]). split; [by apply meta_flush, write_inode_meta|done].
Qed.

(** ** Claims *)

Lemma dir_map_nonzero bls name ino : dir_map bls !! name = Some ino -> ino <> 0.
Proof.
  intros H. apply elem_of_list_to_map_2 in H. unfold live in H. apply list_elem_of_fmap in H as (d & [= _ ->] & Hd). by apply list_elem_of_filter in Hd as [? _].
Qed.

Lemma dir_map_none bls name : find_ino name (mjoin bls) = 0 <-> dir_map bls !! name = None.
Proof.
  rewrite find_ino_map. fold (dir_map bls). destruct (dir_map bls !! name) as [ino|] eqn:E; [|done]. cbn. pose proof (dir_map_nonzero bls name ino E). done.
Qed.

(** C5: a directory is a finite map from names to inodes.  Lookup is lookup in
    the map, with 0 for a name that is not there.  Removing a name deletes it
    from the map, and fails without a change when it is not there.  Adding a
    new name succeeds when an entry has room for it or the directory may grow
    by a block, and inserts it.  Either way all other inodes and the files
    that share no block with the directory are as before. *)
Theorem ext2_dir_refines parent n bls s name :
  geo s -> meta_ok s -> dir_at parent n bls s -> distinct bls -> name_ok name ->
  ext2_lookup parent name s = Answer (default 0 (dir_map bls !! name)) /\
  match dir_map bls !! name with
  | None => ext2_remove_dir_entry parent name s = Answer (s, -1)
  | Some _ => exists s' bls', ext2_remove_dir_entry parent name s = Answer (s', 0) /\ dir_step parent n n bls' s s' /\ distinct bls' /\ dir_map bls' = delete name (dir_map bls)
  end /\
  forall ino file_type, dir_map bls !! name = None -> 0 < ino < 2 ^ 32 -> 0 <= file_type < 256 -> has_space name n bls s ->
    exists s' n' bls', ext2_add_dir_entry parent ino name file_type s = Answer (s', 0) /\ dir_step parent n n' bls' s s' /\ distinct bls' /\ dir_map bls' = <[name := ino]> (dir_map bls).
Proof.
  intros Hg Hm Hat Hd Hn. pose proof Hat as [A1 A2 A3 A4 A5]. split_and!.
  - rewrite (lookup_spec s parent n bls name Hg A2 A3 A5 ltac:(apply Hn)). by rewrite find_ino_map.
  - destruct (remove_spec parent n bls name s Hg Hm Hat Hn) as [[H0%dir_map_none E]|(s' & bls' & ino & E & Hst & Hl)]; [by rewrite H0|].
    destruct (dir_map_uncons bls bls' name ino Hd Hl) as (Hd' & -> & Hdel). by exists s', bls'.
  - intros ino file_type H0 Hi Ht Hsp. destruct (add_spec parent n bls ino name file_type s Hg Hm Hat Hn Hi Ht Hsp) as (s' & n' & bls' & E & Hst & Hl).
    destruct (dir_map_cons bls bls' name ino Hd Hl H0) as [Hd' Hins]. by exists s', n', bls'.
Qed.

(** C14: creating a file, then mounting the disk afresh: with a free inode and
    room in the directory, the call returns an inode that was free; the
    machine that mounts the disk finds the new inode, empty and with the mode
    given; the directory is the old one with the new name inserted; every
    other inode and the contents of the files that share no block with the
    directory are as before. *)
Theorem ext2_create_persists parent n bls name mode s t mem :
  geo s -> meta_ok s -> dir_at parent n bls s -> distinct bls -> iused s parent = true -> name_ok name -> dir_map bls !! name = None ->
  (exists x, is_ino s x /\ iused s x = false) -> has_space name n bls s -> ata_disk_present t = true -> Z.of_nat (length mem) = num_block_groups s * BG_SIZE ->
  exists s' ino n' bls', ext2_create parent name mode s = Answer (s', ino) /\ is_ino s ino /\ iused s ino = false /\ ext2_init (Some mem) (t <| image := image s' |>) = Some (s', 0) /\
    ext2_read_inode ino s' = Some (new_inode mode) /\ dir_at parent n' bls' s' /\ distinct bls' /\ dir_map bls' = <[name := ino]> (dir_map bls) /\
    (forall x, Forall (fun c => 0 < c < 256) x -> ext2_lookup parent x s' = if decide (x = name) then Answer ino else ext2_lookup parent x s) /\
    (forall j, is_ino s j -> j <> ino -> j <> parent -> ext2_read_inode j s' = ext2_read_inode j s) /\
    forall m p k, file_ok m s -> apart m n s -> i_size m <= max_size s -> 0 <= p -> 0 <= k -> ext2_read_file m p k s' = ext2_read_file m p k s.
Proof.
  intros Hg Hm Hat Hd Hpu Hn H0 Hfree Hsp Ht Hl. destruct (create_spec parent n bls name mode s Hg Hm Hat Hpu Hn (proj2 (dir_map_none bls name) H0) Hfree Hsp) as (s1 & n' & bls' & ino & E & G1 & M1 & E1 & Hi & Hu & Hat' & Hlive & R & O & F).
  cbn zeta in *. destruct (dir_map_cons bls bls' name ino Hd Hlive H0) as [Hd' Hins]. destruct (flush_quiet s1 G1 M1) as (G' & _ & E' & _). cbn zeta in *. set (s' := ext2_flush_metadata s1) in *.
  destruct (geom_eq _ _ E1) as (_ & _ & Eb1 & _ & E5 & _). destruct (geom_eq _ _ E') as (_ & _ & Eb' & _). assert (max_size s' = max_size s) as Ems by (unfold max_size, ptrs; congruence).
  exists s', ino, n', bls'. split_and!; try done.
  - apply remount; [done|done|done|done|by rewrite E5].
  - intros x Hx. destruct Hat' as [B1 B2 B3 B4 B5], Hat as [A1 A2 A3 A4 A5]. rewrite (lookup_spec s' parent n' bls' x G' B2 B3 B5 Hx), (lookup_spec s parent n bls x Hg A2 A3 A5 Hx), !find_ino_map.
    fold (dir_map bls') (dir_map bls). rewrite Hins. destruct (decide (x = name)) as [->|Hne]; [by rewrite lookup_insert_eq|by rewrite lookup_insert_ne by congruence].
  - intros m p k Hf Hap Hsz Hp Hk. destruct (F m Hf Hap) as [Hf' Sm]. rewrite !read_file_spec by (done || lia). f_equal. apply list_fmap_ext. intros i q Hq. apply lookup_seqZ in Hq. apply (same_file_bytes m s s' _ Sm), pos_idx; [done|lia].
Qed.


(** The walk along a path: each component is a name in the directory reached
    so far. *)
Inductive resolves (s : ext2) : Z -> list (list Z) -> Z -> Prop :=
| resolves_here ino : resolves s ino [] ino
| resolves_step ino n bls w ws j k : dir_at ino n bls s -> dir_map bls !! w = Some j -> resolves s j ws k -> resolves s ino (w :: ws) k.

(** The components with slashes between them. *)
Definition path_of (ws : list (list Z)) : list Z := mjoin ((fun w => SLASH :: w) <$> ws).

Definition part_ok (w : list Z) : Prop := w <> [] /\ Forall (fun c => 0 < c < 256 /\ c <> SLASH) w.

Lemma component_part w p : part_ok w -> component (w ++ path_of p) = (w, match p with [] => None | v :: vs => Some (v ++ path_of vs) end).
Proof.
  intros [_ Hw]. induction Hw as [|c w [_ Hc] _ IH]; [by destruct p|]. cbn [app component]. rewrite (proj2 (Z.eqb_neq c SLASH)), IH by done. done.
Qed.

Lemma path_loop_spec fuel s ino w ws k : geo s -> Forall part_ok (w :: ws) -> (length ws < fuel)%nat -> resolves s ino (w :: ws) k -> path_loop fuel ino (w ++ path_of ws) s = Answer k.
Proof.
  intros Hg. revert fuel ino w. induction ws as [|v ws IH]; intros fuel ino w Hok Hfuel Hr; (destruct fuel as [|fuel]; [cbn in Hfuel; lia|]); apply Forall_cons in Hok as [Hw Hws];
    inversion Hr as [|? n bls ? ? j ? Hat Hm Hr' E1 E2 E3]; subst; destruct Hat as [A1 A2 A3 A4 A5].
  all: cbn [path_loop]; rewrite component_part by done; destruct w as [|c w]; [by destruct (proj1 Hw)|]; cbn [app].
  all: rewrite (lookup_spec s ino n bls (c :: w) Hg A2 A3 A5) by (eapply Forall_impl; [apply Hw|]; cbn; tauto); rewrite find_ino_map; fold (dir_map bls); rewrite Hm; cbn [from_option id mbind answer_bind].
  all: rewrite (proj2 (Z.eqb_neq j 0)) by (by apply (dir_map_nonzero bls (c :: w))).
  - by inversion Hr'.
  - apply IH; [done|cbn in Hfuel; lia|done].
Qed.

(** C33: path resolution follows the directories: a path of at most 255
    characters behind its leading slash, with non-empty components, each of
    which is a name in the directory reached so far, is resolved to the inode
    at its end, starting from the root. *)
Theorem path_lookup_resolves ws k s : geo s -> Forall part_ok ws -> (length (path_of ws) <= 256)%nat -> resolves s EXT2_ROOT_INODE ws k ->
  ext2_path_lookup (path_of ws) s = Answer k.
Proof.
  intros Hg Hok Hl Hr. unfold ext2_path_lookup. rewrite (geo_mounted s Hg). cbn [negb]. destruct ws as [|w ws]; [by inversion Hr|]. change (path_of (w :: ws)) with (SLASH :: w ++ path_of ws) in *. cbn [Z.eqb SLASH Pos.eqb length] in *.
  rewrite take_ge by lia. destruct (w ++ path_of ws) as [|c p] eqn:E; [apply Forall_cons in Hok as [[Hw _] _]; by destruct w|]. rewrite <- E in *. apply path_loop_spec; [done|done| |done].
  apply Forall_cons in Hok as [_ Hws]. assert (length ws <= length (path_of ws))%nat; [|rewrite length_app in Hl; lia]. clear. induction ws as [|v ws IH]; [done|]. change (path_of (v :: ws)) with (SLASH :: v ++ path_of ws). cbn [length]. rewrite length_app. lia.
Qed.

(** A directory entry of length 0 stops the system: the search reads its
    block again and again and never ends, however long it runs. *)
Theorem zero_entry_hangs n name offset s fuel : geo s -> 0 <= offset < i_size n -> let b := ext2_get_block n (offset / block_size s) s in b <> 0 ->
  offset mod block_size s + DE_SIZE <= block_size s -> de_rec_len (blk s b) (offset mod block_size s) = 0 -> lookup_loop fuel n name offset s = Running.
Proof.
  intros Hg Ho b Hb Hfit Hz. induction fuel as [|fuel IH]; [done|]. cbn [lookup_loop]. rewrite (proj2 (Z.ltb_lt _ _)) by lia. cbn [negb]. fold b. rewrite (proj2 (Z.eqb_neq b 0)), read_blk by done.
  cbn [walk]. unfold DE_SIZE in *. rewrite (proj2 (Z.ltb_lt (offset mod _) _)), (proj2 (Z.ltb_lt offset _)) by lia. cbn [andb negb]. rewrite (proj2 (Z.ltb_ge _ _)) by (unfold DE_SIZE; lia). by rewrite Hz.
Qed.

(** The small disk of Ext2.v with a root directory. *)
Definition demo_root : ext2_inode :=
  inode_zero <| i_mode := EXT2_S_IFDIR + 0x1ED |> <| i_links_count := 2 |> <| i_size := 1024 |> <| i_blocks := 2 |> <| i_block := 6 :: replicate 14 0 |>.
Definition demo_dots : list dent := [mk_dent 2 12 EXT2_FT_DIR [46] [0; 0; 0]; mk_dent 2 1012 EXT2_FT_DIR [46; 46] (replicate 1002 0)].
Definition demo_tree : ext2 := put_inode 2 demo_root (put 6 (area demo_dots) (claim 6 demo_ext2)).

Lemma demo_free_6 : free demo_ext2 6.
Proof. split; [unfold in_range; cbn; lia|by vm_compute]. Qed.

Lemma demo_dots_ok : Forall dent_ok demo_dots.
Proof. repeat apply Forall_cons_2; [..|apply Forall_nil_2]; split; try done; cbn; try lia; repeat constructor; try done. Qed.

Lemma demo_root_wf : inode_wf demo_root.
Proof. unfold inode_wf. split_and!; try done; by repeat constructor. Qed.

Lemma demo_ino : is_ino demo_ext2 2.
Proof. unfold is_ino. cbn. lia. Qed.

(** Its properties follow from those of the operations that build it. *)
Lemma demo_tree_spec : geo demo_tree /\ meta_ok demo_tree /\ geom demo_tree = geom demo_ext2 /\ owned demo_tree 6 /\ blk demo_tree 6 = area demo_dots /\ ext2_read_inode 2 demo_tree = Some demo_root.
Proof.
  pose proof demo_geo as Hg. pose proof demo_free_6 as Hf. destruct (claim_spec demo_ext2 6 Hg) as (G1 & E1 & _); [apply Hf..|]. pose proof (owned_claim demo_ext2 6 Hg Hf) as Ho. destruct (owned_small _ 6 G1 Ho) as [Hs Hnb].
  set (s1 := claim 6 demo_ext2) in *. assert (Z.of_nat (length (area demo_dots)) = block_size s1) as Hl by done. pose proof (frame_put s1 6 _ G1 Hs Hnb Hl) as F2. pose proof (geo_put s1 6 _ G1 Hs Hnb Hl) as G2. set (s2 := put 6 _ s1) in *.
  assert (owned s2 6) as Ho2 by (by apply (frame_owned s1 s2 _ 6 G1 F2)). assert (is_ino s2 2) as Hi by (by apply (is_ino_geom demo_ext2), demo_ino || exact demo_ino).
  destruct (put_inode_spec s2 2 demo_root G2 Hi demo_root_wf) as (G3 & F3 & _ & R3 & _). fold demo_tree in G3, F3, R3. destruct (frame_owned s2 demo_tree _ 6 G2 F3 Ho2) as [Ho3 B3].
  split_and!; [done| |etrans; [apply (fr_geom _ _ _ F3)|exact E1]|done| |done].
  - unfold demo_tree, put_inode. destruct (inode_place 2 _). apply meta_image, meta_image. pose proof (alloc_meta 1 0 demo_ext2 demo_meta_ok) as [Hm _]. exact Hm.
  - rewrite B3; [unfold s2; by rewrite blk_put, decide_True|]. intros (g & Hgr & Hx). destruct Ho2 as (_ & _ & Hn). apply Hn. right. exists g. auto.
Qed.

Lemma demo_dir : dir_at 2 demo_root [demo_dots] demo_tree.
Proof.
  destruct demo_tree_spec as (Hg & Hm & E & Ho & Hb & Hr). set (t := demo_tree) in *. clearbody t. assert (forall k, is_slot t k -> slot demo_root t k = if decide (k = 0) then 6 else 0) as Hs.
  { intros k Hk. unfold is_slot in Hk. unfold slot. change (i_block demo_root) with (6 :: replicate 14 0). destruct (Z.ltb_spec k 13); [|by rewrite decide_False by lia]. destruct (decide (k = 0)) as [->|]; [done|].
    change (6 :: replicate 14 0) with ([6] ++ replicate 14 0). unfold zget. rewrite list_lookup_total_alt, lookup_app_r by (cbn; lia). rewrite <- list_lookup_total_alt. cbn [length]. rewrite lookup_total_replicate_2 by lia. done. }
  split; [by apply (is_ino_geom demo_ext2), demo_ino|exact Hr|done|apply demo_root_wf|]. split.
  - split; [done| |].
    + intros k Hk. rewrite Hs by done. by destruct (decide (k = 0)).
    + intros j k Hj Hk. rewrite !Hs by done. destruct (decide (j = 0)), (decide (k = 0)); by subst.
  - destruct (geom_eq _ _ E) as (_ & _ & -> & _). done.
  - destruct (geom_eq _ _ E) as (_ & _ & Eb & _). unfold ptrs. rewrite Eb. done.
  - intros i ds Hi. destruct i as [|i]; [|done]. injection Hi as <-. change (slot_of (Z.of_nat 0)) with 0. rewrite Hs by (pose proof (ptrs_size _ Hg); unfold is_slot; lia). cbn [decide]. rewrite decide_True by done. split_and!; [done|done|apply demo_dots_ok].
  - intros j Hj Hx. cbn [length] in Hj. destruct (slot_of_range _ _ Hx) as [Hk _]. rewrite Hs, decide_False by (done || unfold slot_of; destruct (Z.ltb_spec j 12); lia). done.
Qed.

Lemma demo_distinct : distinct [demo_dots].
Proof. unfold distinct. change (NoDup [[46]; [46; 46]]). apply NoDup_cons; split; [set_solver|apply NoDup_singleton]. Qed.

(** The name "a". *)
Definition demo_name : list Z := [97].

Lemma demo_name_ok : name_ok demo_name.
Proof. split; [by repeat constructor|cbn; lia]. Qed.

Lemma demo_has_space : has_space demo_name demo_root [demo_dots] demo_tree.
Proof. left. apply Exists_cons_tl, Exists_cons_hd. by vm_compute. Qed.

Lemma ext2_dir_refines_witness : ext2_lookup 2 demo_name demo_tree = Answer 0 /\ ext2_lookup 2 [46; 46] demo_tree = Answer 2 /\
  exists s' n' bls', ext2_add_dir_entry 2 7 demo_name EXT2_FT_REG_FILE demo_tree = Answer (s', 0) /\ dir_step 2 demo_root n' bls' demo_tree s' /\ dir_map bls' !! demo_name = Some 7.
Proof.
  destruct demo_tree_spec as (Hg & Hm & _). destruct (ext2_dir_refines 2 demo_root [demo_dots] demo_tree demo_name Hg Hm demo_dir demo_distinct demo_name_ok) as (H1 & _ & H2).
  destruct (ext2_dir_refines 2 demo_root [demo_dots] demo_tree [46; 46] Hg Hm demo_dir demo_distinct ltac:(split; [by repeat constructor|cbn; lia])) as (H3 & _). split; [etrans; [exact H1|by vm_compute]|]. split; [etrans; [exact H3|by vm_compute]|].
  destruct (H2 7 EXT2_FT_REG_FILE ltac:(by vm_compute) ltac:(lia) ltac:(split; done) demo_has_space) as (s' & n' & bls' & E & Hst & _ & Hmap). exists s', n', bls'. split; [exact E|]. split; [exact Hst|]. rewrite Hmap. apply lookup_insert_eq.
Defined.

Lemma ext2_create_persists_witness : exists s' ino, ext2_create 2 demo_name (EXT2_S_IFREG + 0x1A4) demo_tree = Answer (s', ino) /\
  ext2_init (Some (replicate 32 0)) (demo_ext2 <| image := image s' |>) = Some (s', 0) /\ ext2_lookup 2 demo_name s' = Answer ino.
Proof.
  destruct demo_tree_spec as (Hg & Hm & E & _). destruct (geom_eq _ _ E) as (_ & _ & _ & _ & E5 & _).
  destruct (ext2_create_persists 2 demo_root [demo_dots] demo_name (EXT2_S_IFREG + 0x1A4) demo_tree demo_ext2 (replicate 32 0) Hg Hm demo_dir demo_distinct ltac:(by vm_compute) demo_name_ok ltac:(by vm_compute)) as (s' & ino & n' & bls' & H1 & _ & _ & H2 & _ & _ & _ & _ & H3 & _).
  - exists 3. split; [apply (is_ino_geom demo_ext2 _ _ E); unfold is_ino; cbn; lia|by vm_compute].
  - apply demo_has_space.
  - reflexivity.
  - by rewrite E5.
  - exists s', ino. split; [exact H1|]. split; [exact H2|]. rewrite H3 by apply demo_name_ok. by rewrite decide_True.
Defined.

Lemma path_lookup_resolves_witness : ext2_path_lookup [47; 46; 47; 46; 46] demo_tree = Answer 2.
Proof.
  destruct demo_tree_spec as (Hg & _). apply (path_lookup_resolves [[46]; [46; 46]] 2 demo_tree Hg); [repeat constructor; done|cbn; lia|].
  do 2 (eapply resolves_step; [apply demo_dir|by vm_compute|]). apply resolves_here.
Defined.

Lemma zero_entry_hangs_witness : lookup_loop 1000 (demo_root <| i_block := 7 :: replicate 14 0 |>) demo_name 0 demo_tree = Running.
Proof. destruct demo_tree_spec as (Hg & _). apply (zero_entry_hangs (demo_root <| i_block := 7 :: replicate 14 0 |>) demo_name 0 demo_tree 1000 Hg); [done|done|by vm_compute|by vm_compute]. Defined.


(** Renaming a file to its own name loses it: the target of the rename is
    removed first, and it is the file itself. *)
Theorem rename_onto_itself_loses : let path := SLASH :: demo_name in exists s1 ino s2, ext2_create 2 demo_name (EXT2_S_IFREG + 0x1A4) demo_tree = Answer (s1, ino) /\ ino <> 0 /\
  ext2_path_lookup path s1 = Answer ino /\ ext2_rename path path s1 = Answer (s2, 0) /\ ext2_path_lookup path s2 = Answer 0.
Proof.
  intros path.
  assert (('(s1, ino) ← ext2_create 2 demo_name (EXT2_S_IFREG + 0x1A4) demo_tree; a ← ext2_path_lookup path s1; '(s2, r) ← ext2_rename path path s1; b ← ext2_path_lookup path s2; Answer (ino, a, r, b)) = Answer (3, 3, 0, 0)) as H by (vm_compute; reflexivity).
  destruct (ext2_create _ _ _ _) as [[s1 ino]| |]; [|discriminate H..]. cbn [mbind answer_bind] in H. destruct (ext2_path_lookup path s1) as [a| |] eqn:E1; [|discriminate H..]. cbn [mbind answer_bind] in H.
  destruct (ext2_rename path path s1) as [[s2 r]| |] eqn:E2; [|discriminate H..]. cbn [mbind answer_bind] in H. destruct (ext2_path_lookup path s2) as [b| |] eqn:E3; [|discriminate H..]. injection H as -> -> -> ->.
  exists s1, 3, s2. split_and!; [reflexivity|lia|exact E1|exact E2|exact E3].
Qed.

End Ext2Dir.
