(* ===== verification/Vfs.v ===== *)
(** * The virtual file system (fs/vfs.c, ramfs.c, devfs.c, procfs.c)

    Nodes, descriptors and mounts are arrays of slots; a pointer to a node is
    [root_node] or an index.  The operation tables of the three file systems are
    the constructors of [vfs_ops], and [node_read] and [node_write] run
    them.  Strings are lists of their characters without terminator.  A copy
    that would run outside its buffer has the result [Wild]. *)

From Stdlib Require Import Ascii String.
From stdpp Require Import prelude gmap.
From Stdlib Require Import ZArith Lia.
From S2P Require Import Prelude Process Sched Tty Ext2 Dev.
Import Process Sched.
Local Open Scope list_scope.
Local Open Scope Z_scope.

Module Vfs.

#[local] Existing Instance Dev.device_inhabited.

Definition VFS_MAX_NAME : nat := 32.
Definition VFS_MAX_FDS : nat := 64.
Definition VFS_MAX_NODES : nat := 128.
Definition VFS_MAX_MOUNTS : nat := 4.
Definition VFS_FILE : Z := 1.
Definition VFS_DIRECTORY : Z := 2.
Definition SLASH : Z := 47.

(** The characters of a literal. *)
Definition txt (s : string) : list Z := (fun c => Z.of_nat (nat_of_ascii c)) <$> list_ascii_of_string s.

(** The string in a buffer that ends with a zero. *)
Definition cut0 (s : list Z) : list Z := take (default (length s) (find_index (Z.eqb 0) s)) s.

(** ** Tables *)

Inductive vfs_ops := ramfs_ops | devfs_ops | procfs_ops.

Record vfs_node := mk_node {
  n_name : list Z;
  n_type : Z;
  n_size : Z;
  n_data : Z;
  n_ops : option vfs_ops;
  n_inode_num : Z;
  n_in_use : bool
}.

#[export] Instance eta_node : Eta vfs_node := fun n =>
  mk_node (n_name n) (n_type n) (n_size n) (n_data n) (n_ops n) (n_inode_num n) (n_in_use n).
Definition node_zero : vfs_node := mk_node [] 0 0 0 None 0 false.
#[export] Instance node_inhabited : Inhabited vfs_node := populate node_zero.

Inductive nref := root_node | node_at (i : nat).
#[export] Instance nref_eq_dec : EqDecision nref.
Proof. solve_decision. Defined.

Record vfs_fd := mk_vfd { f_node : option nref; f_offset : Z; f_in_use : bool }.
#[export] Instance vfd_inhabited : Inhabited vfs_fd := populate (mk_vfd None 0 false).

Record vfs_mount_pt := mk_mount { m_prefix : list Z; m_ops : option vfs_ops; m_in_use : bool }.
#[export] Instance mount_inhabited : Inhabited vfs_mount_pt := populate (mk_mount [] None false).

Record vfs := mk_vfs { nodes : list vfs_node; fd_tab : list vfs_fd; mounts : list vfs_mount_pt }.
#[export] Instance eta_vfs : Eta vfs := fun v => mk_vfs (nodes v) (fd_tab v) (mounts v).

Definition vfs_init : vfs :=
  mk_vfs (replicate VFS_MAX_NODES node_zero)
    (replicate 3 (mk_vfd None 0 true) ++ replicate (VFS_MAX_FDS - 3) (mk_vfd None 0 false))
    (replicate VFS_MAX_MOUNTS (mk_mount [] None false)).

Definition the_root : vfs_node := mk_node [SLASH] VFS_DIRECTORY 0 0 None 0 true.

Definition deref (v : vfs) (r : nref) : vfs_node :=
  match r with root_node => the_root | node_at i => nodes v !!! i end.

Definition vfs_mount (prefix : list Z) (ops : vfs_ops) (v : vfs) : vfs * Z :=
  match find_index (fun m => negb (m_in_use m)) (mounts v) with
  | Some i => (v <| mounts ::= <[i := mk_mount (take 31 prefix) (Some ops) true]> |>, 0)
  | None => (v, -1)
  end.

Definition vfs_register_node (nm : list Z) (type : Z) (v : vfs) : vfs * option nat :=
  match find_index (fun n => negb (n_in_use n)) (nodes v) with
  | Some i => (v <| nodes ::= <[i := mk_node (take (VFS_MAX_NAME - 1) nm) type 0 0 None 0 true]> |>, Some i)
  | None => (v, None)
  end.

(** The path is the prefix, or goes on with a slash behind it. *)
Definition under (prefix path : list Z) : bool :=
  bool_decide (take (length prefix) path = prefix) &&
  match path !! length prefix with None => true | Some c => c =? SLASH end.

Definition vfs_find_mount (path : list Z) (v : vfs) : option nat :=
  find_index (fun m => m_in_use m && under (m_prefix m) path) (mounts v).

Definition vfs_get_mount_ops (path : list Z) (v : vfs) : option vfs_ops :=
  i ← vfs_find_mount path v; m_ops (mounts v !!! i).

Definition vfs_lookup (path : list Z) (v : vfs) : option nref :=
  if bool_decide (path = [SLASH]) then Some root_node else
  let nm := match path with c :: p => if c =? SLASH then p else path | [] => [] end in
  match nm with
  | [] => Some root_node
  | _ :: _ => node_at <$> find_index (fun n => n_in_use n && bool_decide (n_name n = nm)) (nodes v)
  end.

Definition vfs_open (path : list Z) (v : vfs) : vfs * Z :=
  match vfs_lookup path v with
  | None => (v, -1)
  | Some r =>
      match find_index (fun f => negb (f_in_use f)) (drop 3 (fd_tab v)) with
      | Some i => (v <| fd_tab ::= <[(3 + i)%nat := mk_vfd (Some r) 0 true]> |>, 3 + Z.of_nat i)
      | None => (v, -1)
      end
  end.

Definition bad_vfd (v : vfs) (lo fd : Z) : bool := (fd <? lo) || (Z.of_nat VFS_MAX_FDS <=? fd) || negb (f_in_use (zget (fd_tab v) fd)).

Definition vfs_close (fd : Z) (v : vfs) : vfs * Z :=
  if bad_vfd v 3 fd then (v, -1) else (v <| fd_tab ::= fun l => zset l fd (mk_vfd None 0 false) |>, 0).

(** The name of the [index]th node in use. *)
Fixpoint nth_node (ns : list vfs_node) (index : Z) : option (list Z) :=
  match ns with
  | [] => None
  | n :: ns' => if n_in_use n then if index =? 0 then Some (n_name n) else nth_node ns' (index - 1) else nth_node ns' index
  end.

(** The name stored, cut to the buffer. *)
Definition vfs_readdir (path : list Z) (index name_size : Z) (v : vfs) : option (list Z) :=
  if negb (bool_decide (path = [SLASH])) && negb (bool_decide (path = [])) then None
  else take (Z.to_nat (name_size - 1)) <$> nth_node (nodes v) index.

(** ** The world the file systems see *)

Record world := mk_world { w_vfs : vfs; w_io : Dev.io; w_sched : sched; w_fs : Ext2.ext2; w_kmem : Z -> Z }.
#[export] Instance eta_world : Eta world := fun w => mk_world (w_vfs w) (w_io w) (w_sched w) (w_fs w) (w_kmem w).

Inductive outcome :=
| Done (r : Z) (bytes : list Z)
| Sleeps
| Wild.

(** ** RAM files *)

Definition ramfs_read (n : vfs_node) (offset size : Z) (w : world) : outcome :=
  if n_data n =? 0 then Done (-1) [] else
  if n_size n <=? offset then Done 0 [] else
  let remaining := n_size n - offset in
  let to_read := if size <? remaining then size else remaining in
  Done (s32 to_read) (w_kmem w <$> seqZ (n_data n + offset) to_read).

Definition ramfs_add_file (nm : list Z) (data size : Z) (v : vfs) : vfs * Z :=
  match vfs_register_node nm VFS_FILE v with
  | (v, None) => (v, -1)
  | (v, Some i) => (v <| nodes ::= alter (fun n => n <| n_data := data |> <| n_size := size |> <| n_ops := Some ramfs_ops |>) i |>, 0)
  end.

(** The address and the size of the file's data. *)
Definition ramfs_get_file_data (nm : list Z) (v : vfs) : option (Z * Z) :=
  let again := match nm with c :: _ => negb (c =? SLASH) | [] => true end in
  let r := match vfs_lookup nm v with
           | Some r => Some r
           | None => if again then vfs_lookup (SLASH :: take (VFS_MAX_NAME - 1) nm) v else None
           end in
  match r with
  | None => None
  | Some r => let n := deref v r in if n_type n =? VFS_FILE then Some (n_data n, n_size n) else None
  end.

(** ** Device files *)

(** The name without "/dev/". *)
Definition dev_part (nm : list Z) : list Z := if bool_decide (take 5 nm = txt "/dev/") then drop 5 nm else nm.

Definition devfs_read (n : vfs_node) (offset size : Z) (w : world) : world * outcome :=
  match Dev.device_find (dev_part (n_name n)) (Dev.devices (w_io w)) with
  | None => (w, Done (-1) [])
  | Some i =>
      let d := Dev.devices (w_io w) !!! i in
      match Dev.d_ops d, Dev.d_fn d with
      | Some o, _ => let '(r, bs) := Dev.ops_read o (u32 size) offset (w_io w) in (w, Done r bs)
      | None, Some f =>
          match Dev.dev_read f (u32 size) (w_io w) (w_sched w) with
          | (io, s, Some (r, bs)) => (w <| w_io := io |> <| w_sched := s |>, Done r bs)
          | (io, s, None) => (w <| w_io := io |> <| w_sched := s |>, Sleeps)
          end
      | None, None => (w, Done (-1) [])
      end
  end.

(** [buf] are the bytes to write; the third component is what the terminal
    shows.  The size is cut to 32 bits. *)
Definition devfs_write (n : vfs_node) (offset : Z) (buf : list Z) (w : world) : world * Z * list Z :=
  let buf := take (Z.to_nat (u32 (Z.of_nat (length buf)))) buf in
  match Dev.device_find (dev_part (n_name n)) (Dev.devices (w_io w)) with
  | None => (w, -1, [])
  | Some i =>
      let d := Dev.devices (w_io w) !!! i in
      match Dev.d_ops d, Dev.d_fn d with
      | Some o, _ => let '(io, r) := Dev.ops_write o buf offset (w_io w) in (w <| w_io := io |>, r, [])
      | None, Some f => let '(io, r, out) := Dev.dev_write f buf (w_io w) in (w <| w_io := io |>, r, out)
      | None, None => (w, -1, [])
      end
  end.

(** The characters up to the first slash, and whether there is one. *)
Definition first_part (s : list Z) : list Z * bool :=
  match find_index (Z.eqb SLASH) s with Some k => (take k s, true) | None => (s, false) end.

(** The entry a device name shows in the listing of [subdir]: the rest of the
    name behind it, up to the next slash, and whether that is a directory. *)
Definition dir_entry (subdir : option (list Z)) (dname : list Z) : option (list Z * bool) :=
  match subdir with
  | Some d =>
      if bool_decide (take (length d) dname = d) && bool_decide (dname !! length d = Some SLASH)
      then Some (first_part (drop (S (length d)) dname)) else None
  | None => Some (first_part dname)
  end.

(** The walk over the devices: [out] entries were passed and the directories
    [seen] were shown.  At most 16 directories are remembered. *)
Fixpoint list_devices (subdir : option (list Z)) (names : list (list Z)) (index out : Z) (seen : list (list Z)) : option (list Z) :=
  match names with
  | [] => None
  | dname :: names' =>
      match dir_entry subdir dname with
      | None => list_devices subdir names' index out seen
      | Some (e, is_dir) =>
          if is_dir then
            let e := take (Dev.DEV_NAME_MAX - 1) e in
            if bool_decide (e ∈ seen) then list_devices subdir names' index out seen else
            let seen := if (length seen <? 16)%nat then seen ++ [e] else seen in
            if out =? index then Some e else list_devices subdir names' index (out + 1) seen
          else if out =? index then Some e else list_devices subdir names' index (out + 1) seen
      end
  end.

Definition device_names (ds : list Dev.device) : list (list Z) := Dev.d_name <$> filter (fun d => Dev.d_in_use d = true) ds.

Definition devfs_readdir (n : vfs_node) (index name_size : Z) (w : world) : option (list Z) :=
  let subdir := if bool_decide (take 5 (n_name n) = txt "/dev/") && negb (bool_decide (drop 5 (n_name n) = []))
                then Some (drop 5 (n_name n)) else None in
  take (Z.to_nat (name_size - 1)) <$> list_devices subdir (device_names (Dev.devices (w_io w))) index 0 [].

(** ** Process files *)

(** Decimal digits, most significant first; 20 are enough for 64 bits. *)
Fixpoint dec (fuel : nat) (v : Z) (acc : list Z) : list Z :=
  match fuel with
  | O => acc
  | S k => if v <=? 0 then acc else dec k (v / 10) (48 + v mod 10 :: acc)
  end.

Definition int_to_str (v : Z) : list Z :=
  let neg := v <? 0 in
  let v := if neg then - v else v in
  if v =? 0 then [48] else (if neg then [45] else []) ++ dec 20 v [].

Definition skip_slash (p : list Z) : list Z := match p with c :: p' => if c =? SLASH then p' else p | [] => [] end.

Definition is_digit (c : Z) : bool := (48 <=? c) && (c <=? 57).

Fixpoint parse_dec (p : list Z) (v : Z) : Z :=
  match p with c :: p' => if is_digit c then parse_dec p' (u32 (u32 (v * 10) + (c - 48))) else v | [] => v end.

Definition parse_pid_from_path (path : list Z) (s : sched) : Z :=
  let p := skip_slash path in
  if negb (bool_decide (take 5 p = txt "proc/")) then 0 else
  let p := drop 5 p in
  if bool_decide (take 4 p = txt "self") && match p !! 4%nat with None => true | Some c => c =? SLASH end
  then match current_process s with Some c => pid (proc_at s c) | None => 0 end
  else parse_dec p 0.

Definition get_procfs_file (path : list Z) : option (list Z) :=
  let p := skip_slash path in
  if negb (bool_decide (take 5 p = txt "proc/")) then None else
  let p := drop 5 p in
  Some (match find_index (Z.eqb SLASH) p with Some k => drop (S k) p | None => [] end).

(** The end of every generator: the part of [tmp] that was asked for. *)
Definition portion (tmp : list Z) (offset size : Z) : outcome :=
  let len := Z.of_nat (length tmp) in
  let off := if offset <? 2 ^ 63 then offset else offset - 2 ^ 64 in
  if len <=? off then Done 0 [] else
  if off <? 0 then Wild else
  let avail := len - off in
  let to_copy := if s32 size <? avail then s32 size else avail in
  if to_copy <? 0 then Wild else Done to_copy (slice tmp off to_copy).

Definition state_name (st : process_state) : list Z :=
  match st with
  | PROCESS_UNUSED => txt "UNUSED" | PROCESS_READY => txt "READY" | PROCESS_RUNNING => txt "RUNNING"
  | PROCESS_BLOCKED => txt "BLOCKED" | PROCESS_ZOMBIE => txt "ZOMBIE" | PROCESS_TERMINATED => txt "TERMINATED"
  end.

Definition field (nm v : list Z) : list Z := nm ++ v ++ [10].

Definition status_text (p : process) : list Z :=
  field (txt "PID: ") (int_to_str (pid p)) ++ field (txt "PPID: ") (int_to_str (ppid p)) ++
  field (txt "STATE: ") (state_name (state p)) ++ field (txt "NAME: ") (cut0 (name p)) ++
  field (txt "USER: ") (if is_user p then txt "yes" else txt "no").

Definition procfs_gen_status (q offset size : Z) (s : sched) : outcome :=
  match process_get_by_pid (procs s) q with
  | None => Done (-1) []
  | Some i => portion (status_text (proc_at s i)) offset size
  end.

Definition type_name (t : Z) : list Z :=
  if t =? 1 then txt "vfs" else if t =? 2 then txt "pipe_r" else if t =? 3 then txt "pipe_w" else if t =? 4 then txt "console" else [].

(** The lines of the descriptors, until more than 240 characters are there. *)
Fixpoint fd_lines (fds : list process_fd) (i : nat) (tmp : list Z) : list Z :=
  match fds with
  | [] => tmp
  | f :: fds' =>
      if fd_type f =? FD_NONE then fd_lines fds' (S i) tmp else
      let tmp := tmp ++ int_to_str (Z.of_nat i) ++ txt ": " ++ type_name (fd_type f) ++ [10] in
      if 240 <? Z.of_nat (length tmp) then tmp else fd_lines fds' (S i) tmp
  end.

Definition procfs_gen_fd (q offset size : Z) (s : sched) : outcome :=
  match process_get_by_pid (procs s) q with
  | None => Done (-1) []
  | Some i => portion (fd_lines (fd_table (proc_at s i)) 0 []) offset size
  end.

Definition NET_IP : Z := 0x0A00020F.
Definition NET_NETMASK : Z := 0xFFFFFF00.

Definition dotted (a : Z) : list Z :=
  int_to_str (Z.land (Z.shiftr a 24) 255) ++ [46] ++ int_to_str (Z.land (Z.shiftr a 16) 255) ++ [46] ++
  int_to_str (Z.land (Z.shiftr a 8) 255) ++ [46] ++ int_to_str (Z.land a 255).

Definition net_if_text : list Z := field (txt "IP: ") (dotted NET_IP) ++ field (txt "NETMASK: ") (dotted NET_NETMASK).

Definition ext2_text (fs : Ext2.ext2) : list Z :=
  if negb (Ext2.ext2_mounted fs) then field (txt "ext2: not mounted") [] else
  match Ext2.ext2_get_stats fs with
  | None => field (txt "ext2: error") []
  | Some (tb, fb, ti, fi, bs) =>
      field (txt "total_blocks: ") (int_to_str tb) ++ field (txt "free_blocks: ") (int_to_str fb) ++
      field (txt "total_inodes: ") (int_to_str ti) ++ field (txt "free_inodes: ") (int_to_str fi) ++
      field (txt "block_size: ") (int_to_str bs)
  end.

Definition procfs_read (n : vfs_node) (offset size : Z) (w : world) : outcome :=
  let p := skip_slash (n_name n) in
  if bool_decide (take 11 p = txt "proc/net/if") then portion net_if_text offset size else
  if bool_decide (take 12 p = txt "proc/net/tcp") then portion (field (txt "Proto  Local           Remote") []) offset size else
  if bool_decide (take 12 p = txt "proc/fs/ext2") then portion (ext2_text (w_fs w)) offset size else
  let q := parse_pid_from_path (n_name n) (w_sched w) in
  if q =? 0 then Done (-1) [] else
  match get_procfs_file (n_name n) with
  | None => Done (-1) []
  | Some f =>
      if bool_decide (f = txt "status") then procfs_gen_status q offset size (w_sched w)
      else if bool_decide (f = txt "fd") then procfs_gen_fd q offset size (w_sched w)
      else Done (-1) []
  end.

(** ** Dispatch *)

Definition node_read (n : vfs_node) (offset size : Z) (w : world) : world * outcome :=
  match n_ops n with
  | None => (w, Done (-1) [])
  | Some ramfs_ops => (w, ramfs_read n offset size w)
  | Some devfs_ops => devfs_read n offset size w
  | Some procfs_ops => (w, procfs_read n offset size w)
  end.

(** Only device files can be written. *)
Definition node_write (n : vfs_node) (offset : Z) (buf : list Z) (w : world) : world * Z * list Z :=
  match n_ops n with Some devfs_ops => devfs_write n offset buf w | _ => (w, -1, []) end.

Definition advance (fd r : Z) (w : world) : world :=
  if 0 <? r then w <| w_vfs ::= fun v => v <| fd_tab ::= fun l => zset l fd (let f := zget l fd in mk_vfd (f_node f) (u64 (f_offset f + r)) (f_in_use f)) |> |> else w.

Definition vfs_read (fd size : Z) (w : world) : world * outcome :=
  if bad_vfd (w_vfs w) 0 fd then (w, Done (-1) []) else
  let f := zget (fd_tab (w_vfs w)) fd in
  match f_node f with
  | None => (w, Done (-1) [])
  | Some r =>
      match node_read (deref (w_vfs w) r) (f_offset f) size w with
      | (w, Done k bs) => (advance fd k w, Done k bs)
      | (w, o) => (w, o)
      end
  end.

Definition vfs_write (fd : Z) (buf : list Z) (w : world) : world * Z * list Z :=
  if bad_vfd (w_vfs w) 0 fd then (w, -1, []) else
  let f := zget (fd_tab (w_vfs w)) fd in
  match f_node f with
  | None => (w, -1, [])
  | Some r => let '(w, k, out) := node_write (deref (w_vfs w) r) (f_offset f) buf w in (advance fd k w, k, out)
  end.

(** ** Mounts and descriptors *)

Lemma under_spec prefix path : under prefix path = true <-> path = prefix \/ exists rest, path = prefix ++ SLASH :: rest.
Proof.
  unfold under. rewrite andb_true_iff, bool_decide_eq_true. split.
  - intros [Ht Hc]. rewrite <- (take_drop (length prefix) path), Ht. destruct (path !! length prefix) as [c|] eqn:E.
    + right. apply Z.eqb_eq in Hc as ->. exists (drop (S (length prefix)) path). by rewrite (drop_S _ _ _ E).
    + left. apply lookup_ge_None in E. by rewrite drop_ge, app_nil_r.
  - intros [-> |[rest ->]].
    + split; [by rewrite take_ge|]. by rewrite lookup_ge_None_2.
    + split; [by rewrite take_app_length|]. by rewrite list_lookup_middle.
Qed.

(** ** Listing devices *)

Definition shown (sub : option (list Z)) (dname e : list Z) (is_dir : bool) : Prop :=
  exists e', dir_entry sub dname = Some (e', is_dir) /\ e = if is_dir then take (Dev.DEV_NAME_MAX - 1) e' else e'.

Lemma list_devices_spec sub names e out seen :
  (exists index, out <= index /\ list_devices sub names index out seen = Some e) <->
  (exists dname b, dname ∈ names /\ shown sub dname e b /\ (b = true -> e ∉ seen)).
Proof.
  revert out seen. induction names as [|d names IH]; intros out seen; cbn [list_devices].
  { split; [by intros (i & _ & ?)|by intros (d & b & ?%elem_of_nil & _)]. }
  destruct (dir_entry sub d) as [[e0 b0]|] eqn:Ed; cycle 1.
  { rewrite IH. split; intros (d' & b & Hd & Hs); [exists d', b; split; [by right|done]|]. exists d', b. split; [|done]. apply elem_of_cons in Hd as [-> |Hd]; [|done].
    destruct Hs as [(e' & E & _) _]. congruence. }
  set (e1 := if b0 then take (Dev.DEV_NAME_MAX - 1) e0 else e0). assert (shown sub d e1 b0) as Hs0 by by exists e0.
  assert (forall b, shown sub d e b -> e = e1 /\ b = b0) as Huniq by (intros b (e' & E & ->); rewrite Ed in E; by injection E as <- <-).
  assert (forall seen', (b0 = true -> e1 ∉ seen) -> (forall x, x ∈ seen -> x ∈ seen') -> (forall x, x ∈ seen' -> x ∈ seen \/ (x = e1 /\ b0 = true)) ->
    (exists index, out <= index /\ (if out =? index then Some e1 else list_devices sub names index (out + 1) seen') = Some e) <->
    (exists dname b, dname ∈ d :: names /\ shown sub dname e b /\ (b = true -> e ∉ seen))) as Hstep.
  { intros seen' Hn Hin Hout. split.
    - intros (i & Hi & H). destruct (Z.eqb_spec out i); [injection H as <-; exists d, b0; split; [by left|done]|].
      destruct (proj1 (IH (out + 1) seen')) as (d' & b & Hd & Hs & Hb); [exists i; split; [lia|done]|]. exists d', b. split; [by right|]. split; [done|]. intros Eb Hx. apply Hb; [done|by apply Hin].
    - intros (d' & b & Hd & Hs & Hb). destruct (decide (e = e1)) as [-> |Hne]; [exists out; split; [lia|by rewrite Z.eqb_refl]|].
      apply elem_of_cons in Hd as [-> |Hd]; [by destruct (Huniq b Hs)|].
      destruct (proj2 (IH (out + 1) seen')) as (i & Hi & H); [exists d', b; split_and!; [done|done|]; intros Eb Hx; destruct (Hout e Hx) as [?|[? _]]; [by apply Hb|done]|].
      exists i. split; [lia|]. by replace (out =? i) with false by lia. }
  destruct b0; cycle 1. { apply (Hstep seen); [done|done|by left]. }
  fold e1. case_bool_decide as Hseen.
  - rewrite IH. split; intros (d' & b & Hd & Hs & Hb); exists d', b; (split; [|done]); [by right|]. apply elem_of_cons in Hd as [-> |Hd]; [|done]. destruct (Huniq b Hs) as [-> ->]. by destruct Hb.
  - apply Hstep; [done| |]; destruct (length seen <? 16)%nat; try done.
    + intros x Hx. apply elem_of_app. by left.
    + intros x [Hx| ->%list_elem_of_singleton]%elem_of_app; [by left|by right].
    + intros x Hx. by left.
Qed.

(** ** Reading a file piece by piece *)

(** A node with the fixed contents [c]. *)
Definition serves (n : vfs_node) (c : list Z) (w : world) : Prop :=
  forall v offset size, 0 <= offset < 2 ^ 63 -> 0 <= size < 2 ^ 31 ->
  node_read n offset size (w <| w_vfs := v |>) = (w <| w_vfs := v |>, Done (Z.of_nat (length (slice c offset size))) (slice c offset size)).

Lemma ramfs_serves nm t data size k w : data <> 0 -> 0 <= size < 2 ^ 31 ->
  serves (mk_node nm t size data (Some ramfs_ops) k true) (w_kmem w <$> seqZ data size) w.
Proof.
  intros Hd Hs v off sz Ho Hz. unfold node_read, ramfs_read. cbn [n_ops n_data n_size]. replace (data =? 0) with false by lia. f_equal.
  destruct (Z.leb_spec size off) as [Hle|Hgt].
  - unfold slice. rewrite drop_ge by (rewrite length_fmap, length_seqZ; lia). by rewrite take_nil.
  - set (n := if sz <? size - off then sz else size - off). assert (n = Z.min sz (size - off)) as En by (unfold n; destruct (Z.ltb_spec sz (size - off)); lia). clearbody n. change (w_kmem (w <| w_vfs := v |>)) with (w_kmem w).
    assert (slice (w_kmem w <$> seqZ data size) off sz = w_kmem w <$> seqZ (data + off) n) as ->; [|rewrite length_fmap, length_seqZ, Z2Nat.id by lia; by rewrite s32_small by lia].
    unfold slice. rewrite <- fmap_drop, <- fmap_take. f_equal. apply list_eq. intros i. destruct (decide (Z.of_nat i < n)).
    + rewrite lookup_take_lt, lookup_drop by lia. rewrite !(proj2 (lookup_seqZ _ _ _ _)) by (split; [reflexivity|lia]). f_equal. lia.
    + rewrite (lookup_seqZ_ge _ _ i) by lia. apply lookup_ge_None. rewrite length_take, length_drop, length_seqZ. lia.
Qed.

Lemma portion_serves c offset size : 0 <= offset < 2 ^ 63 -> 0 <= size < 2 ^ 31 -> Z.of_nat (length c) < 2 ^ 31 ->
  portion c offset size = Done (Z.of_nat (length (slice c offset size))) (slice c offset size).
Proof.
  intros Ho Hs Hc. unfold portion. replace (offset <? 2 ^ 63) with true by lia.
  destruct (Z.leb_spec (Z.of_nat (length c)) offset); [unfold slice; rewrite drop_ge by lia; by rewrite take_nil|].
  replace (offset <? 0) with false by lia. rewrite s32_small by lia. set (n := if size <? _ then _ else _). assert (n = Z.min size (Z.of_nat (length c) - offset)) as En by (unfold n; destruct (Z.ltb_spec size (Z.of_nat (length c) - offset)); lia). clearbody n.
  replace (n <? 0) with false by lia. assert (slice c offset size = slice c offset n) as ->.
  { unfold slice. destruct (decide (size <= Z.of_nat (length c) - offset)); [by replace n with size by lia|]. rewrite !take_ge by (rewrite length_drop; lia). done. }
  rewrite length_slice by lia. by rewrite Z2Nat.id by lia.
Qed.

Lemma slice_next {A} (c : list A) o n k : 0 <= o -> 0 <= n -> 0 <= k ->
  slice c o n ++ slice c (o + Z.of_nat (length (slice c o n))) k = slice c o (n + k).
Proof.
  intros Ho Hn Hk. unfold slice. rewrite length_take, length_drop. destruct (decide (Z.of_nat (length c) - o <= n)).
  - rewrite (take_ge (drop (Z.to_nat o) c)) by (rewrite length_drop; lia). rewrite (drop_ge c (Z.to_nat (o + _))) by lia. rewrite take_nil, app_nil_r, take_ge by (rewrite length_drop; lia). done.
  - replace (Z.to_nat (n + k)) with (Z.to_nat n + Z.to_nat k)%nat by lia. rewrite <- take_take_drop, drop_drop. do 2 f_equal. f_equal. lia.
Qed.

(** Reads of the given sizes, one after the other, and all their bytes. *)
Fixpoint read_seq (fd : Z) (sizes : list Z) (w : world) : world * option (list Z) :=
  match sizes with
  | [] => (w, Some [])
  | n :: sizes' =>
      match vfs_read fd n w with
      | (w, Done _ bs) => let '(w, rest) := read_seq fd sizes' w in (w, app bs <$> rest)
      | (w, _) => (w, None)
      end
  end.

(** The descriptor [fd] is open on [r] at offset [o]. *)
Record open_at (v : vfs) (fd : Z) (r : nref) (o : Z) : Prop := mk_open_at {
  oa_len : length (fd_tab v) = VFS_MAX_FDS;
  oa_fd : 0 <= fd < 64;
  oa_get : zget (fd_tab v) fd = mk_vfd (Some r) o true
}.

Lemma read_step w fd r o c n : open_at (w_vfs w) fd r o -> serves (deref (w_vfs w) r) c w -> 0 <= o -> o + n < 2 ^ 63 -> 0 <= n < 2 ^ 31 ->
  let bs := slice c o n in
  exists v, vfs_read fd n w = (w <| w_vfs := v |>, Done (Z.of_nat (length bs)) bs) /\ nodes v = nodes (w_vfs w) /\ open_at v fd r (o + Z.of_nat (length bs)).
Proof.
  intros [Hl Hf Hg] Hs Ho Hb Hn bs. unfold vfs_read, bad_vfd. rewrite Hg. replace (fd <? 0) with false by lia. change (Z.of_nat VFS_MAX_FDS) with 64. replace (64 <=? fd) with false by lia. cbn [f_in_use f_node f_offset negb orb].
  pose proof (Hs (w_vfs w) o n ltac:(lia) Hn) as E. replace (w <| w_vfs := w_vfs w |>) with w in E by by destruct w. rewrite E. fold bs. unfold advance.
  assert (Z.of_nat (length bs) <= n) as Hbs by (unfold bs, slice; rewrite length_take; lia).
  destruct (Z.ltb_spec 0 (Z.of_nat (length bs))) as [Hp|Hz].
  - eexists. split; [reflexivity|]. split; [done|]. split; cbn [fd_tab upd]; unfold upd; cbn; [by rewrite length_zset|done|].
    rewrite zget_zset_eq by (rewrite Hl; unfold VFS_MAX_FDS; lia). rewrite Hg. cbn. f_equal. apply u64_small. lia.
  - exists (w_vfs w). replace (w <| w_vfs := w_vfs w |>) with w by by destruct w. split_and!; [done|done|]. replace (o + Z.of_nat (length bs)) with o by lia. done.
Qed.

Lemma read_seq_spec w fd r o c sizes : open_at (w_vfs w) fd r o -> serves (deref (w_vfs w) r) c w -> 0 <= o ->
  Forall (fun n => 0 <= n < 2 ^ 31) sizes -> o + foldr Z.add 0 sizes < 2 ^ 63 -> (read_seq fd sizes w).2 = Some (slice c o (foldr Z.add 0 sizes)).
Proof.
  intros Hop Hs Ho Hn. revert w o Hop Hs Ho. induction Hn as [|n sizes Hn Hns IH]; intros w o Hop Hs Ho Hb; cbn [read_seq foldr snd] in *; [by unfold slice; rewrite take_0|].
  assert (0 <= foldr Z.add 0 sizes) as Hsum by (clear -Hns; induction Hns; cbn; lia).
  destruct (read_step w fd r o c n Hop Hs Ho ltac:(lia) Hn) as (v & -> & En & Hop').
  assert (Z.of_nat (length (slice c o n)) <= n) as Hbs by (unfold slice; rewrite length_take; lia).
  assert (deref v r = deref (w_vfs w) r) as Er by (destruct r; cbn; [done|by rewrite En]).
  specialize (IH (w <| w_vfs := v |>) (o + Z.of_nat (length (slice c o n))) Hop'). destruct (read_seq fd sizes (w <| w_vfs := v |>)) as [w2 rest]. cbn [snd] in *.
  rewrite IH; [|change (w_vfs (w <| w_vfs := v |>)) with v; rewrite Er; exact Hs|lia|lia]. cbn. f_equal. apply slice_next; lia.
Qed.

(** ** Numbers in paths *)

Lemma dec_app k v acc rest : dec k v (acc ++ rest) = dec k v acc ++ rest.
Proof. revert v acc. induction k as [|k IH]; intros v acc; [done|]. cbn [dec]. case_if; [done|]. exact (IH (v / 10) (48 + v mod 10 :: acc)). Qed.

Lemma dec_digits k v acc : Forall (fun c => is_digit c = true) acc -> Forall (fun c => is_digit c = true) (dec k v acc).
Proof.
  revert v acc. induction k as [|k IH]; intros v acc Ha; [done|]. cbn [dec]. case_if; [done|]. apply IH. constructor; [|done]. unfold is_digit. zsolve.
Qed.

Lemma dec_length k v acc : (length (dec k v acc) <= k + length acc)%nat.
Proof. revert v acc. induction k as [|k IH]; intros v acc; cbn [dec]; [lia|]. case_if; [lia|]. etrans; [apply IH|]. cbn. lia. Qed.

Lemma parse_dec_dec k v acc : 0 <= v < 10 ^ Z.of_nat k -> v < 2 ^ 32 -> parse_dec (dec k v acc) 0 = parse_dec acc v.
Proof.
  revert v acc. induction k as [|k IH]; intros v acc Hv H32; cbn [dec]; [by replace v with 0 by lia|]. destruct (Z.leb_spec v 0); [by replace v with 0 by lia|].
  rewrite IH by (rewrite Nat2Z.inj_succ, Z.pow_succ_r in Hv by lia; zsolve). cbn [parse_dec]. replace (is_digit (48 + v mod 10)) with true by (unfold is_digit; zsolve). f_equal. zsolve.
Qed.

Lemma int_to_str_pos v : 0 < v -> int_to_str v = dec 20 v [].
Proof. intros Hv. unfold int_to_str. replace (v <? 0) with false by lia. by replace (v =? 0) with false by lia. Qed.

Definition status_path (q : Z) : list Z := txt "/proc/" ++ int_to_str q ++ txt "/status".

Lemma digits_no_slash l rest : Forall (fun c => is_digit c = true) l -> find_index (Z.eqb SLASH) (l ++ SLASH :: rest) = Some (length l).
Proof.
  intros Hl. induction Hl as [|c l Hc _ IH]; [done|]. cbn [app find_index length]. replace (SLASH =? c) with false by (unfold is_digit, SLASH in *; lia). by rewrite IH.
Qed.

Lemma status_path_spec q s : 0 < q < 2 ^ 32 -> parse_pid_from_path (status_path q) s = q /\ get_procfs_file (status_path q) = Some (txt "status") /\
  exists d rest, is_digit d = true /\ skip_slash (status_path q) = txt "proc/" ++ d :: rest.
Proof.
  intros Hq. unfold parse_pid_from_path, get_procfs_file. unfold status_path. rewrite int_to_str_pos by lia. pose proof (dec_digits 20 q [] ltac:(constructor)) as Hd.
  assert (dec 20 q [] <> []) as Hne.
  { intros E. pose proof (parse_dec_dec 20 q [] ltac:(cbn; lia) ltac:(lia)) as H. rewrite E in H. cbn in H. lia. }
  assert (parse_dec (dec 20 q [] ++ txt "/status") 0 = q) as Ep by (rewrite <- dec_app; rewrite parse_dec_dec by (cbn; lia); done).
  pose proof (digits_no_slash (dec 20 q []) (txt "status") Hd) as Ef. destruct (dec 20 q []) as [|d rest]; [done|]. apply Forall_cons in Hd as [Hd _].
  change (skip_slash (txt "/proc/" ++ (d :: rest) ++ txt "/status")) with (txt "proc/" ++ d :: rest ++ txt "/status").
  change (take 5 (txt "proc/" ++ d :: rest ++ txt "/status")) with (txt "proc/"). change (drop 5 (txt "proc/" ++ d :: rest ++ txt "/status")) with ((d :: rest) ++ txt "/status").
  rewrite bool_decide_true by done. cbn [negb]. split_and!; [| |by eexists d, _]; cycle 1.
  { change (txt "/status") with (SLASH :: txt "status"). rewrite Ef. f_equal. rewrite cons_middle, app_assoc. apply drop_app_length'. rewrite length_app. cbn [length]. lia. }
  rewrite bool_decide_false; [done|]. intros E. apply (f_equal head) in E. cbn in E. injection E as ->. done.
Qed.

(** A node of a /proc file is read by the generator of its text. *)
Lemma status_serves q i n w : 0 < q < 2 ^ 32 -> n_name n = status_path q -> n_ops n = Some procfs_ops ->
  process_get_by_pid (procs (w_sched w)) q = Some i -> Z.of_nat (length (status_text (proc_at (w_sched w) i))) < 2 ^ 31 ->
  serves n (status_text (proc_at (w_sched w) i)) w.
Proof.
  intros Hq Hn Ho Hi Hl v off size Hoff Hsize. destruct (status_path_spec q (w_sched w) Hq) as (E1 & E2 & d & rest & Hd & E3).
  unfold node_read. rewrite Ho. f_equal. unfold procfs_read. rewrite Hn, E3. change (w_sched (w <| w_vfs := v |>)) with (w_sched w). rewrite E1, E2.
  assert (forall k (p : list Z) c l, p = txt "proc/" ++ c :: l -> is_digit c = false -> (5 < k)%nat -> bool_decide (take k (txt "proc/" ++ d :: rest) = p) = false) as Hno.
  { intros k p c l -> Hc Hk. apply bool_decide_false. intros E. apply (f_equal (fun l => l !! 5%nat)) in E. rewrite lookup_take_lt in E by done. cbn in E. injection E as ->. congruence. }
  rewrite (Hno 11%nat (txt "proc/net/if") 110 (txt "et/if")), (Hno 12%nat (txt "proc/net/tcp") 110 (txt "et/tcp")), (Hno 12%nat (txt "proc/fs/ext2") 102 (txt "s/ext2")) by (done || lia).
  replace (q =? 0) with false by lia. rewrite bool_decide_true by done. unfold procfs_gen_status. rewrite Hi. by apply portion_serves.
Qed.

Lemma txt_length_small p : (length (name p) <= 32)%nat -> Z.of_nat (length (status_text p)) < 2 ^ 31.
Proof.
  intros Hn. assert (forall v, (length (int_to_str v) <= 21)%nat) as Hi.
  { intros v. unfold int_to_str. repeat case_if; cbn [length app]; rewrite ?length_app; cbn [length]; pose proof (dec_length 20 v []); pose proof (dec_length 20 (- v) []); cbn [length] in *; lia. }
  unfold status_text, field. rewrite !length_app. pose proof (Hi (pid p)). pose proof (Hi (ppid p)).
  assert (length (cut0 (name p)) <= 32)%nat by (unfold cut0; rewrite length_take; lia). assert (length (state_name (state p)) <= 10)%nat by (destruct (state p); cbn; lia).
  assert (length (if is_user p then txt "yes" else txt "no") <= 3)%nat by (destruct (is_user p); cbn; lia). cbn [length]. change (length (txt "PID: ")) with 5%nat. change (length (txt "PPID: ")) with 6%nat.
  change (length (txt "STATE: ")) with 7%nat. change (length (txt "NAME: ")) with 6%nat. change (length (txt "USER: ")) with 6%nat. lia.
Qed.

(** The descriptor that [vfs_open] hands out. *)
Lemma vfs_open_spec path v v' fd : length (fd_tab v) = VFS_MAX_FDS -> vfs_open path v = (v', fd) -> fd <> -1 ->
  exists r, vfs_lookup path v = Some r /\ nodes v' = nodes v /\ open_at v' fd r 0 /\ 3 <= fd.
Proof.
  intros Hl. unfold vfs_open. destruct (vfs_lookup path v) as [r|]; [|by intros [= <- <-]]. destruct (find_index _ (drop 3 (fd_tab v))) as [i|] eqn:E; [|by intros [= <- <-]].
  intros [= <- <-] _. exists r. apply find_index_lt in E. rewrite length_drop, Hl in E. unfold VFS_MAX_FDS in *. split_and!; [done|done| |lia]. split; cbn; [by rewrite length_insert|lia|].
  unfold zget. replace (Z.to_nat (3 + Z.of_nat i)) with (3 + i)%nat by lia. rewrite list_lookup_total_insert_eq; [done|lia].
Qed.

Lemma ramfs_add_spec nm data size v v' : ramfs_add_file nm data size v = (v', 0) ->
  exists i, (i < length (nodes v))%nat /\ nodes v' = <[i := mk_node (take 31 nm) VFS_FILE size data (Some ramfs_ops) 0 true]> (nodes v) /\ fd_tab v' = fd_tab v /\
    forall j, (j < i)%nat -> n_in_use (nodes v !!! j) = true.
Proof.
  unfold ramfs_add_file, vfs_register_node. destruct (find_index _ (nodes v)) as [i|] eqn:E; [|by intros [= ?]]. intros [= <-]. exists i. pose proof (find_index_lt _ _ _ E) as Hi. split_and!; [done| |done|].
  - cbn. rewrite (list_alter_insert_at _ _ _ (mk_node (take 31 nm) VFS_FILE 0 0 None 0 true)) by by apply list_lookup_insert_eq. by rewrite list_insert_insert_eq.
  - intros j Hj. destruct (find_index_Some _ _ _ E) as (_ & _ & _ & Hb). destruct (lookup_lt_is_Some_2 (nodes v) j ltac:(lia)) as [x Hx]. specialize (Hb j x Hj Hx). rewrite (list_lookup_total_correct _ _ _ Hx). by apply negb_false_iff in Hb.
Qed.

(** ** Claims *)

(** C30: a RAM file is read back as it was added: after [ramfs_add_file] under a new
    name, opening the name and reading in pieces of any sizes delivers the
    bytes of the file in order and nothing behind its end. *)
Theorem ram_file_reads nm data size w v1 v2 fd sizes :
  length (fd_tab (w_vfs w)) = VFS_MAX_FDS -> nm <> [] -> head nm <> Some SLASH -> (length nm <= 31)%nat -> data <> 0 -> 0 <= size < 2 ^ 31 ->
  Forall (fun n => n_in_use n = true -> n_name n <> nm) (nodes (w_vfs w)) ->
  ramfs_add_file nm data size (w_vfs w) = (v1, 0) -> vfs_open (SLASH :: nm) v1 = (v2, fd) -> fd <> -1 ->
  Forall (fun n => 0 <= n < 2 ^ 31) sizes -> foldr Z.add 0 sizes < 2 ^ 63 ->
  (read_seq fd sizes (w <| w_vfs := v2 |>)).2 = Some (slice (w_kmem w <$> seqZ data size) 0 (foldr Z.add 0 sizes)).
Proof.
  intros Hl Hne Hh Hlen Hd Hs Hfresh Ha Ho Hfd Hsz Hsum. destruct (ramfs_add_spec _ _ _ _ _ Ha) as (i & Hi & En & Ef & Hb).
  destruct (vfs_open_spec (SLASH :: nm) v1 v2 fd) as (r & Hr & En2 & Hop & _); [by rewrite Ef|done|done|].
  assert (r = node_at i) as ->.
  { unfold vfs_lookup in Hr. rewrite bool_decide_false in Hr by (by intros [= ->]). cbn in Hr. destruct nm as [|c nm]; [done|].
    apply fmap_Some in Hr as (j & Hj & ->). f_equal. rewrite En in Hj. rewrite (find_index_unique _ _ i (mk_node (c :: nm) VFS_FILE size data (Some ramfs_ops) 0 true)) in Hj; [congruence|by rewrite list_lookup_insert_eq, take_ge by done| |].
    - cbn. by rewrite bool_decide_true.
    - intros k y Hk Hy. rewrite list_lookup_insert_ne in Hy by lia. destruct (n_in_use y) eqn:Eu; [|done]. cbn. apply bool_decide_false. by apply (Forall_lookup_1 _ _ _ _ Hfresh Hy). }
  apply (read_seq_spec (w <| w_vfs := v2 |>) fd (node_at i)); [done| |lia|done|lia].
  change (w_vfs (w <| w_vfs := v2 |>)) with v2. cbn [deref]. rewrite En2, En, list_lookup_total_insert_eq by done. exact (ramfs_serves (take 31 nm) VFS_FILE data size 0 w Hd Hs).
Qed.

(** The status file of a process describes it: through a descriptor on
    /proc/<pid>/status, reads of any sizes deliver the text of the process with
    that pid, piece by piece. *)
Theorem proc_status_reads q i r fd sizes w :
  0 < q < 2 ^ 32 -> process_get_by_pid (procs (w_sched w)) q = Some i -> (length (name (proc_at (w_sched w) i)) <= 32)%nat ->
  open_at (w_vfs w) fd r 0 -> n_name (deref (w_vfs w) r) = status_path q -> n_ops (deref (w_vfs w) r) = Some procfs_ops ->
  Forall (fun n => 0 <= n < 2 ^ 31) sizes -> foldr Z.add 0 sizes < 2 ^ 63 ->
  (read_seq fd sizes w).2 = Some (slice (status_text (proc_at (w_sched w) i)) 0 (foldr Z.add 0 sizes)).
Proof.
  intros Hq Hi Hn Hop Hnm Hops Hs Hb. apply (read_seq_spec w fd r); [done| |lia|done|lia]. apply (status_serves q); [done|done|done|done|by apply txt_length_small].
Qed.

(** The listing of /dev, or of a directory in it, is complete and sound: a
    name appears at some index exactly when a registered device shows it there,
    as the device itself or as the first directory on the way to it. *)
Theorem devfs_lists_devices sub ds e :
  (exists index, 0 <= index /\ list_devices sub (device_names ds) index 0 [] = Some e) <->
  (exists d b, d ∈ ds /\ Dev.d_in_use d = true /\ shown sub (Dev.d_name d) e b).
Proof.
  rewrite list_devices_spec. unfold device_names. split.
  - intros (nm & b & Hn & Hs & _). apply list_elem_of_fmap in Hn as (d & -> & Hd). rewrite list_elem_of_filter in Hd. destruct Hd. by exists d, b.
  - intros (d & b & Hd & Hu & Hs). exists (Dev.d_name d), b. split_and!; [|done|by intros _ ?%elem_of_nil]. apply list_elem_of_fmap. exists d. split; [done|]. by rewrite list_elem_of_filter.
Qed.

(** A read of 2^31 bytes or more from a process file is taken for a negative
    length, which the copy at the end of the generator turns into a huge one. *)
Theorem proc_read_wild c offset size :
  c <> [] -> 0 <= offset < Z.of_nat (length c) -> Z.of_nat (length c) < 2 ^ 31 -> 2 ^ 31 <= size < 2 ^ 32 -> portion c offset size = Wild.
Proof.
  intros Hc Ho Hl Hs. unfold portion. replace (offset <? 2 ^ 63) with true by lia. replace (Z.of_nat (length c) <=? offset) with false by lia. replace (offset <? 0) with false by lia.
  assert (s32 size < 0) as Hn by (unfold s32; cbn; case_if; b2p; zsolve). replace (s32 size <? Z.of_nat (length c) - offset) with true by lia. by replace (s32 size <? 0) with true by lia.
Qed.

(** ** A concrete world *)

Definition demo_io : Dev.io :=
  Dev.mk_io (Dev.device_register (txt "null") Dev.null_fn Dev.device_init).1 1 Dev.mouse_zero Tty.kbd_init Tty.tty_init (Dev.mk_fb 0 0 0 0 0) ∅ true.

Definition demo_process : process := process_zero <| pid := 7 |> <| name := txt "init" ++ replicate 28 0 |> <| state := PROCESS_RUNNING |>.

Definition demo_world : world :=
  mk_world vfs_init demo_io (mk_sched [process_zero; demo_process] (Some 1%nat) None None 0 true 0 0 0) Ext2.demo_ext2 (fun a => a mod 256).

Definition demo_added : vfs := (ramfs_add_file (txt "motd") 1000 5 vfs_init).1.
Definition demo_opened : vfs := (vfs_open (SLASH :: txt "motd") demo_added).1.

Lemma ram_file_reads_witness : (read_seq 3 [2; 2; 9] (demo_world <| w_vfs := demo_opened |>)).2 = Some [232; 233; 234; 235; 236].
Proof.
  etrans; [apply (ram_file_reads (txt "motd") 1000 5 demo_world demo_added demo_opened 3 [2; 2; 9])|by vm_compute];
    [done|done|done|cbn; lia|done|done|by apply Forall_replicate|by vm_compute|by vm_compute|done|by repeat constructor|done].
Defined.

Definition demo_proc_vfs : vfs :=
  vfs_init <| nodes ::= <[0%nat := mk_node (status_path 7) VFS_FILE 0 0 (Some procfs_ops) 0 true]> |> <| fd_tab ::= <[3%nat := mk_vfd (Some (node_at 0)) 0 true]> |>.

Lemma proc_status_reads_witness : (read_seq 3 [6] (demo_world <| w_vfs := demo_proc_vfs |>)).2 = Some (txt "PID: 7").
Proof.
  etrans; [apply (proc_status_reads 7 1 (node_at 0) 3 [6] (demo_world <| w_vfs := demo_proc_vfs |>))|by vm_compute];
    [done|done|cbn; lia|by split|done|done|by repeat constructor|done].
Defined.

Lemma proc_read_wild_witness : portion net_if_text 0 (2 ^ 31) = Wild.
Proof. apply (proc_read_wild net_if_text 0 (2 ^ 31)); by vm_compute. Defined.

End Vfs.
