(* ===== verification/Elf.v ===== *)
(** * The ELF loader (kernel/elf/elf_loader.c, elf.h)

    An image is a range of kernel memory, read byte by byte through a function
    from addresses to bytes.  Segments are loaded into an address space of
    [Vm], page by page or as areas of [Mmap] that the page fault handler fills;
    the interpreter is read through [Ext2] into a block of [Kheap].  The
    theorems describe what the program then sees at its virtual addresses. *)

From stdpp Require Import prelude gmap.
From Stdlib Require Import ZArith Lia.
From S2P Require Import Prelude Pmm Process Sched Signal Kheap Vm Mmap Ext2 Ext2Dir.
Import Process Sched Signal Vm Mmap.
Local Open Scope Z_scope.

Module Elf.

#[local] Existing Instance Ext2Dir.answer_bind.

Definition PTE_NX : Z := 2 ^ 63.
Definition ET_EXEC : Z := 2.
Definition ET_DYN : Z := 3.
Definition EM_X86_64 : Z := 62.
Definition PT_LOAD : Z := 1.
Definition PT_INTERP : Z := 3.
Definition PF_X : Z := 1.
Definition PF_W : Z := 2.
Definition PF_R : Z := 4.
Definition PROT_READ : Z := 1.
Definition PROT_EXEC : Z := 4.
Definition MAP_PRIVATE : Z := 2.
Definition LDSO_BASE : Z := 0x7FC0000000.
Definition EHDR_SIZE : Z := 64.

(** ** Headers *)

(** A little-endian number of [n] bytes. *)
Fixpoint ldn (n : nat) (m : Z -> Z) (a : Z) : Z :=
  match n with O => 0 | S k => m (u64 a) + 256 * ldn k m (a + 1) end.

Record Elf64_Ehdr := mk_ehdr {
  e_ident : list Z; e_type : Z; e_machine : Z; e_version : Z; e_entry : Z; e_phoff : Z; e_shoff : Z;
  e_flags : Z; e_ehsize : Z; e_phentsize : Z; e_phnum : Z; e_shentsize : Z; e_shnum : Z; e_shstrndx : Z
}.

Definition ehdr_at (m : Z -> Z) (a : Z) : Elf64_Ehdr :=
  mk_ehdr ((fun i => m (u64 (a + i))) <$> seqZ 0 16) (ldn 2 m (a + 16)) (ldn 2 m (a + 18)) (ldn 4 m (a + 20))
    (ldn 8 m (a + 24)) (ldn 8 m (a + 32)) (ldn 8 m (a + 40)) (ldn 4 m (a + 48)) (ldn 2 m (a + 52))
    (ldn 2 m (a + 54)) (ldn 2 m (a + 56)) (ldn 2 m (a + 58)) (ldn 2 m (a + 60)) (ldn 2 m (a + 62)).

Record Elf64_Phdr := mk_phdr {
  p_type : Z; p_flags : Z; p_offset : Z; p_vaddr : Z; p_paddr : Z; p_filesz : Z; p_memsz : Z; p_align : Z
}.

Definition phdr_at (m : Z -> Z) (a : Z) : Elf64_Phdr :=
  mk_phdr (ldn 4 m a) (ldn 4 m (a + 4)) (ldn 8 m (a + 8)) (ldn 8 m (a + 16)) (ldn 8 m (a + 24)) (ldn 8 m (a + 32))
    (ldn 8 m (a + 40)) (ldn 8 m (a + 48)).

Definition elf_validate (m : Z -> Z) (data size : Z) : Z :=
  if (data =? 0) || (size <? EHDR_SIZE) then -1 else
  let e := ehdr_at m data in
  if negb (zget (e_ident e) 0 =? 0x7F) || negb (zget (e_ident e) 1 =? 69) ||
     negb (zget (e_ident e) 2 =? 76) || negb (zget (e_ident e) 3 =? 70) then -1 else
  if negb (zget (e_ident e) 4 =? 2) then -1 else
  if negb (zget (e_ident e) 5 =? 1) then -1 else
  if negb (zget (e_ident e) 6 =? 1) then -1 else
  if negb (e_type e =? ET_EXEC) && negb (e_type e =? ET_DYN) then -1 else
  if negb (e_machine e =? EM_X86_64) then -1 else
  if e_phnum e =? 0 then -1 else
  if size <? u64 (e_phoff e + u64 (e_phnum e * e_phentsize e)) then -1 else 0.

(** The [i]th program header; the product is an [int]. *)
Definition phdr (m : Z -> Z) (data : Z) (i : nat) : Elf64_Phdr :=
  let e := ehdr_at m data in phdr_at m (u64 (data + e_phoff e + s32 (Z.of_nat i * e_phentsize e))).

(** ** Segments *)

Definition seg_flags (pf : Z) : Z :=
  let f := Z.lor PTE_PRESENT PTE_USER in
  let f := if has pf PF_W then Z.lor f PTE_WRITABLE else f in
  if has pf PF_X then f else Z.lor f PTE_NX.

Definition seg_prot (pf : Z) : Z :=
  let p := if has pf PF_R then PROT_READ else 0 in
  let p := if has pf PF_W then Z.lor p PROT_WRITE else p in
  if has pf PF_X then Z.lor p PROT_EXEC else p.

Definition seg_vaddr (h : Elf64_Phdr) (base : Z) : Z := u64 (p_vaddr h + base).
Definition seg_start (h : Elf64_Phdr) (base : Z) : Z := page_down (seg_vaddr h base).
Definition seg_end (h : Elf64_Phdr) (base : Z) : Z := page_up (seg_vaddr h base + p_memsz h).

(** The area of a segment that is loaded on demand. *)
Definition elf_vma (data : Z) (h : Elf64_Phdr) (base : Z) : vma :=
  let align_delta := seg_vaddr h base - seg_start h base in
  vma_zero <| v_start := seg_start h base |> <| v_end := seg_end h base |> <| v_prot := seg_prot (p_flags h) |>
    <| v_flags := MAP_PRIVATE |> <| v_type := VMA_ELF |> <| v_in_use := true |>
    <| v_elf_data := u64 (data + p_offset h - align_delta) |>
    <| v_elf_data_filesz := u64 (p_filesz h + align_delta) |> <| v_elf_vaddr := seg_start h base |>.

(** Byte [k] of the page at [addr] after the copy from the file: the file bytes
    that overlap the page, zero elsewhere. *)
Definition eager_byte (m : Z -> Z) (data : Z) (h : Elf64_Phdr) (base addr k : Z) : Z :=
  let vaddr := seg_vaddr h base in
  let seg_file_end := u64 (vaddr + p_filesz h) in
  let copy_start := if addr <? vaddr then vaddr else addr in
  let copy_end := if seg_file_end <? u64 (addr + PAGE_SIZE) then seg_file_end else u64 (addr + PAGE_SIZE) in
  if copy_start <? copy_end then
    let dst_off := copy_start - addr in
    let src_off := u64 (p_offset h + (copy_start - vaddr)) in
    if (dst_off <=? k) && (k <? dst_off + (copy_end - copy_start)) then m (u64 (data + src_off + (k - dst_off))) else 0
  else 0.

(** One page of the eager loop; [false] is its [return -1]. *)
Definition eager_page (m : Z -> Z) (root data : Z) (h : Elf64_Phdr) (base addr : Z) (s : vm) : vm * bool :=
  let '(s, p) := pmm_alloc_page s in
  if p =? 0 then (s, false) else
  let s := (zero_page p s) <| phys ::= fill_page p (le_word (eager_byte m data h base addr)) |> in
  let '(s, r) := user_vm_map_page root addr p (seg_flags (p_flags h)) s in
  (s, negb (r <? 0)).

Definition eager_segment (m : Z -> Z) (root data : Z) (h : Elf64_Phdr) (base : Z) (s : vm) : vm * bool :=
  for_while (pages_between (seg_start h base) (seg_end h base)) 0
    (fun k => eager_page m root data h base (seg_start h base + 4096 * Z.of_nat k)) s.

(** One turn of the loop over the program headers, with [load_end]. *)
Definition load_segment (m : Z -> Z) (root data size base : Z) (demand : bool) (cur : option nat) (i : nat)
    (st : vm * Z) : (vm * Z) * bool :=
  let '(s, load_end) := st in
  let h := phdr m data i in
  if negb (p_type h =? PT_LOAD) then ((s, load_end), true) else
  if size <? u64 (p_offset h + p_filesz h) then ((s, load_end), false) else
  let load_end := if load_end <? seg_end h base then seg_end h base else load_end in
  let eager := let '(s, ok) := eager_segment m root data h base s in ((s, load_end), ok) in
  match cur with
  | Some c =>
      if demand then
        match vma_alloc (proc_at (sc s) c) with
        | Some j => ((set_vma c j (fun _ => elf_vma data h base) s, load_end), true)
        | None => eager
        end
      else eager
  | None => eager
  end.

(** [None] is the error; otherwise the end of the highest page loaded. *)
Definition elf_load_segments (m : Z -> Z) (root data size base : Z) (demand : bool) (target : option nat) (s : vm) : vm * option Z :=
  let cur := match target with Some c => Some c | None => current_process (sc s) end in
  let '((s, load_end), ok) :=
    for_while (Z.to_nat (e_phnum (ehdr_at m data))) 0 (load_segment m root data size base demand cur) (s, 0) in
  (s, if ok then Some load_end else None).

(** ** Loading a program *)

Record elf_load_result := mk_result {
  entry_point : Z; load_end : Z; at_phdr : Z; at_phent : Z; at_phnum : Z; at_base : Z; at_entry : Z
}.

#[export] Instance eta_result : Eta elf_load_result := fun r =>
  mk_result (entry_point r) (load_end r) (at_phdr r) (at_phent r) (at_phnum r) (at_base r) (at_entry r).

Record loader := mk_loader { l_mm : vm; l_heap : Kheap.kheap; l_mem : Z -> Z }.

#[export] Instance eta_loader : Eta loader := fun l => mk_loader (l_mm l) (l_heap l) (l_mem l).

(** The string at [a], at most [n] characters of it. *)
Fixpoint cstr (n : nat) (m : Z -> Z) (a : Z) : list Z :=
  match n with O => [] | S k => let c := m (u64 a) in if c =? 0 then [] else c :: cstr k m (a + 1) end.

(** Store [bs] at [a]. *)
Definition poke (a : Z) (bs : list Z) (m : Z -> Z) : Z -> Z :=
  fun x => if (a <=? x) && (x <? a + Z.of_nat (length bs)) then zget bs (x - a) else m x.

(** The interpreter is loaded at [LDSO_BASE]; wherever that fails the program
    is started without it.  [ext2_path_lookup] reads at most 256 characters of
    the path. *)
Definition load_interp (fs : Ext2.ext2) (root data size : Z) (target : option nat) (h : Elf64_Phdr)
    (r : elf_load_result) (l : loader) : Ext2Dir.answer (loader * elf_load_result) :=
  let skip l := Ext2Dir.Answer (l, r) in
  if size <? u64 (p_offset h + p_filesz h) then skip l else
  if negb (Ext2.ext2_mounted fs) then skip l else
  ino ← Ext2Dir.ext2_path_lookup (cstr 256 (l_mem l) (data + p_offset h)) fs;
  if ino =? 0 then skip l else
  match Ext2.ext2_read_inode ino fs with
  | None => skip l
  | Some n =>
      if Ext2.i_size n =? 0 then skip l else
      let '(hp, buf) := Kheap.kmalloc (Ext2.i_size n) (l_heap l) in
      let l := l <| l_heap := hp |> in
      if buf =? 0 then skip l else
      match Ext2.ext2_read_file n 0 (Ext2.i_size n) fs with
      | None => skip l
      | Some bs =>
          let bytes := Z.of_nat (length bs) in
          if bytes <=? 0 then skip l else
          let l := l <| l_mem ::= poke buf bs |> in
          if elf_validate (l_mem l) buf bytes <? 0 then skip (l <| l_heap ::= Kheap.kfree buf |>) else
          let entry := e_entry (ehdr_at (l_mem l) buf) in
          let '(s, e) := elf_load_segments (l_mem l) root buf bytes LDSO_BASE false target (l_mm l) in
          let l := l <| l_mm := s |> <| l_heap ::= Kheap.kfree buf |> in
          Ext2Dir.Answer (l, match e with
            | Some _ => r <| at_base := LDSO_BASE |> <| entry_point := u64 (entry + LDSO_BASE) |>
            | None => r
            end)
      end
  end.

Definition elf_load (fs : Ext2.ext2) (root data size base : Z) (target : option nat) (l : loader) :
    Ext2Dir.answer (loader * option elf_load_result) :=
  if elf_validate (l_mem l) data size <? 0 then Ext2Dir.Answer (l, None) else
  let e := ehdr_at (l_mem l) data in
  let entry := u64 (e_entry e + base) in
  let r := mk_result entry 0 (u64 (e_phoff e + base)) (e_phentsize e) (e_phnum e) 0 entry in
  let '(s, le) := elf_load_segments (l_mem l) root data size base true target (l_mm l) in
  let l := l <| l_mm := s |> in
  match le with
  | None => Ext2Dir.Answer (l, None)
  | Some le =>
      let r := r <| load_end := le |> in
      match find_index (fun h => p_type h =? PT_INTERP) (phdr (l_mem l) data <$> seq 0 (Z.to_nat (e_phnum e))) with
      | None => Ext2Dir.Answer (l, Some r)
      | Some i => '(l, r) ← load_interp fs root data size target (phdr (l_mem l) data i) r l; Ext2Dir.Answer (l, Some r)
      end
  end.

(** ** The initial stack *)

Definition ELF_MAX_ARGS : nat := 32.
Definition ELF_MAX_ARG_LEN : nat := 256.

(** [while (s[len] && len < ELF_MAX_ARG_LEN - 1) len++;] *)
Fixpoint arg_len (n : nat) (s : list Z) : nat :=
  match n, s with S k, c :: s' => if c =? 0 then O else S (arg_len k s') | _, _ => O end.

(** What is stored of an argument, without its terminator; NULL is empty. *)
Definition arg_text (a : option (list Z)) : list Z :=
  let s := default [] a in take (arg_len (ELF_MAX_ARG_LEN - 1) s) s.

(** The strings, from the last to the first, downwards from [write_pos]; [ptrs]
    are the addresses stored so far. *)
Fixpoint push_args (virt : Z) (rargs : list (option (list Z))) (page : list Z) (write_pos : Z) (ptrs : list Z) :
    list Z * option (Z * list Z) :=
  match rargs with
  | [] => (page, Some (write_pos, ptrs))
  | a :: rest =>
      let len := Z.of_nat (length (arg_text a)) in
      if write_pos <? len + 1 then (page, None) else
      let write_pos := write_pos - (len + 1) in
      push_args virt rest (blit page write_pos (arg_text a ++ [0])) write_pos (u64 (virt + write_pos) :: ptrs)
  end.

Definition auxv (r : elf_load_result) : list Z :=
  [3; at_phdr r; 4; at_phent r; 5; at_phnum r; 6; PAGE_SIZE; 7; at_base r; 8; 0; 9; at_entry r; 0; 0].

Definition aux_of (r : option elf_load_result) : list Z := match r with Some r => auxv r | None => [] end.

Definition page_bytes (m : gmap Z Z) (p : Z) : list Z := mjoin ((fun i => le_bytes 8 (ldq m (p + 8 * i))) <$> seqZ 0 512).

(** The result is the stack pointer and the address of argv. *)
Definition elf_setup_stack (stack_phys virt : Z) (argv : list (option (list Z))) (r : option elf_load_result) (s : vm) :
    vm * option (Z * Z) :=
  let argv := take ELF_MAX_ARGS argv in
  let argc := Z.of_nat (length argv) in
  let store page := s <| phys ::= fill_page stack_phys (fun i => rd64 page (8 * i)) |> in
  let '(page, st) := push_args virt (rev argv) (page_bytes (phys s) stack_phys) PAGE_SIZE [] in
  match st with
  | None => (store page, None)
  | Some (write_pos, ptrs) =>
      let block := argc :: ptrs ++ [0; 0] ++ aux_of r in
      let block_size := 8 * Z.of_nat (length block) in
      if write_pos <? block_size then (store page, None) else
      let start := Z.land (write_pos - block_size) (Z.lnot 15) in
      if start <? 0 then (store page, None) else
      (store (blit page start (mjoin (le_bytes 8 <$> block))), Some (u64 (virt + start), u64 (virt + start + 8)))
  end.

(** ** What the program sees *)

(** Byte [o] of the page at [p], and the byte at a virtual address. *)
Definition page_byte (m : gmap Z Z) (p o : Z) : Z := (ldq m (p + 8 * (o / 8)) / 256 ^ (o mod 8)) mod 256.

Definition user_byte (s : vm) (root x : Z) : option Z :=
  let e := pte_val s root x in
  if has e PTE_PRESENT then Some (page_byte (phys s) (Z.land e PTE_ADDR_MASK) (x mod 4096)) else None.

(** The image of a segment: the bytes of the file at its address, zero behind
    them. *)
Definition seg_byte (m : Z -> Z) (data : Z) (h : Elf64_Phdr) (base x : Z) : Z :=
  if (seg_vaddr h base <=? x) && (x <? seg_vaddr h base + p_filesz h) then m (data + p_offset h + (x - seg_vaddr h base)) else 0.

Definition loads (m : Z -> Z) (data : Z) (k n : nat) : list Elf64_Phdr :=
  filter (fun h => p_type h = PT_LOAD) (phdr m data <$> seq k n).

(** The segments of a sound image, for the base it is loaded at. *)
Record seg_ok (data size base : Z) (h : Elf64_Phdr) : Prop := mk_seg_ok {
  so_data : 4096 <= data /\ data + size < 2 ^ 64;
  so_file : 0 <= p_offset h /\ 0 <= p_filesz h <= p_memsz h /\ p_offset h + p_filesz h <= size;
  so_addr : 0 <= p_vaddr h + base /\ p_vaddr h + base + p_memsz h <= 2 ^ 47 - 4096
}.

Definition apart (base : Z) (h g : Elf64_Phdr) : Prop :=
  seg_end h base <= seg_start g base \/ seg_end g base <= seg_start h base.

Fixpoint segs_apart (base : Z) (l : list Elf64_Phdr) : Prop :=
  match l with [] => True | h :: t => Forall (apart base h) t /\ segs_apart base t end.

Definition seg_pages (base : Z) (h : Elf64_Phdr) : nat := pages_between (seg_start h base) (seg_end h base).

(** ** Bytes of pages *)

Lemma digit (f : Z -> Z) (l : list Z) j : (forall k, 0 <= f k < 256) -> (j < length l)%nat ->
  (foldr (fun k acc => f k + 256 * acc) 0 l / 256 ^ Z.of_nat j) mod 256 = f (l !!! j).
Proof.
  intros Hf. revert l. induction j as [|j IH]; intros [|k l] Hj; cbn [length] in Hj; try lia; cbn [foldr].
  - rewrite Z.div_1_r. cbn. pose proof (Hf k). zsolve.
  - rewrite Nat2Z.inj_succ, Z.pow_succ_r by lia. rewrite <- Z.div_div by lia.
    replace ((f k + 256 * foldr (fun k acc => f k + 256 * acc) 0 l) / 256) with (foldr (fun k acc => f k + 256 * acc) 0 l) by (pose proof (Hf k); zsolve).
    apply IH. lia.
Qed.

Lemma le_word_byte f o : (forall k, 0 <= f k < 256) -> 0 <= o -> (le_word f (o / 8) / 256 ^ (o mod 8)) mod 256 = f o.
Proof.
  intros Hf Ho. unfold le_word. rewrite <- (Z2Nat.id (o mod 8)) by zsolve.
  rewrite (digit (fun k => f (8 * (o / 8) + k))) by (first [done|rewrite length_seqZ; zsolve]). f_equal.
  rewrite (list_lookup_total_correct _ _ (o mod 8)); [zsolve|]. apply lookup_seqZ. zsolve.
Qed.

Lemma fill_byte p f m o : p mod 4096 = 0 -> 0 <= o < 4096 -> (forall k, 0 <= f k < 256) -> page_byte (fill_page p (le_word f) m) p o = f o.
Proof. intros Hp Ho Hf. unfold page_byte. rewrite fill_inside by (done || zsolve). by apply le_word_byte; [|lia]. Qed.

Lemma page_byte_ext m m' p o : p mod 4096 = 0 -> 0 <= o < 4096 -> (forall a, a / 4096 = p / 4096 -> ldq m a = ldq m' a) -> page_byte m p o = page_byte m' p o.
Proof. intros Hp Ho H. unfold page_byte. rewrite H; [done|]. apply words_in_page; [done|zsolve]. Qed.

(** ** Segments *)

Lemma seg_geometry data size base h : seg_ok data size base h ->
  seg_vaddr h base = p_vaddr h + base /\ seg_start h base mod 4096 = 0 /\ 0 <= seg_start h base <= seg_vaddr h base /\
  seg_vaddr h base - seg_start h base < 4096 /\ seg_end h base mod 4096 = 0 /\ seg_vaddr h base + p_memsz h <= seg_end h base /\ seg_start h base <= seg_end h base <= 2 ^ 47 /\
  seg_start h base + 4096 * Z.of_nat (seg_pages base h) = seg_end h base.
Proof.
  intros [_ [_ [Hz _]] Ha]. unfold seg_pages, seg_end, seg_start, page_up. assert (seg_vaddr h base = p_vaddr h + base) as E by (unfold seg_vaddr; apply u64_small; lia).
  rewrite !page_down_spec, (u64_small (_ + 4095)) by lia. rewrite E. unfold pages_between. zsolve.
Qed.

Lemma eager_byte_spec m data size base h addr k : seg_ok data size base h -> addr mod 4096 = 0 -> seg_start h base <= addr -> addr < seg_end h base -> 0 <= k < 4096 ->
  eager_byte m data h base addr k = seg_byte m data h base (addr + k).
Proof.
  intros Ho Hm Hlo Hhi Hk. destruct (seg_geometry _ _ _ _ Ho) as (Ev & A & B & C & D & E & F & _). destruct Ho as [[Hd1 Hd2] (Hf1 & Hf2 & Hf3) Ha].
  unfold eager_byte, seg_byte, PAGE_SIZE. rewrite (u64_small (seg_vaddr h base + _)), (u64_small (addr + 4096)) by zsolve.
  destruct (Z.ltb_spec addr (seg_vaddr h base)), (Z.ltb_spec (seg_vaddr h base + p_filesz h) (addr + 4096)).
  all: match goal with |- context [if ?a <? ?b then _ else _] => destruct (Z.ltb_spec a b) end.
  all: repeat match goal with |- context [?a <=? ?b] => destruct (Z.leb_spec a b) | |- context [?a <? ?b] => destruct (Z.ltb_spec a b) end; cbn [andb]; try lia; try reflexivity.
  all: rewrite !u64_small by (rewrite ?u64_small; lia); f_equal; lia.
Qed.

Lemma seg_byte_range m data h base x : (forall a, 0 <= m a < 256) -> 0 <= seg_byte m data h base x < 256.
Proof. intros Hm. unfold seg_byte. case_if; [apply Hm|lia]. Qed.

(** A leaf entry with any flags outside the address bits. *)
Lemma flagged_entry p flags : 0 <= p < 2 ^ 52 -> p mod 4096 = 0 -> Z.land flags PTE_ADDR_MASK = 0 ->
  let e := Z.lor (Z.lor (Z.land p PTE_ADDR_MASK) flags) PTE_PRESENT in
  Z.land e PTE_ADDR_MASK = p /\ has e PTE_PRESENT = true /\ has e PTE_WRITABLE = has flags PTE_WRITABLE /\ has e PTE_NX = has flags PTE_NX.
Proof.
  intros Hp Hm Hf e. assert (Z.land p PTE_ADDR_MASK = p) as Ep by (rewrite <- (Z.add_0_r p) at 1; apply mask_page; lia). unfold e. rewrite Ep. split_and!.
  - rewrite !Z.land_lor_distr_l, Ep, Hf. change (Z.land PTE_PRESENT PTE_ADDR_MASK) with 0. by rewrite !Z.lor_0_r.
  - change PTE_PRESENT with (2 ^ 0). rewrite has_bit, Z.lor_spec by lia. apply orb_true_r.
  - change PTE_WRITABLE with (2 ^ 1). rewrite !has_bit, !Z.lor_spec by lia. rewrite (low_bits p 1) by (done || lia). apply orb_false_r.
  - unfold PTE_NX. rewrite !has_bit, !Z.lor_spec by lia. rewrite <- (Z.mod_small p (2 ^ 52)), Z.mod_pow2_bits_high by lia. apply orb_false_r.
Qed.

Lemma seg_flags_spec pf : Z.land (seg_flags pf) PTE_ADDR_MASK = 0 /\ has (seg_flags pf) PTE_WRITABLE = has pf PF_W /\ has (seg_flags pf) PTE_NX = negb (has pf PF_X).
Proof. unfold seg_flags. destruct (has pf PF_W), (has pf PF_X); by vm_compute. Qed.

(** The address [x] shows the segment, with its rights. *)
Definition shows (m : Z -> Z) (data : Z) (h : Elf64_Phdr) (base root : Z) (s : vm) (x : Z) : Prop :=
  let e := pte_val s root x in
  user_byte s root x = Some (seg_byte m data h base x) /\
  has e PTE_WRITABLE = has (p_flags h) PF_W /\ has e PTE_NX = negb (has (p_flags h) PF_X) /\
  data_page s root (Z.land e PTE_ADDR_MASK / 4096).

Lemma shows_kept m data h base root : kept root (shows m data h base root).
Proof.
  intros s s' x (H1 & H2 & H3 & H4) K E. unfold shows, user_byte in *. rewrite E. destruct (K _ H4) as [D F]. split_and!; [|done..].
  destruct (has _ _); [|done]. injection H1 as <-. f_equal. apply page_byte_ext; [apply mask_range|zsolve|exact F].
Qed.

(** ** Eager loading *)

Lemma eager_page_step m root data size base h addr : (forall a, 0 <= m a < 256) -> seg_ok data size base h ->
  addr mod 4096 = 0 -> seg_start h base <= addr < seg_end h base ->
  page_step root (eager_page m root data h base) (shows m data h base root) addr.
Proof.
  intros Hm Ho Ha Hr s n Hw Hq Hn. destruct (seg_geometry _ _ _ _ Ho) as (_ & _ & B & _ & D & _ & F & _). unfold eager_page.
  destruct (alloc_quiet s n Hq ltac:(lia)) as (f & p & -> & T). pose proof (tk_pos _ _ _ T). pose proof (tk_align _ _ _ T) as Hpa. replace (p =? 0) with false by lia.
  set (bs := eager_byte m data h base addr). set (s1 := (zero_page p (s <| frames := f |>)) <| phys ::= fill_page p (le_word bs) |>).
  destruct (fresh_frame s s1 root f p Hw T eq_refl) as (W1 & K1 & T1 & V1 & N1); [intros a Hne; cbn [phys s1 upd zero_page]; unfold s1, zero_page; cbn [phys upd]; by rewrite !fill_outside|].
  assert (quiet s1 (n - 1)) as Hq1. { destruct Hq as [_ Hq]. split; [apply T|]. unfold s1, zero_page. cbn. rewrite (tk_count _ _ _ T). lia. }
  assert (user_addr addr) as Hua by (unfold user_addr; lia).
  pose proof (map_page_spec s1 root addr p (seg_flags (p_flags h)) (n - 1) W1 Hua Hq1 ltac:(lia)) as M.
  destruct (user_vm_map_page _ _ _ _ _) as [s' r]. destruct M as (-> & W2 & Q2 & K2 & _ & _ & C2 & V2).
  destruct (seg_flags_spec (p_flags h)) as (G0 & G1 & G2).
  destruct (flagged_entry p (seg_flags (p_flags h))) as (E1 & E2 & E3 & E4); [|done|done|].
  { pose proof (tk_bound _ _ _ T). destruct Hq as ((W0 & _) & _). pose proof (Pmm.wf_total _ W0). zsolve. }
  assert (data_page s1 root (p / 4096)) as Dp.
  { split_and!; [zsolve|unfold s1, zero_page; cbn; rewrite (tk_used _ _ _ T) by zsolve; by rewrite bool_decide_true|]. intros l t Hl. rewrite T1 by done. by apply N1. }
  exists s'. split_and!; [done|done|by replace (n - 4) with (n - 1 - 3) by lia|by eapply keeps_data_trans|by rewrite C2| |].
  - intros x Hx Ex. unfold shows, user_byte. rewrite V2, decide_True by done. rewrite E1, E2, E3, E4, G1, G2. cbv zeta. split_and!; [|done|done|by apply K2].
    assert (x = addr + x mod 4096) as Exm by zsolve. f_equal. rewrite Exm at 2. rewrite <- (eager_byte_spec m data size) by (done || zsolve). fold bs.
    destruct (K2 _ Dp) as [_ Kw]. rewrite (page_byte_ext _ (phys s1)) by (done || zsolve). unfold s1. cbn [phys upd]. apply fill_byte; [done|zsolve|].
    intros k. unfold bs, eager_byte. repeat case_if; (apply Hm || lia).
  - intros x Hx Ex. rewrite V2, decide_False by done. by apply V1.
Qed.

Lemma eager_segment_spec m root data size base h s n : (forall a, 0 <= m a < 256) -> seg_ok data size base h ->
  space_wf s root -> quiet s n -> 4 * Z.of_nat (seg_pages base h) <= n ->
  exists s', eager_segment m root data h base s = (s', true) /\ space_wf s' root /\ quiet s' (n - 4 * Z.of_nat (seg_pages base h)) /\
    keeps_data s s' root /\ sc s' = sc s /\
    (forall x, seg_start h base <= x < seg_end h base -> shows m data h base root s' x) /\
    (forall x, user_addr x -> ~ seg_start h base <= x < seg_end h base -> pte_val s' root x = pte_val s root x).
Proof.
  intros Hm Ho Hw Hq Hn. destruct (seg_geometry _ _ _ _ Ho) as (_ & A & B & _ & _ & _ & F & G).
  destruct (map_loop_spec root (eager_page m root data h base) (shows m data h base root) (seg_pages base h) 0 (seg_start h base) s n) as (s' & E & W & Q & K & C & Z & V);
    [apply shows_kept| |done|lia|done|simpl; lia|done|done|].
  - intros i Hi. apply (eager_page_step m root data size base h); [done|done|zsolve|lia].
  - simpl Nat.add in Z, V. rewrite G in Z, V. rewrite Z.mul_0_r, Z.add_0_r in Z, V. by exists s'.
Qed.

Definition load_end_of (base : Z) (l : list Elf64_Phdr) : Z := foldr (fun h a => Z.max (seg_end h base) a) 0 l.
Definition total_pages_of (base : Z) (l : list Elf64_Phdr) : Z := foldr (fun h a => Z.of_nat (seg_pages base h) + a) 0 l.
Definition in_seg (base x : Z) (h : Elf64_Phdr) : Prop := seg_start h base <= x < seg_end h base.

Lemma total_pages_nonneg base l : 0 <= total_pages_of base l.
Proof. induction l as [|h l IH]; cbn; [lia|]. unfold total_pages_of in IH. lia. Qed.

Lemma loads_cons m data k n : loads m data k (S n) = (if decide (p_type (phdr m data k) = PT_LOAD) then [phdr m data k] else []) ++ loads m data (S k) n.
Proof. unfold loads. cbn [seq fmap list_fmap]. rewrite filter_cons. by case_decide. Qed.

(** The bounds test of a sound segment passes. *)
Lemma seg_in_file data size base h : seg_ok data size base h -> (size <? u64 (p_offset h + p_filesz h)) = false.
Proof. intros [[A B] C _]. rewrite u64_small by lia. lia. Qed.

Lemma eager_loop m root data size base cur n k s le q : (forall a, 0 <= m a < 256) -> 0 <= le ->
  let l := loads m data k n in
  Forall (seg_ok data size base) l -> segs_apart base l -> space_wf s root -> quiet s q -> 4 * total_pages_of base l <= q ->
  exists s', for_while n k (load_segment m root data size base false cur) (s, le) = ((s', Z.max le (load_end_of base l)), true) /\
    space_wf s' root /\ quiet s' (q - 4 * total_pages_of base l) /\ keeps_data s s' root /\ sc s' = sc s /\
    (forall h x, h ∈ l -> in_seg base x h -> shows m data h base root s' x) /\
    (forall x, user_addr x -> (forall h, h ∈ l -> ~ in_seg base x h) -> pte_val s' root x = pte_val s root x).
Proof.
  intros Hm Hle0 l. subst l. revert k s le q Hle0. induction n as [|n IH]; intros k s le q Hle0 Hok Hap Hw Hq Hn; cbn [for_while].
  { exists s. cbn in *. rewrite Z.max_l by lia. split_and!; [done|done|by rewrite Z.sub_0_r|by intros ?|done|by intros h x ?%elem_of_nil|done]. }
  rewrite loads_cons in *. unfold load_segment at 1. destruct (decide (p_type (phdr m data k) = PT_LOAD)) as [Ht|Ht]; cycle 1.
  { rewrite (proj2 (Z.eqb_neq _ _) Ht). cbn [negb app]. by apply IH. }
  rewrite (proj2 (Z.eqb_eq _ _) Ht). cbn [negb]. set (h := phdr m data k) in *. cbn [app] in *. apply Forall_cons in Hok as [Hok Hoks]. destruct Hap as [Hap Haps].
  rewrite (seg_in_file _ _ _ _ Hok). set (le1 := if le <? seg_end h base then _ else le). assert (le1 = Z.max le (seg_end h base)) as E1 by (unfold le1; destruct (Z.ltb_spec le (seg_end h base)); lia). clearbody le1. subst le1.
  cbn [total_pages_of foldr] in Hn. fold (total_pages_of base (loads m data (S k) n)) in Hn. pose proof (total_pages_nonneg base (loads m data (S k) n)).
  destruct (eager_segment_spec m root data size base h s q Hm Hok Hw Hq ltac:(lia)) as (s1 & E & W1 & Q1 & K1 & C1 & Z1 & V1). rewrite E.
  replace (match cur with Some c => ((s1, Z.max le (seg_end h base)), true) | None => ((s1, Z.max le (seg_end h base)), true) end) with ((s1, Z.max le (seg_end h base)), true) by by destruct cur.
  destruct (IH (S k) s1 (Z.max le (seg_end h base)) _ ltac:(lia) Hoks Haps W1 Q1 ltac:(lia)) as (s2 & E2 & W2 & Q2 & K2 & C2 & Z2 & V2). rewrite E2. exists s2.
  cbn [load_end_of foldr total_pages_of]. fold (load_end_of base (loads m data (S k) n)) (total_pages_of base (loads m data (S k) n)).
  split_and!; [by rewrite Z.max_assoc|done|by match goal with |- quiet _ ?a => match type of Q2 with quiet _ ?b => replace a with b by lia end end|by eapply keeps_data_trans|congruence| |].
  - intros g x [-> |Hg]%elem_of_cons Hx; [|by apply Z2]. apply (shows_kept m data h base root s1); [by apply Z1|done|]. destruct (seg_geometry _ _ _ _ Hok) as (_ & _ & B & _ & _ & _ & F & _). unfold in_seg in Hx.
    apply V2; [unfold user_addr; lia|]. intros g Hg Hgx. rewrite Forall_forall in Hap. destruct (Hap g Hg); unfold in_seg in Hgx; lia.
  - intros x Hx Hno. rewrite V2; [apply V1; [done|apply Hno; by left]|done|]. intros g Hg. apply Hno. by right.
Qed.

(** ** Loading on demand *)

Definition with_vmas (c : nat) (l : list vma) (s : vm) : vm := s <| sc ::= set_proc c (fun p => p <| vmas := l |>) |>.

Lemma vma_alloc_first p dn v rest : vmas p = dn ++ v :: rest -> Forall (fun v => v_in_use v = true) dn -> v_in_use v = false -> vma_alloc p = Some (length dn).
Proof.
  intros E Hd Hv. unfold vma_alloc. rewrite E. clear E. induction Hd as [|u dn Hu _ IH]; cbn [app find_index length].
  - by rewrite Hv.
  - rewrite Hu. cbn [negb]. by rewrite IH.
Qed.

Lemma with_vmas_at c l s : (c < length (procs (sc s)))%nat -> proc_at (sc (with_vmas c l s)) c = (proc_at (sc s) c) <| vmas := l |>.
Proof. intros Hc. exact (proc_at_set_proc (sc s) c _ Hc). Qed.

Lemma with_vmas_twice c l l' s : with_vmas c l (with_vmas c l' s) = with_vmas c l s.
Proof. unfold with_vmas, set_proc, upd_proc. unfold upd; cbn. by rewrite alter_twice. Qed.

Lemma set_vma_append c dn v rest w s : (c < length (procs (sc s)))%nat -> vmas (proc_at (sc s) c) = dn ++ v :: rest ->
  set_vma c (length dn) (fun _ => w) s = with_vmas c ((dn ++ [w]) ++ rest) s.
Proof.
  intros Hc E. assert (alter (fun _ => w) (length dn) (vmas (proc_at (sc s) c)) = (dn ++ [w]) ++ rest) as Ea.
  { rewrite E, (list_alter_insert_at _ _ _ v) by (by rewrite list_lookup_middle). rewrite <- (Nat.add_0_r (length dn)), insert_app_r. cbn. by rewrite <- app_assoc. }
  unfold set_vma, with_vmas, set_proc, upd_proc. unfold upd; cbn. do 2 f_equal. destruct (lookup_lt_is_Some_2 _ _ Hc) as [p Hp]. rewrite !(list_alter_insert_at _ _ _ p) by done.
  assert (proc_at (sc s) c = p) as Ep by by apply list_lookup_total_correct. rewrite Ep in Ea. by rewrite Ea.
Qed.

Lemma demand_loop m root data size base c n k s le dn rest : 0 <= le ->
  let l := loads m data k n in
  Forall (seg_ok data size base) l -> (c < length (procs (sc s)))%nat -> vmas (proc_at (sc s) c) = dn ++ rest ->
  Forall (fun v => v_in_use v = true) dn -> Forall (fun v => v_in_use v = false) rest -> (length l <= length rest)%nat ->
  exists s', for_while n k (load_segment m root data size base true (Some c)) (s, le) = ((s', Z.max le (load_end_of base l)), true) /\
    (s' = s \/ exists x, s' = with_vmas c x s) /\ vmas (proc_at (sc s') c) = (dn ++ ((fun h => elf_vma data h base) <$> l)) ++ drop (length l) rest.
Proof.
  intros Hle l. subst l. revert k s le dn rest Hle. induction n as [|n IH]; intros k s le dn rest Hle Hok Hc Hv Hd Hr Hlen; cbn [for_while].
  { exists s. cbn. rewrite Z.max_l by lia. split_and!; [done|by left|by rewrite app_nil_r]. }
  rewrite loads_cons in *. unfold load_segment at 1. destruct (decide (p_type (phdr m data k) = PT_LOAD)) as [Ht|Ht]; cycle 1.
  { rewrite (proj2 (Z.eqb_neq _ _) Ht). cbn [negb app]. by apply IH. }
  rewrite (proj2 (Z.eqb_eq _ _) Ht). cbn [negb]. set (h := phdr m data k) in *. cbn [app length] in *. apply Forall_cons in Hok as [Hok Hoks].
  rewrite (seg_in_file _ _ _ _ Hok). destruct rest as [|v rest]; [cbn in Hlen; lia|]. apply Forall_cons in Hr as [Hv0 Hr]. cbn [length] in Hlen.
  rewrite (vma_alloc_first _ dn v rest Hv Hd Hv0), (set_vma_append c dn v rest _ _ Hc Hv). set (w := elf_vma data h base). set (s1 := with_vmas c _ s).
  replace (if le <? seg_end h base then seg_end h base else le) with (Z.max le (seg_end h base)) by (destruct (Z.ltb_spec le (seg_end h base)); lia).
  destruct (IH (S k) s1 (Z.max le (seg_end h base)) (dn ++ [w]) rest) as (s2 & E2 & F2 & V2);
    [lia|done|unfold s1; cbn; by rewrite length_upd_proc|unfold s1; by rewrite with_vmas_at|by apply Forall_app; split; [|apply Forall_singleton]|done|lia|].
  exists s2. rewrite E2. cbn [load_end_of foldr]. fold (load_end_of base (loads m data (S k) n)). split_and!; [by rewrite Z.max_assoc| |].
  - right. destruct F2 as [-> |[x ->]]; [by eexists|]. exists x. apply with_vmas_twice.
  - rewrite V2. cbn. by rewrite <- !app_assoc.
Qed.

Lemma elf_vma_holds data size base h x : seg_ok data size base h -> holds x (elf_vma data h base) = bool_decide (in_seg base x h).
Proof. intros _. unfold holds, elf_vma, in_seg. cbn. apply eq_bool_prop_intro. rewrite bool_decide_spec, andb_True. unfold Is_true. destruct (Z.leb_spec (seg_start h base) x), (Z.ltb_spec x (seg_end h base)); intuition lia. Qed.

Lemma find_seg data size base l rest h x : Forall (seg_ok data size base) l -> segs_apart base l -> h ∈ l -> in_seg base x h ->
  exists i, find_index (holds x) (((fun h => elf_vma data h base) <$> l) ++ rest) = Some i /\ (((fun h => elf_vma data h base) <$> l) ++ rest) !! i = Some (elf_vma data h base).
Proof.
  intros Hok. induction Hok as [|g l Hg _ IH]; intros Hap Hh Hx; [by apply elem_of_nil in Hh|]. destruct Hap as [Ha Hap]. cbn [fmap list_fmap app find_index]. rewrite (elf_vma_holds _ size) by done.
  case_bool_decide as Hgx; cycle 1.
  - apply elem_of_cons in Hh as [-> |Hh]; [done|]. destruct (IH Hap Hh Hx) as (i & E & L). exists (S i). split; [by rewrite E|done].
  - exists 0%nat. split; [done|]. apply elem_of_cons in Hh as [-> |Hh]; [done|]. rewrite Forall_forall in Ha. unfold in_seg in *. destruct (Ha h Hh); lia.
Qed.

(** The bytes the fault handler gives to the addresses of a segment's pages. *)
Definition demand_byte (m : Z -> Z) (data : Z) (h : Elf64_Phdr) (base x : Z) : Z :=
  if x <? seg_vaddr h base + p_filesz h then m (data + p_offset h + (x - seg_vaddr h base)) else 0.

Lemma demand_byte_seg m data h base x : seg_vaddr h base <= x -> demand_byte m data h base x = seg_byte m data h base x.
Proof. intros Hx. unfold demand_byte, seg_byte. by replace (seg_vaddr h base <=? x) with true by lia. Qed.

Lemma demand_byte_spec m data size base h page o : seg_ok data size base h -> page mod 4096 = 0 -> seg_start h base <= page -> 0 <= o < 4096 ->
  page + o < 2 ^ 47 -> (forall a, 0 <= m a < 256) ->
  (elf_page m (elf_vma data h base) page (o / 8) / 256 ^ (o mod 8)) mod 256 = demand_byte m data h base (page + o).
Proof.
  intros Ho Hp Hs Hoo Hu Hm. destruct (seg_geometry _ _ _ _ Ho) as (_ & A & B & C & _ & E & F & _). destruct Ho as [[D1 D2] (F1 & F2 & F3) G].
  unfold elf_page. rewrite le_word_byte; [|intros k; case_if; [apply Hm|lia]|lia]. unfold elf_vma, demand_byte, PAGE_SIZE. cbn.
  rewrite (u64_small (page - _)), (u64_small (p_filesz h + _)), (u64_small (data + _ - _)) by lia.
  repeat match goal with |- context [?a <=? ?b] => destruct (Z.leb_spec a b) | |- context [?a <? ?b] => destruct (Z.ltb_spec a b) end; cbn [andb]; try lia; try reflexivity. f_equal. lia.
Qed.

Lemma elf_vma_private data size base h : seg_ok data size base h ->
  has (v_flags (elf_vma data h base)) MAP_SHARED && (v_type (elf_vma data h base) =? VMA_ANON) = false /\
  v_type (elf_vma data h base) = VMA_ELF /\ v_elf_data (elf_vma data h base) <> 0 /\
  has (v_prot (elf_vma data h base)) PROT_WRITE = has (p_flags h) PF_W.
Proof.
  intros Ho. destruct (seg_geometry _ _ _ _ Ho) as (_ & _ & B & C & _). destruct Ho as [[D1 D2] (F1 & F2 & F3) _]. split_and!; [done|done| |].
  - cbn. rewrite u64_small by lia. lia.
  - cbn. unfold seg_prot. destruct (has (p_flags h) PF_R), (has (p_flags h) PF_W), (has (p_flags h) PF_X); done.
Qed.

(** A fault in the area of a segment shows the segment. *)
Lemma demand_fault fp m s c root data size base h x err j : (forall a, 0 <= m a < 256) -> seg_ok data size base h -> in_seg base x h ->
  cr3 (proc_at (sc s) c) = root -> root <> 0 -> current_process (sc s) = Some c -> space_wf s root -> quiet s 4 ->
  has err 1 = false -> (has err 2 = true -> has (p_flags h) PF_W = true) -> vma_find (proc_at (sc s) c) x = Some j -> vma_at s c j = elf_vma data h base ->
  exists s', page_fault_handler fp m x err s = Some s' /\ space_wf s' root /\ sc s' = sc s /\
    user_byte s' root x = Some (demand_byte m data h base x) /\ has (pte_val s' root x) PTE_WRITABLE = has (p_flags h) PF_W /\
    forall y, user_addr y -> y / 4096 <> x / 4096 -> pte_val s' root y = pte_val s root y.
Proof.
  intros Hm Ho Hx Hroot Hr0 Hcur Hw Hq He Hwr Hj Hv. unfold in_seg in Hx. destruct (elf_vma_private _ _ _ _ Ho) as (P1 & P2 & P3 & P4).
  destruct (seg_geometry _ _ _ _ Ho) as (_ & A & B & C & D & E & F & _). assert (user_addr x) as Hu by (unfold user_addr; lia). subst root.
  assert (has (v_flags (vma_at s c j)) MAP_SHARED && (v_type (vma_at s c j) =? VMA_ANON) = false) as Q1 by by rewrite Hv.
  assert (v_type (vma_at s c j) <> VMA_DEVICE) as Q2 by by rewrite Hv.
  assert (has err 2 = true -> has (v_prot (vma_at s c j)) PROT_WRITE = true) as Q3 by (rewrite Hv, P4; done).
  pose proof (private_fault_spec fp m s c x (has err 2) j Hw Hu Hq Hj Q3 Q1 Q2) as H. rewrite Hv in H.
  destruct (vma_handle_fault _ _ _ _ _ _) as [s' r] eqn:Ef. destruct H as (-> & W & _ & _ & Sc & Pr & Wr & _ & Wd & Oth). exists s'.
  split_and!; [|done|done| |by rewrite Wr, P4|done].
  - eapply page_fault_area; [done|unfold KERNEL_VMA, user_addr in *; lia|done|done|exact Ef].
  - unfold user_byte. rewrite Pr. f_equal. unfold page_byte. rewrite Wd by zsolve. unfold page_contents. rewrite P2. cbn [Z.eqb VMA_ELF VMA_FILE Pos.eqb andb]. rewrite (proj2 (Z.eqb_neq _ 0) P3). cbn [negb].
    rewrite (demand_byte_spec m data size) by (done || rewrite ?page_down_spec; zsolve). f_equal. rewrite page_down_spec. zsolve.
Qed.

Lemma load_end_nonneg base l : 0 <= load_end_of base l.
Proof. induction l as [|h l IH]; cbn; [lia|]. unfold load_end_of in IH. lia. Qed.

Lemma stale_free rest x : Forall (fun v => v_in_use v = false) rest -> find_index (holds x) rest = None.
Proof. intros Hr. apply find_index_None. intros i v Hv. rewrite Forall_lookup in Hr. unfold holds. by rewrite (Hr i v Hv). Qed.

(** ** The stack page *)

Definition is_byte (b : Z) : Prop := 0 <= b < 256.

Lemma page_bytes_length m p : length (page_bytes m p) = 4096%nat.
Proof. unfold page_bytes. change (fun i => le_bytes 8 (ldq m (p + 8 * i))) with (le_bytes 8 ∘ (fun i => ldq m (p + 8 * i))). by rewrite list_fmap_compose, length_cells, length_fmap, length_seqZ. Qed.

Lemma page_bytes_range m p : Forall is_byte (page_bytes m p).
Proof. unfold page_bytes. apply Forall_join, Forall_fmap, Forall_true. intros i. apply le_bytes_range. Qed.

Lemma page_bytes_fill m p page : p mod 4096 = 0 -> length page = 4096%nat -> Forall is_byte page ->
  page_bytes (fill_page p (fun i => rd64 page (8 * i)) m) p = page.
Proof.
  intros Hp Hl Hb. unfold page_bytes. rewrite (list_fmap_ext _ (fun i => slice page (Z.of_nat 8 * i) (Z.of_nat 8))).
  - etrans; [apply (slices_join page 8 512); lia|apply take_ge; lia].
  - intros k i [-> Hi]%lookup_seqZ. rewrite fill_inside by lia. apply le_bytes_rd; [done|lia|lia].
Qed.

(** Bytes the strings take. *)
Definition strings_size (l : list (option (list Z))) : Z := foldr (fun a n => Z.of_nat (length (arg_text a)) + 1 + n) 0 l.

Lemma strings_size_app l k : strings_size (l ++ k) = strings_size l + strings_size k.
Proof. induction l as [|a l IH]; [done|]. cbn [app strings_size foldr]. fold (strings_size (l ++ k)) (strings_size l). lia. Qed.

Lemma strings_size_rev l : strings_size (rev l) = strings_size l.
Proof. induction l as [|a l IH]; [done|]. cbn [rev]. rewrite strings_size_app, IH. cbn [strings_size foldr]. fold (strings_size l). lia. Qed.

Lemma strings_size_nonneg l : 0 <= strings_size l.
Proof. induction l as [|a l IH]; [done|]. cbn [strings_size foldr]. fold (strings_size l). lia. Qed.

(** The argument [a] stored at offset [o] of the page, between [lo] and [hi]. *)
Definition string_at (page : list Z) (lo hi : Z) (a : option (list Z)) (o : Z) : Prop :=
  let n := Z.of_nat (length (arg_text a)) + 1 in lo <= o /\ o + n <= hi /\ slice page o n = arg_text a ++ [0].

Lemma push_args_spec virt rargs page wp ptrs : length page = 4096%nat -> Forall is_byte page -> Forall (fun a => Forall is_byte (arg_text a)) rargs ->
  0 <= wp <= 4096 -> strings_size rargs <= wp ->
  exists page' offs, push_args virt rargs page wp ptrs = (page', Some (wp - strings_size rargs, ((fun o => u64 (virt + o)) <$> offs) ++ ptrs)) /\
    length page' = 4096%nat /\ Forall is_byte page' /\ Forall2 (string_at page' (wp - strings_size rargs) wp) (rev rargs) offs /\
    forall o n, wp <= o -> 0 <= n -> slice page' o n = slice page o n.
Proof.
  revert page wp ptrs. induction rargs as [|a r IH]; intros page wp ptrs Hl Hb Ha Hw Hn; cbn [push_args strings_size foldr rev].
  { exists page, []. rewrite Z.sub_0_r. by split_and!. }
  apply Forall_cons in Ha as [Ha Hr]. fold (strings_size r) in *. pose proof (strings_size_nonneg r). cbn [strings_size foldr] in Hn. fold (strings_size r) in Hn.
  set (n := Z.of_nat (length (arg_text a)) + 1) in *. replace (wp <? n) with false by lia.
  set (page1 := blit page (wp - n) (arg_text a ++ [0])). assert (Z.of_nat (length (arg_text a ++ [0])) = n) as En by (rewrite length_app; cbn [length]; lia).
  assert (length page1 = 4096%nat) as L1 by (unfold page1; rewrite length_blit; lia).
  assert (Forall is_byte page1) as B1.
  { unfold page1, blit. rewrite !Forall_app. split_and!; [by apply Forall_take|done|by repeat constructor|by apply Forall_drop]. }
  destruct (IH page1 (wp - n) (u64 (virt + (wp - n)) :: ptrs) L1 B1 Hr ltac:(lia) ltac:(lia)) as (page' & offs & E & L' & B' & F & K). exists page', (offs ++ [wp - n]).
  rewrite E. replace (wp - (n + strings_size r)) with (wp - n - strings_size r) by lia. split_and!; [by rewrite fmap_app, <- app_assoc|done|done| |].
  - apply Forall2_app.
    + eapply Forall2_impl; [exact F|]. intros b o (A1 & A2 & A3). split; [lia|]. split; [lia|exact A3].
    + constructor; [|constructor]. repeat split; [lia|lia|]. fold n. rewrite K by lia. pose proof (slice_blit page (wp - n) (arg_text a ++ [0]) ltac:(lia) ltac:(lia)) as Hs. rewrite En in Hs. exact Hs.
  - intros o k Ho Hk. rewrite K by lia. unfold page1. apply slice_blit_out; lia.
Qed.

Lemma push_args_full virt rargs page wp ptrs : 0 <= wp < strings_size rargs -> (push_args virt rargs page wp ptrs).2 = None.
Proof.
  revert page wp ptrs. induction rargs as [|a r IH]; intros page wp ptrs Hn; cbn [push_args strings_size foldr] in *; [lia|fold (strings_size r) in Hn].
  case_if; [done|]. b2p. apply IH. lia.
Qed.

Lemma rd_block page start ws k w : 0 <= start <= Z.of_nat (length page) -> ws !! k = Some w ->
  rd64 (blit page start (mjoin (le_bytes 8 <$> ws))) (start + 8 * Z.of_nat k) = u64 w.
Proof.
  intros Hs Hk. unfold blit, rd64. assert (Z.of_nat (length (take (Z.to_nat start) page)) = start) as El by (rewrite length_take; lia).
  rewrite rd_le_skip, El by lia. replace (start + 8 * Z.of_nat k - start) with (Z.of_nat 8 * Z.of_nat k) by lia. by rewrite (rd_cells 8 ws _ k w).
Qed.

Lemma store_page s p page : p mod 4096 = 0 -> length page = 4096%nat -> Forall is_byte page ->
  let s' := s <| phys ::= fill_page p (fun i => rd64 page (8 * i)) |> in
  page_bytes (phys s') p = page /\ forall a, a / 4096 <> p / 4096 -> ldq (phys s') a = ldq (phys s) a.
Proof. intros Hp Hl Hb. split; [by apply page_bytes_fill|]. intros a Ha. by apply fill_outside. Qed.

Lemma setup_stack_frame p virt argv r s a : p mod 4096 = 0 -> a / 4096 <> p / 4096 -> ldq (phys (elf_setup_stack p virt argv r s).1) a = ldq (phys s) a.
Proof.
  intros Hp Ha. unfold elf_setup_stack. destruct (push_args _ _ _ _ _) as [page [[wp ptrs]|]]; [|by apply fill_outside]. repeat case_if; by apply fill_outside.
Qed.

Definition block_bytes (argc : nat) (r : option elf_load_result) : Z := 8 * (Z.of_nat argc + 3 + Z.of_nat (length (aux_of r))).

Lemma block_length argc (ptrs : list Z) r : length ptrs = argc -> 8 * Z.of_nat (length (Z.of_nat argc :: ptrs ++ [0; 0] ++ aux_of r)) = block_bytes argc r.
Proof. intros <-. unfold block_bytes. cbn [length app]. rewrite length_app. cbn [length]. lia. Qed.

(** The strings of the arguments, pushed on the page. *)
Lemma push_argv p virt args s : Forall (fun a => Forall is_byte (arg_text a)) args -> strings_size args <= 4096 ->
  exists page offs, push_args virt (rev args) (page_bytes (phys s) p) PAGE_SIZE [] = (page, Some (4096 - strings_size args, (fun o => u64 (virt + o)) <$> offs)) /\
    length page = 4096%nat /\ Forall is_byte page /\ Forall2 (string_at page (4096 - strings_size args) 4096) args offs.
Proof.
  intros Ha Hs. destruct (push_args_spec virt (rev args) (page_bytes (phys s) p) PAGE_SIZE []) as (page & offs & E & L & B & F & _);
    [apply page_bytes_length|apply page_bytes_range|by apply Forall_rev|unfold PAGE_SIZE; lia|by rewrite strings_size_rev|].
  exists page, offs. rewrite strings_size_rev, rev_involutive, app_nil_r in *. done.
Qed.

Lemma setup_stack_full p virt argv r s : let args := take ELF_MAX_ARGS argv in
  Forall (fun a => Forall is_byte (arg_text a)) args -> 4096 < strings_size args + block_bytes (length args) r -> (elf_setup_stack p virt argv r s).2 = None.
Proof.
  intros args Ha Hs. unfold elf_setup_stack. fold args. destruct (Z.ltb_spec 4096 (strings_size args)).
  - pose proof (push_args_full virt (rev args) (page_bytes (phys s) p) PAGE_SIZE []) as Hf. rewrite strings_size_rev in Hf. destruct (push_args _ _ _ _ _) as [page o]. cbn [snd] in Hf. by rewrite Hf by (unfold PAGE_SIZE; lia).
  - destruct (push_argv p virt args s Ha) as (page & offs & -> & _ & _ & F); [lia|]. apply Forall2_length in F. rewrite (block_length (length args)) by by rewrite length_fmap.
    by replace (4096 - strings_size args <? block_bytes (length args) r) with true by lia.
Qed.

Lemma setup_stack_fits p virt argv r s : let args := take ELF_MAX_ARGS argv in
  p mod 4096 = 0 -> Forall (fun a => Forall is_byte (arg_text a)) args -> strings_size args + block_bytes (length args) r <= 4096 ->
  exists start ws page offs, let page' := blit page start (mjoin (le_bytes 8 <$> ws)) in
    elf_setup_stack p virt argv r s = (s <| phys ::= fill_page p (fun i => rd64 page' (8 * i)) |>, Some (u64 (virt + start), u64 (virt + start + 8))) /\
    0 <= start <= 4096 /\ start mod 16 = 0 /\ length page = 4096%nat /\ length page' = 4096%nat /\ Forall is_byte page' /\
    ws = Z.of_nat (length args) :: ((fun o => u64 (virt + o)) <$> offs) ++ [0; 0] ++ aux_of r /\
    Forall2 (string_at page' start 4096) args offs.
Proof.
  intros args Hp Ha Hs. assert (0 <= block_bytes (length args) r) as Hb0 by (unfold block_bytes; lia). destruct (push_argv p virt args s Ha) as (page & offs & E & L & B & F); [lia|].
  pose proof (Forall2_length _ _ _ F) as Fl. set (ws := Z.of_nat (length args) :: ((fun o => u64 (virt + o)) <$> offs) ++ [0; 0] ++ aux_of r).
  assert (8 * Z.of_nat (length ws) = block_bytes (length args) r) as Ew by (apply block_length; by rewrite length_fmap).
  set (t := 4096 - strings_size args - block_bytes (length args) r). set (start := Z.land t (Z.lnot 15)).
  assert (start = t - t mod 16) as Est by apply (land_lnot_ones t 4 ltac:(lia)). pose proof (strings_size_nonneg args).
  assert (Z.of_nat (length (mjoin (le_bytes 8 <$> ws))) = block_bytes (length args) r) as El by (rewrite length_cells; lia).
  exists start, ws, page, offs. cbv zeta. assert (0 <= start <= t) as Hst by zsolve. assert (start + block_bytes (length args) r <= 4096 - strings_size args) as Hend by lia. split_and!; try lia; try done.
  - unfold elf_setup_stack. fold args. rewrite E. fold ws. rewrite Ew. replace (4096 - strings_size args <? block_bytes (length args) r) with false by lia. fold t start. by replace (start <? 0) with false by lia.
  - zsolve.
  - rewrite length_blit; lia.
  - unfold blit. rewrite !Forall_app. split_and!; [by apply Forall_take| |by apply Forall_drop]. apply Forall_join, Forall_fmap, Forall_true. intros w. apply le_bytes_range.
  - eapply Forall2_impl; [exact F|]. intros a o (A1 & A2 & A3). split; [lia|]. split; [lia|]. rewrite slice_blit_out by lia. exact A3.
Qed.

Definition segments (m : Z -> Z) (data : Z) : list Elf64_Phdr := loads m data 0 (Z.to_nat (e_phnum (ehdr_at m data))).

(** A sound image: bytes, and segments in the file and apart in memory. *)
Definition image_ok (m : Z -> Z) (data size base : Z) : Prop :=
  (forall a, 0 <= m a < 256) /\ Forall (seg_ok data size base) (segments m data) /\ segs_apart base (segments m data).

Lemma segments_eager m root data size base target s n : image_ok m data size base -> space_wf s root -> quiet s n -> 4 * total_pages_of base (segments m data) <= n ->
  exists s', elf_load_segments m root data size base false target s = (s', Some (load_end_of base (segments m data))) /\
    space_wf s' root /\ quiet s' (n - 4 * total_pages_of base (segments m data)) /\ keeps_data s s' root /\ sc s' = sc s /\
    (forall h x, h ∈ segments m data -> in_seg base x h -> shows m data h base root s' x) /\
    (forall x, user_addr x -> (forall h, h ∈ segments m data -> ~ in_seg base x h) -> pte_val s' root x = pte_val s root x).
Proof.
  intros (Hm & Hok & Hap) Hw Hq Hn. unfold elf_load_segments.
  destruct (eager_loop m root data size base (match target with Some c => Some c | None => current_process (sc s) end) (Z.to_nat (e_phnum (ehdr_at m data))) 0 s 0 n Hm ltac:(lia) Hok Hap Hw Hq Hn) as (s' & -> & W & Q & K & C & Z & V).
  exists s'. rewrite Z.max_r by apply load_end_nonneg. done.
Qed.

Lemma segments_demand m root data size base c s : image_ok m data size base -> (c < length (procs (sc s)))%nat ->
  Forall (fun v => v_in_use v = false) (vmas (proc_at (sc s) c)) -> (length (segments m data) <= length (vmas (proc_at (sc s) c)))%nat ->
  exists s', elf_load_segments m root data size base true (Some c) s = (s', Some (load_end_of base (segments m data))) /\
    (s' = s \/ exists l, s' = with_vmas c l s) /\
    vmas (proc_at (sc s') c) = ((fun h => elf_vma data h base) <$> segments m data) ++ drop (length (segments m data)) (vmas (proc_at (sc s) c)).
Proof.
  intros (Hm & Hok & Hap) Hc Hf Hl. unfold elf_load_segments.
  destruct (demand_loop m root data size base c (Z.to_nat (e_phnum (ehdr_at m data))) 0 s 0 [] (vmas (proc_at (sc s) c)) ltac:(lia) Hok Hc eq_refl ltac:(constructor) Hf Hl) as (s' & -> & F & V).
  exists s'. rewrite Z.max_r by apply load_end_nonneg. done.
Qed.

Lemma demand_faults m root data size base c s :
  image_ok m data size base -> (c < length (procs (sc s)))%nat ->
  Forall (fun v => v_in_use v = false) (vmas (proc_at (sc s) c)) -> (length (segments m data) <= length (vmas (proc_at (sc s) c)))%nat ->
  exists s', elf_load_segments m root data size base true (Some c) s = (s', Some (load_end_of base (segments m data))) /\
    phys s' = phys s /\ frames s' = frames s /\
    forall fp t h x err, vmas (proc_at (sc t) c) = vmas (proc_at (sc s') c) ->
      cr3 (proc_at (sc t) c) = root -> root <> 0 -> current_process (sc t) = Some c -> space_wf t root -> quiet t 4 ->
      h ∈ segments m data -> in_seg base x h -> has err 1 = false -> (has err 2 = true -> has (p_flags h) PF_W = true) ->
      exists t', page_fault_handler fp m x err t = Some t' /\ space_wf t' root /\
        user_byte t' root x = Some (demand_byte m data h base x) /\ has (pte_val t' root x) PTE_WRITABLE = has (p_flags h) PF_W /\
        forall y, user_addr y -> y / 4096 <> x / 4096 -> pte_val t' root y = pte_val t root y.
Proof.
  intros Hi Hc Hf Hl. destruct (segments_demand m root data size base c s Hi Hc Hf Hl) as (s' & E & F & V). exists s'.
  split; [done|]. split; [by destruct F as [-> |[? ->]]|]. split; [by destruct F as [-> |[? ->]]|]. destruct Hi as (Hm & Hok & Hap).
  intros fp t h x err Hv Hr H0 Hcur Hw Hq Hh Hin He Hwr. pose proof Hok as Ho. rewrite Forall_forall in Ho. specialize (Ho h Hh).
  destruct (find_seg data size base (segments m data) (drop (length (segments m data)) (vmas (proc_at (sc s) c))) h x Hok Hap Hh Hin) as (j & Hj & Lj). rewrite <- V, <- Hv in Hj, Lj.
  destruct (demand_fault fp m t c root data size base h x err j Hm Ho Hin Hr H0 Hcur Hw Hq He Hwr Hj) as (t' & A1 & A2 & _ & A3 & A4 & A5); [by apply list_lookup_total_correct|]. by exists t'.
Qed.

(** The layout the ABI asks for: at [start] the number of arguments, a pointer to
    each of them (its characters and a terminator, stored above), two null
    pointers and the auxiliary vector. *)
Definition abi_stack (page : list Z) (virt start : Z) (args : list (option (list Z))) (aux : list Z) : Prop :=
  let argc := Z.of_nat (length args) in
  rd64 page start = argc /\
  (forall i a, args !! i = Some a -> exists o, rd64 page (start + 8 * (Z.of_nat i + 1)) = u64 (virt + o) /\
    start <= o /\ slice page o (Z.of_nat (length (arg_text a)) + 1) = arg_text a ++ [0]) /\
  rd64 page (start + 8 * (argc + 1)) = 0 /\ rd64 page (start + 8 * (argc + 2)) = 0 /\
  forall k v, aux !! k = Some v -> rd64 page (start + 8 * (argc + 3 + Z.of_nat k)) = u64 v.

Lemma setup_stack_abi p virt argv r s : let args := take ELF_MAX_ARGS argv in
  p mod 4096 = 0 -> Forall (fun a => Forall is_byte (arg_text a)) args -> strings_size args + block_bytes (length args) r <= 4096 ->
  exists start page,
    elf_setup_stack p virt argv r s = (s <| phys ::= fill_page p (fun i => rd64 page (8 * i)) |>, Some (u64 (virt + start), u64 (virt + start + 8))) /\
    length page = 4096%nat /\ Forall is_byte page /\ 0 <= start /\ start mod 16 = 0 /\ abi_stack page virt start args (aux_of r).
Proof.
  intros args Hp Ha Hs. destruct (setup_stack_fits p virt argv r s Hp Ha Hs) as (start & ws & page & offs & E' & H0 & H16 & Hl & Hl' & Hb & Ews & Hoff).
  exists start, (blit page start (mjoin (le_bytes 8 <$> ws))). fold args in Ews, Hoff. pose proof (Forall2_length _ _ _ Hoff) as Ho. split_and!; [done|done|done|lia|done|].
  assert (forall k w, ws !! k = Some w -> rd64 (blit page start (mjoin (le_bytes 8 <$> ws))) (start + 8 * Z.of_nat k) = u64 w) as R by (intros k w; apply rd_block; lia).
  assert (forall k, ws !! S (length args + k) = ([0; 0] ++ aux_of r) !! k) as Wk.
  { intros k. rewrite Ews. etrans; [apply (lookup_app_r ((fun o => u64 (virt + o)) <$> offs) _ (length args + k)); rewrite length_fmap; lia|]. rewrite length_fmap. f_equal. lia. }
  unfold abi_stack. cbv zeta. split_and!.
  - pose proof (R 0%nat _ ltac:(by rewrite Ews)) as R0. change (8 * Z.of_nat 0) with 0 in R0. rewrite Z.add_0_r in R0. rewrite R0. apply u64_small. unfold args. rewrite length_take. unfold ELF_MAX_ARGS. lia.
  - intros i a Hi. destruct (Forall2_lookup_l _ _ _ _ _ Hoff Hi) as (o & Hoi & A1 & _ & A3). exists o. split_and!; [|done|done].
    replace (Z.of_nat i + 1) with (Z.of_nat (S i)) by lia. rewrite (R (S i) (u64 (virt + o))); [apply u64_small, u64_range|].
    rewrite Ews. etrans; [apply (lookup_app_l ((fun o => u64 (virt + o)) <$> offs) _ i); rewrite length_fmap; by eapply lookup_lt_Some|]. by rewrite list_lookup_fmap, Hoi.
  - replace (Z.of_nat (length args) + 1) with (Z.of_nat (S (length args + 0))) by lia. by rewrite (R _ 0) by by rewrite Wk.
  - replace (Z.of_nat (length args) + 2) with (Z.of_nat (S (length args + 1))) by lia. by rewrite (R _ 0) by by rewrite Wk.
  - intros k v Hk. replace (Z.of_nat (length args) + 3 + Z.of_nat k) with (Z.of_nat (S (length args + (2 + k)))) by lia. by apply R; rewrite Wk.
Qed.

(** ** Claims *)

(** C29: the initial stack is the one the ABI asks for.  It is set up exactly when
    the strings and the table fit in one page; then the stack pointer is 16-byte
    aligned and points to argc, followed by one pointer per argument to a copy
    of its (at most 255) characters with a terminator, the two null pointers and
    the auxiliary vector; nothing outside the page changes. *)
Theorem elf_setup_stack_correct p virt argv r s :
  let args := take ELF_MAX_ARGS argv in let argc := Z.of_nat (length args) in
  let size := strings_size args + 8 * (argc + 3 + Z.of_nat (length (aux_of r))) in
  p mod 4096 = 0 -> Forall (fun a => Forall is_byte (arg_text a)) args ->
  let '(s', out) := elf_setup_stack p virt argv r s in
  let page := page_bytes (phys s') p in
  (forall a, a / 4096 <> p / 4096 -> ldq (phys s') a = ldq (phys s) a) /\
  (4096 < size -> out = None) /\
  (size <= 4096 -> exists start, out = Some (u64 (virt + start), u64 (virt + start + 8)) /\ 0 <= start /\ start mod 16 = 0 /\
    rd64 page start = argc /\
    (forall i a, args !! i = Some a -> exists o, rd64 page (start + 8 * (Z.of_nat i + 1)) = u64 (virt + o) /\
      start <= o /\ slice page o (Z.of_nat (length (arg_text a)) + 1) = arg_text a ++ [0]) /\
    rd64 page (start + 8 * (argc + 1)) = 0 /\ rd64 page (start + 8 * (argc + 2)) = 0 /\
    forall k v, aux_of r !! k = Some v -> rd64 page (start + 8 * (argc + 3 + Z.of_nat k)) = u64 v).
Proof.
  intros args argc size Hp Ha. destruct (elf_setup_stack p virt argv r s) as [s' out] eqn:E. split_and!.
  - intros a Hne. pose proof (setup_stack_frame p virt argv r s a Hp Hne) as H. by rewrite E in H.
  - intros Hs. pose proof (setup_stack_full p virt argv r s Ha Hs) as H. by rewrite E in H.
  - intros Hs. destruct (setup_stack_abi p virt argv r s Hp Ha Hs) as (start & page & E' & Hl & Hb & H0 & H16 & A). rewrite E in E'. apply pair_equal_spec in E' as [-> ->].
    exists start. destruct (store_page s p _ Hp Hl Hb) as [-> _]. done.
Qed.

(** Loading a program at once gives it the memory its file describes: with
    enough free pages every address of every segment shows the byte of the file,
    or zero behind the file part, with the segment's rights; every other page of
    the address space is as before, and the end of the last segment is
    reported. *)
Theorem elf_eager_loaded m root data size base target s :
  image_ok m data size base -> space_wf s root -> quiet s (4 * total_pages_of base (segments m data)) ->
  exists s', elf_load_segments m root data size base false target s = (s', Some (load_end_of base (segments m data))) /\
    space_wf s' root /\ sc s' = sc s /\
    (forall h x, h ∈ segments m data -> in_seg base x h -> user_byte s' root x = Some (seg_byte m data h base x) /\
      has (pte_val s' root x) PTE_WRITABLE = has (p_flags h) PF_W /\ has (pte_val s' root x) PTE_NX = negb (has (p_flags h) PF_X)) /\
    (forall x, user_addr x -> (forall h, h ∈ segments m data -> ~ in_seg base x h) -> pte_val s' root x = pte_val s root x).
Proof.
  intros Hi Hw Hq. destruct (segments_eager m root data size base target s _ Hi Hw Hq ltac:(lia)) as (s' & E & W & _ & _ & C & Z & V). exists s'. split_and!; [done..| |done].
  intros h x Hh Hx. destruct (Z h x Hh Hx) as (A1 & A2 & A3 & _). done.
Qed.


(** The first page of a segment that is loaded on demand starts with whatever
    lies in front of the segment's data.  For a segment at the start of the
    file these are bytes of kernel memory in front of the image, which the
    program can read. *)
Theorem elf_demand_leaks m root data size base c s :
  image_ok m data size base -> (c < length (procs (sc s)))%nat ->
  Forall (fun v => v_in_use v = false) (vmas (proc_at (sc s) c)) -> (length (segments m data) <= length (vmas (proc_at (sc s) c)))%nat ->
  exists s' e, elf_load_segments m root data size base true (Some c) s = (s', Some e) /\
    forall fp t h x, vmas (proc_at (sc t) c) = vmas (proc_at (sc s') c) ->
      cr3 (proc_at (sc t) c) = root -> root <> 0 -> current_process (sc t) = Some c -> space_wf t root -> quiet t 4 ->
      h ∈ segments m data -> p_offset h = 0 -> p_memsz h <> 0 -> seg_start h base <= x < seg_vaddr h base ->
      exists t', page_fault_handler fp m x 4 t = Some t' /\ user_byte t' root x = Some (m (data - (seg_vaddr h base - x))).
Proof.
  intros Hi Hc Hf Hl. destruct (demand_faults m root data size base c s Hi Hc Hf Hl) as (s' & E & _ & _ & D). exists s', (load_end_of base (segments m data)). split; [done|].
  intros fp t h x Hv Hr H0 Hcur Hw Hq Hh Hz Hn Hx. destruct Hi as (Hm & Hok & Hap). rewrite Forall_forall in Hok. pose proof (Hok h Hh) as Ho.
  assert (in_seg base x h) as Hin by (destruct (seg_geometry _ _ _ _ Ho) as (_ & _ & B & _ & _ & F & _); destruct Ho as [_ (_ & G & _) _]; unfold in_seg; lia).
  destruct (D fp t h x 4 Hv Hr H0 Hcur Hw Hq Hh Hin eq_refl ltac:(done)) as (t' & A1 & _ & A3 & _). exists t'. split; [done|]. rewrite A3. f_equal. unfold demand_byte.
  destruct Ho as [_ (_ & G & _) _]. replace (x <? seg_vaddr h base + p_filesz h) with true by lia. f_equal. lia.
Qed.

(** ** A small program

    A code segment in the middle of a page and a data segment whose file part
    is shorter than its memory. *)

Definition demo_elf : list Z :=
  [0x7F; 69; 76; 70; 2; 1; 1] ++ replicate 9 0 ++ le_bytes 2 2 ++ le_bytes 2 62 ++ le_bytes 4 1 ++ le_bytes 8 0x401010 ++ le_bytes 8 64 ++
  le_bytes 8 0 ++ le_bytes 4 0 ++ le_bytes 2 64 ++ le_bytes 2 56 ++ le_bytes 2 2 ++ replicate 6 0 ++
  le_bytes 4 1 ++ le_bytes 4 5 ++ le_bytes 8 0 ++ le_bytes 8 0x401010 ++ le_bytes 8 0 ++ le_bytes 8 8 ++ le_bytes 8 8 ++ le_bytes 8 1 ++
  le_bytes 4 1 ++ le_bytes 4 6 ++ le_bytes 8 176 ++ le_bytes 8 0x403000 ++ le_bytes 8 0 ++ le_bytes 8 4 ++ le_bytes 8 12 ++ le_bytes 8 1 ++
  [1; 2; 3; 4].

Definition demo_at : Z := 0x100000.
Definition demo_kmem : Z -> Z := poke demo_at demo_elf (fun _ => 7).

Definition demo_text : Elf64_Phdr := mk_phdr 1 5 0 0x401010 0 8 8 1.
Definition demo_data : Elf64_Phdr := mk_phdr 1 6 176 0x403000 0 4 12 1.

Lemma demo_segments : segments demo_kmem demo_at = [demo_text; demo_data].
Proof. by vm_compute. Qed.

Lemma demo_text_in : demo_text ∈ segments demo_kmem demo_at.
Proof. rewrite demo_segments. left. Qed.

Lemma demo_data_in : demo_data ∈ segments demo_kmem demo_at.
Proof. rewrite demo_segments. right. left. Qed.

Lemma demo_bytes : seg_byte demo_kmem demo_at demo_data 0 0x403003 = 4 /\ seg_byte demo_kmem demo_at demo_data 0 0x403004 = 0 /\
  seg_byte demo_kmem demo_at demo_text 0 0x401010 = 0x7F /\ demo_kmem (demo_at - (seg_vaddr demo_text 0 - 0x401008)) = 7.
Proof. by vm_compute. Qed.

Lemma demo_addrs : in_seg 0 0x403003 demo_data /\ in_seg 0 0x403004 demo_data /\ seg_vaddr demo_data 0 <= 0x403003 < seg_end demo_data 0 /\
  seg_start demo_text 0 <= 0x401008 < seg_vaddr demo_text 0.
Proof. by vm_compute. Qed.

Lemma demo_image_ok : image_ok demo_kmem demo_at 180 0.
Proof.
  split; [|rewrite demo_segments; split; [by repeat constructor|]].
  - intros a. unfold demo_kmem, poke. case_if; [|lia]. assert (Forall is_byte demo_elf) as Hb by (by repeat constructor). b2p. apply (Forall_lookup_1 _ _ _ _ Hb (zget_lookup demo_elf (a - demo_at) ltac:(lia))).
  - split; [|by repeat constructor]. repeat constructor. by vm_compute.
Qed.

Lemma elf_eager_loaded_witness : exists s', elf_load_segments demo_kmem 0x2000 demo_at 180 0 false None (demo_mm 0) = (s', Some 0x404000) /\
  user_byte s' 0x2000 0x403003 = Some 4 /\ user_byte s' 0x2000 0x403004 = Some 0.
Proof.
  assert (4 * total_pages_of 0 (segments demo_kmem demo_at) = 8) as En by (rewrite demo_segments; by vm_compute).
  assert (load_end_of 0 (segments demo_kmem demo_at) = 0x404000) as Ee by (rewrite demo_segments; by vm_compute).
  destruct (elf_eager_loaded demo_kmem 0x2000 demo_at 180 0 None (demo_mm 0) demo_image_ok (demo_mm_space 0) ltac:(rewrite En; apply demo_mm_quiet; lia)) as (s' & E & _ & _ & H & _).
  exists s'. rewrite Ee in E. split; [exact E|]. split.
  - etrans; [exact (proj1 (H _ _ demo_data_in (proj1 demo_addrs)))|]. apply (f_equal Some), demo_bytes.
  - etrans; [exact (proj1 (H _ _ demo_data_in (proj1 (proj2 demo_addrs))))|]. apply (f_equal Some), demo_bytes.
Defined.

(** The process after exec has dropped its areas. *)
Definition demo_bare : vm := with_vmas 1 (replicate 32 vma_zero) (demo_mm 0).

Definition demo_loaded : vm := (elf_load_segments demo_kmem 0x2000 demo_at 180 0 true (Some 1%nat) demo_bare).1.

Lemma demo_bare_ready : (1 < length (procs (sc demo_bare)))%nat /\ Forall (fun v => v_in_use v = false) (vmas (proc_at (sc demo_bare) 1)) /\
  (length (segments demo_kmem demo_at) <= length (vmas (proc_at (sc demo_bare) 1)))%nat.
Proof. split; [cbn; lia|]. split; [by repeat constructor|]. rewrite demo_segments. cbn. lia. Qed.

Lemma demo_loaded_ready : cr3 (proc_at (sc demo_loaded) 1) = 0x2000 /\ 0x2000 <> 0 /\ current_process (sc demo_loaded) = Some 1%nat /\ space_wf demo_loaded 0x2000 /\ quiet demo_loaded 4.
Proof.
  split; [by vm_compute|]. split; [done|]. split; [by vm_compute|].
  destruct (space_same (demo_mm 0) demo_loaded 0x2000) as (W & _ & _ & Q); [by vm_compute..|]. split; [apply W, demo_mm_space|apply Q, demo_mm_quiet; lia].
Qed.

Lemma demo_rights : has 6 1 = false /\ (has 6 2 = true -> has (p_flags demo_data) PF_W = true) /\ p_offset demo_text = 0 /\ p_memsz demo_text <> 0.
Proof. by vm_compute. Qed.


Lemma elf_demand_leaks_witness : exists t', page_fault_handler (fun _ _ => None) demo_kmem 0x401008 4 demo_loaded = Some t' /\ user_byte t' 0x2000 0x401008 = Some 7.
Proof.
  destruct demo_bare_ready as (R1 & R2 & R3), demo_loaded_ready as (Q1 & Q2 & Q3 & Q4 & Q5), demo_rights as (_ & _ & P1 & P2), demo_addrs as (_ & _ & _ & A).
  destruct (elf_demand_leaks demo_kmem 0x2000 demo_at 180 0 1 demo_bare demo_image_ok R1 R2 R3) as (s' & e & E & H).
  assert (demo_loaded = s') as <- by exact (f_equal fst E).
  destruct (H (fun _ _ => None) demo_loaded demo_text 0x401008 eq_refl Q1 Q2 Q3 Q4 Q5 demo_text_in P1 P2 A) as (t' & F & B).
  exists t'. split; [exact F|]. etrans; [exact B|]. apply (f_equal Some), demo_bytes.
Defined.

Lemma elf_setup_stack_correct_witness : exists start, (elf_setup_stack 0x6000 0x7FFFF000 [Some [115; 104]; Some [45; 99]] None (demo_mm 0)).2 = Some (u64 (0x7FFFF000 + start), u64 (0x7FFFF000 + start + 8)) /\
  rd64 (page_bytes (phys (elf_setup_stack 0x6000 0x7FFFF000 [Some [115; 104]; Some [45; 99]] None (demo_mm 0)).1) 0x6000) start = 2.
Proof.
  pose proof (elf_setup_stack_correct 0x6000 0x7FFFF000 [Some [115; 104]; Some [45; 99]] None (demo_mm 0) eq_refl ltac:(by repeat constructor)) as H.
  destruct (elf_setup_stack _ _ _ _ _) as [s' out]. destruct H as (_ & _ & H). destruct (H ltac:(by vm_compute)) as (start & Eo & _ & _ & R & _). exists start. split; [exact Eo|exact R].
Defined.

End Elf.
