(* ===== verification/Epoll.v ===== *)
(** * Epoll instances (fs/epoll.c)

    A pool of instances, each with an array of watched descriptors of which the
    first [watch_count] are in use.  The contract is a finite sequence of
    watches: add appends, modify and delete act on the first watch of the
    descriptor. *)

From stdpp Require Import prelude.
From Stdlib Require Import ZArith Lia.
From S2P Require Import Prelude.
Local Open Scope Z_scope.

Module Epoll.

Definition EPOLLIN : Z := 0x001.
Definition EPOLLOUT : Z := 0x004.
Definition EPOLLET : Z := 0x80000000.
Definition EPOLL_CTL_ADD : Z := 1.
Definition EPOLL_CTL_MOD : Z := 2.
Definition EPOLL_CTL_DEL : Z := 3.
Definition EPOLL_MAX_INSTANCES : nat := 16.
Definition EPOLL_MAX_WATCHED : nat := 32.

Record epoll_watch := mk_watch { w_fd : Z; w_events : Z; w_data : Z; et_reported : bool }.

#[export] Instance eta_watch : Eta epoll_watch := fun w => mk_watch (w_fd w) (w_events w) (w_data w) (et_reported w).

Definition watch_zero : epoll_watch := mk_watch 0 0 0 false.
#[export] Instance watch_inhabited : Inhabited epoll_watch := populate watch_zero.

Record epoll_instance := mk_epoll { in_use : bool; owner_pid : Z; watches : list epoll_watch; watch_count : nat }.

#[export] Instance eta_epoll : Eta epoll_instance := fun e =>
  mk_epoll (in_use e) (owner_pid e) (watches e) (watch_count e).

Definition epoll_zero : epoll_instance := mk_epoll false 0 (replicate EPOLL_MAX_WATCHED watch_zero) 0.
#[export] Instance epoll_inhabited : Inhabited epoll_instance := populate epoll_zero.

Abbreviation pool := (list epoll_instance).

Definition epoll_create_instance (owner : Z) (l : pool) : pool * Z :=
  match find_index (fun e => negb (in_use e)) l with
  | Some i => (<[i := epoll_zero <| in_use := true |> <| owner_pid := owner |>]> l, Z.of_nat i)
  | None => (l, -1)
  end.

(** The first watch of [fd] among those in use. *)
Definition find_watch (e : epoll_instance) (fd : Z) : option nat :=
  find_index (fun w => w_fd w =? fd) (take (watch_count e) (watches e)).

(** [for (j = i; j < n - 1; j++) w[j] = w[j+1];] *)
Definition compact (i n : nat) (w : list epoll_watch) : list epoll_watch :=
  for_loop (n - 1 - i) i (fun j w => <[j := w !!! Datatypes.S j]> w) w.

Definition ctl_add (fd events data : Z) (e : epoll_instance) : epoll_instance * Z :=
  if (EPOLL_MAX_WATCHED <=? watch_count e)%nat then (e, -1) else
  (e <| watches ::= alter (fun w => w <| w_fd := fd |> <| w_events := events |> <| w_data := data |>) (watch_count e) |>
     <| watch_count ::= Datatypes.S |>, 0).

Definition ctl_mod (fd events data : Z) (e : epoll_instance) : epoll_instance * Z :=
  match find_watch e fd with
  | Some i => (e <| watches ::= alter (fun w => w <| w_events := events |> <| w_data := data |>) i |>, 0)
  | None => (e, -1)
  end.

Definition ctl_del (fd : Z) (e : epoll_instance) : epoll_instance * Z :=
  match find_watch e fd with
  | Some i => (e <| watches ::= compact i (watch_count e) |> <| watch_count ::= Nat.pred |>, 0)
  | None => (e, -1)
  end.

Definition ctl (op fd events data : Z) (e : epoll_instance) : epoll_instance * Z :=
  if op =? EPOLL_CTL_ADD then ctl_add fd events data e
  else if op =? EPOLL_CTL_MOD then ctl_mod fd events data e
  else if op =? EPOLL_CTL_DEL then ctl_del fd e
  else (e, -1).

Definition bad_index (idx : Z) : bool := (idx <? 0) || (Z.of_nat EPOLL_MAX_INSTANCES <=? idx).

Definition epoll_ctl_instance (idx op fd events data : Z) (l : pool) : pool * Z :=
  if bad_index idx then (l, -1) else
  if negb (in_use (zget l idx)) then (l, -1) else
  let '(e, r) := ctl op fd events data (zget l idx) in (zset l idx e, r).

Definition epoll_get (l : pool) (idx : Z) : option epoll_instance :=
  if bad_index idx then None else if in_use (zget l idx) then Some (zget l idx) else None.

Definition epoll_destroy (idx : Z) (l : pool) : pool :=
  if bad_index idx then l else zset l idx ((zget l idx) <| in_use := false |>).

(** ** Specification: the sequence of watches *)

Definition watched (e : epoll_instance) : list epoll_watch := take (watch_count e) (watches e).

Definition epoll_wf (e : epoll_instance) : Prop :=
  length (watches e) = EPOLL_MAX_WATCHED /\ (watch_count e <= EPOLL_MAX_WATCHED)%nat.

(** The entry [(fd, events, data)] of a watch, without the edge-trigger flag. *)
Definition entry (w : epoll_watch) : Z * Z * Z := (w_fd w, w_events w, w_data w).

Definition ctl_spec (op fd events data : Z) (l : list (Z * Z * Z)) : option (list (Z * Z * Z)) :=
  let i := find_index (fun w => w.1.1 =? fd) l in
  if op =? EPOLL_CTL_ADD then if (EPOLL_MAX_WATCHED <=? length l)%nat then None else Some (l ++ [(fd, events, data)])
  else if op =? EPOLL_CTL_MOD then (fun i => <[i := (fd, events, data)]> l) <$> i
  else if op =? EPOLL_CTL_DEL then (fun i => take i l ++ drop (Datatypes.S i) l) <$> i
  else None.

Lemma length_watched e : epoll_wf e -> length (watched e) = watch_count e.
Proof. intros [H1 H2]. unfold watched. rewrite length_take. lia. Qed.

Lemma find_watch_entry e fd : find_watch e fd = find_index (fun w => w.1.1 =? fd) (entry <$> watched e).
Proof.
  unfold find_watch, watched. generalize (take (watch_count e) (watches e)). intros l.
  induction l as [|w l IH]; [done|]. cbn. by rewrite IH.
Qed.

(** The compaction loop removes element [i]. *)
Lemma compact_spec i n w : (i < n <= length w)%nat ->
  length (compact i n w) = length w /\ take (n - 1) (compact i n w) = take i w ++ drop (Datatypes.S i) (take n w).
Proof.
  intros Hi. unfold compact.
  pose proof (for_loop_inv (fun j w' => length w' = length w /\ forall m, w' !! m =
    if decide (i <= m < j)%nat then w !! Datatypes.S m else w !! m) (n - 1 - i) i
    (fun j w => <[j := w !!! Datatypes.S j]> w) w) as H.
  destruct H as [Hl Hm].
  { split; [done|]. intros m. by rewrite decide_False by lia. }
  { intros j w' Hj [Hl IH]. split; [by rewrite length_insert|]. intros m.
    destruct (decide (m = j)) as [->|Hne].
    - rewrite list_lookup_insert_eq, decide_True by lia.
      destruct (lookup_lt_is_Some_2 w (Datatypes.S j)) as [x Hx]; [lia|].
      rewrite Hx. rewrite list_lookup_total_alt, IH, decide_False, Hx by lia. done.
    - rewrite list_lookup_insert_ne, IH by done. repeat destruct (decide _); try done; lia. }
  split; [done|]. apply list_eq. intros m. replace (i + (n - 1 - i))%nat with (n - 1)%nat in Hm by lia.
  destruct (decide (m < n - 1)%nat) as [Hlt|Hge].
  - rewrite lookup_take_lt, Hm by done. destruct (decide _).
    + rewrite lookup_app_r by (rewrite length_take; lia). rewrite length_take, lookup_drop, lookup_take_lt by lia.
      f_equal. lia.
    + rewrite lookup_app_l by (rewrite length_take; lia). by rewrite lookup_take_lt by lia.
  - rewrite lookup_take_ge by lia. symmetry. apply lookup_ge_None.
    rewrite length_app, length_take, length_drop, length_take. lia.
Qed.

(** Epoll_ctl implements add, modify and delete on the sequence of watches:
    it fails exactly when the specification does, and then changes nothing. *)
Theorem epoll_ctl_refines op fd events data e : epoll_wf e ->
  let '(e', r) := ctl op fd events data e in
  match ctl_spec op fd events data (entry <$> watched e) with
  | Some l => r = 0 /\ epoll_wf e' /\ entry <$> watched e' = l
  | None => r = -1 /\ e' = e
  end.
Proof.
  intros Hw. pose proof (length_watched e Hw) as Hlen. destruct Hw as [W1 W2]. unfold ctl, ctl_spec. cbv zeta.
  rewrite <- find_watch_entry. case_if; [|case_if; [|case_if; [|done]]].
  - unfold ctl_add. rewrite length_fmap, Hlen. case_if; [done|]. apply Nat.leb_gt in Heqb0.
    split; [done|]. split; [split; cbn; [by rewrite length_alter|lia]|].
    unfold watched. cbn. destruct (lookup_lt_is_Some_2 (watches e) (watch_count e)) as [w Hw]; [lia|].
    erewrite take_S_r by (rewrite list_lookup_alter_eq, Hw; done). rewrite fmap_app. f_equal. f_equal.
    by apply take_alter_ge.
  - unfold ctl_mod. destruct (find_watch e fd) as [i|] eqn:Ei; [|done]. cbn [fmap option_fmap option_map].
    destruct (find_index_Some _ _ _ Ei) as (w & Hw & Ew & _). b2p. split; [done|].
    split; [split; cbn; [by rewrite length_alter|done]|]. unfold watched. cbn.
    pose proof (lookup_lt_Some _ _ _ Hw) as Hi. rewrite length_take in Hi. rewrite lookup_take_lt in Hw by lia.
    rewrite (list_alter_insert_at _ _ _ _ Hw), take_insert_lt, list_fmap_insert by lia. unfold entry at 1. cbn.
    by rewrite Ew.
  - unfold ctl_del. destruct (find_watch e fd) as [i|] eqn:Ei; [|done]. cbn [fmap option_fmap option_map].
    pose proof (find_index_lt _ _ _ Ei) as Hi. rewrite length_take in Hi.
    destruct (compact_spec i (watch_count e) (watches e)) as [C1 C2]; [lia|].
    split; [done|]. split; [split; cbn; [by rewrite C1|lia]|]. unfold watched. cbn. rewrite <- Nat.sub_1_r, C2.
    rewrite fmap_app, fmap_take, fmap_drop. f_equal. rewrite !fmap_take, take_take. f_equal. lia.
Qed.

Definition demo_epoll : epoll_instance := (ctl EPOLL_CTL_ADD 4 EPOLLIN 40 (ctl EPOLL_CTL_ADD 3 EPOLLIN 30 epoll_zero).1).1.

Lemma epoll_ctl_refines_witness : entry <$> watched (ctl EPOLL_CTL_DEL 3 0 0 demo_epoll).1 = [(4, EPOLLIN, 40)].
Proof.
  pose proof (epoll_ctl_refines EPOLL_CTL_DEL 3 0 0 demo_epoll ltac:(split; [done|vm_compute; lia])) as H.
  destruct (ctl _ _ _ _ _) as [e' r]. destruct H as (_ & _ & H). exact H.
Defined.

End Epoll.
