(* ===== verification/Files.v ===== *)
(** * Descriptors and the life of a process (process/process.c and the system
    calls exit, fork, wait, close, pipe and dup2 of syscall/syscall.c)

    [kern] gathers the state these operations share: memory and processes, the
    pipes by address, the kernel heap, the cache of kernel stacks, the frames
    saved on kernel stacks and the network.  The network is behind the class
    [SocketOps]; what the descriptor layer relies on is [SocketLaws]. *)

From stdpp Require Import prelude gmap.
From Stdlib Require Import ZArith Lia.
From S2P Require Import Prelude Pmm Process Sched Signal Ring Pipe Kheap Vm Mmap Epoll.
Import Process Sched Signal Pipe Vm Mmap.
Local Open Scope Z_scope.

Module Files.

(** Only scheduling can differ: descriptors are those of before. *)
Definition same_fds (t t' : table) : Prop := fd_table <$> t' = fd_table <$> t.

Class SocketOps (S : Type) := {
  socket_inc_ref : Z -> S -> S;
  socket_close : Z -> S -> sched -> S * sched;
  socket_readable : S -> Z -> bool;
  socket_writable : S -> Z -> bool;
  net_tick : S -> sched -> S * sched
}.

Class SocketLaws (S : Type) `{SocketOps S} := {
  socket_close_fds : forall i k s, same_fds (procs s) (procs (socket_close i k s).2);
  net_tick_fds : forall k s, same_fds (procs s) (procs (net_tick k s).2)
}.

Section files.
Context {S : Type} `{SocketOps S}.

Record kern := mk_kern {
  mm : vm;
  pipes : gmap Z pipe;
  heap : Kheap.kheap;
  kstack_free : list Z;
  kframes : gmap Z frame;
  next_pid : Z;
  epolls : list Epoll.epoll_instance;
  net : S
}.

#[export] Instance eta_kern : Eta kern := fun k =>
  mk_kern (mm k) (pipes k) (heap k) (kstack_free k) (kframes k) (next_pid k) (epolls k) (net k).

Definition ks (k : kern) : sched := sc (mm k).
Definition on_sched (f : sched -> sched) (k : kern) : kern := k <| mm ::= fun m => m <| sc ::= f |> |>.
Definition on_proc (c : nat) (f : process -> process) (k : kern) : kern := on_sched (set_proc c f) k.
Definition on_fd (c : nat) (fd : Z) (f : process_fd -> process_fd) (k : kern) : kern :=
  on_proc c (fun p => p <| fd_table ::= alter f (Z.to_nat fd) |>) k.
Definition cproc (k : kern) (c : nat) : process := proc_at (ks k) c.
Definition fd_at (k : kern) (c : nat) (fd : Z) : process_fd := zget (fd_table (cproc k c)) fd.

(** Run a pipe operation through a pointer; NULL does nothing. *)
Definition with_pipe (q : Z) (f : pipe -> sched -> pipe * sched) (k : kern) : kern :=
  match pipes k !! q with
  | Some p => let '(p, s) := f p (ks k) in (on_sched (fun _ => s) k) <| pipes ::= <[q := p]> |>
  | None => k
  end.

Definition on_net (f : S -> sched -> S * sched) (k : kern) : kern :=
  let '(n, s) := f (net k) (ks k) in (on_sched (fun _ => s) k) <| net := n |>.

(** ** Descriptors *)

(** [process_fd_alloc(proc, start)]: a descriptor from [start] on, or -1. *)
Definition process_fd_alloc (p : process) (start : Z) : Z :=
  match find_index (fun f => fd_type f =? FD_NONE) (drop (Z.to_nat start) (fd_table p)) with
  | Some i => start + Z.of_nat i
  | None => -1
  end.

Definition bad_fd (fd : Z) : bool := (Z.of_nat PROCESS_MAX_FDS <=? fd).

(** The pipe part of closing a descriptor. *)
Definition close_pipe_end (f : process_fd) (k : kern) : kern :=
  if fd_type f =? FD_PIPE_READ then with_pipe (fd_data f) pipe_close_read k
  else if fd_type f =? FD_PIPE_WRITE then with_pipe (fd_data f) pipe_close_write k
  else k.

Definition sys_close (c : nat) (fd : Z) (k : kern) : kern * Z :=
  if bad_fd fd || (fd <? 3) then (k, ERR64) else
  let f := fd_at k c fd in
  if fd_type f =? FD_NONE then (k, ERR64) else
  let k := close_pipe_end f k in
  let k := if fd_type f =? FD_SOCKET then on_net (socket_close (s32 (fd_data f))) k
           else if fd_type f =? FD_EPOLL then k <| epolls ::= Epoll.epoll_destroy (s32 (fd_data f)) |> else k in
  (on_fd c fd (fun _ => fd_empty) k, 0).

(** [sizeof(struct pipe)]. *)
Definition PIPE_STRUCT_SIZE : Z := 4136.

(** [sys_pipe]: also the two descriptors stored to user memory. *)
Definition sys_pipe (c : nat) (user_fds : Z) (k : kern) : kern * Z * option (Z * Z) :=
  if (KERNEL_VMA <=? user_fds) || (KERNEL_VMA <=? u64 (user_fds + 8)) then (k, ERR64, None) else
  let '(h, block) := Kheap.kmalloc PIPE_STRUCT_SIZE (heap k) in
  let k := k <| heap := h |> in
  match (pipe_create block).2 with
  | None => (k, ERR64, None)
  | Some p =>
      let k := k <| pipes ::= <[block := p]> |> in
      let rfd := process_fd_alloc (cproc k c) 3 in
      if rfd <? 0 then (k, ERR64, None) else
      let k := on_fd c rfd (fun f => f <| fd_type := FD_PIPE_READ |> <| fd_data := block |>) k in
      let wfd := process_fd_alloc (cproc k c) (rfd + 1) in
      if wfd <? 0 then (on_fd c rfd (fun f => f <| fd_type := FD_NONE |>) k, ERR64, None) else
      (on_fd c wfd (fun f => f <| fd_type := FD_PIPE_WRITE |> <| fd_data := block |>) k, 0, Some (rfd, wfd))
  end.

Definition inc_pipe_ref (f : process_fd) (k : kern) : kern :=
  if (fd_type f =? FD_PIPE_READ) || (fd_type f =? FD_PIPE_WRITE)
  then with_pipe (fd_data f) (fun p s => (pipe_inc_ref p (fd_type f), s)) k else k.

Definition sys_dup2 (c : nat) (oldfd newfd : Z) (k : kern) : kern * Z :=
  if bad_fd oldfd || bad_fd newfd then (k, ERR64) else
  if fd_type (fd_at k c oldfd) =? FD_NONE then (k, ERR64) else
  if oldfd =? newfd then (k, newfd) else
  let k := close_pipe_end (fd_at k c newfd) k in
  let k := on_fd c newfd (fun _ => fd_at k c oldfd) k in
  (inc_pipe_ref (fd_at k c newfd) k, newfd).

(** ** Exit *)

(** One turn of the loop that closes the descriptors. *)
Definition exit_fd (c : nat) (i : nat) (k : kern) : kern :=
  let f := fd_at k c (Z.of_nat i) in
  let none := on_fd c (Z.of_nat i) (fun f => f <| fd_type := FD_NONE |>) in
  if (fd_type f =? FD_PIPE_READ) || (fd_type f =? FD_PIPE_WRITE) then none (close_pipe_end f k)
  else if fd_type f =? FD_SOCKET then none (on_net (socket_close (s32 (fd_data f))) k)
  else k.

Definition reparent (q : Z) (t : table) : table :=
  (fun p => if (ppid p =? q) && negb (unused p) && negb (is_state (state p) PROCESS_TERMINATED)
            then p <| ppid := 1 |> else p) <$> t.

Definition exit_space (c : nat) (k : kern) : kern :=
  let old := cr3 (cproc k c) in
  if old =? 0 then k else
  let k := on_proc c (fun p => p <| cr3 := 0 |>) k in
  let k := on_sched (fun s => s <| cpu_cr3 := kernel_cr3 s |>) k in
  k <| mm ::= user_vm_destroy_address_space old |>.

Definition exit_fds (c : nat) : kern -> kern := for_loop PROCESS_MAX_FDS 0 (exit_fd c).

(** The rest of exit: the zombie, its parent and its children. *)
Definition exit_rest (c : nat) (arg1 : Z) (s : sched) : sched :=
  let s := set_proc c (fun p => p <| state := PROCESS_ZOMBIE |> <| exit_code := s32 arg1 |>) s in
  let s := signal_send (ppid (proc_at s c)) SIGCHLD s in
  let s := s <| procs ::= reparent (pid (proc_at s c)) |> in
  schedule (wake_waiting_parent c s).

Definition syscall_exit (c : nat) (arg1 : Z) (k : kern) : kern :=
  on_sched (exit_rest c arg1) (exit_space c (exit_fds c k)).

(** ** Kernel stacks *)

Definition KSTACK_ALLOC_SIZE : Z := PAGE_SIZE + PROCESS_STACK_SIZE.

(** The cache is an array used as a stack; its top is the head of the list. *)
Definition process_alloc_kernel_stack (k : kern) : kern * Z :=
  match kstack_free k with
  | a :: l => (k <| kstack_free := l |>, a)
  | [] => let '(h, a) := Kheap.kmalloc_page_aligned KSTACK_ALLOC_SIZE (heap k) in (k <| heap := h |>, a)
  end.

Definition free_kernel_stack (guard : Z) (k : kern) : kern :=
  let '(m, p) := pmm_alloc_page (mm k) in
  let m := if p =? 0 then m else (vmm_map_page guard p PTE_WRITABLE m).1 in
  let k := k <| mm := m |> in
  if (length (kstack_free k) <? MAX_PROCESSES)%nat then k <| kstack_free ::= cons guard |>
  else k <| heap ::= Kheap.kfree guard |>.

(** A stack with its guard page unmapped; the address is that of the guard. *)
Definition new_kernel_stack (k : kern) : kern * Z :=
  let '(k, guard) := process_alloc_kernel_stack k in
  if guard =? 0 then (k, 0) else (k <| mm ::= vmm_unmap_page guard |>, guard).

Definition stack_top (guard : Z) : Z := u64 (guard + PAGE_SIZE + PROCESS_STACK_SIZE).

(** ** Creation *)

Definition process_create (nm : list Z) (entry : Z) (k : kern) : kern * option nat :=
  match find_index unused (procs (ks k)) with
  | None => (k, None)
  | Some i =>
      let '(k, guard) := new_kernel_stack k in
      if guard =? 0 then (k, None) else
      let q := next_pid k in
      (on_proc i (fun p => process_setup p q nm guard entry) (k <| next_pid := u32 (q + 1) |>), Some i)
  end.

Definition scheduler_init (idle_name : list Z) (idle_task cr3 : Z) (k : kern) : kern :=
  let k := on_sched (fun s => s <| kernel_cr3 := cr3 |>) k in
  let '(k, i) := process_create idle_name idle_task k in
  let k := match i with
           | Some i => on_sched (fun s => set_state i PROCESS_RUNNING s <| current_process := Some i |>) k
           | None => k
           end in
  on_sched (fun s => s <| scheduler_enabled := true |>) k.

(** The fields fork gives the child; [c] is the child's slot after
    [process_alloc]. *)
Definition fork_pcb (par : process) (guard root tramp : Z) (c : process) : process :=
  c <| name := copy_name 31 (name par) |> <| state := PROCESS_READY |>
    <| kernel_stack_guard := guard |> <| kernel_stack := stack_top guard |> <| next := None |>
    <| cr3 := root |> <| is_user := true |>
    <| user_program_data := user_program_data par |> <| user_program_size := user_program_size par |>
    <| ppid := pid par |> <| exit_code := 0 |> <| wait_for_pid := 0 |> <| fd_table := fd_table par |>
    <| uid := uid par |> <| gid := gid par |> <| euid := euid par |> <| egid := egid par |>
    <| sig_handlers := sig_handlers par |> <| sig_pending := 0 |> <| in_signal_handler := false |>
    <| vmas := vmas par |> <| mmap_next := mmap_next par |>
    <| brk_start := brk_start par |> <| brk_current := brk_current par |>
    <| epoll_fd_idx := -1 |>
    <| ctx := mk_context 0 0 0 0 0 0 (u64 (stack_top guard - 176)) tramp |>.

(** One more reference for a descriptor the child shares. *)
Definition fork_fd (c : nat) (i : nat) (k : kern) : kern :=
  let f := fd_at k c (Z.of_nat i) in
  if fd_type f =? FD_SOCKET then k <| net ::= socket_inc_ref (s32 (fd_data f)) |> else inc_pipe_ref f k.

(** [tramp] is the address of [fork_return_trampoline].  The result is what the
    parent gets in RAX. *)
Definition syscall_fork (tramp : Z) (c : nat) (f : frame) (k : kern) : kern * Z :=
  let '((t, np), child) := process_alloc (procs (ks k)) (next_pid k) in
  let k := (on_sched (fun s => s <| procs := t |>) k) <| next_pid := np |> in
  match child with
  | None => (k, ERR64)
  | Some i =>
      let '(k, guard) := new_kernel_stack k in
      if guard =? 0 then (k, ERR64) else
      let '(m, root) := user_vm_fork_address_space (cr3 (cproc k c)) (mm k) in
      let k := k <| mm := m |> in
      if root =? 0 then (k, ERR64) else
      let k := k <| kframes ::= <[u64 (stack_top guard - 176) := f <| f_rax := 0 |>]> |> in
      let k := on_proc i (fork_pcb (cproc k c) guard root tramp) k in
      let k := for_loop PROCESS_MAX_FDS 0 (fork_fd i) k in
      (on_sched (scheduler_add i) k, pid (cproc k i))
  end.

(** ** Wait *)

(** The child to reap: any zombie for [child_pid] 0. *)
Definition find_zombie (t : table) (me child_pid : Z) : option nat :=
  if child_pid =? 0 then process_find_zombie_child t me
  else match process_get_by_pid t child_pid with
       | Some i => if (ppid (t !!! i) =? me) && is_state (state (t !!! i)) PROCESS_ZOMBIE then Some i else None
       | None => None
       end.

Definition reap (z : nat) (k : kern) : kern * Z * Z :=
  let p := cproc k z in
  let k := if kernel_stack_guard p =? 0 then k
           else on_proc z (fun p => p <| kernel_stack_guard := 0 |>) (free_kernel_stack (kernel_stack_guard p) k) in
  (on_proc z (fun p => p <| state := PROCESS_UNUSED |>) k, pid p, exit_code p).

(** [process_wait_for] up to its return ([Some (pid, status)], with -1 for
    failure) or until it goes to sleep ([None]); [wait_resumed] is the rest. *)
Definition process_wait_for (c : nat) (child_pid : Z) (k : kern) : kern * option (Z * option Z) :=
  match find_zombie (procs (ks k)) (pid (cproc k c)) child_pid with
  | Some z => let '(k, q, st) := reap z k in (k, Some (s32 q, Some st))
  | None =>
      if negb (process_has_children (procs (ks k)) (pid (cproc k c))) then (k, Some (-1, None)) else
      let k := on_proc c (fun p => p <| wait_for_pid := child_pid |> <| state := PROCESS_BLOCKED |>) k in
      (on_sched schedule k, None)
  end.

Definition wait_resumed (c : nat) (child_pid : Z) (k : kern) : kern * (Z * option Z) :=
  match find_zombie (procs (ks k)) (pid (cproc k c)) child_pid with
  | Some z => let '(k, q, st) := reap z k in (k, (s32 q, Some st))
  | None => (k, (-1, None))
  end.

(** [sys_waitpid]: [None] while asleep. *)
Definition sys_waitpid (c : nat) (arg1 status_ptr : Z) (k : kern) : kern * option (Z * option Z) :=
  let wait_pid := s32 arg1 in
  if negb (status_ptr =? 0) && (KERNEL_VMA <=? status_ptr) then (k, Some (-1, None)) else
  if 0 <? wait_pid then
    match process_get_by_pid (procs (ks k)) wait_pid with
    | Some i => if ppid (cproc k i) =? pid (cproc k c) then process_wait_for c wait_pid k
                else (k, Some (-1, None))
    | None => (k, Some (-1, None))
    end
  else process_wait_for c 0 k.

(** ** Specification: pipe ends and the descriptors that hold them *)

Definition is_end (ty q : Z) (f : process_fd) : bool := (fd_type f =? ty) && (fd_data f =? q).

Definition is_pipe_fd (f : process_fd) : bool := (fd_type f =? FD_PIPE_READ) || (fd_type f =? FD_PIPE_WRITE).

(** Descriptors in the whole table that refer to one end of the pipe [q]. *)
Definition refs (t : table) (ty q : Z) : Z :=
  foldr (fun p acc => countb (is_end ty q) (fd_table p) + acc) 0 t.

(** No pipe counts fewer readers or writers than descriptors refer to it, and
    every pipe descriptor refers to a pipe. *)
Record refs_safe (k : kern) : Prop := mk_refs_safe {
  rs_len : forall i p, procs (ks k) !! i = Some p -> length (fd_table p) = PROCESS_MAX_FDS;
  rs_count : forall q p, pipes k !! q = Some p ->
    refs (procs (ks k)) FD_PIPE_READ q <= readers p /\ refs (procs (ks k)) FD_PIPE_WRITE q <= writers p;
  rs_valid : forall i p j f, procs (ks k) !! i = Some p -> fd_table p !! j = Some f ->
    is_pipe_fd f = true -> is_Some (pipes k !! fd_data f)
}.

(** Room for more references: the counters are 32 bits wide. *)
Definition refs_room (n : Z) (k : kern) : Prop :=
  forall q p, pipes k !! q = Some p -> 0 <= readers p < 2 ^ 32 - n /\ 0 <= writers p < 2 ^ 32 - n.

(** [f] takes at most [dr] readers and [dw] writers from a pipe. *)
Definition takes (dr dw : Z) (f : pipe -> sched -> pipe * sched) : Prop :=
  forall p s, let '(p', s') := f p s in
    sched_only (procs s) (procs s') /\
    readers p - dr <= readers p' <= readers p /\ writers p - dw <= writers p' <= writers p /\
    (0 <= readers p -> 0 <= readers p') /\ (0 <= writers p -> 0 <= writers p').

(** Pipes of [k'] against those of [k]: the ends the descriptor [f] holds may be
    gone, nothing else. *)
Definition pipes_minus (f : process_fd) (k k' : kern) : Prop :=
  same_fds (procs (ks k)) (procs (ks k')) /\
  (forall q, is_Some (pipes k !! q) -> is_Some (pipes k' !! q)) /\
  forall q p', pipes k' !! q = Some p' -> exists p, pipes k !! q = Some p /\
    readers p - Z.b2z (is_end FD_PIPE_READ q f) <= readers p' <= readers p /\
    writers p - Z.b2z (is_end FD_PIPE_WRITE q f) <= writers p' <= writers p /\
    (0 <= readers p -> 0 <= readers p') /\ (0 <= writers p -> 0 <= writers p').

Lemma refs_nonneg t ty q : 0 <= refs t ty q.
Proof.
  induction t as [|p t IH]; cbn; [lia|]. pose proof (countb_bounds (is_end ty q) (fd_table p)). unfold refs in IH. lia.
Qed.

Lemma same_fds_length t t' : same_fds t t' -> length t' = length t.
Proof. intros E. apply (f_equal length) in E. by rewrite !length_fmap in E. Qed.

Lemma refs_same t t' ty q : same_fds t t' -> refs t' ty q = refs t ty q.
Proof.
  unfold same_fds. revert t'. induction t as [|p t IH]; intros [|p' t'] E; try done.
  cbn in *. injection E as E1 E2. unfold refs in *. cbn. by rewrite E1, (IH t').
Qed.

Lemma same_fds_lookup t t' i p' : same_fds t t' -> t' !! i = Some p' ->
  exists p, t !! i = Some p /\ fd_table p = fd_table p'.
Proof.
  intros E Hp. apply (f_equal (fun l => l !! i)) in E. rewrite !list_lookup_fmap, Hp in E.
  destruct (t !! i) as [p|]; [|done]. injection E as E. by exists p.
Qed.

Lemma sched_only_fds t t' : sched_only t t' -> same_fds t t'.
Proof.
  intros [Hl H0]. apply list_eq. intros i. rewrite !list_lookup_fmap.
  destruct (t' !! i) as [p'|] eqn:E'.
  - destruct (H0 i p' E') as (p & -> & ->). done.
  - apply lookup_ge_None in E'. rewrite (lookup_ge_None_2 t) by lia. done.
Qed.

Lemma same_fds_upd c g t : (forall p, fd_table (g p) = fd_table p) -> same_fds t (upd_proc c g t).
Proof.
  intros Hg. apply list_eq. intros i. rewrite !list_lookup_fmap, lookup_upd_proc.
  destruct (decide (c = i)); [|done]. destruct (t !! i); [|done]. cbn. by rewrite Hg.
Qed.

#[export] Instance same_fds_preorder : PreOrder same_fds.
Proof. split; [done|]. intros t1 t2 t3 E1 E2. unfold same_fds in *. congruence. Qed.

(** Changing one descriptor changes the counts by that descriptor. *)
Lemma refs_alter t c p fd f g ty q : t !! c = Some p -> fd_table p !! fd = Some f ->
  refs (upd_proc c (fun p => p <| fd_table ::= alter g fd |>) t) ty q
  = refs t ty q - Z.b2z (is_end ty q f) + Z.b2z (is_end ty q (g f)).
Proof.
  intros Hp Hf. revert c Hp. induction t as [|p0 t IH]; intros c Hp; [done|].
  destruct c as [|c]; cbn in Hp.
  - injection Hp as ->. cbn. rewrite (list_alter_insert_at _ _ _ _ Hf), (countb_insert _ _ _ _ _ Hf). unfold refs. lia.
  - specialize (IH c Hp). unfold refs, upd_proc in *. cbn in *. rewrite IH. lia.
Qed.

Lemma sched_only_wake_opt w s : sched_only (procs s) (procs (wake_opt w s)).
Proof. destruct w; [apply sched_only_wake|reflexivity]. Qed.

Lemma close_read_takes : takes 1 0 pipe_close_read.
Proof.
  intros p s. unfold pipe_close_read. destruct (0 <? readers p) eqn:E; case_if; b2p; cbn;
    (split; [first [apply sched_only_wake_opt|reflexivity]|lia]).
Qed.

Lemma close_write_takes : takes 0 1 pipe_close_write.
Proof.
  intros p s. unfold pipe_close_write. destruct (0 <? writers p) eqn:E; case_if; b2p; cbn;
    (split; [first [apply sched_only_wake_opt|reflexivity]|lia]).
Qed.

Lemma with_pipe_minus f op k :
  takes (Z.b2z (fd_type f =? FD_PIPE_READ)) (Z.b2z (fd_type f =? FD_PIPE_WRITE)) op ->
  pipes_minus f k (with_pipe (fd_data f) op k).
Proof.
  intros Ht. unfold with_pipe, pipes_minus, is_end. destruct (pipes k !! fd_data f) as [p|] eqn:Ep.
  - specialize (Ht p (ks k)). destruct (op p (ks k)) as [p1 s1]. destruct Ht as (C1 & C2 & C3 & C4 & C5).
    cbn [pipes upd]. split; [by apply sched_only_fds|]. split; [intros q Hq; apply lookup_insert_is_Some'; auto|].
    intros q p'. rewrite lookup_insert. destruct (decide (fd_data f = q)) as [<-|Hne].
    + intros [= <-]. exists p. rewrite Z.eqb_refl, !andb_true_r. done.
    + intros Hp'. exists p'. replace (fd_data f =? q) with false by lia. rewrite !andb_false_r. cbn. split; [done|lia].
  - split; [reflexivity|]. split; [done|]. intros q p' Hp'. exists p'.
    assert (fd_data f <> q) by congruence. replace (fd_data f =? q) with false by lia.
    rewrite !andb_false_r. cbn. split; [done|lia].
Qed.

Lemma close_end_minus f k : pipes_minus f k (close_pipe_end f k).
Proof.
  unfold close_pipe_end. destruct (fd_type f =? FD_PIPE_READ) eqn:E1; [|destruct (fd_type f =? FD_PIPE_WRITE) eqn:E2].
  - apply with_pipe_minus. rewrite E1. b2p. rewrite E1. apply close_read_takes.
  - apply with_pipe_minus. rewrite E1, E2. apply close_write_takes.
  - split; [reflexivity|]. split; [done|]. intros q p' Hp'. exists p'. unfold is_end. rewrite E1, E2. cbn. split; [done|lia].
Qed.

(** The descriptor behind [fd_at]. *)
Lemma fd_at_lookup k c fd : (c < length (procs (ks k)))%nat -> 0 <= fd < 32 ->
  (forall i p, procs (ks k) !! i = Some p -> length (fd_table p) = PROCESS_MAX_FDS) ->
  exists p, procs (ks k) !! c = Some p /\ fd_table p !! Z.to_nat fd = Some (fd_at k c fd).
Proof.
  intros Hc Hfd Hl. destruct (lookup_lt_is_Some_2 _ _ Hc) as [p Hp]. exists p. split; [done|].
  unfold fd_at, cproc, proc_at. rewrite (list_lookup_total_correct _ _ _ Hp). apply zget_lookup.
  rewrite (Hl c p Hp). unfold PROCESS_MAX_FDS. lia.
Qed.

Lemma on_fd_procs c fd g k : procs (ks (on_fd c fd g k)) = upd_proc c (fun p => p <| fd_table ::= alter g (Z.to_nat fd) |>) (procs (ks k)).
Proof. done. Qed.

Lemma upd_fd_inv t c fd g i p' j f' :
  upd_proc c (fun p => p <| fd_table ::= alter g fd |>) t !! i = Some p' -> fd_table p' !! j = Some f' ->
  exists p f, t !! i = Some p /\ fd_table p !! j = Some f /\ length (fd_table p') = length (fd_table p) /\
    (f' = f \/ i = c /\ j = fd /\ f' = g f).
Proof.
  rewrite lookup_upd_proc. destruct (decide (c = i)) as [->|Hne].
  - destruct (t !! i) as [p|]; [|done]. intros [= <-]. cbn. intros Hf. exists p.
    rewrite length_alter. destruct (decide (fd = j)) as [->|Hj].
    + rewrite list_lookup_alter_eq in Hf. destruct (fd_table p !! j) as [f|]; [|done]. injection Hf as <-.
      exists f. auto 10.
    + rewrite list_lookup_alter_ne in Hf by done. exists f'. auto 10.
  - intros Hp Hf. exists p', f'. auto 10.
Qed.

Lemma upd_fd_len c g fd t i p' :
  (forall i p, t !! i = Some p -> length (fd_table p) = PROCESS_MAX_FDS) ->
  upd_proc c (fun p => p <| fd_table ::= alter g fd |>) t !! i = Some p' -> length (fd_table p') = PROCESS_MAX_FDS.
Proof.
  intros Hl. rewrite lookup_upd_proc. destruct (decide (c = i)) as [->|Hne]; [|by eauto].
  destruct (t !! i) as [p|] eqn:E; [|done]. intros [= <-]. cbn. rewrite length_alter. by eapply Hl.
Qed.

Lemma not_pipe_end ty q f : is_pipe_fd f = false -> ty = FD_PIPE_READ \/ ty = FD_PIPE_WRITE -> is_end ty q f = false.
Proof.
  unfold is_pipe_fd, is_end. intros [E1 E2]%orb_false_iff [-> | ->]; [by rewrite E1|by rewrite E2].
Qed.

(** Closing a descriptor and overwriting it by one that holds no pipe. *)
Lemma close_step c fd g k k1 : refs_safe k -> (c < length (procs (ks k)))%nat -> 0 <= fd < 32 ->
  pipes_minus (fd_at k c fd) k k1 -> is_pipe_fd (g (fd_at k c fd)) = false ->
  refs_safe (on_fd c fd g k1).
Proof.
  intros [R1 R2 R3] Hc Hfd (S1 & S2 & S3) Hg.
  destruct (fd_at_lookup k c fd Hc Hfd R1) as (p & Hp & Hf). set (f := fd_at k c fd) in *.
  assert (exists p1, procs (ks k1) !! c = Some p1 /\ fd_table p1 = fd_table p) as (p1 & Hp1 & Ef).
  { apply (f_equal (fun l => l !! c)) in S1. rewrite !list_lookup_fmap, Hp in S1.
    destruct (procs (ks k1) !! c) as [p1|]; [|done]. injection S1 as S1. by exists p1. }
  assert (forall i q, procs (ks k1) !! i = Some q -> length (fd_table q) = PROCESS_MAX_FDS) as L1.
  { intros i q Hq. destruct (same_fds_lookup _ _ _ _ S1 Hq) as (q0 & Hq0 & <-). by eapply R1. }
  constructor; rewrite on_fd_procs; change (pipes (on_fd c fd g k1)) with (pipes k1).
  - intros i q. by apply upd_fd_len.
  - intros q p' Hq. destruct (S3 q p' Hq) as (p0 & Hp0 & B1 & B2 & _). destruct (R2 q p0 Hp0) as [C1 C2].
    rewrite !(refs_alter _ _ p1 _ f) by (done || by rewrite Ef). rewrite !(refs_same _ _ _ _ S1).
    rewrite !(not_pipe_end _ _ (g f)) by auto. cbn. lia.
  - intros i q j f' Hq Hf' Hpf. destruct (upd_fd_inv _ _ _ _ _ _ _ _ Hq Hf') as (q0 & f0 & Hq0 & Hf0 & _ & [->|(-> & -> & ->)]).
    + destruct (same_fds_lookup _ _ _ _ S1 Hq0) as (q1 & Hq1 & E). apply S2. apply (R3 i q1 j f0); [done|by rewrite E|done].
    + assert (f0 = f) as -> by congruence. congruence.
Qed.

(** Adding a reference. *)
Lemma inc_ref_spec f k : refs_room 1 k -> let k' := inc_pipe_ref f k in
  ks k' = ks k /\ (forall q, is_Some (pipes k !! q) -> is_Some (pipes k' !! q)) /\
  forall q p', pipes k' !! q = Some p' -> exists p, pipes k !! q = Some p /\
    readers p' = readers p + Z.b2z (is_end FD_PIPE_READ q f) /\
    writers p' = writers p + Z.b2z (is_end FD_PIPE_WRITE q f).
Proof.
  intros Hr. unfold inc_pipe_ref, with_pipe, is_end. cbv zeta.
  destruct ((fd_type f =? FD_PIPE_READ) || (fd_type f =? FD_PIPE_WRITE)) eqn:Ety.
  2: { apply orb_false_iff in Ety as [-> ->]. split_and!; [done|done|]. intros q p' Hp'. exists p'. cbn. split; [done|lia]. }
  destruct (pipes k !! fd_data f) as [p|] eqn:Ep.
  2: { split_and!; [done|done|]. intros q p' Hp'. exists p'. assert (fd_data f <> q) by congruence.
    replace (fd_data f =? q) with false by lia. rewrite !andb_false_r. cbn. split; [done|lia]. }
  split_and!; [by destruct k as [[] ? ? ? ? ? ? ?]|intros q Hq; apply lookup_insert_is_Some'; auto|].
  intros q p'. cbn [pipes upd]. rewrite lookup_insert. destruct (decide (fd_data f = q)) as [<-|Hne].
  - intros [= <-]. exists p. split; [done|]. rewrite Z.eqb_refl, !andb_true_r.
    destruct (Hr _ _ Ep) as [H1 H2]. unfold pipe_inc_ref, FD_PIPE_READ, FD_PIPE_WRITE in *.
    destruct (fd_type f =? 2) eqn:E2; b2p; [rewrite E2|destruct (fd_type f =? 3) eqn:E3; b2p; [|done]]; cbn;
      rewrite u32_small by lia; lia.
  - intros Hp'. exists p'. replace (fd_data f =? q) with false by lia. rewrite !andb_false_r. cbn. split; [done|lia].
Qed.

(** Installing a descriptor in a slot that holds no pipe. *)
Lemma open_step c fd f0 k : refs_safe k -> refs_room 1 k -> (c < length (procs (ks k)))%nat -> 0 <= fd < 32 ->
  is_pipe_fd (fd_at k c fd) = false -> (is_pipe_fd f0 = true -> is_Some (pipes k !! fd_data f0)) ->
  refs_safe (inc_pipe_ref f0 (on_fd c fd (fun _ => f0) k)).
Proof.
  intros [R1 R2 R3] Hr Hc Hfd Hn Hv. destruct (fd_at_lookup k c fd Hc Hfd R1) as (p & Hp & Hf).
  destruct (inc_ref_spec f0 (on_fd c fd (fun _ => f0) k)) as (I1 & I2 & I3); [exact Hr|].
  set (k1 := on_fd c fd (fun _ => f0) k) in *. set (k2 := inc_pipe_ref f0 k1) in *.
  constructor; rewrite I1; unfold k1; rewrite on_fd_procs.
  - intros i q. by apply upd_fd_len.
  - intros q p' Hq. destruct (I3 q p' Hq) as (p0 & Hp0 & E1 & E2). destruct (R2 q p0 Hp0) as [C1 C2].
    rewrite !(refs_alter _ _ p _ (fd_at k c fd)) by done. rewrite !(not_pipe_end _ _ (fd_at k c fd)) by auto. cbn. lia.
  - intros i q j f' Hq Hf' Hpf. apply I2. change (pipes k1) with (pipes k).
    destruct (upd_fd_inv _ _ _ _ _ _ _ _ Hq Hf') as (q0 & f1 & Hq0 & Hf0 & _ & [->|(-> & -> & ->)]); [by eapply R3|by apply Hv].
Qed.

Lemma pipes_minus_then f k k1 k2 : pipes_minus f k k1 -> same_fds (procs (ks k1)) (procs (ks k2)) ->
  pipes k2 = pipes k1 -> pipes_minus f k k2.
Proof.
  intros (S1 & S2 & S3) E1 E2. split; [by etransitivity|]. by rewrite E2.
Qed.

Lemma room_minus n f k k1 : refs_room n k -> pipes_minus f k k1 -> refs_room n k1.
Proof. intros Hr (_ & _ & S3) q p' Hp'. destruct (S3 q p' Hp') as (p & Hp & H1 & H2 & H3 & H4). specialize (Hr q p Hp). lia. Qed.

(** Changes that leave descriptors and pipes alone. *)
Lemma refs_safe_same k k' : refs_safe k -> same_fds (procs (ks k)) (procs (ks k')) -> pipes k' = pipes k -> refs_safe k'.
Proof.
  intros [R1 R2 R3] E1 E2. constructor.
  - intros i p Hp. destruct (same_fds_lookup _ _ _ _ E1 Hp) as (p0 & Hp0 & <-). by eapply R1.
  - intros q p. rewrite E2, !(refs_same _ _ _ _ E1). apply R2.
  - intros i p j f Hp Hf Hpf. rewrite E2. destruct (same_fds_lookup _ _ _ _ E1 Hp) as (p0 & Hp0 & Ef).
    eapply R3; [done|by rewrite Ef|done].
Qed.

Context {L : SocketLaws S}.

Lemma on_net_close i k : same_fds (procs (ks k)) (procs (ks (on_net (socket_close i) k))) /\
  pipes (on_net (socket_close i) k) = pipes k.
Proof.
  unfold on_net. pose proof (socket_close_fds i (net k) (ks k)) as E. by destruct (socket_close i (net k) (ks k)).
Qed.

Lemma close_safe c fd k : refs_safe k -> (c < length (procs (ks k)))%nat -> 0 <= fd -> refs_safe (sys_close c fd k).1.
Proof.
  intros Hs Hc Hfd. unfold sys_close. case_if; [done|]. apply orb_false_iff in Heqb as [E1 E2].
  unfold bad_fd, PROCESS_MAX_FDS in E1. b2p. case_if; [done|]. cbn [fst]. apply (close_step c fd _ k); [done|done|lia| |done].
  pose proof (close_end_minus (fd_at k c fd) k) as M. repeat case_if; [|done|done].
  eapply pipes_minus_then; [done|apply on_net_close..].
Qed.

Lemma exit_fd_safe c i k : refs_safe k -> (c < length (procs (ks k)))%nat -> (i < 32)%nat ->
  refs_safe (exit_fd c i k) /\ length (procs (ks (exit_fd c i k))) = length (procs (ks k)).
Proof.
  intros Hs Hc Hi. unfold exit_fd. set (f := fd_at k c (Z.of_nat i)).
  assert (forall k1, pipes_minus f k k1 ->
    refs_safe (on_fd c (Z.of_nat i) (fun f => f <| fd_type := FD_NONE |>) k1) /\
    length (procs (ks (on_fd c (Z.of_nat i) (fun f => f <| fd_type := FD_NONE |>) k1))) = length (procs (ks k))) as H1.
  { intros k1 M. split; [apply (close_step c (Z.of_nat i) _ k); [done|done|lia|done|done]|].
    rewrite on_fd_procs, length_upd_proc. destruct M as (E & _). by apply same_fds_length. }
  case_if; [apply H1, close_end_minus|]. case_if; [|done].
  apply H1. eapply pipes_minus_then; [|apply on_net_close..].
  pose proof (close_end_minus f k) as M. unfold close_pipe_end in M. apply orb_false_iff in Heqb as [E1 E2].
  rewrite E1, E2 in M. exact M.
Qed.

Lemma on_fd_twice c fd g h k : on_fd c fd g (on_fd c fd h k) = on_fd c fd (g ∘ h) k.
Proof.
  unfold on_fd, on_proc, on_sched, set_proc. destruct k as [m ? ? ? ? ? ? ?]. cbn. do 3 f_equal.
  unfold upd_proc. rewrite list_alter_alter_eq. apply list_alter_ext; [|done]. intros p _. cbn.
  by rewrite list_alter_alter_eq.
Qed.

Lemma fd_at_on_fd c fd g k j : (c < length (procs (ks k)))%nat -> 0 <= j < 32 -> 0 <= fd ->
  (forall i p, procs (ks k) !! i = Some p -> length (fd_table p) = PROCESS_MAX_FDS) ->
  fd_at (on_fd c fd g k) c j = if decide (fd = j) then g (fd_at k c j) else fd_at k c j.
Proof.
  intros Hc Hj Hfd Hl. destruct (fd_at_lookup k c j Hc Hj Hl) as (p & Hp & Hf).
  unfold fd_at at 1, cproc, proc_at. rewrite on_fd_procs.
  assert (upd_proc c (fun p => p <| fd_table ::= alter g (Z.to_nat fd) |>) (procs (ks k)) !! c
          = Some (p <| fd_table ::= alter g (Z.to_nat fd) |>)) as E by (rewrite lookup_upd_proc, decide_True, Hp; done).
  rewrite (list_lookup_total_correct _ _ _ E). cbn. unfold zget. apply list_lookup_total_correct.
  destruct (decide (fd = j)) as [->|Hne].
  - by rewrite list_lookup_alter_eq, Hf.
  - rewrite list_lookup_alter_ne by lia. done.
Qed.

Lemma dup2_safe c a b k : refs_safe k -> refs_room 1 k -> (c < length (procs (ks k)))%nat -> 0 <= a -> 0 <= b ->
  refs_safe (sys_dup2 c a b k).1.
Proof.
  intros Hs Hr Hc Ha Hb. unfold sys_dup2. case_if; [done|]. apply orb_false_iff in Heqb0 as [E1 E2].
  unfold bad_fd, PROCESS_MAX_FDS in E1, E2. b2p. case_if; [done|]. case_if; [done|]. cbn [fst]. b2p.
  pose proof (close_end_minus (fd_at k c b) k) as M. set (k1 := close_pipe_end (fd_at k c b) k) in *.
  assert (refs_safe (on_fd c b (fun _ => fd_empty) k1)) as Hs2 by (apply (close_step c b _ k); [done|done|lia|done|done]).
  assert (same_fds (procs (ks k)) (procs (ks k1))) as E by apply M.
  assert (c < length (procs (ks k1)))%nat as Hc1 by (by rewrite (same_fds_length _ _ E)).
  assert (forall i p, procs (ks k1) !! i = Some p -> length (fd_table p) = PROCESS_MAX_FDS) as L1.
  { intros i p Hp. destruct (same_fds_lookup _ _ _ _ E Hp) as (p0 & Hp0 & <-). by eapply (rs_len k). }
  set (f0 := fd_at k1 c a). rewrite fd_at_on_fd, decide_True by (done || lia).
  replace (on_fd c b (fun _ => f0) k1) with (on_fd c b (fun _ => f0) (on_fd c b (fun _ => fd_empty) k1))
    by by rewrite on_fd_twice.
  set (k2 := on_fd c b (fun _ => fd_empty) k1) in *.
  assert (c < length (procs (ks k2)))%nat as Hc2 by (unfold k2; by rewrite on_fd_procs, length_upd_proc).
  assert (fd_at k2 c a = f0) as Ef by (unfold k2; rewrite fd_at_on_fd, decide_False by (done || lia); done).
  apply open_step; [done| |done|lia| |].
  - exact (room_minus 1 _ k k1 Hr M).
  - unfold k2. rewrite fd_at_on_fd, decide_True by (done || lia). done.
  - destruct (fd_at_lookup k2 c a Hc2 ltac:(lia) (rs_len _ Hs2)) as (p & Hp & Hf). rewrite Ef in Hf.
    by apply (rs_valid _ Hs2 c p (Z.to_nat a)).
Qed.

(** Overwriting a descriptor that holds no pipe, when the counts leave room. *)
Lemma set_fd_safe c fd g k : refs_safe k -> (c < length (procs (ks k)))%nat -> 0 <= fd < 32 ->
  is_pipe_fd (fd_at k c fd) = false -> let f := g (fd_at k c fd) in
  (forall q p, pipes k !! q = Some p ->
     refs (procs (ks k)) FD_PIPE_READ q + Z.b2z (is_end FD_PIPE_READ q f) <= readers p /\
     refs (procs (ks k)) FD_PIPE_WRITE q + Z.b2z (is_end FD_PIPE_WRITE q f) <= writers p) ->
  (is_pipe_fd f = true -> is_Some (pipes k !! fd_data f)) -> refs_safe (on_fd c fd g k).
Proof.
  intros [R1 R2 R3] Hc Hfd Hn f Hcnt Hv. destruct (fd_at_lookup k c fd Hc Hfd R1) as (p & Hp & Hf).
  constructor; rewrite on_fd_procs; change (pipes (on_fd c fd g k)) with (pipes k).
  - intros i q. by apply upd_fd_len.
  - intros q p' Hq. rewrite !(refs_alter _ _ p _ (fd_at k c fd)) by done.
    rewrite !(not_pipe_end _ _ (fd_at k c fd)) by auto. specialize (Hcnt q p' Hq). fold f. cbn. lia.
  - intros i q j f' Hq Hf' Hpf.
    destruct (upd_fd_inv _ _ _ _ _ _ _ _ Hq Hf') as (q0 & f1 & Hq0 & Hf0 & _ & [->|(-> & -> & ->)]); [by eapply R3|].
    assert (f1 = fd_at k c fd) as -> by congruence. by apply Hv.
Qed.

Lemma fd_alloc_spec k c start : (c < length (procs (ks k)))%nat -> 0 <= start ->
  (forall i p, procs (ks k) !! i = Some p -> length (fd_table p) = PROCESS_MAX_FDS) ->
  let r := process_fd_alloc (cproc k c) start in
  r = -1 \/ start <= r < 32 /\ fd_type (fd_at k c r) = FD_NONE.
Proof.
  intros Hc Hs Hl. unfold process_fd_alloc. destruct (find_index _ _) as [i|] eqn:Hi; [right|by left].
  destruct (find_index_Some _ _ _ Hi) as (f & Hf & Ht & _). b2p. rewrite lookup_drop in Hf.
  pose proof (lookup_lt_Some _ _ _ Hf) as Hlt. destruct (lookup_lt_is_Some_2 _ _ Hc) as [p Hp].
  unfold cproc, proc_at in Hf, Hlt. rewrite (list_lookup_total_correct _ _ _ Hp) in Hf, Hlt.
  rewrite (Hl c p Hp) in Hlt. unfold PROCESS_MAX_FDS in Hlt. split; [lia|].
  unfold fd_at, cproc, proc_at. rewrite (list_lookup_total_correct _ _ _ Hp). unfold zget.
  replace (Z.to_nat (start + Z.of_nat i)) with (Z.to_nat start + i)%nat by lia.
  by rewrite (list_lookup_total_correct _ _ _ Hf).
Qed.

Lemma none_not_pipe f : fd_type f = FD_NONE -> is_pipe_fd f = false.
Proof. intros E. unfold is_pipe_fd. by rewrite E. Qed.

(** A pipe no descriptor refers to can be added. *)
Lemma refs_fresh k ty q : refs_safe k -> pipes k !! q = None -> ty = FD_PIPE_READ \/ ty = FD_PIPE_WRITE ->
  refs (procs (ks k)) ty q = 0.
Proof.
  intros [_ _ R3] Hq Hty. unfold refs.
  assert (forall l, (forall p, p ∈ l -> countb (is_end ty q) (fd_table p) = 0) ->
    foldr (fun p acc => countb (is_end ty q) (fd_table p) + acc) 0 l = 0) as H0.
  { induction l as [|p l IH]; intros Hl; [done|]. cbn. rewrite Hl, IH; [done| |by left]. intros. apply Hl. by right. }
  apply H0. intros p [i Hi]%list_elem_of_lookup_1. apply countb_zero. intros j f Hf.
  destruct (is_end ty q f) eqn:E; [|done]. unfold is_end in E. apply andb_true_iff in E as [E E']. b2p. exfalso.
  destruct (R3 i p j f Hi Hf) as [x Hx]; [|congruence].
  unfold is_pipe_fd. destruct Hty as [-> | ->]; rewrite E; done.
Qed.

Lemma pipes_minus_refl f k : pipes_minus f k k.
Proof.
  split; [reflexivity|]. split; [done|]. intros q p Hp. exists p. split; [done|].
  destruct (is_end FD_PIPE_READ q f), (is_end FD_PIPE_WRITE q f); cbn; lia.
Qed.

Lemma add_pipe_safe k block pp h : refs_safe k -> pipes k !! block = None -> 0 <= readers pp -> 0 <= writers pp ->
  refs_safe (k <| heap := h |> <| pipes ::= <[block := pp]> |>).
Proof.
  intros Hs Hfresh H1 H2. pose proof (fun ty => refs_fresh k ty block Hs Hfresh) as H0. destruct Hs as [R1 R2 R3].
  constructor; [exact R1| |].
  - intros q p. cbn [pipes upd]. rewrite lookup_insert_Some. intros [[<- <-]|[_ Hp]]; [|by apply R2].
    change (ks _) with (ks k). rewrite !H0 by auto. done.
  - intros i p j f Hp Hf Hpf. apply lookup_insert_is_Some'. right. by eapply R3.
Qed.

Lemma pipe_safe c ptr k : refs_safe k -> (c < length (procs (ks k)))%nat ->
  pipes k !! (Kheap.kmalloc PIPE_STRUCT_SIZE (heap k)).2 = None -> refs_safe (sys_pipe c ptr k).1.1.
Proof.
  intros Hs Hc Hfresh. unfold sys_pipe. case_if; [done|].
  destruct (Kheap.kmalloc PIPE_STRUCT_SIZE (heap k)) as [h block]. cbn [snd] in Hfresh.
  unfold pipe_create. case_if; [by apply (refs_safe_same k)|]. cbn [snd].
  set (pp := mk_pipe _ _ _ _ _ _ _ _). pose proof (add_pipe_safe k block pp h Hs Hfresh ltac:(done) ltac:(done)) as Hs1.
  set (k1 := k <| heap := h |> <| pipes ::= <[block := pp]> |>) in *.
  assert (forall q p, pipes k1 !! q = Some p -> q <> block -> pipes k !! q = Some p) as Hold
    by (intros q p Hq Hne; change (pipes k1) with (<[block := pp]> (pipes k)) in Hq; by rewrite lookup_insert_ne in Hq).
  assert (pipes k1 !! block = Some pp) as Hnew by apply lookup_insert_eq.
  destruct (fd_alloc_spec k1 c 3 Hc ltac:(lia) (rs_len _ Hs1)) as [->|[Hr Hrt]]; [done|].
  set (rfd := process_fd_alloc (cproc k1 c) 3) in *. replace (rfd <? 0) with false by lia.
  set (g := fun f => f <| fd_type := FD_PIPE_READ |> <| fd_data := block |>).
  assert (forall q p, pipes k1 !! q = Some p -> 
    refs (procs (ks k1)) FD_PIPE_READ q + Z.b2z (block =? q) <= readers p /\
    refs (procs (ks k1)) FD_PIPE_WRITE q + Z.b2z (block =? q) <= writers p) as Hroom.
  { intros q p Hq. change (ks k1) with (ks k). destruct (Z.eqb_spec block q) as [<-|Hne].
    - rewrite Hnew in Hq. injection Hq as <-. rewrite !(refs_fresh k) by (done || auto). done.
    - destruct (rs_count _ Hs q p) as [C1 C2]; [apply Hold; [done|congruence]|]. cbn. lia. }
  assert (refs_safe (on_fd c rfd g k1)) as Hs2.
  { apply set_fd_safe; [done|done|lia|by apply none_not_pipe| |intros _; by exists pp].
    intros q p Hq. specialize (Hroom q p Hq). unfold is_end. cbn. destruct (block =? q); cbn in *; lia. }
  set (k2 := on_fd c rfd g k1) in *.
  assert (c < length (procs (ks k2)))%nat as Hc2 by (unfold k2; by rewrite on_fd_procs, length_upd_proc).
  destruct (fd_alloc_spec k2 c (rfd + 1) Hc2 ltac:(lia) (rs_len _ Hs2)) as [->|[Hw Hwt]].
  { apply (close_step c rfd _ k2); [done|done|lia|apply pipes_minus_refl|done]. }
  set (wfd := process_fd_alloc (cproc k2 c) (rfd + 1)) in *. replace (wfd <? 0) with false by lia. cbn [fst].
  apply set_fd_safe; [done|done|lia|by apply none_not_pipe| |intros _; by exists pp].
  intros q p Hq. specialize (Hroom q p Hq).
  destruct (fd_at_lookup k1 c rfd Hc ltac:(lia) (rs_len _ Hs1)) as (p1 & Hp1 & Hf1).
  unfold k2. rewrite on_fd_procs, !(refs_alter _ _ p1 _ (fd_at k1 c rfd)) by done.
  rewrite !(not_pipe_end _ _ (fd_at k1 c rfd)) by (auto using none_not_pipe).
  unfold is_end. cbn. destruct (block =? q); cbn in *; lia.
Qed.

(** ** Exit, wait and creation leave the other descriptors alone *)

Lemma signal_send_fds q sig s : same_fds (procs s) (procs (signal_send q sig s)).
Proof.
  unfold signal_send. case_if; [done|]. destruct (process_get_by_pid _ _) as [i|]; [|done]. case_if; [done|].
  cbv zeta. set (s1 := set_proc i _ s).
  assert (same_fds (procs s) (procs s1)) as E1 by (by apply same_fds_upd).
  case_if; [|done]. etransitivity; [exact E1|apply sched_only_fds, sched_only_wake].
Qed.

Lemma wake_waiting_parent_fds i s : same_fds (procs s) (procs (wake_waiting_parent i s)).
Proof.
  unfold wake_waiting_parent. destruct (process_get_by_pid _ _) as [q|]; [|done]. cbv zeta.
  case_if; [apply sched_only_fds, sched_only_wake|done].
Qed.

Lemma reparent_fds q t : same_fds t (reparent q t).
Proof.
  unfold same_fds, reparent. rewrite <- list_fmap_compose. apply list_fmap_ext. intros i p _. cbn. by case_if.
Qed.

Lemma exit_space_sched c k : pipes (exit_space c k) = pipes k /\ same_fds (procs (ks k)) (procs (ks (exit_space c k))).
Proof.
  unfold exit_space. cbv zeta. case_if; [done|]. split; [done|]. unfold ks. cbn [mm upd].
  rewrite sc_user_vm_destroy. by apply same_fds_upd.
Qed.

Lemma ks_on_sched f k : ks (on_sched f k) = f (ks k).
Proof. done. Qed.

Lemma pipes_on_sched f k : pipes (on_sched f k) = pipes k.
Proof. done. Qed.

Lemma exit_rest_eq c arg1 k : let k2 := exit_space c (exit_fds c k) in
  pipes (syscall_exit c arg1 k) = pipes k2 /\ ks (syscall_exit c arg1 k) = exit_rest c arg1 (ks k2).
Proof. unfold syscall_exit. generalize (exit_space c (exit_fds c k)). done. Qed.

Lemma exit_rest_fds c arg1 s : same_fds (procs s) (procs (exit_rest c arg1 s)).
Proof.
  unfold exit_rest. cbv zeta. etransitivity; [|apply sched_only_fds, sched_only_schedule].
  etransitivity; [|apply wake_waiting_parent_fds]. cbn [procs upd]. etransitivity; [|apply reparent_fds].
  etransitivity; [|apply signal_send_fds]. by apply same_fds_upd.
Qed.

Lemma exit_tail c arg1 k : let k1 := exit_fds c k in
  pipes (syscall_exit c arg1 k) = pipes k1 /\ same_fds (procs (ks k1)) (procs (ks (syscall_exit c arg1 k))).
Proof.
  intros k1. destruct (exit_rest_eq c arg1 k) as [-> ->]. fold k1. destruct (exit_space_sched c k1) as [E1 E2].
  split; [exact E1|]. etransitivity; [exact E2|apply exit_rest_fds].
Qed.

Lemma exit_fds_safe c k : refs_safe k -> (c < length (procs (ks k)))%nat ->
  refs_safe (exit_fds c k) /\ length (procs (ks (exit_fds c k))) = length (procs (ks k)).
Proof.
  intros Hs Hc. pose proof (for_loop_inv (fun _ k1 => refs_safe k1 /\ length (procs (ks k1)) = length (procs (ks k)))
    PROCESS_MAX_FDS 0 (exit_fd c) k) as H1. apply H1; [done|].
  intros i k1 Hi [Hs1 L1]. rewrite <- L1. apply exit_fd_safe; [done|by rewrite L1|unfold PROCESS_MAX_FDS in Hi; lia].
Qed.

Lemma exit_safe c arg1 k : refs_safe k -> (c < length (procs (ks k)))%nat -> refs_safe (syscall_exit c arg1 k).
Proof.
  intros Hs Hc. destruct (exit_tail c arg1 k) as [E1 E2].
  apply (refs_safe_same (exit_fds c k)); [by apply exit_fds_safe|done|done].
Qed.

Lemma new_kernel_stack_same k : let k1 := (new_kernel_stack k).1 in
  ks k1 = ks k /\ pipes k1 = pipes k /\ next_pid k1 = next_pid k.
Proof.
  unfold new_kernel_stack, process_alloc_kernel_stack, ks.
  destruct (kstack_free k) as [|a l]; [destruct (Kheap.kmalloc_page_aligned _ _) as [h a]|];
    case_if; cbn [fst mm upd pipes next_pid]; rewrite ?sc_vmm_unmap_page; done.
Qed.

Lemma free_kernel_stack_same guard k : let k1 := free_kernel_stack guard k in ks k1 = ks k /\ pipes k1 = pipes k.
Proof.
  unfold free_kernel_stack, ks. pose proof (sc_pmm_alloc_page (mm k)) as E.
  destruct (pmm_alloc_page (mm k)) as [m p]. cbn [fst] in E. cbv zeta.
  assert (sc (if p =? 0 then m else (vmm_map_page guard p PTE_WRITABLE m).1) = sc (mm k)) as E1
    by (case_if; [done|by rewrite sc_vmm_map_page]).
  revert E1. generalize (if p =? 0 then m else (vmm_map_page guard p PTE_WRITABLE m).1). intros m1 E1. case_if; done.
Qed.

Lemma reap_same z k : let k1 := (reap z k).1.1 in pipes k1 = pipes k /\ same_fds (procs (ks k)) (procs (ks k1)).
Proof.
  unfold reap. cbv zeta. cbn [fst]. case_if; [split; [done|by apply same_fds_upd]|].
  destruct (free_kernel_stack_same (kernel_stack_guard (cproc k z)) k) as [E1 E2].
  split; [exact E2|]. etransitivity; [|by apply same_fds_upd]. etransitivity; [|by apply same_fds_upd].
  change (sc (mm ?x)) with (ks x). by rewrite E1.
Qed.

(** ** Fork *)

Lemma fork_fd_spec i j k : (i < length (procs (ks k)))%nat -> (j < 32)%nat -> refs_room 1 k ->
  (forall i p, procs (ks k) !! i = Some p -> length (fd_table p) = PROCESS_MAX_FDS) ->
  let k' := fork_fd i j k in let f := fd_at k i (Z.of_nat j) in
  ks k' = ks k /\ (forall q, is_Some (pipes k !! q) -> is_Some (pipes k' !! q)) /\
  forall q p', pipes k' !! q = Some p' -> exists p, pipes k !! q = Some p /\
    readers p' = readers p + Z.b2z (is_end FD_PIPE_READ q f) /\
    writers p' = writers p + Z.b2z (is_end FD_PIPE_WRITE q f).
Proof.
  intros Hi Hj Hr Hl. unfold fork_fd. set (f := fd_at k i (Z.of_nat j)). cbv zeta. case_if; [|by apply inc_ref_spec].
  split; [done|]. split; [done|]. intros q p Hp. exists p. split; [done|]. unfold is_end. b2p. rewrite Heqb. cbn. lia.
Qed.

Lemma countb_drop {A} (P : A -> bool) (l : list A) j x : l !! j = Some x ->
  countb P (drop j l) = Z.b2z (P x) + countb P (drop (Datatypes.S j) l).
Proof. intros Hx. by rewrite (drop_S _ _ _ Hx). Qed.

(** The loop over the child's descriptors adds the references they hold. *)
Lemma fork_loop i p k : procs (ks k) !! i = Some p -> refs_room 32 k ->
  (forall i p, procs (ks k) !! i = Some p -> length (fd_table p) = PROCESS_MAX_FDS) ->
  let k' := for_loop PROCESS_MAX_FDS 0 (fork_fd i) k in
  ks k' = ks k /\ (forall q, is_Some (pipes k !! q) -> is_Some (pipes k' !! q)) /\
  forall q p', pipes k' !! q = Some p' -> exists p0, pipes k !! q = Some p0 /\
    readers p' = readers p0 + countb (is_end FD_PIPE_READ q) (fd_table p) /\
    writers p' = writers p0 + countb (is_end FD_PIPE_WRITE q) (fd_table p).
Proof.
  intros Hp Hr Hl. cbv zeta.
  pose proof (for_loop_inv (fun j k' => ks k' = ks k /\ (forall q, is_Some (pipes k !! q) -> is_Some (pipes k' !! q)) /\
    refs_room (32 - Z.of_nat j) k' /\
    forall q p', pipes k' !! q = Some p' -> exists p0, pipes k !! q = Some p0 /\
      readers p' + countb (is_end FD_PIPE_READ q) (drop j (fd_table p)) = readers p0 + countb (is_end FD_PIPE_READ q) (fd_table p) /\
      writers p' + countb (is_end FD_PIPE_WRITE q) (drop j (fd_table p)) = writers p0 + countb (is_end FD_PIPE_WRITE q) (fd_table p))
    PROCESS_MAX_FDS 0 (fork_fd i) k) as H1.
  destruct H1 as (I1 & I2 & _ & I4).
  - split; [done|]. split; [done|]. split; [done|]. intros q p' Hq. exists p'. by rewrite drop_0.
  - intros j k1 Hj (I1 & I2 & I3 & I4). unfold PROCESS_MAX_FDS in Hj. assert (refs_room 1 k1) as Hr1
      by (intros q p' Hq; specialize (I3 q p' Hq); lia).
    destruct (fork_fd_spec i j k1) as (F1 & F2 & F3); [rewrite I1; by eapply lookup_lt_Some|lia|done|by rewrite I1|].
    assert (fd_table p !! j = Some (fd_at k1 i (Z.of_nat j))) as Hf.
    { unfold fd_at, cproc, proc_at. rewrite I1, (list_lookup_total_correct _ _ _ Hp).
      pose proof (zget_lookup (fd_table p) (Z.of_nat j)) as E. rewrite Nat2Z.id in E. apply E.
      rewrite (Hl i p Hp). unfold PROCESS_MAX_FDS. lia. }
    split; [congruence|]. split; [auto|]. split.
    + intros q p' Hq. destruct (F3 q p' Hq) as (p1 & Hp1 & E1 & E2). specialize (I3 q p1 Hp1).
      destruct (is_end FD_PIPE_READ q _), (is_end FD_PIPE_WRITE q _); cbn in *; lia.
    + intros q p' Hq. destruct (F3 q p' Hq) as (p1 & Hp1 & E1 & E2). destruct (I4 q p1 Hp1) as (p0 & Hp0 & E3 & E4).
      exists p0. split; [done|]. rewrite !(countb_drop _ _ _ _ Hf) in *. lia.
  - split; [done|]. split; [done|]. intros q p' Hq. destruct (I4 q p' Hq) as (p0 & Hp0 & E1 & E2).
    exists p0. split; [done|]. rewrite drop_ge in E1, E2 by (rewrite (Hl i p Hp); done). cbn in E1, E2. lia.
Qed.

Lemma refs_insert t i p p' ty q : t !! i = Some p ->
  refs (<[i := p']> t) ty q = refs t ty q - countb (is_end ty q) (fd_table p) + countb (is_end ty q) (fd_table p').
Proof.
  revert i. induction t as [|p0 t IH]; intros [|i] Hp; try done; cbn in Hp.
  - injection Hp as ->. unfold refs. cbn. lia.
  - specialize (IH i Hp). change (<[Datatypes.S i := p']> (p0 :: t)) with (p0 :: <[i := p']> t).
    unfold refs in *. cbn [foldr]. rewrite IH. lia.
Qed.

Lemma alloc_slot t np i : find_index unused t = Some i ->
  exists p, t !! i = Some p /\ process_alloc t np = ((<[i := fresh_pcb np]> t, u32 (np + 1)), Some i).
Proof.
  intros Hi. destruct (find_index_Some _ _ _ Hi) as (p & Hp & _). exists p. unfold process_alloc. by rewrite Hi.
Qed.

Lemma set_slot_safe k i p p' : refs_safe k -> procs (ks k) !! i = Some p -> length (fd_table p') = PROCESS_MAX_FDS ->
  (forall f, f ∈ fd_table p' -> is_pipe_fd f = false) -> refs_safe (on_sched (fun s => s <| procs ::= <[i := p']> |>) k).
Proof.
  intros [R1 R2 R3] Hp Hl Hn. constructor; rewrite ks_on_sched, ?pipes_on_sched; cbn [procs upd].
  - intros j q [(<- & <- & _)|[_ Hq]]%list_lookup_insert_Some; [done|by eapply R1].
  - intros q x Hq. specialize (R2 q x Hq). rewrite !(refs_insert _ _ p) by done.
    assert (forall ty, ty = FD_PIPE_READ \/ ty = FD_PIPE_WRITE -> countb (is_end ty q) (fd_table p') = 0) as H0.
    { intros ty Hty. apply countb_zero. intros j f Hf. apply not_pipe_end; [|done]. apply Hn. by eapply list_elem_of_lookup_2. }
    rewrite !H0 by auto. pose proof (countb_bounds (is_end FD_PIPE_READ q) (fd_table p)).
    pose proof (countb_bounds (is_end FD_PIPE_WRITE q) (fd_table p)). lia.
  - intros j q m f [(<- & <- & _)|[_ Hq]]%list_lookup_insert_Some Hf Hpf; [|by eapply R3].
    rewrite Hn in Hpf; [done|by eapply list_elem_of_lookup_2].
Qed.

Lemma fresh_no_pipe np f : f ∈ fd_table (fresh_pcb np) -> is_pipe_fd f = false.
Proof. intros Hf. apply elem_of_replicate in Hf as [-> _]. done. Qed.

(** The child gets the parent's descriptors, then a reference for each. *)
Lemma fork_child_safe k i c np par g : refs_safe k -> refs_room 32 k -> i <> c ->
  procs (ks k) !! i = Some (fresh_pcb np) -> procs (ks k) !! c = Some par ->
  fd_table (g (fresh_pcb np)) = fd_table par ->
  let k' := for_loop PROCESS_MAX_FDS 0 (fork_fd i) (on_proc i g k) in
  refs_safe k' /\ ks k' = ks (on_proc i g k).
Proof.
  intros [R1 R2 R3] Hr Hne Hi Hc Hg. set (k1 := on_proc i g k).
  assert (procs (ks k1) = <[i := g (fresh_pcb np)]> (procs (ks k))) as Ek
    by (change (procs (ks k1)) with (alter g i (procs (ks k))); by rewrite (list_alter_insert_at _ _ _ _ Hi)).
  assert (forall j q, procs (ks k1) !! j = Some q -> length (fd_table q) = PROCESS_MAX_FDS) as L1.
  { rewrite Ek. intros j q [(<- & <- & _)|[_ Hq]]%list_lookup_insert_Some; [rewrite Hg; by eapply R1|by eapply R1]. }
  assert (procs (ks k1) !! i = Some (g (fresh_pcb np))) as Hi1
    by (rewrite Ek; apply list_lookup_insert_eq; by eapply lookup_lt_Some).
  destruct (fork_loop i _ k1 Hi1 Hr L1) as (I1 & I2 & I3). cbv zeta. set (k2 := for_loop _ _ _ _) in *.
  split; [|done]. constructor; rewrite I1; [done| |].
  - intros q p' Hq. destruct (I3 q p' Hq) as (p0 & Hp0 & E1 & E2). destruct (R2 q p0 Hp0) as [C1 C2].
    rewrite Ek, !(refs_insert _ _ _ _ _ _ Hi), E1, E2.
    pose proof (countb_bounds (is_end FD_PIPE_READ q) (fd_table (fresh_pcb np))).
    pose proof (countb_bounds (is_end FD_PIPE_WRITE q) (fd_table (fresh_pcb np))). lia.
  - intros j q m f. rewrite Ek. intros [(<- & <- & _)|[_ Hq]]%list_lookup_insert_Some Hf Hpf; apply I2.
    + rewrite Hg in Hf. by eapply R3.
    + by eapply R3.
Qed.

Lemma kframes_fork_fds i n j k : kframes (for_loop n j (fork_fd i) k) = kframes k.
Proof.
  revert j k. induction n as [|n IH]; intros j k; [done|]. cbn [for_loop]. rewrite IH.
  unfold fork_fd. case_if; [done|]. unfold inc_pipe_ref. case_if; [|done].
  unfold with_pipe. by destruct (pipes k !! _).
Qed.

Lemma refs_safe_upd k k' : refs_safe k -> ks k' = ks k -> pipes k' = pipes k -> refs_safe k'.
Proof. intros Hs E1 E2. apply (refs_safe_same k); [done|by rewrite E1|done]. Qed.

Lemma set_proc_at i g p s : procs s !! i = Some p -> set_proc i g s = s <| procs ::= <[i := g p]> |>.
Proof.
  intros Hp. unfold set_proc, upd_proc. destruct s as [t ? ? ? ? ? ? ? ?]. cbn in *. f_equal.
  by rewrite (list_alter_insert_at _ _ _ _ Hp).
Qed.

Lemma fork_sched i g p s : (i < length (procs s))%nat ->
  set_proc i g (s <| procs ::= <[i := p]> |>) = s <| procs ::= <[i := g p]> |>.
Proof.
  intros Hi. rewrite (set_proc_at _ _ p) by (by apply list_lookup_insert_eq).
  destruct s as [t ? ? ? ? ? ? ? ?]. cbn. f_equal. by rewrite list_insert_insert_eq.
Qed.

(** The part of fork that can fail leaves the scheduler's state as process_alloc
    left it, and the pipes alone. *)
Definition fork_ready (k k1 : kern) : Prop :=
  pipes k1 = pipes k /\ exists i, find_index unused (procs (ks k)) = Some i /\
  ks k1 = (ks k) <| procs ::= <[i := fresh_pcb (next_pid k)]> |>.

(** A child: its slot, its control block, its place in the queue and its
    kernel stack. *)
Definition forked (tramp : Z) (f : frame) (k : kern) (par : process) (k' : kern) (r : Z) : Prop :=
  exists i guard root, find_index unused (procs (ks k)) = Some i /\ r = next_pid k /\ guard <> 0 /\ root <> 0 /\
    ks k' = scheduler_add i ((ks k) <| procs ::= <[i := fork_pcb par guard root tramp (fresh_pcb (next_pid k))]> |>) /\
    kframes k' !! u64 (stack_top guard - 176) = Some (f <| f_rax := 0 |>).

Lemma fork_ready_safe k k1 : refs_safe k -> fork_ready k k1 -> refs_safe k1.
Proof.
  intros Hs (E1 & i & Hi & E2). destruct (find_index_Some _ _ _ Hi) as (p & Hp & _).
  apply (refs_safe_upd (on_sched (fun s => s <| procs ::= <[i := fresh_pcb (next_pid k)]> |>) k)); [|done|done].
  eapply set_slot_safe; [done|done|done|]. apply fresh_no_pipe.
Qed.

Lemma find_unused_ne k c par i : procs (ks k) !! c = Some par -> unused par = false ->
  find_index unused (procs (ks k)) = Some i -> i <> c.
Proof. intros Hc Hu Hi ->. destruct (find_index_Some _ _ _ Hi) as (p' & Hp' & Hu' & _). congruence. Qed.

(** The part of fork after the last failure. *)
Lemma fork_finish tramp c f k k1 i guard root par : refs_safe k -> refs_room 32 k ->
  procs (ks k) !! c = Some par -> unused par = false -> fork_ready k k1 ->
  find_index unused (procs (ks k)) = Some i -> guard <> 0 -> root <> 0 ->
  let k4 := k1 <| kframes ::= <[u64 (stack_top guard - 176) := f <| f_rax := 0 |>]> |> in
  let k5 := for_loop PROCESS_MAX_FDS 0 (fork_fd i) (on_proc i (fork_pcb (cproc k4 c) guard root tramp) k4) in
  let k' := on_sched (scheduler_add i) k5 in
  refs_safe k' /\ forked tramp f k par k' (pid (cproc k5 i)).
Proof.
  intros Hs Hr Hc Hu Hk Hi Hg Hroot k4. pose proof (fork_ready_safe k k1 Hs Hk) as Hs1.
  destruct Hk as (P1 & i' & Hi' & E1). assert (i' = i) as -> by congruence.
  pose proof (find_unused_ne k c par i Hc Hu Hi) as Hne.
  destruct (find_index_Some _ _ _ Hi) as (p & Hp & _). pose proof (lookup_lt_Some _ _ _ Hp) as Hlt.
  assert (procs (ks k4) = <[i := fresh_pcb (next_pid k)]> (procs (ks k))) as E4
    by (change (ks k4) with (ks k1); by rewrite E1).
  assert (procs (ks k4) !! i = Some (fresh_pcb (next_pid k))) as Hi4 by (rewrite E4; by apply list_lookup_insert_eq).
  assert (procs (ks k4) !! c = Some par) as Hc4 by (by rewrite E4, list_lookup_insert_ne by done).
  assert (cproc k4 c = par) as -> by (unfold cproc, proc_at; by apply list_lookup_total_correct).
  assert (refs_room 32 k4) as Hr4 by (intros q x; change (pipes k4) with (pipes k1); rewrite P1; apply Hr).
  pose proof (fork_child_safe k4 i c (next_pid k) par (fork_pcb par guard root tramp)
    (refs_safe_upd k1 k4 Hs1 eq_refl eq_refl) Hr4 Hne Hi4 Hc4 eq_refl) as [Hs5 E5].
  pose proof (kframes_fork_fds i PROCESS_MAX_FDS 0 (on_proc i (fork_pcb par guard root tramp) k4)) as F5.
  cbv zeta. set (k5 := for_loop _ _ _ _) in *.
  assert (ks k5 = (ks k) <| procs ::= <[i := fork_pcb par guard root tramp (fresh_pcb (next_pid k))]> |>) as E6
    by (rewrite E5; unfold on_proc; rewrite ks_on_sched; change (ks k4) with (ks k1); rewrite E1; by apply fork_sched).
  split; [apply (refs_safe_same k5); [done|apply sched_only_fds, sched_only_add|done]|].
  exists i, guard, root. split_and!; [done| |done|done|by rewrite ks_on_sched, E6|].
  - unfold cproc, proc_at. rewrite E6. cbn [procs upd]. erewrite list_lookup_total_correct; [|by apply list_lookup_insert_eq]. done.
  - change (kframes (on_sched _ k5)) with (kframes k5). rewrite F5. apply lookup_insert_eq.
Qed.

(** The ways fork ends: no slot, no memory, a child. *)
Lemma fork_cases tramp c f k par : refs_safe k -> refs_room 32 k ->
  procs (ks k) !! c = Some par -> unused par = false ->
  let '(k', r) := syscall_fork tramp c f k in
  refs_safe k' /\ (r = ERR64 \/ forked tramp f k par k' r).
Proof.
  intros Hs Hr Hc Hu. unfold syscall_fork. destruct (find_index unused (procs (ks k))) as [i|] eqn:Hi.
  2: { unfold process_alloc. rewrite Hi. split; [|by left]. apply (refs_safe_upd k); [done| |done]. 
    change ((ks k) <| procs := procs (ks k) |> = ks k). by destruct (ks k). }
  destruct (alloc_slot _ (next_pid k) _ Hi) as (p & Hp & ->).
  set (k1 := (on_sched _ k) <| next_pid := _ |>). assert (fork_ready k k1) as Hk1 by (split; [done|]; by exists i).
  destruct (new_kernel_stack_same k1) as (N1 & N2 & _). destruct (new_kernel_stack k1) as [k2 guard]. cbn [fst] in N1, N2.
  assert (fork_ready k k2) as Hk2 by (unfold fork_ready; by rewrite N1, N2).
  destruct (Z.eqb_spec guard 0) as [|Hg]; [split; [by apply (fork_ready_safe k)|by left]|].
  pose proof (sc_user_vm_fork (cr3 (cproc k2 c)) (mm k2)) as Em.
  destruct (user_vm_fork_address_space (cr3 (cproc k2 c)) (mm k2)) as [m root]. cbn [fst] in Em.
  assert (fork_ready k (k2 <| mm := m |>)) as Hk3.
  { unfold fork_ready. change (ks (k2 <| mm := m |>)) with (sc m). by rewrite Em. }
  destruct (Z.eqb_spec root 0) as [|Hroot]; [split; [by apply (fork_ready_safe k)|by left]|].
  pose proof (fork_finish tramp c f k (k2 <| mm := m |>) i guard root par Hs Hr Hc Hu Hk3 Hi Hg Hroot) as [F1 F2].
  split; [exact F1|right; exact F2].
Qed.

End files.
Arguments kern : clear implicits.

End Files.
