(* ===== verification/Exec.v ===== *)
(** * Starting programs (process/user_process.c and the system calls exec and
    execv of syscall/syscall.c)

    [world] adds to the state of the kernel what the search for a program needs:
    the bytes of kernel memory, the table of files in memory and the disk file
    system.  The two system calls share the steps from the check of the image to
    the new register frame, [exec_image].  User strings and the words of the
    argument vector are arguments. *)

From Stdlib Require Import Ascii String.
From stdpp Require Import prelude gmap.
From Stdlib Require Import ZArith Lia.
From S2P Require Import Prelude Pmm Process Sched Cred Signal Pipe Kheap Vm Mmap Ext2 Ext2Dir Vfs Elf Files.
Import Process Sched Signal Vm Mmap Elf Files.
Local Open Scope Z_scope.

Module Exec.

#[local] Existing Instances Ext2Dir.answer_bind Ext2.eta_ext2.
Abbreviation answer := Ext2Dir.answer.
Abbreviation Answer := Ext2Dir.Answer.

Definition USER_STACK_TOP : Z := 0x800000000.
Definition USER_STACK_PAGES : nat := 64.
Definition USER_STACK_BOTTOM : Z := USER_STACK_TOP - Z.of_nat USER_STACK_PAGES * PAGE_SIZE.
Definition USER_ARGV_ADDR : Z := 0x600000.
Definition EXECV_MAX_ARGS : nat := 32.
Definition EXECV_MAX_ARG_LEN : nat := 256.
Definition STACK_FLAGS : Z := Z.lor (Z.lor PTE_PRESENT PTE_WRITABLE) PTE_USER.

Section exec.
Context {S : Type} `{SocketOps S}.

Record world := mk_world { w_k : kern S; w_kmem : Z -> Z; w_vfs : Vfs.vfs; w_fs : Ext2.ext2 }.

#[export] Instance eta_world : Eta world := fun w => mk_world (w_k w) (w_kmem w) (w_vfs w) (w_fs w).

Definition on_mm (f : vm -> vm) (w : world) : world := w <| w_k ::= fun k => k <| mm ::= f |> |>.
Definition wproc (w : world) (c : nat) : process := cproc (w_k w) c.

(** ** Finding the program *)

(** The path tried on disk; [n] is the size of the buffer it is built in. *)
Definition bin_path (n : nat) (nm : list Z) : list Z :=
  if bool_decide (nm !! 0%nat = Some Vfs.SLASH) then take (n - 1) nm else Vfs.txt "/bin/" ++ take (n - 6) nm.

(** The program on disk, in a buffer of the heap, and its inode; [None] when the
    caller may not execute it. *)
Definition from_ext2 (n : nat) (nm : list Z) (p : process) (w : world) :
    answer (world * option (option (Z * Z) * option Ext2.ext2_inode)) :=
  if negb (Ext2.ext2_mounted (w_fs w)) then Answer (w, Some (None, None)) else
  ino ← Ext2Dir.ext2_path_lookup (bin_path n nm) (w_fs w);
  if ino =? 0 then Answer (w, Some (None, None)) else
  match Ext2.ext2_read_inode ino (w_fs w) with
  | None => Answer (w, Some (None, None))
  | Some i =>
      if Ext2.i_size i <=? 0 then Answer (w, Some (None, None)) else
      if negb (Cred.cred_check_exec p (Ext2.i_mode i) (Ext2.i_uid i) (Ext2.i_gid i)) then Answer (w, None) else
      let '(h, buf) := Kheap.kmalloc (Ext2.i_size i) (heap (w_k w)) in
      let w := w <| w_k ::= fun k => k <| heap := h |> |> in
      if buf =? 0 then Answer (w, Some (None, Some i)) else
      match Ext2.ext2_read_file i 0 (Ext2.i_size i) (w_fs w) with
      | Some bs =>
          if 0 <? Z.of_nat (length bs)
          then Answer (w <| w_kmem ::= poke buf bs |>, Some (Some (buf, Z.of_nat (length bs)), Some i))
          else Answer (w, Some (None, Some i))
      | None => Answer (w, Some (None, Some i))
      end
  end.

(** A file in memory; one without data is no program. *)
Definition ram_program (nm : list Z) (w : world) : option (Z * Z) :=
  match Vfs.ramfs_get_file_data nm (w_vfs w) with
  | Some (data, size) => if data =? 0 then None else Some (data, size)
  | None => None
  end.

(** The program on disk, or else the first of the names found in memory. *)
Definition program_of (prog : option (Z * Z)) (nms : list (list Z)) (w : world) : option (Z * Z) :=
  foldl (fun r nm => match r with Some d => Some d | None => ram_program nm w end) prog nms.

(** ** The stack *)

(** [n] more zeroed pages behind [l]; when one is missing those of [l] are
    freed and [None] is returned. *)
Fixpoint alloc_stack (n : nat) (l : list Z) (s : vm) : vm * option (list Z) :=
  match n with
  | O => (s, Some l)
  | Datatypes.S n =>
      let '(s, p) := pmm_alloc_page s in
      if p =? 0 then (foldl (fun s q => s <| frames ::= Pmm.pmm_free_page q |>) s l, None)
      else alloc_stack n (l ++ [p]) (zero_page p s)
  end.

Definition map_stack (root : Z) (l : list Z) : vm -> vm * bool :=
  for_while (length l) 0 (fun i s =>
    let '(s, r) := user_vm_map_page root (USER_STACK_BOTTOM + 4096 * Z.of_nat i) (l !!! i) STACK_FLAGS s in
    (s, negb (r <? 0))).

Definition stack_phys (l : list Z) : Z := default 0 (last l).

(** ** exec and execv *)

(** What becomes of the control block behind the point of no return. *)
Definition exec_pcb (nm : list Z) (data size : Z) (i : option Ext2.ext2_inode) (r : elf_load_result) (p : process) : process :=
  let p := p <| sig_handlers ::= fmap (fun h => if 1 <? h then 0 else h) |> <| sig_pending := 0 |> <| in_signal_handler := false |>
             <| name := copy_name 31 nm |> <| user_program_data := data |> <| user_program_size := size |> in
  let p := match i with
           | Some i =>
               let p := if has (Ext2.i_mode i) 0x800 then p <| euid := Ext2.i_uid i |> else p in
               if has (Ext2.i_mode i) 0x400 then p <| egid := Ext2.i_gid i |> else p
           | None => p
           end in
  p <| mmap_next := MMAP_BASE |> <| brk_start := load_end r |> <| brk_current := load_end r |>.

Definition leave_space (old : Z) (s : vm) : vm := if old =? 0 then s else user_vm_destroy_address_space old s.

(** The processor leaves the old space before it is destroyed. *)
Definition switch_space (c : nat) (root : Z) (s : vm) : vm :=
  let old := cr3 (proc_at (sc s) c) in
  let s := s <| sc ::= set_proc c (fun p => p <| cr3 := root |>) |> in
  let s := s <| sc ::= fun z => z <| cpu_cr3 := kernel_cr3 z |> |> in
  let s := leave_space old s in
  s <| sc ::= fun z => z <| cpu_cr3 := root |> |>.

Definition fail (f : frame) : frame := f <| f_rax := ERR64 |>.

(** The stack of the new image and, if all goes well, the switch to it. *)
Definition exec_enter (nm : list Z) (argv : list (list Z)) (data size : Z) (i : option Ext2.ext2_inode) (c : nat) (root : Z)
    (r : elf_load_result) (f : frame) (s : vm) : vm * frame :=
  match alloc_stack USER_STACK_PAGES [] s with
  | (s, None) => (user_vm_destroy_address_space root s, fail f)
  | (s, Some l) =>
      match map_stack root l s with
      | (s, false) =>
          (user_vm_destroy_address_space root (foldl (fun s q => s <| frames ::= Pmm.pmm_free_page q |>) s l), fail f)
      | (s, true) =>
          match elf_setup_stack (stack_phys l) (USER_STACK_TOP - PAGE_SIZE) (Some <$> argv) (Some r) s with
          | (s, None) => (user_vm_destroy_address_space root s, fail f)
          | (s, Some (rsp, argv_ptr)) =>
              ((switch_space c root s) <| sc ::= set_proc c (exec_pcb nm data size i r) |>,
               f <| f_rip := entry_point r |> <| f_rsp := rsp |> <| f_rax := 0 |>
                 <| f_rdi := Z.of_nat (length argv) |> <| f_rsi := argv_ptr |>)
          end
      end
  end.

(** From the check of the image on; [nm] is the new name. *)
Definition exec_image (nm : list Z) (argv : list (list Z)) (data size : Z) (i : option Ext2.ext2_inode) (c : nat) (f : frame)
    (w : world) : answer (world * frame) :=
  if elf_validate (w_kmem w) data size <? 0 then Answer (w, fail f) else
  let '(s, root) := user_vm_create_address_space (mm (w_k w)) in
  let w := on_mm (fun _ => s) w in
  if root =? 0 then Answer (w, fail f) else
  let '(p, bufs) := vma_destroy_all (wproc w c) in
  let w := w <| w_k ::= fun k => (on_proc c (fun _ => p) k) <| heap ::= fun h => foldl (fun h b => Kheap.kfree b h) h bufs |> |> in
  '(l, r) ← elf_load (w_fs w) root data size 0 None (mk_loader (mm (w_k w)) (heap (w_k w)) (w_kmem w));
  let w := w <| w_k ::= fun k => k <| mm := l_mm l |> <| heap := l_heap l |> |> <| w_kmem := l_mem l |> in
  match r with
  | None => Answer (on_mm (user_vm_destroy_address_space root) w, fail f)
  | Some r =>
      let '(s, f) := exec_enter nm argv data size i c root r f (mm (w_k w)) in
      Answer (on_mm (fun _ => s) w, f)
  end.

(** [path] is the string at the address [arg1]. *)
Definition syscall_exec (c : nat) (arg1 : Z) (path : list Z) (f : frame) (w : world) : answer (world * frame) :=
  if KERNEL_VMA <=? arg1 then Answer (w, fail f) else
  let name_buf := take 31 path in
  '(w, r) ← from_ext2 64 name_buf (wproc w c) w;
  match r with
  | None => Answer (w, fail f)
  | Some (prog, i) =>
      match program_of prog [name_buf] w with
      | Some (data, size) => exec_image name_buf [name_buf] data size i c f w
      | None => Answer (w, fail f)
      end
  end.

(** The characters behind the last slash. *)
Fixpoint basename (s : list Z) (base : list Z) : list Z :=
  match s with
  | [] => base
  | ch :: s' => basename s' (if ch =? Vfs.SLASH then s' else base)
  end.

(** The arguments behind the first one: [word] reads the vector at [argv] and
    [str] a string of the user; [i] is the index and [n] what is left of the
    count. *)
Fixpoint copy_args (word : Z -> Z) (str : Z -> list Z) (argv i : Z) (n : nat) : list (list Z) :=
  match n with
  | O => []
  | Datatypes.S n =>
      if KERNEL_VMA <=? argv + 8 * i then [] else
      let uptr := word (argv + 8 * i) in
      if (uptr =? 0) || (KERNEL_VMA <=? uptr) then [] else
      take (EXECV_MAX_ARG_LEN - 1) (str uptr) :: copy_args word str argv (i + 1) n
  end.

Definition execv_args (word : Z -> Z) (str : Z -> list Z) (base : list Z) (arg2 arg3 : Z) : list (list Z) :=
  let user_argc := s32 arg2 in
  let user_argc := if (user_argc <? 0) || (Z.of_nat EXECV_MAX_ARGS <? user_argc) then Z.of_nat EXECV_MAX_ARGS else user_argc in
  take (EXECV_MAX_ARG_LEN - 1) base :: copy_args word str arg3 1 (Z.to_nat (user_argc - 1)).

Definition syscall_execv (word : Z -> Z) (str : Z -> list Z) (c : nat) (arg1 arg2 arg3 : Z) (f : frame) (w : world) :
    answer (world * frame) :=
  if (KERNEL_VMA <=? arg1) || (KERNEL_VMA <=? arg3) then Answer (w, fail f) else
  let name_buf := take 63 (str arg1) in
  let base := basename name_buf name_buf in
  let args := execv_args word str base arg2 arg3 in
  '(w, r) ← from_ext2 72 name_buf (wproc w c) w;
  match r with
  | None => Answer (w, fail f)
  | Some (prog, i) =>
      match program_of prog [name_buf; base] w with
      | Some (data, size) => exec_image (take (EXECV_MAX_ARG_LEN - 1) base) args data size i c f w
      | None => Answer (w, fail f)
      end
  end.

(** ** Creating a process from a program: user_process.c *)

Definition UPCA_MAX_ARGS : nat := 32.

Definition SPACE : Z := 32.

(** The words of a line, at most [n]; [fuel] bounds the turns of the loop. *)
Fixpoint words_of (fuel n : nat) (tok : list Z) : list (list Z) :=
  match fuel, n with
  | Datatypes.S fuel, Datatypes.S n =>
      let tok := drop (default (length tok) (find_index (fun ch => negb (ch =? SPACE)) tok)) tok in
      match tok with
      | [] => []
      | _ => let k := default (length tok) (find_index (Z.eqb SPACE) tok) in
             take k tok :: words_of fuel n (drop (Datatypes.S k) tok)
      end
  | _, _ => []
  end.

(** The argument vector of a new process: its name and the words of [args]. *)
Definition create_argv (nm : list Z) (args : option (list Z)) : list (list Z) :=
  nm :: match args with
        | Some ((_ :: _) as a) => words_of (length a) (UPCA_MAX_ARGS - 1) (take 511 a)
        | _ => []
        end.

(** The old page for the argument line; it is not cleared first. *)
Definition legacy_args (root : Z) (args : option (list Z)) (s : vm) : vm :=
  match args with
  | Some ((_ :: _) as a) =>
      let '(s, p) := pmm_alloc_page s in
      if p =? 0 then s else
      let page := blit (page_bytes (phys s) p) 0 (take (Z.to_nat (PAGE_SIZE - 1)) a ++ [0]) in
      (user_vm_map_page root USER_ARGV_ADDR p STACK_FLAGS (s <| phys ::= fill_page p (fun i => rd64 page (8 * i)) |>)).1
  | _ => s
  end.

(** The fields set before the image is loaded, and those set at the end. *)
Definition create_pcb (root : Z) (p : process) : process :=
  p <| cr3 := root |> <| is_user := true |> <| mmap_next := MMAP_BASE |> <| epoll_fd_idx := -1 |>.

Definition entry_pcb (data size parent rsp argv_ptr argc : Z) (r : elf_load_result) (p : process) : process :=
  p <| user_program_data := data |> <| user_program_size := size |> <| ppid := parent |> <| user_entry_rsp := rsp |>
    <| user_entry_argv := argv_ptr |> <| user_entry_argc := argc |> <| brk_start := load_end r |> <| brk_current := load_end r |>.

(** The user side of process [i], once its image is loaded; -1 on errors, which
    leave the process terminated. *)
Definition create_enter (data size parent : Z) (argv : list (list Z)) (args : option (list Z)) (i : nat) (root : Z) (r : elf_load_result)
    (s : vm) : vm * Z :=
  let dead s := (s <| sc ::= set_state i PROCESS_TERMINATED |>, -1) in
  match alloc_stack USER_STACK_PAGES [] s with
  | (s, None) => dead s
  | (s, Some l) =>
      match elf_setup_stack (stack_phys l) (USER_STACK_TOP - PAGE_SIZE) (Some <$> argv) (Some r) s with
      | (s, None) => dead s
      | (s, Some (rsp, argv_ptr)) =>
          match map_stack root l s with
          | (s, false) => dead s
          | (s, true) =>
              let s := legacy_args root args s in
              (s <| sc ::= set_proc i (entry_pcb data size parent rsp argv_ptr (Z.of_nat (length argv)) r) |> <| sc ::= scheduler_add i |>, 0)
          end
      end
  end.

(** [tramp] is the address of [user_trampoline]. *)
Definition user_process_create_args (tramp : Z) (nm : list Z) (data size parent : Z) (args : option (list Z)) (w : world) : answer (world * Z) :=
  if elf_validate (w_kmem w) data size <? 0 then Answer (w, -1) else
  let '(s, root) := user_vm_create_address_space (mm (w_k w)) in
  let w := on_mm (fun _ => s) w in
  if root =? 0 then Answer (w, -1) else
  let '(k, proc) := process_create nm tramp (w_k w) in
  let w := w <| w_k := k |> in
  match proc with
  | None => Answer (w, -1)
  | Some i =>
      let w := w <| w_k ::= on_proc i (create_pcb root) |> in
      '(l, r) ← elf_load (w_fs w) root data size 0 (Some i) (mk_loader (mm (w_k w)) (heap (w_k w)) (w_kmem w));
      let w := w <| w_k ::= fun k => k <| mm := l_mm l |> <| heap := l_heap l |> |> <| w_kmem := l_mem l |> in
      match r with
      | None => Answer (w <| w_k ::= on_sched (set_state i PROCESS_TERMINATED) |>, -1)
      | Some r =>
          let '(s, res) := create_enter data size parent (create_argv nm args) args i root r (mm (w_k w)) in
          Answer (on_mm (fun _ => s) w, res)
      end
  end.

Definition user_process_create (tramp : Z) (nm : list Z) (data size parent : Z) : world -> answer (world * Z) :=
  user_process_create_args tramp nm data size parent None.

(** The first steps of a new process: its space becomes that of the processor;
    the result is the instruction and the stack pointer, argc and argv. *)
Definition user_trampoline (c : nat) (w : world) : world * (Z * Z * Z * Z) :=
  let p := wproc w c in
  (w <| w_k ::= on_sched (fun z => z <| cpu_cr3 := cr3 p |>) |>,
   (e_entry (ehdr_at (w_kmem w) (user_program_data p)), user_entry_rsp p, user_entry_argc p, user_entry_argv p)).

(** ** New address spaces *)

(** A new space has no user tables but its root, maps nothing, and leaves every
    page that was in use alone. *)
Lemma create_words s f p : taken (frames s) f p -> let s1 := zero_page p (s <| frames := f |>) in forall b,
  let s' := for_loop 256 256 (fun i s => st (p + 8 * Z.of_nat i) (ld s (b + 8 * Z.of_nat i)) s) s1 in
  frames s' = f /\ sc s' = sc s /\ (forall a, a / 4096 <> p / 4096 -> ldq (phys s') a = ldq (phys s) a) /\
  forall i, 0 <= i < 256 -> ldq (phys s') (p + 8 * i) = 0.
Proof.
  intros T s1 b s'. pose proof (tk_align _ _ _ T) as Ha.
  pose proof (for_loop_inv (fun _ z => frames z = f /\ sc z = sc s /\ (forall a, a / 4096 <> p / 4096 -> ldq (phys z) a = ldq (phys s) a) /\
    forall i, 0 <= i < 256 -> ldq (phys z) (p + 8 * i) = 0) 256 256 (fun i s => st (p + 8 * Z.of_nat i) (ld s (b + 8 * Z.of_nat i)) s) s1) as L.
  apply L; clear L.
  - unfold s1, zero_page. split_and!; [done|done| |]; intros; [by apply fill_outside|apply fill_inside; [done|lia]].
  - intros k z Hk (A1 & A2 & A3 & A4). split_and!; [done|done| |]; unfold st; cbn [phys upd].
    + intros a Hne. rewrite ldq_insert, decide_False; [by apply A3|]. intros <-. apply Hne, words_in_page; [done|lia].
    + intros i Hi. rewrite ldq_insert, decide_False by lia. by apply A4.
Qed.

Lemma bare_tables m root l t : (forall i, 0 <= i < 256 -> ldq m (root + 8 * i) = 0) ->
  user_path l -> table_at m root l = Some t -> l = [] /\ t = root.
Proof.
  intros Hz (F & _ & Hl) E. destruct l as [|i l]; [by injection E|]. exfalso. apply Forall_cons in F as [Hi _].
  unfold table_at in E. cbn [foldl] in E. change (Some root ≫= (fun t => step m t i)) with (step m root i) in E.
  unfold step in E at 2. rewrite Hz in E by lia. cbn in E. by rewrite foldl_none in E.
Qed.

Lemma create_space_spec s n : quiet s n -> 1 <= n ->
  exists s' root, user_vm_create_address_space s = (s', root) /\ taken (frames s) (frames s') root /\ quiet s' (n - 1) /\
    space_wf s' root /\ sc s' = sc s /\ (forall v, user_addr v -> pte_val s' root v = 0) /\
    (forall a, a / 4096 <> root / 4096 -> ldq (phys s') a = ldq (phys s) a) /\
    (forall j, 0 <= j -> Pmm.used (frames s) j = true -> data_page s' root j).
Proof.
  intros Hq Hn. destruct (alloc_zeroed_quiet s n Hq Hn) as (f & p & E & T). unfold user_vm_create_address_space. rewrite E.
  pose proof (tk_pos _ _ _ T). replace (p =? 0) with false by lia. set (s1 := zero_page p _). set (b := get_pml4 s1). set (s' := for_loop 256 256 _ s1).
  destruct (create_words s f p T b) as (F & C & O & Z0). fold s1 in F, C, O, Z0. fold s' in F, C, O, Z0.
  pose proof (bare_tables (phys s') p) as B. pose proof (tk_align _ _ _ T) as Ha.
  assert (Pmm.used f (p / 4096) = true) as Hu by (rewrite (tk_used _ _ _ T) by zsolve; by rewrite bool_decide_true).
  assert (space_wf s' p) as W.
  { constructor.
    - intros l t Hl Ht. destruct (B l t Z0 Hl Ht) as [-> ->]. rewrite F, (tk_total _ _ _ T). split_and!; [done|done|by apply T|done].
    - intros l l' t Hl Hl' Ht Ht'. destruct (B l t Z0 Hl Ht) as [-> _], (B l' t Z0 Hl' Ht') as [-> _]. done.
    - intros l t i Hl Ht Hne. destruct (user_path_snoc _ _ Hl) as [Hl' _]. by destruct (B l t Z0 Hl' Ht) as [-> _]. }
  exists s', p. split_and!; [done|by rewrite F| |done|done| |done|].
  - destruct Hq as [_ Hq]. split; [rewrite F; apply T|]. rewrite F, (tk_count _ _ _ T). lia.
  - intros v Hv. rewrite pte_val_table by done. destruct (table_at (phys s') p (path_of v)) as [t|] eqn:Et; [|done].
    by destruct (B _ t Z0 (user_path_of v Hv) Et) as [? _].
  - intros j Hj Huj. split_and!; [done|rewrite F, (tk_used _ _ _ T), Huj by done; apply orb_true_r|].
    intros l t Hl Ht E'. destruct (B l t Z0 Hl Ht) as [_ ->]. pose proof (tk_free _ _ _ T). congruence.
Qed.

(** ** The stack pages *)

(** A fresh page of zeros for the space [root], seen from [s] in [s']. *)
Record fresh_page (root : Z) (s s' : vm) (p : Z) : Prop := mk_fresh_page {
  fp_range : 0 < p < 2 ^ 52;
  fp_align : p mod 4096 = 0;
  fp_unused : Pmm.used (frames s) (p / 4096) = false;
  fp_data : data_page s' root (p / 4096);
  fp_zero : forall a, a / 4096 = p / 4096 -> (a - p) mod 8 = 0 -> ldq (phys s') a = 0
}.

Lemma fresh_page_kept root s0 s s' p : keeps_data s s' root -> fresh_page root s0 s p -> fresh_page root s0 s' p.
Proof. intros K [F1 F2 F3 F4 F5]. destruct (K _ F4) as [D W]. constructor; [done..|]. intros a Ha Hm. rewrite W by done. by apply F5. Qed.

Lemma zeroed_page_spec s root n : space_wf s root -> quiet s n -> 1 <= n ->
  exists p s', (let '(s1, p) := pmm_alloc_page s in (zero_page p s1, p)) = (s', p) /\ pmm_alloc_page s = ((pmm_alloc_page s).1, p) /\
    fresh_page root s s' p /\ space_wf s' root /\ quiet s' (n - 1) /\ keeps_data s s' root /\ sc s' = sc s /\
    (forall v, user_addr v -> pte_val s' root v = pte_val s root v) /\
    (forall j, 0 <= j -> Pmm.used (frames s) j = true -> Pmm.used (frames s') j = true).
Proof.
  intros Hw Hq Hn. destruct (alloc_quiet s n Hq Hn) as (f & p & E & T). rewrite E. exists p, (zero_page p (s <| frames := f |>)).
  destruct (fresh_fill s root f p (fun _ => 0) Hw T) as (W & K & Tb & V & D). destruct Hq as [Hs Hq]. split_and!; [done|done| |done| |done|done|done|].
  - constructor; [|apply T|apply T| |].
    + split; [apply T|]. destruct Hs as (Wf & _). pose proof (Pmm.wf_total _ Wf). pose proof (tk_bound _ _ _ T). pose proof (tk_pos _ _ _ T). zsolve.
    + pose proof (tk_pos _ _ _ T). split_and!; [zsolve|unfold zero_page; cbn; rewrite (tk_used _ _ _ T) by zsolve; by rewrite bool_decide_true|].
      intros l t Hl. unfold zero_page. rewrite Tb by done. by apply D.
    + intros a Ha Hm. pose proof (tk_align _ _ _ T). unfold zero_page. cbn [phys upd]. rewrite ldq_fill_page, decide_True; [done|]. split; [zsolve|done].
  - split; [apply T|]. unfold zero_page. cbn. rewrite (tk_count _ _ _ T). lia.
  - intros j Hj Hu. unfold zero_page. cbn. rewrite (tk_used _ _ _ T), Hu by done. apply orb_true_r.
Qed.

Lemma fresh_used root s s' p : fresh_page root s s' p -> Pmm.used (frames s') (p / 4096) = true.
Proof. intros F. apply (fp_data _ _ _ _ F). Qed.

(** All pages are found: [n] fresh pages, no two of them the same. *)
Lemma alloc_stack_spec root n : forall l s m, space_wf s root -> quiet s m -> Z.of_nat n <= m ->
  exists s' l', alloc_stack n l s = (s', Some (l ++ l')) /\ length l' = n /\ space_wf s' root /\ quiet s' (m - Z.of_nat n) /\
    keeps_data s s' root /\ sc s' = sc s /\ (forall v, user_addr v -> pte_val s' root v = pte_val s root v) /\
    Forall (fresh_page root s s') l' /\ NoDup ((fun p => p / 4096) <$> l') /\
    (forall j, 0 <= j -> Pmm.used (frames s) j = true -> Pmm.used (frames s') j = true).
Proof.
  induction n as [|n IH]; intros l s m Hw Hq Hn.
  { exists s, []. rewrite app_nil_r. split_and!; try done; [by rewrite Z.sub_0_r|constructor]. }
  destruct (zeroed_page_spec s root m Hw Hq ltac:(lia)) as (p & s1 & E & Ep & Fp & W1 & Q1 & K1 & C1 & V1 & U1).
  cbn [alloc_stack]. rewrite Ep in E |- *. pose proof (fp_range _ _ _ _ Fp). replace (p =? 0) with false by lia. injection E as ->.
  destruct (IH (l ++ [p]) s1 (m - 1) W1 Q1 ltac:(lia)) as (s2 & l2 & E2 & L2 & W2 & Q2 & K2 & C2 & V2 & F2 & N2 & U2).
  exists s2, (p :: l2). rewrite E2, <- app_assoc. split_and!; [done|by cbn; lia|done|by replace (m - Z.of_nat (Datatypes.S n)) with (m - 1 - Z.of_nat n) by lia|by eapply keeps_data_trans|congruence| | | |].
  - intros v Hv. by rewrite V2, V1.
  - constructor; [by eapply fresh_page_kept|]. eapply Forall_impl; [exact F2|]. intros q [G1 G2 G3 G4 G5]. constructor; [done..| |done|done].
    destruct (Pmm.used (frames s) (q / 4096)) eqn:Eu; [|done]. rewrite U1 in G3; [done|zsolve|done].
  - cbn. constructor; [|done]. intros Hin. apply list_elem_of_fmap in Hin as (q & Eq & Hq'). rewrite Forall_forall in F2. pose proof (fp_unused _ _ _ _ (F2 q Hq')) as Hu.
    rewrite <- Eq in Hu. rewrite (fresh_used _ _ _ _ Fp) in Hu. done.
  - intros j Hj Hu. by apply U2, U1.
Qed.

Definition stack_entry (p : Z) : Z := Z.lor (Z.lor (Z.land p PTE_ADDR_MASK) STACK_FLAGS) PTE_PRESENT.

(** The page of the stack that holds the address [x]. *)
Definition stack_index (x : Z) : nat := Z.to_nat ((x - USER_STACK_BOTTOM) / 4096).

Definition in_stack (x : Z) : Prop := USER_STACK_BOTTOM <= x < USER_STACK_TOP.

Lemma stack_bottom : USER_STACK_BOTTOM = 0x7FFFC0000.
Proof. done. Qed.

Lemma for_while_ext {A} n (f g : nat -> A -> A * bool) : forall i s,
  (forall k s, (i <= k < i + n)%nat -> f k s = g k s) -> for_while n i f s = for_while n i g s.
Proof.
  induction n as [|n IH]; intros i s Hfg; [done|]. cbn [for_while]. rewrite Hfg by lia. destruct (g i s) as [s' []]; [|done]. apply IH. intros. apply Hfg. lia.
Qed.

Lemma map_stack_spec root l s n : space_wf s root -> length l = USER_STACK_PAGES -> quiet s n -> 256 <= n ->
  exists s', map_stack root l s = (s', true) /\ space_wf s' root /\ quiet s' (n - 256) /\ keeps_data s s' root /\ sc s' = sc s /\
    (forall x, in_stack x -> pte_val s' root x = stack_entry (l !!! stack_index x)) /\
    (forall x, user_addr x -> ~ in_stack x -> pte_val s' root x = pte_val s root x).
Proof.
  intros Hw Hl Hq Hn. set (step := fun pg s => let '(s, r) := user_vm_map_page root pg (l !!! stack_index pg) STACK_FLAGS s in (s, negb (r <? 0))).
  destruct (map_loop_spec root step (fun s x => pte_val s root x = stack_entry (l !!! stack_index x)) (length l) 0 USER_STACK_BOTTOM s n) as (s' & E & W & Q & K & C & Z0 & V);
    [|  |done|done|done|rewrite Hl; done|done|rewrite Hl; exact Hn|].
  - intros z z' x Hz _ Ep. congruence.
  - intros i Hi z m Hz Hm Hm4. rewrite Hl in Hi. unfold USER_STACK_PAGES in Hi. set (pg := USER_STACK_BOTTOM + 4096 * Z.of_nat i). assert (user_addr pg) as Hpg by (unfold user_addr, pg; rewrite stack_bottom; lia).
    pose proof (map_page_spec z root pg (l !!! stack_index pg) STACK_FLAGS m Hz Hpg Hm ltac:(lia)) as M. unfold step.
    destruct (user_vm_map_page _ _ _ _ _) as [z' r]. destruct M as (-> & W1 & Q1 & K1 & _ & _ & C1 & V1). exists z'.
    split_and!; [done|done|destruct Q1; split; [done|lia]|done|done| |].
    + intros x Hx Ex. rewrite V1, decide_True by done. unfold stack_entry. do 3 f_equal. f_equal. unfold stack_index. f_equal. unfold pg in *. rewrite stack_bottom in *. zsolve.
    + intros x Hx Ex. by rewrite V1, decide_False.
  - change (USER_STACK_BOTTOM + 4096 * Z.of_nat 0) with USER_STACK_BOTTOM in *. rewrite Hl in *. exists s'. split_and!; [|done|exact Q|done|done|exact Z0|exact V].
    unfold map_stack. rewrite Hl, <- E. apply for_while_ext. intros i z Hi. unfold step. replace (stack_index (USER_STACK_BOTTOM + 4096 * Z.of_nat i)) with i; [done|]. unfold stack_index. zsolve.
Qed.

(** ** Destroying a space *)

(** The pages a space holds: its tables and the frames of its leaves. *)
Definition holds_page (s : vm) (root n : Z) : Prop :=
  (exists l t, user_path l /\ table_at (phys s) root l = Some t /\ n = t / 4096) \/
  (exists l t i, user_path l /\ length l = 3%nat /\ table_at (phys s) root l = Some t /\ 0 <= i < 512 /\
     has (ldq (phys s) (t + 8 * i)) PTE_PRESENT = true /\ n = Z.land (ldq (phys s) (t + 8 * i)) PTE_ADDR_MASK / 4096).

(** [s'] is [s] after giving pages of [P] back. *)
Record released (P : Z -> Prop) (s s' : vm) : Prop := mk_released {
  rl_phys : phys s' = phys s;
  rl_sc : sc s' = sc s;
  rl_safe : Pmm.safe (frames s');
  rl_total : Pmm.total_pages (frames s') = Pmm.total_pages (frames s);
  rl_free : Pmm.free_pages (frames s) <= Pmm.free_pages (frames s');
  rl_used : forall j, 0 <= j -> ~ P j -> Pmm.used (frames s') j = Pmm.used (frames s) j
}.

Lemma released_refl P s : Pmm.safe (frames s) -> released P s s.
Proof. by constructor. Qed.

Lemma released_trans P s1 s2 s3 : released P s1 s2 -> released P s2 s3 -> released P s1 s3.
Proof. intros [A1 A2 A3 A4 A5 A6] [B1 B2 B3 B4 B5 B6]. constructor; [congruence..|lia|]. intros j Hj Hn. by rewrite B6, A6. Qed.

Lemma free_page_counts f a : Pmm.wf f -> 0 <= a ->
  Pmm.total_pages (Pmm.pmm_free_page a f) = Pmm.total_pages f /\ Pmm.free_pages f <= Pmm.free_pages (Pmm.pmm_free_page a f) /\
  Pmm.total_pages (Pmm.pmm_page_unref a f) = Pmm.total_pages f /\ Pmm.free_pages f <= Pmm.free_pages (Pmm.pmm_page_unref a f).
Proof.
  intros W Ha. pose proof (Pmm.wf_total _ W). pose proof (Pmm.count_free_bounds (Pmm.bitmap f) (Pmm.total_pages f) ltac:(lia)) as B. rewrite <- (Pmm.wf_free _ W) in B.
  unfold Pmm.pmm_free_page, Pmm.pmm_page_unref. repeat case_if; cbn; rewrite ?u64_small by lia; lia.
Qed.

Lemma released_free P s a : Pmm.safe (frames s) -> 0 <= a -> P (a / 4096) -> released P s (s <| frames ::= Pmm.pmm_free_page a |>).
Proof.
  intros Hs Ha HP. pose proof Hs as (W & _). destruct (free_page_counts (frames s) a W Ha) as (T & F & _).
  constructor; [done|done|by apply (Pmm.safe_step (Pmm.OpFree a))|done|done|].
  intros j Hj Hn. cbn. destruct (Pmm.used_free_page (frames s) a j W Ha Hj) as [E|(-> & _)]; done.
Qed.

Lemma released_unref P s a : Pmm.safe (frames s) -> 0 <= a -> P (a / 4096) -> released P s ((rmap_clear a s) <| frames ::= Pmm.pmm_page_unref a |>).
Proof.
  intros Hs Ha HP. pose proof Hs as (W & _). destruct (free_page_counts (frames s) a W Ha) as (_ & _ & T & F).
  assert (phys (rmap_clear a s) = phys s /\ sc (rmap_clear a s) = sc s /\ frames (rmap_clear a s) = frames s) as (R1 & R2 & R3) by (unfold rmap_clear; by case_if).
  constructor; cbn; rewrite ?R1, ?R2, ?R3; [done|done|by apply (Pmm.safe_step (Pmm.OpUnref a))|done|done|].
  intros j Hj Hn. destruct (Pmm.used_page_unref (frames s) a j W Ha Hj) as [E|(-> & _)]; done.
Qed.

Lemma released_loop P n i body s0 s : released P s0 s ->
  (forall k z, (i <= k < i + n)%nat -> released P s0 z -> released P z (body k z)) -> released P s0 (for_loop n i body s).
Proof.
  intros H0 Hb. apply (for_loop_inv (fun _ z => released P s0 z)); [done|]. intros k z Hk Hz. by eapply released_trans; [|apply Hb].
Qed.

Section destroy.
Context (s0 : vm) (root : Z) (Hroot : 0 <= root).
Let P := holds_page s0 root.

Lemma destroy_leaf_released l t i z : user_path l -> length l = 3%nat -> table_at (phys s0) root l = Some t -> (i < 512)%nat ->
  released P s0 z -> released P z (destroy_leaf t i z).
Proof.
  intros Hl H3 Ht Hi R. unfold destroy_leaf, ld. rewrite (rl_phys _ _ _ R). destruct (has _ PTE_PRESENT) eqn:E; [|apply released_refl, R]. cbn [negb].
  destruct (mask_range (ldq (phys s0) (t + 8 * Z.of_nat i))) as [M _]. apply released_unref; [apply R|lia|]. right. exists l, t, (Z.of_nat i). split_and!; (done || lia).
Qed.

(** What freeing a table below [l] gives back. *)
Lemma destroy_table l t (body : nat -> vm -> vm) z : user_path l -> table_at (phys s0) root l = Some t -> 0 <= t ->
  (forall i z, (i < 512)%nat -> released P s0 z -> released P z (body i z)) -> released P s0 z ->
  released P z ((for_loop 512 0 body z) <| frames ::= Pmm.pmm_free_page t |>).
Proof.
  intros Hl Ht H0 Hb R. assert (released P z (for_loop 512 0 body z)) as R1.
  { apply released_loop; [apply released_refl, R|]. intros k y Hk Hy. apply Hb; [lia|]. by eapply released_trans. }
  eapply released_trans; [exact R1|]. apply released_free; [apply R1|done|]. left. by exists l, t.
Qed.

(** The entry [i] of the table at [l] leads one level down. *)
Lemma lower_table l t i z : user_path l -> (length l < 3)%nat -> table_at (phys s0) root l = Some t -> 0 <= i < 512 -> (l = [] -> i < 256) ->
  released P s0 z -> has (ld z (t + 8 * i)) PTE_PRESENT = true ->
  user_path (l ++ [i]) /\ table_at (phys s0) root (l ++ [i]) = Some (Z.land (ld z (t + 8 * i)) PTE_ADDR_MASK) /\ 0 <= Z.land (ld z (t + 8 * i)) PTE_ADDR_MASK.
Proof.
  intros (F & L & U) H3 Ht Hi H0 R E. unfold ld in *. rewrite (rl_phys _ _ _ R) in E |- *. split_and!.
  - split_and!; [by apply Forall_app_2; [|constructor]|rewrite length_app; cbn; lia|destruct l; [by apply H0|done]].
  - rewrite table_at_snoc, Ht. cbn. unfold step. by rewrite E.
  - apply mask_range.
Qed.

Lemma destroy_pt_released l t z : user_path l -> length l = 3%nat -> table_at (phys s0) root l = Some t -> 0 <= t -> released P s0 z -> released P z (destroy_pt t z).
Proof. intros Hl H3 Ht H0 R. apply (destroy_table l); [done..| |done]. intros i y Hi Hy. by apply (destroy_leaf_released l). Qed.

Lemma destroy_pd_released l t z : user_path l -> length l = 2%nat -> table_at (phys s0) root l = Some t -> 0 <= t -> released P s0 z -> released P z (destroy_pd t z).
Proof.
  intros Hl H2 Ht H0 R. apply (destroy_table l); [done..| |done]. intros i y Hi Hy. cbv beta zeta. destruct (has (ld y (t + 8 * Z.of_nat i)) PTE_PRESENT) eqn:E; cbn [negb orb]; [|apply released_refl, Hy].
  case_if; [apply released_refl, Hy|]. destruct (lower_table l t (Z.of_nat i) y Hl ltac:(lia) Ht ltac:(lia) ltac:(by intros ->) Hy E) as (A & B & C).
  apply (destroy_pt_released (l ++ [Z.of_nat i])); [done|rewrite length_app; cbn; lia|done|done|done].
Qed.

Lemma destroy_pdpt_released l t z : user_path l -> length l = 1%nat -> table_at (phys s0) root l = Some t -> 0 <= t -> released P s0 z -> released P z (destroy_pdpt t z).
Proof.
  intros Hl H1 Ht H0 R. apply (destroy_table l); [done..| |done]. intros i y Hi Hy. cbv beta zeta. destruct (has (ld y (t + 8 * Z.of_nat i)) PTE_PRESENT) eqn:E; cbn [negb orb]; [|apply released_refl, Hy].
  case_if; [apply released_refl, Hy|]. destruct (lower_table l t (Z.of_nat i) y Hl ltac:(lia) Ht ltac:(lia) ltac:(by intros ->) Hy E) as (A & B & C).
  apply (destroy_pd_released (l ++ [Z.of_nat i])); [done|rewrite length_app; cbn; lia|done|done|done].
Qed.

(** Destroying a space gives back pages of the space only, and writes nothing. *)
Lemma destroy_space_released : Pmm.safe (frames s0) -> released P s0 (user_vm_destroy_address_space root s0).
Proof.
  intros Hs. assert (user_path []) as H0 by (split_and!; [constructor|cbn; lia|done]). unfold user_vm_destroy_address_space. set (s1 := for_loop 256 0 _ s0).
  assert (released P s0 s1) as R1.
  { apply released_loop; [by apply released_refl|]. intros i y Hi Hy. cbv beta zeta. destruct (has (ld y (root + 8 * Z.of_nat i)) PTE_PRESENT) eqn:E; cbn [negb]; [|apply released_refl, Hy].
    destruct (lower_table [] root (Z.of_nat i) y H0 ltac:(cbn; lia) eq_refl ltac:(lia) ltac:(lia) Hy E) as (A & B & C).
    by apply (destroy_pdpt_released [Z.of_nat i]). }
  eapply released_trans; [exact R1|]. apply released_free; [apply R1|done|]. left. by exists [], root.
Qed.

End destroy.

(** A space that shares no table with the pages given back stays as it is. *)
Lemma released_space P s s' root : released P s s' -> space_wf s root ->
  (forall l t, user_path l -> table_at (phys s) root l = Some t -> ~ P (t / 4096)) ->
  space_wf s' root /\ (forall v, pte_val s' root v = pte_val s root v) /\ forall n, quiet s n -> quiet s' n.
Proof.
  intros R Hw Hd. split_and!.
  - constructor; rewrite ?(rl_phys _ _ _ R), ?(rl_total _ _ _ R); [|apply Hw..]. intros l t Hl Ht. destruct (sw_table _ _ Hw l t Hl Ht) as (A1 & A2 & A3 & A4).
    split_and!; [done..|]. rewrite (rl_used _ _ _ R); [done|zsolve|by apply (Hd l)].
  - intros v. unfold pte_val, user_vm_get_pte, ld. by rewrite (rl_phys _ _ _ R).
  - intros n [_ Hq]. split; [apply R|]. pose proof (rl_free _ _ _ R). lia.
Qed.

(** ** Writing to a page of the program *)

Lemma page_byte_stored m p page o : p mod 4096 = 0 -> Forall is_byte page -> 0 <= o < 4096 ->
  page_byte (fill_page p (fun i => rd64 page (8 * i)) m) p o = zget page o.
Proof.
  intros Hp Hb Ho. unfold page_byte. rewrite fill_inside by (done || zsolve).
  replace (rd64 page (8 * (o / 8))) with (le_word (zget page) (o / 8)); [apply le_word_byte; [|lia]|].
  - intros k. unfold zget. rewrite list_lookup_total_alt. destruct (page !! Z.to_nat k) as [b|] eqn:E; [|cbn; lia]. by apply (Forall_lookup_1 _ _ _ _ Hb E).
  - unfold le_word, rd64. change (seqZ 0 8) with [0; 1; 2; 3; 4; 5; 6; 7]. cbn [foldr rd_le]. do 8 (apply f_equal2; [apply f_equal; lia|apply (f_equal (Z.mul 256))]). done.
Qed.

(** Writing to a page that is no table keeps the space. *)
Lemma data_write s s' root p : space_wf s root -> data_page s root (p / 4096) -> frames s' = frames s ->
  (forall a, a / 4096 <> p / 4096 -> ldq (phys s') a = ldq (phys s) a) ->
  space_wf s' root /\ (forall l, user_path l -> table_at (phys s') root l = table_at (phys s) root l) /\
  (forall v, user_addr v -> pte_val s' root v = pte_val s root v).
Proof.
  intros Hw (_ & _ & Hd) Hf Hph.
  assert (forall l t j, user_path l -> table_at (phys s) root l = Some t -> 0 <= j < 512 -> ldq (phys s') (t + 8 * j) = ldq (phys s) (t + 8 * j)) as Hold.
  { intros l t j Hl Ht Hj. apply Hph. destruct (sw_table _ _ Hw l t Hl Ht) as (A & _). rewrite words_in_page by done. by apply (Hd l). }
  assert (forall l, user_path l -> table_at (phys s') root l = table_at (phys s) root l) as Htab.
  { intros l Hl. apply table_at_same; [|done]. intros l0 t0 j H0 T0. destruct (user_path_snoc _ _ H0) as [H0' Hj]. unfold step. by rewrite (Hold l0). }
  assert (space_wf s' root) as Hw'.
  { constructor; rewrite ?Hf.
    - intros l t Hl. rewrite Htab by done. by apply Hw.
    - intros l l' t Hl Hl'. rewrite !Htab by done. by apply Hw.
    - intros l t j Hl. destruct (user_path_snoc _ _ Hl) as [Hl' Hj]. rewrite Htab by done. intros Ht. rewrite (Hold l) by done. by apply Hw. }
  split_and!; [done|done|]. intros v Hv. rewrite !pte_val_table, Htab by (done || by apply user_path_of).
  destruct (table_at (phys s) root (path_of v)) as [t|] eqn:E; [|done]. destruct (index_range v) as (_ & _ & _ & Hr). apply (Hold (path_of v)); [by apply user_path_of|done|done].
Qed.

(** A space whose tables did not change holds the same pages. *)
Lemma holds_page_same s s' root n : space_wf s root ->
  (forall l t a, user_path l -> table_at (phys s) root l = Some t -> a / 4096 = t / 4096 -> ldq (phys s') a = ldq (phys s) a) ->
  holds_page s' root n -> holds_page s root n.
Proof.
  intros Hw Hsame. assert (forall l t j, user_path l -> table_at (phys s) root l = Some t -> 0 <= j < 512 -> ldq (phys s') (t + 8 * j) = ldq (phys s) (t + 8 * j)) as Hold.
  { intros l t j Hl Ht Hj. apply (Hsame l t); [done..|]. destruct (sw_table _ _ Hw l t Hl Ht) as (A & _). by apply words_in_page. }
  assert (forall l, user_path l -> table_at (phys s') root l = table_at (phys s) root l) as Htab.
  { intros l Hl. apply table_at_same; [|done]. intros l0 t0 j H0 T0. destruct (user_path_snoc _ _ H0) as [H0' Hj]. unfold step. by rewrite (Hold l0). }
  intros [(l & t & Hl & Ht & ->)|(l & t & i & Hl & H3 & Ht & Hi & Hp & ->)]; rewrite Htab in Ht by done.
  - left. by exists l, t.
  - right. rewrite (Hold l) in Hp |- * by done. by exists l, t, i.
Qed.

(** ** Entering the new image *)

(** The stack as the program sees it. *)
Definition program_stack (s : vm) (root start : Z) (argv : list (list Z)) (r : elf_load_result) : Prop :=
  exists page, length page = 4096%nat /\ abi_stack page (USER_STACK_TOP - PAGE_SIZE) start (take ELF_MAX_ARGS (Some <$> argv)) (auxv r) /\
    forall x, in_stack x -> has (pte_val s root x) PTE_WRITABLE = true /\
      user_byte s root x = Some (if USER_STACK_TOP - PAGE_SIZE <=? x then zget page (x - (USER_STACK_TOP - PAGE_SIZE)) else 0).

(** The arguments fit in the top page of the stack. *)
Definition args_fit (argv : list (list Z)) (r : elf_load_result) : Prop :=
  let args := take ELF_MAX_ARGS (Some <$> argv) in
  Forall (fun a => Forall is_byte (arg_text a)) args /\ strings_size args + block_bytes (length args) (Some r) <= 4096.

(** The space a process leaves: none, or one whose pages are its own. *)
Definition leaves_space (s : vm) (root old : Z) : Prop :=
  old = 0 \/ 0 <= old /\ space_wf s old /\ forall j, holds_page s old j -> data_page s root j \/ 131072 <= j.

Definition entered (c : nat) (root : Z) (g : process -> process) (z : sched) : sched :=
  (set_proc c (fun p => g (p <| cr3 := root |>)) z) <| cpu_cr3 := root |>.

Lemma stack_entry_spec p : 0 <= p < 2 ^ 52 -> p mod 4096 = 0 ->
  Z.land (stack_entry p) PTE_ADDR_MASK = p /\ has (stack_entry p) PTE_PRESENT = true /\ has (stack_entry p) PTE_WRITABLE = true.
Proof. intros Hp Hm. destruct (flagged_entry p STACK_FLAGS Hp Hm eq_refl) as (A & B & C & _). fold (stack_entry p) in A, B, C. by rewrite A, B, C. Qed.

(** The bytes of the stack: the page set up at the top, zeros below it. *)
Lemma stack_byte root s s2 l page x : length l = USER_STACK_PAGES -> (forall i, (i < 64)%nat -> fresh_page root s s2 (l !!! i)) ->
  NoDup ((fun p => p / 4096) <$> l) -> Forall is_byte page -> in_stack x ->
  page_byte (fill_page (l !!! 63%nat) (fun i => rd64 page (8 * i)) (phys s2)) (l !!! stack_index x) (x mod 4096)
  = if USER_STACK_TOP - PAGE_SIZE <=? x then zget page (x - (USER_STACK_TOP - PAGE_SIZE)) else 0.
Proof.
  intros Hl F N Hb Hx. unfold in_stack, USER_STACK_TOP, PAGE_SIZE in *. rewrite stack_bottom in Hx. assert (stack_index x < 64)%nat as Hi by (unfold stack_index; rewrite stack_bottom; zsolve).
  pose proof (F 63%nat ltac:(lia)) as Fp. pose proof (F _ Hi) as Fx. case_if.
  - replace (stack_index x) with 63%nat by (unfold stack_index; rewrite stack_bottom; zsolve). rewrite page_byte_stored by (apply Fp || done || zsolve). f_equal. zsolve.
  - set (i := stack_index x) in *. assert (i <> 63%nat) as Hne by (unfold i, stack_index; rewrite stack_bottom; zsolve).
    assert (forall k, (k < 64)%nat -> ((fun p => p / 4096) <$> l) !! k = Some (l !!! k / 4096)) as Lk by (intros k Hk; by rewrite list_lookup_fmap, list_lookup_lookup_total_lt by (rewrite Hl; exact Hk)).
    assert (l !!! i / 4096 <> l !!! 63%nat / 4096) as Hd. { intros E. apply Hne. eapply (NoDup_lookup _ i 63%nat _ N); [by apply Lk|]. rewrite E. apply Lk. lia. }
    rewrite (page_byte_ext _ (phys s2)); [|apply Fx|zsolve|]; [|intros a Ea; apply fill_outside; [apply Fp|congruence]].
    unfold page_byte. rewrite (fp_zero _ _ _ _ Fx); [by rewrite Z.div_0_l by (apply Z.pow_nonzero; zsolve)|apply words_in_page; [apply Fx|zsolve]|zsolve].
Qed.

(** The stack pages, mapped and set up. *)
Lemma stack_built s root argv r n : space_wf s root -> quiet s n -> 320 <= n -> args_fit argv r ->
  exists s1 l s2 s3 start, alloc_stack USER_STACK_PAGES [] s = (s1, Some l) /\ map_stack root l s1 = (s2, true) /\
    elf_setup_stack (stack_phys l) (USER_STACK_TOP - PAGE_SIZE) (Some <$> argv) (Some r) s2
      = (s3, Some (u64 (USER_STACK_TOP - PAGE_SIZE + start), u64 (USER_STACK_TOP - PAGE_SIZE + start + 8))) /\
    space_wf s3 root /\ quiet s3 (n - 320) /\ sc s3 = sc s /\ 0 <= start /\ start mod 16 = 0 /\ program_stack s3 root start argv r /\
    (forall x, user_addr x -> ~ in_stack x -> pte_val s3 root x = pte_val s root x) /\
    (forall j a, data_page s root j -> a / 4096 = j -> ldq (phys s3) a = ldq (phys s) a) /\
    (forall j, data_page s root j -> data_page s3 root j).
Proof.
  intros Hw Hq Hn [Ha Hfit]. destruct (alloc_stack_spec root USER_STACK_PAGES [] s n Hw Hq ltac:(unfold USER_STACK_PAGES; lia)) as (s1 & l & E1 & L1 & W1 & Q1 & K1 & C1 & V1 & F1 & N1 & _).
  destruct (map_stack_spec root l s1 _ W1 L1 Q1 ltac:(unfold USER_STACK_PAGES; lia)) as (s2 & E2 & W2 & Q2 & K2 & C2 & P2 & V2).
  assert (forall i, (i < 64)%nat -> fresh_page root s s2 (l !!! i)) as F2.
  { intros i Hi. eapply fresh_page_kept; [exact K2|]. eapply Forall_lookup_1; [exact F1|]. apply list_lookup_lookup_total_lt. rewrite L1. exact Hi. }
  assert (stack_phys l = l !!! 63%nat) as Ep by (unfold stack_phys; rewrite last_lookup, L1; cbn [Nat.pred USER_STACK_PAGES]; by rewrite (list_lookup_lookup_total_lt l 63) by (rewrite L1; unfold USER_STACK_PAGES; lia)).
  set (p := l !!! 63%nat) in *. destruct (F2 63%nat ltac:(lia)) as [Pr Pa Pu Pd _].
  destruct (setup_stack_abi p (USER_STACK_TOP - PAGE_SIZE) (Some <$> argv) (Some r) s2 Pa Ha Hfit) as (start & page & E3 & Hl & Hb & H0 & H16 & Abi).
  set (s3 := s2 <| phys ::= fill_page p (fun i => rd64 page (8 * i)) |>) in *.
  destruct (data_write s2 s3 root p W2 Pd eq_refl (fun a Hne => fill_outside p _ _ a Pa Hne)) as (W3 & T3 & V3).
  exists s1, l, s2, s3, start. rewrite Ep. split_and!; [done|done|done|done|by replace (n - 320) with (n - Z.of_nat USER_STACK_PAGES - 256) by (unfold USER_STACK_PAGES; lia)|by change (sc s3) with (sc s2); rewrite C2|done|done| | | |].
  - exists page. split_and!; [done|exact Abi|]. intros x Hx. assert (stack_index x < 64)%nat as Hi by (unfold stack_index, in_stack, USER_STACK_TOP in *; rewrite stack_bottom in *; zsolve).
    pose proof (F2 _ Hi) as Fx. destruct (stack_entry_spec (l !!! stack_index x)) as (A1 & A2 & A3); [pose proof (fp_range _ _ _ _ Fx); lia|apply Fx|].
    assert (user_addr x) as Hu by (unfold user_addr, in_stack, USER_STACK_TOP in *; rewrite stack_bottom in *; lia).
    unfold user_byte. rewrite V3, P2 by done. rewrite A1, A2, A3. split; [done|]. f_equal. by apply (stack_byte root s).
  - intros x Hx Hn'. by rewrite V3, V2, V1.
  - intros j a D Ea. pose proof (keeps_data_trans _ _ _ _ K1 K2 j D) as [D2 Wd]. rewrite <- Wd by done. apply fill_outside; [done|]. rewrite Ea. intros Ej. destruct D as (_ & D & _). rewrite Ej in D. change (Pmm.used (frames s) (l !!! 63%nat / 4096) = true) in D. by rewrite Pu in D.
  - intros j D. pose proof (keeps_data_trans _ _ _ _ K1 K2 j D) as [(D1 & D2 & D3) _]. split_and!; [done|done|]. intros l0 t0 Hl0. rewrite T3 by done. by apply D3.
Qed.

Lemma user_byte_same s s' root x : phys s' = phys s -> pte_val s' root x = pte_val s root x /\ user_byte s' root x = user_byte s root x.
Proof. intros E. unfold user_byte, pte_val, user_vm_get_pte, ld. by rewrite E. Qed.

Lemma program_stack_same s s' root start argv r : phys s' = phys s -> program_stack s root start argv r -> program_stack s' root start argv r.
Proof.
  intros E (page & A & B & D). exists page. split_and!; [done|done|]. intros x Hx. destruct (user_byte_same s s' root x E) as [-> ->]. by apply D.
Qed.

(** Leaving the old space does not touch the new one. *)
Lemma leave_space_spec s s4 root old n : space_wf s4 root -> quiet s4 n -> leaves_space s root old -> Pmm.safe (frames s) ->
  (forall j a, data_page s root j -> a / 4096 = j -> ldq (phys s4) a = ldq (phys s) a) -> (forall j, data_page s root j -> data_page s4 root j) ->
  phys (leave_space old s4) = phys s4 /\ sc (leave_space old s4) = sc s4 /\ space_wf (leave_space old s4) root /\ quiet (leave_space old s4) n.
Proof.
  intros Hw Hq Hold Hs Hwords Hdata. unfold leave_space. destruct (old =? 0) eqn:E0; b2p; [done|]. destruct Hold as [->|(Ho & Hwo & Hdis)]; [done|].
  assert (forall l u, user_path l -> table_at (phys s) old l = Some u -> data_page s root (u / 4096)) as Hold_data.
  { intros l u Hl Hu. destruct (Hdis (u / 4096)) as [?|Hbig]; [left; by exists l, u|done|]. destruct (sw_table _ _ Hwo l u Hl Hu) as (_ & _ & Hlt & _). destruct Hs as (Wf & _). pose proof (Pmm.wf_total _ Wf). lia. }
  assert (forall j, holds_page s4 old j -> holds_page s old j) as Hback.
  { intros j Hj. apply (holds_page_same s s4 old j Hwo); [|done]. intros l u a Hl Hu Ea. apply (Hwords (u / 4096)); [by apply (Hold_data l)|done]. }
  pose proof (destroy_space_released s4 old Ho (proj1 Hq)) as R. destruct (released_space _ _ _ root R Hw) as (W5 & V5 & Q5).
  - intros l u Hl Hu Hj. destruct (Hdis _ (Hback _ Hj)) as [D|Hbig].
    + destruct (Hdata _ D) as (_ & _ & D3). by apply (D3 l u).
    + destruct (sw_table _ _ Hw l u Hl Hu) as (_ & _ & Hlt & _). destruct Hq as ((Wf & _) & _). pose proof (Pmm.wf_total _ Wf). lia.
  - split_and!; [exact (rl_phys _ _ _ R)|exact (rl_sc _ _ _ R)|done|by apply Q5].
Qed.

Lemma switch_space_spec s s3 c root n : space_wf s3 root -> quiet s3 n -> sc s3 = sc s ->
  leaves_space s root (cr3 (proc_at (sc s) c)) -> Pmm.safe (frames s) ->
  (forall j a, data_page s root j -> a / 4096 = j -> ldq (phys s3) a = ldq (phys s) a) -> (forall j, data_page s root j -> data_page s3 root j) ->
  phys (switch_space c root s3) = phys s3 /\ space_wf (switch_space c root s3) root /\ quiet (switch_space c root s3) n /\
  sc (switch_space c root s3) = (set_proc c (fun p => p <| cr3 := root |>) (sc s3)) <| cpu_cr3 := root |>.
Proof.
  intros Hw Hq Esc Hold Hs Hwords Hdata. rewrite <- Esc in Hold. unfold switch_space. set (old := cr3 _) in *. cbv zeta.
  set (s4 := s3 <| sc ::= set_proc c (fun p => p <| cr3 := root |>) |> <| sc ::= fun z => z <| cpu_cr3 := kernel_cr3 z |> |>).
  destruct (space_same s3 s4 root eq_refl eq_refl) as (W4 & _ & D4 & Q4).
  destruct (leave_space_spec s s4 root old n (W4 Hw) (Q4 _ Hq) Hold Hs Hwords) as (P5 & C5 & W5 & Q5); [intros j Hj; by apply D4, Hdata|].
  set (s5 := leave_space old s4) in *. clearbody s5. match goal with |- phys ?y = _ /\ _ => destruct (space_same s5 y root eq_refl eq_refl) as (W6 & _ & _ & Q6) end.
  split_and!; [exact P5|by apply W6|by apply Q6|]. cbn. by rewrite C5.
Qed.

Lemma upd_proc_twice i f g l : upd_proc i g (upd_proc i f l) = upd_proc i (fun p => g (f p)) l.
Proof. apply list_eq. intros j. rewrite !lookup_upd_proc. destruct (decide (i = j)); [|done]. by destruct (l !! j). Qed.

(** The frame the new program starts with. *)
Definition start_frame (r : elf_load_result) (argc start : Z) (f : frame) : frame :=
  let rsp := u64 (USER_STACK_TOP - PAGE_SIZE + start) in
  f <| f_rip := entry_point r |> <| f_rsp := rsp |> <| f_rax := 0 |> <| f_rdi := argc |> <| f_rsi := u64 (USER_STACK_TOP - PAGE_SIZE + start + 8) |>.

Lemma exec_enter_spec nm argv data size i c root r f s n :
  space_wf s root -> quiet s n -> 320 <= n -> args_fit argv r -> (c < length (procs (sc s)))%nat -> leaves_space s root (cr3 (proc_at (sc s) c)) ->
  exists t start, exec_enter nm argv data size i c root r f s = (t, start_frame r (Z.of_nat (length argv)) start f) /\
    0 <= start /\ start mod 16 = 0 /\ space_wf t root /\ quiet t (n - 320) /\
    sc t = entered c root (exec_pcb nm data size i r) (sc s) /\ program_stack t root start argv r /\
    (forall x, user_addr x -> ~ in_stack x -> pte_val t root x = pte_val s root x).
Proof.
  intros Hw Hq Hn Hfit Hc Hold. destruct (stack_built s root argv r n Hw Hq Hn Hfit) as (s1 & l & s2 & s3 & start & E1 & E2 & E3 & W3 & Q3 & C3 & H0 & H16 & P3 & V3 & Wd & Dd).
  unfold exec_enter. rewrite E1, E2, E3.
  destruct (switch_space_spec s s3 c root (n - 320) W3 Q3 C3 Hold ltac:(apply Hq) Wd Dd) as (Ph & Wt & Qt & Ct). set (t := switch_space c root s3) in *.
  set (t' := t <| sc ::= set_proc c (exec_pcb nm data size i r) |>). destruct (space_same t t' root eq_refl eq_refl) as (W & V & _ & Q).
  exists t', start. split_and!; [done|done|done|by apply W|by apply Q| | |].
  - change (sc t') with (set_proc c (exec_pcb nm data size i r) (sc t)). rewrite Ct, C3. unfold entered, set_proc. cbn. f_equal. apply upd_proc_twice.
  - by apply (program_stack_same s3 t').
  - intros x Hx Hx'. rewrite V, <- V3 by done. unfold pte_val, user_vm_get_pte, ld. by rewrite Ph.
Qed.

(** ** The image *)

(** What the loader reports of a program without an interpreter. *)
Definition static_result (m : Z -> Z) (data : Z) : elf_load_result :=
  let e := ehdr_at m data in
  mk_result (u64 (e_entry e)) (load_end_of 0 (segments m data)) (u64 (e_phoff e)) (e_phentsize e) (e_phnum e) 0 (u64 (e_entry e)).

Definition no_interp (m : Z -> Z) (data : Z) : Prop :=
  find_index (fun h => p_type h =? PT_INTERP) (phdr m data <$> seq 0 (Z.to_nat (e_phnum (ehdr_at m data)))) = None.

Lemma elf_load_static fs m root data size c s hp : elf_validate m data size = 0 -> image_ok m data size 0 -> no_interp m data ->
  current_process (sc s) = Some c -> (c < length (procs (sc s)))%nat ->
  Forall (fun v => v_in_use v = false) (vmas (proc_at (sc s) c)) -> (length (segments m data) <= length (vmas (proc_at (sc s) c)))%nat ->
  exists s', elf_load fs root data size 0 None (mk_loader s hp m) = Answer (mk_loader s' hp m, Some (static_result m data)) /\
    elf_load_segments m root data size 0 true (Some c) s = (s', Some (load_end_of 0 (segments m data))) /\ (s' = s \/ exists l, s' = with_vmas c l s).
Proof.
  intros Hv Hi Hn Hcur Hc Hf Hl. destruct (segments_demand m root data size 0 c s Hi Hc Hf Hl) as (s' & E & F & _). exists s'. split_and!; [|done|done].
  unfold elf_load. cbn [l_mem l_mm]. rewrite Hv. cbn [Z.ltb Z.compare].
  assert (elf_load_segments m root data size 0 true None s = (s', Some (load_end_of 0 (segments m data)))) as -> by (rewrite <- E; unfold elf_load_segments; by rewrite Hcur).
  cbv zeta. change (l_mem ((mk_loader s hp m) <| l_mm := s' |>)) with m. unfold no_interp in Hn. rewrite Hn, !Z.add_0_r. done.
Qed.

(** Everything exec needs to succeed, in the state [w] in which the image is at
    [data]: a sound static image for which the process has area slots, arguments
    that fit, free memory, and a space to leave that holds pages of its own. *)
Record launch (w : world) (c : nat) (data size : Z) (argv : list (list Z)) : Prop := mk_launch {
  la_current : current_process (ks (w_k w)) = Some c;
  la_slot : (c < length (procs (ks (w_k w))))%nat;
  la_valid : elf_validate (w_kmem w) data size = 0;
  la_image : image_ok (w_kmem w) data size 0;
  la_static : no_interp (w_kmem w) data;
  la_areas : (length (segments (w_kmem w) data) <= length (vmas (wproc w c)))%nat;
  la_args : args_fit argv (static_result (w_kmem w) data);
  la_memory : quiet (mm (w_k w)) 325;
  la_old : let old := cr3 (wproc w c) in old = 0 \/ 0 <= old /\ space_wf (mm (w_k w)) old /\
    forall j, holds_page (mm (w_k w)) old j -> 0 <= j /\ Pmm.used (frames (mm (w_k w))) j = true \/ 131072 <= j
}.

(** What exec promises: registers, control block, space and stack are those of
    the new program, no page of its image is there yet, and a fault in a segment
    brings the bytes of the file. *)
Definition launched (w : world) (c : nat) (nm : list Z) (data size : Z) (i : option Ext2.ext2_inode) (argv : list (list Z)) (f : frame)
    (w' : world) (f' : frame) : Prop :=
  let m := w_kmem w in let r := static_result m data in let s := mm (w_k w') in
  exists root start areas,
    f' = start_frame r (Z.of_nat (length argv)) start f /\ 0 <= start /\ start mod 16 = 0 /\
    wproc w' c = exec_pcb nm data size i r ((wproc w c) <| vmas := areas |> <| cr3 := root |>) /\
    (forall q, q <> c -> wproc w' q = wproc w q) /\ cpu_cr3 (sc s) = root /\
    space_wf s root /\ program_stack s root start argv r /\
    (forall x, user_addr x -> ~ in_stack x -> pte_val s root x = 0) /\
    forall fp h x err, h ∈ segments m data -> seg_vaddr h 0 <= x < seg_end h 0 -> has err 1 = false ->
      (has err 2 = true -> has (p_flags h) PF_W = true) ->
      exists t, page_fault_handler fp m x err s = Some t /\ user_byte t root x = Some (seg_byte m data h 0 x) /\
        has (pte_val t root x) PTE_WRITABLE = has (p_flags h) PF_W.

(** A space that was there before the new one was created can be left. *)
Lemma leaves_created s s3 root old : taken (frames s) (frames s3) root ->
  (forall a, a / 4096 <> root / 4096 -> ldq (phys s3) a = ldq (phys s) a) ->
  (forall j, 0 <= j -> Pmm.used (frames s) j = true -> data_page s3 root j) ->
  (old = 0 \/ 0 <= old /\ space_wf s old /\ forall j, holds_page s old j -> 0 <= j /\ Pmm.used (frames s) j = true \/ 131072 <= j) ->
  leaves_space s3 root old.
Proof.
  intros T O D [->|(H0 & Hw & Hp)]; [by left|]. right. split; [done|]. destruct (fresh_frame s s3 old (frames s3) root Hw T eq_refl O) as (W & _ & _ & _ & N). split; [done|].
  intros j Hj. destruct (Hp j) as [[Hj0 Hu]|?]; [|left; by apply D|by right]. apply (holds_page_same s s3 old j Hw); [|done]. intros l t a Hl Ht Ea. apply O. rewrite Ea. by apply (N l).
Qed.

Lemma wproc_other c g z q : c <> q -> proc_at (set_proc c g z) q = proc_at z q.
Proof. intros Hne. unfold proc_at, set_proc, upd_proc. cbn. by rewrite list_lookup_total_alter_ne. Qed.

(** Loading changes the areas of the process only. *)
Lemma with_vmas_facts c s s' : (c < length (procs (sc s)))%nat -> (s' = s \/ exists l, s' = with_vmas c l s) ->
  phys s' = phys s /\ frames s' = frames s /\ length (procs (sc s')) = length (procs (sc s)) /\ current_process (sc s') = current_process (sc s) /\
  (exists areas, proc_at (sc s') c = (proc_at (sc s) c) <| vmas := areas |>) /\ forall q, q <> c -> proc_at (sc s') q = proc_at (sc s) q.
Proof.
  intros Hc [->|[l ->]].
  - split_and!; [done..| |done]. exists (vmas (proc_at (sc s) c)). by destruct (proc_at (sc s) c).
  - split_and!; [done|done|apply length_upd_proc|done|exists l; by apply with_vmas_at|]. intros q Hq. by apply wproc_other.
Qed.

Lemma entered_at c root g z : (c < length (procs z))%nat -> proc_at (entered c root g z) c = g ((proc_at z c) <| cr3 := root |>).
Proof. intros Hc. exact (proc_at_set_proc z c (fun p => g (p <| cr3 := root |>)) Hc). Qed.

Lemma exec_pcb_areas nm data size i r p l l' a root :
  exec_pcb nm data size i r ((p <| vmas ::= l |> <| mmap_next := a |> <| vmas := l' |>) <| cr3 := root |>) = exec_pcb nm data size i r (p <| vmas := l' |> <| cr3 := root |>).
Proof. unfold exec_pcb. destruct p, i as [i|]; [|done]. by destruct (has (Ext2.i_mode i) 0x800), (has (Ext2.i_mode i) 0x400). Qed.

Lemma exec_pcb_keeps nm data size i r p : vmas (exec_pcb nm data size i r p) = vmas p /\ cr3 (exec_pcb nm data size i r p) = cr3 p.
Proof. unfold exec_pcb. destruct i as [i|]; [|done]. by destruct (has (Ext2.i_mode i) 0x800), (has (Ext2.i_mode i) 0x400). Qed.

Lemma exec_image_spec nm argv data size i c f w : launch w c data size argv ->
  exists w' f', exec_image nm argv data size i c f w = Answer (w', f') /\ launched w c nm data size i argv f w' f'.
Proof.
  intros [Hcur Hc Hv Hi Hst Har Hfit Hq Hold]. unfold exec_image. rewrite Hv. cbn [Z.ltb Z.compare].
  destruct (create_space_spec _ 325 Hq ltac:(lia)) as (s1 & root & E1 & T1 & Q1 & W1 & C1 & V1 & O1 & D1). rewrite E1. pose proof (tk_pos _ _ _ T1) as Hr. replace (root =? 0) with false by lia.
  set (w1 := on_mm (fun _ => s1) w). assert (wproc w1 c = wproc w c) as Ew by (unfold wproc, cproc, ks; cbn; by rewrite C1).
  destruct (vma_destroy_all (wproc w1 c)) as [p bufs] eqn:Ep. rewrite Ew in Ep.
  assert (p = (wproc w c) <| vmas ::= fmap (fun v => v <| v_in_use := false |>) |> <| mmap_next := MMAP_BASE |>) as Hp by (unfold vma_destroy_all in Ep; congruence).
  set (hp := foldl (fun h b => Kheap.kfree b h) (heap (w_k w1)) bufs).
  set (w2 := w1 <| w_k ::= _ |>). set (s2 := s1 <| sc ::= set_proc c (fun _ => p) |>). change (mm (w_k w2)) with s2. change (heap (w_k w2)) with hp. change (w_kmem w2) with (w_kmem w). change (w_fs w2) with (w_fs w).
  assert (c < length (procs (sc s1)))%nat as Hc1 by by rewrite C1. assert (proc_at (sc s2) c = p) as E2 by exact (proc_at_set_proc (sc s1) c _ Hc1).
  destruct (elf_load_static (w_fs w) (w_kmem w) root data size c s2 hp Hv Hi Hst) as (s3 & E3 & L3 & F3); [cbn; by rewrite C1|cbn; by rewrite length_upd_proc|rewrite E2, Hp; cbn; by apply Forall_fmap, Forall_true|rewrite E2, Hp; cbn; by rewrite length_fmap|].
  rewrite E3. unfold mbind, Ext2Dir.answer_bind. cbv beta iota zeta.
  destruct (with_vmas_facts c s2 s3 ltac:(cbn; by rewrite length_upd_proc) F3) as (Ph & Fr & Ln & Cu & (areas & Ea) & Oth). rewrite E2, Hp in Ea.
  set (w3 := w2 <| w_k ::= _ |> <| w_kmem := _ |>). change (mm (w_k w3)) with s3.
  destruct (space_same s1 s3 root Ph Fr) as (W3 & V3 & _ & Q3). assert (cr3 (proc_at (sc s3) c) = cr3 (wproc w c)) as Er by by rewrite Ea.
  assert (leaves_space s3 root (cr3 (proc_at (sc s3) c))) as Hls.
  { rewrite Er. apply (leaves_created (mm (w_k w))); [by rewrite Fr|rewrite Ph; exact O1| |exact Hold]. intros j Hj Hu. destruct (D1 j Hj Hu) as (A1 & A2 & A3). unfold data_page. by rewrite Ph, Fr. }
  assert (c < length (procs (sc s3)))%nat as Hc3 by (rewrite Ln; cbn; by rewrite length_upd_proc).
  destruct (exec_enter_spec nm argv data size i c root (static_result (w_kmem w) data) f s3 324 (W3 W1) (Q3 _ Q1) ltac:(lia) Hfit Hc3 Hls) as (t & start & E4 & S0 & S16 & W4 & Q4 & C4 & P4 & V4).
  rewrite E4. eexists _, _. split; [reflexivity|]. exists root, start, areas. change (mm (w_k (on_mm (fun _ => t) w3))) with t. 
  split_and!; [done|done|done| | | |done|done| |].
  - change (wproc (on_mm (fun _ => t) w3) c) with (proc_at (sc t) c). rewrite C4, entered_at, Ea by done. apply exec_pcb_areas.
  - intros q Hne. change (wproc (on_mm (fun _ => t) w3) q) with (proc_at (sc t) q). rewrite C4. unfold entered. change (proc_at (set_proc c (fun p => exec_pcb nm data size i (static_result (w_kmem w) data) (p <| cr3 := root |>)) (sc s3)) q = wproc w q).
    rewrite wproc_other, Oth by done. change (sc s2) with (set_proc c (fun _ => p) (sc s1)). rewrite wproc_other by done. unfold wproc, cproc, ks. by rewrite C1.
  - by rewrite C4.
  - intros x Hx Hx'. rewrite V4, V3 by done. by apply V1.
  - intros fp h x err Hh Hx He Hwr. destruct (demand_faults (w_kmem w) root data size 0 c s2 Hi) as (s3' & L3' & _ & _ & D); [cbn; by rewrite length_upd_proc|rewrite E2, Hp; cbn; by apply Forall_fmap, Forall_true|rewrite E2, Hp; cbn; by rewrite length_fmap|].
    rewrite L3 in L3'. injection L3' as <-. assert (proc_at (sc t) c = exec_pcb nm data size i (static_result (w_kmem w) data) ((proc_at (sc s3) c) <| cr3 := root |>)) as Et by (rewrite C4; by apply entered_at).
    destruct (exec_pcb_keeps nm data size i (static_result (w_kmem w) data) ((proc_at (sc s3) c) <| cr3 := root |>)) as [K1 K2]. rewrite <- Et in K1, K2.
    pose proof Hi as (_ & Hok & _). rewrite Forall_forall in Hok. destruct (seg_geometry _ _ _ _ (Hok h Hh)) as (_ & _ & B & _).
    destruct (D fp t h x err K1 K2 ltac:(lia)) as (t' & A1 & A2 & A3 & A4 & _); [rewrite C4; cbn; by rewrite Cu; cbn; rewrite C1|done|destruct Q4; split; [done|lia]|done|unfold in_seg; lia|done|done|].
    exists t'. rewrite <- (demand_byte_seg (w_kmem w) data h 0 x) by lia. done.
Qed.

(** ** Credentials *)

Definition creds (p : process) : Z * Z * Z * Z := (uid p, gid p, euid p, egid p).

Definition same_creds (z z' : sched) : Prop := forall q, creds (proc_at z' q) = creds (proc_at z q).

Lemma same_creds_set c g z : (forall p, creds (g p) = creds p) -> same_creds z (set_proc c g z).
Proof.
  intros Hg q. destruct (decide (c = q)) as [->|Hne]; [|by rewrite wproc_other]. destruct (decide (q < length (procs z))%nat) as [Hq|Hq]; [by rewrite proc_at_set_proc|].
  unfold proc_at, set_proc, upd_proc. cbn. by rewrite !list_lookup_total_alt, !lookup_ge_None_2 by (rewrite ?length_alter; lia).
Qed.

Lemma same_creds_trans z1 z2 z3 : same_creds z1 z2 -> same_creds z2 z3 -> same_creds z1 z3.
Proof. intros A B q. by rewrite B, A. Qed.

Lemma same_creds_eq z z' : z' = z -> same_creds z z'.
Proof. by intros ->. Qed.

Lemma for_while_keeps {A} (P : A -> Prop) n (body : nat -> A -> A * bool) : (forall k a, P a -> P (body k a).1) -> forall i a, P a -> P (for_while n i body a).1.
Proof.
  intros Hb. induction n as [|n IH]; intros i a Ha; [done|]. cbn [for_while]. pose proof (Hb i a Ha) as H1. destruct (body i a) as [a' []]; [by apply IH|done].
Qed.

Lemma sc_eager_page m root data h base addr s : sc (eager_page m root data h base addr s).1 = sc s.
Proof.
  unfold eager_page. pose proof (sc_pmm_alloc_page s) as H1. destruct (pmm_alloc_page s) as [s1 p]. cbn [fst] in H1. case_if; [done|].
  match goal with |- context [user_vm_map_page ?a ?b ?d ?e ?z] => pose proof (sc_user_vm_map_page a b d e z) as H2; destruct (user_vm_map_page a b d e z) as [s2 r] end. cbn [fst] in *. by rewrite H2.
Qed.

Lemma creds_load_segments m root data size base demand target s : same_creds (sc s) (sc (elf_load_segments m root data size base demand target s).1).
Proof.
  unfold elf_load_segments. set (cur := match target with Some c => Some c | None => _ end). clearbody cur.
  pose proof (for_while_keeps (fun st => same_creds (sc s) (sc st.1)) (Z.to_nat (e_phnum (ehdr_at m data))) (load_segment m root data size base demand cur)) as L.
  destruct (for_while _ _ _ _) as [[s' le] ok] eqn:E. cbn [fst]. specialize (fun Hb => L Hb 0%nat (s, 0)). rewrite E in L. apply L; [|by apply same_creds_eq]. clear.
  intros k [z le] Hz. cbn [fst] in Hz. eapply same_creds_trans; [exact Hz|]. clear Hz. unfold load_segment. set (h := phdr m data k). do 2 (case_if; [by apply same_creds_eq|]).
  assert (sc (eager_segment m root data h base z).1 = sc z) as He by (unfold eager_segment; apply sc_for_while; intros; apply sc_eager_page).
  destruct (eager_segment m root data h base z) as [z' ok]. cbn [fst] in He. destruct cur as [c|]; [|by apply same_creds_eq]. destruct demand; [|by apply same_creds_eq].
  destruct (vma_alloc _) as [j|]; [|by apply same_creds_eq]. cbn. by apply same_creds_set.
Qed.

Lemma creds_load_interp fs root data size target h r l l' r' : load_interp fs root data size target h r l = Answer (l', r') -> same_creds (sc (l_mm l)) (sc (l_mm l')).
Proof.
  unfold load_interp. do 2 (case_if; [by intros [= <- _]|]). destruct (Ext2Dir.ext2_path_lookup _ _) as [ino| |]; [|done..]. unfold mbind, Ext2Dir.answer_bind. case_if; [by intros [= <- _]|].
  destruct (Ext2.ext2_read_inode _ _) as [n|]; [|by intros [= <- _]]. case_if; [by intros [= <- _]|]. destruct (Kheap.kmalloc _ _) as [hp buf]. case_if; [by intros [= <- _]|].
  destruct (Ext2.ext2_read_file _ _ _ _) as [bs|]; [|by intros [= <- _]]. do 2 (case_if; [by intros [= <- _]|]).
  match goal with |- context [elf_load_segments ?a1 ?a2 ?a3 ?a4 ?a5 ?a6 ?a7 ?a8] => pose proof (creds_load_segments a1 a2 a3 a4 a5 a6 a7 a8) as H1; destruct (elf_load_segments a1 a2 a3 a4 a5 a6 a7 a8) as [s e] end.
  by intros [= <- _].
Qed.

Lemma creds_elf_load fs root data size base target l l' r : elf_load fs root data size base target l = Answer (l', r) -> same_creds (sc (l_mm l)) (sc (l_mm l')).
Proof.
  unfold elf_load. case_if; [by intros [= <- _]|].
  match goal with |- context [elf_load_segments ?a1 ?a2 ?a3 ?a4 ?a5 ?a6 ?a7 ?a8] => pose proof (creds_load_segments a1 a2 a3 a4 a5 a6 a7 a8) as H1; destruct (elf_load_segments a1 a2 a3 a4 a5 a6 a7 a8) as [s [le|]] end; [|by intros [= <- _]].
  destruct (find_index _ _) as [k|]; [|by intros [= <- _]].
  match goal with |- context [load_interp ?a1 ?a2 ?a3 ?a4 ?a5 ?a6 ?a7 ?a8] => destruct (load_interp a1 a2 a3 a4 a5 a6 a7 a8) as [[l2 r2]| |] eqn:E end; [|done..].
  intros [= <- _]. eapply same_creds_trans; [exact H1|]. exact (creds_load_interp _ _ _ _ _ _ _ _ _ _ E).
Qed.

(** The credentials with the set-id bits of [i] applied. *)
Definition set_ids (i : Ext2.ext2_inode) (p : process) : Z * Z * Z * Z :=
  (uid p, gid p, if has (Ext2.i_mode i) 0x800 then Ext2.i_uid i else euid p, if has (Ext2.i_mode i) 0x400 then Ext2.i_gid i else egid p).

(** Credentials after exec of a program with the inode [i]: those of before, or
    for the caller those the inode grants. *)
Definition exec_creds (i : option Ext2.ext2_inode) (c : nat) (z z' : sched) : Prop := forall q,
  creds (proc_at z' q) = creds (proc_at z q) \/ q = c /\ exists n, i = Some n /\ creds (proc_at z' q) = set_ids n (proc_at z q).

Lemma exec_creds_same i c z1 z2 z3 : same_creds z1 z2 -> exec_creds i c z2 z3 -> exec_creds i c z1 z3.
Proof.
  intros A B q. destruct (B q) as [->|(-> & n & -> & E)]; [left; apply A|]. right. split; [done|]. exists n. split; [done|]. rewrite E. specialize (A c). unfold creds in A. injection A as A1 A2 A3 A4. unfold set_ids. by rewrite A1, A2, A3, A4.
Qed.

Lemma exec_creds_none i c z z' : same_creds z z' -> exec_creds i c z z'.
Proof. intros A q. left. apply A. Qed.

Lemma creds_exec_pcb nm data size i r p : creds (exec_pcb nm data size i r p) = match i with Some n => set_ids n p | None => creds p end.
Proof. unfold exec_pcb, set_ids. destruct i as [i|]; [|done]. by destruct (has (Ext2.i_mode i) 0x800), (has (Ext2.i_mode i) 0x400). Qed.

Lemma exec_creds_pcb nm data size i r c z : exec_creds i c z (set_proc c (exec_pcb nm data size i r) z).
Proof.
  intros q. destruct (decide (c = q)) as [<-|Hne]; [|left; by rewrite wproc_other]. destruct (decide (c < length (procs z))%nat) as [Hc|Hc].
  - rewrite proc_at_set_proc, creds_exec_pcb by done. destruct i as [n|]; [right; split; [done|]; by exists n|by left].
  - left. unfold proc_at, set_proc, upd_proc. cbn. by rewrite !list_lookup_total_alt, !lookup_ge_None_2 by (rewrite ?length_alter; lia).
Qed.

Lemma sc_alloc_stack n : forall l s, sc (alloc_stack n l s).1 = sc s.
Proof.
  induction n as [|n IH]; intros l s; [done|]. cbn [alloc_stack]. pose proof (sc_pmm_alloc_page s) as E. destruct (pmm_alloc_page s) as [s1 p]. cbn [fst] in E. case_if; [|by rewrite IH].
  cbn. rewrite <- E. generalize s1. induction l as [|q l IHl]; intros z; [done|]. cbn. by rewrite IHl.
Qed.

Lemma sc_map_stack root l s : sc (map_stack root l s).1 = sc s.
Proof.
  apply sc_for_while. intros k z. pose proof (sc_user_vm_map_page root (USER_STACK_BOTTOM + 4096 * Z.of_nat k) (l !!! k) STACK_FLAGS z) as E. by destruct (user_vm_map_page _ _ _ _ _).
Qed.

Lemma sc_free_list l s : sc (foldl (fun s q => s <| frames ::= Pmm.pmm_free_page q |>) s l) = sc s.
Proof. revert s. induction l as [|q l IH]; intros s; [done|]. cbn. by rewrite IH. Qed.

Lemma sc_setup_stack p virt argv r s : sc (elf_setup_stack p virt argv r s).1 = sc s.
Proof. unfold elf_setup_stack. destruct (push_args _ _ _ _ _) as [page [[wp ptrs]|]]; [|done]. by repeat case_if. Qed.

Lemma sc_leave_space old s : sc (leave_space old s) = sc s.
Proof. unfold leave_space. case_if; [done|apply sc_user_vm_destroy]. Qed.

Lemma creds_switch c root s : same_creds (sc s) (sc (switch_space c root s)).
Proof.
  unfold switch_space. cbv zeta. set (s4 := s <| sc ::= set_proc c _ |> <| sc ::= _ |>). assert (same_creds (sc s) (sc s4)) as H4 by by apply same_creds_set.
  clearbody s4. match goal with |- context [leave_space ?o s4] => pose proof (sc_leave_space o s4) as H5; set (s5 := leave_space o s4) in *; clearbody s5 end.
  rewrite <- H5 in H4. exact H4.
Qed.

Lemma creds_exec_enter nm argv data size i c root r f s t f' : exec_enter nm argv data size i c root r f s = (t, f') -> exec_creds i c (sc s) (sc t).
Proof.
  unfold exec_enter. pose proof (sc_alloc_stack USER_STACK_PAGES [] s) as E1. destruct (alloc_stack _ _ _) as [s1 [l|]]; cbn [fst] in E1.
  2: { intros [= <- _]. apply exec_creds_none, same_creds_eq. by rewrite sc_user_vm_destroy. }
  pose proof (sc_map_stack root l s1) as E2. destruct (map_stack root l s1) as [s2 []]; cbn [fst] in E2.
  2: { intros [= <- _]. apply exec_creds_none, same_creds_eq. rewrite sc_user_vm_destroy, sc_free_list. congruence. }
  pose proof (sc_setup_stack (stack_phys l) (USER_STACK_TOP - PAGE_SIZE) (Some <$> argv) (Some r) s2) as E3. destruct (elf_setup_stack _ _ _ _ _) as [s3 [[rsp ap]|]]; cbn [fst] in E3.
  2: { intros [= <- _]. apply exec_creds_none, same_creds_eq. rewrite sc_user_vm_destroy. congruence. }
  intros [= <- _]. rewrite <- E1, <- E2, <- E3. eapply exec_creds_same; [apply (creds_switch c root)|]. apply exec_creds_pcb.
Qed.

Lemma creds_exec_image nm argv data size i c f w w' f' : exec_image nm argv data size i c f w = Answer (w', f') -> exec_creds i c (ks (w_k w)) (ks (w_k w')).
Proof.
  unfold exec_image. case_if; [by intros [= <- _]; apply exec_creds_none, same_creds_eq|]. pose proof (sc_user_vm_create (mm (w_k w))) as E1. destruct (user_vm_create_address_space _) as [s1 root]. cbn [fst] in E1.
  case_if; [intros [= <- _]; by apply exec_creds_none, same_creds_eq|]. destruct (vma_destroy_all _) as [p bufs] eqn:Ep.
  assert (same_creds (ks (w_k w)) (set_proc c (fun _ => p) (sc s1))) as H2.
  { rewrite E1. intros q. destruct (decide (c = q)) as [<-|Hne]; [|by rewrite wproc_other]. destruct (decide (c < length (procs (ks (w_k w))))%nat) as [Hc|Hc].
    - unfold ks. rewrite proc_at_set_proc by done. unfold vma_destroy_all in Ep. injection Ep as <- _. unfold wproc, cproc, ks. cbn. by rewrite E1.
    - unfold proc_at, set_proc, upd_proc, ks. cbn. by rewrite !list_lookup_total_alt, !lookup_ge_None_2 by (rewrite ?length_alter; unfold ks in Hc; lia). }
  match goal with |- context [elf_load ?a1 ?a2 ?a3 ?a4 ?a5 ?a6 ?a7] => destruct (elf_load a1 a2 a3 a4 a5 a6 a7) as [[l r]| |] eqn:El end; [|done..]. apply creds_elf_load in El.
  pose proof (same_creds_trans _ _ _ H2 El) as H3. unfold mbind, Ext2Dir.answer_bind. destruct r as [r|].
  - match goal with |- context [exec_enter ?a1 ?a2 ?a3 ?a4 ?a5 ?a6 ?a7 ?a8 ?a9 ?a10] => destruct (exec_enter a1 a2 a3 a4 a5 a6 a7 a8 a9 a10) as [t f1] eqn:Ee end.
    intros [= <- _]. apply creds_exec_enter in Ee. eapply exec_creds_same; [exact H3|exact Ee].
  - intros [= <- _]. apply exec_creds_none. match goal with |- context [on_mm (user_vm_destroy_address_space root) ?z] => change (same_creds (ks (w_k w)) (sc (user_vm_destroy_address_space root (mm (w_k z))))) end.
    rewrite sc_user_vm_destroy. exact H3.
Qed.

(** ** Argument lines *)

(** The words of [ws] with one space between them. *)
Definition line_of (ws : list (list Z)) : list Z :=
  match ws with [] => [] | w :: ws => w ++ mjoin ((fun w => SPACE :: w) <$> ws) end.

Definition is_word (w : list Z) : Prop := w <> [] /\ Forall (fun ch => ch <> SPACE) w.

Lemma word_end w rest : Forall (fun ch => ch <> SPACE) w -> (rest = [] \/ exists r, rest = SPACE :: r) ->
  default (length (w ++ rest)) (find_index (Z.eqb SPACE) (w ++ rest)) = length w.
Proof.
  induction 1 as [|ch w Hc Hw IH]; intros Hr; [by destruct Hr as [->|[r ->]]|]. cbn [app find_index length]. rewrite (proj2 (Z.eqb_neq SPACE ch)) by done.
  specialize (IH Hr). destruct (find_index (Z.eqb SPACE) (w ++ rest)); cbn in *; lia.
Qed.

Lemma words_of_line ws : forall fuel n, Forall is_word ws -> (length ws <= fuel)%nat -> words_of fuel n (line_of ws) = take n ws.
Proof.
  induction ws as [|w ws IH]; intros fuel n Hws Hf; [destruct fuel, n; done|]. destruct fuel as [|fuel]; [cbn in Hf; lia|]. destruct n as [|n]; [done|].
  apply Forall_cons in Hws as [[Hne Hw] Hws]. cbn [words_of line_of take]. set (R := mjoin ((fun w => SPACE :: w) <$> ws)).
  assert (R = [] \/ exists r, R = SPACE :: r) as HR by (unfold R; destruct ws; [by left|right; by eexists]).
  assert (drop 1 R = line_of ws) as Hd by (unfold R; by destruct ws).
  assert (find_index (fun ch => negb (ch =? SPACE)) (w ++ R) = Some 0%nat) as ->.
  { destruct w as [|ch w]; [done|]. apply Forall_cons in Hw as [Hc _]. cbn. by rewrite (proj2 (Z.eqb_neq ch SPACE)). }
  change (drop (default (length (w ++ R)) (Some 0%nat)) (w ++ R)) with (w ++ R). destruct (w ++ R) as [|ch l] eqn:E; [by destruct w|]. cbv zeta. rewrite <- E, word_end, take_app_length by done. f_equal. replace (Datatypes.S (length w)) with (length w + 1)%nat by lia. rewrite <- drop_drop, drop_app_length, Hd. apply IH; [done|cbn in Hf; lia].
Qed.

Lemma line_length ws : Forall is_word ws -> (length ws <= length (line_of ws))%nat.
Proof.
  assert (forall l : list (list Z), length l <= length (mjoin ((fun w => SPACE :: w) <$> l)))%nat as Hl.
  { induction l as [|v l IH]; [done|]. change (mjoin ((fun w => SPACE :: w) <$> v :: l)) with ((SPACE :: v) ++ mjoin ((fun w => SPACE :: w) <$> l)). rewrite length_app. cbn [length]. lia. }
  destruct ws as [|w ws]; [done|]. intros Hws. apply Forall_cons in Hws as [[Hne _] _]. specialize (Hl ws). cbn [line_of]. rewrite length_app. destruct w; [done|]. cbn [length]. lia.
Qed.

(** ** The page for the argument line *)

Lemma page_bytes_byte m p o : p mod 4096 = 0 -> 0 <= o < 4096 -> zget (page_bytes m p) o = page_byte m p o.
Proof.
  intros Hp Ho. rewrite <- (page_byte_stored m p (page_bytes m p) o Hp (page_bytes_range m p) Ho). unfold page_byte. rewrite fill_inside by (done || zsolve).
  assert (rd64 (page_bytes m p) (8 * (o / 8)) = ldq m (p + 8 * (o / 8)) mod 2 ^ 64) as ->.
  { unfold page_bytes, rd64. change (fun i => le_bytes 8 (ldq m (p + 8 * i))) with (le_bytes 8 ∘ (fun i => ldq m (p + 8 * i))). rewrite list_fmap_compose.
    pose proof (rd_cells 8 ((fun i => ldq m (p + 8 * i)) <$> seqZ 0 512) [] (Z.to_nat (o / 8)) (ldq m (p + 8 * (o / 8)))) as R. rewrite app_nil_r, Z2Nat.id in R by zsolve. apply R.
    rewrite list_lookup_fmap, lookup_seqZ_lt by zsolve. cbn. do 3 f_equal. zsolve. }
  set (v := ldq m (p + 8 * (o / 8))). assert (0 <= o mod 8 < 8) as Hk by zsolve. generalize (o mod 8), Hk. clear. intros k Hk. change 256 with (2 ^ 8). rewrite <- Z.pow_mul_r by lia.
  apply Z.bits_inj'. intros b Hb. destruct (decide (b < 8)); [|by rewrite !Z.mod_pow2_bits_high by lia].
  rewrite !Z.mod_pow2_bits_low, !Z.div_pow2_bits, Z.mod_pow2_bits_low by lia. done.
Qed.

(** The rest of the page shows what its frame held before. *)
Lemma legacy_args_leaks root a s o : space_wf s root -> quiet s 4 -> Z.of_nat (length a) < o < 4096 -> a <> [] -> Forall is_byte a ->
  exists f p, pmm_alloc_page s = (s <| frames := f |>, p) /\
    user_byte (legacy_args root (Some a) s) root (USER_ARGV_ADDR + o) = Some (page_byte (phys s) p o).
Proof.
  intros Hw Hq Ho Ha Hb. destruct (alloc_quiet s 4 Hq ltac:(lia)) as (f & p & E & T). exists f, p. split; [done|]. unfold legacy_args. destruct a as [|b a0] eqn:Ea; [done|]. rewrite <- Ea in *. clear Ha.
  rewrite E. pose proof (tk_pos _ _ _ T). replace (p =? 0) with false by lia. set (page := blit _ 0 _). set (s1 := s <| frames := f |> <| phys ::= _ |>). pose proof (tk_align _ _ _ T) as Hp.
  assert (p < 2 ^ 52) as Hp52. { destruct Hq as ((Wf & _) & _). pose proof (Pmm.wf_total _ Wf). pose proof (tk_bound _ _ _ T). zsolve. }
  destruct (fresh_fill s root f p (fun i => rd64 page (8 * i)) Hw T) as (W1 & _ & T1 & _ & N1). fold s1 in W1, T1.
  assert (quiet s1 3) as Hq1. { destruct Hq as [_ Hq]. split; [apply T|]. change (frames s1) with f. rewrite (tk_count _ _ _ T). lia. }
  pose proof (map_page_spec s1 root USER_ARGV_ADDR p STACK_FLAGS 3 W1 ltac:(done) Hq1 ltac:(lia)) as M. destruct (user_vm_map_page _ _ _ _ _) as [s2 r]. destruct M as (_ & _ & _ & K2 & _ & _ & _ & V2). cbn [fst].
  unfold user_byte. assert (user_addr (USER_ARGV_ADDR + o)) as Hu by (unfold user_addr, USER_ARGV_ADDR; lia). rewrite V2, decide_True by (done || unfold USER_ARGV_ADDR; zsolve).
  change (Z.lor (Z.lor (Z.land p PTE_ADDR_MASK) STACK_FLAGS) PTE_PRESENT) with (stack_entry p). destruct (stack_entry_spec p ltac:(lia) Hp) as (A1 & A2 & _). cbv zeta. rewrite A1, A2. f_equal.
  replace ((USER_ARGV_ADDR + o) mod 4096) with o by (unfold USER_ARGV_ADDR; zsolve).
  assert (data_page s1 root (p / 4096)) as Dp. { split_and!; [zsolve|change (frames s1) with f; rewrite (tk_used _ _ _ T) by zsolve; by rewrite bool_decide_true|]. intros l t Hl. rewrite T1 by done. by apply N1. }
  rewrite (page_byte_ext _ (phys s1)); [|done|lia|apply (K2 _ Dp)]. 
  assert (Forall is_byte page) as Bp. { unfold page, blit. rewrite !Forall_app. split_and!; [by apply Forall_take, page_bytes_range|by apply Forall_take|by repeat constructor|apply Forall_drop, page_bytes_range]. }
  unfold s1. cbn [phys upd]. rewrite page_byte_stored by (done || lia). rewrite <- page_bytes_byte by (done || lia).
  unfold page, blit, zget. change (Z.to_nat 0) with 0%nat. rewrite take_0, !list_lookup_total_alt. cbn [app]. rewrite lookup_app_r by (rewrite length_app, length_take; cbn [length]; lia). rewrite lookup_drop. do 2 f_equal. cbn [Nat.add]. rewrite length_app, length_take. cbn [length]. lia.
Qed.

(** ** The search and the set-id bits *)

(** The inode exec takes credentials from is that of the path, and the caller
    may execute it; nothing but the heap and the buffer changes. *)
Lemma from_ext2_inode n nm p w w1 r : from_ext2 n nm p w = Answer (w1, r) -> mm (w_k w1) = mm (w_k w) /\
  forall prog i, r = Some (prog, Some i) -> exists ino, Ext2Dir.ext2_path_lookup (bin_path n nm) (w_fs w) = Answer ino /\ Ext2.ext2_read_inode ino (w_fs w) = Some i /\
    Cred.cred_check_exec p (Ext2.i_mode i) (Ext2.i_uid i) (Ext2.i_gid i) = true.
Proof.
  unfold from_ext2. case_if; [by intros [= <- <-]|]. destruct (Ext2Dir.ext2_path_lookup _ _) as [ino| |]; [|done..]. unfold mbind, Ext2Dir.answer_bind. case_if; [by intros [= <- <-]|].
  destruct (Ext2.ext2_read_inode ino (w_fs w)) as [i|] eqn:Ei; [|by intros [= <- <-]]. case_if; [by intros [= <- <-]|]. destruct (Cred.cred_check_exec p _ _ _) eqn:Ec; [|by intros [= <- <-]]. cbn [negb].
  destruct (Kheap.kmalloc _ _) as [h buf]. assert (forall (w2 : world) (d : option (Z * Z)), mm (w_k w2) = mm (w_k w) -> Answer (w2, Some (d, Some i)) = Answer (w1, r) -> mm (w_k w1) = mm (w_k w) /\
    forall prog j, r = Some (prog, Some j) -> exists ino', Answer ino = Answer ino' /\ Ext2.ext2_read_inode ino' (w_fs w) = Some j /\
      Cred.cred_check_exec p (Ext2.i_mode j) (Ext2.i_uid j) (Ext2.i_gid j) = true) as Hd.
  { intros w2 d Em [= <- <-]. split; [done|]. intros prog j [= _ <-]. by exists ino. }
  case_if; [by apply Hd|]. cbn [w_fs upd]. destruct (Ext2.ext2_read_file i 0 (Ext2.i_size i) (w_fs w)) as [bs|]; [|by apply Hd]. case_if; by apply Hd.
Qed.

(** The first segment that does not lie in the file ends the load. *)
Lemma bad_segment_loop m root data size base demand cur h rest : size < u64 (p_offset h + p_filesz h) -> forall n k s le, loads m data k n = h :: rest ->
  for_while n k (load_segment m root data size base demand cur) (s, le) = ((s, le), false).
Proof.
  intros Hbad. induction n as [|n IH]; intros k s le Hl; [done|]. unfold loads in Hl. cbn [seq fmap list_fmap] in Hl. cbn [for_while load_segment].
  destruct (decide (p_type (phdr m data k) = PT_LOAD)) as [E|E].
  - rewrite filter_cons_True in Hl by done. injection Hl as Hh _. unfold load_segment. rewrite Hh in *. rewrite E. change (PT_LOAD =? PT_LOAD) with true. cbn [negb]. by replace (size <? u64 (p_offset h + p_filesz h)) with true by lia.
  - rewrite filter_cons_False in Hl by done. unfold load_segment at 1. rewrite (proj2 (Z.eqb_neq _ _) E). cbn [negb]. by apply IH.
Qed.

Lemma elf_load_bad fs m root data size target s hp h rest : elf_validate m data size = 0 -> segments m data = h :: rest -> size < u64 (p_offset h + p_filesz h) ->
  elf_load fs root data size 0 target (mk_loader s hp m) = Answer (mk_loader s hp m, None).
Proof.
  intros Hv Hs Hbad. unfold elf_load. cbn [l_mem l_mm]. rewrite Hv. cbn [Z.ltb Z.compare]. unfold elf_load_segments. by rewrite (bad_segment_loop m root data size 0 true _ h rest Hbad) by exact Hs.
Qed.

(** ** Claims *)


(** C21: execv grants no rights but those of a set-id file.  However the call ends,
    no process has other credentials than before, except the caller when the file
    at the path exists and the caller may execute it; then the user and the group
    it acts as are those of the file where its set-id bits say so. *)
Theorem execv_credentials word str c arg1 arg2 arg3 f w w' f' q :
  syscall_execv word str c arg1 arg2 arg3 f w = Answer (w', f') ->
  creds (wproc w' q) = creds (wproc w q) \/
  q = c /\ exists ino n, Ext2Dir.ext2_path_lookup (bin_path 72 (take 63 (str arg1))) (w_fs w) = Answer ino /\
    Ext2.ext2_read_inode ino (w_fs w) = Some n /\ Cred.cred_check_exec (wproc w c) (Ext2.i_mode n) (Ext2.i_uid n) (Ext2.i_gid n) = true /\
    creds (wproc w' c) = set_ids n (wproc w c).
Proof.
  unfold syscall_execv. case_if; [intros [= <- _]; by left|]. set (nm := take 63 (str arg1)). set (base := basename nm nm). set (args := execv_args _ _ _ _ _).
  destruct (from_ext2 72 nm (wproc w c) w) as [[w1 r]| |] eqn:E1; [|done..]. destruct (from_ext2_inode _ _ _ _ _ _ E1) as [Em Hi]. unfold mbind, Ext2Dir.answer_bind.
  assert (forall q, wproc w1 q = wproc w q) as Ew by (intros j; unfold wproc, cproc, ks; by rewrite Em). destruct r as [[prog i]|]; [|intros [= <- _]; left; by rewrite Ew].
  destruct (program_of prog _ w1) as [[data size]|]; [|intros [= <- _]; left; by rewrite Ew]. intros E. destruct (creds_exec_image _ _ _ _ _ _ _ _ _ _ E q) as [Eq|(-> & n & -> & Eq)].
  - left. unfold wproc, cproc. rewrite Eq. exact (f_equal creds (Ew q)).
  - right. split; [done|]. destruct (Hi prog n eq_refl) as (ino & P1 & P2 & P3). exists ino, n. split_and!; [done..|]. unfold wproc at 1, cproc at 1. rewrite Eq. exact (f_equal (set_ids n) (Ew c)).
Qed.

(** The argument line of a new process is read word by word: argv is the name
    of the program and the first 31 words of the line. *)
Theorem create_argv_words nm ws : Forall is_word ws -> ws <> [] -> (length (line_of ws) <= 511)%nat -> create_argv nm (Some (line_of ws)) = nm :: take 31 ws.
Proof.
  intros Hw Hne Hl. unfold create_argv. pose proof (line_length ws Hw) as Hlen. destruct (line_of ws) as [|ch l] eqn:E; [destruct ws; [done|cbn in Hlen; lia]|]. rewrite <- E in *.
  f_equal. rewrite take_ge by done. by apply words_of_line.
Qed.

(** A failed exec can cost the process its memory.  When the first segment of
    a valid image does not lie in the file, the call fails, but the areas of the
    caller, which goes on in its old space, are gone. *)
Theorem exec_failure_drops_areas nm argv data size i c f w s1 root h rest :
  (c < length (procs (ks (w_k w))))%nat -> elf_validate (w_kmem w) data size = 0 -> user_vm_create_address_space (mm (w_k w)) = (s1, root) -> root <> 0 ->
  segments (w_kmem w) data = h :: rest -> size < u64 (p_offset h + p_filesz h) ->
  exists w', exec_image nm argv data size i c f w = Answer (w', fail f) /\ cr3 (wproc w' c) = cr3 (wproc w c) /\ forall x, vma_find (wproc w' c) x = None.
Proof.
  intros Hc Hv Ec Hr Hs Hbad. unfold exec_image. rewrite Hv, Ec. cbn [Z.ltb Z.compare]. rewrite (proj2 (Z.eqb_neq _ _) Hr). pose proof (sc_user_vm_create (mm (w_k w))) as C1. rewrite Ec in C1. cbn [fst] in C1.
  set (w1 := on_mm (fun _ => s1) w). destruct (vma_destroy_all (wproc w1 c)) as [p bufs] eqn:Ep. set (w2 := w1 <| w_k ::= _ |>). change (w_kmem w2) with (w_kmem w).
  rewrite (elf_load_bad (w_fs w2) (w_kmem w) root data size None (mm (w_k w2)) (heap (w_k w2)) h rest Hv Hs Hbad). unfold mbind, Ext2Dir.answer_bind. cbv beta iota zeta. eexists. split; [reflexivity|].
  match goal with |- cr3 (wproc (on_mm ?g ?z) c) = _ /\ _ => assert (wproc (on_mm g z) c = p) as -> end.
  { match goal with |- wproc (on_mm (user_vm_destroy_address_space root) ?z) c = p => change (proc_at (sc (user_vm_destroy_address_space root (mm (w_k w2)))) c = p) end.
    rewrite sc_user_vm_destroy. apply (proc_at_set_proc (sc s1) c (fun _ => p)). by rewrite C1. }
  unfold vma_destroy_all in Ep. injection Ep as <- _. split; [unfold w1, wproc, cproc, ks; cbn; by rewrite C1|]. intros x. unfold vma_find. apply find_index_None. intros j v Hj. cbn in Hj.
  apply list_lookup_fmap_Some in Hj as (u & -> & _). done.
Qed.

End exec.

(** ** A concrete run *)

(** A process with the space of [demo_mm] and memory for more than 400 pages;
    the program is a file in memory and no disk is mounted. *)
Definition demo_big_frames : Pmm.pmm := Pmm.mk_pmm (127 :: replicate 63 0) 512 505 2097152 0 ([0; 0; 1; 1; 1; 1; 1] ++ replicate 505 0) 2.

Definition demo_exec_mm : vm := (demo_mm 0x6007) <| frames := demo_big_frames |>.

Definition demo_exec : world (S := unit) :=
  mk_world (mk_kern demo_exec_mm ∅ Kheap.demo_heap [] ∅ 7 [] tt) demo_kmem (Vfs.ramfs_add_file (Vfs.txt "init") demo_at 180 Vfs.vfs_init).1
    (Ext2.demo_ext2 <| Ext2.ext2_mounted := false |>).

Definition demo_str (a : Z) : list Z := if a =? 0x1000 then Vfs.txt "/bin/init" else Vfs.txt "-v".

Lemma demo_exec_tables l t : user_path l -> table_at (phys demo_exec_mm) 0x2000 l = Some t ->
  (l, t) = ([], 0x2000) \/ (l, t) = ([0], 0x3000) \/ (l, t) = ([0; 0], 0x4000) \/ (l, t) = ([0; 0; 2], 0x5000).
Proof. exact (demo_tables 0x6007 1 l t). Qed.

Lemma demo_exec_space : space_wf demo_exec_mm 0x2000.
Proof.
  destruct (demo_space 0x6007 1) as [_ H2 H3]. constructor; [|exact H2|exact H3].
  intros l t Hl Ht. destruct (demo_exec_tables l t Hl Ht) as [[= -> ->]|[[= -> ->]|[[= -> ->]|[= -> ->]]]]; by vm_compute.
Qed.

Lemma demo_exec_pages j : holds_page demo_exec_mm 0x2000 j -> 0 <= j /\ Pmm.used (frames demo_exec_mm) j = true \/ 131072 <= j.
Proof.
  intros [(l & t & Hl & Ht & ->)|(l & t & i & Hl & H3 & Ht & Hi & Hp & ->)]; left; destruct (demo_exec_tables l t Hl Ht) as [[= -> ->]|[[= -> ->]|[[= -> ->]|[= -> ->]]]]; try done; [by vm_compute..|].
  destruct (decide (i = 0)) as [->|Hne]; [by vm_compute|]. exfalso. revert Hp. unfold demo_exec_mm, demo_mm, demo_vm. cbn [phys upd]. rewrite !ldq_insert, !decide_False by lia. done.
Qed.

Lemma demo_exec_launch : launch demo_exec 1 demo_at 180 [Vfs.txt "init"; Vfs.txt "-v"].
Proof.
  constructor; [done|cbn; lia|by vm_compute|exact demo_image_ok|by vm_compute|change (w_kmem demo_exec) with demo_kmem; rewrite demo_segments; cbn; lia| | |].
  - split; [by repeat constructor|by vm_compute].
  - split; [split_and!; [by apply Pmm.wfb_sound; vm_compute| |done]|by vm_compute]. intros i Hi. cbn in Hi. assert (i = 0 \/ i = 1) as [-> | ->] by lia; reflexivity.
  - right. split; [by vm_compute|]. split; [exact demo_exec_space|exact demo_exec_pages].
Qed.


Lemma demo_exec_runs : exists w' f', syscall_execv (fun _ => 0x3000) demo_str 1 0x1000 2 0x2000 (mk_frame 0 0 0 0 0 0 0 0 0 0 0 0 0 0 26 0 0 0 0 0 0 0) demo_exec = Answer (w', f').
Proof.
  destruct (exec_image_spec (Vfs.txt "init") [Vfs.txt "init"; Vfs.txt "-v"] demo_at 180 None 1 (mk_frame 0 0 0 0 0 0 0 0 0 0 0 0 0 0 26 0 0 0 0 0 0 0) demo_exec demo_exec_launch) as (w' & f' & E & _).
  exists w', f'. exact E.
Qed.

Lemma execv_credentials_witness : exists w' f',
  syscall_execv (fun _ => 0x3000) demo_str 1 0x1000 2 0x2000 (mk_frame 0 0 0 0 0 0 0 0 0 0 0 0 0 0 26 0 0 0 0 0 0 0) demo_exec = Answer (w', f') /\
  creds (wproc w' 0) = (0, 0, 0, 0).
Proof.
  destruct demo_exec_runs as (w' & f' & E). exists w', f'. split; [exact E|].
  destruct (execv_credentials _ _ _ _ _ _ _ _ _ _ 0%nat E) as [Hc|[Hc _]]; [exact Hc|discriminate Hc].
Defined.

Lemma create_argv_words_witness : create_argv (Vfs.txt "cat") (Some (Vfs.txt "-n motd")) = [Vfs.txt "cat"; Vfs.txt "-n"; Vfs.txt "motd"].
Proof. apply (create_argv_words (Vfs.txt "cat") [Vfs.txt "-n"; Vfs.txt "motd"]); [by repeat constructor|done|cbn; lia]. Defined.

(** The first segment claims 1000 bytes of the file of 180. *)
Definition demo_bad : world (S := unit) := demo_exec <| w_kmem ::= poke (demo_at + 96) (le_bytes 8 1000) |>.

Lemma exec_failure_drops_areas_witness : exists w', exec_image (Vfs.txt "init") [Vfs.txt "init"] demo_at 180 None 1 (mk_frame 0 0 0 0 0 0 0 0 0 0 0 0 0 0 4 0 0 0 0 0 0 0) demo_bad
    = Answer (w', fail (mk_frame 0 0 0 0 0 0 0 0 0 0 0 0 0 0 4 0 0 0 0 0 0 0)) /\ vma_find (wproc w' 1) 0x400000 = None.
Proof.
  destruct (create_space_spec demo_exec_mm 325 (la_memory _ _ _ _ _ demo_exec_launch) ltac:(lia)) as (s1 & root & E & T & _).
  destruct (exec_failure_drops_areas (Vfs.txt "init") [Vfs.txt "init"] demo_at 180 None 1 (mk_frame 0 0 0 0 0 0 0 0 0 0 0 0 0 0 4 0 0 0 0 0 0 0) demo_bad s1 root
    (mk_phdr 1 5 0 0x401010 0 1000 8 1) [demo_data]) as (w' & E' & _ & Hf); [cbn; lia|by vm_compute|exact E|pose proof (tk_pos _ _ _ T); lia|by vm_compute|by vm_compute|].
  exists w'. split; [exact E'|apply Hf].
Defined.

End Exec.
