(* ===== verification/Life.v ===== *)
(** * The life of a process: fork, exit, wait, and the pipe ends it holds

    Theorems about the operations of [Files]: pipe ends are counted across every
    sequence of descriptor operations, fork makes the child it should, and the
    status given to exit is the one wait returns. *)

From stdpp Require Import prelude gmap.
From Stdlib Require Import ZArith Lia.
From S2P Require Import Prelude Pmm Process Sched Signal Ring Pipe Kheap Vm Mmap Epoll Files.
Import Process Sched Signal Ring Pipe Vm Mmap Files.
Local Open Scope Z_scope.

Module Life.

Section life.
Context {S : Type} `{SocketOps S}.
Implicit Types k : (kern S).

(** A process that can make system calls. *)
Definition live (k : kern S) (c : nat) : Prop :=
  exists p, procs (ks k) !! c = Some p /\ unused p = false.

(** Reading and writing through a pipe; [f] drops the data. *)
Definition pipe_io (op : pipe -> sched -> pipe * sched) : Prop :=
  (exists cnt, op = fun p s => (pipe_read p cnt s).1) \/ (exists buf cnt, op = fun p s => (pipe_write p buf cnt s).1).

(** The operations on descriptors, by any live process in any order, between
    steps that change neither descriptors nor pipes.  Counters of references
    are assumed not to overflow, and [kmalloc] not to return the address of a
    pipe in use. *)
Inductive file_step : kern S -> kern S -> Prop :=
| fs_close k c fd : live k c -> 0 <= fd -> file_step k (sys_close c fd k).1
| fs_pipe k c ptr : live k c -> pipes k !! (Kheap.kmalloc PIPE_STRUCT_SIZE (heap k)).2 = None ->
    file_step k (sys_pipe c ptr k).1.1
| fs_dup2 k c a b : live k c -> refs_room 1 k -> 0 <= a -> 0 <= b -> file_step k (sys_dup2 c a b k).1
| fs_exit k c status : live k c -> file_step k (syscall_exit c status k)
| fs_fork k c tramp f : live k c -> refs_room 32 k -> file_step k (syscall_fork tramp c f k).1
| fs_wait k c q ptr : file_step k (sys_waitpid c q ptr k).1
| fs_wait_resumed k c q : file_step k (wait_resumed c q k).1
| fs_create k nm entry : file_step k (process_create nm entry k).1
| fs_io k q op : pipe_io op -> file_step k (with_pipe q op k)
| fs_other k k' : same_fds (procs (ks k)) (procs (ks k')) -> pipes k' = pipes k -> file_step k k'.

Context {L : SocketLaws S}.

Lemma live_lt k c : live k c -> (c < length (procs (ks k)))%nat.
Proof. intros (p & Hp & _). by eapply lookup_lt_Some. Qed.

Lemma lookup_proc_at s c : (c <? length (procs s))%nat = true -> procs s !! c = Some (proc_at s c).
Proof. intros Hc%Nat.ltb_lt. by apply list_lookup_lookup_total_lt. Qed.

Lemma live_at k c : (c <? length (procs (ks k)))%nat = true -> unused (proc_at (ks k) c) = false -> live k c.
Proof. intros Hc Hu. exists (proc_at (ks k) c). split; [by apply lookup_proc_at|done]. Qed.

Lemma block_current_fds s : same_fds (procs s) (procs (block_current s)).
Proof.
  unfold block_current. destruct (current_process s); [|done].
  etransitivity; [|apply sched_only_fds, sched_only_schedule]. by apply same_fds_upd.
Qed.

Lemma pipe_io_counts op p s : pipe_io op ->
  let '(p', s') := op p s in same_fds (procs s) (procs s') /\ readers p' = readers p /\ writers p' = writers p.
Proof.
  intros [[cnt ->]|(buf & cnt & ->)].
  - unfold pipe_read. case_if; [case_if; [done|]|].
    + cbn [fst]. split; [apply block_current_fds|done].
    + unfold pipe_pop. destruct (ring_get _ _ _ _). cbn [fst]. split; [apply sched_only_fds, sched_only_wake_opt|done].
  - unfold pipe_write. case_if; [done|]. case_if; [cbn [fst]; split; [apply block_current_fds|done]|].
    cbv zeta. unfold pipe_push. destruct (ring_put _ _ _ _). cbn [fst]. split; [apply sched_only_fds, sched_only_wake_opt|done].
Qed.

Lemma io_safe k q op : refs_safe k -> pipe_io op -> refs_safe (with_pipe q op k).
Proof.
  intros Hs Hop. unfold with_pipe. destruct (pipes k !! q) as [p|] eqn:Hq; [|done].
  pose proof (pipe_io_counts op p (ks k) Hop) as Hc. destruct (op p (ks k)) as [p' s']. destruct Hc as (E1 & E2 & E3).
  destruct Hs as [R1 R2 R3].
  assert (refs_safe (on_sched (fun _ => s') k)) as [T1 T2 T3] by by apply (refs_safe_same k).
  constructor; [exact T1| |].
  - intros a b. cbn [pipes upd]. rewrite lookup_insert_Some. intros [[<- <-]|[_ Hb]]; [|by apply T2].
    rewrite E2, E3. by apply (T2 q p).
  - intros i x j f Hx Hf Hpf. apply lookup_insert_is_Some'. right. by eapply T3.
Qed.

Lemma wait_for_safe c q k : refs_safe k -> refs_safe (process_wait_for c q k).1 /\ refs_safe (wait_resumed c q k).1.
Proof.
  intros Hs. unfold process_wait_for, wait_resumed.
  destruct (find_zombie _ _ _) as [z|].
  - destruct (reap_same z k) as [E1 E2]. destruct (reap z k) as [[k1 ?] ?]. split; by apply (refs_safe_same k).
  - split; [|done]. case_if; [done|]. cbn [fst]. apply (refs_safe_same k); [done| |done].
    rewrite ks_on_sched. etransitivity; [|apply sched_only_fds, sched_only_schedule]. by apply same_fds_upd.
Qed.

Lemma waitpid_safe c q ptr k : refs_safe k -> refs_safe (sys_waitpid c q ptr k).1.
Proof.
  intros Hs. unfold sys_waitpid. case_if; [done|]. case_if; [|by apply wait_for_safe].
  destruct (process_get_by_pid _ _); [|done]. case_if; [by apply wait_for_safe|done].
Qed.

Lemma create_safe nm entry k : refs_safe k -> refs_safe (process_create nm entry k).1.
Proof.
  intros Hs. unfold process_create. destruct (find_index unused (procs (ks k))) as [i|] eqn:Hi; [|done].
  destruct (new_kernel_stack_same k) as (N1 & N2 & _). destruct (new_kernel_stack k) as [k1 guard]. cbn [fst] in N1, N2.
  assert (refs_safe k1) as Hs1 by by apply (refs_safe_upd k). case_if; [done|]. cbn [fst].
  rewrite <- N1 in Hi. destruct (find_index_Some _ _ _ Hi) as (p & Hp & _).
  set (p' := process_setup p (next_pid k1) nm guard entry).
  apply (refs_safe_upd (on_sched (fun s => s <| procs ::= <[i := p']> |>) k1)); [|unfold on_proc|done].
  - apply (set_slot_safe _ _ p); [done|done|done|]. intros f Hf. change (fd_table p') with console_fds in Hf.
    apply elem_of_app in Hf as [[-> _]%elem_of_replicate|[-> _]%elem_of_replicate]; done.
  - rewrite !ks_on_sched. exact (set_proc_at i (fun p => process_setup p (next_pid k1) nm guard entry) p _ Hp).
Qed.

Lemma file_step_safe k k' : file_step k k' -> refs_safe k -> refs_safe k'.
Proof.
  intros Hst Hs. destruct Hst as [k c fd Hc|k c ptr Hc|k c a b Hc|k c st Hc|k c tramp f Hc Hr| | | | |].
  - by apply close_safe; [|apply live_lt|].
  - by apply pipe_safe; [|apply live_lt|].
  - by apply dup2_safe; [| |apply live_lt| |].
  - by apply exit_safe, live_lt.
  - destruct Hc as (par & Hp & Hu). pose proof (fork_cases tramp c f k par Hs Hr Hp Hu) as HF.
    destruct (syscall_fork tramp c f k). apply HF.
  - by apply waitpid_safe.
  - by apply wait_for_safe.
  - by apply create_safe.
  - by apply io_safe.
  - by apply (refs_safe_same k).
Qed.

Lemma file_steps_safe k k' : rtc file_step k k' -> refs_safe k -> refs_safe k'.
Proof. induction 1; [done|]. intros Hs. eauto using file_step_safe. Qed.

Lemma refs_pos t i p j f ty : t !! i = Some p -> fd_table p !! j = Some f -> fd_type f = ty -> 0 < refs t ty (fd_data f).
Proof.
  revert i. induction t as [|p0 t IH]; intros [|i] Hp Hf Hty; try done; cbn in Hp; unfold refs; cbn [foldr].
  - injection Hp as ->. pose proof (refs_nonneg t ty (fd_data f)) as H1. unfold refs in H1.
    assert (countb (is_end ty (fd_data f)) (fd_table p) <> 0).
    { intros E. apply (proj1 (countb_zero _ _)) with (j := j) (x := f) in E; [|done].
      unfold is_end in E. rewrite Hty, !Z.eqb_refl in E. done. }
    pose proof (countb_bounds (is_end ty (fd_data f)) (fd_table p)). lia.
  - specialize (IH i Hp Hf Hty). unfold refs in IH. pose proof (countb_bounds (is_end ty (fd_data f)) (fd_table p0)). lia.
Qed.

(** C2: whatever processes do with close, pipe, dup2, fork, exit, wait and pipe
    input and output, a descriptor of a pipe refers to a pipe; while any
    descriptor for writing exists no reader of the empty pipe is told end of
    file (it sleeps), and while any descriptor for reading exists no write fails
    for lack of readers. *)
Theorem pipe_ends_counted k k' i p j f :
  refs_safe k -> rtc file_step k k' ->
  procs (ks k') !! i = Some p -> fd_table p !! j = Some f -> is_pipe_fd f = true ->
  exists pp, pipes k' !! fd_data f = Some pp /\
    (fd_type f = FD_PIPE_WRITE -> forall cnt s, count pp = 0 -> (pipe_read pp cnt s).2 = None) /\
    (fd_type f = FD_PIPE_READ -> forall buf cnt s, 0 <= count pp <= PIPE_BUF_SIZE -> 0 <= cnt ->
       (pipe_write pp buf cnt s).2 <> Some (-1)).
Proof.
  intros Hs Hr Hi Hj Hf. pose proof (file_steps_safe k k' Hr Hs) as [R1 R2 R3].
  destruct (R3 i p j f Hi Hj Hf) as [pp Hpp]. exists pp. destruct (R2 _ _ Hpp) as [C1 C2]. split; [done|]. split.
  - intros Hty cnt s E. pose proof (refs_pos _ _ _ _ _ _ Hi Hj Hty). unfold pipe_read. rewrite E. cbn.
    replace (writers pp =? 0) with false by lia. done.
  - intros Hty buf cnt s Hc Hcnt. pose proof (refs_pos _ _ _ _ _ _ Hi Hj Hty). unfold pipe_write.
    replace (readers pp =? 0) with false by lia. case_if; [done|]. cbv zeta. cbn [snd].
    unfold PIPE_BUF_SIZE in *. rewrite u32_small by lia. intros [= E]. destruct (cnt <? _); lia.
Qed.

(** ** Exit and wait *)

(** The running process [c] has a parent [q] that sleeps. *)
Record exiting (s : sched) (n : nat) (l : list nat) (c q : nat) : Prop := mk_exiting {
  ex_inv : sched_inv s (n :: l);
  ex_cur : current_process s = Some c;
  ex_run : state (proc_at s c) = PROCESS_RUNNING;
  ex_uniq : pids_unique (procs s);
  ex_q : (q < length (procs s))%nat;
  ex_blocked : state (proc_at s q) = PROCESS_BLOCKED;
  ex_parent : pid (proc_at s q) = ppid (proc_at s c)
}.

(** A descriptor exit must close. *)
Definition is_open (f : process_fd) : bool := is_pipe_fd f || (fd_type f =? FD_SOCKET).

(** What a child takes over from its parent. *)
Record inherits (par ch : process) : Prop := mk_inherits {
  in_fds : fd_table ch = fd_table par;
  in_uid : uid ch = uid par; in_gid : gid ch = gid par;
  in_euid : euid ch = euid par; in_egid : egid ch = egid par;
  in_handlers : sig_handlers ch = sig_handlers par; in_pending : sig_pending ch = 0;
  in_vmas : vmas ch = vmas par; in_mmap : mmap_next ch = mmap_next par;
  in_brk : brk_start ch = brk_start par /\ brk_current ch = brk_current par
}.

(** Nothing but the state and the queue link differ. *)
Definition but_sched (p p' : process) : Prop := p' = p <| state := state p' |> <| next := next p' |>.

(** The control block of [j] after the exit of [c], child of [q]. *)
Definition after_exit (s : sched) (c q : nat) (arg1 : Z) (j : nat) : process :=
  let p := proc_at s j in
  let p := if decide (j = c) then p <| exit_code := s32 arg1 |> else p in
  let p := if decide (j = q) then p <| sig_pending ::= fun m => Z.lor m (Z.shiftl 1 SIGCHLD) |> else p in
  if (ppid (proc_at s j) =? pid (proc_at s c)) && negb (unused (proc_at s j))
     && negb (is_state (state (proc_at s j)) PROCESS_TERMINATED) then p <| ppid := 1 |> else p.

Lemma but_sched_refl p : but_sched p p.
Proof. by destruct p. Qed.

Lemma sched_only_but t t' j : sched_only t t' -> (j < length t)%nat -> but_sched (t !!! j) (t' !!! j).
Proof. intros Hs Hj. by apply sched_only_at. Qed.

Lemma but_sched_trans p1 p2 p3 : but_sched p1 p2 -> but_sched p2 p3 -> but_sched p1 p3.
Proof. unfold but_sched. intros E1 E2. rewrite E2, E1. by destruct p1. Qed.

Lemma get_by_pid_at s j : pids_unique (procs s) -> (j < length (procs s))%nat -> unused (proc_at s j) = false ->
  process_get_by_pid (procs s) (pid (proc_at s j)) = Some j.
Proof.
  intros U Hj Hu. unfold proc_at in *. destruct (lookup_lt_is_Some_2 _ _ Hj) as [p Hp].
  rewrite (list_lookup_total_correct _ _ _ Hp) in *. by apply process_get_by_pid_unique.
Qed.

(** Pids and liveness decide the search by pid. *)
Lemma get_by_pid_ext t t' q : length t' = length t ->
  (forall j, (j < length t)%nat -> unused (t' !!! j) = unused (t !!! j) /\ pid (t' !!! j) = pid (t !!! j)) ->
  process_get_by_pid t' q = process_get_by_pid t q.
Proof.
  revert t'. induction t as [|p t IH]; intros [|p' t'] Hl Ht; try done. unfold process_get_by_pid in *. cbn [find_index].
  destruct (Ht 0%nat ltac:(cbn; lia)) as [E1 E2]. cbn in E1, E2. rewrite E1, E2.
  rewrite (IH t'); [done|by injection Hl|]. intros j Hj. apply (Ht (Datatypes.S j)). cbn. lia.
Qed.

Lemma proc_at_set s i g j : (j < length (procs s))%nat ->
  proc_at (set_proc i g s) j = if decide (i = j) then g (proc_at s j) else proc_at s j.
Proof.
  intros Hj. destruct (decide (i = j)) as [->|Hne]; [by apply proc_at_set_proc|].
  unfold proc_at. cbn. rewrite !list_lookup_total_alt, lookup_upd_proc, decide_False by done. done.
Qed.

Lemma reparent_at q t j : (j < length t)%nat ->
  reparent q t !!! j = (fun p => if (ppid p =? q) && negb (unused p) && negb (is_state (state p) PROCESS_TERMINATED)
                                 then p <| ppid := 1 |> else p) (t !!! j).
Proof.
  intros [p Hp]%lookup_lt_is_Some_2. rewrite (list_lookup_total_correct _ _ _ Hp).
  apply list_lookup_total_correct. unfold reparent. by rewrite list_lookup_fmap, Hp.
Qed.

Lemma reparent_inv s l q : sched_inv s l -> sched_inv (s <| procs ::= reparent q |>) l.
Proof.
  intros [(Hc & Ht & Hn) Hr Hcur]. constructor.
  - split_and!; [|done|done]. cbn. eapply chain_ext; [|exact Hc]. intros i _. unfold reparent.
    rewrite list_lookup_fmap. destruct (procs s !! i); [|done]. cbn. by case_if.
  - intros i p Hi. cbn. unfold reparent. rewrite list_lookup_fmap. destruct (procs s !! i) as [p0|] eqn:E; [|done].
    intros [= <-]. specialize (Hr i p0 Hi E). by case_if.
  - intros c. cbn. unfold reparent. rewrite length_fmap. apply Hcur.
Qed.

Section exiting.
Context (s : sched) (n : nat) (l : list nat) (c q : nat) (X : exiting s n l c q).

Lemma exiting_ne : q <> c.
Proof. intros ->. pose proof (ex_blocked _ _ _ _ _ X) as E. by rewrite (ex_run _ _ _ _ _ X) in E. Qed.

Lemma exiting_c : (c ∉ n :: l) /\ (c < length (procs s))%nat.
Proof. destruct X. by apply (inv_current _ _ ex_inv0). Qed.

Lemma exiting_pid : pid (proc_at s c) <> ppid (proc_at s c).
Proof.
  intros E. destruct exiting_c as [_ Hc]. pose proof exiting_ne as Hne. destruct X as [_ _ Hr U Hq Hb Hp].
  pose proof (get_by_pid_at s c U Hc) as E1. pose proof (get_by_pid_at s q U Hq) as E2. unfold unused in *.
  rewrite Hr in E1. rewrite Hb in E2. specialize (E1 eq_refl). specialize (E2 eq_refl). congruence.
Qed.

Context (arg1 : Z).

(** The states exit goes through: zombie, signalled and woken parent, children
    handed over. *)
Let s1 := set_proc c (fun p => p <| state := PROCESS_ZOMBIE |> <| exit_code := s32 arg1 |>) s.
Let s1' := set_proc q (fun p => p <| sig_pending ::= fun m => Z.lor m (Z.shiftl 1 SIGCHLD) |>) s1.
Let s2 := wake q s1'.
Let s3 := s2 <| procs ::= reparent (pid (proc_at s c)) |>.

Lemma exiting_lengths : length (procs s1') = length (procs s) /\ length (procs s2) = length (procs s) /\
  length (procs s3) = length (procs s).
Proof.
  assert (length (procs s1') = length (procs s)) as E1 by (unfold s1', s1; cbn; by rewrite !length_upd_proc).
  assert (length (procs s2) = length (procs s)) as E2 by (rewrite <- E1; apply sched_only_wake).
  split_and!; [done|done|]. unfold s3. cbn. unfold reparent. by rewrite length_fmap.
Qed.

Lemma s1'_at j : (j < length (procs s))%nat -> proc_at s1' j =
  (let p := proc_at s j in
   let p := if decide (j = c) then p <| state := PROCESS_ZOMBIE |> <| exit_code := s32 arg1 |> else p in
   if decide (j = q) then p <| sig_pending ::= fun m => Z.lor m (Z.shiftl 1 SIGCHLD) |> else p).
Proof.
  intros Hj. unfold s1'. rewrite proc_at_set by (unfold s1; cbn; by rewrite length_upd_proc).
  unfold s1. rewrite proc_at_set by done. repeat case_decide; congruence.
Qed.

Lemma s2_at j : (j < length (procs s))%nat -> but_sched (proc_at s1' j) (proc_at s2 j) /\
  state (proc_at s2 j) = if decide (q = j) then PROCESS_READY else state (proc_at s1' j).
Proof.
  intros Hj. destruct exiting_lengths as (E1 & _). split; [apply sched_only_but; [apply sched_only_wake|by rewrite E1]|].
  unfold s2. apply wake_state. by rewrite E1.
Qed.

Lemma s3_at j : (j < length (procs s))%nat -> but_sched (after_exit s c q arg1 j) (proc_at s3 j) /\
  state (proc_at s3 j) = if decide (j = q) then PROCESS_READY
                         else if decide (j = c) then PROCESS_ZOMBIE else state (proc_at s j).
Proof.
  intros Hj. destruct exiting_lengths as (_ & E2 & _). destruct (s2_at j Hj) as [B2 St2].
  pose proof (s1'_at j Hj) as A1. pose proof exiting_ne as Hne. destruct X as [_ _ Hr _ _ Hb _].
  unfold s3, proc_at at 1 3. cbn [procs upd]. rewrite reparent_at by (by rewrite E2).
  change (procs s2 !!! j) with (proc_at s2 j). cbv beta.
  assert (ppid (proc_at s2 j) = ppid (proc_at s j)) as P2 by (rewrite B2, A1; cbn; repeat case_decide; done).
  assert (unused (proc_at s2 j) = unused (proc_at s j) /\
    is_state (state (proc_at s2 j)) PROCESS_TERMINATED = is_state (state (proc_at s j)) PROCESS_TERMINATED) as [U2 T2].
  { unfold unused. rewrite St2, A1. repeat case_decide; subst; try congruence; cbn; rewrite ?Hb, ?Hr; done. }
  rewrite P2, U2, T2. unfold after_exit, but_sched.
  assert (state (proc_at s2 j) = if decide (j = q) then PROCESS_READY
                         else if decide (j = c) then PROCESS_ZOMBIE else state (proc_at s j)) as St3
    by (rewrite St2, A1; repeat case_decide; (done || congruence)).
  rewrite A1 in B2. unfold but_sched in B2. split; [|by case_if].
  case_if; rewrite B2; repeat case_decide; try congruence; by destruct (proc_at s j).
Qed.

Lemma after_exit_pid j : pid (after_exit s c q arg1 j) = pid (proc_at s j).
Proof. unfold after_exit. destruct (_ && _), (decide (j = c)), (decide (j = q)); done. Qed.

Lemma after_exit_child : q <> c -> exit_code (after_exit s c q arg1 c) = s32 arg1 /\ cr3 (after_exit s c q arg1 c) = cr3 (proc_at s c).
Proof.
  intros Hne. unfold after_exit. rewrite (decide_True (P := c = c)), (decide_False (P := c = q)) by congruence.
  by destruct (_ && _).
Qed.

Lemma after_exit_parent : Z.testbit (sig_pending (after_exit s c q arg1 q)) SIGCHLD = true.
Proof.
  unfold after_exit. rewrite (decide_True (P := q = q)) by done.
  destruct (_ && _); cbn [sig_pending upd]; rewrite Z.lor_spec; apply orb_true_r.
Qed.

Lemma after_exit_orphan j : let p := proc_at s j in
  ppid p = pid (proc_at s c) -> unused p = false -> state p <> PROCESS_TERMINATED -> ppid (after_exit s c q arg1 j) = 1.
Proof.
  intros p Hp Hu Ht. unfold after_exit. fold p. rewrite Hp, Z.eqb_refl, Hu.
  replace (is_state (state p) PROCESS_TERMINATED) with false; [done|]. symmetry. by apply bool_decide_eq_false.
Qed.

(** Pids and liveness are those of [s] all the way. *)
Lemma s3_pids j : (j < length (procs s))%nat ->
  pid (proc_at s3 j) = pid (proc_at s j) /\ unused (proc_at s3 j) = unused (proc_at s j).
Proof.
  intros Hj. destruct (s3_at j Hj) as [B St]. split.
  - rewrite B. cbn [pid upd]. apply after_exit_pid.
  - unfold unused. rewrite St. destruct X as [_ _ Hr _ _ Hb _].
    repeat case_decide; subst; rewrite ?Hr, ?Hb; done.
Qed.

Lemma after_exit_ppid j : ppid (proc_at s j) <> pid (proc_at s c) -> ppid (after_exit s c q arg1 j) = ppid (proc_at s j).
Proof. intros Hne. unfold after_exit. replace (_ =? _) with false by lia. repeat case_decide; done. Qed.

Lemma exit_signal : signal_send (ppid (proc_at s1 c)) SIGCHLD s1 = s2.
Proof.
  destruct exiting_c as [_ Hc]. pose proof exiting_ne as Hne. pose proof X as [_ _ Hr U Hq Hb Hp].
  assert (ppid (proc_at s1 c) = pid (proc_at s q)) as -> by (unfold s1; rewrite proc_at_set_proc by done; by rewrite Hp).
  assert (length (procs s1) = length (procs s)) as L1 by (unfold s1; cbn; by rewrite length_upd_proc).
  assert (process_get_by_pid (procs s1) (pid (proc_at s q)) = Some q) as Hg.
  { rewrite (get_by_pid_ext (procs s)); [|done|].
    - apply get_by_pid_at; [done|done|]. unfold unused. by rewrite Hb.
    - intros j Hj. change (procs s1 !!! j) with (proc_at s1 j). unfold s1. rewrite proc_at_set by done.
      case_decide; subst; [|done]. split; [|done]. unfold unused. cbn. change (procs s !!! j) with (proc_at s j). by rewrite Hr. }
  assert (proc_at s1 q = proc_at s q) as Eq by (unfold s1; by rewrite proc_at_set, decide_False by done).
  unfold signal_send. cbn [orb Z.ltb Z.leb]. rewrite Hg, Eq, Hb. cbn [is_state bool_decide orb].
  cbv zeta. rewrite proc_at_set, decide_True, Eq by (done || by rewrite L1). cbn [state upd]. rewrite Hb. done.
Qed.

Lemma exit_rest_final : exit_rest c arg1 s = schedule s3.
Proof.
  destruct exiting_c as [_ Hc]. pose proof exiting_ne as Hne. pose proof exiting_pid as Hpid.
  unfold exit_rest. fold s1. cbv zeta. rewrite exit_signal.
  destruct (s2_at c Hc) as [B2 _]. pose proof (s1'_at c Hc) as A1. cbv zeta in A1. rewrite (decide_False (P := c = q)), (decide_True (P := c = c)) in A1 by congruence.
  assert (pid (proc_at s2 c) = pid (proc_at s c)) as -> by (rewrite B2, A1; done). fold s3.
  destruct (s3_at c Hc) as [B3 _]. destruct exiting_lengths as (_ & _ & L3). pose proof X as [_ _ _ U Hq Hb Hp].
  assert (ppid (proc_at s3 c) = pid (proc_at s q)) as Ep.
  { rewrite B3, Hp. cbn. rewrite after_exit_ppid by congruence. done. }
  f_equal. unfold wake_waiting_parent. rewrite Ep.
  rewrite (get_by_pid_ext (procs s)), get_by_pid_at; [|done|done|unfold unused; by rewrite Hb|done|].
  - destruct (s3_at q Hq) as [_ ->]. by rewrite decide_True.
  - intros j Hj. destruct (s3_pids j Hj). done.
Qed.

Lemma s3_inv : sched_inv s3 (n :: l ++ [q]).
Proof.
  destruct exiting_c as [Hcl Hc]. pose proof exiting_ne as Hne. pose proof X as [Hinv Hcur Hr U Hq Hb Hp].
  assert (q ∉ n :: l) as Hql by (eapply inv_not_queued; [done|done|by rewrite Hb]).
  destruct exiting_lengths as (L1 & L2 & L3).
  apply reparent_inv, (wake_inv _ (n :: l)); [by apply inv_set_proc, inv_set_proc|by rewrite L1| |].
  - rewrite s1'_at by done. cbv zeta. rewrite (decide_False (P := q = c)) by done. by destruct (decide (q = q)).
  - change (current_process s1') with (current_process s). congruence.
Qed.

Lemma s3_zombie : state (proc_at s3 c) = PROCESS_ZOMBIE.
Proof.
  destruct exiting_c as [_ Hc]. pose proof exiting_ne as Hne. destruct (s3_at c Hc) as [_ ->].
  rewrite (decide_False (P := c = q)), (decide_True (P := c = c)) by congruence. done.
Qed.

Lemma exit_rest_sched : sched_inv (exit_rest c arg1 s) (l ++ [q]) /\ current_process (exit_rest c arg1 s) = Some n.
Proof.
  rewrite exit_rest_final. destruct (schedule_inv _ _ _ s3_inv) as (I4 & C4 & _). split; [|done].
  replace (requeued s3) with (@nil nat) in I4; [by rewrite app_nil_r in I4|].
  unfold requeued. assert (current_process s3 = Some c) as -> 
    by (unfold s3, s2, wake; cbn; rewrite current_scheduler_add; apply X).
  by rewrite s3_zombie.
Qed.

(** Each control block after exit. *)
Lemma exit_rest_at j : (j < length (procs s))%nat ->
  but_sched (after_exit s c q arg1 j) (proc_at (exit_rest c arg1 s) j).
Proof.
  intros Hj. rewrite exit_rest_final. destruct exiting_lengths as (_ & _ & L3).
  eapply but_sched_trans; [apply s3_at; done|]. apply sched_only_but; [apply sched_only_schedule|by rewrite L3].
Qed.

Lemma exit_rest_zombie : state (proc_at (exit_rest c arg1 s) c) = PROCESS_ZOMBIE.
Proof.
  rewrite exit_rest_final. destruct exiting_c as [Hcl Hc]. pose proof exiting_ne as Hne.
  destruct exiting_lengths as (_ & _ & L3).
  rewrite (schedule_state_idle _ (n :: l ++ [q])); [apply s3_zombie|apply s3_inv|set_solver|by rewrite L3|by rewrite s3_zombie].
Qed.

(** A child other than [c] is found by its pid with the state it had. *)
Lemma exit_rest_get j : (j < length (procs s))%nat -> unused (proc_at s j) = false ->
  length (procs (exit_rest c arg1 s)) = length (procs s) /\
  process_get_by_pid (procs (exit_rest c arg1 s)) (pid (proc_at s j)) = Some j.
Proof.
  intros Hj Hu. pose proof X as [_ _ _ U _ _ _]. destruct exiting_lengths as (_ & _ & L3).
  assert (length (procs (exit_rest c arg1 s)) = length (procs s)) as L4
    by (rewrite exit_rest_final, <- L3; apply sched_only_schedule).
  split; [done|]. rewrite (get_by_pid_ext (procs s)); [by apply get_by_pid_at|done|].
  intros i Hi. destruct (s3_pids i Hi) as [E1 E2].
  pose proof (sched_only_but _ _ i (sched_only_schedule s3) ltac:(by rewrite L3)) as B.
  change (procs s !!! i) with (proc_at s i). rewrite <- E1, <- E2, exit_rest_final. split; [|by rewrite B].
  apply (schedule_unused _ n (l ++ [q])); [apply s3_inv|by rewrite L3].
Qed.

(** The zombie as the parent finds it. *)
Lemma exit_rest_child : let z := proc_at (exit_rest c arg1 s) c in
  state z = PROCESS_ZOMBIE /\ exit_code z = s32 arg1 /\ pid z = pid (proc_at s c) /\
  ppid z = ppid (proc_at s c) /\ cr3 z = cr3 (proc_at s c).
Proof.
  destruct exiting_c as [_ Hc]. destruct (after_exit_child exiting_ne) as [A1 A2].
  split; [apply exit_rest_zombie|]. rewrite (exit_rest_at c Hc). cbn [exit_code pid ppid cr3 upd].
  split_and!; [done|apply after_exit_pid| |done]. apply after_exit_ppid. intros E. exact (exiting_pid (eq_sym E)).
Qed.

Lemma exit_rest_others : Z.testbit (sig_pending (proc_at (exit_rest c arg1 s) q)) SIGCHLD = true /\
  pid (proc_at (exit_rest c arg1 s) q) = pid (proc_at s q) /\
  forall j, (j < length (procs s))%nat -> let p := proc_at s j in
    ppid p = pid (proc_at s c) -> unused p = false -> state p <> PROCESS_TERMINATED ->
    ppid (proc_at (exit_rest c arg1 s) j) = 1.
Proof.
  split_and!.
  - rewrite (exit_rest_at q (ex_q _ _ _ _ _ X)). apply after_exit_parent.
  - rewrite (exit_rest_at q (ex_q _ _ _ _ _ X)). apply after_exit_pid.
  - intros j Hj p Hp Hu Ht. rewrite (exit_rest_at j Hj). by apply after_exit_orphan.
Qed.

(** The parent's search for the zombie by its pid. *)
Lemma exit_rest_find : pid (proc_at s c) <> 0 ->
  find_zombie (procs (exit_rest c arg1 s)) (pid (proc_at s q)) (pid (proc_at s c)) = Some c.
Proof.
  intros Hz. destruct exiting_c as [_ Hc]. destruct exit_rest_child as (Z1 & _ & _ & Z4 & _).
  unfold find_zombie. replace (pid (proc_at s c) =? 0) with false by lia.
  destruct (exit_rest_get c Hc) as [_ ->]; [unfold unused; by rewrite (ex_run _ _ _ _ _ X)|].
  change (procs (exit_rest c arg1 s) !!! c) with (proc_at (exit_rest c arg1 s) c).
  by rewrite Z1, Z4, (ex_parent _ _ _ _ _ X), Z.eqb_refl.
Qed.

(** A search for another child that has not exited. *)
Lemma exit_rest_other a : (a < length (procs s))%nat -> unused (proc_at s a) = false ->
  a <> c -> state (proc_at s a) <> PROCESS_ZOMBIE -> pid (proc_at s a) <> 0 ->
  find_zombie (procs (exit_rest c arg1 s)) (pid (proc_at s q)) (pid (proc_at s a)) = None.
Proof.
  intros Ha Hu Hne Hst Hz. unfold find_zombie. replace (pid (proc_at s a) =? 0) with false by lia.
  destruct (exit_rest_get a Ha Hu) as [_ ->]. 
  change (procs (exit_rest c arg1 s) !!! a) with (proc_at (exit_rest c arg1 s) a).
  destruct (_ && is_state (state (proc_at (exit_rest c arg1 s) a)) _) eqn:E; [|done]. 
  apply andb_true_iff in E as [_ E]. apply bool_decide_eq_true in E. exfalso.
  rewrite exit_rest_final in E. destruct exiting_lengths as (_ & _ & L3). rewrite <- L3 in Ha.
  assert (length (procs (schedule s3)) = length (procs s3)) as L4 by apply sched_only_schedule.
  destruct (lookup_lt_is_Some_2 (procs (schedule s3)) a) as [p Hp]; [by rewrite L4|].
  destruct (schedule_states s3 n (l ++ [q]) a p (inv_queue _ _ s3_inv) Hp) as (p0 & Hp0 & E').
  unfold proc_at in E. rewrite (list_lookup_total_correct _ _ _ Hp) in E. rewrite E in E'.
  rewrite L3 in Ha. destruct (s3_at a Ha) as [_ S3]. unfold proc_at in S3 at 1. rewrite (list_lookup_total_correct _ _ _ Hp0) in S3.
  rewrite S3 in E'. repeat case_decide; congruence.
Qed.
End exiting.

(** ** Exit closes pipes and sockets *)

Lemma fd_at_same k k1 c fd : same_fds (procs (ks k)) (procs (ks k1)) -> fd_at k1 c fd = fd_at k c fd.
Proof.
  intros E. unfold fd_at, cproc, proc_at. f_equal. apply (f_equal (fun l => l !! c)) in E.
  rewrite !list_lookup_fmap in E. rewrite !list_lookup_total_alt.
  destruct (procs (ks k1) !! c), (procs (ks k) !! c); try done. cbn in *. congruence.
Qed.

Lemma exit_fd_at c i k j : refs_safe k -> (c < length (procs (ks k)))%nat -> (i < 32)%nat -> (j < 32)%nat ->
  let f := fd_at k c (Z.of_nat j) in
  fd_at (exit_fd c i k) c (Z.of_nat j) = if decide (j = i) then (if is_open f then f <| fd_type := FD_NONE |> else f) else f.
Proof.
  intros Hs Hc Hi Hj f. pose proof (close_end_minus (fd_at k c (Z.of_nat i)) k) as (M1 & _).
  assert (forall k1, same_fds (procs (ks k)) (procs (ks k1)) ->
    fd_at (on_fd c (Z.of_nat i) (fun f => f <| fd_type := FD_NONE |>) k1) c (Z.of_nat j)
    = if decide (j = i) then f <| fd_type := FD_NONE |> else f) as H1.
  { intros k1 E. rewrite fd_at_on_fd; [|by rewrite (same_fds_length _ _ E)|lia|lia|].
    - unfold f. rewrite (fd_at_same k k1) by done. repeat case_decide; (done || lia).
    - intros a p Hp. destruct (same_fds_lookup _ _ _ _ E Hp) as (p0 & Hp0 & <-). by eapply rs_len. }
  unfold exit_fd, is_open, is_pipe_fd. case_if; [|case_if].
  - rewrite H1 by done. case_decide; [|done]. subst j. fold f in Heqb. by rewrite Heqb.
  - rewrite H1 by apply on_net_close. case_decide; [|done]. subst j. fold f in Heqb, Heqb0. by rewrite Heqb, Heqb0.
  - case_decide; [|done]. subst j. fold f in Heqb, Heqb0. by rewrite Heqb, Heqb0.
Qed.

Lemma exit_fds_closed c k j : refs_safe k -> (c < length (procs (ks k)))%nat -> (j < 32)%nat ->
  is_open (fd_at (exit_fds c k) c (Z.of_nat j)) = false.
Proof.
  intros Hs Hc Hj.
  pose proof (for_loop_inv (fun i k1 => (refs_safe k1 /\ length (procs (ks k1)) = length (procs (ks k))) /\
    forall j, (j < i)%nat -> (j < 32)%nat -> is_open (fd_at k1 c (Z.of_nat j)) = false) PROCESS_MAX_FDS 0 (exit_fd c) k) as H1.
  destruct H1 as [_ H1].
  - split; [done|]. lia.
  - intros i k1 Hi [[Hs1 L1] Hcl]. unfold PROCESS_MAX_FDS in Hi.
    assert (c < length (procs (ks k1)))%nat as Hc1 by (by rewrite L1).
    split; [rewrite <- L1; apply exit_fd_safe; (done || lia)|].
    intros m Hm Hm32. rewrite exit_fd_at by (done || lia). case_decide.
    + subst m. destruct (is_open (fd_at k1 c (Z.of_nat i))) eqn:E; done.
    + apply Hcl; lia.
  - apply H1; [|done]. unfold PROCESS_MAX_FDS. lia.
Qed.

Lemma exit_space_at c k : (c < length (procs (ks k)))%nat -> cr3 (cproc (exit_space c k) c) = 0.
Proof.
  intros Hc. unfold exit_space. cbv zeta. destruct (Z.eqb_spec (cr3 (cproc k c)) 0) as [|Hne]; [done|].
  unfold cproc, ks. cbn [mm upd]. rewrite sc_user_vm_destroy.
  change (cr3 (proc_at (set_proc c (fun p => p <| cr3 := 0 |>) (ks k)) c) = 0). by rewrite proc_at_set_proc.
Qed.

(** The state exit has reached when it marks the process a zombie. *)
Definition closing (c : nat) (k : kern S) : sched := ks (exit_space c (exit_fds c k)).

Lemma ks_exit c arg1 k : ks (syscall_exit c arg1 k) = exit_rest c arg1 (closing c k).
Proof. apply exit_rest_eq. Qed.

Lemma exit_child k n l c q arg1 : exiting (closing c k) n l c q ->
  let z := cproc (syscall_exit c arg1 k) c in
  state z = PROCESS_ZOMBIE /\ exit_code z = s32 arg1 /\ pid z = pid (proc_at (closing c k) c) /\
  ppid z = ppid (proc_at (closing c k) c) /\ cr3 z = cr3 (proc_at (closing c k) c).
Proof. unfold cproc. rewrite ks_exit. generalize (closing c k). intros s X. exact (exit_rest_child s n l c q X arg1). Qed.

#[local] Opaque exit_fds exit_space.

(** Exit closes every pipe and socket of the process, gives up its address
    space, leaves a zombie with the status, marks SIGCHLD pending for the parent,
    hands live children to process 1, and switches to the next process with the
    parent, which slept, at the tail of the queue. *)
Theorem exit_correct k n l c q arg1 :
  refs_safe k -> (c < length (procs (ks k)))%nat -> exiting (closing c k) n l c q ->
  let k' := syscall_exit c arg1 k in
  (forall j, (j < 32)%nat -> is_open (fd_at k' c (Z.of_nat j)) = false) /\
  state (cproc k' c) = PROCESS_ZOMBIE /\ exit_code (cproc k' c) = s32 arg1 /\ cr3 (cproc k' c) = 0 /\
  Z.testbit (sig_pending (cproc k' q)) SIGCHLD = true /\
  (forall j, (j < length (procs (closing c k)))%nat -> let p := proc_at (closing c k) j in
     ppid p = pid (proc_at (closing c k) c) -> unused p = false -> state p <> PROCESS_TERMINATED ->
     ppid (cproc k' j) = 1) /\
  sched_inv (ks k') (l ++ [q]) /\ current_process (ks k') = Some n.
Proof.
  intros Hs Hc X k'. destruct (exit_child k n l c q arg1 X) as (Z1 & Z2 & Z3 & Z4 & Z5). fold k' in Z1, Z2, Z5.
  destruct (exit_fds_safe c k Hs Hc) as [_ L1]. destruct (exit_rest_others _ _ _ _ _ X arg1) as (O1 & _ & O3).
  destruct (exit_rest_sched _ _ _ _ _ X arg1) as [I1 I2].
  unfold k', cproc in *. rewrite ks_exit in *. split_and!; [|done|done| |done|exact O3|done|done].
  - intros j Hj. rewrite (fd_at_same (exit_fds c k)) by apply exit_tail. by apply exit_fds_closed.
  - rewrite Z5. apply exit_space_at. by rewrite L1.
Qed.

Lemma reap_result z k : (z < length (procs (ks k)))%nat -> let '(k', q, st) := reap z k in
  q = pid (cproc k z) /\ st = exit_code (cproc k z) /\ state (cproc k' z) = PROCESS_UNUSED.
Proof.
  intros Hz. unfold reap. cbv zeta. split; [done|]. split; [done|].
  set (k1 := if kernel_stack_guard (cproc k z) =? 0 then _ else _).
  unfold cproc, on_proc. rewrite ks_on_sched, proc_at_set_proc; [done|]. unfold k1. case_if; [done|].
  unfold on_proc. rewrite ks_on_sched. cbn [procs upd set_proc]. unfold set_proc. cbn [procs upd]. rewrite length_upd_proc.
  by destruct (free_kernel_stack_same (kernel_stack_guard (cproc k z)) k) as [-> _].
Qed.

(** C19: the status a process gives to exit is the status its parent, asleep in
    waitpid for it, gets when it runs again, together with the pid; the slot is
    free afterwards. *)
Theorem exit_wait_roundtrip k n l c q arg1 :
  exiting (closing c k) n l c q -> 0 < pid (proc_at (closing c k) c) < 2 ^ 31 ->
  let k' := syscall_exit c arg1 k in let child := pid (proc_at (closing c k) c) in
  let '(k'', r) := wait_resumed q child k' in
  r = (child, Some (s32 arg1)) /\ state (cproc k'' c) = PROCESS_UNUSED.
Proof.
  intros X Hpid k' child. destruct (exit_child k n l c q arg1 X) as (_ & Z2 & Z3 & _).
  pose proof (exit_rest_find _ _ _ _ _ X arg1 ltac:(lia)) as HF. destruct (exit_rest_others _ _ _ _ _ X arg1) as (_ & O2 & _).
  destruct (exiting_c _ _ _ _ _ X) as [_ Hc]. destruct (exit_rest_get _ _ _ _ _ X arg1 _ (ex_q _ _ _ _ _ X)) as [L1 _];
    [unfold unused; by rewrite (ex_blocked _ _ _ _ _ X)|].
  rewrite <- ks_exit, <- O2 in HF. rewrite <- ks_exit in L1. fold k' child in HF, L1, Z2, Z3.
  unfold wait_resumed.
  assert (pid (cproc k' q) = pid (proc_at (exit_rest c arg1 (closing c k)) q)) as -> by (unfold k', cproc; by rewrite ks_exit).
  rewrite HF. pose proof (reap_result c k') as HR. destruct (reap c k') as [[k'' pz] st].
  destruct HR as (-> & -> & HU); [by rewrite L1|]. rewrite Z2, Z3. split; [|done].
  by rewrite s32_small by (fold child in Hpid; lia).
Qed.

(** A parent that waits for one child is woken by the exit of another, and
    its waitpid then fails although the child it waits for is running. *)
Theorem wait_fails_on_sibling k n l c q a arg1 :
  exiting (closing c k) n l c q -> let s := closing c k in
  (a < length (procs s))%nat -> a <> c -> a <> q -> unused (proc_at s a) = false -> state (proc_at s a) <> PROCESS_ZOMBIE ->
  ppid (proc_at s a) = pid (proc_at s q) -> 0 < pid (proc_at s a) ->
  let k' := syscall_exit c arg1 k in
  sched_inv (ks k') (l ++ [q]) /\ (wait_resumed q (pid (proc_at s a)) k').2 = (-1, None).
Proof.
  intros X s Ha Hac Haq Hu Hst Hpp Hpid k'.
  assert (pid (proc_at s a) <> 0) as Hz by lia.
  pose proof (exit_rest_other _ _ _ _ _ X arg1 a Ha Hu Hac Hst Hz) as HF.
  destruct (exit_rest_others _ _ _ _ _ X arg1) as (_ & O2 & _). destruct (exit_rest_sched _ _ _ _ _ X arg1) as [I1 _].
  split; [unfold k'; by rewrite ks_exit|]. unfold wait_resumed, k', cproc, s. rewrite ks_exit, O2. by rewrite HF.
Qed.

(** ** Fork *)

Lemma but_sched_fields p p' : but_sched p p' ->
  pid p' = pid p /\ ppid p' = ppid p /\ cr3 p' = cr3 p /\ ctx p' = ctx p /\ (forall par, inherits par p -> inherits par p').
Proof.
  unfold but_sched. generalize (state p') (next p'). intros st nx ->. split_and!; try done. by intros par [].
Qed.

Lemma fork_pcb_fields par guard root tramp p0 : let ch := fork_pcb par guard root tramp p0 in
  inherits par ch /\ pid ch = pid p0 /\ ppid ch = pid par /\ state ch = PROCESS_READY /\ cr3 ch = root /\
  ctx ch = mk_context 0 0 0 0 0 0 (u64 (stack_top guard - 176)) tramp.
Proof. done. Qed.

Lemma forked_child s l c i ch par : sched_inv s l -> current_process s = Some c -> procs s !! c = Some par -> unused par = false ->
  find_index unused (procs s) = Some i ->
  let s' := scheduler_add i (s <| procs ::= <[i := ch]> |>) in
  sched_inv s' (l ++ [i]) /\ but_sched ch (proc_at s' i) /\ state (proc_at s' i) = PROCESS_READY /\
  forall j, (j < length (procs s))%nat -> j <> i -> but_sched (proc_at s j) (proc_at s' j).
Proof.
  intros Hinv Hcur Hc Hu Hi s'. destruct (find_index_Some _ _ _ Hi) as (p & Hp & Hpu & _).
  pose proof (lookup_lt_Some _ _ _ Hp) as Hlt. set (s0 := s <| procs ::= <[i := ch]> |>) in *.
  assert (i ∉ l) as Hil.
  { intros Hin. pose proof (inv_ready _ _ Hinv i p Hin Hp) as E. unfold unused in Hpu. by rewrite E in Hpu. }
  assert (i <> c) as Hic by (intros ->; congruence).
  assert (sched_inv s0 l) as I0.
  { replace s0 with (set_proc i (fun _ => ch) s) by (by apply (set_proc_at i (fun _ => ch) p)). by apply inv_set_proc. }
  assert (length (procs s0) = length (procs s)) as L0 by (apply length_insert).
  assert (forall j, (j < length (procs s))%nat -> but_sched (proc_at s0 j) (proc_at s' j)) as B
    by (intros j Hj; apply sched_only_but; [apply sched_only_add|by rewrite L0]).
  split_and!.
  - apply scheduler_add_inv; [done|done|by rewrite L0|cbn; congruence].
  - replace ch with (proc_at s0 i); [by apply B|]. apply list_lookup_total_correct. by apply list_lookup_insert_eq.
  - destruct (procs_scheduler_add s0 i) as [L1 H1]. destruct (lookup_lt_is_Some_2 (procs s') i) as [p' Hp']; [unfold s'; by rewrite L1, L0|].
    destruct (H1 i p' Hp') as (q & _ & E & _). unfold proc_at. rewrite (list_lookup_total_correct _ _ _ Hp'), E. by destruct (decide (i = i)).
  - intros j Hj Hne. replace (proc_at s j) with (proc_at s0 j); [by apply B|]. unfold proc_at, s0. cbn [procs upd].
    rewrite !list_lookup_total_alt, list_lookup_insert_ne by done. done.
Qed.


End life.
(** ** A small system

    Process 1 (pid 5) runs and holds the write end of a pipe; its parent,
    process 2 (pid 4), sleeps and holds the read end; process 3 (pid 6) is
    another child of it; process 0 is ready and slot 4 is free.  There are no
    sockets. *)

#[export] Instance no_sockets : SocketOps unit :=
  {| socket_inc_ref _ n := n; socket_close _ n s := (n, s); socket_readable _ _ := false;
     socket_writable _ _ := false; net_tick n s := (n, s) |}.

#[export] Instance no_sockets_laws : SocketLaws unit.
Proof. by split. Qed.

Definition demo_task (q pq : Z) (st : process_state) (ty : Z) : process :=
  (demo_proc q st None) <| ppid := pq |> <| fd_table ::= <[3%nat := mk_fd ty 0x100 0]> |>.

Definition demo_tasks : table :=
  [demo_task 1 0 PROCESS_READY FD_NONE; (demo_task 5 4 PROCESS_RUNNING FD_PIPE_WRITE) <| cr3 := 0x2000 |>;
   demo_task 4 1 PROCESS_BLOCKED FD_PIPE_READ; demo_task 6 4 PROCESS_BLOCKED FD_NONE; process_zero].

Definition demo_life : kern unit :=
  mk_kern ((demo_vm 0x6007 1) <| sc := mk_sched demo_tasks (Some 1%nat) (Some 0%nat) (Some 0%nat) 0 true 4096 4096 0 |>)
    {[0x100 := mk_pipe (replicate 4096 0) 0 0 0 1 1 None None]} Kheap.demo_heap [0x300000] ∅ 7 [] tt.

Lemma demo_life_refs : refs_safe demo_life.
Proof.
  assert (Forall (fun p => length (fd_table p) = PROCESS_MAX_FDS /\
    Forall (fun f => is_pipe_fd f = true -> fd_data f = 0x100) (fd_table p)) demo_tasks) as HF
    by (repeat constructor; try done; repeat constructor; try done).
  constructor.
  - intros i p Hp. by apply (Forall_lookup_1 _ _ _ _ HF Hp).
  - intros q p. change (pipes demo_life) with ({[0x100 := mk_pipe (replicate 4096 0) 0 0 0 1 1 None None]} : gmap Z pipe).
    rewrite lookup_singleton_Some. intros [<- <-]. by vm_compute.
  - intros i p j f Hp Hf Hpf. destruct (Forall_lookup_1 _ _ _ _ HF Hp) as [_ HG].
    rewrite (Forall_lookup_1 _ _ _ _ HG Hf Hpf). eexists. reflexivity.
Qed.

Lemma demo_life_room n : 0 <= n <= 32 -> refs_room n demo_life.
Proof.
  intros Hn q p. change (pipes demo_life) with ({[0x100 := mk_pipe (replicate 4096 0) 0 0 0 1 1 None None]} : gmap Z pipe).
  rewrite lookup_singleton_Some. intros [<- <-]. cbn [readers writers]. lia.
Qed.

Lemma demo_life_inv : sched_inv (ks demo_life) [0%nat].
Proof.
  constructor.
  - split_and!; [|done|by apply (bool_decide_unpack _)]. cbn. eauto.
  - intros i p ->%list_elem_of_singleton [= <-]. done.
  - intros c [= <-]. split; [set_solver|cbn; lia].
Qed.

Lemma demo_life_live : live demo_life 1.
Proof. eexists. split; [reflexivity|done]. Qed.


Definition demo_closing : table :=
  upd_proc 1 (fun p => p <| cr3 := 0 |> <| fd_table ::= <[3%nat := mk_fd FD_NONE 0x100 0]> |>) demo_tasks.

Lemma demo_closing_uniq : pids_unique demo_closing.
Proof.
  intros i j p q Hi Hj Hp Hq E.
  destruct i as [|[|[|[|[|]]]]]; try done; injection Hi as <-;
    destruct j as [|[|[|[|[|]]]]]; try done; injection Hj as <-; done.
Qed.

(** The parent of the running process sleeps while it exits. *)
Lemma demo_exiting : exiting (closing 1 demo_life) 0 [] 1 2.
Proof.
  assert (procs (closing 1 demo_life) = demo_closing) as Et by (vm_compute; reflexivity).
  assert (current_process (closing 1 demo_life) = Some 1%nat) as Ec by (vm_compute; reflexivity).
  assert (ready_queue_head (closing 1 demo_life) = Some 0%nat) as Eh by (vm_compute; reflexivity).
  assert (ready_queue_tail (closing 1 demo_life) = Some 0%nat) as El by (vm_compute; reflexivity).
  revert Et Ec Eh El. generalize (closing 1 demo_life). intros s Et Ec Eh El.
  constructor; unfold proc_at; rewrite ?Et; [|done..|apply demo_closing_uniq|cbn; lia|done|done].
  constructor.
  - unfold queue. rewrite Et, Eh, El. split_and!; [cbn; eauto|done|by apply (bool_decide_unpack _)].
  - rewrite Et. intros i p ->%list_elem_of_singleton [= <-]. done.
  - rewrite Et, Ec. intros c [= <-]. split; [set_solver|cbn; lia].
Qed.

Lemma exit_correct_witness : state (cproc (syscall_exit 1 300 demo_life) 1) = PROCESS_ZOMBIE.
Proof. apply (exit_correct demo_life 0 [] 1 2 300 demo_life_refs (live_lt _ _ demo_life_live) demo_exiting). Defined.

Lemma exit_wait_roundtrip_witness : (wait_resumed 2 5 (syscall_exit 1 300 demo_life)).2 = (5, Some 300).
Proof.
  assert (pid (proc_at (closing 1 demo_life) 1) = 5) as E by (vm_compute; reflexivity).
  pose proof (exit_wait_roundtrip demo_life 0 [] 1 2 300 demo_exiting ltac:(rewrite E; lia)) as HR. cbv zeta in HR.
  rewrite E in HR. destruct (wait_resumed 2 5 (syscall_exit 1 300 demo_life)) as [k'' r]. apply HR.
Defined.

Lemma wait_fails_on_sibling_witness : (wait_resumed 2 6 (syscall_exit 1 300 demo_life)).2 = (-1, None).
Proof.
  assert (proc_at (closing 1 demo_life) 3 = demo_task 6 4 PROCESS_BLOCKED FD_NONE) as E3 by (vm_compute; reflexivity).
  assert (proc_at (closing 1 demo_life) 2 = demo_task 4 1 PROCESS_BLOCKED FD_PIPE_READ) as E2 by (vm_compute; reflexivity).
  assert (length (procs (closing 1 demo_life)) = 5%nat) as El by (vm_compute; reflexivity).
  pose proof (wait_fails_on_sibling demo_life 0 [] 1 2 3 300 demo_exiting) as HR. cbv zeta in HR.
  rewrite E3, E2, El in HR. change (pid (demo_task 6 4 PROCESS_BLOCKED FD_NONE)) with 6 in HR.
  exact (proj2 (HR ltac:(lia) ltac:(lia) ltac:(lia) eq_refl ltac:(done) eq_refl ltac:(lia))).
Defined.

(** Close the write end in process 1 after it made a child with fork: the child
    still keeps the reader from end of file. *)
Lemma pipe_ends_counted_witness :
  exists pp, pipes (sys_close 1 3 (syscall_fork 0x1234 1 (mk_frame 0 0 0 0 0 0 0 0 0 0 0 0 0 0 57 0 0 0 0 0 0 0) demo_life).1).1
    !! 0x100 = Some pp /\ forall cnt s, count pp = 0 -> (pipe_read pp cnt s).2 = None.
Proof.
  set (fr := mk_frame 0 0 0 0 0 0 0 0 0 0 0 0 0 0 57 0 0 0 0 0 0 0). set (k1 := (syscall_fork 0x1234 1 fr demo_life).1).
  set (k2 := (sys_close 1 3 k1).1).
  assert (rtc file_step demo_life k2) as Hr.
  { eapply rtc_l; [apply (fs_fork demo_life 1 0x1234 fr demo_life_live (demo_life_room 32 ltac:(lia)))|].
    apply rtc_once, fs_close; [|lia]. apply live_at; vm_compute; reflexivity. }
  assert (procs (ks k2) !! 4%nat = Some (proc_at (ks k2) 4)) as Hp by (apply lookup_proc_at; vm_compute; reflexivity).
  assert (fd_table (proc_at (ks k2) 4) !! 3%nat = Some (mk_fd FD_PIPE_WRITE 0x100 0)) as Hf by (vm_compute; reflexivity).
  destruct (pipe_ends_counted demo_life k2 4 _ 3 _ demo_life_refs Hr Hp Hf eq_refl) as (pp & H1 & H2 & _).
  exists pp. split; [exact H1|exact (H2 eq_refl)].
Defined.

End Life.
