(* ===== verification/Calls.v ===== *)
(** * System calls on files (the cases read, write, open, lseek, rename,
    getdents, stat, mkdir, unlink, chown, chmod, gettime, ioctl, send, recv and
    sendfile of syscall/syscall.c)

    [sys] is the state of the kernel together with what descriptors lead to: the
    devices, the table of files in memory, the disk file system and kernel
    memory.  A call answers with the value left in rax.  Strings and bytes of user
    memory are arguments; bytes stored to user memory are results.  The addresses
    of devices and of nodes, kept in descriptors, are numbers from 1 on in the
    order of their tables.  Sending and receiving on a socket is behind the class
    [SocketIO]. *)

From Stdlib Require Import Ascii String.
From stdpp Require Import prelude gmap.
From Stdlib Require Import ZArith Lia.
From S2P Require Import Prelude KString Process Sched Cred Signal Pipe Tty Kheap Vm Mmap Disk Dev Ext2 Ext2Dir Vfs Elf Files Life.
Import Process Sched Signal Vm Mmap Files.
Local Open Scope Z_scope.

Module Calls.

#[local] Existing Instances Ext2Dir.answer_bind Ext2.eta_ext2 Ext2.eta_inode Dev.device_inhabited Dev.eta_io Vfs.eta_vfs Vfs.eta_node.
Abbreviation answer := Ext2Dir.answer.
Abbreviation Answer := Ext2Dir.Answer.
Abbreviation Stray := Ext2Dir.Stray.
Abbreviation Running := Ext2Dir.Running.
Abbreviation Done := Vfs.Done.
Abbreviation Sleeps := Vfs.Sleeps.
Abbreviation Wild := Vfs.Wild.

(** [None]: the caller is put to sleep. *)
Class SocketIO (S : Type) := {
  socket_send : Z -> list Z -> S -> sched -> S * sched * option Z;
  socket_recv : Z -> Z -> S -> sched -> S * sched * option (Z * list Z)
}.

Definition O_CREAT : Z := 0x40.
Definition O_TRUNC : Z := 0x200.
Definition O_APPEND : Z := 0x400.

Section calls.
Context {S : Type} {SO : SocketOps S} {SIO : SocketIO S}.

Record sys := mk_sys { y_k : kern S; y_io : Dev.io; y_vfs : Vfs.vfs; y_fs : Ext2.ext2; y_kmem : Z -> Z }.

#[export] Instance eta_sys : Eta sys := fun y => mk_sys (y_k y) (y_io y) (y_vfs y) (y_fs y) (y_kmem y).

(** What the file systems in memory see, and its parts put back. *)
Definition files (y : sys) : Vfs.world := Vfs.mk_world (y_vfs y) (y_io y) (ks (y_k y)) (y_fs y) (y_kmem y).
Definition put_files (w : Vfs.world) (y : sys) : sys :=
  mk_sys (on_sched (fun _ => Vfs.w_sched w) (y_k y)) (Vfs.w_io w) (Vfs.w_vfs w) (Vfs.w_fs w) (Vfs.w_kmem w).

Definition cur (y : sys) (c : nat) : process := cproc (y_k y) c.
Definition fd_of (y : sys) (c : nat) (fd : Z) : process_fd := fd_at (y_k y) c fd.
Definition set_fd (c : nat) (fd : Z) (f : process_fd -> process_fd) (y : sys) : sys := y <| y_k ::= on_fd c fd f |>.

(** Behind a transfer of [r] bytes. *)
Definition moved (c : nat) (fd r : Z) (y : sys) : sys :=
  if 0 <? r then set_fd c fd (fun f => f <| fd_offset ::= fun o => u64 (o + r) |>) y else y.

Definition user_range (a len : Z) : bool := (KERNEL_VMA <=? a) || (KERNEL_VMA <=? u64 (a + len)).
Definition closed_fd (c : nat) (fd : Z) (y : sys) : bool := bad_fd fd || (fd_type (fd_of y c fd) =? FD_NONE).

(** The pointers kept in descriptors; 0 is NULL. *)
Definition node_ptr (r : Vfs.nref) : Z := match r with Vfs.root_node => 1 | Vfs.node_at i => 2 + Z.of_nat i end.
Definition ptr_node (q : Z) : option Vfs.nref :=
  if q =? 0 then None else if q =? 1 then Some Vfs.root_node else Some (Vfs.node_at (Z.to_nat (q - 2))).
Definition dev_ptr (i : nat) : Z := 1 + Z.of_nat i.
Definition ptr_dev (q : Z) (y : sys) : option Dev.device :=
  if q =? 0 then None else Some (Dev.devices (y_io y) !!! Z.to_nat (q - 1)).

(** An int result in rax. *)
Definition rax (r : Z) : Z := u64 (s32 r).

(** ** write *)

Definition put_net (n : S) (s : sched) (y : sys) : sys := y <| y_k ::= fun k => (on_sched (fun _ => s) k) <| net := n |> |>.

Definition write_pipe (q : Z) (buf : list Z) (y : sys) : sys * Vfs.outcome :=
  if q =? 0 then (y, Done ERR64 []) else
  match pipes (y_k y) !! q with
  | None => (y, Wild)
  | Some p =>
      let '(p, s, r) := Pipe.pipe_write p buf (Z.of_nat (length buf)) (ks (y_k y)) in
      (y <| y_k ::= fun k => (on_sched (fun _ => s) k) <| pipes ::= <[q := p]> |> |>,
       match r with Some r => Done (rax r) [] | None => Sleeps end)
  end.

Definition send_socket (i : Z) (buf : list Z) (y : sys) : sys * option Z :=
  let '(n, s, r) := socket_send i buf (net (y_k y)) (ks (y_k y)) in (put_net n s y, r).

(** [buf] are the bytes at [addr].  The bytes of the result are those the
    terminal shows. *)
Definition sys_write (c : nat) (fd addr : Z) (buf : list Z) (y : sys) : sys * Vfs.outcome :=
  let len := Z.of_nat (length buf) in
  if user_range addr len then (y, Done ERR64 []) else
  if closed_fd c fd y then (y, Done ERR64 []) else
  let f := fd_of y c fd in
  let buf32 := take (Z.to_nat (u32 len)) buf in
  if fd_type f =? FD_CONSOLE then let '(r, out) := Tty.tty_write buf32 in (y, Done (rax r) out)
  else if fd_type f =? FD_PIPE_WRITE then write_pipe (fd_data f) buf32 y
  else if fd_type f =? FD_DEVICE then
    match ptr_dev (fd_data f) y ≫= Dev.d_fn with
    | Some fn => let '(io, r, out) := Dev.dev_write fn buf32 (y_io y) in (y <| y_io := io |>, Done (rax r) out)
    | None => (y, Done ERR64 [])
    end
  else if fd_type f =? FD_VFS then
    match ptr_node (fd_data f) with
    | Some r =>
        let '(w, k, out) := Vfs.node_write (Vfs.deref (y_vfs y) r) (fd_offset f) buf (files y) in
        (moved c fd (s32 k) (put_files w y), Done (rax k) out)
    | None => (y, Done ERR64 [])
    end
  else if fd_type f =? FD_EXT2 then
    match Ext2.ext2_read_inode (u32 (fd_data f)) (y_fs y) with
    | Some n =>
        let '(s, _, k) := Ext2.ext2_write_file (u32 (fd_data f)) n (fd_offset f) buf (y_fs y) in
        (moved c fd (s32 k) (y <| y_fs := s |>), Done (rax k) [])
    | None => (y, Done ERR64 [])
    end
  else if fd_type f =? FD_SOCKET then
    let '(y, r) := send_socket (s32 (fd_data f)) buf32 y in (y, match r with Some r => Done (rax r) [] | None => Sleeps end)
  else (y, Done ERR64 []).

(** ** read *)

Definition read_pipe (q count : Z) (y : sys) : sys * Vfs.outcome :=
  if q =? 0 then (y, Done ERR64 []) else
  match pipes (y_k y) !! q with
  | None => (y, Wild)
  | Some p =>
      let '(p, s, r) := Pipe.pipe_read p count (ks (y_k y)) in
      (y <| y_k ::= fun k => (on_sched (fun _ => s) k) <| pipes ::= <[q := p]> |> |>,
       match r with Some (r, bs) => Done (rax r) bs | None => Sleeps end)
  end.

Definition recv_socket (i count : Z) (y : sys) : sys * Vfs.outcome :=
  let '(n, s, r) := socket_recv i count (net (y_k y)) (ks (y_k y)) in
  (put_net n s y, match r with Some (r, bs) => Done (rax r) bs | None => Sleeps end).

(** Result and bytes of a driver's read, the caller asleep for [None]. *)
Definition from_dev (r : Dev.io * sched * option (Z * list Z)) (y : sys) : sys * Vfs.outcome :=
  let '(io, s, r) := r in
  (y <| y_io := io |> <| y_k ::= on_sched (fun _ => s) |>, match r with Some (r, bs) => Done (rax r) bs | None => Sleeps end).

(** The bytes of the result go to [addr]. *)
Definition sys_read (c : nat) (fd addr count : Z) (y : sys) : sys * Vfs.outcome :=
  if user_range addr count then (y, Done ERR64 []) else
  if closed_fd c fd y then (y, Done ERR64 []) else
  let f := fd_of y c fd in
  if fd_type f =? FD_PIPE_READ then read_pipe (fd_data f) (u32 count) y
  else if fd_type f =? FD_VFS then
    match ptr_node (fd_data f) with
    | Some r =>
        match Vfs.node_read (Vfs.deref (y_vfs y) r) (fd_offset f) count (files y) with
        | (w, Vfs.Done k bs) => (moved c fd (s32 k) (put_files w y), Done (rax k) bs)
        | (w, o) => (put_files w y, o)
        end
    | None => (y, Done ERR64 [])
    end
  else if fd_type f =? FD_DEVICE then
    match ptr_dev (fd_data f) y ≫= Dev.d_fn with
    | Some fn => from_dev (Dev.dev_read fn (u32 count) (y_io y) (ks (y_k y))) y
    | None => (y, Done ERR64 [])
    end
  else if fd_type f =? FD_EXT2 then
    match Ext2.ext2_read_inode (u32 (fd_data f)) (y_fs y) with
    | Some n =>
        match Ext2.ext2_read_file n (fd_offset f) count (y_fs y) with
        | Some bs => (moved c fd (s32 (Z.of_nat (length bs))) y, Done (rax (Z.of_nat (length bs))) bs)
        | None => (y, Done ERR64 [])
        end
    | None => (y, Done ERR64 [])
    end
  else if fd_type f =? FD_CONSOLE then from_dev (Dev.dev_read Dev.tty_fn (u32 count) (y_io y) (ks (y_k y))) y
  else if fd_type f =? FD_SOCKET then recv_socket (s32 (fd_data f)) (u32 count) y
  else (y, Done ERR64 []).

(** ** open *)

(** A descriptor from 3 on for what was opened. *)
Definition new_fd (c : nat) (type data offset : Z) (y : sys) : sys * Z :=
  let fd := process_fd_alloc (cur y c) 3 in
  if fd <? 0 then (y, ERR64)
  else (set_fd c fd (fun f => f <| fd_type := type |> <| fd_data := data |> <| fd_offset := offset |>) y, fd).

(** The path up to the last slash, if there is a slash behind the first
    character, and the name. *)
Definition split_path (path : list Z) : option (list Z) * list Z :=
  let buf := take 255 path in
  let i := Ext2Dir.last_slash 0 buf in
  if 0 <? i then (Some (take (Z.to_nat i) buf), drop (Z.to_nat (i + 1)) buf)
  else if i =? 0 then (None, drop 1 buf) else (None, buf).

Definition parent_of (dir : option (list Z)) (s : Ext2.ext2) : answer Z :=
  match dir with Some d => Ext2Dir.ext2_path_lookup d s | None => Answer Ext2.EXT2_ROOT_INODE end.

(** A file found on disk.  [junk] is what the stack holds where the inode is
    read to. *)
Definition open_ext2 (c : nat) (flags ino : Z) (junk : Ext2.ext2_inode) (y : sys) : sys * Z :=
  let r := Ext2.ext2_read_inode ino (y_fs y) in
  let chk := default junk r in
  if bool_decide (is_Some r) && negb (Cred.cred_check_read (cur y c) (Ext2.i_mode chk) (Ext2.i_uid chk) (Ext2.i_gid chk))
  then (y, ERR64) else
  let chk := if has flags O_TRUNC then chk <| Ext2.i_size := 0 |> else chk in
  let y := if has flags O_TRUNC then y <| y_fs ::= fun s => (Ext2.ext2_write_inode ino chk s).1 |> else y in
  new_fd c FD_EXT2 ino (if has flags O_APPEND then Ext2.i_size chk else 0) y.

Definition create_ext2 (c : nat) (path : list Z) (y : sys) : answer (sys * Z) :=
  let '(dir, fname) := split_path path in
  parent_ino ← parent_of dir (y_fs y);
  if (parent_ino =? 0) || bool_decide (fname = []) then Answer (y, ERR64) else
  '(s, new_ino) ← Ext2Dir.ext2_create parent_ino fname (Z.lor Ext2.EXT2_S_IFREG 0x1A4) (y_fs y);
  let y := y <| y_fs := s |> in
  if new_ino =? 0 then Answer (y, ERR64) else Answer (new_fd c FD_EXT2 new_ino 0 y).

Definition sys_open (c : nat) (addr : Z) (path : list Z) (flags : Z) (junk : Ext2.ext2_inode) (y : sys) : answer (sys * Z) :=
  if KERNEL_VMA <=? addr then Answer (y, ERR64) else
  if bool_decide (take 5 path = Vfs.txt "/dev/") then
    match Dev.device_find (drop 5 path) (Dev.devices (y_io y)) with
    | None => Answer (y, ERR64)
    | Some i => Answer (new_fd c FD_DEVICE (dev_ptr i) 0 y)
    end else
  match Vfs.vfs_get_mount_ops path (y_vfs y) with
  | Some ops =>
      match Vfs.vfs_register_node path Vfs.VFS_FILE (y_vfs y) with
      | (_, None) => Answer (y, ERR64)
      | (v, Some i) =>
          let v := v <| Vfs.nodes ::= alter (fun n => n <| Vfs.n_ops := Some ops |>) i |> in
          Answer (new_fd c FD_VFS (node_ptr (Vfs.node_at i)) 0 (y <| y_vfs := v |>))
      end
  | None =>
      match Vfs.vfs_lookup path (y_vfs y) with
      | Some r => Answer (new_fd c FD_VFS (node_ptr r) 0 y)
      | None =>
          if negb (Ext2.ext2_mounted (y_fs y)) then Answer (y, ERR64) else
          ino ← Ext2Dir.ext2_path_lookup path (y_fs y);
          if negb (ino =? 0) then Answer (open_ext2 c flags ino junk y)
          else if has flags O_CREAT then create_ext2 c path y
          else Answer (y, ERR64)
      end
  end.

(** ** lseek, rename, gettime, ioctl *)

(** [None] for a whence that is not known. *)
Definition seek_to (f : process_fd) (size : option Z) (offset whence : Z) : option Z :=
  if whence =? 0 then if offset <? 0 then None else Some (u64 offset)
  else if whence =? 1 then Some (u64 (fd_offset f + offset))
  else if whence =? 2 then (fun sz => u64 (sz + offset)) <$> size
  else None.

(** [offset] and [whence] are signed. *)
Definition syscall_lseek (c : nat) (fd offset whence : Z) (y : sys) : sys * Z :=
  if bad_fd fd then (y, ERR64) else
  let f := fd_of y c fd in
  let to r := match r with
              | Some o => (set_fd c fd (fun f => f <| fd_offset := o |>) y, o)
              | None => (y, ERR64)
              end in
  if fd_type f =? FD_EXT2 then
    match Ext2.ext2_read_inode (u32 (fd_data f)) (y_fs y) with
    | None => (y, ERR64)
    | Some n => to (seek_to f (Some (Ext2.i_size n)) offset whence)
    end
  else if fd_type f =? FD_VFS then to (seek_to f None offset whence)
  else (y, ERR64).

Definition syscall_rename (addr1 addr2 : Z) (old new : list Z) (y : sys) : answer (sys * Z) :=
  if (KERNEL_VMA <=? addr1) || (KERNEL_VMA <=? addr2) then Answer (y, ERR64) else
  if negb (Ext2.ext2_mounted (y_fs y)) then Answer (y, ERR64) else
  '(s, r) ← Ext2Dir.ext2_rename (take 127 old) (take 127 new) (y_fs y);
  Answer (y <| y_fs := s |>, u64 r).

(** Milliseconds since the start, from the ticks of the timer. *)
Definition syscall_gettime (ticks : Z) : Z := u64 (ticks * 10).

(** Also what the frame buffer stores to user memory. *)
Definition syscall_ioctl_handler (c : nat) (fd cmd arg : Z) (y : sys) : Z * option Dev.fb_info :=
  if bad_fd fd then (ERR64, None) else
  let f := fd_of y c fd in
  if negb (fd_type f =? FD_DEVICE) then (ERR64, None) else
  match ptr_dev (fd_data f) y ≫= Dev.d_ops with
  | Some Dev.fb_dev_ops => let '(r, o) := Dev.fb_ops_ioctl (u32 cmd) arg (Dev.fb (y_io y)) in (u64 r, o)
  | _ => (ERR64, None)
  end.

(** ** getdents *)

(** An entry as the caller sees it: inode, length of the name, name. *)
Definition dirent (ino : Z) (name : list Z) : list Z := le_bytes 4 ino ++ [u8 (Z.of_nat (length name))] ++ name.

(** The loop over a [readdir]: the bytes behind [out] and the index reached. *)
Fixpoint list_names (fuel : nat) (readdir : Z -> option (list Z)) (size idx : Z) (out : list Z) : list Z * Z :=
  match fuel with
  | O => (out, idx)
  | Datatypes.S fuel' =>
      if negb (Z.of_nat (length out) + 37 <? size) then (out, idx) else
      match readdir idx with
      | None => (out, idx)
      | Some name =>
          if size <? Z.of_nat (length out) + 5 + Z.of_nat (length name) then (out, idx)
          else list_names fuel' readdir size (u32 (idx + 1)) (out ++ dirent 0 name)
      end
  end.

Definition DIR_BUF_SIZE : Z := 4096.

Definition is_dots (name : list Z) : bool := bool_decide (name = [46]) || bool_decide (name = [46; 46]).

(** The loop over the [rd] bytes read from a directory.  [dots]: the entries
    "." and ".." are listed.  [Stray]: an entry leaves the bytes read. *)
Fixpoint list_entries (fuel : nat) (dots : bool) (buf : list Z) (pos size : Z) (out : list Z) : answer (list Z) :=
  match fuel with
  | O => Running
  | Datatypes.S fuel' =>
      let rd := Z.of_nat (length buf) in
      if rd <=? pos then Answer out else
      if rd <? pos + Ext2Dir.DE_SIZE then Stray else
      let rec_len := Ext2Dir.de_rec_len buf pos in
      if rec_len =? 0 then Answer out else
      let nlen := Ext2Dir.de_name_len buf pos in
      let next := list_entries fuel' dots buf (pos + rec_len) size in
      if negb (Ext2Dir.de_inode buf pos =? 0) && (0 <? nlen) then
        let inside := pos + Ext2Dir.DE_SIZE + nlen <=? rd in
        let name := slice buf (pos + Ext2Dir.DE_SIZE) nlen in
        if negb dots && (nlen <=? 2) && negb inside then Stray else
        if negb dots && is_dots name then next out else
        if size <? Z.of_nat (length out) + 5 + nlen then Answer out else
        if negb inside then Stray else
        next (out ++ dirent (Ext2Dir.de_inode buf pos) name)
      else next out
  end.

(** The entries of the directory [n]: at most the first 4096 bytes count. *)
Definition list_dir (dots : bool) (n : Ext2.ext2_inode) (size : Z) (out : list Z) (s : Ext2.ext2) : answer (list Z) :=
  match Ext2.ext2_read_file n 0 (Z.min (Ext2.i_size n) DIR_BUF_SIZE) s with
  | Some buf => list_entries (Datatypes.S (length buf)) dots buf 0 size out
  | None => Answer out
  end.

(** The root: the nodes in memory, then the root directory of the disk. *)
Definition list_root (size : Z) (y : sys) : answer (list Z) :=
  let '(out, _) := list_names (Z.to_nat size) (fun i => Vfs.vfs_readdir [Vfs.SLASH] i 32 (y_vfs y)) size 0 [] in
  if negb (Ext2.ext2_mounted (y_fs y)) then Answer out else
  match Ext2.ext2_read_inode Ext2.EXT2_ROOT_INODE (y_fs y) with
  | Some n => list_dir false n size out (y_fs y)
  | None => Answer out
  end.

Definition node_readdir (n : Vfs.vfs_node) (y : sys) : option (Z -> option (list Z)) :=
  match Vfs.n_ops n with Some Vfs.devfs_ops => Some (fun i => Vfs.devfs_readdir n i 32 (files y)) | _ => None end.

(** Result and the bytes stored at [addr]. *)
Definition sys_getdents (c : nat) (fd addr size : Z) (y : sys) : answer (sys * Z * list Z) :=
  if user_range addr size then Answer (y, ERR64, []) else
  if closed_fd c fd y then Answer (y, ERR64, []) else
  let f := fd_of y c fd in
  let ret y out := Answer (y, u64 (u32 (Z.of_nat (length out))), out) in
  if fd_type f =? FD_VFS then
    match ptr_node (fd_data f) with
    | None => ret y []
    | Some r =>
        match node_readdir (Vfs.deref (y_vfs y) r) y with
        | Some readdir =>
            let '(out, idx) := list_names (Z.to_nat size) readdir size (u32 (fd_offset f)) [] in
            ret (set_fd c fd (fun f => f <| fd_offset := idx |>) y) out
        | None => out ← list_root size y; ret y out
        end
    end
  else if fd_type f =? FD_EXT2 then
    match Ext2.ext2_read_inode (u32 (fd_data f)) (y_fs y) with
    | Some n => if has (Ext2.i_mode n) Ext2.EXT2_S_IFDIR then out ← list_dir true n size [] (y_fs y); ret y out else ret y []
    | None => ret y []
    end
  else ret y [].

(** ** stat, mkdir, unlink, chown, chmod *)

(** Type, size and inode number, as stored at [sbuf]. *)
Definition stat_bytes (dir : bool) (size ino : Z) : list Z := le_bytes 4 (if dir then 2 else 1) ++ le_bytes 4 size ++ le_bytes 4 ino.

Definition stat_node (path : list Z) (y : sys) : Z * list Z :=
  match Vfs.vfs_lookup path (y_vfs y) with
  | Some r => let n := Vfs.deref (y_vfs y) r in (0, stat_bytes (Vfs.n_type n =? Vfs.VFS_DIRECTORY) (u32 (Vfs.n_size n)) 0)
  | None => (ERR64, [])
  end.

Definition sys_stat (addr sbuf : Z) (path : list Z) (y : sys) : answer (Z * list Z) :=
  if (KERNEL_VMA <=? addr) || (KERNEL_VMA <=? sbuf) then Answer (ERR64, []) else
  if negb (Ext2.ext2_mounted (y_fs y)) then Answer (stat_node path y) else
  ino ← Ext2Dir.ext2_path_lookup path (y_fs y);
  if ino =? 0 then Answer (stat_node path y) else
  match Ext2.ext2_read_inode ino (y_fs y) with
  | Some n => Answer (0, stat_bytes (has (Ext2.i_mode n) Ext2.EXT2_S_IFDIR) (Ext2.i_size n) ino)
  | None => Answer (stat_node path y)
  end.

(** Whether the caller may change the directory; one that cannot be read is not
    checked. *)
Definition may_change (p : process) (dir : Z) (s : Ext2.ext2) : bool :=
  match Ext2.ext2_read_inode dir s with
  | Some n => Cred.cred_check_write p (Ext2.i_mode n) (Ext2.i_uid n) (Ext2.i_gid n)
  | None => true
  end.

Definition sys_mkdir (c : nat) (addr : Z) (path : list Z) (y : sys) : answer (sys * Z) :=
  if KERNEL_VMA <=? addr then Answer (y, ERR64) else
  if negb (Ext2.ext2_mounted (y_fs y)) then Answer (y, ERR64) else
  let '(dir, name) := split_path path in
  parent_ino ← parent_of dir (y_fs y);
  if (parent_ino =? 0) || bool_decide (name = []) then Answer (y, ERR64) else
  if negb (may_change (cur y c) parent_ino (y_fs y)) then Answer (y, ERR64) else
  '(s, ino) ← Ext2Dir.ext2_mkdir parent_ino name (y_fs y);
  Answer (y <| y_fs := s |>, if ino =? 0 then ERR64 else 0).

Definition sys_unlink (c : nat) (addr : Z) (path : list Z) (y : sys) : answer (sys * Z) :=
  if KERNEL_VMA <=? addr then Answer (y, ERR64) else
  if negb (Ext2.ext2_mounted (y_fs y)) then Answer (y, ERR64) else
  let '(dir, fname) := split_path path in
  parent_ino ← parent_of dir (y_fs y);
  if (parent_ino =? 0) || bool_decide (fname = []) then Answer (y, ERR64) else
  if negb (may_change (cur y c) parent_ino (y_fs y)) then Answer (y, ERR64) else
  '(s, r) ← Ext2Dir.ext2_unlink parent_ino fname (y_fs y);
  Answer (y <| y_fs := s |>, u64 r).

(** The ownership of an inode, and an inode with another one. *)
Definition icred (n : Ext2.ext2_inode) : Cred.inode_cred := Cred.mk_icred (Ext2.i_mode n) (Ext2.i_uid n) (Ext2.i_gid n).
Definition with_icred (n : Ext2.ext2_inode) (i : Cred.inode_cred) : Ext2.ext2_inode :=
  n <| Ext2.i_mode := Cred.i_mode i |> <| Ext2.i_uid := Cred.i_uid i |> <| Ext2.i_gid := Cred.i_gid i |>.

(** What chown and chmod share: [f] is the check and the update. *)
Definition change_inode (addr : Z) (path : list Z) (f : Cred.inode_cred -> option Cred.inode_cred) (y : sys) : answer (sys * Z) :=
  if KERNEL_VMA <=? addr then Answer (y, ERR64) else
  if negb (Ext2.ext2_mounted (y_fs y)) then Answer (y, ERR64) else
  ino ← Ext2Dir.ext2_path_lookup path (y_fs y);
  if ino =? 0 then Answer (y, ERR64) else
  match Ext2.ext2_read_inode ino (y_fs y) with
  | None => Answer (y, ERR64)
  | Some n =>
      match f (icred n) with
      | None => Answer (y, ERR64)
      | Some i =>
          let '(s, r) := Ext2.ext2_write_inode ino (with_icred n i) (y_fs y) in
          Answer (y <| y_fs := s |>, if r <? 0 then ERR64 else 0)
      end
  end.

Definition sys_chown (c : nat) (addr : Z) (path : list Z) (new_uid new_gid : Z) (y : sys) : answer (sys * Z) :=
  change_inode addr path (fun i => Cred.chown_inode (cur y c) i new_uid new_gid) y.

Definition sys_chmod (c : nat) (addr : Z) (path : list Z) (new_mode : Z) (y : sys) : answer (sys * Z) :=
  change_inode addr path (fun i => Cred.chmod_inode (cur y c) i new_mode) y.

(** ** send, recv, sendfile *)

Definition not_socket (c : nat) (fd : Z) (y : sys) : bool := bad_fd fd || negb (fd_type (fd_of y c fd) =? FD_SOCKET).

Definition syscall_send (c : nat) (fd : Z) (buf : list Z) (y : sys) : sys * Vfs.outcome :=
  if not_socket c fd y then (y, Done ERR64 []) else
  let '(y, r) := send_socket (s32 (fd_data (fd_of y c fd))) (take (Z.to_nat (u32 (Z.of_nat (length buf)))) buf) y in
  (y, match r with Some r => Done (rax r) [] | None => Sleeps end).

Definition syscall_recv (c : nat) (fd len : Z) (y : sys) : sys * Vfs.outcome :=
  if not_socket c fd y then (y, Done ERR64 []) else recv_socket (s32 (fd_data (fd_of y c fd))) (u32 len) y.

(** The bytes sent so far; [None] when the caller is put to sleep in the
    middle. *)
Fixpoint sendfile_loop (fuel : nat) (c : nat) (out_fd in_fd offset count total : Z) (y : sys) : sys * option Z :=
  match fuel with
  | O => (y, Some total)
  | Datatypes.S fuel' =>
      if count <=? total then (y, Some total) else
      let chunk := Z.min (count - total) 4096 in
      let fi := fd_of y c in_fd in
      if negb (fd_type fi =? FD_EXT2) then (y, Some total) else
      match Ext2.ext2_read_inode (u32 (fd_data fi)) (y_fs y) ≫= fun n => Ext2.ext2_read_file n (u64 (offset + total)) chunk (y_fs y) with
      | None | Some [] => (y, Some total)
      | Some bs =>
          if negb (fd_type (fd_of y c out_fd) =? FD_SOCKET) then (y, Some total) else
          match send_socket (s32 (fd_data (fd_of y c out_fd))) bs y with
          | (y, None) => (y, None)
          | (y, Some sent) => if sent <=? 0 then (y, Some total) else sendfile_loop fuel' c out_fd in_fd offset count (u64 (total + sent)) y
          end
      end
  end.

(** [offp]: the offset at the user's pointer, if there is a valid one; the new
    offset is stored there. *)
Definition sys_sendfile (c : nat) (out_fd in_fd : Z) (offp : option Z) (count : Z) (y : sys) : sys * option (Z * option Z) :=
  if (s32 out_fd <? 0) || bad_fd (s32 out_fd) || (s32 in_fd <? 0) || bad_fd (s32 in_fd) then (y, Some (ERR64, None)) else
  let fi := fd_of y c (s32 in_fd) in
  let offset := match offp with Some o => o | None => if fd_type fi =? FD_NONE then 0 else fd_offset fi end in
  let '(y, r) := sendfile_loop (Z.to_nat count) c (s32 out_fd) (s32 in_fd) offset count 0 y in
  (y, (fun total => (total, (fun _ => u64 (offset + total)) <$> offp)) <$> r).

(** Every turn of the loop over a [readdir] stores at least five bytes, so it
    ends by itself within as many turns as the buffer has bytes. *)
Lemma list_names_enough k readdir size : forall fuel idx out, size <= Z.of_nat fuel + Z.of_nat (length out) ->
  list_names (fuel + k) readdir size idx out = list_names fuel readdir size idx out.
Proof.
  induction fuel as [|fuel IH]; intros idx out Hf.
  - destruct k; [done|]. cbn [Nat.add list_names]. by replace (Z.of_nat (length out) + 37 <? size) with false by lia.
  - cbn [Nat.add list_names]. case_if; [done|]. destruct (readdir idx) as [name|]; [|done]. case_if; [done|]. apply IH.
    unfold dirent. rewrite !length_app, length_le_bytes. cbn. lia.
Qed.

(** ** Directories as getdents lists them *)

(** The entries listed, as the caller sees them. *)
Definition listed (dots : bool) (d : Ext2Dir.dent) : bool :=
  negb (Ext2Dir.d_ino d =? 0) && bool_decide (Ext2Dir.d_name d <> []) && (dots || negb (is_dots (Ext2Dir.d_name d))).
Definition listing (dots : bool) (ds : list Ext2Dir.dent) : list Z :=
  mjoin ((fun d => dirent (Ext2Dir.d_ino d) (Ext2Dir.d_name d)) <$> filter (fun d => listed dots d = true) ds).

Lemma listing_cons dots d ds : listing dots (d :: ds) = (if listed dots d then dirent (Ext2Dir.d_ino d) (Ext2Dir.d_name d) else []) ++ listing dots ds.
Proof. unfold listing. rewrite filter_cons. destruct (listed dots d); by repeat case_decide. Qed.

Lemma length_dirent ino name : Z.of_nat (length (dirent ino name)) = 5 + Z.of_nat (length name).
Proof. unfold dirent. rewrite !length_app, length_le_bytes. cbn. lia. Qed.

Lemma list_entries_spec fuel dots pre ds size out : Forall Ext2Dir.dent_ok ds -> (length ds < fuel)%nat -> Z.of_nat (length (out ++ listing dots ds)) <= size ->
  list_entries fuel dots (Ext2Dir.area (pre ++ ds)) (Ext2Dir.pos pre) size out = Answer (out ++ listing dots ds).
Proof.
  intros Hf. revert fuel pre out. induction Hf as [|d ds Hd Hf IH]; intros fuel pre out Hfuel Hsz; (destruct fuel as [|fuel]; [cbn in Hfuel; lia|]); cbn [list_entries].
  - rewrite !app_nil_r. unfold Ext2Dir.pos. by rewrite Z.leb_refl.
  - pose proof (Ext2Dir.dent_pos d Hd) as H8. pose proof (Ext2Dir.dent_rec d Hd) as Hr. unfold Ext2Dir.DE_SIZE in *.
    assert (Z.of_nat (length (Ext2Dir.area (pre ++ d :: ds))) = Ext2Dir.pos pre + Ext2Dir.d_rec d + Ext2Dir.pos ds) as El.
    { change (Z.of_nat (length (Ext2Dir.area (pre ++ d :: ds)))) with (Ext2Dir.pos (pre ++ d :: ds)). rewrite Ext2Dir.pos_app, Ext2Dir.pos_cons by done. lia. }
    assert (0 <= Ext2Dir.pos ds) as Hds by (unfold Ext2Dir.pos; lia). rewrite El, (proj2 (Z.leb_gt _ _)), (proj2 (Z.ltb_ge _ _)) by lia.
    destruct (Ext2Dir.entry_at (Ext2Dir.area pre) d (Ext2Dir.area ds) Hd) as (E1 & E2 & E3 & E4). fold (Ext2Dir.pos pre) in E1, E2, E3, E4. rewrite <- Ext2Dir.area_cons, <- Ext2Dir.area_app in E1, E2, E3, E4.
    rewrite E1, E2, E3, (proj2 (Z.eqb_neq (Ext2Dir.d_rec d) 0)) by lia. unfold slice. rewrite Nat2Z.id. unfold Ext2Dir.DE_SIZE in E4. rewrite E4, take_app_length.
    assert (forall out', Z.of_nat (length (out' ++ listing dots ds)) <= size ->
      list_entries fuel dots (Ext2Dir.area (pre ++ d :: ds)) (Ext2Dir.pos pre + Ext2Dir.d_rec d) size out' = Answer (out' ++ listing dots ds)) as Hnext.
    { intros out' Ho. specialize (IH fuel (pre ++ [d]) out' ltac:(cbn in Hfuel; lia) Ho). rewrite <- app_assoc in IH. cbn [app] in IH. rewrite <- IH. f_equal.
      rewrite Ext2Dir.pos_app, Ext2Dir.pos_cons by done. change (Ext2Dir.pos []) with 0. lia. }
    rewrite listing_cons in *. replace (Ext2Dir.pos pre + 8 + Z.of_nat (length (Ext2Dir.d_name d)) <=? _) with true by lia. cbn [negb]. rewrite andb_false_r. unfold listed in *.
    destruct (Ext2Dir.d_ino d =? 0) eqn:Ei; cbn [negb andb] in *; [by apply Hnext|].
    destruct (decide (Ext2Dir.d_name d = [])) as [En|En].
    + rewrite En in *. cbn. rewrite bool_decide_false in Hsz by auto. by apply Hnext.
    + rewrite bool_decide_true in * by done. rewrite (proj2 (Z.ltb_lt 0 _)) by (destruct (Ext2Dir.d_name d); [done|cbn; lia]). cbn [andb] in *.
      destruct dots, (is_dots (Ext2Dir.d_name d)); cbn [negb andb orb] in *; try (by apply Hnext);
        (rewrite app_assoc in *; rewrite !length_app in Hsz; pose proof (length_dirent (Ext2Dir.d_ino d) (Ext2Dir.d_name d)); rewrite (proj2 (Z.ltb_ge _ _)) by lia; apply Hnext; rewrite !length_app; lia).
Qed.

(** The bytes of a directory are those of its entries. *)
Lemma dir_bytes n bls s k : Ext2.geo s -> Ext2Dir.dir_ok n bls s -> (k <= length bls)%nat ->
  Ext2.fbyte n s <$> seqZ 0 (Ext2.block_size s * Z.of_nat k) = Ext2Dir.area (mjoin (take k bls)).
Proof.
  intros Hg Hd. pose proof (Ext2.bs_pos s Hg) as Hbs. induction k as [|k IH]; intros Hk; [by rewrite Z.mul_0_r|].
  destruct (lookup_lt_is_Some_2 bls k ltac:(lia)) as [ds Hds]. rewrite (take_S_r _ _ ds) by done. rewrite join_app, Ext2Dir.area_app, <- IH by lia. cbn [mjoin list_join]. rewrite app_nil_r.
  replace (Ext2.block_size s * Z.of_nat (Datatypes.S k)) with (Ext2.block_size s * Z.of_nat k + Ext2.block_size s) by lia. rewrite seqZ_app by lia. rewrite fmap_app. f_equal.
  destruct (Ext2Dir.dir_area n bls s k ds Hg Hd Hds) as (Hp & Hi & _). destruct (Ext2Dir.dir_block _ _ _ Hd k ds Hds) as (Hne & Eb & _). pose proof (Ext2Dir.dir_max _ _ _ Hd). destruct (Ext2Dir.block_start s k Hg) as [Hq Hm].
  rewrite Z.add_0_l, Ext2.fbytes_block; [|done|apply Hd|unfold Ext2.max_size; nia|rewrite Hm; lia]. cbv zeta. rewrite Hq, Hm, (proj2 (Z.eqb_neq _ _) Hne), Eb.
  unfold slice. cbn [Z.to_nat drop]. apply take_ge. unfold Ext2Dir.pos in Hp. lia.
Qed.

Lemma list_dir_spec dots n bls s size out : Ext2.geo s -> Ext2Dir.dir_ok n bls s -> Ext2.i_size n <= DIR_BUF_SIZE -> Z.of_nat (length (out ++ listing dots (mjoin bls))) <= size ->
  list_dir dots n size out s = Answer (out ++ listing dots (mjoin bls)).
Proof.
  intros Hg Hd Hmax Hsz. destruct (Ext2Dir.dir_small n bls s Hg Hd) as [Hs _]. pose proof (Ext2Dir.dir_size _ _ _ Hd) as Es. pose proof (Ext2.bs_pos s Hg).
  unfold list_dir. rewrite Z.min_l, Ext2.read_file_spec by (done || nia || apply Hd). rewrite Z.sub_0_r, Z.min_id, Es, (dir_bytes n bls s) by done. rewrite take_ge by done.
  assert (Forall Ext2Dir.dent_ok (mjoin bls)) as Hf.
  { apply Forall_join, Forall_lookup_2. intros i ds Hi. apply (Ext2Dir.dir_block _ _ _ Hd i ds Hi). }
  apply (list_entries_spec _ dots []); [done| |done]. pose proof (Ext2Dir.length_area _ Hf). cbn [app]. lia.
Qed.

(** ** Descriptors *)

(** A descriptor of the process [c] that leads to the file [ino] on disk. *)
Record disk_fd (c : nat) (fd ino : Z) (y : sys) : Prop := mk_disk_fd {
  df_proc : (c < length (procs (ks (y_k y))))%nat;
  df_len : forall i p, procs (ks (y_k y)) !! i = Some p -> length (fd_table p) = PROCESS_MAX_FDS;
  df_fd : 0 <= fd < 32;
  df_type : fd_type (fd_of y c fd) = FD_EXT2;
  df_data : fd_data (fd_of y c fd) = ino;
  df_ino : 0 <= ino < 2 ^ 32
}.

Lemma disk_fd_fs c fd ino s y : disk_fd c fd ino y -> disk_fd c fd ino (y <| y_fs := s |>).
Proof. by intros []. Qed.

Lemma fd_of_set c fd ino g y : disk_fd c fd ino y -> fd_of (set_fd c fd g y) c fd = g (fd_of y c fd).
Proof. intros D. unfold fd_of, set_fd. cbn. rewrite fd_at_on_fd, decide_True; [done|done|apply D|apply D|apply (df_fd _ _ _ _ D)|apply D]. Qed.

Lemma set_fd_procs c fd g y : procs (ks (y_k (set_fd c fd g y))) = upd_proc c (fun p => p <| fd_table ::= alter g (Z.to_nat fd) |>) (procs (ks (y_k y))).
Proof. apply on_fd_procs. Qed.

(** Moving the offset keeps it one. *)
Lemma disk_fd_offset c fd ino g y : disk_fd c fd ino y -> disk_fd c fd ino (set_fd c fd (fun f => f <| fd_offset ::= g |>) y).
Proof.
  intros D. pose proof (fd_of_set c fd ino (fun f => f <| fd_offset ::= g |>) y D) as E. split.
  - rewrite set_fd_procs, length_upd_proc. apply D.
  - intros i p. rewrite set_fd_procs. apply upd_fd_len, D.
  - apply D.
  - rewrite E. apply D.
  - rewrite E. apply D.
  - apply D.
Qed.

Lemma disk_fd_open c fd ino y : disk_fd c fd ino y -> closed_fd c fd y = false.
Proof.
  intros D. unfold closed_fd, bad_fd. rewrite (df_type _ _ _ _ D). pose proof (df_fd _ _ _ _ D). rewrite (proj2 (Z.leb_gt _ _)); [done|]. change (Z.of_nat PROCESS_MAX_FDS) with 32. lia.
Qed.

(** The calls on such a descriptor. *)
Lemma write_disk c fd ino addr buf y n : disk_fd c fd ino y -> user_range addr (Z.of_nat (length buf)) = false -> Ext2.ext2_read_inode ino (y_fs y) = Some n ->
  sys_write c fd addr buf y = let '(s, _, k) := Ext2.ext2_write_file ino n (fd_offset (fd_of y c fd)) buf (y_fs y) in (moved c fd (s32 k) (y <| y_fs := s |>), Done (rax k) []).
Proof.
  intros D Hr Hn. unfold sys_write. rewrite Hr, (disk_fd_open _ _ _ _ D), (df_type _ _ _ _ D), (df_data _ _ _ _ D). cbn [FD_EXT2 FD_CONSOLE Z.eqb].
  rewrite (u32_small ino) by apply D. by rewrite Hn.
Qed.

Lemma read_disk c fd ino addr count y n bs : disk_fd c fd ino y -> user_range addr count = false -> Ext2.ext2_read_inode ino (y_fs y) = Some n ->
  Ext2.ext2_read_file n (fd_offset (fd_of y c fd)) count (y_fs y) = Some bs ->
  sys_read c fd addr count y = (moved c fd (s32 (Z.of_nat (length bs))) y, Done (rax (Z.of_nat (length bs))) bs).
Proof.
  intros D Hr Hn Hb. unfold sys_read. rewrite Hr, (disk_fd_open _ _ _ _ D), (df_type _ _ _ _ D), (df_data _ _ _ _ D). cbn [FD_EXT2 Z.eqb].
  rewrite (u32_small ino) by apply D. by rewrite Hn, Hb.
Qed.

(** A write to a file, and what is read back from it. *)
Lemma write_read ino n off data s : Ext2.geo s -> Ext2.meta_ok s -> Ext2.is_ino s ino -> Ext2.file_ok n s -> Ext2.inode_wf n -> Ext2.i_size n <= Ext2.max_size s -> data <> [] ->
  0 <= off -> off + Z.of_nat (length data) <= Ext2.max_size s -> Ext2.room (Ext2.need n + Z.to_nat (Ext2.chunks s off (Z.of_nat (length data)))) s ->
  exists s' n', Ext2.ext2_write_file ino n off data s = (s', n', Z.of_nat (length data)) /\ Ext2.ext2_read_inode ino s' = Some n' /\
    Ext2.i_size n' = Z.max (Ext2.i_size n) (off + Z.of_nat (length data)) /\ Ext2.ext2_read_file n' off (Z.of_nat (length data)) s' = Some data.
Proof.
  intros Hg Hm Hi Hf Hn Hsz Hd H0 Hmax Hroom.
  destruct (Ext2.write_file_spec ino n off data s Hg Hm Hi Hf Hn Hd H0 Hmax Hroom) as (s2 & n' & W & _ & _ & G' & _ & Ebs & R & F' & Es & B & _).
  cbn zeta in *. eexists _, n'. split_and!; [exact W|done|done|]. set (s' := Ext2.ext2_flush_metadata s2) in *.
  assert (Ext2.max_size s' = Ext2.max_size s) as Ems by (unfold Ext2.max_size, Ext2.ptrs; by rewrite Ebs).
  rewrite Ext2.read_file_spec by (done || lia). rewrite Z.min_l by lia. f_equal. apply Ext2.fbytes_data; [done|done|lia|].
  intros p Hp Hq. rewrite B by (unfold Ext2.is_idx, Ext2.ptrs in *; by rewrite <- Ebs). by rewrite decide_True.
Qed.

(** ** Opening *)

(** Nothing but the disk has a file of this path. *)
Record on_disk (addr : Z) (path : list Z) (y : sys) : Prop := mk_on_disk {
  od_addr : addr < KERNEL_VMA;
  od_dev : take 5 path <> Vfs.txt "/dev/";
  od_mount : Vfs.vfs_get_mount_ops path (y_vfs y) = None;
  od_node : Vfs.vfs_lookup path (y_vfs y) = None;
  od_mounted : Ext2.ext2_mounted (y_fs y) = true
}.

Lemma open_disk c addr path flags junk y ino : on_disk addr path y -> Ext2Dir.ext2_path_lookup path (y_fs y) = Answer ino -> ino <> 0 ->
  sys_open c addr path flags junk y = Answer (open_ext2 c flags ino junk y).
Proof.
  intros D Hl Hi. unfold sys_open. rewrite (proj2 (Z.leb_gt _ _) (od_addr _ _ _ D)), bool_decide_false by apply D. rewrite (od_mount _ _ _ D), (od_node _ _ _ D), (od_mounted _ _ _ D). cbn [negb].
  rewrite Hl. cbn. by rewrite (proj2 (Z.eqb_neq _ _) Hi).
Qed.

(** The descriptor found was free. *)
Lemma fd_alloc_free p fd : process_fd_alloc p 3 = fd -> 0 <= fd -> length (fd_table p) = PROCESS_MAX_FDS ->
  3 <= fd < 32 /\ fd_type (zget (fd_table p) fd) = FD_NONE.
Proof.
  unfold process_fd_alloc. destruct (find_index _ _) as [i|] eqn:E; [|lia]. intros <- _ Hl. pose proof (find_index_lt _ _ _ E) as Hlt. rewrite length_drop, Hl in Hlt.
  apply find_index_Some in E as (f & Hf & Ht & _). change (Z.to_nat 3) with 3%nat in *. unfold PROCESS_MAX_FDS in Hlt. split; [lia|]. rewrite lookup_drop in Hf.
  unfold zget. replace (Z.to_nat (3 + Z.of_nat i)) with (3 + i)%nat by lia. rewrite (list_lookup_total_correct _ _ _ Hf). by apply Z.eqb_eq.
Qed.

(** A descriptor made for a file on disk; the others keep what they had. *)
Lemma new_fd_disk c ino off y : (c < length (procs (ks (y_k y))))%nat -> (forall i p, procs (ks (y_k y)) !! i = Some p -> length (fd_table p) = PROCESS_MAX_FDS) ->
  0 <= ino < 2 ^ 32 -> 0 <= process_fd_alloc (cur y c) 3 ->
  exists y' fd, new_fd c FD_EXT2 ino off y = (y', fd) /\ 3 <= fd /\ disk_fd c fd ino y' /\ fd_offset (fd_of y' c fd) = off /\ y_fs y' = y_fs y /\
    fd_type (fd_of y c fd) = FD_NONE /\ forall j, 0 <= j < 32 -> j <> fd -> fd_of y' c j = fd_of y c j.
Proof.
  intros Hc Hl Hi Ha. unfold new_fd. set (fd := process_fd_alloc (cur y c) 3) in *. rewrite (proj2 (Z.ltb_ge _ _) Ha). set (g := fun f : process_fd => _). exists (set_fd c fd g y), fd.
  assert (length (fd_table (cur y c)) = PROCESS_MAX_FDS) as Hlc.
  { destruct (lookup_lt_is_Some_2 _ _ Hc) as [p Hp]. unfold cur, cproc, proc_at. rewrite (list_lookup_total_correct _ _ _ Hp). by eapply Hl. }
  destruct (fd_alloc_free (cur y c) fd eq_refl Ha Hlc) as [Hfd Hfree].
  assert (forall j, 0 <= j < 32 -> fd_of (set_fd c fd g y) c j = if decide (fd = j) then g (fd_of y c j) else fd_of y c j) as Hset by (intros j Hj; by apply fd_at_on_fd).
  assert (fd_of (set_fd c fd g y) c fd = g (fd_of y c fd)) as E by (rewrite Hset by lia; by rewrite decide_True).
  split_and!; [done|lia| |by rewrite E|done|exact Hfree|].
  - split; [by rewrite set_fd_procs, length_upd_proc|intros i p; rewrite set_fd_procs; by apply upd_fd_len|lia|by rewrite E|by rewrite E|done].
  - intros j Hj Hne. rewrite Hset by done. by rewrite decide_False by congruence.
Qed.

(** ** Claims *)




(** C40: Truncation needs no permission to write: a caller that may read a file
    but not write it opens it with O_TRUNC, and the file on disk is empty. *)
Theorem open_truncates_unwritable c addr path flags junk ino n y : on_disk addr path y -> Ext2Dir.ext2_path_lookup path (y_fs y) = Answer ino -> ino <> 0 ->
  Ext2.geo (y_fs y) -> Ext2.is_ino (y_fs y) ino -> Ext2.ext2_read_inode ino (y_fs y) = Some n -> Ext2.inode_wf n -> has flags O_TRUNC = true ->
  Cred.unix_allows (cur y c) (Ext2.i_mode n) (Ext2.i_uid n) (Ext2.i_gid n) 2 = true -> Cred.unix_allows (cur y c) (Ext2.i_mode n) (Ext2.i_uid n) (Ext2.i_gid n) 1 = false ->
  exists y' r, sys_open c addr path flags junk y = Answer (y', r) /\ Ext2.ext2_read_inode ino (y_fs y') = Some (n <| Ext2.i_size := 0 |>).
Proof.
  intros D Hl Hi Hg Hino Hn Hw Ht Hr _. rewrite (open_disk c addr path flags junk y ino D Hl Hi). unfold open_ext2. rewrite Hn, Ht. cbn [default from_option id].
  rewrite (proj1 (Cred.cred_checks_unix (cur y c) _ _ _)), Hr, andb_false_r. set (n' := n <| Ext2.i_size := 0 |>).
  change (y <| y_fs ::= fun s => (Ext2.ext2_write_inode ino n' s).1 |>) with (y <| y_fs := (Ext2.ext2_write_inode ino n' (y_fs y)).1 |>). rewrite Ext2.write_inode_put by done. cbn [fst].
  assert (Ext2.inode_wf n') as Hw' by (apply Ext2.inode_wf_size; [done|by unfold Ext2.is_u32]).
  destruct (Ext2.put_inode_spec (y_fs y) ino _ Hg Hino Hw') as (_ & _ & _ & R & _). unfold new_fd. destruct (_ <? 0); eexists _, _; split; done.
Qed.

(** C24: mkdir and unlink need permission to write the directory: when the
    caller's class lacks the write bit of the directory of the path, both return an
    error and nothing changes. *)
Theorem mkdir_unlink_need_write c addr path dir name parent n y : split_path path = (dir, name) -> parent_of dir (y_fs y) = Answer parent ->
  Ext2.ext2_read_inode parent (y_fs y) = Some n -> Cred.unix_allows (cur y c) (Ext2.i_mode n) (Ext2.i_uid n) (Ext2.i_gid n) 1 = false ->
  sys_mkdir c addr path y = Answer (y, ERR64) /\ sys_unlink c addr path y = Answer (y, ERR64).
Proof.
  intros Hs Hp Hn Hw. assert (may_change (cur y c) parent (y_fs y) = false) as Hm by (unfold may_change; rewrite Hn; by rewrite (proj1 (proj2 (Cred.cred_checks_unix (cur y c) _ _ _)))).
  unfold sys_mkdir, sys_unlink. rewrite Hs, Hp. cbn [mbind Ext2Dir.answer_bind]. rewrite Hm. split; repeat case_if; done.
Qed.

End calls.

(** ** Witnesses *)

(** The claims hold for any network; here there are no sockets. *)
#[export] Instance no_socket_io : SocketIO unit := {| socket_send _ _ n s := (n, s, Some (-1)); socket_recv _ _ n s := (n, s, Some (-1, [])) |}.

(** A process of a user other than root with descriptors of the inodes 3 and 2. *)
Definition demo_caller : process := Cred.demo_user <| fd_table := <[3%nat := mk_fd FD_EXT2 3 1022]> (<[4%nat := mk_fd FD_EXT2 2 0]> (replicate 32 fd_empty)) |>.

Definition demo_sys (s : Ext2.ext2) : sys (S := unit) :=
  mk_sys (on_sched (fun z => z <| procs := [demo_caller] |>) (mk_kern (demo_mm 0x6007) ∅ Kheap.demo_heap [] ∅ 7 [] tt)) Vfs.demo_io Vfs.vfs_init s (fun _ => 0).

Lemma demo_sys_len s i p : procs (ks (y_k (demo_sys s))) !! i = Some p -> length (fd_table p) = PROCESS_MAX_FDS.
Proof. destruct i; [by intros [= <-]|done]. Qed.

Lemma demo_disk_fd s fd ino : (fd = 3 /\ ino = 3) \/ (fd = 4 /\ ino = 2) -> disk_fd 0 fd ino (demo_sys s).
Proof. intros [[-> ->]|[-> ->]]; (split; [cbn; lia|apply demo_sys_len|lia|done|done|lia]). Qed.



(** The path "/." is the root directory, which all may read and only root may
    write. *)
Definition demo_path : list Z := Vfs.txt "/.".

Lemma demo_path_lookup : Ext2Dir.ext2_path_lookup demo_path Ext2Dir.demo_tree = Answer 2.
Proof. by vm_compute. Qed.

Lemma demo_on_disk : on_disk 0x1000 demo_path (demo_sys Ext2Dir.demo_tree).
Proof. split; [done|done|by vm_compute|by vm_compute|done]. Qed.


Lemma open_truncates_unwritable_witness : exists y' r,
  sys_open 0 0x1000 demo_path O_TRUNC Ext2.inode_zero (demo_sys Ext2Dir.demo_tree) = Answer (y', r) /\
  Ext2.ext2_read_inode 2 (y_fs y') = Some (Ext2Dir.demo_root <| Ext2.i_size := 0 |>).
Proof.
  exact (open_truncates_unwritable 0 0x1000 demo_path O_TRUNC Ext2.inode_zero 2 Ext2Dir.demo_root (demo_sys Ext2Dir.demo_tree) demo_on_disk demo_path_lookup ltac:(done)
    (proj1 Ext2Dir.demo_tree_spec) (Ext2Dir.at_ino _ _ _ _ Ext2Dir.demo_dir) (Ext2Dir.at_inode _ _ _ _ Ext2Dir.demo_dir) Ext2Dir.demo_root_wf eq_refl eq_refl eq_refl).
Defined.

Lemma mkdir_unlink_need_write_witness : sys_mkdir 0 0x1000 (Vfs.txt "/a") (demo_sys Ext2Dir.demo_tree) = Answer (demo_sys Ext2Dir.demo_tree, ERR64) /\
  sys_unlink 0 0x1000 (Vfs.txt "/a") (demo_sys Ext2Dir.demo_tree) = Answer (demo_sys Ext2Dir.demo_tree, ERR64).
Proof.
  exact (mkdir_unlink_need_write 0 0x1000 (Vfs.txt "/a") None (Vfs.txt "a") 2 Ext2Dir.demo_root (demo_sys Ext2Dir.demo_tree) eq_refl eq_refl (Ext2Dir.at_inode _ _ _ _ Ext2Dir.demo_dir) eq_refl).
Defined.

End Calls.
