(* ===== verification/Stdio.v ===== *)
(** * Formatted output and buffered files of the user library (user/lib/stdio.c
    and stdio_file.c)

    [vsnprintf] walks the format, a list of characters with its terminator, and
    stores characters one by one; a walk that leaves the format, an argument that
    is missing or one of another kind has no result.  The reference is a list of
    pieces with the format that denotes it and the text it stands for.  Buffered
    files are over the class [FileCalls] of the system calls they use;
    [FileLaws] states what they rely on, for a descriptor that reads a fixed
    sequence of bytes.  The read and lseek of Calls satisfy the laws on descriptors
    of files on disk. *)

From stdpp Require Import prelude gmap.
From Stdlib Require Import ZArith Lia.
From S2P Require Import Prelude UserStd Process Sched Vm Mmap Ext2 Ext2Dir Vfs Files Life Calls.
Import UserStd Process Files.
Local Open Scope Z_scope.

Module Stdio.

(** ** vsnprintf *)

(** The arguments: numbers, and strings by their characters or NULL. *)
Inductive va := VInt (z : Z) | VStr (s : option (list Z)).

Record out := mk_out { o_buf : list Z; o_pos : Z; o_needed : Z }.
#[export] Instance eta_out : Eta out := fun o => mk_out (o_buf o) (o_pos o) (o_needed o).

(** The macro PUTC. *)
Definition putc (size : Z) (o : out) (c : Z) : out :=
  let o := if o_pos o + 1 <? size then o <| o_buf ::= fun b => zset b (o_pos o) c |> <| o_pos ::= fun p => p + 1 |> else o in
  o <| o_needed ::= fun n => n + 1 |>.

Definition put_all (size : Z) (l : list Z) (o : out) : out := foldl (putc size) o l.

(** The digits of a number in [tmp], the first one first. *)
Definition number (u base : Z) : option (list Z) := if u =? 0 then Some [48] else (fun l => reverse l) <$> digits 65 u base.

Definition null_text : list Z := [40; 110; 117; 108; 108; 41].

(** The characters of a conversion and whether they are those of a string;
    [None] for the outer option when the argument does not fit. *)
Definition convert (d : Z) (is_long : bool) (a : va) : option (list Z * bool) :=
  match a with
  | VInt z =>
      if d =? 100 then
        let v := if is_long then s64 z else s32 z in
        (fun l => (if v <? 0 then 45 :: l else l, false)) <$> number (u64 (Z.abs v)) 10
      else if d =? 117 then (fun l => (l, false)) <$> number (if is_long then u64 z else u32 z) 10
      else if d =? 120 then (fun l => (l, false)) <$> number (if is_long then u64 z else u32 z) 16
      else if d =? 112 then (fun l => (l, false)) <$> number (u64 z) 16
      else if d =? 99 then Some ([u8 z], false)
      else None
  | VStr s => if d =? 115 then Some (default null_text s, true) else None
  end.

Definition is_conversion (d : Z) : bool := (d =? 100) || (d =? 117) || (d =? 120) || (d =? 112) || (d =? 115) || (d =? 99).

(** The characters with their padding. *)
Definition padded (zero left : bool) (width : Z) (l : list Z) (str : bool) : list Z :=
  let n := Z.to_nat (width - Z.of_nat (length l)) in
  if left then l ++ replicate n 32 else replicate n (if zero && negb str then 48 else 32) ++ l.

Definition is_flag (c : Z) : bool := (c =? 48) || (c =? 45).

(** The letter l. *)
Definition long_prefix (f : list Z) : bool * list Z :=
  match f with c :: r => if c =? 108 then (true, r) else (false, f) | [] => (false, f) end.

(** One turn of the loop behind a percent sign: the characters put out, the
    rest of the format and of the arguments. *)
Definition directive (f : list Z) (args : list va) : option (list Z * list Z * list va) :=
  let '(k, f1) := skip is_flag f in
  let flags := take (Z.to_nat k) f in
  let zero := existsb (Z.eqb 48) flags in
  let left := existsb (Z.eqb 45) flags in
  let width := decimal s32 0 f1 in
  let '(_, f2) := skip is_digit f1 in
  let '(is_long, f3) := long_prefix f2 in
  match f3 with
  | [] => None
  | d :: f4 =>
      if is_conversion d then
        match args with
        | [] => None
        | a :: args' => '(l, str) ← convert d is_long a; Some (padded zero left width l str, f4, args')
        end
      else Some (if d =? 37 then [37] else [37; d], f4, args)
  end.

(** A turn takes at least one character of the format. *)
Fixpoint format_loop (fuel : nat) (size : Z) (f : list Z) (args : list va) (o : out) : option out :=
  match fuel, f with
  | S fuel', c :: f' =>
      if c =? 0 then Some o else
      if c =? 37 then '(l, r, args') ← directive f' args; format_loop fuel' size r args' (put_all size l o)
      else format_loop fuel' size f' args (putc size o c)
  | _, _ => None
  end.

(** The buffer and the value returned. *)
Definition vsnprintf (buf : list Z) (size : Z) (fmt : list Z) (args : list va) : option (list Z * Z) :=
  o ← format_loop (length fmt) size fmt args (mk_out buf 0 0);
  Some (if 0 <? size then zset (o_buf o) (o_pos o) 0 else o_buf o, s32 (o_needed o)).

(** ** printf: the bytes written, the value returned *)

Definition PRINTF_BUF : Z := 1024.

(** [big]: whether malloc gives the larger buffer, and its bytes. *)
Definition printf (stack : list Z) (big : Z -> option (list Z)) (fmt : list Z) (args : list va) : option (list Z * Z) :=
  '(buf, n) ← vsnprintf stack PRINTF_BUF fmt args;
  if n <? 0 then Some ([], n) else
  if n <? PRINTF_BUF then Some (take (Z.to_nat n) buf, n) else
  match big (n + 1) with
  | None => Some (take (Z.to_nat (PRINTF_BUF - 1)) buf, PRINTF_BUF - 1)
  | Some mem => '(buf2, n2) ← vsnprintf mem (n + 1) fmt args; Some (take (Z.to_nat n2) buf2, n2)
  end.

(** ** The reference *)

Inductive conv := Dec (long : bool) (z : Z) | Uns (long : bool) (z : Z) | Hex (long : bool) (z : Z) | Ptr (z : Z) | Str (s : option (list Z)) | Chr (c : Z).
Inductive piece := Lit (c : Z) | Percent | Field (left zero : bool) (width : Z) (v : conv).

(** The digits of a number without leading zeros. *)
Definition num_text (u base : Z) : list Z := default [] (number u base).
Definition signed_text (z : Z) : list Z := (if z <? 0 then [45] else []) ++ num_text (Z.abs z) 10.

Definition conv_text (v : conv) : list Z :=
  match v with
  | Dec _ z => signed_text z
  | Uns _ z => num_text z 10
  | Hex _ z | Ptr z => num_text z 16
  | Str s => default null_text s
  | Chr c => [c]
  end.

Definition is_str (v : conv) : bool := match v with Str _ => true | _ => false end.
Definition conv_arg (v : conv) : va := match v with Dec _ z | Uns _ z | Hex _ z | Ptr z | Chr z => VInt z | Str s => VStr s end.
Definition conv_letter (v : conv) : Z := match v with Dec _ _ => 100 | Uns _ _ => 117 | Hex _ _ => 120 | Ptr _ => 112 | Str _ => 115 | Chr _ => 99 end.
Definition conv_long (v : conv) : bool := match v with Dec l _ | Uns l _ | Hex l _ => l | _ => false end.
Definition width_text (w : Z) : list Z := if w =? 0 then [] else num_text w 10.

(** The format of a piece, what it prints and the argument it takes. *)
Definition piece_fmt (p : piece) : list Z :=
  match p with
  | Lit c => [c]
  | Percent => [37; 37]
  | Field lft zp w v => 37 :: (if lft then [45] else []) ++ (if zp then [48] else []) ++ width_text w ++ (if conv_long v then [108] else []) ++ [conv_letter v]
  end.
Definition piece_text (p : piece) : list Z :=
  match p with Lit c => [c] | Percent => [37] | Field lft zp w v => padded zp lft w (conv_text v) (is_str v) end.
Definition piece_args (p : piece) : list va := match p with Field _ _ _ v => [conv_arg v] | _ => [] end.

Definition fmt_of (ps : list piece) : list Z := mjoin (piece_fmt <$> ps).
Definition text_of (ps : list piece) : list Z := mjoin (piece_text <$> ps).
Definition args_of (ps : list piece) : list va := mjoin (piece_args <$> ps).

(** The values fit the conversion. *)
Definition conv_ok (v : conv) : Prop :=
  match v with
  | Dec long z => if long then - 2 ^ 63 <= z < 2 ^ 63 else - 2 ^ 31 <= z < 2 ^ 31
  | Uns long z | Hex long z => 0 <= z < if long then 2 ^ 64 else 2 ^ 32
  | Ptr z => 0 <= z < 2 ^ 64
  | Str _ => True
  | Chr c => 0 <= c < 256
  end.
Definition piece_ok (p : piece) : Prop :=
  match p with Lit c => c <> 0 /\ c <> 37 | Percent => True | Field _ _ w v => 0 <= w < 2 ^ 31 /\ conv_ok v end.

(** ** Numbers *)

Lemma num_text_spec u base : 0 <= u < 2 ^ 64 -> base = 10 \/ base = 16 -> exists d r, number u base = Some (num_text u base) /\ num_text u base = digit <$> d :: r /\
  Forall (fun d => 0 <= d < base) (d :: r) /\ value base (d :: r) = u /\ (u <> 0 -> d <> 0).
Proof.
  intros Hu Hb. assert (u < base ^ Z.of_nat 64) as Hlt by (eapply Z.lt_le_trans; [apply Hu|]; apply Z.pow_le_mono_l; lia).
  destruct (number_text base u 64 ltac:(lia) ltac:(lia) ltac:(lia)) as (d & r & E & _ & HF & Hv & Hd). exists d, r. unfold num_text, number in *.
  assert (u <> 0 -> d <> 0) as Hd0. { intros Hne ->. specialize (Hd eq_refl). subst r. cbn in Hv. lia. }
  destruct (u =? 0) eqn:E0.
  - injection E as E. split_and!; [done| |done..]. cbn [default from_option id]. rewrite E. b2p. subst u. destruct r as [|x r]; [done|]. apply (f_equal length) in E. rewrite length_fmap, length_reverse in E. done.
  - rewrite E. cbn [fmap option_fmap option_map default from_option id]. rewrite <- fmap_reverse, reverse_involutive. split_and!; done.
Qed.

Lemma skip_app p (l : list Z) c r : Forall (fun x => p x = true) l -> p c = false -> skip p (l ++ c :: r) = (Z.of_nat (length l), c :: r).
Proof. intros Hl Hc. induction Hl as [|x l Hx _ IH]; cbn [app skip]; [by rewrite Hc|]. rewrite Hx, IH. cbn [length]. f_equal. lia. Qed.

(** Only the digits in front count. *)
Lemma decimal_stop w l c r r' : forall n, Forall (fun x => is_digit x = true) l -> is_digit c = false -> decimal w n (l ++ c :: r) = decimal w n (l ++ 0 :: r').
Proof. intros n Hl Hc. revert n. induction Hl as [|x l Hx _ IH]; intros n; cbn [app decimal]; [by rewrite Hc|]. rewrite Hx. apply IH. Qed.

Lemma digits_are ds : Forall (fun d => 0 <= d < 10) ds -> Forall (fun x => is_digit x = true) (digit <$> ds).
Proof.
  intros Hf. apply Forall_fmap. eapply Forall_impl; [exact Hf|]. intros d Hd. cbn beta in Hd. unfold compose, digit, is_digit. destruct (Z.ltb_spec d 10); lia.
Qed.

(** The width is read back, up to the character behind it. *)
Lemma width_read w c r : 0 <= w < 2 ^ 31 -> is_digit c = false -> decimal s32 0 (width_text w ++ c :: r) = w /\ skip is_digit (width_text w ++ c :: r) = (Z.of_nat (length (width_text w)), c :: r).
Proof.
  intros Hw Hc. unfold width_text. destruct (Z.eqb_spec w 0) as [->|Hne]; [cbn [app decimal skip]; by rewrite Hc|].
  destruct (num_text_spec w 10 ltac:(lia) ltac:(by left)) as (d & x & _ & -> & HF & Hv & _). split; [|by apply skip_app; [apply digits_are|]].
  rewrite (decimal_stop _ _ _ _ []) by (done || by apply digits_are). rewrite (decimal_digits s32 (2 ^ 31)); [lia|intros z Hz; apply s32_small; lia|done|lia|lia].
Qed.

(** The first character of a width is no flag. *)
Lemma width_head w c r : 0 <= w < 2 ^ 31 -> is_flag c = false -> exists x y, width_text w ++ c :: r = x :: y /\ is_flag x = false.
Proof.
  intros Hw Hc. unfold width_text. destruct (Z.eqb_spec w 0) as [->|Hne]; [by eexists _, _|]. destruct (num_text_spec w 10 ltac:(lia) ltac:(by left)) as (d & x & _ & -> & HF & _ & Hd).
  eexists _, _. split; [done|]. apply Forall_cons in HF as [H0 _]. specialize (Hd Hne). unfold digit, is_flag. destruct (Z.ltb_spec d 10); lia.
Qed.

(** A signed number is read back by [atol]. *)
Lemma atol_signed z r : - 2 ^ 63 < z < 2 ^ 63 -> atol (signed_text z ++ 0 :: r) = z.
Proof.
  intros Hz. assert (forall x, 0 <= x < 2 ^ 63 -> s64 x = x) as Hs by (intros x Hx; unfold s64; rewrite u64_small, (proj2 (Z.ltb_lt x _)) by lia; done).
  destruct (num_text_spec (Z.abs z) 10 ltac:(lia) ltac:(by left)) as (d & x & _ & E & HF & Hv & _). unfold signed_text. rewrite E.
  assert (decimal s64 0 ((digit <$> d :: x) ++ 0 :: r) = Z.abs z) as Hdec by (rewrite (decimal_digits s64 (2 ^ 63)); [lia|exact Hs|done|lia|lia]).
  apply Forall_cons in HF as [H0 _]. assert (digit d = 48 + d) as Ed by (unfold digit; by rewrite (proj2 (Z.ltb_lt d 10)) by lia). unfold atol. destruct (Z.ltb_spec z 0).
  - cbn [app skip]. change (32 =? 45) with false. cbn [sign]. change (45 =? 45) with true. cbv iota beta. rewrite Hdec. unfold s64. assert (u64 (- Z.abs z) = 2 ^ 64 + z) as -> by zsolve. rewrite (proj2 (Z.ltb_ge _ _)) by lia. lia.
  - cbn [fmap list_fmap app skip] in *. rewrite (proj2 (Z.eqb_neq 32 (digit d))) by lia. cbn [sign]. rewrite (proj2 (Z.eqb_neq (digit d) 45)), (proj2 (Z.eqb_neq (digit d) 43)) by lia. cbv iota beta. rewrite Hdec. lia.
Qed.

(** ** The walk over the format *)

Lemma s64_id z : - 2 ^ 63 <= z < 2 ^ 63 -> s64 z = z.
Proof. intros Hz. unfold s64. destruct (decide (0 <= z)); [rewrite u64_small, (proj2 (Z.ltb_lt z _)) by lia; done|]. assert (u64 z = z + 2 ^ 64) as -> by zsolve. rewrite (proj2 (Z.ltb_ge _ _)) by lia. lia. Qed.

Lemma convert_spec v : conv_ok v -> convert (conv_letter v) (conv_long v) (conv_arg v) = Some (conv_text v, is_str v) /\ is_conversion (conv_letter v) = true.
Proof.
  assert (forall u b, 0 <= u < 2 ^ 64 -> b = 10 \/ b = 16 -> number u b = Some (num_text u b)) as Hn by (intros u b Hu Hb; by destruct (num_text_spec u b Hu Hb) as (? & ? & ? & _)).
  intros Hv. split; [|by destruct v]. destruct v as [l z|l z|l z|z|s|c]; cbn [conv_ok conv_letter conv_long conv_arg convert Z.eqb Pos.eqb] in *.
  - replace (if l then s64 z else s32 z) with z by (destruct l; [by rewrite s64_id|by rewrite s32_id by lia]). rewrite u64_small by (destruct l; lia). rewrite Hn by (destruct l; lia). cbn. unfold signed_text. by destruct (z <? 0).
  - replace (if l then u64 z else u32 z) with z by (destruct l; [by rewrite u64_small by lia|by rewrite u32_small by lia]). rewrite Hn by (destruct l; lia). done.
  - replace (if l then u64 z else u32 z) with z by (destruct l; [by rewrite u64_small by lia|by rewrite u32_small by lia]). rewrite Hn by (destruct l; lia). done.
  - rewrite u64_small, Hn by lia. done.
  - done.
  - by rewrite u8_small by lia.
Qed.

(** The letters end the flags and the width. *)
Lemma letter_stops v r : exists c x, (if conv_long v then [108] else []) ++ conv_letter v :: r = c :: x /\ is_digit c = false /\ is_flag c = false.
Proof. destruct v as [[]?|[]?|[]?|?|?|?]; by eexists _, _. Qed.

Lemma directive_field lft zp w v r args : piece_ok (Field lft zp w v) ->
  directive ((if lft then [45] else []) ++ (if zp then [48] else []) ++ width_text w ++ (if conv_long v then [108] else []) ++ conv_letter v :: r) (conv_arg v :: args) =
    Some (piece_text (Field lft zp w v), r, args).
Proof.
  intros [Hw Hv]. destruct (letter_stops v r) as (c & x & E & Hc & Hf). rewrite E. destruct (width_head w c x Hw Hf) as (h & t & Eh & Hh). destruct (width_read w c x Hw Hc) as [Hdec Hskip]. rewrite Eh in *.
  unfold directive. set (fl := (if lft then [45] else []) ++ (if zp then [48] else [])). rewrite app_assoc. fold fl.
  rewrite (skip_app is_flag fl) by (done || (unfold fl; destruct lft, zp; by repeat constructor)). rewrite Nat2Z.id, take_app_length.
  replace (existsb (Z.eqb 48) fl) with zp by (unfold fl; by destruct lft, zp). replace (existsb (Z.eqb 45) fl) with lft by (unfold fl; by destruct lft, zp).
  rewrite Hdec, Hskip, <- E. destruct (convert_spec v Hv) as [Ec Ei].
  assert (long_prefix ((if conv_long v then [108] else []) ++ conv_letter v :: r) = (conv_long v, conv_letter v :: r)) as -> by (by destruct v as [[]?|[]?|[]?|?|?|?]).
  by rewrite Ei, Ec.
Qed.

(** ** The buffer *)

(** The state behind the text [t]: the part of it that fits is in the buffer. *)
Definition stored (buf : list Z) (size : Z) (t : list Z) : out :=
  let k := take (Z.to_nat (size - 1)) t in mk_out (blit buf 0 k) (Z.of_nat (length k)) (Z.of_nat (length t)).

Lemma putc_stored buf size t c : size <= Z.of_nat (length buf) -> putc size (stored buf size t) c = stored buf size (t ++ [c]).
Proof.
  intros Hs. unfold putc, stored. cbn [o_pos o_buf o_needed]. rewrite length_app, length_take. cbn [length]. destruct (Z.ltb_spec (Z.of_nat (Z.to_nat (size - 1) `min` length t) + 1) size) as [Hlt|Hge].
  - rewrite !take_ge by (rewrite ?length_app; cbn [length]; lia). cbn. rewrite length_app. cbn [length]. f_equal; [|lia..].
    unfold zset, blit. change (Z.to_nat 0) with 0%nat. rewrite !take_0. cbn [app Nat.add]. replace (Z.to_nat (Z.of_nat (Z.to_nat (size - 1) `min` length t))) with (length t + 0)%nat by lia. rewrite insert_app_r. 
    destruct (drop (length t) buf) as [|x b] eqn:E; [apply (f_equal length) in E; rewrite length_drop in E; cbn in E; lia|]. cbn [insert list_insert]. rewrite <- app_assoc, length_app. cbn [app length].
    rewrite <- drop_drop, E. done.
  - rewrite take_app_le by lia. cbn. rewrite length_take. f_equal. lia.
Qed.

Lemma put_all_stored buf size l t : size <= Z.of_nat (length buf) -> put_all size l (stored buf size t) = stored buf size (t ++ l).
Proof. intros Hs. revert t. induction l as [|c l IH]; intros t; [by rewrite app_nil_r|]. cbn [put_all foldl]. rewrite putc_stored by done. fold (put_all size l (stored buf size (t ++ [c]))). rewrite IH, <- app_assoc. done. Qed.

(** The loop over the pieces, one turn for each; what follows them is [rest]. *)
Lemma format_loop_pieces buf size ps rest args : size <= Z.of_nat (length buf) -> Forall piece_ok ps -> forall fuel t,
  format_loop (length ps + fuel) size (fmt_of ps ++ rest) (args_of ps ++ args) (stored buf size t) = format_loop fuel size rest args (stored buf size (t ++ text_of ps)).
Proof.
  intros Hs Hp. induction Hp as [|p ps Hok _ IH]; intros fuel t; [unfold text_of; cbn; by rewrite app_nil_r|].
  change (fmt_of (p :: ps)) with (piece_fmt p ++ fmt_of ps). change (text_of (p :: ps)) with (piece_text p ++ text_of ps). change (args_of (p :: ps)) with (piece_args p ++ args_of ps).
  rewrite (app_assoc t), <- IH, <- (app_assoc (piece_fmt p)), <- (app_assoc (piece_args p)). destruct p as [c| |lft zp w v]; cbn [piece_fmt app length Nat.add format_loop piece_args piece_text].
  - destruct Hok as [H0 H37]. rewrite (proj2 (Z.eqb_neq c 0)), (proj2 (Z.eqb_neq c 37)) by done. by rewrite putc_stored.
  - change (37 =? 0) with false. change (37 =? 37) with true. cbv iota. change (directive (37 :: fmt_of ps ++ rest) (args_of ps ++ args)) with (Some ([37], fmt_of ps ++ rest, args_of ps ++ args)). cbn [mbind option_bind]. by rewrite put_all_stored.
  - change (37 =? 0) with false. change (37 =? 37) with true. cbv iota. rewrite <- !app_assoc. cbn [app]. rewrite directive_field by done. cbn [mbind option_bind]. by rewrite put_all_stored.
Qed.

Lemma pieces_length ps : (length ps <= length (fmt_of ps))%nat.
Proof. induction ps as [|p ps IH]; [done|]. change (fmt_of (p :: ps)) with (piece_fmt p ++ fmt_of ps). rewrite length_app. destruct p; cbn [piece_fmt length]; lia. Qed.

(** Behind the pieces there is fuel for each character of the rest. *)
Lemma format_loop_all buf size ps rest args : 0 <= size <= Z.of_nat (length buf) -> Forall piece_ok ps ->
  exists k, format_loop (length (fmt_of ps ++ rest)) size (fmt_of ps ++ rest) (args_of ps ++ args) (mk_out buf 0 0) =
    format_loop (length rest + k) size rest args (stored buf size (text_of ps)).
Proof.
  intros Hs Hp. exists (length (fmt_of ps) - length ps)%nat. pose proof (pieces_length ps). rewrite length_app.
  replace (length (fmt_of ps) + length rest)%nat with (length ps + (length rest + (length (fmt_of ps) - length ps)))%nat by lia.
  assert (mk_out buf 0 0 = stored buf size []) as -> by (unfold stored, blit; rewrite take_nil; done). rewrite format_loop_pieces by (done || lia). done.
Qed.

(** The bytes and the value that [vsnprintf] leaves. *)
Lemma vsnprintf_text ps buf size : Forall piece_ok ps -> 0 <= size <= Z.of_nat (length buf) -> Z.of_nat (length (text_of ps)) < 2 ^ 31 ->
  vsnprintf buf size (fmt_of ps ++ [0]) (args_of ps) =
    Some (if 0 <? size then blit buf 0 (take (Z.to_nat (size - 1)) (text_of ps) ++ [0]) else buf, Z.of_nat (length (text_of ps))).
Proof.
  intros Hp Hs Hl. unfold vsnprintf. destruct (format_loop_all buf size ps [0] [] Hs Hp) as (k & E). rewrite app_nil_r in E. rewrite E. cbn [length Nat.add format_loop]. change (0 =? 0) with true. cbn [mbind option_bind].
  unfold stored. cbn [o_buf o_pos o_needed]. rewrite s32_small by lia. do 2 f_equal. set (l := take _ _). destruct (Z.ltb_spec 0 size) as [H0|H0].
  - unfold zset, blit. change (Z.to_nat 0) with 0%nat. rewrite !take_0. cbn [app Nat.add]. rewrite Nat2Z.id. assert (length l < length buf)%nat as Hlt by (unfold l; rewrite length_take; lia).
    replace (length l) with (length l + 0)%nat at 1 by lia. rewrite insert_app_r. destruct (drop (length l) buf) as [|x b] eqn:Eb; [apply (f_equal length) in Eb; rewrite length_drop in Eb; cbn in Eb; lia|].
    rewrite length_app, <- drop_drop, Eb, <- app_assoc. done.
  - assert (l = []) as -> by (unfold l; by replace (Z.to_nat (size - 1)) with 0%nat by lia). done.
Qed.

(** ** Claims *)


(** Printf writes the whole text, however long: a text that does not fit the
    buffer on the stack is formatted again into one of its size, and what is written is
    the text of the format in both cases, and its length is returned. *)
Theorem printf_writes_text ps stack big mem : Forall piece_ok ps -> Z.of_nat (length stack) = PRINTF_BUF -> let n := Z.of_nat (length (text_of ps)) in n + 1 < 2 ^ 31 ->
  big (n + 1) = Some mem -> Z.of_nat (length mem) = n + 1 -> printf stack big (fmt_of ps ++ [0]) (args_of ps) = Some (text_of ps, n).
Proof.
  intros Hp Hst n Hn Hb Hm. unfold printf, PRINTF_BUF in *. rewrite vsnprintf_text by (done || lia). cbn [mbind option_bind]. fold n. rewrite (proj2 (Z.ltb_ge n 0)) by lia. cbn [Z.ltb Z.compare].
  assert (forall b (l : list Z), take (length l) (blit b 0 (l ++ [0])) = l) as Ht by (intros b l; unfold blit; change (Z.to_nat 0) with 0%nat; rewrite take_0; cbn [app]; by rewrite <- app_assoc, take_app_length).
  destruct (Z.ltb_spec n 1024).
  - rewrite (take_ge (text_of ps)) by lia. do 2 f_equal. unfold n. rewrite Nat2Z.id. apply Ht.
  - rewrite Hb, vsnprintf_text by (done || lia). cbn [mbind option_bind]. rewrite (proj2 (Z.ltb_lt 0 (n + 1))) by lia. rewrite (take_ge (text_of ps)) by lia. do 2 f_equal. fold n. unfold n. rewrite Nat2Z.id. apply Ht.
Qed.

(** A number printed with "%ld" into a buffer of at least 21 characters is
    read back by [atol]. *)
Theorem printed_number_reads_back z buf : - 2 ^ 63 < z < 2 ^ 63 -> 21 <= Z.of_nat (length buf) ->
  exists buf' n, vsnprintf buf (Z.of_nat (length buf)) [37; 108; 100; 0] [VInt z] = Some (buf', n) /\ atol buf' = z.
Proof.
  intros Hz Hl. pose proof (vsnprintf_text [Field false false 0 (Dec true z)] buf (Z.of_nat (length buf))) as E. change (fmt_of [Field false false 0 (Dec true z)] ++ [0]) with [37; 108; 100; 0] in E.
  change (args_of [Field false false 0 (Dec true z)]) with [VInt z] in E. assert (text_of [Field false false 0 (Dec true z)] = signed_text z) as Et.
  { unfold text_of. cbn [fmap list_fmap piece_text mjoin list_join conv_text is_str]. rewrite app_nil_r. unfold padded. by replace (Z.to_nat (0 - Z.of_nat (length (signed_text z)))) with 0%nat by lia. }
  assert (length (signed_text z) <= 20)%nat as Hs.
  { unfold signed_text, num_text, number. rewrite length_app. destruct (number_text 10 (Z.abs z) 19 ltac:(lia) ltac:(lia) ltac:(lia)) as (d & r & E1 & Hd & _). destruct (Z.abs z =? 0).
    - destruct (z <? 0); cbn; lia.
    - rewrite E1. cbn [fmap option_fmap option_map default from_option id]. rewrite length_reverse, length_fmap, length_reverse. destruct (z <? 0); cbn [length] in *; lia. }
  rewrite Et in E. eexists _, _. split; [apply E; [by repeat constructor; cbn; lia|lia|lia]|]. rewrite (proj2 (Z.ltb_lt 0 _)), (take_ge (signed_text z)) by lia. unfold blit. change (Z.to_nat 0) with 0%nat. rewrite take_0. cbn [app].
  rewrite <- app_assoc. by apply atol_signed.
Qed.

(** A format that ends with a percent sign is not ended by its terminator:
    the walk prints the terminator as an unknown conversion and goes on behind
    it, outside the format. *)
Theorem trailing_percent_overruns ps buf size : Forall piece_ok ps -> 0 <= size <= Z.of_nat (length buf) -> vsnprintf buf size (fmt_of ps ++ [37; 0]) (args_of ps) = None.
Proof.
  intros Hp Hs. unfold vsnprintf. destruct (format_loop_all buf size ps [37; 0] [] Hs Hp) as (k & E). rewrite app_nil_r in E. rewrite E. done.
Qed.

(** ** Buffered files *)

Definition FILE_RBUF_SIZE : Z := 512.

Record FILE := mk_FILE { fd : Z; eof : bool; error : bool; owns_fd : bool; rbuf : list Z; rbuf_pos : Z; rbuf_len : Z }.
#[export] Instance eta_FILE : Eta FILE := fun f => mk_FILE (fd f) (eof f) (error f) (owns_fd f) (rbuf f) (rbuf_pos f) (rbuf_len f).

(** The system calls.  [u_read]: the result, and the bytes stored. *)
Class OpenCalls (W : Type) := {
  u_open : list Z -> Z -> W -> W * Z;
  u_close : Z -> W -> W * Z
}.

Class FileCalls (W : Type) := {
  u_read : Z -> Z -> W -> W * Z * list Z;
  u_write : Z -> list Z -> W -> W * Z;
  u_lseek : Z -> Z -> Z -> W -> W * Z
}.

(** [u_at w fd c p]: the descriptor reads the bytes [c] and stands at [p]. *)
Class FileLaws (W : Type) `{FileCalls W} := {
  u_at : W -> Z -> list Z -> Z -> Prop;
  u_at_range : forall w d c p, u_at w d c p -> 0 <= p < 2 ^ 62 /\ Z.of_nat (length c) < 2 ^ 31;
  u_read_law : forall w d c p, u_at w d c p ->
    let '(w', r, bs) := u_read d FILE_RBUF_SIZE w in bs = slice c p FILE_RBUF_SIZE /\ r = Z.of_nat (length bs) /\ u_at w' d c (p + Z.of_nat (length bs));
  u_seek_law : forall w d c p q off whence, u_at w d c p -> (whence = 0 /\ q = off) \/ (whence = 1 /\ q = p + off) -> 0 <= q < 2 ^ 62 ->
    let '(w', r) := u_lseek d off whence w in r = q /\ u_at w' d c q
}.

Section buffered.
Context {W : Type} `{FileCalls W} `{OpenCalls W}.

Definition O_RDONLY : Z := 0.
Definition O_WRONLY : Z := 1.
Definition O_RDWR : Z := 2.
Definition SEEK_CUR : Z := 1.

(** The flags of a mode, [None] for an unknown one. *)
Definition mode_flags (mode : list Z) : option Z :=
  let c := zget mode 0 in
  flags ← (if c =? 114 then Some O_RDONLY else if c =? 119 then Some (Z.lor (Z.lor O_WRONLY 0x40) 0x200)
           else if c =? 97 then Some (Z.lor (Z.lor O_WRONLY 0x40) 0x400) else None);
  Some (if zget mode 1 =? 43 then Z.lor (Z.land flags (u32 (Z.lnot O_WRONLY))) O_RDWR else flags).

(** [mem]: the bytes of the buffer in the block that malloc gives, if it gives
    one. *)
Definition fopen (path mode : list Z) (mem : option (list Z)) (w : W) : W * option FILE :=
  match mode_flags mode with
  | None => (w, None)
  | Some flags =>
      let '(w, r) := u_open path flags w in
      if s32 r <? 0 then (w, None) else
      match mem with
      | None => ((u_close (s32 r) w).1, None)
      | Some b => (w, Some (mk_FILE (s32 r) false false true b 0 0))
      end
  end.

Definition fdopen (d : Z) (mem : option (list Z)) : option FILE := (fun b => mk_FILE d false false true b 0 0) <$> mem.

Definition fclose (f : option FILE) (w : W) : W * Z :=
  match f with
  | None => (w, -1)
  | Some f => if owns_fd f then let '(w, r) := u_close (fd f) w in (w, s32 r) else (w, 0)
  end.

(** The loop of fread: at least a byte is copied in every turn. *)
Fixpoint fread_loop (fuel : nat) (total : Z) (f : FILE) (out : list Z) (w : W) : FILE * W * list Z :=
  match fuel with
  | O => (f, w, out)
  | S fuel' =>
      if total <=? Z.of_nat (length out) then (f, w, out) else
      let copy f w :=
        let take := Z.min (rbuf_len f - rbuf_pos f) (total - Z.of_nat (length out)) in
        fread_loop fuel' total (f <| rbuf_pos ::= fun p => p + take |>) (out ++ slice (rbuf f) (rbuf_pos f) take) w in
      if rbuf_len f <=? rbuf_pos f then
        let '(w, r, bs) := u_read (fd f) FILE_RBUF_SIZE w in
        if r <=? 0 then (if r =? 0 then f <| eof := true |> else f <| error := true |>, w, out)
        else copy (f <| rbuf ::= fun b => blit b 0 bs |> <| rbuf_len := s32 r |> <| rbuf_pos := 0 |>) w
      else copy f w
  end.

(** Also the bytes stored. *)
Definition fread (size nmemb : Z) (f : FILE) (w : W) : FILE * W * list Z * Z :=
  if (size =? 0) || (nmemb =? 0) then (f, w, [], 0) else
  let total := u64 (size * nmemb) in
  let '(f, w, out) := fread_loop (Z.to_nat total) total f [] w in (f, w, out, Z.of_nat (length out) / size).

Definition fwrite (data : list Z) (size nmemb : Z) (f : FILE) (w : W) : FILE * W * Z :=
  if (size =? 0) || (nmemb =? 0) then (f, w, 0) else
  let '(w, r) := u_write (fd f) (take (Z.to_nat (u64 (size * nmemb))) data) w in
  if r <? 0 then (f <| error := true |>, w, 0) else (f, w, r / size).

Definition fseek (f : FILE) (offset whence : Z) (w : W) : FILE * W * Z :=
  let offset := if whence =? SEEK_CUR then offset - (rbuf_len f - rbuf_pos f) else offset in
  let '(w, r) := u_lseek (fd f) offset whence w in
  if r <? 0 then (f, w, -1) else (f <| rbuf_pos := 0 |> <| rbuf_len := 0 |> <| eof := false |>, w, 0).

Definition ftell (f : FILE) (w : W) : W * Z :=
  let '(w, r) := u_lseek (fd f) 0 SEEK_CUR w in
  if r <? 0 then (w, -1) else (w, r - (rbuf_len f - rbuf_pos f)).

Definition feof (f : FILE) : bool := eof f && (rbuf_len f <=? rbuf_pos f).

(** ** The plain file behind the buffer *)

Context `{!FileLaws W}.

(** The stream stands at [p]: the buffer holds the bytes from there on, the
    descriptor is behind them. *)
Record stream (f : FILE) (w : W) (c : list Z) (p : Z) : Prop := mk_stream {
  st_buf : Z.of_nat (length (rbuf f)) = FILE_RBUF_SIZE;
  st_pos : 0 <= rbuf_pos f <= rbuf_len f;
  st_len : rbuf_len f <= FILE_RBUF_SIZE;
  st_low : 0 <= p;
  st_at : u_at w (fd f) c (p + (rbuf_len f - rbuf_pos f));
  st_ahead : slice (rbuf f) (rbuf_pos f) (rbuf_len f - rbuf_pos f) = slice c p (rbuf_len f - rbuf_pos f)
}.

Lemma slice_within {A} (l : list A) p n o k : 0 <= p -> 0 <= o -> 0 <= k -> o + k <= n -> slice (slice l p n) o k = slice l (p + o) k.
Proof.
  intros Hp Ho Hk Hn. unfold slice. rewrite skipn_firstn_comm, take_take, drop_drop. f_equal; [lia|]. f_equal. lia.
Qed.

Lemma slice_join {A} (l : list A) p a b : 0 <= p -> 0 <= a -> 0 <= b -> slice l p a ++ slice l (p + a) b = slice l p (a + b).
Proof.
  intros Hp Ha Hb. unfold slice. rewrite !Z2Nat.inj_add by done. rewrite <- drop_drop. apply take_take_drop.
Qed.

Lemma length_slice_le {A} (l : list A) p n : 0 <= n -> Z.of_nat (length (slice l p n)) <= n.
Proof. intros Hn. unfold slice. rewrite length_take. lia. Qed.

(** A slice that is short has reached the end. *)
Lemma slice_short {A} (l : list A) p n m : 0 <= p -> 0 <= n -> Z.of_nat (length (slice l p n)) < n -> n <= m -> slice l p m = slice l p n.
Proof. intros Hp Hn Hl Hm. unfold slice in *. rewrite length_take in Hl. rewrite !take_ge by lia. done. Qed.

(** Bytes copied out of the buffer. *)
Lemma stream_copy f w c p k : stream f w c p -> 0 <= k <= rbuf_len f - rbuf_pos f ->
  slice (rbuf f) (rbuf_pos f) k = slice c p k /\ Z.of_nat (length (slice c p k)) = k /\ stream (f <| rbuf_pos ::= fun q => q + k |>) w c (p + k).
Proof.
  intros [Hb Hp Hl Hlow Ha Hs] Hk. assert (slice (rbuf f) (rbuf_pos f) k = slice c p k) as E.
  { pose proof (f_equal (fun l => slice l 0 k) Hs) as E. cbn beta in E. rewrite !slice_within, !Z.add_0_r in E by lia. exact E. }
  split; [done|]. split; [rewrite <- E, length_slice; lia|]. split; cbn; [done|lia|lia|lia| |].
  - by replace (p + k + (rbuf_len f - (rbuf_pos f + k))) with (p + (rbuf_len f - rbuf_pos f)) by lia.
  - pose proof (f_equal (fun l => slice l k (rbuf_len f - (rbuf_pos f + k))) Hs) as E'. cbn beta in E'. rewrite !slice_within in E' by lia. exact E'.
Qed.

(** A full buffer is behind the read. *)
Lemma stream_fill f w c p : stream f w c p -> rbuf_len f <= rbuf_pos f -> let '(w', r, bs) := u_read (fd f) FILE_RBUF_SIZE w in
  bs = slice c p FILE_RBUF_SIZE /\ r = Z.of_nat (length bs) /\
  (r = 0 -> stream f w' c p) /\ (0 < r -> stream (f <| rbuf ::= fun b => blit b 0 bs |> <| rbuf_len := s32 r |> <| rbuf_pos := 0 |>) w' c p).
Proof.
  intros [Hb Hp Hl Hlow Ha Hs] He. replace (p + (rbuf_len f - rbuf_pos f)) with p in Ha by lia. pose proof (u_read_law w (fd f) c p Ha) as Hr. destruct (u_read _ _ _) as [[w' r] bs]. destruct Hr as (E & Er & Ha').
  pose proof (length_slice_le c p FILE_RBUF_SIZE ltac:(done)) as Hle. rewrite <- E in Hle. unfold FILE_RBUF_SIZE in *. split_and!; [done|done| |].
  - intros ->. split; [done|done|done|done| |done]. rewrite <- Er in Ha'. by replace (p + (rbuf_len f - rbuf_pos f)) with (p + 0) by lia.
  - intros H1. rewrite s32_small by lia. split; unfold FILE_RBUF_SIZE; cbn [rbuf rbuf_pos rbuf_len fd upd]; [rewrite length_blit; lia|lia|lia|done|by rewrite Z.sub_0_r, Er|]. rewrite Z.sub_0_r, Er, slice_blit by lia.
    transitivity (slice (slice c p 512) 0 (Z.of_nat (length bs))); [|rewrite slice_within by lia; by rewrite Z.add_0_r]. rewrite <- E. unfold slice. rewrite Nat2Z.id. change (Z.to_nat 0) with 0%nat. by rewrite drop_0, take_ge by done.
Qed.

Lemma fread_loop_spec fuel total c : forall f out w p, stream f w c p -> total - Z.of_nat (length out) <= Z.of_nat fuel -> Z.of_nat (length out) <= total ->
  let bs := slice c p (total - Z.of_nat (length out)) in
  exists f' w', fread_loop fuel total f out w = (f', w', out ++ bs) /\ stream f' w' c (p + Z.of_nat (length bs)).
Proof.
  induction fuel as [|fuel IH]; intros f out w p Hst Hf Ho bs.
  { exists f, w. unfold bs. replace (total - Z.of_nat (length out)) with 0 by lia. cbn. rewrite app_nil_r, Z.add_0_r. done. }
  cbn [fread_loop]. destruct (Z.leb_spec total (Z.of_nat (length out))).
  { exists f, w. unfold bs. replace (total - Z.of_nat (length out)) with 0 by lia. cbn. rewrite app_nil_r, Z.add_0_r. done. }
  assert (forall f w, stream f w c p -> rbuf_pos f < rbuf_len f -> let k := Z.min (rbuf_len f - rbuf_pos f) (total - Z.of_nat (length out)) in
    exists f' w', fread_loop fuel total (f <| rbuf_pos ::= fun p => p + k |>) (out ++ slice (rbuf f) (rbuf_pos f) k) w = (f', w', out ++ bs) /\ stream f' w' c (p + Z.of_nat (length bs))) as Hcopy.
  { clear f w Hst. intros f w Hst Hne k. destruct (stream_copy f w c p k Hst ltac:(lia)) as (-> & Hk & Hst'). pose proof (st_low _ _ _ _ Hst). destruct (IH _ (out ++ slice c p k) w (p + k) Hst') as (f' & w' & E & Hs'); [rewrite length_app; lia..|].
    rewrite length_app, Nat2Z.inj_add, Hk in E, Hs'. assert (slice c p k ++ slice c (p + k) (total - (Z.of_nat (length out) + k)) = bs) as Eb by (rewrite slice_join by lia; unfold bs; f_equal; lia).
    exists f', w'. rewrite E, <- app_assoc, Eb. split; [done|]. rewrite <- Eb, length_app, Nat2Z.inj_add, Hk. by rewrite Z.add_assoc. }
  destruct (Z.leb_spec (rbuf_len f) (rbuf_pos f)) as [He|He]; [|by apply Hcopy].
  pose proof (stream_fill f w c p Hst He) as Hfill. destruct (u_read _ _ _) as [[w' r] bs']. destruct Hfill as (E & Er & Hz & Hn). destruct (Z.leb_spec r 0).
  - assert (r = 0) as -> by lia. specialize (Hz eq_refl). pose proof (st_low _ _ _ _ Hst). rewrite Z.eqb_refl. assert (slice c p FILE_RBUF_SIZE = []) as E0 by (rewrite <- E; destruct bs'; [done|cbn in Er; lia]).
    assert (bs = []) as ->. { unfold bs. unfold slice in *. apply nil_length_inv. apply (f_equal length) in E0. rewrite length_take in *. unfold FILE_RBUF_SIZE in E0. cbn [length] in E0. lia. }
    exists (f <| eof := true |>), w'. cbn. rewrite app_nil_r, Z.add_0_r. split; [done|]. destruct Hz. by split.
  - apply Hcopy; [apply Hn; lia|]. cbn. rewrite s32_small; [lia|]. pose proof (length_slice_le c p FILE_RBUF_SIZE ltac:(done)) as Hle. rewrite <- E in Hle. unfold FILE_RBUF_SIZE in Hle. lia.
Qed.

(** ** Sequences of calls on a stream *)

Inductive file_op := Read (size nmemb : Z) | Seek (offset whence : Z) | Tell.
Inductive file_res := Bytes (bs : list Z) (n : Z) | Result (r : Z).

Definition run_op (op : file_op) (f : FILE) (w : W) : FILE * W * file_res :=
  match op with
  | Read size nmemb => let '(f, w, bs, n) := fread size nmemb f w in (f, w, Bytes bs n)
  | Seek offset whence => let '(f, w, r) := fseek f offset whence w in (f, w, Result r)
  | Tell => let '(w, r) := ftell f w in (f, w, Result r)
  end.

(** The same on a plain file: its bytes and a position. *)
Definition plain_op (c : list Z) (op : file_op) (p : Z) : Z * file_res :=
  match op with
  | Read size nmemb => let bs := slice c p (size * nmemb) in (p + Z.of_nat (length bs), Bytes bs (Z.of_nat (length bs) / size))
  | Seek offset whence => (if whence =? 0 then offset else p + offset, Result 0)
  | Tell => (p, Result p)
  end.

(** Sizes do not overflow; seeks are from the start or relative, to a
    position that is not negative. *)
Definition op_ok (op : file_op) (p : Z) : Prop :=
  match op with
  | Read size nmemb => 0 < size /\ 0 <= nmemb /\ size * nmemb < 2 ^ 64
  | Seek offset whence => (whence = 0 /\ 0 <= offset < 2 ^ 62) \/ (whence = 1 /\ 0 <= p + offset < 2 ^ 62)
  | Tell => True
  end.

Fixpoint run_ops (ops : list file_op) (f : FILE) (w : W) : list file_res :=
  match ops with [] => [] | op :: ops' => let '(f, w, r) := run_op op f w in r :: run_ops ops' f w end.
Fixpoint plain_ops (c : list Z) (ops : list file_op) (p : Z) : list file_res :=
  match ops with [] => [] | op :: ops' => let '(p, r) := plain_op c op p in r :: plain_ops c ops' p end.
Fixpoint ops_ok (c : list Z) (ops : list file_op) (p : Z) : Prop :=
  match ops with [] => True | op :: ops' => op_ok op p /\ ops_ok c ops' (plain_op c op p).1 end.

Lemma run_op_plain op f w c p : stream f w c p -> op_ok op p -> exists f' w', run_op op f w = (f', w', (plain_op c op p).2) /\ stream f' w' c (plain_op c op p).1.
Proof.
  intros Hst Hok. pose proof (u_at_range _ _ _ _ (st_at _ _ _ _ Hst)) as [Hr _]. pose proof (st_pos _ _ _ _ Hst) as Hp. pose proof (st_low _ _ _ _ Hst) as Hl. destruct op as [size nmemb|offset whence|]; cbn [run_op plain_op op_ok fst snd] in *.
  - destruct Hok as (Hs & Hn & Hm). unfold fread. rewrite (proj2 (Z.eqb_neq size 0)) by lia. cbn [orb]. destruct (Z.eqb_spec nmemb 0) as [->|Hne].
    + exists f, w. rewrite Z.mul_0_r. cbn. rewrite Z.add_0_r. by rewrite Z.div_0_l by lia.
    + rewrite u64_small by nia. destruct (fread_loop_spec (Z.to_nat (size * nmemb)) (size * nmemb) c f [] w p Hst) as (f' & w' & E & Hs'); [cbn; nia|cbn; nia|].
      cbn [length] in *. rewrite Z.sub_0_r in *. rewrite E. by exists f', w'.
  - assert (exists q off', (if whence =? SEEK_CUR then offset - (rbuf_len f - rbuf_pos f) else offset) = off' /\ q = (if whence =? 0 then offset else p + offset) /\ 0 <= q < 2 ^ 62 /\
      ((whence = 0 /\ q = off') \/ (whence = 1 /\ q = p + (rbuf_len f - rbuf_pos f) + off'))) as (q & off' & Eo & Eq & Hq & Hw).
    { destruct Hok as [[-> Ho]|[-> Ho]]; eexists _, _; (split; [reflexivity|]; split; [reflexivity|]; unfold SEEK_CUR; cbn; split; [lia|]); [by left|right; split; [done|lia]]. }
    unfold fseek. rewrite Eo, <- Eq. pose proof (u_seek_law w (fd f) c _ q off' whence (st_at _ _ _ _ Hst) Hw Hq) as Hs. destruct (u_lseek _ _ _ _) as [w' r]. destruct Hs as [-> Ha]. rewrite (proj2 (Z.ltb_ge q 0)) by lia.
    eexists _, w'. split; [done|]. split; cbn; [apply Hst|lia|done|lia|by rewrite Z.add_0_r|done].
  - unfold ftell. pose proof (u_seek_law w (fd f) c _ (p + (rbuf_len f - rbuf_pos f)) 0 SEEK_CUR (st_at _ _ _ _ Hst)) as Hs. destruct (u_lseek _ _ _ _) as [w' r]. destruct Hs as [-> Ha]; [right; split; [done|lia]|lia|]. rewrite (proj2 (Z.ltb_ge _ 0)) by lia.
    exists f, w'. split; [do 2 f_equal; lia|]. destruct Hst. by split.
Qed.

Lemma run_ops_plain ops f w c p : stream f w c p -> ops_ok c ops p -> run_ops ops f w = plain_ops c ops p.
Proof.
  revert f w p. induction ops as [|op ops IH]; intros f w p Hst Hok; [done|]. destruct Hok as [H1 H2]. cbn [run_ops plain_ops].
  destruct (run_op_plain op f w c p Hst H1) as (f' & w' & -> & Hst'). destruct (plain_op c op p) as [p' r]. cbn [fst snd] in *. f_equal. by apply IH.
Qed.


End buffered.

(** ** The system calls of the kernel

    The calls of the process [pc], with the stream's buffer at [addr].  On a
    descriptor of a file on disk they return; the outcomes of other descriptors
    are errors here, outside the laws. *)

Section kernel.
Context {S : Type} {SO : SocketOps S} {SIO : Calls.SocketIO S}.
Variables (pc : nat) (addr : Z).
Hypothesis addr_ok : Calls.user_range addr FILE_RBUF_SIZE = false.

Definition returned (r : Calls.sys (S := S) * Vfs.outcome) : Calls.sys (S := S) * Z * list Z :=
  match r with (y, Vfs.Done k bs) => (y, s64 k, bs) | (y, _) => (y, -1, []) end.

#[local] Instance kernel_calls : FileCalls (Calls.sys (S := S)) :=
  {| u_read d n y := returned (Calls.sys_read pc d addr n y);
     u_write d buf y := (returned (Calls.sys_write pc d addr buf y)).1;
     u_lseek d off whence y := let '(y, r) := Calls.syscall_lseek pc d off whence y in (y, s64 r) |}.

(** The descriptor of a file on disk with the bytes [c], at [p]. *)
Definition disk_at (y : Calls.sys (S := S)) (d : Z) (c : list Z) (p : Z) : Prop :=
  exists ino n, Calls.disk_fd pc d ino y /\ Ext2.ext2_read_inode ino (Calls.y_fs y) = Some n /\ Ext2.geo (Calls.y_fs y) /\ Ext2.file_ok n (Calls.y_fs y) /\
    0 <= Ext2.i_size n <= Ext2.max_size (Calls.y_fs y) /\ c = Ext2.fbyte n (Calls.y_fs y) <$> seqZ 0 (Ext2.i_size n) /\ fd_offset (Calls.fd_of y pc d) = p /\ 0 <= p < 2 ^ 62.

Lemma slice_fbytes (g : Z -> Z) size p k : 0 <= p -> 0 <= k -> slice (g <$> seqZ 0 size) p k = g <$> seqZ p (Z.min k (size - p)).
Proof.
  intros Hp Hk. apply list_eq. intros i. unfold slice. destruct (decide (Z.of_nat i < k)) as [Hi|Hi].
  - rewrite lookup_take_lt, lookup_drop, !list_lookup_fmap by lia. f_equal. apply option_eq. intros x. rewrite !lookup_seqZ. lia.
  - rewrite lookup_take_ge by lia. symmetry. apply lookup_ge_None. rewrite length_fmap, length_seqZ. lia.
Qed.

Lemma disk_at_offset y d c p g : disk_at y d c p -> 0 <= g p < 2 ^ 62 -> disk_at (Calls.set_fd pc d (fun f => f <| fd_offset ::= g |>) y) d c (g p).
Proof.
  intros (ino & n & D & Hn & Hg & Hf & Hsz & Hc & Hp & Hr) Hq. exists ino, n. split; [by apply Calls.disk_fd_offset|]. do 5 (split; [done|]). split; [|done]. rewrite (Calls.fd_of_set pc d ino) by done. cbn. by rewrite Hp.
Qed.

Instance kernel_laws : FileLaws (Calls.sys (S := S)).
Proof using addr_ok.
  refine {| u_at := disk_at |}.
  - intros y d c p (ino & n & _ & _ & Hg & _ & Hsz & -> & _ & Hr). rewrite length_fmap, length_seqZ. pose proof (Ext2.max_size_small _ Hg). lia.
  - intros y d c p Hat. pose proof Hat as (ino & n & D & Hn & Hg & Hf & Hsz & Hc & Hp & Hr). cbn [u_read kernel_calls]. pose proof (Ext2.max_size_small _ Hg).
    assert (Ext2.ext2_read_file n p FILE_RBUF_SIZE (Calls.y_fs y) = Some (slice c p FILE_RBUF_SIZE)) as E by (rewrite Hc, slice_fbytes by (done || lia); apply Ext2.read_file_spec; (done || lia)).
    rewrite (Calls.read_disk pc d ino addr FILE_RBUF_SIZE y n (slice c p FILE_RBUF_SIZE) D addr_ok Hn) by (by rewrite Hp). cbn [returned]. set (bs := slice c p FILE_RBUF_SIZE) in *.
    assert (0 <= Z.of_nat (length bs) <= 512) as Hl by (split; [lia|]; by apply (length_slice_le c p FILE_RBUF_SIZE)). unfold Calls.rax. rewrite s32_small, u64_small, s64_id by lia.
    split_and!; [done|done|]. unfold Calls.moved. destruct (Z.ltb_spec 0 (Z.of_nat (length bs))) as [H0|H0]; [|by replace (p + Z.of_nat (length bs)) with p by lia].
    assert (p < Z.of_nat (length c)) as Hpc by (unfold bs, slice in H0; rewrite length_take, length_drop in H0; lia). assert (Z.of_nat (length c) < 2 ^ 31) as Hlc by (rewrite Hc, length_fmap, length_seqZ; lia).
    pose proof (disk_at_offset y d c p (fun o => u64 (o + Z.of_nat (length bs))) Hat) as Hat'. cbn beta in Hat'. rewrite u64_small in Hat' by lia. apply Hat'. lia.
  - intros y d c p q off whence Hat Hw Hq. pose proof Hat as (ino & n & D & Hn & _ & _ & _ & _ & Hp & Hr). cbn [u_lseek kernel_calls].
    assert (Calls.syscall_lseek pc d off whence y = (Calls.set_fd pc d (fun f => f <| fd_offset := q |>) y, q)) as ->.
    { unfold Calls.syscall_lseek. pose proof (Calls.disk_fd_open _ _ _ _ D) as Ho. apply orb_false_iff in Ho as [-> _]. rewrite (Calls.df_type _ _ _ _ D), (Calls.df_data _ _ _ _ D), u32_small by apply D. rewrite Hn. cbn [Z.eqb FD_EXT2].
      unfold Calls.seek_to. rewrite Hp. destruct Hw as [[-> ->]|[-> ->]]; cbn [Z.eqb]; [rewrite (proj2 (Z.ltb_ge off 0)) by lia|]; by rewrite u64_small by lia. }
    rewrite s64_id by lia. split; [done|]. by apply (disk_at_offset y d c p (fun _ => q)).
Defined.

(** A stream on a file on disk: the user library over the system calls over the
    file system gives the bytes of the file. *)
Theorem disk_stream_plain ops f y c p : Z.of_nat (length (rbuf f)) = FILE_RBUF_SIZE -> rbuf_pos f = 0 -> rbuf_len f = 0 -> disk_at y (fd f) c p -> ops_ok c ops p ->
  run_ops ops f y = plain_ops c ops p.
Proof using addr_ok.
  intros Hb Hp Hl Hat. apply run_ops_plain. pose proof Hat as (_ & _ & _ & _ & _ & _ & _ & _ & _ & Hr). split; rewrite ?Hp, ?Hl; [done|done|done|lia| |done]. by rewrite Z.add_0_r.
Qed.

End kernel.

(** ** Witnesses *)

(** A descriptor that is nothing but its bytes and its position. *)
#[export] Instance plain_calls : FileCalls (list Z * Z) :=
  {| u_read _ n w := let bs := slice w.1 w.2 n in ((w.1, w.2 + Z.of_nat (length bs)), Z.of_nat (length bs), bs);
     u_write _ _ w := (w, -1);
     u_lseek _ off whence w := let q := if whence =? 0 then off else w.2 + off in ((w.1, q), q) |}.

#[export] Instance plain_laws : FileLaws (list Z * Z).
Proof.
  refine {| u_at w _ c p := w = (c, p) /\ 0 <= p < 2 ^ 62 /\ Z.of_nat (length c) < 2 ^ 31 |}.
  - by intros w d c p (_ & H).
  - intros w d c p (-> & Hp & Hc). cbn. split_and!; try done; unfold slice; rewrite length_take, length_drop; lia.
  - intros w d c p q off whence (-> & Hp & Hc) Hq Hr. cbn. destruct Hq as [[-> ->]|[-> ->]]; cbn; split_and!; (done || lia).
Defined.


Lemma printf_writes_text_witness : printf (replicate 1024 0) (fun n => Some (replicate (Z.to_nat n) 0)) (fmt_of [Field false false 1030 (Chr 65)] ++ [0]) [VInt 65] = Some (replicate 1029 32 ++ [65], 1030).
Proof.
  exact (printf_writes_text [Field false false 1030 (Chr 65)] (replicate 1024 0) (fun n => Some (replicate (Z.to_nat n) 0)) (replicate 1031 0)
    ltac:(repeat (apply Forall_cons_2; [cbn; lia|]); apply Forall_nil_2) ltac:(done) ltac:(done) ltac:(done) ltac:(done)).
Defined.

Lemma printed_number_reads_back_witness : exists buf' n, vsnprintf (replicate 32 9) 32 [37; 108; 100; 0] [VInt (-1234567890123)] = Some (buf', n) /\ atol buf' = -1234567890123.
Proof. exact (printed_number_reads_back (-1234567890123) (replicate 32 9) ltac:(lia) ltac:(done)). Defined.

Lemma trailing_percent_overruns_witness : vsnprintf (replicate 8 0) 8 [53; 37; 0] [] = None.
Proof. exact (trailing_percent_overruns [Lit 53] (replicate 8 0) 8 ltac:(repeat constructor; done) ltac:(done)). Defined.


End Stdio.
