(* ===== verification/Poll.v ===== *)
(** * Waiting for descriptors (fs/poll.c, scheduler_tick of
    scheduler/scheduler.c, epoll_create, epoll_ctl, epoll_wait and select of
    syscall/syscall.c)

    Readiness of a descriptor, the scan of an epoll instance with its
    edge-triggered watches, blocking in epoll_wait and the wake-ups of the timer
    tick.  The terminal is an argument of the definitions that read it.  Structs
    copied from user memory are arguments; what is stored to user memory is part
    of the result. *)

From stdpp Require Import prelude gmap.
From Stdlib Require Import ZArith Lia.
From S2P Require Import Prelude Pmm Process Sched Signal Pipe Tty Vm Mmap Epoll Files Life.
Import Process Sched Vm Mmap Epoll Files Life.
Local Open Scope Z_scope.

Module Poll.

Section poll.
Context {S : Type} `{SocketOps S}.
Implicit Types k : (kern S).

(** ** Readiness *)

Definition fd_out (fd : Z) : bool := (fd <? 0) || (Z.of_nat PROCESS_MAX_FDS <=? fd).

Definition pipe_readable k (q : Z) : bool :=
  match pipes k !! q with
  | Some p => (0 <? Pipe.count p) || (Pipe.writers p =? 0)
  | None => false
  end.

Definition pipe_writable k (q : Z) : bool :=
  match pipes k !! q with
  | Some p => Pipe.count p <? Pipe.PIPE_BUF_SIZE
  | None => false
  end.

Definition fd_is_readable k (t : Tty.tty) (p : process) (fd : Z) : bool :=
  if fd_out fd then false else
  let f := zget (fd_table p) fd in
  if fd_type f =? FD_PIPE_READ then pipe_readable k (fd_data f)
  else if fd_type f =? FD_CONSOLE then Tty.tty_readable t
  else if fd_type f =? FD_SOCKET then socket_readable (net k) (s32 (fd_data f))
  else (fd_type f =? FD_EXT2) || (fd_type f =? FD_VFS).

Definition fd_is_writable k (p : process) (fd : Z) : bool :=
  if fd_out fd then false else
  let f := zget (fd_table p) fd in
  if fd_type f =? FD_PIPE_WRITE then pipe_writable k (fd_data f)
  else if fd_type f =? FD_CONSOLE then true
  else if fd_type f =? FD_SOCKET then socket_writable (net k) (s32 (fd_data f))
  else (fd_type f =? FD_EXT2) || (fd_type f =? FD_VFS).

Definition has (ev flag : Z) : bool := negb (Z.land ev flag =? 0).

(** ** The timer tick *)

Definition NO_TIMEOUT : Z := 0xFFFFFFFFFFFFFFFF.

Definition watch_fires k (t : Tty.tty) (p : process) (w : epoll_watch) : bool :=
  (has (w_events w) EPOLLIN && fd_is_readable k t p (w_fd w)) ||
  (has (w_events w) EPOLLOUT && fd_is_writable k p (w_fd w)).

(** Some watch of the instance the process sleeps on fires. *)
Definition some_fires k (t : Tty.tty) (p : process) : bool :=
  match epoll_get (epolls k) (epoll_fd_idx p) with
  | Some ep => existsb (watch_fires k t p) (watched ep)
  | None => false
  end.

Definition count_down (p : process) : process :=
  if negb (epoll_timeout_ticks p =? NO_TIMEOUT) && (0 <? epoll_timeout_ticks p)
  then p <| epoll_timeout_ticks ::= fun n => n - 1 |> else p.

Definition epoll_waiting (p : process) : bool := is_state (state p) PROCESS_BLOCKED && negb (epoll_fd_idx p =? -1).

(** One slot of the wake-up loop. *)
Definition tick_proc (t : Tty.tty) (i : nat) k : kern S :=
  if negb (epoll_waiting (cproc k i)) then k else
  let k := on_proc i count_down k in
  if (epoll_timeout_ticks (cproc k i) =? 0) || some_fires k t (cproc k i)
  then on_sched (wake i) (on_proc i (fun p => p <| epoll_fd_idx := -1 |>) k)
  else k.

Definition tick_procs (t : Tty.tty) k : kern S := for_loop MAX_PROCESSES 0 (tick_proc t) k.

Definition scheduler_tick (t : Tty.tty) k : kern S :=
  let k := on_sched (fun s => s <| tick_count ::= fun n => u64 (n + 1) |>) k in
  if negb (scheduler_enabled (ks k)) then k else
  let k := tick_procs t (on_net net_tick k) in
  if tick_count (ks k) mod 10 =? 0 then on_sched schedule k else k.

(** ** The epoll system calls *)

Definition syscall_epoll_create (c : nat) k : kern S * Z :=
  if negb (is_user (cproc k c)) then (k, ERR64) else
  let '(l, idx) := epoll_create_instance (pid (cproc k c)) (epolls k) in
  if idx <? 0 then (k, ERR64) else
  let k := k <| epolls := l |> in
  let fd := process_fd_alloc (cproc k c) 3 in
  if fd <? 0 then (k <| epolls ::= epoll_destroy idx |>, ERR64) else
  (on_fd c fd (fun _ => mk_fd FD_EPOLL idx 0) k, fd).

Record epoll_ctl_args := mk_ctl_args { ca_op : Z; ca_fd : Z; ca_events : Z; ca_data : Z }.

(** The guards [epoll_ctl] and [epoll_wait] share. *)
Definition bad_epfd (c : nat) (epfd args_ptr : Z) k : bool :=
  negb (is_user (cproc k c)) || (KERNEL_VMA <=? args_ptr) || bad_fd epfd ||
  negb (fd_type (fd_at k c epfd) =? FD_EPOLL).

Definition syscall_epoll_ctl (c : nat) (epfd args_ptr : Z) (args : epoll_ctl_args) k : kern S * Z :=
  if bad_epfd c epfd args_ptr k then (k, ERR64) else
  let '(l, r) := epoll_ctl_instance (s32 (fd_data (fd_at k c epfd))) (ca_op args) (ca_fd args) (ca_events args)
                   (ca_data args) (epolls k) in
  (k <| epolls := l |>, u64 r).

(** The events of a watch that hold now. *)
Definition ready_mask k (t : Tty.tty) (p : process) (w : epoll_watch) : Z :=
  let wev := Z.land (w_events w) 0x7FFFFFFF in
  Z.lor (if has wev EPOLLIN && fd_is_readable k t p (w_fd w) then EPOLLIN else 0)
        (if has wev EPOLLOUT && fd_is_writable k p (w_fd w) then EPOLLOUT else 0).

(** The scan: the watches afterwards, and the events stored to user memory.
    [room] is what is left of [maxevents]. *)
Fixpoint epoll_scan (rm : epoll_watch -> Z) (room : nat) (ws : list epoll_watch) : list epoll_watch * list (Z * Z) :=
  match ws, room with
  | w :: ws', Datatypes.S r =>
      let is_et := has (w_events w) EPOLLET in
      if rm w =? 0 then
        let '(ws'', ev) := epoll_scan rm room ws' in
        ((if is_et then w <| et_reported := false |> else w) :: ws'', ev)
      else if is_et && et_reported w then
        let '(ws'', ev) := epoll_scan rm room ws' in (w :: ws'', ev)
      else
        let '(ws'', ev) := epoll_scan rm r ws' in
        ((if is_et then w <| et_reported := true |> else w) :: ws'', (rm w, w_data w) :: ev)
  | _, _ => (ws, [])
  end.

Definition poll_instance (t : Tty.tty) (c : nat) (idx maxevents : Z) k : kern S * list (Z * Z) :=
  let ep := zget (epolls k) idx in
  let '(ws, ev) := epoll_scan (ready_mask k t (cproc k c)) (Z.to_nat maxevents) (watched ep) in
  (k <| epolls ::= fun l => zset l idx (ep <| watches ::= fun l => ws ++ drop (watch_count ep) l |>) |>, ev).

Record epoll_wait_args := mk_wait_args { wa_maxevents : Z; wa_timeout_ms : Z; wa_events_ptr : Z }.

Definition timeout_ticks (ms : Z) : Z := if ms <? 0 then NO_TIMEOUT else u32 ms / 10 + 1.

Definition epoll_block (c : nat) (idx ticks : Z) k : kern S :=
  on_sched schedule (on_proc c (fun p => p <| epoll_fd_idx := idx |> <| epoll_timeout_ticks := ticks |>
                                          <| state := PROCESS_BLOCKED |>) k).

(** [epoll_wait] up to its result, or to going to sleep ([None]). *)
Definition syscall_epoll_wait (t : Tty.tty) (c : nat) (epfd args_ptr : Z) (args : epoll_wait_args) k
  : kern S * option (Z * list (Z * Z)) :=
  if bad_epfd c epfd args_ptr k then (k, Some (ERR64, [])) else
  let idx := s32 (fd_data (fd_at k c epfd)) in
  match epoll_get (epolls k) idx with
  | None => (k, Some (ERR64, []))
  | Some _ =>
      if (wa_maxevents args <=? 0) || (KERNEL_VMA <=? wa_events_ptr args) then (k, Some (ERR64, [])) else
      let '(k, ev) := poll_instance t c idx (wa_maxevents args) k in
      if (0 <? Z.of_nat (length ev)) || (wa_timeout_ms args =? 0) then (k, Some (Z.of_nat (length ev), ev))
      else (epoll_block c idx (timeout_ticks (wa_timeout_ms args)) k, None)
  end.

(** The rest of the call once the process runs again. *)
Definition epoll_wait_resumed (t : Tty.tty) (c : nat) (idx maxevents : Z) k : kern S * (Z * list (Z * Z)) :=
  let '(k, ev) := poll_instance t c idx maxevents (on_proc c (fun p => p <| epoll_fd_idx := -1 |>) k) in
  (k, (Z.of_nat (length ev), ev)).

(** ** select *)

Record select_args := mk_select_args { sa_readfds : Z; sa_writefds : Z; sa_timeout_ms : Z }.

Definition select_readable k (t : Tty.tty) (p : process) (i : Z) : bool :=
  let f := zget (fd_table p) i in
  if fd_type f =? FD_PIPE_READ then pipe_readable k (fd_data f)
  else if fd_type f =? FD_CONSOLE then Tty.tty_readable t
  else if fd_type f =? FD_SOCKET then socket_readable (net k) (s32 (fd_data f)) else false.

Definition select_writable k (p : process) (i : Z) : bool :=
  let f := zget (fd_table p) i in
  if fd_type f =? FD_PIPE_WRITE then pipe_writable k (fd_data f)
  else if fd_type f =? FD_CONSOLE then true
  else if fd_type f =? FD_SOCKET then socket_writable (net k) (s32 (fd_data f)) else false.

(** One descriptor of a pass over the sets. *)
Definition select_fd k (t : Tty.tty) (p : process) (a : select_args) (i : nat) (rw : Z * Z) : Z * Z :=
  let b := Z.shiftl 1 (Z.of_nat i) in
  let r := if has (sa_readfds a) b && select_readable k t p (Z.of_nat i) then Z.lor rw.1 b else rw.1 in
  let w := if has (sa_writefds a) b && select_writable k p (Z.of_nat i) then Z.lor rw.2 b else rw.2 in
  (r, w).

Definition select_pass k (t : Tty.tty) (p : process) (nfds : Z) (a : select_args) : Z * Z :=
  for_loop (Z.to_nat nfds) 0 (select_fd k t p a) (0, 0).

Definition select_count (nfds : Z) (rw : Z * Z) : Z :=
  for_loop (Z.to_nat nfds) 0 (fun i n =>
    n + Z.b2z (has rw.1 (Z.shiftl 1 (Z.of_nat i))) + Z.b2z (has rw.2 (Z.shiftl 1 (Z.of_nat i)))) 0.

Definition max_polls (a : select_args) : Z := if 0 <=? sa_timeout_ms a then sa_timeout_ms a / 10 + 1 else 1000.

(** The call from the turn [poll] of its loop on: the count with the sets stored
    to user memory, or going to sleep, to be resumed at the next turn. *)
Definition select_from (poll : Z) (t : Tty.tty) (c : nat) (nfds : Z) (a : select_args) k : kern S * option (Z * option (Z * Z)) :=
  if poll <? max_polls a then
    let rw := select_pass k t (cproc k c) nfds a in
    if negb (rw.1 =? 0) || negb (rw.2 =? 0) || (sa_timeout_ms a =? 0)
    then (k, Some (select_count nfds rw, Some rw))
    else (on_sched schedule (on_proc c (fun p => p <| state := PROCESS_BLOCKED |>) k), None)
  else (k, Some (0, Some (0, 0))).

Definition sys_select (t : Tty.tty) (c : nat) (nfds args_ptr : Z) (a : select_args) k : kern S * option (Z * option (Z * Z)) :=
  if (KERNEL_VMA <=? args_ptr) || (Z.of_nat PROCESS_MAX_FDS <? u32 nfds) then (k, Some (ERR64, None)) else
  select_from 0 t c (u32 nfds) a k.

(** ** What the tick means *)

(** Equal but for the scheduler's fields. *)
Definition same_but_sched (p p' : process) : Prop := p' = p <| state := state p' |> <| next := next p' |>.

(** The process sleeps in epoll_wait and this tick ends its sleep. *)
Definition wakes k (t : Tty.tty) (p : process) : bool :=
  epoll_waiting p && ((epoll_timeout_ticks (count_down p) =? 0) || some_fires k t p).

Definition ticked k (t : Tty.tty) (p : process) : process :=
  if epoll_waiting p then (if wakes k t p then (count_down p) <| epoll_fd_idx := -1 |> else count_down p) else p.

(** The slots below [n] that the tick wakes, in the order of the table. *)
Definition woken k (t : Tty.tty) (n : nat) : list nat := filter (fun i => wakes k t (cproc k i)) (seq 0 n).

(** After the slots below [n]: [k'] from [k]. *)
Record ticked_to k (t : Tty.tty) (l : list nat) (n : nat) (k' : kern S) : Prop := mk_ticked {
  tk_queue : sched_inv (ks k') (l ++ woken k t n);
  tk_current : current_process (ks k') = current_process (ks k);
  tk_len : length (procs (ks k')) = length (procs (ks k));
  tk_world : pipes k' = pipes k /\ net k' = net k /\ epolls k' = epolls k;
  tk_proc : forall j, (j < length (procs (ks k)))%nat ->
    same_but_sched (if (j <? n)%nat then ticked k t (cproc k j) else cproc k j) (cproc k' j);
  tk_state : forall j, (j < length (procs (ks k)))%nat ->
    state (cproc k' j) = if (j <? n)%nat && wakes k t (cproc k j) then PROCESS_READY else state (cproc k j)
}.

(** Ticks over time, with the terminal each of them sees. *)
Definition tick_many (ts : list Tty.tty) k : kern S := foldl (fun k t => tick_procs t k) k ts.

(** A state the timer can interrupt: a running process, and the table in place. *)
Definition ticking (l : list nat) k : Prop :=
  sched_inv (ks k) l /\ length (procs (ks k)) = MAX_PROCESSES /\
  forall c, current_process (ks k) = Some c -> state (cproc k c) <> PROCESS_BLOCKED.

(** ** What the scan means *)

(** The edge-trigger flag of a scanned watch records whether it was ready. *)
Definition settle (rm : epoll_watch -> Z) (w : epoll_watch) : epoll_watch :=
  if has (w_events w) EPOLLET then w <| et_reported := negb (rm w =? 0) |> else w.

Definition reportable (rm : epoll_watch -> Z) (w : epoll_watch) : bool :=
  negb (rm w =? 0) && negb (has (w_events w) EPOLLET && et_reported w).

Definition event (rm : epoll_watch -> Z) (w : epoll_watch) : Z * Z := (rm w, w_data w).

(** The scan of the watches [ws] reports, in order, the reportable watches of a
    prefix, which ends before the last watch only for want of room. *)
Definition scanned (rm : epoll_watch -> Z) (room : nat) (ws ws' : list epoll_watch) (ev : list (Z * Z)) : Prop :=
  exists n, (n <= length ws)%nat /\ ws' = (settle rm <$> take n ws) ++ drop n ws /\
    ev = event rm <$> filter (reportable rm) (take n ws) /\ (length ev <= room)%nat /\
    ((n < length ws)%nat -> length ev = room).

Lemma epoll_scan_cons rm r w ws : epoll_scan rm (Datatypes.S r) (w :: ws) =
  if reportable rm w then (settle rm w :: (epoll_scan rm r ws).1, event rm w :: (epoll_scan rm r ws).2)
  else (settle rm w :: (epoll_scan rm (Datatypes.S r) ws).1, (epoll_scan rm (Datatypes.S r) ws).2).
Proof.
  cbn [epoll_scan]. unfold reportable, settle, event.
  destruct (epoll_scan rm (Datatypes.S r) ws), (epoll_scan rm r ws).
  destruct (rm w =? 0) eqn:E, (has (w_events w) EPOLLET); cbn; try done. by destruct w as [? ? ? []].
Qed.

Lemma epoll_scan_spec rm ws : forall room, scanned rm room ws (epoll_scan rm room ws).1 (epoll_scan rm room ws).2.
Proof.
  induction ws as [|w ws IH]; intros room; [exists 0%nat; destruct room; cbn; split_and!; (done || lia)|].
  destruct room as [|r]; [exists 0%nat; cbn; split_and!; (done || lia)|]. rewrite epoll_scan_cons.
  destruct (reportable rm w) eqn:Er; [destruct (IH r) as (n & H1 & -> & -> & H4 & H5)|destruct (IH (Datatypes.S r)) as (n & H1 & -> & -> & H4 & H5)];
    exists (Datatypes.S n); cbn [take drop fst snd length app] in *.
  - rewrite filter_cons_True by (by rewrite Er). cbn. split_and!; [lia|done|done|lia|]. intros ?. f_equal. apply H5. lia.
  - rewrite filter_cons_False by (rewrite Er; intros []). split_and!; [lia|done|done|lia|]. intros ?. apply H5. lia.
Qed.

(** With room for all, every watch is scanned. *)
Lemma epoll_scan_all rm ws room : (length ws <= room)%nat ->
  epoll_scan rm room ws = (settle rm <$> ws, event rm <$> filter (reportable rm) ws).
Proof.
  intros Hl. destruct (epoll_scan_spec rm ws room) as (n & H1 & H2 & H3 & H4 & H5). rewrite (surjective_pairing (epoll_scan _ _ _)), H2, H3.
  assert (n = length ws) as ->. { destruct (decide (n < length ws)%nat) as [Hn|]; [|lia]. specialize (H5 Hn). rewrite H3 in H5.
    rewrite length_fmap in H5. pose proof (length_filter (reportable rm) (take n ws)). rewrite length_take in *. lia. }
  by rewrite drop_all, take_ge, app_nil_r by lia.
Qed.

(** A scan with room that reports nothing found nothing to report. *)
Lemma scanned_some rm room ws ws' ev w : scanned rm room ws ws' ev -> (0 < room)%nat -> w ∈ ws -> reportable rm w = true -> ev <> [].
Proof.
  intros (n & N1 & _ & N3 & _ & N5) Hr Hw Hp ->. assert (n = length ws) as ->
    by (destruct (decide (n < length ws)%nat) as [Hn|]; [specialize (N5 Hn); cbn in N5|]; lia).
  rewrite firstn_all in N3. symmetry in N3. apply fmap_nil_inv in N3.
  assert (w ∈ filter (reportable rm) ws) as Hin by (apply list_elem_of_filter; split; [by rewrite Hp|done]).
  rewrite N3 in Hin. by apply elem_of_nil in Hin.
Qed.

(** ** Polling an instance *)

Lemma poll_instance_spec t c idx maxevents k : 0 <= idx < Z.of_nat (length (epolls k)) -> epoll_wf (zget (epolls k) idx) ->
  let '(k', ev) := poll_instance t c idx maxevents k in
  k' = k <| epolls := zset (epolls k) idx (zget (epolls k') idx) |> /\
  watch_count (zget (epolls k') idx) = watch_count (zget (epolls k) idx) /\ epoll_wf (zget (epolls k') idx) /\
  scanned (ready_mask k t (cproc k c)) (Z.to_nat maxevents) (watched (zget (epolls k) idx)) (watched (zget (epolls k') idx)) ev.
Proof.
  intros Hi [W1 W2]. unfold poll_instance. set (ep := zget (epolls k) idx) in *. set (rm := ready_mask k t (cproc k c)).
  pose proof (epoll_scan_spec rm (watched ep) (Z.to_nat maxevents)) as Hs. destruct (epoll_scan rm _ _) as [ws ev]. cbn [fst snd] in Hs.
  set (ep' := ep <| watches ::= _ |>). cbn. rewrite zget_zset_eq by done.
  assert (length ws = watch_count ep) as Hl.
  { destruct Hs as (n & H1 & -> & _). unfold watched in *. rewrite length_app, length_fmap, !length_take, length_drop, length_take in *. lia. }
  split_and!; [by destruct k|done| |].
  - split; [|done]. cbn. rewrite length_app, length_drop. lia.
  - unfold watched at 2. cbn. by rewrite take_app_length' by done.
Qed.

(** Readiness does not depend on the edge-trigger flag. *)
Lemma ready_mask_settle k t p rm w : ready_mask k t p (settle rm w) = ready_mask k t p w.
Proof. unfold settle. by destruct (has _ _). Qed.

(** Polling with room for all. *)
Lemma poll_instance_all t c idx maxevents k : let ep := zget (epolls k) idx in let m := ready_mask k t (cproc k c) in
  Z.of_nat (length (watched ep)) <= maxevents ->
  (poll_instance t c idx maxevents k).2 = event m <$> filter (reportable m) (watched ep) /\
  (0 <= idx < Z.of_nat (length (epolls k)) -> epoll_wf ep ->
   watched (zget (epolls (poll_instance t c idx maxevents k).1) idx) = settle m <$> watched ep).
Proof.
  intros ep m Hl. unfold poll_instance. fold ep m. rewrite epoll_scan_all by lia. split; [done|]. intros Hi [W1 W2]. cbn.
  rewrite zget_zset_eq by done. unfold watched at 1. cbn. apply take_app_length'. unfold watched. rewrite length_fmap, length_take. lia.
Qed.

Lemma report_settled m m' (ws : list epoll_watch) : (forall w, m' (settle m w) = m' w) ->
  event m' <$> filter (reportable m') (settle m <$> ws) =
  event m' <$> filter (fun w => negb (m' w =? 0) && negb (has (w_events w) EPOLLET && negb (m w =? 0))) ws.
Proof.
  intros Hm. induction ws as [|w ws IH]; [done|]. cbn [fmap list_fmap]. 
  assert (reportable m' (settle m w) = negb (m' w =? 0) && negb (has (w_events w) EPOLLET && negb (m w =? 0))) as E.
  { unfold reportable. rewrite Hm. unfold settle. destruct (has (w_events w) EPOLLET) eqn:Eh; cbn; by rewrite Eh. }
  destruct (negb (m' w =? 0) && _) eqn:Ew.
  - rewrite !filter_cons_True by (by rewrite ?E, ?Ew). cbn. f_equal; [|exact IH]. unfold event. rewrite Hm. f_equal. unfold settle. by case_match.
  - rewrite !filter_cons_False by (rewrite ?E, ?Ew; intros []). exact IH.
Qed.

(** Edge and level triggering.  Poll an instance, let anything happen that
    leaves its watch list alone, and poll again with room for all events: the
    second poll reports, in the order of the list, every level-triggered watch
    that is ready, and an edge-triggered one exactly when it is ready now and
    was not at the first poll. *)
Theorem epoll_edge_triggered t t' c c' idx maxevents maxevents' k k' :
  0 <= idx < Z.of_nat (length (epolls k)) -> epoll_wf (zget (epolls k) idx) ->
  let ws := watched (zget (epolls k) idx) in
  Z.of_nat (length ws) <= maxevents -> Z.of_nat (length ws) <= maxevents' ->
  zget (epolls k') idx = zget (epolls (poll_instance t c idx maxevents k).1) idx ->
  let m := ready_mask k t (cproc k c) in let m' := ready_mask k' t' (cproc k' c') in
  (poll_instance t' c' idx maxevents' k').2 =
    event m' <$> filter (fun w => negb (m' w =? 0) && negb (has (w_events w) EPOLLET && negb (m w =? 0))) ws.
Proof.
  intros Hi Hwf ws Hm Hm' He m m'. destruct (poll_instance_all t c idx maxevents k Hm) as [_ H1]. specialize (H1 Hi Hwf).
  rewrite <- He in H1. destruct (poll_instance_all t' c' idx maxevents' k') as [-> _]; [rewrite H1, length_fmap; done|].
  rewrite H1. apply report_settled. intros w. apply ready_mask_settle.
Qed.

(** ** The wake-ups of a tick *)

Lemma cproc_on_proc k i f j : (i < length (procs (ks k)))%nat ->
  cproc (on_proc i f k) j = if decide (i = j) then f (cproc k j) else cproc k j.
Proof.
  intros Hi. unfold cproc, proc_at. change (procs (ks (on_proc i f k))) with (upd_proc i f (procs (ks k))).
  rewrite !list_lookup_total_alt, lookup_upd_proc. case_decide as Hd; [subst j|done]. destruct (lookup_lt_is_Some_2 _ _ Hi) as [p ->]. done.
Qed.

Lemma cproc_wake k i j : (j < length (procs (ks k)))%nat ->
  same_but_sched (cproc k j) (cproc (on_sched (wake i) k) j) /\
  state (cproc (on_sched (wake i) k) j) = if decide (i = j) then PROCESS_READY else state (cproc k j).
Proof.
  intros Hj. split; [|by apply wake_state]. unfold same_but_sched, cproc. apply (sched_only_at _ _ j (sched_only_wake i (ks k)) Hj).
Qed.

Lemma some_fires_ext k k' t p p' : pipes k' = pipes k -> net k' = net k -> epolls k' = epolls k ->
  fd_table p' = fd_table p -> epoll_fd_idx p' = epoll_fd_idx p -> some_fires k' t p' = some_fires k t p.
Proof.
  intros E1 E2 E3 E4 E5. unfold some_fires. rewrite E3, E5. destruct (epoll_get _ _) as [e|]; [|done].
  induction (watched e) as [|w ws IH]; [done|]. cbn [existsb]. rewrite IH. f_equal. unfold watch_fires, fd_is_readable, fd_is_writable, pipe_readable, pipe_writable. by rewrite E1, E2, E4.
Qed.

Lemma on_proc_twice k i f g : on_proc i f (on_proc i g k) = on_proc i (fun p => f (g p)) k.
Proof. unfold on_proc, on_sched, set_proc, upd_proc. cbn. by rewrite alter_twice. Qed.

(** A slot that is not waiting, and a waiting one. *)
Lemma tick_proc_spec k t i : (i < length (procs (ks k)))%nat ->
  tick_proc t i k = (if epoll_waiting (cproc k i) then
    (if wakes k t (cproc k i) then on_sched (wake i) (on_proc i (fun p => (count_down p) <| epoll_fd_idx := -1 |>) k)
     else on_proc i count_down k) else k).
Proof.
  intros Hi. unfold tick_proc, wakes. destruct (epoll_waiting (cproc k i)); [cbn [negb andb]|done].
  rewrite !cproc_on_proc, !decide_True by done.
  rewrite (some_fires_ext k (on_proc i count_down k) t (cproc k i)); [|done..|unfold count_down; by case_match|unfold count_down; by case_match].
  destruct (_ || _); [|done]. f_equal. apply on_proc_twice.
Qed.

Lemma woken_S k t n : woken k t (Datatypes.S n) = woken k t n ++ (if wakes k t (cproc k n) then [n] else []).
Proof.
  unfold woken. rewrite seq_S, filter_app. f_equal. cbn [seq plus]. destruct (wakes k t (cproc k n)) eqn:E.
  - by rewrite filter_cons_True by (by rewrite E).
  - by rewrite filter_cons_False by (rewrite E; intros []).
Qed.

Lemma woken_lt k t n i : i ∈ woken k t n -> (i < n)%nat.
Proof. intros [_ Hi]%list_elem_of_filter. apply elem_of_seq in Hi. lia. Qed.

(** A slot the loop has not reached yet is as before, but for its queue link. *)
Lemma ticked_ahead k t l n k' : ticked_to k t l n k' -> (n < length (procs (ks k)))%nat ->
  epoll_waiting (cproc k' n) = epoll_waiting (cproc k n) /\ wakes k' t (cproc k' n) = wakes k t (cproc k n) /\
  cproc k' n = (cproc k n) <| next := next (cproc k' n) |>.
Proof.
  intros Ht Hn. pose proof (tk_proc _ _ _ _ _ Ht n Hn) as Hp. pose proof (tk_state _ _ _ _ _ Ht n Hn) as Hs.
  rewrite Nat.ltb_irrefl in Hp, Hs. cbn in Hs. unfold same_but_sched in Hp. rewrite Hs in Hp.
  assert (cproc k' n = (cproc k n) <| next := next (cproc k' n) |>) as E by (rewrite Hp at 1; by destruct (cproc k n)).
  destruct (tk_world _ _ _ _ _ Ht) as (E1 & E2 & E3). split_and!; [by rewrite E| |done]. unfold wakes.
  assert (epoll_waiting (cproc k' n) = epoll_waiting (cproc k n)) as -> by (by rewrite E).
  assert (epoll_timeout_ticks (count_down (cproc k' n)) = epoll_timeout_ticks (count_down (cproc k n))) as -> by (rewrite E; unfold count_down; cbn; by case_match).
  rewrite (some_fires_ext k k' t (cproc k n) (cproc k' n)); [done..|by rewrite E|by rewrite E].
Qed.

Lemma ltb_S j n : (j <? Datatypes.S n)%nat = if decide (j = n) then true else (j <? n)%nat.
Proof. case_decide; [subst; apply Nat.ltb_lt; lia|]. destruct (Nat.ltb_spec j n), (Nat.ltb_spec j (Datatypes.S n)); (done || lia). Qed.

Lemma count_down_next p x : count_down (p <| next := x |>) = (count_down p) <| next := x |>.
Proof. unfold count_down. cbn. by case_match. Qed.

Lemma same_but_next p x : same_but_sched p (p <| next := x |>).
Proof. unfold same_but_sched. by destruct p. Qed.

Lemma same_but_epoll p p' : same_but_sched p p' ->
  epoll_fd_idx p' = epoll_fd_idx p /\ epoll_timeout_ticks p' = epoll_timeout_ticks p.
Proof. by intros ->. Qed.

Lemma same_but_sched_trans p q r : same_but_sched p q -> same_but_sched q r -> same_but_sched p r.
Proof. unfold same_but_sched. intros -> ->. by destruct p. Qed.

(** What a turn has to establish. *)
Lemma ticked_next k t l n k' k'' : ticked_to k t l n k' ->
  sched_inv (ks k'') (l ++ woken k t (Datatypes.S n)) -> current_process (ks k'') = current_process (ks k') ->
  length (procs (ks k'')) = length (procs (ks k')) -> pipes k'' = pipes k' /\ net k'' = net k' /\ epolls k'' = epolls k' ->
  (forall j, (j < length (procs (ks k)))%nat ->
     same_but_sched (if decide (j = n) then ticked k t (cproc k n) else cproc k' j) (cproc k'' j) /\
     state (cproc k'' j) = if decide (j = n) then (if wakes k t (cproc k n) then PROCESS_READY else state (cproc k n)) else state (cproc k' j)) ->
  ticked_to k t l (Datatypes.S n) k''.
Proof.
  intros [T1 T2 T3 (T4 & T4' & T4'') T5 T6] Hq Hc Hl (W1 & W2 & W3) Hj. constructor; [done|congruence|congruence|split_and!; congruence| |].
  - intros j Hlt. rewrite ltb_S. destruct (Hj j Hlt) as [H1 _]. case_decide as Hd; [by subst|]. eapply same_but_sched_trans; [|exact H1]. auto.
  - intros j Hlt. rewrite ltb_S. destruct (Hj j Hlt) as [_ ->]. case_decide as Hd; [by subst|]. auto.
Qed.

Lemma tick_step k t l n k' : ticked_to k t l n k' -> (n < length (procs (ks k)))%nat ->
  (forall c, current_process (ks k) = Some c -> state (cproc k c) <> PROCESS_BLOCKED) ->
  ticked_to k t l (Datatypes.S n) (tick_proc t n k').
Proof.
  intros Ht Hn Hcur. destruct (ticked_ahead _ _ _ _ _ Ht Hn) as (E1 & E2 & E3). pose proof Ht as [T1 T2 T3 T4 T5 T6].
  rewrite tick_proc_spec, E1, E2 by (by rewrite T3). assert (n < length (procs (ks k')))%nat as Hn' by (by rewrite T3).
  assert (epoll_waiting (cproc k n) = true -> state (cproc k' n) = PROCESS_BLOCKED) as Hb.
  { unfold epoll_waiting, is_state. rewrite E3. cbn. intros [Hw%bool_decide_eq_true _]%andb_true_iff. done. }
  assert (forall j, j <> n -> same_but_sched (cproc k' j) (cproc k' j)) as Hr by (intros j _; unfold same_but_sched; by destruct (cproc k' j)).
  destruct (epoll_waiting (cproc k n)) eqn:Ew; [specialize (Hb eq_refl); destruct (wakes k t (cproc k n)) eqn:Ek|].
  - assert (n ∉ l ++ woken k t n) as Hnq by (eapply inv_not_queued; [done|done|]; fold (cproc k' n); by rewrite Hb).
    set (g := fun p => (count_down p) <| epoll_fd_idx := -1 |>). apply (ticked_next k t l n k'); [done| |exact (current_scheduler_add (set_state n PROCESS_READY (ks (on_proc n g k'))) n)| |done|].
    + rewrite woken_S, Ek, app_assoc. apply wake_inv; [by apply inv_set_proc| | |].
      * change (n < length (upd_proc n g (procs (ks k'))))%nat. by rewrite length_upd_proc.
      * change (state (cproc (on_proc n g k') n) = PROCESS_BLOCKED). rewrite cproc_on_proc, decide_True by done. cbn. unfold count_down. by case_match.
      * change (current_process (ks k') <> Some n). rewrite T2. intros Hc. apply (Hcur n Hc). rewrite <- Hb, E3. done.
    + destruct (sched_only_wake n (ks (on_proc n g k'))) as [Hl _]. etrans; [exact Hl|]. apply length_upd_proc.
    + intros j Hj. assert (j < length (procs (ks (on_proc n g k'))))%nat as Hj'
        by (change (j < length (upd_proc n g (procs (ks k'))))%nat; by rewrite length_upd_proc, T3).
      destruct (cproc_wake (on_proc n g k') n j Hj') as [W1 W2]. rewrite cproc_on_proc in W1, W2 by done.
      destruct (decide (n = j)) as [<-|Hne] in W1, W2; [rewrite !decide_True by done|rewrite !decide_False by done; by split].
      rewrite Ek. split; [|done].
      eapply same_but_sched_trans; [|exact W1]. unfold ticked. rewrite Ew, Ek, E3. unfold g. rewrite count_down_next.
      exact (same_but_next ((count_down (cproc k n)) <| epoll_fd_idx := -1 |>) _).
  - apply (ticked_next k t l n k'); [done| |done|apply length_upd_proc|done|].
    + rewrite woken_S, Ek, app_nil_r. apply inv_set_proc; [|done]. eapply inv_not_queued; [done|done|]. fold (cproc k' n). by rewrite Hb.
    + intros j Hj. rewrite cproc_on_proc by done. destruct (decide (n = j)) as [<-|Hne]; [rewrite !decide_True by done|rewrite !decide_False by done; by split; [apply Hr|]].
      unfold ticked. rewrite Ew, Ek, E3, count_down_next. split; [apply same_but_next|]. unfold count_down. by case_match.
  - assert (wakes k t (cproc k n) = false) as Ek by (unfold wakes; by rewrite Ew). apply (ticked_next k t l n k'); [done| |done|done|done|].
    + by rewrite woken_S, Ek, app_nil_r.
    + intros j Hj. rewrite Ek. case_decide as Hd; [subst j|by split; [apply Hr|]]. unfold ticked. rewrite Ew, E3. split; [apply same_but_next|done].
Qed.

Lemma tick_procs_spec k t l : ticking l k -> ticked_to k t l MAX_PROCESSES (tick_procs t k).
Proof.
  intros (Hq & Hl & Hc). apply (for_loop_inv (ticked_to k t l) MAX_PROCESSES 0).
  - constructor; [by rewrite app_nil_r|done..| |done]. intros j _. cbn. unfold same_but_sched. by destruct (cproc k j).
  - intros n k' Hn Hk. apply tick_step; [done|rewrite Hl; lia|done].
Qed.

Lemma tick_procs_ticking k t l : ticking l k -> exists l', ticking l' (tick_procs t k).
Proof.
  intros Hk. pose proof (tick_procs_spec k t l Hk) as [T1 T2 T3 T4 T5 T6]. destruct Hk as (Hq & Hl & Hc).
  exists (l ++ woken k t MAX_PROCESSES). split_and!; [done|congruence|]. intros c. rewrite T2. intros E.
  rewrite T6 by (by apply (inv_current _ _ Hq)). case_match; [done|]. by apply Hc.
Qed.

(** What one tick does to one process. *)
Lemma tick_one k t l i : ticking l k -> (i < MAX_PROCESSES)%nat ->
  same_but_sched (ticked k t (cproc k i)) (cproc (tick_procs t k) i) /\
  state (cproc (tick_procs t k) i) = if wakes k t (cproc k i) then PROCESS_READY else state (cproc k i).
Proof.
  intros Hk Hi. pose proof (tick_procs_spec k t l Hk) as [T1 T2 T3 T4 T5 T6]. destruct Hk as (Hq & Hl & Hc).
  specialize (T5 i ltac:(by rewrite Hl)). specialize (T6 i ltac:(by rewrite Hl)). apply Nat.ltb_lt in Hi. rewrite Hi in T5, T6. done.
Qed.

(** C31: A timer tick, after the network's timers have run, wakes exactly the
    processes sleeping in epoll_wait whose time is up or one of whose watches
    is ready; it appends them to the ready queue in the order of the table,
    counts down the timeouts of the others, changes nothing else of any
    process, and switches processes on every tenth tick. *)
Theorem scheduler_tick_correct t k l :
  let k1 := on_net net_tick (on_sched (fun s => s <| tick_count ::= fun n => u64 (n + 1) |>) k) in
  scheduler_enabled (ks k) = true -> ticking l k1 ->
  exists k2, ticked_to k1 t l MAX_PROCESSES k2 /\
    scheduler_tick t k = if tick_count (ks k2) mod 10 =? 0 then on_sched schedule k2 else k2.
Proof.
  intros k1 He Hk. exists (tick_procs t k1). split; [by apply tick_procs_spec|]. unfold scheduler_tick.
  change (scheduler_enabled (ks (on_sched _ k))) with (scheduler_enabled (ks k)). by rewrite He.
Qed.

Lemma foldl_cons {A B} (f : A -> B -> A) a b l : foldl f a (b :: l) = foldl f (f a b) l.
Proof. done. Qed.

Lemma tick_many_cons t ts k : tick_many (t :: ts) k = tick_many ts (tick_procs t k).
Proof. unfold tick_many. exact (foldl_cons (fun k t => tick_procs t k) k t ts). Qed.

(** A process that does not wait on an instance is left alone. *)
Lemma ticks_idle ts : forall k l i, ticking l k -> (i < MAX_PROCESSES)%nat -> epoll_fd_idx (cproc k i) = -1 ->
  epoll_fd_idx (cproc (tick_many ts k) i) = -1 /\ state (cproc (tick_many ts k) i) = state (cproc k i).
Proof.
  induction ts as [|t ts IH]; intros k l i Hk Hi He; [done|]. rewrite tick_many_cons. destruct (tick_one k t l i Hk Hi) as [T5 T6].
  destruct (tick_procs_ticking k t l Hk) as [l' Hk'].
  assert (epoll_waiting (cproc k i) = false) as Ew by (unfold epoll_waiting; rewrite He; by rewrite andb_false_r).
  unfold ticked in T5. unfold wakes in T6. rewrite Ew in T5, T6. cbn [andb] in T6. destruct (same_but_epoll _ _ T5) as [T7 _].
  destruct (IH (tick_procs t k) l' i Hk' Hi) as [H1 H2]; [congruence|]. split; [done|congruence].
Qed.

(** Epoll_wait with a timeout returns: however the descriptors behave, a
    process sleeping with [n] ticks left is awake after at most [n] ticks. *)
Theorem epoll_wait_times_out ts : forall k l i, ticking l k -> (i < MAX_PROCESSES)%nat ->
  state (cproc k i) = PROCESS_BLOCKED -> epoll_fd_idx (cproc k i) <> -1 ->
  0 < epoll_timeout_ticks (cproc k i) <= Z.of_nat (length ts) -> Z.of_nat (length ts) < NO_TIMEOUT ->
  state (cproc (tick_many ts k) i) = PROCESS_READY /\ epoll_fd_idx (cproc (tick_many ts k) i) = -1.
Proof.
  induction ts as [|t ts IH]; intros k l i Hk Hi Hs He Hn Hm; [cbn in Hn; lia|]. rewrite tick_many_cons. cbn [length] in *.
  destruct (tick_one k t l i Hk Hi) as [T5 T6]. destruct (tick_procs_ticking k t l Hk) as [l' Hk'].
  assert (epoll_waiting (cproc k i) = true) as Ew by (unfold epoll_waiting, is_state; rewrite bool_decide_true by done; cbn; lia).
  assert (count_down (cproc k i) = (cproc k i) <| epoll_timeout_ticks ::= fun n => n - 1 |>) as Ec
    by (unfold count_down; by destruct (epoll_timeout_ticks (cproc k i) =? NO_TIMEOUT) eqn:?, (0 <? epoll_timeout_ticks (cproc k i)) eqn:?; try lia).
  unfold ticked in T5. rewrite Ew, Ec in T5. destruct (wakes k t (cproc k i)) eqn:Ek.
  - destruct (same_but_epoll _ _ T5) as [T7 _]. destruct (ticks_idle ts _ l' i Hk' Hi T7) as [H1 H2]. split; [congruence|done].
  - assert (epoll_timeout_ticks (cproc k i) <> 1).
    { intros E1. unfold wakes in Ek. rewrite Ew, Ec in Ek. cbn in Ek. rewrite E1 in Ek. done. }
    destruct (same_but_epoll _ _ T5) as [T7 T8].
    assert (epoll_timeout_ticks (cproc (tick_procs t k) i) = epoll_timeout_ticks (cproc k i) - 1) by exact T8.
    apply (IH _ l'); [done|done|congruence|by rewrite T7|lia|lia].
Qed.

(** ** The calls *)

Lemma epoll_get_Some (l : pool) idx ep : epoll_get l idx = Some ep -> 0 <= idx < Z.of_nat EPOLL_MAX_INSTANCES /\ zget l idx = ep.
Proof. unfold epoll_get, bad_index. destruct (_ || _) eqn:E; [done|]. apply orb_false_iff in E as [E1 E2]. case_match; [|done]. intros [= <-]. split; [lia|done]. Qed.

(** A process that blocks stays blocked while the next one runs. *)
Lemma block_spec c k n l f : sched_inv (ks k) (n :: l) -> current_process (ks k) = Some c ->
  (forall p, state (f p) = PROCESS_BLOCKED) ->
  let k' := on_sched schedule (on_proc c f k) in
  sched_inv (ks k') l /\ current_process (ks k') = Some n /\ state (cproc k' n) = PROCESS_RUNNING /\ c <> n /\
  length (procs (ks k')) = length (procs (ks k)) /\
  state (cproc k' c) = PROCESS_BLOCKED /\ same_but_sched (f (cproc k c)) (cproc k' c).
Proof.
  intros Hq Hc Hf k'. destruct (inv_current _ _ Hq c Hc) as [Hnq Hlt]. set (k1 := on_proc c f k).
  assert (c < length (procs (ks k1)))%nat as Hlt1 by (change (c < length (upd_proc c f (procs (ks k))))%nat; by rewrite length_upd_proc).
  assert (cproc k1 c = f (cproc k c)) as E1 by (unfold k1; by rewrite cproc_on_proc, decide_True).
  assert (sched_inv (ks k1) (n :: l)) as Hq1 by (by apply inv_set_proc).
  destruct (schedule_inv (ks k1) n l Hq1) as (S1 & S2 & S3).
  assert (requeued (ks k1) = []) as Er.
  { unfold requeued. change (current_process (ks k1)) with (current_process (ks k)). rewrite Hc. fold (cproc k1 c). rewrite E1, Hf. done. }
  rewrite Er, app_nil_r in S1. split_and!; [done|done|done|set_solver| | |].
  - destruct (sched_only_schedule (ks k1)) as [Hl _]. etrans; [exact Hl|]. apply length_upd_proc.
  - change (state (proc_at (schedule (ks k1)) c) = PROCESS_BLOCKED). rewrite (schedule_state_idle _ (n :: l)); [|apply Hq1|done|done|]; fold (cproc k1 c); by rewrite E1, Hf.
  - rewrite <- E1. unfold same_but_sched, cproc. apply (sched_only_at _ _ c (sched_only_schedule (ks k1)) Hlt1).
Qed.

(** Epoll_wait either returns at once or goes to sleep.  It returns the
    reportable watches of the instance, in order and up to [maxevents], when
    there are any or no waiting was asked for; it sleeps only when nothing is
    reportable, on this instance and with the timeout in ticks, and the next
    ready process runs. *)
Theorem epoll_wait_correct t c epfd args_ptr args k n l :
  let idx := s32 (fd_data (fd_at k c epfd)) in let ep := zget (epolls k) idx in let m := ready_mask k t (cproc k c) in
  bad_epfd c epfd args_ptr k = false -> epoll_get (epolls k) idx = Some ep -> epoll_wf ep ->
  length (epolls k) = EPOLL_MAX_INSTANCES -> 0 < wa_maxevents args -> wa_events_ptr args < KERNEL_VMA ->
  sched_inv (ks k) (n :: l) -> current_process (ks k) = Some c ->
  match syscall_epoll_wait t c epfd args_ptr args k with
  | (k', Some (r, ev)) => r = Z.of_nat (length ev) /\ (ev <> [] \/ wa_timeout_ms args = 0) /\ ks k' = ks k /\
      scanned m (Z.to_nat (wa_maxevents args)) (watched ep) (watched (zget (epolls k') idx)) ev
  | (k', None) => (forall w, w ∈ watched ep -> reportable m w = false) /\ wa_timeout_ms args <> 0 /\
      sched_inv (ks k') l /\ current_process (ks k') = Some n /\
      state (cproc k' c) = PROCESS_BLOCKED /\ epoll_fd_idx (cproc k' c) = idx /\
      epoll_timeout_ticks (cproc k' c) = timeout_ticks (wa_timeout_ms args)
  end.
Proof.
  intros idx ep m Hb Hg Hwf Hl Hm Hp Hq Hc. unfold syscall_epoll_wait. rewrite Hb. fold idx. rewrite Hg.
  destruct (epoll_get_Some _ _ _ Hg) as [Hi _]. rewrite (proj2 (Z.leb_gt _ _) Hm), (proj2 (Z.leb_gt _ _) Hp). cbn [orb].
  pose proof (poll_instance_spec t c idx (wa_maxevents args) k ltac:(by rewrite Hl) Hwf) as HP.
  destruct (poll_instance t c idx (wa_maxevents args) k) as [k1 ev]. destruct HP as (P1 & P2 & P3 & P4).
  assert (ks k1 = ks k) as Ek by (rewrite P1; done).
  destruct ((0 <? Z.of_nat (length ev)) || (wa_timeout_ms args =? 0)) eqn:E.
  - split_and!; [done| |done|done]. apply orb_true_iff in E as [E|E]; [left; intros ->; done|right; lia].
  - apply orb_false_iff in E as [E1 E2]. assert (ev = []) as -> by (destruct ev; [done|discriminate E1]).
    destruct (block_spec c k1 n l (fun p => p <| epoll_fd_idx := idx |> <| epoll_timeout_ticks := timeout_ticks (wa_timeout_ms args) |>
      <| state := PROCESS_BLOCKED |>)) as (B1 & B2 & _ & _ & _ & B3 & B4); [by rewrite Ek|by rewrite Ek|done|].
    destruct (same_but_epoll _ _ B4) as [B5 B6]. split_and!; [|lia|done|done|done|done|done].
    intros w Hw. destruct (reportable m w) eqn:Er; [|done]. exfalso. by apply (scanned_some _ _ _ _ _ w P4); [lia|..].
Qed.

Lemma fires_ready k t p w : watch_fires k t p w = negb (ready_mask k t p w =? 0).
Proof.
  unfold watch_fires, ready_mask, has. rewrite <- !Z.land_assoc.
  change (Z.land 0x7FFFFFFF EPOLLIN) with EPOLLIN. change (Z.land 0x7FFFFFFF EPOLLOUT) with EPOLLOUT.
  by destruct (negb (Z.land _ EPOLLIN =? 0)), (negb (Z.land _ EPOLLOUT =? 0)), (fd_is_readable k t p (w_fd w)), (fd_is_writable k p (w_fd w)).
Qed.

Lemma ready_mask_ext k k' t p p' w : pipes k' = pipes k -> net k' = net k -> fd_table p' = fd_table p ->
  ready_mask k' t p' w = ready_mask k t p w.
Proof.
  intros E1 E2 E3. unfold ready_mask, fd_is_readable, fd_is_writable, pipe_readable, pipe_writable. by rewrite E1, E2, E3.
Qed.

Lemma wakes_ready t k k' l i ep w maxevents : length (procs (ks k)) = MAX_PROCESSES -> ticked_to k t l MAX_PROCESSES k' -> (i < MAX_PROCESSES)%nat ->
  let p := cproc k i in state p = PROCESS_BLOCKED -> epoll_fd_idx p <> -1 -> epoll_get (epolls k) (epoll_fd_idx p) = Some ep ->
  length (epolls k) = EPOLL_MAX_INSTANCES -> epoll_wf ep ->
  w ∈ watched ep -> has (w_events w) EPOLLET = false -> ready_mask k t p w <> 0 -> 0 < maxevents ->
  state (cproc k' i) = PROCESS_READY /\ (exists l', sched_inv (ks k') l' /\ i ∈ l') /\
  (epoll_wait_resumed t i (epoll_fd_idx p) maxevents k').2.2 <> [].
Proof.
  intros Hlen [T1 T2 T3 T4 T5 T6] Hi p Hs He Hg Hl Hwf Hw Het Hr Hm.
  specialize (T5 i ltac:(by rewrite Hlen)) as U1. specialize (T6 i ltac:(by rewrite Hlen)) as U2. rewrite (proj2 (Nat.ltb_lt _ _) Hi) in U1, U2. fold p in U1, U2.
  assert (wakes k t p = true) as Ek.
  { unfold wakes, epoll_waiting, is_state. rewrite Hs, bool_decide_true, (proj2 (Z.eqb_neq _ _) He) by done. cbn. apply orb_true_iff. right.
    unfold some_fires. rewrite Hg. apply existsb_exists. exists w. split; [by apply list_elem_of_In|]. rewrite fires_ready. lia. }
  rewrite Ek in U2. split_and!; [done|exists (l ++ woken k t MAX_PROCESSES); split; [done|]|].
  { apply elem_of_app. right. apply list_elem_of_filter. fold p. rewrite Ek. split; [done|]. apply elem_of_seq. lia. }
  destruct (epoll_get_Some _ _ _ Hg) as [Hx Hz]. unfold epoll_wait_resumed. set (k1 := on_proc i _ k').
  destruct T4 as (W1 & W2 & W3). pose proof (poll_instance_spec t i (epoll_fd_idx p) maxevents k1) as HP.
  change (epolls k1) with (epolls k') in HP. rewrite W3, Hl, Hz in HP. specialize (HP Hx Hwf).
  assert (ready_mask k1 t (cproc k1 i) w <> 0) as Hr1.
  { rewrite (ready_mask_ext k k1 t p); [done..|]. unfold k1. rewrite cproc_on_proc, decide_True by (done || by rewrite T3, Hlen).
    change (fd_table (cproc k' i) = fd_table p). rewrite U1. unfold ticked, count_down. cbn. repeat case_match; done. }
  destruct (poll_instance t i (epoll_fd_idx p) maxevents k1) as [k2 ev]. destruct HP as (_ & _ & _ & HP). cbn [snd].
  eapply scanned_some; [exact HP|lia|done|]. unfold reportable. by rewrite Het, (proj2 (Z.eqb_neq _ _) Hr1).
Qed.

(** No lost wake-up: when a level-triggered watch of a process sleeping in
    epoll_wait is ready at a tick, the tick puts the process in the ready
    queue, and the call, resumed, reports at least one event. *)
Theorem epoll_wakes_ready t k l i ep w maxevents : ticking l k -> (i < MAX_PROCESSES)%nat ->
  state (cproc k i) = PROCESS_BLOCKED -> epoll_fd_idx (cproc k i) <> -1 -> epoll_get (epolls k) (epoll_fd_idx (cproc k i)) = Some ep ->
  length (epolls k) = EPOLL_MAX_INSTANCES -> epoll_wf ep ->
  w ∈ watched ep -> has (w_events w) EPOLLET = false -> ready_mask k t (cproc k i) w <> 0 -> 0 < maxevents ->
  state (cproc (tick_procs t k) i) = PROCESS_READY /\ (exists l', sched_inv (ks (tick_procs t k)) l' /\ i ∈ l') /\
  (epoll_wait_resumed t i (epoll_fd_idx (cproc k i)) maxevents (tick_procs t k)).2.2 <> [].
Proof.
  intros Hk. pose proof (tick_procs_spec k t l Hk) as Ht. revert Ht. generalize (tick_procs t k). intros k' Ht.
  destruct Hk as (_ & Hl & _). intros. by eapply wakes_ready.
Qed.

(** ** select *)

Lemma mask_has_bit x i : has x (Z.shiftl 1 (Z.of_nat i)) = Z.testbit x (Z.of_nat i).
Proof.
  unfold has. rewrite Z.shiftl_1_l. destruct (Z.testbit x (Z.of_nat i)) eqn:E.
  - apply negb_true_iff, Z.eqb_neq. intros H0. apply (f_equal (fun z => Z.testbit z (Z.of_nat i))) in H0.
    rewrite Z.land_spec, Z.pow2_bits_true, E, Z.bits_0 in H0 by lia. done.
  - apply negb_false_iff, Z.eqb_eq. apply Z.bits_inj'. intros j Hj. rewrite Z.land_spec, Z.bits_0, Z.pow2_bits_eqb by lia.
    destruct (Z.eqb_spec (Z.of_nat i) j) as [<-|]; [by rewrite E|by rewrite andb_false_r].
Qed.

Lemma set_bit x i j b : 0 <= j ->
  Z.testbit (if b : bool then Z.lor x (Z.shiftl 1 (Z.of_nat i)) else x) j = (b && (j =? Z.of_nat i)) || Z.testbit x j.
Proof.
  intros Hj. destruct b; [|done]. rewrite Z.lor_spec, Z.shiftl_1_l, Z.pow2_bits_eqb, Z.eqb_sym by lia. apply orb_comm.
Qed.

(** The sets a pass computes. *)
Lemma select_pass_spec k t p nfds a j : 0 <= nfds -> 0 <= j ->
  let rw := select_pass k t p nfds a in
  Z.testbit rw.1 j = (j <? nfds) && (Z.testbit (sa_readfds a) j && select_readable k t p j) /\
  Z.testbit rw.2 j = (j <? nfds) && (Z.testbit (sa_writefds a) j && select_writable k p j).
Proof.
  intros Hn Hj. unfold select_pass. cbv zeta.
  set (P := fun (m : nat) (rw : Z * Z) => Z.testbit rw.1 j = (j <? Z.of_nat m) && (Z.testbit (sa_readfds a) j && select_readable k t p j) /\
    Z.testbit rw.2 j = (j <? Z.of_nat m) && (Z.testbit (sa_writefds a) j && select_writable k p j)).
  assert (P (0 + Z.to_nat nfds)%nat (for_loop (Z.to_nat nfds) 0 (select_fd k t p a) (0, 0))) as HP.
  { apply (for_loop_inv P); [unfold P; rewrite (proj2 (Z.ltb_ge j (Z.of_nat 0))) by lia; by rewrite !Z.testbit_0_l|].
    intros m [r w] _ [H1 H2]. unfold P, select_fd. cbn [fst snd] in *. rewrite !set_bit, !mask_has_bit, H1, H2 by done.
    destruct (Z.eqb_spec j (Z.of_nat m)) as [->|Hne]; [|rewrite !andb_false_r; cbn [orb]; by assert ((j <? Z.of_nat (Datatypes.S m)) = (j <? Z.of_nat m)) as -> by (destruct (Z.ltb_spec j (Z.of_nat m)), (Z.ltb_spec j (Z.of_nat (Datatypes.S m))); (done || lia))].
    rewrite Z.ltb_irrefl, !andb_true_r, !orb_false_r. rewrite (proj2 (Z.ltb_lt (Z.of_nat m) (Z.of_nat (Datatypes.S m)))) by lia. done. }
  unfold P in HP. cbn [plus] in HP. rewrite Z2Nat.id in HP by done. exact HP.
Qed.

(** Select on its first turn: it returns exactly the sets of watched
    descriptors that are ready, or, when none is and waiting was asked for, puts
    the process to sleep and runs the next one. *)
Theorem select_correct t c nfds args_ptr a k n l : 0 <= nfds <= Z.of_nat PROCESS_MAX_FDS -> args_ptr < KERNEL_VMA -> -1 <= sa_timeout_ms a ->
  sched_inv (ks k) (n :: l) -> current_process (ks k) = Some c ->
  match sys_select t c nfds args_ptr a k with
  | (k', Some (_, Some (r, w))) => k' = k /\ forall j, 0 <= j ->
      Z.testbit r j = (j <? nfds) && (Z.testbit (sa_readfds a) j && select_readable k t (cproc k c) j) /\
      Z.testbit w j = (j <? nfds) && (Z.testbit (sa_writefds a) j && select_writable k (cproc k c) j)
  | (_, Some (_, None)) => False
  | (k', None) => sa_timeout_ms a <> 0 /\ state (cproc k' c) = PROCESS_BLOCKED /\ current_process (ks k') = Some n /\
      forall j, 0 <= j < nfds -> (Z.testbit (sa_readfds a) j = true -> select_readable k t (cproc k c) j = false) /\
        (Z.testbit (sa_writefds a) j = true -> select_writable k (cproc k c) j = false)
  end.
Proof.
  intros Hn Hp Ht Hq Hc. unfold sys_select. change (Z.of_nat PROCESS_MAX_FDS) with 32 in *. rewrite (proj2 (Z.leb_gt _ _) Hp), u32_small by lia. cbn [orb].
  rewrite (proj2 (Z.ltb_ge _ _)) by lia. unfold select_from.
  assert (0 <? max_polls a = true) as ->. { unfold max_polls. case_match; [|done]. apply Z.ltb_lt. pose proof (Z.div_pos (sa_timeout_ms a) 10). lia. }
  pose proof (fun j Hj => select_pass_spec k t (cproc k c) nfds a j (proj1 Hn) Hj) as HS. cbv zeta in HS.
  destruct (select_pass k t (cproc k c) nfds a) as [r w]. cbn [fst snd] in *.
  destruct (negb (r =? 0) || negb (w =? 0) || (sa_timeout_ms a =? 0)) eqn:E; [by split|].
  apply orb_false_iff in E as [[E1 E2]%orb_false_iff E3].
  destruct (block_spec c k n l (fun p => p <| state := PROCESS_BLOCKED |>) Hq Hc) as (_ & B2 & _ & _ & _ & B3 & _); [done|].
  split_and!; [lia|done|done|]. intros j Hj. destruct (HS j ltac:(lia)) as [H1 H2]. assert (r = 0) as -> by lia. assert (w = 0) as -> by lia.
  rewrite Z.testbit_0_l, (proj2 (Z.ltb_lt _ _) (proj2 Hj)) in H1, H2. cbn in H1, H2. split; intros Hb; rewrite Hb in *; done.
Qed.

(** A process that sleeps in select is not woken by the timer: whatever its
    timeout and however its descriptors change, it is still blocked after any
    number of ticks. *)
Theorem select_not_woken_by_ticks t c nfds args_ptr a k k' n l ts : sys_select t c nfds args_ptr a k = (k', None) ->
  sched_inv (ks k) (n :: l) -> current_process (ks k) = Some c -> length (procs (ks k)) = MAX_PROCESSES ->
  epoll_fd_idx (cproc k c) = -1 ->
  state (cproc (tick_many ts k') c) = PROCESS_BLOCKED.
Proof.
  intros Hs Hq Hc Hl He.
  assert (k' = on_sched schedule (on_proc c (fun p => p <| state := PROCESS_BLOCKED |>) k)) as ->.
  { revert Hs. unfold sys_select, select_from. repeat case_match; congruence. }
  destruct (block_spec c k n l (fun p => p <| state := PROCESS_BLOCKED |>) Hq Hc) as (B1 & B2 & B3 & _ & B4 & B5 & B6); [done|].
  destruct (inv_current _ _ Hq c Hc) as [_ Hlt]. destruct (same_but_epoll _ _ B6) as [B7 _]. set (k2 := on_sched schedule _) in *. clearbody k2.
  destruct (ticks_idle ts k2 l c) as [_ H2]; [|by rewrite <- Hl|etrans; [exact B7|exact He]|by rewrite H2].
  split_and!; [done|by rewrite B4|]. intros c' Hc'. rewrite B2 in Hc'. injection Hc' as <-. by rewrite B3.
Qed.

End poll.

(** ** A small system

    Process 1 runs and process 2 sleeps in epoll_wait with two ticks left; both
    hold instance 0 and the read end of a pipe with [cnt] bytes, which the
    instance watches for [ev]; process 0 is ready. *)

Definition demo_waiter (q : Z) (st : process_state) : process :=
  (demo_proc q st None) <| is_user := true |> <| epoll_fd_idx := -1 |>
    <| fd_table ::= fun l => <[3%nat := mk_fd FD_EPOLL 0 0]> (<[4%nat := mk_fd FD_PIPE_READ 0x100 0]> l) |>.

Definition demo_waiters : table :=
  [demo_waiter 1 PROCESS_READY; demo_waiter 5 PROCESS_RUNNING;
   (demo_waiter 6 PROCESS_BLOCKED) <| epoll_fd_idx := 0 |> <| epoll_timeout_ticks := 2 |>] ++ replicate 61 process_zero.

Definition demo_poll (cnt ev : Z) : kern unit :=
  mk_kern ((demo_vm 0x6007 1) <| sc := mk_sched demo_waiters (Some 1%nat) (Some 0%nat) (Some 0%nat) 0 true 4096 4096 0 |>)
    {[0x100 := Pipe.mk_pipe (replicate 4096 0) 0 0 cnt 1 1 None None]} Kheap.Kheap.demo_heap [0x300000] ∅ 7
    (mk_epoll true 5 (mk_watch 4 ev 77 false :: replicate 31 watch_zero) 1 :: replicate 15 epoll_zero) tt.

Lemma demo_poll_inv cnt ev : sched_inv (ks (demo_poll cnt ev)) [0%nat].
Proof.
  constructor.
  - split_and!; [|done|by apply (bool_decide_unpack _)]. cbn. eauto.
  - intros i p ->%list_elem_of_singleton [= <-]. done.
  - intros c [= <-]. split; [set_solver|cbn; lia].
Qed.

Lemma demo_ticking cnt ev : ticking [0%nat] (demo_poll cnt ev).
Proof. split_and!; [apply demo_poll_inv|done|]. intros c [= <-]. done. Qed.

Lemma demo_wf cnt ev : epoll_wf (zget (epolls (demo_poll cnt ev)) 0).
Proof. split; [reflexivity|]. change (1 <= 32)%nat. lia. Qed.

Lemma epoll_edge_triggered_witness :
  (poll_instance Tty.tty_init 1 0 8 (poll_instance Tty.tty_init 1 0 8 (demo_poll 1 (EPOLLET + EPOLLIN))).1).2 = [].
Proof.
  rewrite (epoll_edge_triggered Tty.tty_init Tty.tty_init 1 1 0 8 8 (demo_poll 1 (EPOLLET + EPOLLIN)));
    [vm_compute; reflexivity|split; [lia|reflexivity]|apply demo_wf|vm_compute; discriminate|vm_compute; discriminate|reflexivity].
Defined.

Lemma scheduler_tick_correct_witness : exists k2, ticked_to (demo_poll 1 EPOLLIN) Tty.tty_init [0%nat] MAX_PROCESSES k2.
Proof.
  destruct (scheduler_tick_correct Tty.tty_init ((demo_poll 1 EPOLLIN) <| mm ::= fun m => m <| sc ::= fun s => s <| tick_count := 2 ^ 64 - 1 |> |> |>) [0%nat])
    as (k2 & H & _); [reflexivity|exact (demo_ticking 1 EPOLLIN)|]. exists k2. exact H.
Defined.

Lemma epoll_wait_times_out_witness :
  state (cproc (tick_many [Tty.tty_init; Tty.tty_init] (demo_poll 0 EPOLLIN)) 2) = PROCESS_READY.
Proof.
  apply (epoll_wait_times_out [Tty.tty_init; Tty.tty_init] (demo_poll 0 EPOLLIN) [0%nat] 2);
    [apply demo_ticking|unfold MAX_PROCESSES; lia|reflexivity|discriminate|cbn; lia|vm_compute; reflexivity].
Defined.

Lemma epoll_wait_correct_witness :
  let r := syscall_epoll_wait Tty.tty_init 1 3 0x1000 (mk_wait_args 8 (-1) 0x2000) (demo_poll 0 EPOLLIN) in
  r.2 = None /\ current_process (ks r.1) = Some 0%nat.
Proof.
  pose proof (epoll_wait_correct Tty.tty_init 1 3 0x1000 (mk_wait_args 8 (-1) 0x2000) (demo_poll 0 EPOLLIN) 0 []
    eq_refl eq_refl (demo_wf 0 EPOLLIN) eq_refl ltac:(vm_compute; reflexivity) ltac:(vm_compute; reflexivity) (demo_poll_inv 0 EPOLLIN) eq_refl) as H.
  assert ((syscall_epoll_wait Tty.tty_init 1 3 0x1000 (mk_wait_args 8 (-1) 0x2000) (demo_poll 0 EPOLLIN)).2 = None) as E by (vm_compute; reflexivity).
  destruct (syscall_epoll_wait _ _ _ _ _ _) as [k' o]. cbn [snd fst] in *. subst o. split; [reflexivity|]. apply H.
Defined.

Lemma epoll_wakes_ready_witness : state (cproc (tick_procs Tty.tty_init (demo_poll 1 EPOLLIN)) 2) = PROCESS_READY.
Proof.
  apply (epoll_wakes_ready Tty.tty_init (demo_poll 1 EPOLLIN) [0%nat] 2 (zget (epolls (demo_poll 1 EPOLLIN)) 0) (mk_watch 4 EPOLLIN 77 false) 8);
    [apply demo_ticking|unfold MAX_PROCESSES; lia|reflexivity|discriminate|reflexivity|reflexivity|apply demo_wf|left|reflexivity|discriminate|lia].
Defined.

Lemma select_correct_witness :
  (sys_select Tty.tty_init 1 8 0x1000 (mk_select_args 16 0 (-1)) (demo_poll 0 EPOLLIN)).2 = None /\
  current_process (ks (sys_select Tty.tty_init 1 8 0x1000 (mk_select_args 16 0 (-1)) (demo_poll 0 EPOLLIN)).1) = Some 0%nat.
Proof.
  pose proof (select_correct Tty.tty_init 1 8 0x1000 (mk_select_args 16 0 (-1)) (demo_poll 0 EPOLLIN) 0 []
    ltac:(split; vm_compute; discriminate) ltac:(vm_compute; reflexivity) ltac:(vm_compute; discriminate) (demo_poll_inv 0 EPOLLIN) eq_refl) as H.
  assert ((sys_select Tty.tty_init 1 8 0x1000 (mk_select_args 16 0 (-1)) (demo_poll 0 EPOLLIN)).2 = None) as E by (vm_compute; reflexivity).
  destruct (sys_select _ _ _ _ _ _) as [k' o]. cbn [snd fst] in *. subst o. split; [reflexivity|]. apply H.
Defined.

Lemma select_not_woken_by_ticks_witness :
  state (cproc (tick_many [Tty.tty_init; Tty.tty_init] (sys_select Tty.tty_init 1 8 0x1000 (mk_select_args 16 0 5) (demo_poll 0 EPOLLIN)).1) 1) = PROCESS_BLOCKED.
Proof.
  apply (select_not_woken_by_ticks Tty.tty_init 1 8 0x1000 (mk_select_args 16 0 5) (demo_poll 0 EPOLLIN) _ 0 []);
    [|apply demo_poll_inv|reflexivity..].
  assert ((sys_select Tty.tty_init 1 8 0x1000 (mk_select_args 16 0 5) (demo_poll 0 EPOLLIN)).2 = None) as E by (vm_compute; reflexivity).
  destruct (sys_select _ _ _ _ _ _) as [k' o]. cbn [snd fst] in *. by subst o.
Defined.

End Poll.
