(* ===== verification/Net.v ===== *)
(** * Network stack: state, buffers and the wire (net/netbuf.c, net/ethernet.c,
    net/arp.c, the receive queue of net/net.c, the send path of net/ipv4.c and
    drivers/e1000.c)

    The data of the whole stack, the monad its functions run in, buffer pools,
    the transmit ring, Ethernet and ARP, and the path of an outgoing packet.  A
    packet is a list of bytes; a pointer to a buffer is its pool and index.

    Resolving an address can put the caller to sleep in the middle of a send, so
    a computation either returns or waits: [Wait w resume] is a process that has
    called [schedule] in world [w] and goes on with [resume] in the world it
    finds when it runs again. *)

From stdpp Require Import prelude.
From Stdlib Require Import ZArith Lia.
From S2P Require Import Prelude Process Sched Checksum.
Import Process Sched Checksum.
Local Open Scope Z_scope.

Module Net.

(** ** Buffers *)

Definition NETBUF_SMALL_SIZE : Z := 256.
Definition NETBUF_LARGE_SIZE : Z := 2048.
Definition NETBUF_SMALL_COUNT : nat := 128.
Definition NETBUF_LARGE_COUNT : nat := 128.

Record netbuf := mk_netbuf {
  nb_data : list Z;
  nb_len : Z;
  nb_offset : Z;
  nb_capacity : Z;
  nb_refcount : Z;
  nb_in_use : bool;
  nb_is_small : bool
}.

#[export] Instance eta_netbuf : Eta netbuf := fun b =>
  mk_netbuf (nb_data b) (nb_len b) (nb_offset b) (nb_capacity b) (nb_refcount b) (nb_in_use b) (nb_is_small b).

Definition netbuf_zero : netbuf := mk_netbuf (replicate 2048 0) 0 0 0 0 false false.
#[export] Instance netbuf_inhabited : Inhabited netbuf := populate netbuf_zero.

(** A [struct netbuf *]. *)
Record bufptr := mk_ptr { p_small : bool; p_index : nat }.

#[export] Instance bufptr_eq_dec : EqDecision bufptr.
Proof. solve_decision. Defined.

Record bufs := mk_bufs { small_pool : list netbuf; large_pool : list netbuf }.

#[export] Instance eta_bufs : Eta bufs := fun b => mk_bufs (small_pool b) (large_pool b).

Definition buf_at (p : bufptr) (b : bufs) : netbuf :=
  if p_small p then small_pool b !!! p_index p else large_pool b !!! p_index p.

Definition set_buf (p : bufptr) (f : netbuf -> netbuf) (b : bufs) : bufs :=
  if p_small p then b <| small_pool ::= alter f (p_index p) |> else b <| large_pool ::= alter f (p_index p) |>.

Definition netbuf_init : bufs :=
  mk_bufs (replicate NETBUF_SMALL_COUNT (netbuf_zero <| nb_capacity := NETBUF_SMALL_SIZE |> <| nb_is_small := true |>))
          (replicate NETBUF_LARGE_COUNT (netbuf_zero <| nb_capacity := NETBUF_LARGE_SIZE |> <| nb_is_small := false |>)).

Definition claim_buf (n : netbuf) : netbuf :=
  n <| nb_in_use := true |> <| nb_len := 0 |> <| nb_offset := 0 |> <| nb_refcount := 1 |>.

Definition netbuf_alloc_size (min_size : Z) (b : bufs) : bufs * option bufptr :=
  let free n := negb (nb_in_use n) in
  match (if min_size <=? NETBUF_SMALL_SIZE then find_index free (small_pool b) else None) with
  | Some i => (set_buf (mk_ptr true i) claim_buf b, Some (mk_ptr true i))
  | None =>
      match find_index free (large_pool b) with
      | Some i => (set_buf (mk_ptr false i) claim_buf b, Some (mk_ptr false i))
      | None => (b, None)
      end
  end.

Definition netbuf_alloc (b : bufs) : bufs * option bufptr := netbuf_alloc_size NETBUF_LARGE_SIZE b.

Definition netbuf_ref (p : bufptr) (b : bufs) : bufs :=
  if nb_refcount (buf_at p b) <? 255 then set_buf p (fun n => n <| nb_refcount ::= Z.add 1 |>) b else b.

Definition netbuf_free (p : bufptr) (b : bufs) : bufs :=
  if 1 <? nb_refcount (buf_at p b) then set_buf p (fun n => n <| nb_refcount ::= fun r => r - 1 |>) b
  else set_buf p (fun n => n <| nb_refcount := 0 |> <| nb_in_use := false |>) b.

(** ** TCP connections and sockets: data *)

Definition TCP_MAX_CONNS : nat := 32.
Definition TCP_RX_BUF_SIZE : Z := 4096.
Definition TCP_ACCEPT_QUEUE : Z := 4.
Definition TCP_WINDOW_SIZE : Z := 4096.

Inductive tcp_state :=
| TCP_CLOSED | TCP_LISTEN | TCP_SYN_SENT | TCP_SYN_RECEIVED | TCP_ESTABLISHED
| TCP_FIN_WAIT_1 | TCP_FIN_WAIT_2 | TCP_CLOSE_WAIT | TCP_LAST_ACK | TCP_TIME_WAIT.

#[export] Instance tcp_state_eq_dec : EqDecision tcp_state.
Proof. solve_decision. Defined.

Record tcp_connection := mk_conn {
  t_state : tcp_state;
  t_local_ip : Z;
  t_local_port : Z;
  t_remote_ip : Z;
  t_remote_port : Z;
  snd_nxt : Z;
  snd_una : Z;
  rcv_nxt : Z;
  rx_buf : list Z;
  rx_read_pos : Z;
  rx_write_pos : Z;
  rx_count : Z;
  t_blocked_reader : option nat;
  t_blocked_writer : option nat;
  t_blocked_accepter : option nat;
  accept_queue : list Z;
  accept_head : Z;
  accept_tail : Z;
  accept_count : Z;
  parent_idx : Z;
  retransmit_data : list Z;
  retransmit_len : Z;
  retransmit_seq : Z;
  retransmit_timer : Z;
  retransmit_count : Z;
  t_in_use : bool;
  eof : bool
}.

#[export] Instance eta_conn : Eta tcp_connection := fun c =>
  mk_conn (t_state c) (t_local_ip c) (t_local_port c) (t_remote_ip c) (t_remote_port c) (snd_nxt c) (snd_una c)
    (rcv_nxt c) (rx_buf c) (rx_read_pos c) (rx_write_pos c) (rx_count c) (t_blocked_reader c) (t_blocked_writer c)
    (t_blocked_accepter c) (accept_queue c) (accept_head c) (accept_tail c) (accept_count c) (parent_idx c)
    (retransmit_data c) (retransmit_len c) (retransmit_seq c) (retransmit_timer c) (retransmit_count c)
    (t_in_use c) (eof c).

Definition conn_zero : tcp_connection :=
  mk_conn TCP_CLOSED 0 0 0 0 0 0 0 (replicate 4096 0) 0 0 0 None None None (replicate 4 0) 0 0 0 0
    (replicate 1460 0) 0 0 0 0 false false.
#[export] Instance conn_inhabited : Inhabited tcp_connection := populate conn_zero.

Definition MAX_SOCKETS : nat := 32.
Definition SOCK_DGRAM : Z := 1.
Definition SOCK_STREAM : Z := 2.
Definition SOCKET_UDP_QUEUE_SIZE : Z := 8.
Definition SOCKET_UDP_PKT_SIZE : Z := 1472.
Definition EAGAIN : Z := 11.

Record socket_udp_pkt := mk_pkt { pkt_data : list Z; pkt_len : Z; pkt_src_ip : Z; pkt_src_port : Z; pkt_valid : bool }.

#[export] Instance eta_pkt : Eta socket_udp_pkt := fun p =>
  mk_pkt (pkt_data p) (pkt_len p) (pkt_src_ip p) (pkt_src_port p) (pkt_valid p).

Definition pkt_zero : socket_udp_pkt := mk_pkt (replicate 1472 0) 0 0 0 false.
#[export] Instance pkt_inhabited : Inhabited socket_udp_pkt := populate pkt_zero.

Record socket := mk_socket {
  s_type : Z;
  s_local_ip : Z;
  s_local_port : Z;
  s_remote_ip : Z;
  s_remote_port : Z;
  s_bound : bool;
  s_listening : bool;
  s_connected : bool;
  s_in_use : bool;
  s_nonblocking : bool;
  s_refcount : Z;
  udp_queue : list socket_udp_pkt;
  udp_head : Z;
  udp_tail : Z;
  udp_count : Z;
  tcp_conn_idx : Z;
  s_blocked_reader : option nat;
  s_blocked_writer : option nat
}.

#[export] Instance eta_socket : Eta socket := fun s =>
  mk_socket (s_type s) (s_local_ip s) (s_local_port s) (s_remote_ip s) (s_remote_port s) (s_bound s) (s_listening s)
    (s_connected s) (s_in_use s) (s_nonblocking s) (s_refcount s) (udp_queue s) (udp_head s) (udp_tail s)
    (udp_count s) (tcp_conn_idx s) (s_blocked_reader s) (s_blocked_writer s).

Definition socket_zero : socket :=
  mk_socket 0 0 0 0 0 false false false false false 0 (replicate 8 pkt_zero) 0 0 0 0 None None.
#[export] Instance socket_inhabited : Inhabited socket := populate socket_zero.

(** ** ARP, ICMP and the card: data *)

Definition ARP_TABLE_SIZE : nat := 32.

Record arp_entry := mk_arp { a_ip : Z; a_mac : list Z; a_valid : bool; a_timestamp : Z }.

#[export] Instance eta_arp : Eta arp_entry := fun e => mk_arp (a_ip e) (a_mac e) (a_valid e) (a_timestamp e).

Definition arp_zero : arp_entry := mk_arp 0 (replicate 6 0) false 0.
#[export] Instance arp_inhabited : Inhabited arp_entry := populate arp_zero.

Record ping := mk_ping { waiter : option nat; ping_id : Z; ping_seq : Z; received : bool; send_tick : Z; recv_tick : Z }.

#[export] Instance eta_ping : Eta ping := fun p =>
  mk_ping (waiter p) (ping_id p) (ping_seq p) (received p) (send_tick p) (recv_tick p).

Definition E1000_NUM_TX_DESC : Z := 32.

(** The transmit side of the card.  [tx_done] is the status bit of each
    descriptor, which the hardware sets; [wire] are the frames handed over. *)
Record card := mk_card {
  initialized : bool;
  mac_addr : list Z;
  tx_done : list bool;
  tx_tail : Z;
  wire : list (list Z)
}.

#[export] Instance eta_card : Eta card := fun c =>
  mk_card (initialized c) (mac_addr c) (tx_done c) (tx_tail c) (wire c).

(** ** The world *)

Definition NET_IP : Z := 0x0A00020F.
Definition NET_NETMASK : Z := 0xFFFFFF00.
Definition NET_GATEWAY : Z := 0x0A000202.
Definition NET_RX_QUEUE_SIZE : Z := 64.

Record world := mk_world {
  pools : bufs;
  rx_queue : list (option bufptr);
  rx_head : Z;
  rx_tail : Z;
  net_worker_proc : option nat;
  nic : card;
  arp_table : list arp_entry;
  arp_waiter : option nat;
  arp_waiter_ip : Z;
  ip_id_counter : Z;
  ip_packet : list Z;
  ping_state : ping;
  conns : list tcp_connection;
  sockets : list socket;
  next_ephemeral_port : Z;
  ticks : Z;
  ns : sched
}.

#[export] Instance eta_world : Eta world := fun w =>
  mk_world (pools w) (rx_queue w) (rx_head w) (rx_tail w) (net_worker_proc w) (nic w) (arp_table w) (arp_waiter w)
    (arp_waiter_ip w) (ip_id_counter w) (ip_packet w) (ping_state w) (conns w) (sockets w) (next_ephemeral_port w)
    (ticks w) (ns w).

(** ** Computations that may sleep *)

Inductive comp (A : Type) :=
| Ret (w : world) (a : A)
| Wait (w : world) (resume : world -> comp A).
Arguments Ret {A} w a.
Arguments Wait {A} w resume.

Fixpoint bind {A B} (m : comp A) (f : world -> A -> comp B) : comp B :=
  match m with
  | Ret w a => f w a
  | Wait w r => Wait w (fun w' => bind (r w') f)
  end.

(** Taking a computation apart: whether it sleeps, the world when it stops for
    the first time, and how it goes on. *)
Definition is_wait {A} (m : comp A) : bool := match m with Wait _ _ => true | Ret _ _ => false end.
Definition stop_world {A} (m : comp A) : world := match m with Wait w _ => w | Ret w _ => w end.
Definition go_on {A} (m : comp A) : world -> comp A := match m with Wait _ r => r | Ret _ _ => fun _ => m end.

(** [p->state = READY; scheduler_add(p); p = NULL], when [p] is not NULL. *)
Definition wake_opt (p : option nat) (w : world) : world :=
  match p with
  | Some i => w <| ns ::= wake i |>
  | None => w
  end.

(** [cur->state = BLOCKED; schedule();] *)
Definition sleep (w : world) : world := w <| ns ::= block_current |>.

Lemma wait_eq {A} (m : comp A) : is_wait m = true -> m = Wait (stop_world m) (go_on m).
Proof. by destruct m. Qed.

(** ** A small machine

    Process 1 runs and process 0 is ready; the card is idle and one neighbour,
    10.0.2.3, is known. *)

Definition demo_net : world :=
  mk_world (mk_bufs [] (replicate 2 (netbuf_zero <| nb_capacity := 2048 |>))) (replicate 64 None) 0 0 None
    (mk_card true [2; 0; 0; 0; 0; 1] (replicate 32 true) 0 [])
    (mk_arp 0x0A000203 [2; 0; 0; 0; 0; 3] true 0 :: replicate 3 arp_zero) None 0 1 (replicate 1500 0)
    (mk_ping None 0 0 false 0 0) (replicate 4 conn_zero) (replicate 4 socket_zero) 49152 0
    (mk_sched [demo_proc 1 PROCESS_READY None; demo_proc 5 PROCESS_RUNNING None] (Some 1%nat) (Some 0%nat) (Some 0%nat) 0 true 0 0 0).

End Net.

Notation "'let!' w , x ':=' m 'in' k" := (Net.bind m (fun w x => k))
  (at level 200, w name, x pattern, m at level 100, k at level 200) : hobby_scope.
