(* ===== verification/Ip.v ===== *)
(** * Sending packets (drivers/e1000.c, net/ethernet.c, net/arp.c, net/ipv4.c,
    net/udp.c and net/icmp.c)

    Address resolution and the path of an outgoing packet from the transport
    header to the transmit ring.  The theorems show that what is put on the wire
    decodes to what was sent and passes the checksum, that resolution learns and
    keeps addresses, and what sharing one packet buffer between senders does
    when one of them sleeps. *)

From stdpp Require Import prelude.
From Stdlib Require Import ZArith Lia.
From S2P Require Import Prelude Process Sched Checksum Net.
Import Process Sched Checksum Net.
Local Open Scope Z_scope.

Module Ip.

(** ** The card and Ethernet *)

Definition e1000_send_packet (data : list Z) (c : card) : card * Z :=
  let len := Z.of_nat (length data) in
  if negb (initialized c) || (len =? 0) || (1518 <? len) then (c, -1) else
  if negb (zget (tx_done c) (tx_tail c)) then (c, -1) else
  (c <| wire ::= fun l => l ++ [data] |> <| tx_done ::= fun l => zset l (tx_tail c) false |>
     <| tx_tail := (tx_tail c + 1) mod E1000_NUM_TX_DESC |>, 0).

Definition ETH_HEADER_LEN : Z := 14.
Definition ETHERTYPE_ARP : Z := 0x0806.
Definition ETHERTYPE_IPV4 : Z := 0x0800.

Definition eth_frame (dst src : list Z) (ethertype : Z) (data : list Z) : list Z :=
  dst ++ src ++ le_bytes 2 (htons ethertype) ++ data.

Definition ethernet_send (data dst_mac : list Z) (ethertype : Z) (w : world) : world * Z :=
  if 1518 <? ETH_HEADER_LEN + Z.of_nat (length data) then (w, -1) else
  let '(c, r) := e1000_send_packet (eth_frame dst_mac (mac_addr (nic w)) ethertype data) (nic w) in
  (w <| nic := c |>, r).

(** ** ARP *)

Definition ARP_OP_REQUEST : Z := 1.
Definition ARP_OP_REPLY : Z := 2.

Definition arp_packet (opcode : Z) (sender_mac : list Z) (sender_ip : Z) (target_mac : list Z) (target_ip : Z) : list Z :=
  le_bytes 2 (htons 1) ++ le_bytes 2 (htons 0x0800) ++ [6; 4] ++ le_bytes 2 (htons opcode) ++
  sender_mac ++ le_bytes 4 (htonl sender_ip) ++ target_mac ++ le_bytes 4 (htonl target_ip).

Definition arp_init (w : world) : world := w <| arp_table := replicate ARP_TABLE_SIZE arp_zero |>.

Definition arp_match (ip : Z) (e : arp_entry) : bool := a_valid e && (a_ip e =? ip).

Definition arp_lookup (ip : Z) (t : list arp_entry) : option arp_entry :=
  match find_index (arp_match ip) t with
  | Some i => Some (t !!! i)
  | None => None
  end.

Definition arp_update (ip : Z) (mac : list Z) (t : list arp_entry) : list arp_entry :=
  let fill i := alter (fun e => e <| a_ip := ip |> <| a_mac := mac |> <| a_valid := true |>) i t in
  match find_index (arp_match ip) t with
  | Some i => alter (fun e => e <| a_mac := mac |>) i t
  | None =>
      match find_index (fun e => negb (a_valid e)) t with
      | Some i => fill i
      | None => fill 0%nat
      end
  end.

Definition arp_send_request (target_ip : Z) (w : world) : world :=
  (ethernet_send (arp_packet ARP_OP_REQUEST (mac_addr (nic w)) NET_IP (replicate 6 0) target_ip)
     (replicate 6 0xFF) ETHERTYPE_ARP w).1.

Definition arp_send_reply (dst_mac : list Z) (dst_ip : Z) (w : world) : world :=
  (ethernet_send (arp_packet ARP_OP_REPLY (mac_addr (nic w)) NET_IP dst_mac dst_ip) dst_mac ETHERTYPE_ARP w).1.

(** The bytes a buffer holds from its offset on, and their number. *)
Definition remaining (n : netbuf) : Z := u32 (nb_len n - nb_offset n).
Definition payload (n : netbuf) : list Z := drop (Z.to_nat (nb_offset n)) (nb_data n).

Definition free_buf (p : bufptr) (w : world) : world := w <| pools ::= netbuf_free p |>.

Definition arp_receive (p : bufptr) (w : world) : world :=
  let n := buf_at p (pools w) in
  if remaining n <? 28 then free_buf p w else
  let d := payload n in
  let opcode := ntohs (rd16 d 6) in
  let sender_mac := slice d 8 6 in
  let sender_ip := ntohl (rd32 d 14) in
  let target_ip := ntohl (rd32 d 24) in
  let w := w <| arp_table ::= arp_update sender_ip sender_mac |> in
  let w := if (opcode =? ARP_OP_REQUEST) && (target_ip =? NET_IP) then arp_send_reply sender_mac sender_ip w else w in
  let w := match arp_waiter w with
           | Some i => if arp_waiter_ip w =? sender_ip then (wake_opt (Some i) w) <| arp_waiter := None |> else w
           | None => w
           end in
  free_buf p w.

(** The address to resolve: the gateway's off the local subnet. *)
Definition next_hop (ip : Z) : Z :=
  if Z.land ip NET_NETMASK =? Z.land NET_IP NET_NETMASK then ip else NET_GATEWAY.

(** The retry loop of [arp_resolve]. *)
Fixpoint arp_wait (attempts : nat) (ip : Z) (w : world) : comp (Z * list Z) :=
  match attempts with
  | O => Ret (w <| arp_waiter := None |>) (-1, [])
  | S attempts' =>
      Wait (sleep w) (fun w =>
        match arp_lookup ip (arp_table w) with
        | Some e => Ret (w <| arp_waiter := None |>) (0, a_mac e)
        | None => arp_wait attempts' ip (arp_send_request ip w)
        end)
  end.

Definition arp_resolve (ip : Z) (w : world) : comp (Z * list Z) :=
  let ip := next_hop ip in
  match arp_lookup ip (arp_table w) with
  | Some e => Ret w (0, a_mac e)
  | None =>
      let w := w <| arp_waiter := current_process (ns w) |> <| arp_waiter_ip := ip |> in
      arp_wait 3 ip (arp_send_request ip w)
  end.

(** ** IPv4 *)

Definition IP_PROTO_ICMP : Z := 1.
Definition IP_PROTO_TCP : Z := 6.
Definition IP_PROTO_UDP : Z := 17.

(** The header without options, up to the checksum field and after it. *)
Definition ip_head (total id protocol : Z) : list Z :=
  [0x45; 0] ++ le_bytes 2 (htons total) ++ le_bytes 2 (htons id) ++ le_bytes 2 (htons 0x4000) ++ [64; protocol].
Definition ip_addrs (src dst : Z) : list Z := le_bytes 4 (htonl src) ++ le_bytes 4 (htonl dst).

Definition ip_header (total id protocol src dst : Z) : list Z :=
  ip_head total id protocol ++
  le_bytes 2 (ip_checksum (ip_head total id protocol ++ [0; 0] ++ ip_addrs src dst)) ++ ip_addrs src dst.

(** The packet is built in a static buffer, which other senders use while this
    one waits for the address. *)
Definition ipv4_send (data : list Z) (dst_ip protocol : Z) (w : world) : comp Z :=
  let total := 20 + Z.of_nat (length data) in
  if 1500 <? total then Ret w (-1) else
  let hdr := ip_header (u16 total) (ip_id_counter w) protocol NET_IP dst_ip in
  let w := w <| ip_id_counter ::= fun n => u16 (n + 1) |> <| ip_packet ::= fun b => blit b 0 (hdr ++ data) |> in
  let! w, r := arp_resolve dst_ip w in
  if r.1 <? 0 then Ret w (-1) else
  let '(w, r) := ethernet_send (slice (ip_packet w) 0 total) r.2 ETHERTYPE_IPV4 w in Ret w r.

(** ** UDP and ICMP *)

Definition udp_packet (src_port dst_port : Z) (data : list Z) : list Z :=
  le_bytes 2 (htons src_port) ++ le_bytes 2 (htons dst_port) ++
  le_bytes 2 (htons (u16 (8 + Z.of_nat (length data)))) ++ [0; 0] ++ data.

Definition udp_send (dst_ip src_port dst_port : Z) (data : list Z) (w : world) : comp Z :=
  if 1480 <? 8 + Z.of_nat (length data) then Ret w (-1)
  else ipv4_send (udp_packet src_port dst_port data) dst_ip IP_PROTO_UDP w.

Definition ICMP_ECHO_REPLY : Z := 0.
Definition ICMP_ECHO_REQUEST : Z := 8.

(** Put the checksum into an ICMP message. *)
Definition icmp_seal (m : list Z) : list Z :=
  let m := blit m 2 [0; 0] in blit m 2 (le_bytes 2 (ip_checksum m)).

Definition icmp_send_echo (dst_ip id seq : Z) (w : world) : comp Z :=
  let m := [ICMP_ECHO_REQUEST; 0; 0; 0] ++ le_bytes 2 (htons id) ++ le_bytes 2 (htons seq) ++ replicate 56 0 in
  ipv4_send (icmp_seal m) dst_ip IP_PROTO_ICMP w.

(** ** Well-formed state *)

Record net_wf (w : world) : Prop := mk_net_wf {
  wf_packet : length (ip_packet w) = 1500%nat;
  wf_mac : length (mac_addr (nic w)) = 6%nat;
  wf_arp : Forall (fun e => length (a_mac e) = 6%nat) (arp_table w);
  wf_ring : length (tx_done (nic w)) = 32%nat
}.

(** The card takes a frame. *)
Definition card_ready (c : card) : Prop := initialized c = true /\ zget (tx_done c) (tx_tail c) = true.

Definition sent (frame : list Z) (c : card) : card :=
  c <| wire ::= fun l => l ++ [frame] |> <| tx_done ::= fun l => zset l (tx_tail c) false |>
    <| tx_tail := (tx_tail c + 1) mod E1000_NUM_TX_DESC |>.

(** The frame of an IPv4 packet, and the state after it was sent. *)
Definition ip_frame (mac src_mac : list Z) (id protocol dst_ip : Z) (data : list Z) : list Z :=
  eth_frame mac src_mac ETHERTYPE_IPV4 (ip_header (20 + Z.of_nat (length data)) id protocol NET_IP dst_ip ++ data).

Definition ip_sent (mac : list Z) (protocol dst_ip : Z) (data : list Z) (w : world) : world :=
  let hdr := ip_header (20 + Z.of_nat (length data)) (ip_id_counter w) protocol NET_IP dst_ip in
  w <| ip_id_counter ::= fun n => u16 (n + 1) |> <| ip_packet ::= fun b => blit b 0 (hdr ++ data) |>
    <| nic ::= sent (ip_frame mac (mac_addr (nic w)) (ip_id_counter w) protocol dst_ip data) |>.

(** The address table as a map, and its invariant: one valid entry per address. *)
Definition arp_mac (ip : Z) (t : list arp_entry) : option (list Z) := a_mac <$> arp_lookup ip t.

Definition arp_wf (t : list arp_entry) : Prop :=
  t <> [] /\ forall i j e f, t !! i = Some e -> t !! j = Some f -> a_valid e = true -> a_valid f = true -> a_ip e = a_ip f -> i = j.

(** The buffer [p] points to a message that starts with [d]. *)
Definition has_payload (p : bufptr) (d : list Z) (w : world) : Prop :=
  let n := buf_at p (pools w) in (exists rest, payload n = d ++ rest) /\ Z.of_nat (length d) <= remaining n.

(** ** Sending with the address known *)

Lemma length_ip_header total id protocol src dst : length (ip_header total id protocol src dst) = 20%nat.
Proof. reflexivity. Qed.

Lemma arp_lookup_mac ip t e : Forall (fun e => length (a_mac e) = 6%nat) t -> arp_lookup ip t = Some e -> length (a_mac e) = 6%nat.
Proof.
  unfold arp_lookup. intros Ht. destruct (find_index (arp_match ip) t) as [i|] eqn:E; [|done]. intros [= <-].
  apply find_index_Some in E as (x & Hx & _). rewrite (list_lookup_total_correct _ _ _ Hx). by eapply (Forall_lookup_1 _ _ _ _ Ht Hx).
Qed.

Lemma e1000_sent frame c : card_ready c -> frame <> [] -> (length frame <= 1518)%nat -> e1000_send_packet frame c = (sent frame c, 0).
Proof.
  intros [H1 H2] Hn Hl. unfold e1000_send_packet. rewrite H1, H2. destruct frame as [|x f]; [done|]. cbn [negb orb].
  rewrite (proj2 (Z.eqb_neq _ _)), (proj2 (Z.ltb_ge _ _)) by (cbn in *; lia). done.
Qed.

Lemma ethernet_sent data mac et w : card_ready (nic w) -> length mac = 6%nat -> length (mac_addr (nic w)) = 6%nat -> (length data <= 1500)%nat ->
  ethernet_send data mac et w = (w <| nic := sent (eth_frame mac (mac_addr (nic w)) et data) (nic w) |>, 0).
Proof.
  intros Hc Hm Hm' Hl. unfold ethernet_send, ETH_HEADER_LEN. rewrite (proj2 (Z.ltb_ge _ _)) by lia.
  rewrite e1000_sent; [done|done| |].
  - unfold eth_frame. intros E. apply (f_equal length) in E. rewrite length_app in E. cbn in E. lia.
  - unfold eth_frame. rewrite !length_app, length_le_bytes. lia.
Qed.

(** A packet to a known neighbour goes out at once. *)
Lemma ipv4_send_hit data dst_ip protocol w e : net_wf w -> card_ready (nic w) ->
  arp_lookup (next_hop dst_ip) (arp_table w) = Some e -> (length data <= 1480)%nat ->
  ipv4_send data dst_ip protocol w = Ret (ip_sent (a_mac e) protocol dst_ip data w) 0.
Proof.
  intros [W1 W2 W3 W4] Hc He Hl. unfold ipv4_send. rewrite (proj2 (Z.ltb_ge _ _)), u16_small by lia.
  set (hdr := ip_header _ _ _ _ _). assert (length (hdr ++ data) = (20 + length data)%nat) as Hh by (by rewrite length_app).
  unfold arp_resolve. change (arp_table (w <| ip_id_counter ::= _ |> <| ip_packet ::= _ |>)) with (arp_table w). rewrite He.
  cbn [bind fst snd]. change (0 <? 0) with false. cbv iota.
  assert (slice (blit (ip_packet w) 0 (hdr ++ data)) 0 (20 + Z.of_nat (length data)) = hdr ++ data) as Es.
  { replace (20 + Z.of_nat (length data)) with (Z.of_nat (length (hdr ++ data))) by lia. apply slice_blit; lia. }
  change (ip_packet (w <| ip_id_counter ::= _ |> <| ip_packet ::= _ |>)) with (blit (ip_packet w) 0 (hdr ++ data)). rewrite Es.
  rewrite ethernet_sent; [done|done|by eapply arp_lookup_mac|done|lia].
Qed.

(** ** The address table *)

Lemma arp_mac_Some ip t i e : arp_wf t -> t !! i = Some e -> a_valid e = true -> a_ip e = ip -> arp_mac ip t = Some (a_mac e).
Proof.
  intros [_ Hu] Hi Hv Hip. unfold arp_mac, arp_lookup.
  rewrite (find_index_unique (arp_match ip) t i e); [by rewrite (list_lookup_total_correct _ _ _ Hi)|done| |].
  - unfold arp_match. by rewrite Hv, Hip, Z.eqb_refl.
  - intros j f Hlt Hj. destruct (arp_match ip f) eqn:E; [|done]. apply andb_true_iff in E as [Hvf Hf%Z.eqb_eq].
    assert (j = i) by (apply (Hu j i f e); congruence). lia.
Qed.

Lemma arp_mac_None ip t : (forall i e, t !! i = Some e -> a_valid e = true -> a_ip e <> ip) -> arp_mac ip t = None.
Proof.
  intros H. unfold arp_mac, arp_lookup. destruct (find_index (arp_match ip) t) as [i|] eqn:E; [|done].
  apply find_index_Some in E as (e & He & [Hv Hip%Z.eqb_eq]%andb_true_iff & _). by destruct (H i e He Hv).
Qed.

(** Entry [i] becomes the only entry of [ip]. *)
Lemma arp_set_spec t i e g ip : arp_wf t -> t !! i = Some e -> a_valid (g e) = true -> a_ip (g e) = ip ->
  (forall j f, j <> i -> t !! j = Some f -> a_valid f = true -> a_ip f <> ip) ->
  let t' := alter g i t in arp_wf t' /\ arp_mac ip t' = Some (a_mac (g e)) /\
  forall ip', ip' <> ip -> arp_mac ip' t' = if a_valid e && (a_ip e =? ip') then None else arp_mac ip' t.
Proof.
  intros [Hne Hu] Hi Hv Hip Hoth t'. assert (t' !! i = Some (g e)) as Hi' by (unfold t'; by rewrite list_lookup_alter_eq, Hi).
  assert (forall j, j <> i -> t' !! j = t !! j) as Hj' by (intros j Hne'; unfold t'; by apply list_lookup_alter_ne).
  assert (arp_wf t') as Hwf.
  { split; [intros E; apply (f_equal length) in E; unfold t' in E; rewrite length_alter in E; by destruct t|].
    intros j k f h. destruct (decide (j = i)) as [->|Hji], (decide (k = i)) as [->|Hki]; [done|..].
    - rewrite Hi', Hj' by done. intros [= <-] Hk _ Hvh Eip. exfalso. apply (Hoth k h Hki Hk Hvh). congruence.
    - rewrite Hi', Hj' by done. intros Hk [= <-] Hvf _ Eip. exfalso. apply (Hoth j f Hji Hk Hvf). congruence.
    - rewrite !Hj' by done. apply Hu. }
  split_and!; [done|by eapply arp_mac_Some|]. intros ip' Hip'.
  destruct (a_valid e && (a_ip e =? ip')) eqn:Ee.
  - apply andb_true_iff in Ee as [Ev Ei%Z.eqb_eq]. apply arp_mac_None. intros j f. destruct (decide (j = i)) as [->|Hji].
    + rewrite Hi'. intros [= <-] _. congruence.
    + rewrite Hj' by done. intros Hf Hvf Eip. apply Hji. apply (Hu j i f e); congruence.
  - unfold arp_mac, arp_lookup at 2. destruct (find_index (arp_match ip') t) as [j|] eqn:E.
    + apply find_index_Some in E as (f & Hf & Hm & _). rewrite (list_lookup_total_correct _ _ _ Hf).
      assert (j <> i) by (intros ->; unfold arp_match in Hm; congruence). apply andb_true_iff in Hm as [Hvf Eip%Z.eqb_eq].
      apply (arp_mac_Some ip' t' j f); [done|by rewrite Hj'|done|done].
    + rewrite find_index_None in E. apply arp_mac_None. intros j f. destruct (decide (j = i)) as [->|Hji].
      * rewrite Hi'. intros [= <-] _. congruence.
      * rewrite Hj' by done. intros Hf Hvf Eip. specialize (E j f Hf). unfold arp_match in E. rewrite Hvf, Eip, Z.eqb_refl in E. done.
Qed.

Lemma arp_update_spec ip mac t : arp_wf t -> arp_wf (arp_update ip mac t) /\ arp_mac ip (arp_update ip mac t) = Some mac /\
  forall ip', ip' <> ip -> arp_mac ip' (arp_update ip mac t) = arp_mac ip' t \/
    (Forall (fun e => a_valid e = true) t /\ arp_mac ip t = None /\ a_ip (t !!! 0%nat) = ip' /\ arp_mac ip' (arp_update ip mac t) = None).
Proof.
  intros Hwf. unfold arp_update. destruct (find_index (arp_match ip) t) as [i|] eqn:E; [|destruct (find_index (fun e => negb (a_valid e)) t) as [i|] eqn:E'].
  - apply find_index_Some in E as (e & He & [Hv Hi%Z.eqb_eq]%andb_true_iff & _). pose proof Hwf as [_ Hu].
    destruct (arp_set_spec t i e (fun e => e <| a_mac := mac |>) ip) as (A & B & C); [done..| |].
    { intros j f Hji Hf Hvf Ef. apply Hji. apply (Hu j i f e); congruence. }
    split_and!; [done|done|]. intros ip' Hne. left. rewrite C by done. by rewrite Hi, (proj2 (Z.eqb_neq _ _)), andb_false_r by congruence.
  - apply find_index_Some in E' as (e & He & Hv%negb_true_iff & _). rewrite find_index_None in E.
    destruct (arp_set_spec t i e (fun e => e <| a_ip := ip |> <| a_mac := mac |> <| a_valid := true |>) ip) as (A & B & C); [done..| |].
    { intros j f _ Hf Hvf Ef. specialize (E j f Hf). unfold arp_match in E. rewrite Hvf, Ef, Z.eqb_refl in E. done. }
    split_and!; [done|done|]. intros ip' Hne. left. rewrite C by done. by rewrite Hv.
  - rewrite find_index_None in E, E'. destruct t as [|e t0] eqn:Et; [by destruct Hwf|].
    destruct (arp_set_spec (e :: t0) 0 e (fun e => e <| a_ip := ip |> <| a_mac := mac |> <| a_valid := true |>) ip) as (A & B & C); [done..| |].
    { intros j f _ Hf Hvf Ef. specialize (E j f Hf). unfold arp_match in E. rewrite Hvf, Ef, Z.eqb_refl in E. done. }
    assert (a_valid e = true) as Hv by (specialize (E' 0%nat e eq_refl); by apply negb_false_iff).
    split_and!; [done|done|]. intros ip' Hne. rewrite C, Hv by done. destruct (Z.eqb_spec (a_ip e) ip') as [<-|]; [|by left]. right. split_and!; [|..|done|done].
    + apply Forall_lookup. intros j f Hf. by apply negb_false_iff, (E' j).
    + unfold arp_mac, arp_lookup. by rewrite (proj2 (find_index_None _ _) E).
Qed.

(** ** Receiving an ARP packet *)

Lemma arp_fields op smac sip tmac tip rest : 0 <= op < 65536 -> length smac = 6%nat -> 0 <= sip < 2 ^ 32 -> length tmac = 6%nat ->
  0 <= tip < 2 ^ 32 -> let d := arp_packet op smac sip tmac tip ++ rest in
  ntohs (rd16 d 6) = op /\ slice d 8 6 = smac /\ ntohl (rd32 d 14) = sip /\ ntohl (rd32 d 24) = tip.
Proof.
  intros Hop Hsm Hsi Htm Hti d. unfold d, arp_packet. set (pre := le_bytes 2 (htons 1) ++ le_bytes 2 (htons 0x0800) ++ [6; 4]).
  replace ((le_bytes 2 (htons 1) ++ le_bytes 2 (htons 2048) ++ [6; 4] ++ le_bytes 2 (htons op) ++ smac ++ le_bytes 4 (htonl sip) ++ tmac ++ le_bytes 4 (htonl tip)) ++ rest)
    with (pre ++ le_bytes 2 (htons op) ++ smac ++ le_bytes 4 (htonl sip) ++ tmac ++ le_bytes 4 (htonl tip) ++ rest) by (unfold pre; by rewrite <- !app_assoc).
  assert (length pre = 6%nat) as Hpre by done. clearbody pre. split_and!.
  - unfold rd16. rewrite (rd_le_at 2 pre) by lia. rewrite Z.mod_small by apply htons_range. by apply htons_invol.
  - rewrite app_assoc. apply slice_at; rewrite ?length_app, ?length_le_bytes; lia.
  - rewrite (app_assoc pre), (app_assoc (pre ++ _)). unfold rd32. rewrite rd_le_at by (rewrite !length_app, !length_le_bytes; lia).
    rewrite Z.mod_small by (by apply htonl_range). by apply htonl_invol.
  - rewrite (app_assoc pre), (app_assoc (pre ++ _)), (app_assoc ((pre ++ _) ++ _)), (app_assoc (((pre ++ _) ++ _) ++ _)).
    unfold rd32. rewrite rd_le_at by (rewrite !length_app, !length_le_bytes; lia). rewrite Z.mod_small by (by apply htonl_range). by apply htonl_invol.
Qed.

Lemma arp_table_ethernet d m et w : let w' := (ethernet_send d m et w).1 in
  arp_table w' = arp_table w /\ arp_waiter w' = arp_waiter w /\ arp_waiter_ip w' = arp_waiter_ip w /\ ns w' = ns w /\ pools w' = pools w.
Proof. unfold ethernet_send. case_match; [done|]. by destruct (e1000_send_packet _ _). Qed.

Lemma arp_receive_spec p op smac sip tmac tip w : has_payload p (arp_packet op smac sip tmac tip) w ->
  0 <= op < 65536 -> length smac = 6%nat -> 0 <= sip < 2 ^ 32 -> length tmac = 6%nat -> 0 <= tip < 2 ^ 32 ->
  let w' := arp_receive p w in
  arp_table w' = arp_update sip smac (arp_table w) /\ pools w' = netbuf_free p (pools w) /\
  nic w' = (if (op =? ARP_OP_REQUEST) && (tip =? NET_IP) then nic (arp_send_reply smac sip w) else nic w) /\
  (forall c, arp_waiter w = Some c -> arp_waiter_ip w = sip -> arp_waiter w' = None /\ ns w' = wake c (ns w)).
Proof.
  intros [[rest Hp] Hr] Hop Hsm Hsi Htm Hti. unfold arp_receive.
  assert (length (arp_packet op smac sip tmac tip) = 28%nat) as Hl by (unfold arp_packet; rewrite !length_app, !length_le_bytes, Hsm, Htm; done).
  rewrite Hl in Hr. rewrite (proj2 (Z.ltb_ge _ _)) by lia. rewrite Hp.
  destruct (arp_fields op smac sip tmac tip rest Hop Hsm Hsi Htm Hti) as (-> & -> & -> & ->). cbv zeta.
  set (w1 := w <| arp_table ::= arp_update sip smac |>).
  set (w2 := if (op =? ARP_OP_REQUEST) && (tip =? NET_IP) then arp_send_reply smac sip w1 else w1).
  assert (arp_table w2 = arp_table w1 /\ arp_waiter w2 = arp_waiter w /\ arp_waiter_ip w2 = arp_waiter_ip w /\ ns w2 = ns w /\ pools w2 = pools w) as (E1 & E2 & E3 & E4 & E5).
  { unfold w2. case_match; [|done]. unfold arp_send_reply. destruct (arp_table_ethernet (arp_packet ARP_OP_REPLY (mac_addr (nic w1)) NET_IP smac sip) smac ETHERTYPE_ARP w1)
      as (-> & -> & -> & -> & ->). done. }
  assert (nic w2 = (if (op =? ARP_OP_REQUEST) && (tip =? NET_IP) then nic (arp_send_reply smac sip w) else nic w)) as E6.
  { unfold w2. case_match; [|done]. unfold arp_send_reply, ethernet_send. change (nic w1) with (nic w). case_match; [done|]. by destruct (e1000_send_packet _ _). }
  clearbody w2. change (arp_table w1) with (arp_update sip smac (arp_table w)) in E1.
  destruct (arp_waiter w2) as [i|] eqn:Ei; [destruct (arp_waiter_ip w2 =? sip) eqn:Eip|]; split_and!; cbn; try done;
    try (by rewrite E5); intros c Hc Hcip; try congruence.
  - assert (i = c) as -> by congruence. by rewrite E4.
  - exfalso. apply Z.eqb_neq in Eip. congruence.
Qed.

(** Address resolution.  A known address is returned at once.  An unknown
    one puts a request for it (or, off the subnet, for the gateway) on the wire
    and the caller to sleep; whatever the world is by then, an ARP packet from
    that address wakes the sleeper, and the call, resumed, returns the sender's
    hardware address. *)
Theorem arp_resolution ip w : net_wf w -> card_ready (nic w) ->
  match arp_mac (next_hop ip) (arp_table w) with
  | Some mac => arp_resolve ip w = Ret w (0, mac)
  | None => exists w1 resume, arp_resolve ip w = Wait w1 resume /\
      wire (nic w1) = wire (nic w) ++ [eth_frame (replicate 6 0xFF) (mac_addr (nic w)) ETHERTYPE_ARP
                        (arp_packet ARP_OP_REQUEST (mac_addr (nic w)) NET_IP (replicate 6 0) (next_hop ip))] /\
      arp_waiter w1 = current_process (ns w) /\ arp_waiter_ip w1 = next_hop ip /\ ns w1 = block_current (ns w) /\
      forall p op mac tmac tip w2, arp_wf (arp_table w2) -> has_payload p (arp_packet op mac (next_hop ip) tmac tip) w2 ->
        0 <= op < 65536 -> length mac = 6%nat -> 0 <= next_hop ip < 2 ^ 32 -> length tmac = 6%nat -> 0 <= tip < 2 ^ 32 ->
        (forall c, arp_waiter w2 = Some c -> arp_waiter_ip w2 = next_hop ip -> ns (arp_receive p w2) = wake c (ns w2)) /\
        resume (arp_receive p w2) = Ret ((arp_receive p w2) <| arp_waiter := None |>) (0, mac)
  end.
Proof.
  intros [W1 W2 W3 W4] Hc. unfold arp_mac, arp_resolve. destruct (arp_lookup (next_hop ip) (arp_table w)) as [e|]; [done|]. cbn [fmap option_fmap option_map].
  set (ip' := next_hop ip). set (w0 := w <| arp_waiter := _ |> <| arp_waiter_ip := _ |>).
  assert (arp_send_request ip' w0 = w0 <| nic := sent (eth_frame (replicate 6 0xFF) (mac_addr (nic w)) ETHERTYPE_ARP
    (arp_packet ARP_OP_REQUEST (mac_addr (nic w)) NET_IP (replicate 6 0) ip')) (nic w) |>) as Er.
  { unfold arp_send_request. rewrite ethernet_sent; [done|done|done|done|]. unfold arp_packet. rewrite !length_app, !length_le_bytes, length_replicate.
    change (mac_addr (nic w0)) with (mac_addr (nic w)). rewrite W2. cbn. lia. }
  eexists _, _. split; [cbn [arp_wait]; reflexivity|]. rewrite Er. split_and!; [done..|].
  intros p op mac tmac tip w2 Hwf Hp Hop Hm Hip Htm Hti. destruct (arp_receive_spec p op mac ip' tmac tip w2) as (A & _ & _ & D); [done..|].
  split; [intros c H1 H2; by apply D|]. destruct (arp_update_spec ip' mac (arp_table w2) Hwf) as (_ & B & _). rewrite A.
  unfold arp_mac in B. destruct (arp_lookup ip' _) as [e|]; [|done]. injection B as ->. done.
Qed.

(** ** Sleeping in the middle of a send *)

(** A send that has to wait: what it does when its address has been learned. *)
Lemma ipv4_send_miss data dst_ip protocol w : (length data <= 1480)%nat -> arp_lookup (next_hop dst_ip) (arp_table w) = None ->
  exists w1 resume, ipv4_send data dst_ip protocol w = Wait w1 resume /\ ip_id_counter w1 = u16 (ip_id_counter w + 1) /\
    arp_table w1 = arp_table w /\ length (ip_packet w1) = length (blit (ip_packet w) 0 (ip_header (20 + Z.of_nat (length data)) (ip_id_counter w) protocol NET_IP dst_ip ++ data)) /\
    mac_addr (nic w1) = mac_addr (nic w) /\ length (tx_done (nic w1)) = length (tx_done (nic w)) /\
    forall w2 e, arp_lookup (next_hop dst_ip) (arp_table w2) = Some e ->
      resume w2 = (let '(w3, r) := ethernet_send (slice (ip_packet w2) 0 (20 + Z.of_nat (length data))) (a_mac e) ETHERTYPE_IPV4
                                     (w2 <| arp_waiter := None |>) in Ret w3 r).
Proof.
  intros Hl He. unfold ipv4_send. rewrite (proj2 (Z.ltb_ge _ _)), u16_small by lia. unfold arp_resolve.
  change (arp_table (w <| ip_id_counter ::= _ |> <| ip_packet ::= _ |>)) with (arp_table w). rewrite He.
  set (w0 := (w <| ip_id_counter ::= _ |> <| ip_packet ::= _ |>) <| arp_waiter := _ |> <| arp_waiter_ip := _ |>). cbn [arp_wait bind].
  eexists _, _. split; [reflexivity|]. set (w1 := sleep (arp_send_request _ w0)).
  assert (ip_id_counter w1 = ip_id_counter w0 /\ arp_table w1 = arp_table w0 /\ ip_packet w1 = ip_packet w0 /\ mac_addr (nic w1) = mac_addr (nic w0) /\
    length (tx_done (nic w1)) = length (tx_done (nic w0))) as (E1 & E2 & E3 & E4 & E5).
  { unfold w1, sleep, arp_send_request, ethernet_send. case_match; [done|]. unfold e1000_send_packet. repeat case_match; try done; simplify_eq; cbn; by rewrite ?length_zset. }
  rewrite E1, E2, E3, E4, E5. split_and!; [done..|]. intros w2 e ->. done.
Qed.

(** The packet buffer of [ipv4_send] is shared: if a second packet, of the
    same length, is sent while the first sender sleeps for its address, the
    first sender, resumed, transmits the second packet's bytes, addressed to the
    second packet's destination, to the first one's hardware address; its own
    data never reaches the wire. *)
Theorem ipv4_send_overwritten d1 dst1 p1 d2 dst2 p2 e1 e2 t w w1 resume :
  net_wf w -> (length d1 <= 1480)%nat -> length d2 = length d1 -> arp_lookup (next_hop dst1) (arp_table w) = None ->
  arp_lookup (next_hop dst2) (arp_table w) = Some e2 -> ipv4_send d1 dst1 p1 w = Wait w1 resume ->
  card_ready (nic w1) ->
  let w2 := ip_sent (a_mac e2) p2 dst2 d2 w1 in let w3 := w2 <| arp_table := t |> in
  card_ready (nic w2) -> arp_lookup (next_hop dst1) t = Some e1 -> length (a_mac e1) = 6%nat ->
  ipv4_send d2 dst2 p2 w1 = Ret w2 0 /\
  exists w4, resume w3 = Ret w4 0 /\
    wire (nic w4) = wire (nic w2) ++ [ip_frame (a_mac e1) (mac_addr (nic w)) (u16 (ip_id_counter w + 1)) p2 dst2 d2].
Proof.
  intros Hwf Hl Hl2 Hm1 Hm2 Hs Hc1 w2 w3 Hc2 Ht He1. destruct (ipv4_send_miss d1 dst1 p1 w Hl Hm1) as (w1' & r' & E & E1 & E2 & E3 & E4 & E5 & Hr).
  rewrite Hs in E. injection E as <- <-. destruct Hwf as [W1 W2 W3 W4].
  assert (length (ip_packet w1) = 1500%nat) as Hp1 by (rewrite E3, length_blit; [done|lia|rewrite length_app, length_ip_header; lia]).
  assert (net_wf w1) as Hwf1 by (constructor; [done|by rewrite E4|by rewrite E2|by rewrite E5]).
  split; [apply ipv4_send_hit; [done|done|by rewrite E2|lia]|].
  rewrite (Hr w3 e1) by done.
  assert (slice (ip_packet w3) 0 (20 + Z.of_nat (length d1)) = ip_header (20 + Z.of_nat (length d2)) (ip_id_counter w1) p2 NET_IP dst2 ++ d2) as ->.
  { change (ip_packet w3) with (blit (ip_packet w1) 0 (ip_header (20 + Z.of_nat (length d2)) (ip_id_counter w1) p2 NET_IP dst2 ++ d2)).
    set (h := ip_header _ _ _ _ _ ++ d2). assert (length h = (20 + length d1)%nat) as Hh by (unfold h; by rewrite length_app, length_ip_header, Hl2).
    replace (20 + Z.of_nat (length d1)) with (Z.of_nat (length h)) by lia. apply slice_blit; lia. }
  rewrite ethernet_sent; [|done|done|by rewrite <- W2, <- E4|rewrite length_app, length_ip_header; lia].
  eexists. split; [reflexivity|]. cbn. unfold ip_frame. by rewrite E1, E4.
Qed.

Lemma demo_net_wf : net_wf demo_net.
Proof. constructor; [reflexivity|reflexivity|repeat constructor|reflexivity]. Qed.

Lemma arp_resolution_witness : arp_resolve 0x0A000203 demo_net = Ret demo_net (0, [2; 0; 0; 0; 0; 3]).
Proof. apply (arp_resolution 0x0A000203 demo_net demo_net_wf). split; reflexivity. Defined.

Definition demo_send : comp Z := ipv4_send [1] 0x0A000204 17 demo_net.

Lemma ipv4_send_overwritten_witness :
  let w2 := ip_sent [2; 0; 0; 0; 0; 3] 17 0x0A000203 [9] (stop_world demo_send) in
  exists w4, go_on demo_send (w2 <| arp_table := [mk_arp 0x0A000204 [2; 0; 0; 0; 0; 4] true 0] |>) = Ret w4 0.
Proof.
  destruct (ipv4_send_overwritten [1] 0x0A000204 17 [9] 0x0A000203 17 (mk_arp 0x0A000204 [2; 0; 0; 0; 0; 4] true 0)
    (mk_arp 0x0A000203 [2; 0; 0; 0; 0; 3] true 0) [mk_arp 0x0A000204 [2; 0; 0; 0; 0; 4] true 0] demo_net (stop_world demo_send) (go_on demo_send))
    as [_ (w4 & H & _)]; [exact demo_net_wf|cbn; lia|reflexivity|reflexivity|reflexivity|apply (wait_eq demo_send); vm_compute; reflexivity
    |split; vm_compute; reflexivity|split; vm_compute; reflexivity|reflexivity|reflexivity|]. exists w4. exact H.
Defined.

End Ip.
