(* ===== verification/Tcp.v ===== *)
(** * TCP (net/tcp.c, tcp.h)

    Connections, segments, the receive state machine, the retransmit timer and
    the calls of the socket layer.  Receiving is split by the cases of the
    switch on the connection's state.  The theorems are about the byte stream a
    connection delivers, the handshake, the life of a connection, and the
    retransmit timer. *)

From stdpp Require Import prelude.
From Stdlib Require Import ZArith Lia.
From S2P Require Import Prelude Process Sched Signal Ring Checksum Net Ip.
Import Process Sched Ring Checksum Net Ip.
Local Open Scope Z_scope.

Module Tcp.

Definition TCP_FIN : Z := 0x01.
Definition TCP_SYN : Z := 0x02.
Definition TCP_RST : Z := 0x04.
Definition TCP_PSH : Z := 0x08.
Definition TCP_ACK : Z := 0x10.

Definition is_st (c : tcp_connection) (s : tcp_state) : bool := bool_decide (t_state c = s).
Definition conn_at (w : world) (i : Z) : tcp_connection := zget (conns w) i.
Definition set_conn (i : Z) (f : tcp_connection -> tcp_connection) (w : world) : world :=
  w <| conns ::= alter f (Z.to_nat i) |>.

Definition tcp_init (w : world) : world := w <| conns := replicate TCP_MAX_CONNS conn_zero |>.

Definition tcp_alloc_conn (w : world) : world * Z :=
  match find_index (fun c => negb (t_in_use c)) (conns w) with
  | Some i => (set_conn (Z.of_nat i) (fun _ => conn_zero <| t_in_use := true |> <| parent_idx := -1 |>) w, Z.of_nat i)
  | None => (w, -1)
  end.

Definition tcp_get_conn (idx : Z) (w : world) : option tcp_connection :=
  if (idx <? 0) || (Z.of_nat TCP_MAX_CONNS <=? idx) then None
  else if t_in_use (conn_at w idx) then Some (conn_at w idx) else None.

(** ** Segments *)

Definition tcp_pseudo (src_ip dst_ip len : Z) : list Z :=
  le_bytes 4 (htonl src_ip) ++ le_bytes 4 (htonl dst_ip) ++ [0; IP_PROTO_TCP] ++ le_bytes 2 (htons (u16 len)).

Definition tcp_checksum (data : list Z) (src_ip dst_ip : Z) : Z :=
  finish (sum_words data (sum_words (tcp_pseudo src_ip dst_ip (Z.of_nat (length data))) 0)).

(** The header up to its checksum field. *)
Definition tcp_head (c : tcp_connection) (flags : Z) : list Z :=
  le_bytes 2 (htons (t_local_port c)) ++ le_bytes 2 (htons (t_remote_port c)) ++
  le_bytes 4 (htonl (snd_nxt c)) ++ le_bytes 4 (htonl (rcv_nxt c)) ++ [0x50; flags] ++ le_bytes 2 (htons TCP_WINDOW_SIZE).

Definition tcp_packet (c : tcp_connection) (flags : Z) (data : list Z) : list Z :=
  let zeroed := tcp_head c flags ++ [0; 0] ++ [0; 0] ++ data in
  tcp_head c flags ++ le_bytes 2 (tcp_checksum zeroed (t_local_ip c) (t_remote_ip c)) ++ [0; 0] ++ data.

Definition flag (flags bit : Z) : bool := negb (Z.land flags bit =? 0).

Definition advance (flags len : Z) (c : tcp_connection) : tcp_connection :=
  c <| snd_nxt ::= fun n => u32 (n + Z.b2z (flag flags TCP_SYN) + Z.b2z (flag flags TCP_FIN) + len) |>.

Definition tcp_send_segment (idx flags : Z) (data : list Z) (w : world) : comp Z :=
  if 1500 <? 20 + Z.of_nat (length data) then Ret w (-1) else
  let c := conn_at w idx in
  let pkt := tcp_packet c flags data in
  let w := set_conn idx (advance flags (Z.of_nat (length data))) w in
  ipv4_send pkt (t_remote_ip c) IP_PROTO_TCP w.

Definition peer_of (src_ip src_port dst_port : Z) (c : tcp_connection) : bool :=
  t_in_use c && (t_remote_ip c =? src_ip) && (t_remote_port c =? src_port) && (t_local_port c =? dst_port).
Definition listens_on (dst_port : Z) (c : tcp_connection) : bool := t_in_use c && is_st c TCP_LISTEN && (t_local_port c =? dst_port).

Definition find_connection (src_ip src_port dst_port : Z) (l : list tcp_connection) : Z :=
  match find_index (peer_of src_ip src_port dst_port) l with
  | Some i => Z.of_nat i
  | None => match find_index (listens_on dst_port) l with Some i => Z.of_nat i | None => -1 end
  end.

(** [wake_process(&c->field)]. *)
Definition wake_reader (idx : Z) (w : world) : world :=
  set_conn idx (fun c => c <| t_blocked_reader := None |>) (wake_opt (t_blocked_reader (conn_at w idx)) w).
Definition wake_writer (idx : Z) (w : world) : world :=
  set_conn idx (fun c => c <| t_blocked_writer := None |>) (wake_opt (t_blocked_writer (conn_at w idx)) w).
Definition wake_accepter (idx : Z) (w : world) : world :=
  set_conn idx (fun c => c <| t_blocked_accepter := None |>) (wake_opt (t_blocked_accepter (conn_at w idx)) w).

(** ** Receiving *)

(** A received segment.  [sg_len] is the [uint32_t] the code computes for the
    length of the data and [sg_data] what lies in the buffer from the data on. *)
Record segment := mk_seg {
  sg_src_ip : Z; sg_src_port : Z; sg_dst_port : Z; sg_seq : Z; sg_ack : Z; sg_flags : Z; sg_len : Z; sg_data : list Z
}.

Definition parse_segment (src_ip : Z) (n : netbuf) : segment :=
  let d := payload n in
  let data_off := u8 (Z.shiftr (zget d 12) 4 * 4) in
  mk_seg src_ip (ntohs (rd16 d 0)) (ntohs (rd16 d 2)) (ntohl (rd32 d 4)) (ntohl (rd32 d 8)) (zget d 13)
    (u32 (remaining n - data_off)) (drop (Z.to_nat data_off) d).

Definition rcv_listen (idx : Z) (s : segment) (w : world) : comp unit :=
  if flag (sg_flags s) TCP_SYN then
    let c := conn_at w idx in
    let '(w, nidx) := tcp_alloc_conn w in
    if nidx <? 0 then Ret w tt else
    let isn := u32 (u64 (ticks w * 12345 + 1)) in
    let w := set_conn nidx (fun nc => nc <| t_local_ip := NET_IP |> <| t_local_port := t_local_port c |>
               <| t_remote_ip := sg_src_ip s |> <| t_remote_port := sg_src_port s |> <| rcv_nxt := u32 (sg_seq s + 1) |>
               <| snd_nxt := isn |> <| snd_una := isn |> <| t_state := TCP_SYN_RECEIVED |> <| parent_idx := idx |>) w in
    let! w, _ := tcp_send_segment nidx (Z.lor TCP_SYN TCP_ACK) [] w in Ret w tt
  else Ret w tt.

(** Queue the connection [idx] at its listening parent [par]. *)
Definition push_accept (par idx : Z) (w : world) : world :=
  let p := conn_at w par in
  if accept_count p <? TCP_ACCEPT_QUEUE then
    wake_accepter par (set_conn par (fun p => p <| accept_queue := zset (accept_queue p) (accept_tail p) idx |>
      <| accept_tail := (accept_tail p + 1) mod TCP_ACCEPT_QUEUE |> <| accept_count := accept_count p + 1 |>) w)
  else w.

Definition rcv_syn_received (idx : Z) (s : segment) (w : world) : world :=
  if flag (sg_flags s) TCP_ACK then
    let w := set_conn idx (fun c => c <| snd_una := sg_ack s |> <| t_state := TCP_ESTABLISHED |>) w in
    let par := parent_idx (conn_at w idx) in
    if 0 <=? par then push_accept par idx w else w
  else w.

Definition rcv_syn_sent (idx : Z) (s : segment) (w : world) : comp unit :=
  if Z.land (sg_flags s) (Z.lor TCP_SYN TCP_ACK) =? Z.lor TCP_SYN TCP_ACK then
    let w := set_conn idx (fun c => c <| rcv_nxt := u32 (sg_seq s + 1) |> <| snd_una := sg_ack s |>
               <| t_state := TCP_ESTABLISHED |>) w in
    let! w, _ := tcp_send_segment idx TCP_ACK [] w in Ret (wake_writer idx w) tt
  else Ret w tt.

(** The copy loop into the receive ring. *)
Definition rx_push (d : list Z) (c : tcp_connection) : tcp_connection :=
  let '(b, wp) := ring_put TCP_RX_BUF_SIZE d (rx_buf c) (rx_write_pos c) in
  c <| rx_buf := b |> <| rx_write_pos := wp |> <| rx_count ::= fun n => u32 (n + Z.of_nat (length d)) |>.

Definition rcv_data (idx : Z) (s : segment) (w : world) : comp unit :=
  let c := conn_at w idx in
  if (0 <? sg_len s) && (sg_seq s =? rcv_nxt c) then
    let space := u32 (TCP_RX_BUF_SIZE - rx_count c) in
    let copy := if sg_len s <? space then sg_len s else space in
    let w := set_conn idx (fun c => (rx_push (take (Z.to_nat copy) (sg_data s)) c)
                                      <| rcv_nxt ::= fun n => u32 (n + copy) |>) w in
    let! w, _ := tcp_send_segment idx TCP_ACK [] w in Ret (wake_reader idx w) tt
  else Ret w tt.

Definition rcv_fin (idx : Z) (s : segment) (w : world) : comp unit :=
  if flag (sg_flags s) TCP_FIN then
    let w := set_conn idx (fun c => c <| rcv_nxt := u32 (sg_seq s + sg_len s + 1) |> <| t_state := TCP_CLOSE_WAIT |>
               <| eof := true |>) w in
    let! w, _ := tcp_send_segment idx TCP_ACK [] w in Ret (wake_reader idx w) tt
  else Ret w tt.

Definition rcv_rst (idx : Z) (s : segment) (w : world) : world :=
  if flag (sg_flags s) TCP_RST
  then wake_writer idx (wake_reader idx (set_conn idx (fun c => c <| t_state := TCP_CLOSED |> <| eof := true |>) w))
  else w.

Definition rcv_established (idx : Z) (s : segment) (w : world) : comp unit :=
  let w := if flag (sg_flags s) TCP_ACK then set_conn idx (fun c => c <| snd_una := sg_ack s |>) w else w in
  let! w, _ := rcv_data idx s w in
  let! w, _ := rcv_fin idx s w in
  Ret (rcv_rst idx s w) tt.

(** A FIN in FIN_WAIT_1 or FIN_WAIT_2. *)
Definition rcv_last_fin (idx : Z) (s : segment) (w : world) : comp unit :=
  if flag (sg_flags s) TCP_FIN then
    let w := set_conn idx (fun c => c <| rcv_nxt := u32 (sg_seq s + 1) |> <| t_state := TCP_TIME_WAIT |>) w in
    let! w, _ := tcp_send_segment idx TCP_ACK [] w in Ret w tt
  else Ret w tt.

Definition rcv_fin_wait_1 (idx : Z) (s : segment) (w : world) : comp unit :=
  let w := if flag (sg_flags s) TCP_ACK
           then set_conn idx (fun c => c <| snd_una := sg_ack s |> <| t_state := TCP_FIN_WAIT_2 |>) w else w in
  rcv_last_fin idx s w.

Definition rcv_last_ack (idx : Z) (s : segment) (w : world) : world :=
  if flag (sg_flags s) TCP_ACK
  then set_conn idx (fun c => c <| t_state := TCP_CLOSED |> <| t_in_use := false |>) w else w.

Definition rcv_segment (idx : Z) (s : segment) (w : world) : comp unit :=
  match t_state (conn_at w idx) with
  | TCP_LISTEN => rcv_listen idx s w
  | TCP_SYN_RECEIVED => Ret (rcv_syn_received idx s w) tt
  | TCP_SYN_SENT => rcv_syn_sent idx s w
  | TCP_ESTABLISHED => rcv_established idx s w
  | TCP_FIN_WAIT_1 => rcv_fin_wait_1 idx s w
  | TCP_FIN_WAIT_2 => rcv_last_fin idx s w
  | TCP_LAST_ACK => Ret (rcv_last_ack idx s w) tt
  | TCP_CLOSED | TCP_CLOSE_WAIT | TCP_TIME_WAIT => Ret w tt
  end.

(** A segment goes to its connection; without one it is dropped. *)
Definition deliver (s : segment) (w : world) : comp unit :=
  let idx := find_connection (sg_src_ip s) (sg_src_port s) (sg_dst_port s) (conns w) in
  if idx <? 0 then Ret w tt else rcv_segment idx s w.

Definition tcp_receive (p : bufptr) (src_ip : Z) (w : world) : comp unit :=
  let n := buf_at p (pools w) in
  if remaining n <? 20 then Ret (free_buf p w) tt else
  let! w, _ := deliver (parse_segment src_ip n) w in Ret (free_buf p w) tt.

(** ** The timer *)

Definition tick_retransmit (i : Z) (w : world) : comp unit :=
  let c := conn_at w i in
  if (0 <? retransmit_len c) && (0 <? retransmit_timer c) then
    let w := set_conn i (fun c => c <| retransmit_timer ::= fun t => t - 1 |>) w in
    if retransmit_timer (conn_at w i) =? 0 then
      if retransmit_count c <? 3 then
        let w := set_conn i (fun c => c <| snd_nxt := retransmit_seq c |>) w in
        let! w, _ := tcp_send_segment i (Z.lor TCP_ACK TCP_PSH)
                       (take (Z.to_nat (retransmit_len (conn_at w i))) (retransmit_data (conn_at w i))) w in
        Ret (set_conn i (fun d => d <| snd_nxt := snd_nxt c |> <| retransmit_timer := 50 |>
                                    <| retransmit_count ::= fun n => u32 (n + 1) |>) w) tt
      else
        let w := set_conn i (fun c => c <| retransmit_len := 0 |>) w in
        let! w, _ := tcp_send_segment i TCP_RST [] w in
        Ret (wake_writer i (wake_reader i (set_conn i (fun c => c <| t_state := TCP_CLOSED |>) w))) tt
    else Ret w tt
  else Ret w tt.

Definition tick_time_wait (i : Z) (w : world) : world :=
  if is_st (conn_at w i) TCP_TIME_WAIT then
    let w := set_conn i (fun c => c <| retransmit_timer := (if retransmit_timer c =? 0 then 200 else retransmit_timer c) - 1 |>) w in
    if retransmit_timer (conn_at w i) =? 0
    then set_conn i (fun c => c <| t_state := TCP_CLOSED |> <| t_in_use := false |>) w else w
  else w.

Definition tick_conn (i : Z) (w : world) : comp unit :=
  if t_in_use (conn_at w i) then let! w, _ := tick_retransmit i w in Ret (tick_time_wait i w) tt else Ret w tt.

Fixpoint tick_from (n : nat) (i : Z) (w : world) : comp unit :=
  match n with
  | O => Ret w tt
  | S n' => let! w, _ := tick_conn i w in tick_from n' (i + 1) w
  end.

Definition tcp_tick (w : world) : comp unit := tick_from TCP_MAX_CONNS 0 w.

(** ** Calls of the socket layer *)

(** [tcp_connect] up to going to sleep, and its result once resumed. *)
Definition tcp_connect (idx dst_ip dst_port src_port : Z) (w : world) : comp Z :=
  let isn := u32 (u64 (ticks w * 54321 + 1)) in
  let w := set_conn idx (fun c => c <| t_local_ip := NET_IP |> <| t_local_port := src_port |> <| t_remote_ip := dst_ip |>
             <| t_remote_port := dst_port |> <| snd_nxt := isn |> <| snd_una := isn |> <| t_state := TCP_SYN_SENT |>) w in
  let! w, _ := tcp_send_segment idx TCP_SYN [] w in
  let w := set_conn idx (fun c => c <| t_blocked_writer := current_process (ns w) |>) w in
  Wait (sleep w) (fun w => Ret w (if is_st (conn_at w idx) TCP_ESTABLISHED then 0 else -1)).

Definition tcp_listen (idx port : Z) (w : world) : world :=
  set_conn idx (fun c => c <| t_local_ip := NET_IP |> <| t_local_port := port |> <| t_state := TCP_LISTEN |>
    <| accept_head := 0 |> <| accept_tail := 0 |> <| accept_count := 0 |>) w.

(** The process runs again with a fatal signal pending. *)
Definition fatal (w : world) : bool :=
  match current_process (ns w) with Some c => Signal.signal_has_fatal (proc_at (ns w) c) | None => false end.

(** The loop of [tcp_accept]: [None] when the process went to sleep in it, to
    come back to the loop. *)
Definition accept_loop (idx : Z) (w : world) : world * option Z :=
  let c := conn_at w idx in
  if accept_count c =? 0 then
    if fatal w then (w, Some (-1))
    else (sleep (set_conn idx (fun c => c <| t_blocked_accepter := current_process (ns w) |>) w), None)
  else
    (set_conn idx (fun c => c <| accept_head ::= fun h => (h + 1) mod TCP_ACCEPT_QUEUE |>
       <| accept_count ::= fun n => n - 1 |>) w, Some (zget (accept_queue c) (accept_head c))).

Definition tcp_accept (idx : Z) (w : world) : world * option Z :=
  if is_st (conn_at w idx) TCP_LISTEN then accept_loop idx w else (w, Some (-1)).

(** One chunk of [tcp_send]. *)
Definition send_chunk (idx : Z) (chunk : list Z) (w : world) : comp unit :=
  let w := set_conn idx (fun c => c <| retransmit_seq := snd_nxt c |> <| retransmit_data ::= fun b => blit b 0 chunk |>
             <| retransmit_len := Z.of_nat (length chunk) |> <| retransmit_timer := 50 |> <| retransmit_count := 0 |>) w in
  let! w, _ := tcp_send_segment idx (Z.lor TCP_ACK TCP_PSH) chunk w in Ret w tt.

Fixpoint send_chunks (fuel : nat) (idx : Z) (data : list Z) (w : world) : comp unit :=
  match fuel, data with
  | S fuel', _ :: _ => let! w, _ := send_chunk idx (take 1460 data) w in send_chunks fuel' idx (drop 1460 data) w
  | _, _ => Ret w tt
  end.

Definition tcp_send (idx : Z) (data : list Z) (w : world) : comp Z :=
  let c := conn_at w idx in
  if negb (is_st c TCP_ESTABLISHED) && negb (is_st c TCP_CLOSE_WAIT) then Ret w (-1) else
  let! w, _ := send_chunks (length data) idx data w in Ret w (Z.of_nat (length data)).

Definition rx_pop (n : nat) (c : tcp_connection) : list Z * tcp_connection :=
  let '(d, rp) := ring_get TCP_RX_BUF_SIZE n (rx_buf c) (rx_read_pos c) in
  (d, c <| rx_read_pos := rp |> <| rx_count ::= fun m => u32 (m - Z.of_nat n) |>).

(** One turn of [tcp_recv]: [None] when the process went to sleep in its loop. *)
Definition tcp_recv (idx len : Z) (w : world) : world * option (Z * list Z) :=
  let c := conn_at w idx in
  if (rx_count c =? 0) && negb (eof c) && negb (is_st c TCP_CLOSED) && negb (is_st c TCP_CLOSE_WAIT) then
    if fatal w then (w, Some (-1, []))
    else (sleep (set_conn idx (fun c => c <| t_blocked_reader := current_process (ns w) |>) w), None)
  else if rx_count c =? 0 then (w, Some (0, []))
  else
    let copy := if len <? rx_count c then len else rx_count c in
    (set_conn idx (fun c => (rx_pop (Z.to_nat copy) c).2) w, Some (copy, (rx_pop (Z.to_nat copy) c).1)).

Definition tcp_close (idx : Z) (w : world) : comp unit :=
  let c := conn_at w idx in
  if is_st c TCP_ESTABLISHED then
    let w := set_conn idx (fun c => c <| t_state := TCP_FIN_WAIT_1 |>) w in
    let! w, _ := tcp_send_segment idx (Z.lor TCP_FIN TCP_ACK) [] w in Ret w tt
  else if is_st c TCP_CLOSE_WAIT then
    let w := set_conn idx (fun c => c <| t_state := TCP_LAST_ACK |>) w in
    let! w, _ := tcp_send_segment idx (Z.lor TCP_FIN TCP_ACK) [] w in Ret w tt
  else if is_st c TCP_LISTEN || is_st c TCP_SYN_SENT
  then Ret (set_conn idx (fun c => c <| t_state := TCP_CLOSED |> <| t_in_use := false |>) w) tt
  else Ret w tt.

Definition tcp_conn_readable (idx : Z) (w : world) : bool :=
  match tcp_get_conn idx w with
  | Some c => (0 <? rx_count c) || eof c || is_st c TCP_CLOSED
  | None => false
  end.

Definition tcp_conn_writable (idx : Z) (w : world) : bool :=
  match tcp_get_conn idx w with Some c => is_st c TCP_ESTABLISHED | None => false end.

Definition tcp_conn_acceptable (idx : Z) (w : world) : bool :=
  match tcp_get_conn idx w with Some c => is_st c TCP_LISTEN && (0 <? accept_count c) | None => false end.

(** ** The receive ring *)

Definition rx_wf (c : tcp_connection) : Prop := ring_wf TCP_RX_BUF_SIZE (rx_buf c) (rx_read_pos c) (rx_write_pos c) (rx_count c).
Definition rx_contents (c : tcp_connection) : list Z := contents TCP_RX_BUF_SIZE (rx_buf c) (rx_read_pos c) (Z.to_nat (rx_count c)).

(** ** Sends that return *)

(** What a send changes besides its connection: the card and the packet buffer. *)
Definition quiet (w w' : world) : Prop :=
  w' = w <| ip_id_counter := ip_id_counter w' |> <| ip_packet := ip_packet w' |> <| nic := nic w' |>.

(** The address of the neighbour towards [ip] is known. *)
Definition known (ip : Z) (w : world) : Prop := is_Some (arp_lookup (next_hop ip) (arp_table w)).

#[export] Instance quiet_preorder : PreOrder quiet.
Proof. split; [intros w; by destruct w|]. intros w1 w2 w3 E2 E3. unfold quiet in *. rewrite E3, E2. by destruct w1. Qed.

Lemma ethernet_quiet d m et w : quiet w (ethernet_send d m et w).1.
Proof. unfold ethernet_send. case_match; [reflexivity|]. destruct (e1000_send_packet _ _). cbn. unfold quiet. by destruct w. Qed.

Lemma ipv4_send_quiet data dst_ip protocol w : known dst_ip w -> exists w' r, ipv4_send data dst_ip protocol w = Ret w' r /\ quiet w w'.
Proof.
  intros [e He]. unfold ipv4_send. case_match; [by exists w, (-1)|]. set (w0 := w <| ip_id_counter ::= _ |> <| ip_packet ::= _ |>).
  unfold arp_resolve. change (arp_table w0) with (arp_table w). rewrite He. cbn [bind fst snd]. change (0 <? 0) with false. cbv iota.
  pose proof (ethernet_quiet (slice (ip_packet w0) 0 (20 + Z.of_nat (length data))) (a_mac e) ETHERTYPE_IPV4 w0) as Hq.
  destruct (ethernet_send _ _ _ w0) as [w' r]. exists w', r. split; [done|]. etrans; [|exact Hq]. unfold quiet. by destruct w.
Qed.

Lemma tcp_send_quiet idx flags data w : known (t_remote_ip (conn_at w idx)) w -> (length data <= 1480)%nat ->
  exists w' r, tcp_send_segment idx flags data w = Ret w' r /\ quiet (set_conn idx (advance flags (Z.of_nat (length data))) w) w'.
Proof.
  intros Hk Hl. unfold tcp_send_segment. rewrite (proj2 (Z.ltb_ge _ _)) by lia. by apply ipv4_send_quiet.
Qed.

(** A send that returns did not sleep. *)
Lemma ipv4_send_ret data dst_ip protocol w w' r : ipv4_send data dst_ip protocol w = Ret w' r -> quiet w w'.
Proof.
  intros E. destruct (arp_lookup (next_hop dst_ip) (arp_table w)) as [e|] eqn:He.
  - destruct (ipv4_send_quiet data dst_ip protocol w) as (w2 & r2 & E2 & Hq); [by exists e|]. rewrite E in E2. by injection E2 as -> _.
  - revert E. unfold ipv4_send. case_match; [intros [= <- <-]; reflexivity|]. unfold arp_resolve.
    change (arp_table (w <| ip_id_counter ::= _ |> <| ip_packet ::= _ |>)) with (arp_table w). rewrite He. done.
Qed.

Lemma tcp_send_ret idx flags data w w' r : (length data <= 1480)%nat -> tcp_send_segment idx flags data w = Ret w' r ->
  quiet (set_conn idx (advance flags (Z.of_nat (length data))) w) w'.
Proof. intros Hl. unfold tcp_send_segment. rewrite (proj2 (Z.ltb_ge _ _)) by lia. apply ipv4_send_ret. Qed.

(** ** Connections in the table *)

Definition here (idx : Z) (w : world) : Prop := 0 <= idx < Z.of_nat (length (conns w)).

Lemma conn_set idx f w : here idx w -> conn_at (set_conn idx f w) idx = f (conn_at w idx).
Proof.
  intros Hi. unfold conn_at, set_conn, zget. cbn. rewrite !list_lookup_total_alt, list_lookup_alter_eq.
  destruct (lookup_lt_is_Some_2 (conns w) (Z.to_nat idx)) as [c ->]; [unfold here in Hi; lia|]. done.
Qed.

Lemma conn_set_ne idx f w j : here idx w -> here j w -> j <> idx -> conn_at (set_conn idx f w) j = conn_at w j.
Proof.
  unfold here. intros Hi Hj Hne. unfold conn_at, set_conn, zget. cbn. rewrite !list_lookup_total_alt, list_lookup_alter_ne by lia. done.
Qed.

Lemma here_set idx f w j : here j (set_conn idx f w) <-> here j w.
Proof. unfold here, set_conn. cbn. by rewrite length_alter. Qed.

Lemma conns_quiet w w' : quiet w w' -> conns w' = conns w.
Proof. intros ->. done. Qed.

Lemma conn_quiet w w' j : quiet w w' -> conn_at w' j = conn_at w j.
Proof. intros Hq. unfold conn_at. by rewrite (conns_quiet w w'). Qed.

Lemma conns_wake_opt p w : conns (wake_opt p w) = conns w.
Proof. by destruct p. Qed.

Lemma conn_wake_opt p w j : conn_at (wake_opt p w) j = conn_at w j.
Proof. unfold conn_at. by rewrite conns_wake_opt. Qed.

(** What the reader's side of a connection depends on. *)
Definition rx_side (c : tcp_connection) : tcp_state * Z * (list Z * Z * Z * Z) * bool :=
  (t_state c, rcv_nxt c, (rx_buf c, rx_read_pos c, rx_write_pos c, rx_count c), eof c).

Lemma rx_side_advance f n c : rx_side (advance f n c) = rx_side c.
Proof. done. Qed.

(** A bare segment leaves the reader's side alone. *)
Lemma send_rx_side idx flags w w' r : here idx w -> tcp_send_segment idx flags [] w = Ret w' r ->
  rx_side (conn_at w' idx) = rx_side (conn_at w idx) /\ here idx w'.
Proof.
  intros Hi E. apply tcp_send_ret in E; [|cbn; lia]. rewrite (conn_quiet _ _ _ E), conn_set by done. split; [done|].
  unfold here. rewrite (conns_quiet _ _ E). by apply here_set.
Qed.

Lemma wake_reader_rx_side idx w : here idx w -> rx_side (conn_at (wake_reader idx w) idx) = rx_side (conn_at w idx) /\ here idx (wake_reader idx w).
Proof.
  intros Hi. unfold wake_reader. assert (here idx (wake_opt (t_blocked_reader (conn_at w idx)) w)) as Hi' by (unfold here; by rewrite conns_wake_opt).
  rewrite conn_set, conn_wake_opt by done. split; [done|]. by apply here_set.
Qed.

Lemma length_rx_contents c : rx_wf c -> Z.of_nat (length (rx_contents c)) = rx_count c.
Proof. intros [_ _ Hn _]. unfold rx_contents. rewrite length_contents. lia. Qed.

Lemma rx_push_queue c d : rx_wf c -> (length (rx_contents c) + length d <= 4096)%nat ->
  rx_wf (rx_push d c) /\ rx_contents (rx_push d c) = rx_contents c ++ d.
Proof.
  intros Hw Hc. pose proof (length_rx_contents c Hw) as Hl. pose proof (ring_n _ _ _ _ _ Hw) as Hn.
  pose proof (ring_put_spec TCP_RX_BUF_SIZE d (rx_buf c) (rx_read_pos c) (Z.to_nat (rx_count c)) (rx_write_pos c)) as H.
  rewrite Z2Nat.id in H by lia. unfold TCP_RX_BUF_SIZE in *. specialize (H Hw ltac:(lia)).
  unfold rx_push, TCP_RX_BUF_SIZE. destruct (ring_put _ _ _ _) as [b wp]. destruct H as [H1 H2].
  unfold rx_wf, rx_contents, TCP_RX_BUF_SIZE. cbn.
  rewrite u32_small by lia. replace (Z.to_nat (rx_count c + _)) with (Z.to_nat (rx_count c) + length d)%nat by lia.
  rewrite Nat2Z.inj_add, Z2Nat.id in H1 by lia. done.
Qed.

Lemma rx_pop_queue c n : rx_wf c -> (n <= length (rx_contents c))%nat ->
  rx_wf (rx_pop n c).2 /\ (rx_pop n c).1 = take n (rx_contents c) /\ rx_contents (rx_pop n c).2 = drop n (rx_contents c).
Proof.
  intros Hw Hc. pose proof (length_rx_contents c Hw) as Hl. pose proof (ring_n _ _ _ _ _ Hw) as Hn. unfold rx_wf, rx_contents in *.
  pose proof (ring_get_spec TCP_RX_BUF_SIZE n (Z.to_nat (rx_count c) - n) (rx_buf c) (rx_read_pos c) (rx_write_pos c)) as H.
  replace (n + (Z.to_nat (rx_count c) - n))%nat with (Z.to_nat (rx_count c)) in H by lia.
  rewrite Z2Nat.id in H by lia. specialize (H Hw). unfold rx_pop. destruct (ring_get _ _ _ _) as [d rp]. destruct H as (H1 & H2 & H3). cbn.
  unfold TCP_RX_BUF_SIZE in *. rewrite u32_small by lia. replace (Z.to_nat (rx_count c - Z.of_nat n)) with (Z.to_nat (rx_count c) - n)%nat by lia.
  replace (Z.of_nat (Z.to_nat (rx_count c) - n)) with (rx_count c - Z.of_nat n) in H1 by lia. done.
Qed.

(** The receive ring is a byte queue. *)
#[export] Instance rx_queue_laws : ByteQueue tcp_connection := {
  bq_inv := rx_wf;
  bq_contents := rx_contents;
  bq_cap := 4096;
  bq_push := rx_push;
  bq_pop := rx_pop;
  bq_push_law := fun c d => rx_push_queue c d;
  bq_pop_law := fun c n => rx_pop_queue c n
}.

(** ** The stream a connection delivers *)

(** [s] carries bytes of [stream], whose first byte has sequence number [seq0]. *)
Definition genuine (seq0 : Z) (stream : list Z) (s : segment) : Prop :=
  exists off, (off + Z.to_nat (sg_len s) <= length stream)%nat /\
    sg_seq s = u32 (seq0 + Z.of_nat off) /\ 0 <= sg_len s <= Z.of_nat (length (sg_data s)) /\
    take (Z.to_nat (sg_len s)) (sg_data s) = take (Z.to_nat (sg_len s)) (drop off stream).

(** A segment that does not end the connection. *)
Definition plain (s : segment) : Prop := flag (sg_flags s) TCP_FIN = false /\ flag (sg_flags s) TCP_RST = false.

(** Everything that can happen to the connection [idx] and the bytes its reader
    has got: segments of the peer, in any order and any number of times, reads,
    and whatever else the system does that leaves the reader's side alone. *)
Inductive rx_run (idx seq0 : Z) (stream : list Z) (w0 : world) : world -> list Z -> Prop :=
| rx_start : rx_run idx seq0 stream w0 w0 []
| rx_segment s w w' out : rx_run idx seq0 stream w0 w out -> genuine seq0 stream s -> plain s ->
    rcv_segment idx s w = Ret w' tt -> rx_run idx seq0 stream w0 w' out
| rx_read len w w' n d out : rx_run idx seq0 stream w0 w out -> 0 <= len ->
    tcp_recv idx len w = (w', Some (n, d)) -> rx_run idx seq0 stream w0 w' (out ++ d)
| rx_other w w' out : rx_run idx seq0 stream w0 w out -> rx_side (conn_at w' idx) = rx_side (conn_at w idx) -> here idx w' ->
    rx_run idx seq0 stream w0 w' out.

(** The connection has received [k] bytes of the stream, of which the reader
    has got [out]. *)
Definition rx_at (idx seq0 : Z) (stream : list Z) (w : world) (out : list Z) : Prop :=
  let c := conn_at w idx in
  here idx w /\ t_state c = TCP_ESTABLISHED /\ rx_wf c /\
  exists k, (k <= length stream)%nat /\ rcv_nxt c = u32 (seq0 + Z.of_nat k) /\ out ++ rx_contents c = take k stream.

Lemma rx_side_eq c c' : rx_side c' = rx_side c ->
  t_state c' = t_state c /\ rcv_nxt c' = rcv_nxt c /\ (rx_wf c -> rx_wf c') /\ rx_contents c' = rx_contents c.
Proof. unfold rx_side, rx_wf, rx_contents. intros [= -> -> -> -> -> -> _]. done. Qed.

Lemma rx_at_side idx seq0 stream w w' out : rx_at idx seq0 stream w out -> rx_side (conn_at w' idx) = rx_side (conn_at w idx) -> here idx w' ->
  rx_at idx seq0 stream w' out.
Proof.
  intros (Hi & Hs & Hw & k & Hk & Hn & Hc) E Hi'. destruct (rx_side_eq _ _ E) as (E1 & E2 & E3 & E4).
  split_and!; [done|congruence|auto|]. exists k. split_and!; [done|congruence|congruence].
Qed.

Lemma same_offset seq0 a b : 0 <= a < 2 ^ 32 -> 0 <= b < 2 ^ 32 -> u32 (seq0 + a) = u32 (seq0 + b) -> a = b.
Proof.
  intros Ha Hb E. unfold u32 in E. assert ((a - b) mod 4294967296 = 0) as Hm.
  { replace (a - b) with ((seq0 + a) - (seq0 + b)) by lia. rewrite Zminus_mod, E, Z.sub_diag. done. }
  apply Z.mod_divide in Hm as [q Hq]; lia.
Qed.

(** Unfold a step that returns: the part before it returned too. *)
Lemma bind_ret {A B} (m : comp A) (f : world -> A -> comp B) w b : bind m f = Ret w b -> exists w1 a, m = Ret w1 a /\ f w1 a = Ret w b.
Proof. destruct m as [w1 a|]; [|done]. intros E. by exists w1, a. Qed.

(** A segment sent to acknowledge, and the reader woken. *)
Lemma ack_and_wake idx w w' : here idx w -> bind (tcp_send_segment idx TCP_ACK [] w) (fun w _ => Ret (wake_reader idx w) tt) = Ret w' tt ->
  rx_side (conn_at w' idx) = rx_side (conn_at w idx) /\ here idx w'.
Proof.
  intros Hi (w1 & r & E & [= <-])%bind_ret. destruct (send_rx_side _ _ _ _ _ Hi E) as [H1 H2].
  destruct (wake_reader_rx_side idx w1 H2) as [H3 H4]. split; [congruence|done].
Qed.

Lemma rcv_data_spec idx seq0 stream s w w' out : Z.of_nat (length stream) < 2 ^ 32 -> rx_at idx seq0 stream w out -> genuine seq0 stream s ->
  rcv_data idx s w = Ret w' tt -> rx_at idx seq0 stream w' out.
Proof.
  intros Hlen Hat (off & G1 & G2 & G3 & G4). unfold rcv_data. destruct ((0 <? sg_len s) && (sg_seq s =? rcv_nxt (conn_at w idx))) eqn:E; [|by intros [= <-]].
  apply andb_true_iff in E as [E1%Z.ltb_lt E2%Z.eqb_eq]. destruct Hat as (Hi & Hs & Hw & k & Hk & Hn & Hc).
  set (c := conn_at w idx) in *. pose proof (ring_n _ _ _ _ _ Hw) as Hr. unfold TCP_RX_BUF_SIZE in *. rewrite u32_small by lia.
  set (copy := if sg_len s <? 4096 - rx_count c then sg_len s else 4096 - rx_count c).
  assert (0 <= copy <= sg_len s /\ copy <= 4096 - rx_count c) as [C1 C2] by (unfold copy; destruct (Z.ltb_spec (sg_len s) (4096 - rx_count c)); lia).
  assert (off = k) as ->. { assert (Z.of_nat off = Z.of_nat k); [|lia]. apply (same_offset seq0); [lia|lia|congruence]. }
  set (d := take (Z.to_nat copy) (sg_data s)). assert (length d = Z.to_nat copy) as Hd by (unfold d; rewrite length_take; lia).
  assert (d = take (Z.to_nat copy) (drop k stream)) as Ed.
  { unfold d. apply (f_equal (take (Z.to_nat copy))) in G4. rewrite !take_take in G4. by replace (Z.to_nat copy `min` Z.to_nat (sg_len s))%nat with (Z.to_nat copy) in G4 by lia. }
  pose proof (length_rx_contents c Hw) as Hlc. destruct (rx_push_queue c d Hw) as [P1 P2]; [rewrite Hd; lia|].
  set (f := fun c => (rx_push d c) <| rcv_nxt ::= fun n => u32 (n + copy) |>). intros Ef%ack_and_wake; [|by apply here_set].
  destruct Ef as [Es Hh]. rewrite conn_set in Es by done. fold c in Es. apply (rx_at_side idx seq0 stream (set_conn idx f w)); [|by rewrite conn_set|done].
  unfold rx_at. rewrite conn_set by done. fold c. split_and!; [by apply here_set| |done|].
  - change (t_state (rx_push d c) = TCP_ESTABLISHED). unfold rx_push. by destruct (ring_put _ _ _ _).
  - exists (k + Z.to_nat copy)%nat. split_and!; [lia| |].
    + change (u32 (rcv_nxt (rx_push d c) + copy) = u32 (seq0 + Z.of_nat (k + Z.to_nat copy))).
      assert (rcv_nxt (rx_push d c) = rcv_nxt c) as -> by (unfold rx_push; by destruct (ring_put _ _ _ _)).
      rewrite Hn. unfold u32. rewrite Zplus_mod_idemp_l. f_equal. lia.
    + change (out ++ rx_contents (rx_push d c) = take (k + Z.to_nat copy) stream). rewrite P2, app_assoc, Hc, Ed. apply take_take_drop.
Qed.

Lemma rcv_plain idx seq0 stream s w w' out : Z.of_nat (length stream) < 2 ^ 32 -> rx_at idx seq0 stream w out -> genuine seq0 stream s -> plain s ->
  rcv_segment idx s w = Ret w' tt -> rx_at idx seq0 stream w' out.
Proof.
  intros Hlen Hat Hg [Hf Hr]. pose proof Hat as (Hi & Hs & _). unfold rcv_segment. rewrite Hs. unfold rcv_established, rcv_fin, rcv_rst. rewrite Hf, Hr.
  intros (w1 & [] & E & (w2 & [] & [= <-] & [= <-])%bind_ret)%bind_ret. eapply rcv_data_spec; [done| |done|exact E].
  destruct (flag (sg_flags s) TCP_ACK); [|done]. apply (rx_at_side idx seq0 stream w); [done|by rewrite conn_set|by apply here_set].
Qed.

Lemma recv_spec idx seq0 stream len w w' n d out : rx_at idx seq0 stream w out -> 0 <= len -> tcp_recv idx len w = (w', Some (n, d)) ->
  rx_at idx seq0 stream w' (out ++ d).
Proof.
  intros (Hi & Hs & Hw & k & Hk & Hn & Hc) Hl. unfold tcp_recv. set (c := conn_at w idx) in *.
  assert (rx_at idx seq0 stream w (out ++ [])) as Hsame by (rewrite app_nil_r; split_and!; [done..|]; by exists k).
  destruct (_ && _); [destruct (fatal w); [by intros [= <- <- <-]|done]|]. destruct (rx_count c =? 0) eqn:E0; [by intros [= <- <- <-]|].
  pose proof (ring_n _ _ _ _ _ Hw) as Hr. pose proof (length_rx_contents c Hw) as Hlc.
  set (copy := if len <? rx_count c then len else rx_count c).
  assert (0 <= copy <= rx_count c) as C by (unfold copy; destruct (Z.ltb_spec len (rx_count c)); lia).
  destruct (rx_pop_queue c (Z.to_nat copy) Hw) as (P1 & P2 & P3); [lia|]. intros [= <- <- <-].
  unfold rx_at. rewrite conn_set by done. fold c. split_and!; [by apply here_set| |done|].
  - unfold rx_pop. by destruct (ring_get _ _ _ _).
  - exists k. split_and!; [done|unfold rx_pop; by destruct (ring_get _ _ _ _)|]. rewrite P2, P3, <- app_assoc, take_drop. done.
Qed.

Lemma rx_run_at idx seq0 stream w0 w out : Z.of_nat (length stream) < 2 ^ 32 -> rx_run idx seq0 stream w0 w out ->
  rx_at idx seq0 stream w0 [] -> rx_at idx seq0 stream w out.
Proof.
  intros Hl Hr H0. induction Hr as [|s w w' out Hr IH Hg Hp E|len w w' n d out Hr IH Hle E|w w' out Hr IH E Hh]; [done|..].
  - by eapply rcv_plain.
  - by eapply recv_spec.
  - by eapply rx_at_side.
Qed.


(** ** The retransmit timer *)

Record timer := mk_timer { tm_state : tcp_state; tm_len : Z; tm_left : Z; tm_count : Z }.

Definition timer_of (c : tcp_connection) : timer := mk_timer (t_state c) (retransmit_len c) (retransmit_timer c) (retransmit_count c).

(** A tick, on the timer alone. *)
Definition timer_tick (t : timer) : timer :=
  if (0 <? tm_len t) && (0 <? tm_left t) then
    if tm_left t =? 1 then
      if tm_count t <? 3 then mk_timer (tm_state t) (tm_len t) 50 (u32 (tm_count t + 1)) else mk_timer TCP_CLOSED 0 0 (tm_count t)
    else mk_timer (tm_state t) (tm_len t) (tm_left t - 1) (tm_count t)
  else t.

Fixpoint tick_n (n : nat) (i : Z) (w : world) : comp unit :=
  match n with
  | O => Ret w tt
  | S n' => let! w, _ := tick_conn i w in tick_n n' i w
  end.

(** A connection with data to retransmit to a known neighbour. *)
Definition ticking (i : Z) (w : world) : Prop :=
  here i w /\ t_in_use (conn_at w i) = true /\ t_state (conn_at w i) <> TCP_TIME_WAIT /\ known (t_remote_ip (conn_at w i)) w /\
  0 <= retransmit_len (conn_at w i) <= 1460.

Lemma known_set ip i f w : known ip (set_conn i f w) <-> known ip w.
Proof. done. Qed.

Lemma known_quiet ip w w' : quiet w w' -> known ip w -> known ip w'.
Proof. intros ->. done. Qed.

Lemma known_wake_opt ip p w : known ip (wake_opt p w) <-> known ip w.
Proof. by destruct p. Qed.

(** Sending to a known neighbour: the connection afterwards. *)
Lemma send_known i flags data w : here i w -> known (t_remote_ip (conn_at w i)) w -> (length data <= 1480)%nat ->
  exists w' r, tcp_send_segment i flags data w = Ret w' r /\ conn_at w' i = advance flags (Z.of_nat (length data)) (conn_at w i) /\ here i w' /\
    forall ip, known ip w -> known ip w'.
Proof.
  intros Hi Hk Hl. destruct (tcp_send_quiet i flags data w Hk Hl) as (w' & r & E & Hq). exists w', r. split_and!; [done|by rewrite (conn_quiet _ _ _ Hq), conn_set| |].
  - unfold here. rewrite (conns_quiet _ _ Hq). by apply here_set.
  - intros ip Hip. by apply (known_quiet ip _ _ Hq).
Qed.

Lemma wake_reader_conn i w : here i w -> conn_at (wake_reader i w) i = (conn_at w i) <| t_blocked_reader := None |> /\
  here i (wake_reader i w) /\ forall ip, known ip w -> known ip (wake_reader i w).
Proof.
  intros Hi. unfold wake_reader. assert (here i (wake_opt (t_blocked_reader (conn_at w i)) w)) as Hi' by (unfold here; by rewrite conns_wake_opt).
  rewrite conn_set, conn_wake_opt by done. split_and!; [done|by apply here_set|]. intros ip Hip. by apply known_wake_opt.
Qed.

Lemma wake_writer_conn i w : here i w -> conn_at (wake_writer i w) i = (conn_at w i) <| t_blocked_writer := None |> /\
  here i (wake_writer i w) /\ forall ip, known ip w -> known ip (wake_writer i w).
Proof.
  intros Hi. unfold wake_writer. assert (here i (wake_opt (t_blocked_writer (conn_at w i)) w)) as Hi' by (unfold here; by rewrite conns_wake_opt).
  rewrite conn_set, conn_wake_opt by done. split_and!; [done|by apply here_set|]. intros ip Hip. by apply known_wake_opt.
Qed.

(** The rest of a tick, when the connection does not wait out its end. *)
Lemma tick_conn_rest i w w1 : t_in_use (conn_at w i) = true -> tick_retransmit i w = Ret w1 tt -> t_state (conn_at w1 i) <> TCP_TIME_WAIT ->
  tick_conn i w = Ret w1 tt.
Proof. intros Hu E Ht. unfold tick_conn. rewrite Hu, E. cbn [bind]. unfold tick_time_wait, is_st. by rewrite bool_decide_false. Qed.

Lemma tick_retransmit_spec i w : ticking i w ->
  exists w', tick_retransmit i w = Ret w' tt /\ ticking i w' /\ timer_of (conn_at w' i) = timer_tick (timer_of (conn_at w i)).
Proof.
  intros (Hi & Hu & Ht & Hk & Hl). unfold timer_of at 2, timer_tick. cbn [tm_state tm_len tm_left tm_count]. unfold tick_retransmit. set (c := conn_at w i) in *.
  destruct ((0 <? retransmit_len c) && (0 <? retransmit_timer c)) eqn:E; [|by exists w].
  apply andb_true_iff in E as [E1%Z.ltb_lt E2%Z.ltb_lt]. set (w1 := set_conn i (fun c => c <| retransmit_timer ::= _ |>) w).
  assert (conn_at w1 i = c <| retransmit_timer ::= fun t => t - 1 |>) as Ec1 by (unfold w1; by rewrite conn_set).
  assert (here i w1) as Hi1 by (by apply here_set). assert (known (t_remote_ip c) w1) as Hk1 by done. clearbody w1. cbv zeta.
  assert ((retransmit_timer (conn_at w1 i) =? 0) = (retransmit_timer c =? 1)) as ->
    by (rewrite Ec1; cbn; destruct (Z.eqb_spec (retransmit_timer c - 1) 0), (Z.eqb_spec (retransmit_timer c) 1); (done || lia)).
  destruct (Z.eqb_spec (retransmit_timer c) 1) as [E3|E3]; [destruct (retransmit_count c <? 3) eqn:E4|].
  - set (w2 := set_conn i (fun c => c <| snd_nxt := retransmit_seq c |>) w1).
    assert (conn_at w2 i = (conn_at w1 i) <| snd_nxt := retransmit_seq (conn_at w1 i) |>) as Ec2 by (unfold w2; by rewrite conn_set).
    assert (here i w2) as Hi2 by (by apply here_set). assert (known (t_remote_ip c) w2) as Hk2 by done. clearbody w2. rewrite Ec1 in Ec2.
    set (d := take _ _). assert (length d <= 1480)%nat as Hd by (unfold d; rewrite length_take, Ec2; cbn; lia). clearbody d.
    destruct (send_known i (Z.lor TCP_ACK TCP_PSH) d w2 Hi2) as (w3 & r & -> & E6 & E7 & E8); [by rewrite Ec2|done|].
    cbn [bind]. eexists. split; [reflexivity|]. unfold ticking. rewrite conn_set, E6, Ec2 by done. split; [|reflexivity].
    split_and!; [by apply here_set|exact Hu|exact Ht|exact (E8 _ Hk2)|apply Hl|apply Hl].
  - set (w2 := set_conn i (fun c => c <| retransmit_len := 0 |>) w1).
    assert (conn_at w2 i = (conn_at w1 i) <| retransmit_len := 0 |>) as Ec2 by (unfold w2; by rewrite conn_set).
    assert (here i w2) as Hi2 by (by apply here_set). assert (known (t_remote_ip c) w2) as Hk2 by done. clearbody w2. rewrite Ec1 in Ec2.
    destruct (send_known i TCP_RST [] w2 Hi2) as (w3 & r & -> & E6 & E7 & E8); [by rewrite Ec2|cbn; lia|].
    cbn [bind]. set (w4 := set_conn i (fun c => c <| t_state := TCP_CLOSED |>) w3).
    assert (conn_at w4 i = (conn_at w3 i) <| t_state := TCP_CLOSED |>) as Ec4 by (unfold w4; by rewrite conn_set).
    assert (here i w4) as Hi4 by (by apply here_set). assert (known (t_remote_ip c) w4) as Hk4 by exact (E8 _ Hk2). clearbody w4.
    destruct (wake_reader_conn i w4 Hi4) as (E9 & Hi5 & E10). destruct (wake_writer_conn i (wake_reader i w4) Hi5) as (E11 & Hi6 & E12).
    rewrite E9, Ec4, E6, Ec2 in E11. eexists. split; [reflexivity|]. unfold ticking. rewrite E11.
    split; [|unfold timer_of; cbn; f_equal; lia]. split_and!; [done|exact Hu|done|exact (E12 _ (E10 _ Hk4))|cbn; lia|cbn; lia].
  - exists w1. unfold ticking. rewrite Ec1. done.
Qed.

Lemma tick_conn_spec i w : ticking i w -> exists w', tick_conn i w = Ret w' tt /\ ticking i w' /\ timer_of (conn_at w' i) = timer_tick (timer_of (conn_at w i)).
Proof.
  intros H. destruct (tick_retransmit_spec i w H) as (w' & E & H' & E'). exists w'. split; [|done].
  apply (tick_conn_rest i w); [apply H|done|apply H'].
Qed.

Lemma tick_n_spec n i w : ticking i w ->
  exists w', tick_n n i w = Ret w' tt /\ ticking i w' /\ timer_of (conn_at w' i) = Nat.iter n timer_tick (timer_of (conn_at w i)).
Proof.
  revert w. induction n as [|n IH]; intros w H; [by exists w|]. destruct (tick_conn_spec i w H) as (w1 & E1 & H1 & T1).
  destruct (IH w1 H1) as (w' & E' & H' & T'). exists w'. cbn [tick_n]. rewrite E1. cbn [bind]. split_and!; [done..|]. by rewrite T', T1, Nat.iter_succ_r.
Qed.

(** Ticks before the timer runs out only count down. *)
Lemma timer_countdown k st len left count : 0 < len -> Z.of_nat k < left ->
  Nat.iter k timer_tick (mk_timer st len left count) = mk_timer st len (left - Z.of_nat k) count.
Proof.
  intros Hl. induction k as [|k IH]; intros Hk; [cbn; f_equal; lia|]. rewrite Nat.iter_succ, IH by lia. unfold timer_tick. cbn [tm_state tm_len tm_left tm_count].
  rewrite !(proj2 (Z.ltb_lt _ _)) by lia. cbn [andb]. rewrite (proj2 (Z.eqb_neq _ _)) by lia. f_equal. lia.
Qed.

(** One round of fifty ticks. *)
Lemma timer_round st len count : 0 < len ->
  Nat.iter 50 timer_tick (mk_timer st len 50 count) =
    if count <? 3 then mk_timer st len 50 (u32 (count + 1)) else mk_timer TCP_CLOSED 0 0 count.
Proof.
  intros Hl. rewrite (Nat.iter_succ 49), timer_countdown by lia. unfold timer_tick. cbn [tm_state tm_len tm_left tm_count].
  rewrite (proj2 (Z.ltb_lt 0 len)) by lia. done.
Qed.

(** The timer from the send of new data on: three rounds, and the end of the
    connection with the fourth. *)
Lemma timer_life st len k : 0 < len -> (k <= 200)%nat ->
  tm_state (Nat.iter k timer_tick (mk_timer st len 50 0)) = if (k <? 200)%nat then st else TCP_CLOSED.
Proof.
  intros Hl Hk. assert (forall m c, (m < 50)%nat -> tm_state (Nat.iter m timer_tick (mk_timer st len 50 c)) = st) as Hc
    by (intros m c Hm; rewrite timer_countdown by lia; done).
  assert (forall m c, c < 3 -> (50 <= m)%nat -> Nat.iter m timer_tick (mk_timer st len 50 c) = Nat.iter (m - 50) timer_tick (mk_timer st len 50 (u32 (c + 1)))) as Hr.
  { intros m c Hc3 Hm. pose proof (Nat.iter_add (m - 50) 50 _ timer_tick (mk_timer st len 50 c)) as E. rewrite Nat.sub_add, timer_round in E by done.
    by rewrite (proj2 (Z.ltb_lt _ _)) in E by lia. }
  destruct (Nat.ltb_spec k 50); [rewrite (proj2 (Nat.ltb_lt _ _)) by lia; by apply Hc|]. rewrite Hr by lia. change (u32 (0 + 1)) with 1.
  destruct (Nat.ltb_spec k 100); [rewrite (proj2 (Nat.ltb_lt _ _)) by lia; apply Hc; lia|]. rewrite Hr by lia. change (u32 (1 + 1)) with 2.
  destruct (Nat.ltb_spec k 150); [rewrite (proj2 (Nat.ltb_lt _ _)) by lia; apply Hc; lia|]. rewrite Hr by lia. change (u32 (2 + 1)) with 3.
  destruct (Nat.ltb_spec k 200); [apply Hc; lia|]. replace (k - 50 - 50 - 50)%nat with 50%nat by lia. by rewrite timer_round by done.
Qed.

(** A send of up to one segment's worth of data. *)
Lemma tcp_send_spec i data w : ticking i w -> t_state (conn_at w i) = TCP_ESTABLISHED -> (0 < length data <= 1460)%nat ->
  exists w', tcp_send i data w = Ret w' (Z.of_nat (length data)) /\ ticking i w' /\
    timer_of (conn_at w' i) = mk_timer TCP_ESTABLISHED (Z.of_nat (length data)) 50 0 /\
    snd_nxt (conn_at w' i) = u32 (snd_nxt (conn_at w i) + Z.of_nat (length data)).
Proof.
  intros (Hi & Hu & Ht & Hk & Hl) Hs Hd. unfold tcp_send, is_st. rewrite bool_decide_true by done. cbn [negb andb].
  destruct (length data) as [|m] eqn:El; [lia|]. destruct data as [|b data']; [done|]. cbn [send_chunks]. set (data := b :: data') in *. clearbody data.
  rewrite take_ge, drop_ge by lia. unfold send_chunk. set (w1 := set_conn i _ w).
  assert (conn_at w1 i = (conn_at w i) <| retransmit_seq := snd_nxt (conn_at w i) |> <| retransmit_data ::= fun b => blit b 0 data |>
    <| retransmit_len := Z.of_nat (length data) |> <| retransmit_timer := 50 |> <| retransmit_count := 0 |>) as Ec by (unfold w1; by rewrite conn_set).
  assert (here i w1) as Hi1 by (by apply here_set). assert (known (t_remote_ip (conn_at w i)) w1) as Hk1 by done. clearbody w1.
  destruct (send_known i (Z.lor TCP_ACK TCP_PSH) data w1 Hi1) as (w2 & r & -> & E2 & Hi2 & E4); [by rewrite Ec|lia|]. rewrite Ec in E2.
  cbn [bind]. assert (forall f v, bind (send_chunks f i [] v) (fun w _ => Ret w (Z.of_nat (S m))) = Ret v (Z.of_nat (S m))) as -> by (by intros []).
  exists w2. unfold ticking. rewrite E2. split_and!; [done|done|exact Hu|exact Ht|exact (E4 _ Hk1)| | | |]; cbn; try lia.
  - unfold timer_of. cbn. by rewrite El, Hs.
  - rewrite El, !Z.add_0_r. done.
Qed.

(** An acknowledgement without data. *)
Lemma rcv_ack i s w : here i w -> t_state (conn_at w i) = TCP_ESTABLISHED -> sg_flags s = TCP_ACK -> sg_len s = 0 ->
  rcv_segment i s w = Ret (set_conn i (fun c => c <| snd_una := sg_ack s |>) w) tt.
Proof. intros Hi Hs Hf Hl. unfold rcv_segment. rewrite Hs. unfold rcv_established, rcv_data, rcv_fin, rcv_rst. rewrite Hf, Hl. done. Qed.

(** An acknowledgement does not stop the retransmit timer: after a send that
    the peer acknowledges in full, the connection stays up for 199 ticks and is
    reset and closed by the 200th. *)
Theorem acked_data_resets i data s w : ticking i w -> t_state (conn_at w i) = TCP_ESTABLISHED -> (0 < length data <= 1460)%nat ->
  sg_flags s = TCP_ACK -> sg_len s = 0 -> sg_ack s = u32 (snd_nxt (conn_at w i) + Z.of_nat (length data)) ->
  exists w1 w2, tcp_send i data w = Ret w1 (Z.of_nat (length data)) /\ rcv_segment i s w1 = Ret w2 tt /\
    snd_una (conn_at w2 i) = snd_nxt (conn_at w2 i) /\
    forall n, (n <= 200)%nat -> exists w3, tick_n n i w2 = Ret w3 tt /\
      t_state (conn_at w3 i) = if (n <? 200)%nat then TCP_ESTABLISHED else TCP_CLOSED.
Proof.
  intros Ht Hs Hd Hf Hl Ha. destruct (tcp_send_spec i data w Ht Hs Hd) as (w1 & E1 & Ht1 & Tm & Hn).
  pose proof Ht1 as (Hi & Hu & Hnt & Hk & Hlen). assert (t_state (conn_at w1 i) = TCP_ESTABLISHED) as Hs1 by exact (f_equal tm_state Tm).
  exists w1, (set_conn i (fun c => c <| snd_una := sg_ack s |>) w1). set (w2 := set_conn i _ w1).
  assert (conn_at w2 i = (conn_at w1 i) <| snd_una := sg_ack s |>) as Ec by (unfold w2; by rewrite conn_set).
  split_and!; [done|by apply rcv_ack|rewrite Ec; cbn; congruence|]. intros n Hle.
  destruct (tick_n_spec n i w2) as (w3 & E3 & _ & T3); [unfold ticking; rewrite Ec; split_and!; [by apply here_set|exact Hu|exact Hnt|exact Hk|apply Hlen|apply Hlen]|].
  exists w3. split; [done|]. change (t_state (conn_at w3 i)) with (tm_state (timer_of (conn_at w3 i))). rewrite T3, Ec.
  change (timer_of _) with (timer_of (conn_at w1 i)). rewrite Tm. apply timer_life; lia.
Qed.

(** ** The handshake *)

(** The connection a SYN makes at the listener [l]. *)
Definition half_open (l : nat) (s : segment) (w : world) : tcp_connection :=
  let isn := u32 (u64 (ticks w * 12345 + 1)) in
  conn_zero <| t_in_use := true |> <| t_local_ip := NET_IP |> <| t_local_port := sg_dst_port s |> <| t_remote_ip := sg_src_ip s |>
    <| t_remote_port := sg_src_port s |> <| rcv_nxt := u32 (sg_seq s + 1) |> <| snd_nxt := u32 (isn + 1) |> <| snd_una := isn |>
    <| t_state := TCP_SYN_RECEIVED |> <| parent_idx := Z.of_nat l |>.

Lemma conn_at_lookup w i c : conns w !! i = Some c -> conn_at w (Z.of_nat i) = c /\ here (Z.of_nat i) w.
Proof.
  intros H. pose proof (lookup_lt_Some _ _ _ H). unfold conn_at, here, zget. rewrite Nat2Z.id. split; [by apply list_lookup_total_correct|lia].
Qed.

Lemma conns_set i f w : conns (set_conn (Z.of_nat i) f w) = alter f i (conns w).
Proof. unfold set_conn. cbn. by rewrite Nat2Z.id. Qed.

Lemma syn_opens l n s w : find_index (peer_of (sg_src_ip s) (sg_src_port s) (sg_dst_port s)) (conns w) = None ->
  find_index (listens_on (sg_dst_port s)) (conns w) = Some l -> find_index (fun c => negb (t_in_use c)) (conns w) = Some n ->
  known (sg_src_ip s) w -> flag (sg_flags s) TCP_SYN = true ->
  exists w1, deliver s w = Ret w1 tt /\ conns w1 = <[n := half_open l s w]> (conns w).
Proof.
  intros Hp Hl Hn Hk Hf. unfold deliver, find_connection. rewrite Hp, Hl. rewrite (proj2 (Z.ltb_ge _ _)) by lia.
  destruct (find_index_Some _ _ _ Hl) as (lst & Hlst & Hlp & _). unfold listens_on, is_st in Hlp.
  apply andb_true_iff in Hlp as [[_ Hst%bool_decide_eq_true]%andb_true_iff Hport%Z.eqb_eq]. destruct (conn_at_lookup w l lst Hlst) as [El Hhl].
  destruct (find_index_Some _ _ _ Hn) as (c0 & Hc0 & _). unfold rcv_segment. rewrite El, Hst. unfold rcv_listen, tcp_alloc_conn. rewrite Hf, Hn, El.
  rewrite (proj2 (Z.ltb_ge _ _)) by lia. set (w1 := set_conn _ _ (set_conn _ _ w)).
  destruct (tcp_send_quiet (Z.of_nat n) (Z.lor TCP_SYN TCP_ACK) [] w1) as (w2 & r & -> & Hq); [|cbn; lia|].
  { unfold w1. rewrite conn_set; [done|]. apply here_set. by apply (conn_at_lookup w n c0). }
  cbn [bind]. exists w2. split; [done|]. rewrite (conns_quiet _ _ Hq). unfold w1.
  rewrite !conns_set, !alter_twice, (list_alter_insert_at _ _ _ _ Hc0). f_equal. unfold half_open, advance. rewrite Hport.
  change (Z.b2z (flag (Z.lor TCP_SYN TCP_ACK) TCP_SYN)) with 1. change (Z.b2z (flag (Z.lor TCP_SYN TCP_ACK) TCP_FIN)) with 0. cbn. by rewrite !Z.add_0_r.
Qed.

(** The acknowledgement of the SYN: the connection is up and queued at its
    listener. *)
Lemma ack_opens l n s w lst nc : find_index (peer_of (sg_src_ip s) (sg_src_port s) (sg_dst_port s)) (conns w) = Some n ->
  l <> n -> conns w !! l = Some lst -> conns w !! n = Some nc -> t_state nc = TCP_SYN_RECEIVED -> parent_idx nc = Z.of_nat l ->
  accept_count lst < TCP_ACCEPT_QUEUE -> flag (sg_flags s) TCP_ACK = true ->
  exists w', deliver s w = Ret w' tt /\ here (Z.of_nat l) w' /\ here (Z.of_nat n) w' /\
    conn_at w' (Z.of_nat n) = nc <| snd_una := sg_ack s |> <| t_state := TCP_ESTABLISHED |> /\
    conn_at w' (Z.of_nat l) = lst <| accept_queue := zset (accept_queue lst) (accept_tail lst) (Z.of_nat n) |>
      <| accept_tail := (accept_tail lst + 1) mod TCP_ACCEPT_QUEUE |> <| accept_count := accept_count lst + 1 |> <| t_blocked_accepter := None |>.
Proof.
  intros Hp Hne Hl Hn Hs Hpar Hc Hf. unfold deliver, find_connection. rewrite Hp, (proj2 (Z.ltb_ge _ _)) by lia.
  destruct (conn_at_lookup w l lst Hl) as [El Hhl]. destruct (conn_at_lookup w n nc Hn) as [En Hhn]. unfold rcv_segment, rcv_syn_received. rewrite En, Hs, Hf.
  set (w1 := set_conn _ _ w). assert (conn_at w1 (Z.of_nat n) = nc <| snd_una := sg_ack s |> <| t_state := TCP_ESTABLISHED |>) as En1 by (unfold w1; by rewrite conn_set, En).
  assert (conn_at w1 (Z.of_nat l) = lst) as El1 by (unfold w1; rewrite conn_set_ne by (done || lia); done).
  assert (here (Z.of_nat l) w1 /\ here (Z.of_nat n) w1) as [Hl1 Hn1] by (unfold w1; by rewrite !here_set). clearbody w1. rewrite En1.
  change (parent_idx (nc <| snd_una := sg_ack s |> <| t_state := TCP_ESTABLISHED |>)) with (parent_idx nc). rewrite Hpar, (proj2 (Z.leb_le _ _)) by lia.
  unfold push_accept. rewrite El1, (proj2 (Z.ltb_lt _ _)) by lia. unfold wake_accepter. set (w2 := set_conn (Z.of_nat l) _ w1).
  set (w3 := wake_opt _ w2). assert (here (Z.of_nat l) w3 /\ here (Z.of_nat n) w3) as [Hl3 Hn3] by (unfold here, w3; rewrite conns_wake_opt; unfold w2; split; by apply here_set).
  eexists. split; [reflexivity|]. rewrite !here_set. split_and!; [done..| |].
  - rewrite conn_set_ne by (done || lia). unfold w3. rewrite conn_wake_opt. unfold w2. by rewrite conn_set_ne by (done || lia).
  - rewrite conn_set by done. unfold w3. rewrite conn_wake_opt. unfold w2. by rewrite conn_set, El1.
Qed.

(** A listener with a queued connection. *)
Lemma accept_next l w : t_state (conn_at w l) = TCP_LISTEN -> accept_count (conn_at w l) <> 0 ->
  tcp_accept l w = (set_conn l (fun c => c <| accept_head ::= fun h => (h + 1) mod TCP_ACCEPT_QUEUE |> <| accept_count ::= fun n => n - 1 |>) w,
                    Some (zget (accept_queue (conn_at w l)) (accept_head (conn_at w l)))).
Proof. intros Hs Hc. unfold tcp_accept, is_st, accept_loop. by rewrite bool_decide_true, (proj2 (Z.eqb_neq _ _)). Qed.

(** The passive open: a SYN to a listening port from a new peer makes a
    half-open connection, the peer's acknowledgement establishes it and queues
    it, and [tcp_accept] on the listener returns it, with the addresses of the
    peer and the sequence numbers of the handshake. *)
Theorem tcp_handshake l n lst syn ack w : let ip := sg_src_ip syn in let sp := sg_src_port syn in let dp := sg_dst_port syn in
  find_index (peer_of ip sp dp) (conns w) = None -> find_index (listens_on dp) (conns w) = Some l -> conns w !! l = Some lst ->
  find_index (fun c => negb (t_in_use c)) (conns w) = Some n -> known ip w ->
  length (accept_queue lst) = 4%nat -> accept_count lst = 0 -> accept_tail lst = accept_head lst -> 0 <= accept_head lst < TCP_ACCEPT_QUEUE ->
  flag (sg_flags syn) TCP_SYN = true -> flag (sg_flags ack) TCP_ACK = true -> sg_src_ip ack = ip -> sg_src_port ack = sp -> sg_dst_port ack = dp ->
  exists w1 w2 w3 c, deliver syn w = Ret w1 tt /\ deliver ack w1 = Ret w2 tt /\ tcp_accept (Z.of_nat l) w2 = (w3, Some (Z.of_nat n)) /\
    accept_count (conn_at w1 (Z.of_nat l)) = 0 /\
    c = conn_at w3 (Z.of_nat n) /\ t_state c = TCP_ESTABLISHED /\ t_remote_ip c = ip /\ t_remote_port c = sp /\ t_local_port c = dp /\
    rcv_nxt c = u32 (sg_seq syn + 1) /\ snd_una c = sg_ack ack /\ rx_contents c = [] /\ accept_count (conn_at w3 (Z.of_nat l)) = 0.
Proof.
  intros ip sp dp Hp Hl Hlst Hn Hk Hq Hc Htl Hh Hf1 Hf2 Ei Es Ed. destruct (syn_opens l n syn w Hp Hl Hn Hk Hf1) as (w1 & E1 & Ec1).
  destruct (find_index_Some _ _ _ Hl) as (x & Hx & Hlp & _). assert (x = lst) as -> by congruence. unfold listens_on, is_st in Hlp.
  apply andb_true_iff in Hlp as [[Hu Hst%bool_decide_eq_true]%andb_true_iff _]. destruct (find_index_Some _ _ _ Hn) as (c0 & Hc0 & Hnu & _).
  assert (l <> n) as Hne by (intros ->; rewrite Hc0 in Hlst; injection Hlst as ->; by rewrite Hu in Hnu).
  assert (conns w1 !! l = Some lst) as Hl1 by (by rewrite Ec1, list_lookup_insert_ne). pose proof (lookup_lt_Some _ _ _ Hc0) as Hlt.
  assert (conns w1 !! n = Some (half_open l syn w)) as Hn1 by (by rewrite Ec1, list_lookup_insert_eq).
  destruct (ack_opens l n ack w1 lst (half_open l syn w)) as (w2 & E2 & Hhl & Hhn & En2 & El2); [|done..|unfold TCP_ACCEPT_QUEUE; lia|done|].
  { rewrite Ei, Es, Ed. apply (find_index_unique _ _ _ (half_open l syn w)); [done| |].
    - unfold peer_of, half_open. cbn. by rewrite !Z.eqb_refl.
    - intros j x Hj Hx'. rewrite Ec1, list_lookup_insert_ne in Hx' by lia. exact (proj1 (find_index_None _ _) Hp j x Hx'). }
  pose proof (accept_next (Z.of_nat l) w2) as Ha. rewrite El2 in Ha. cbn in Ha. rewrite Hc, Htl in Ha. rewrite zget_zset_eq in Ha by (unfold TCP_ACCEPT_QUEUE in Hh; lia).
  eexists w1, w2, _, _. rewrite (proj1 (conn_at_lookup _ _ _ Hl1)).
  split_and!; [done|done|exact (Ha Hst ltac:(lia))|done|reflexivity| | | | | | | |]; rewrite ?conn_set_ne by (done || lia); rewrite ?En2; [done..|]. by rewrite conn_set, El2; cbn; [lia|].
Qed.

(** ** Segments in and out of order, and the end of a connection *)

Lemma set_snd_una_side b i a w : here i w -> let w' := if b : bool then set_conn i (fun c => c <| snd_una := a |>) w else w in
  rx_side (conn_at w' i) = rx_side (conn_at w i) /\ t_remote_ip (conn_at w' i) = t_remote_ip (conn_at w i) /\ here i w' /\ arp_table w' = arp_table w.
Proof. intros Hi. destruct b; cbn; [|done]. rewrite conn_set, here_set; done. Qed.

(** A segment in order is taken: on an established connection with room for
    it, its bytes are appended to what the reader will get, the next expected
    number moves past them, the acknowledgement is sent and the reader woken. *)
Lemma tcp_data_in_order i s w : here i w -> t_state (conn_at w i) = TCP_ESTABLISHED -> rx_wf (conn_at w i) -> known (t_remote_ip (conn_at w i)) w ->
  plain s -> sg_seq s = rcv_nxt (conn_at w i) -> 0 < sg_len s <= Z.of_nat (length (sg_data s)) -> sg_len s <= TCP_RX_BUF_SIZE - rx_count (conn_at w i) ->
  exists w', rcv_segment i s w = Ret w' tt /\ rx_contents (conn_at w' i) = rx_contents (conn_at w i) ++ take (Z.to_nat (sg_len s)) (sg_data s) /\
    rcv_nxt (conn_at w' i) = u32 (rcv_nxt (conn_at w i) + sg_len s) /\ rx_wf (conn_at w' i) /\ t_blocked_reader (conn_at w' i) = None /\
    t_state (conn_at w' i) = TCP_ESTABLISHED.
Proof.
  intros Hi Hs Hw Hk [Hf Hr] Hq Hl Hroom. unfold rcv_segment. rewrite Hs. unfold rcv_established, rcv_fin, rcv_rst. rewrite Hf, Hr.
  destruct (set_snd_una_side (flag (sg_flags s) TCP_ACK) i (sg_ack s) w Hi) as (Eside & Eip & Hi1 & Earp). set (w1 := if flag _ _ then _ else w) in *. clearbody w1.
  destruct (rx_side_eq _ _ Eside) as (Es1 & En1 & Ew1 & Ec1). specialize (Ew1 Hw). assert (rx_count (conn_at w1 i) = rx_count (conn_at w i)) as Er by (unfold rx_side in Eside; congruence).
  unfold rcv_data. rewrite (proj2 (Z.ltb_lt _ _)), (proj2 (Z.eqb_eq _ _)) by (lia || congruence). cbn [andb]. set (c := conn_at w1 i) in *.
  pose proof (ring_n _ _ _ _ _ Ew1) as Hn. pose proof (length_rx_contents c Ew1) as Hlc. unfold TCP_RX_BUF_SIZE in *. rewrite u32_small by lia.
  assert ((if sg_len s <? 4096 - rx_count c then sg_len s else 4096 - rx_count c) = sg_len s) as -> by (destruct (Z.ltb_spec (sg_len s) (4096 - rx_count c)); lia).
  set (d := take _ _). assert (length d = Z.to_nat (sg_len s)) as Hd by (unfold d; rewrite length_take; lia). clearbody d.
  destruct (rx_push_queue c d Ew1) as [P1 P2]; [lia|]. set (w2 := set_conn i _ w1). assert (conn_at w2 i = (rx_push d c) <| rcv_nxt ::= fun n => u32 (n + sg_len s) |>) as E2
    by (unfold w2; by rewrite conn_set). assert (here i w2) as Hi2 by (by apply here_set).
  assert (t_remote_ip (rx_push d c) = t_remote_ip c /\ t_state (rx_push d c) = t_state c /\ rcv_nxt (rx_push d c) = rcv_nxt c) as (F1 & F2 & F3)
    by (unfold rx_push; by destruct (ring_put _ _ _ _)).
  destruct (send_known i TCP_ACK [] w2 Hi2) as (w3 & r & -> & E3 & Hi3 & _); [|cbn; lia|].
  { rewrite E2. change (known (t_remote_ip (rx_push d c)) w2). rewrite F1, Eip. unfold known. change (arp_table w2) with (arp_table w1). by rewrite Earp. }
  cbn [bind]. destruct (wake_reader_conn i w3 Hi3) as (E4 & _). eexists. split; [reflexivity|]. rewrite E4, E3, E2.
  split_and!; [exact (eq_trans P2 (f_equal (.++ d) Ec1))|cbn; by rewrite F3, En1|exact P1|done|cbn; by rewrite F2, Es1].
Qed.

(** A FIN ends the stream wherever it lies: with bytes before it still
    missing, the reader gets end of file, and the missing segment is dropped
    when it arrives. *)
Theorem fin_skips_missing_data i s late len w : here i w -> t_state (conn_at w i) = TCP_ESTABLISHED -> known (t_remote_ip (conn_at w i)) w ->
  rx_count (conn_at w i) = 0 -> sg_flags s = Z.lor TCP_FIN TCP_ACK -> sg_len s = 0 -> sg_seq s <> rcv_nxt (conn_at w i) ->
  exists w', rcv_segment i s w = Ret w' tt /\ tcp_recv i len w' = (w', Some (0, [])) /\ rcv_segment i late w' = Ret w' tt.
Proof.
  intros Hi Hs Hk Hc Hf Hl Hq. unfold rcv_segment at 1. rewrite Hs. unfold rcv_established, rcv_data, rcv_fin, rcv_rst. rewrite Hf, Hl. cbn [Z.ltb Z.compare andb bind].
  change (flag (Z.lor TCP_FIN TCP_ACK) TCP_ACK) with true. change (flag (Z.lor TCP_FIN TCP_ACK) TCP_FIN) with true. change (flag (Z.lor TCP_FIN TCP_ACK) TCP_RST) with false.
  cbv iota. set (w1 := set_conn i _ w). set (w2 := set_conn i _ w1).
  assert (conn_at w2 i = (conn_at w i) <| snd_una := sg_ack s |> <| rcv_nxt := u32 (sg_seq s + 0 + 1) |> <| t_state := TCP_CLOSE_WAIT |> <| eof := true |>) as E2
    by (unfold w2, w1; rewrite !conn_set by (done || by apply here_set); done). assert (here i w2) as Hi2 by (by do 2 apply here_set).
  destruct (send_known i TCP_ACK [] w2 Hi2) as (w3 & r & -> & E3 & Hi3 & _); [rewrite E2; exact Hk|cbn; lia|]. cbn [bind].
  destruct (wake_reader_conn i w3 Hi3) as (E4 & _). rewrite E3, E2 in E4. eexists. split; [reflexivity|]. unfold tcp_recv, rcv_segment, is_st. rewrite E4. cbn. by rewrite Hc.
Qed.

(** A reset connection keeps its slot: after a RST, closing it, later
    segments and the timer leave it in the table, in use and CLOSED. *)
Theorem reset_leaks_slot i s w : here i w -> t_in_use (conn_at w i) = true -> t_state (conn_at w i) = TCP_ESTABLISHED -> retransmit_len (conn_at w i) = 0 ->
  sg_flags s = TCP_RST -> sg_len s = 0 ->
  exists w', rcv_segment i s w = Ret w' tt /\ t_in_use (conn_at w' i) = true /\ t_state (conn_at w' i) = TCP_CLOSED /\
    tcp_close i w' = Ret w' tt /\ (forall s', rcv_segment i s' w' = Ret w' tt) /\ forall n, tick_n n i w' = Ret w' tt.
Proof.
  intros Hi Hu Hs Hr Hf Hl. unfold rcv_segment at 1. rewrite Hs. unfold rcv_established, rcv_data, rcv_fin, rcv_rst. rewrite Hf, Hl. cbn [Z.ltb Z.compare andb bind].
  change (flag TCP_RST TCP_ACK) with false. change (flag TCP_RST TCP_FIN) with false. change (flag TCP_RST TCP_RST) with true. cbv iota. cbn [bind]. set (w1 := set_conn i _ w).
  assert (here i w1) as Hi1 by (by apply here_set). destruct (wake_reader_conn i w1 Hi1) as (E2 & Hi2 & _). destruct (wake_writer_conn i _ Hi2) as (E3 & _).
  rewrite E2 in E3. unfold w1 in E3 at 2. rewrite conn_set in E3 by done. eexists. split; [reflexivity|]. set (w' := wake_writer _ _) in *. clearbody w'.
  unfold rcv_segment, tcp_close, is_st. rewrite E3. cbn. rewrite Hu. split_and!; [done..|]. induction n as [|n IH]; [done|]. cbn [tick_n].
  rewrite (tick_conn_rest i w' w'); [exact IH|by rewrite E3| |by rewrite E3]. unfold tick_retransmit. rewrite E3. cbn. by rewrite Hr.
Qed.

(** ** Witnesses

    The small machine with a connection to 10.0.2.3, port 80, in slot 0 and a
    listener on port 7 in slot 1. *)

Definition demo_conn : tcp_connection :=
  conn_zero <| t_in_use := true |> <| t_state := TCP_ESTABLISHED |> <| t_remote_ip := 0x0A000203 |> <| t_remote_port := 80 |>
    <| t_local_port := 5000 |> <| snd_nxt := 10 |> <| rcv_nxt := 100 |>.
Definition demo_listener : tcp_connection := conn_zero <| t_in_use := true |> <| t_state := TCP_LISTEN |> <| t_local_port := 7 |>.
Definition demo_tcp : world := demo_net <| conns := [demo_conn; demo_listener; conn_zero; conn_zero] |>.
Definition demo_seg (seq ack flags : Z) (data : list Z) : segment :=
  mk_seg 0x0A000203 80 5000 seq ack flags (Z.of_nat (length data)) data.

Lemma demo_here : here 0 demo_tcp.
Proof. split; [lia|reflexivity]. Qed.

Lemma demo_known : known 0x0A000203 demo_tcp.
Proof. by eexists. Qed.

Lemma demo_tcp_ticking : ticking 0 demo_tcp.
Proof. split_and!; [apply demo_here|done|done|exact demo_known|done|done]. Qed.

Lemma demo_rx_wf : rx_wf (conn_at demo_tcp 0).
Proof. by split. Qed.


Lemma acked_data_resets_witness : exists w1 w2, tcp_send 0 [7; 8] demo_tcp = Ret w1 2 /\ rcv_segment 0 (demo_seg 100 12 TCP_ACK []) w1 = Ret w2 tt /\
  exists w3, tick_n 200 0 w2 = Ret w3 tt /\ t_state (conn_at w3 0) = TCP_CLOSED.
Proof.
  destruct (acked_data_resets 0 [7; 8] (demo_seg 100 12 TCP_ACK []) demo_tcp) as (w1 & w2 & H1 & H2 & _ & H4); [apply demo_tcp_ticking|done|cbn; lia|done|done|done|].
  exists w1, w2. split_and!; [exact H1|exact H2|exact (H4 200%nat ltac:(lia))].
Defined.

Lemma tcp_handshake_witness : exists w1 w2 w3,
  deliver (mk_seg 0x0A000203 1025 7 50 0 TCP_SYN 0 []) demo_tcp = Ret w1 tt /\ deliver (mk_seg 0x0A000203 1025 7 51 2 TCP_ACK 0 []) w1 = Ret w2 tt /\
  tcp_accept 1 w2 = (w3, Some 2).
Proof.
  destruct (tcp_handshake 1 2 demo_listener (mk_seg 0x0A000203 1025 7 50 0 TCP_SYN 0 []) (mk_seg 0x0A000203 1025 7 51 2 TCP_ACK 0 []) demo_tcp)
    as (w1 & w2 & w3 & c & H1 & H2 & H3 & _); try reflexivity; [exact demo_known|cbn; unfold TCP_ACCEPT_QUEUE; lia|]. by exists w1, w2, w3.
Defined.

Lemma fin_skips_missing_data_witness : exists w, rcv_segment 0 (demo_seg 105 0 (Z.lor TCP_FIN TCP_ACK) []) demo_tcp = Ret w tt /\
  tcp_recv 0 16 w = (w, Some (0, [])) /\ rcv_segment 0 (demo_seg 100 0 TCP_ACK [1; 2; 3; 4; 5]) w = Ret w tt.
Proof. apply (fin_skips_missing_data 0 _ _ 16 demo_tcp); [apply demo_here|done|exact demo_known|done|done|done|done]. Defined.

Lemma reset_leaks_slot_witness : exists w, rcv_segment 0 (demo_seg 100 0 TCP_RST []) demo_tcp = Ret w tt /\ t_in_use (conn_at w 0) = true /\
  tcp_close 0 w = Ret w tt.
Proof.
  destruct (reset_leaks_slot 0 (demo_seg 100 0 TCP_RST []) demo_tcp) as (w & H1 & H2 & _ & H4 & _); [apply demo_here|done..|]. by exists w.
Defined.

End Tcp.
