(* ===== verification/Socket.v ===== *)
(** * Sockets and the receive path (net/socket.c, net/udp.c, net/icmp.c,
    net/ipv4.c, net/ethernet.c, the queue and worker of net/net.c, and the
    receive side of drivers/e1000.c)

    The socket calls, and the way of an incoming frame from the card through the
    receive queue and the worker process up to a socket. *)

From stdpp Require Import prelude.
From Stdlib Require Import ZArith Lia.
From S2P Require Import Prelude Process Sched Ring Checksum Net Ip Tcp.
Import Process Sched Checksum Net Ip Tcp.
Local Open Scope Z_scope.

Module Socket.

Definition sock_at (w : world) (i : Z) : socket := zget (sockets w) i.
Definition set_sock (i : Z) (f : socket -> socket) (w : world) : world := w <| sockets ::= alter f (Z.to_nat i) |>.

(** ** Socket calls *)

Definition socket_create (type : Z) (w : world) : world * Z :=
  match find_index (fun s => negb (s_in_use s)) (sockets w) with
  | Some i => (set_sock (Z.of_nat i) (fun _ => socket_zero <| s_type := type |> <| s_in_use := true |> <| s_refcount := 1 |>
                 <| tcp_conn_idx := -1 |>) w, Z.of_nat i)
  | None => (w, -1)
  end.

Definition socket_get (i : Z) (w : world) : option socket :=
  if (i <? 0) || (Z.of_nat MAX_SOCKETS <=? i) then None
  else if s_in_use (sock_at w i) then Some (sock_at w i) else None.

Definition socket_bind (i ip port : Z) (w : world) : world * Z :=
  match socket_get i w with
  | None => (w, -1)
  | Some _ => (set_sock i (fun s => s <| s_local_ip := if ip =? 0 then NET_IP else ip |> <| s_local_port := port |>
                 <| s_bound := true |>) w, 0)
  end.

Definition socket_listen (i : Z) (w : world) : world * Z :=
  match socket_get i w with
  | None => (w, -1)
  | Some s =>
      if negb (s_type s =? SOCK_STREAM) || negb (s_bound s) then (w, -1) else
      let '(w, t) := tcp_alloc_conn w in
      if t <? 0 then (w, -1) else
      (set_sock i (fun s => s <| tcp_conn_idx := t |> <| s_listening := true |>) (tcp_listen t (s_local_port s) w), 0)
  end.

(** The new socket for an accepted connection [t]. *)
Definition accept_socket (t : Z) (w : world) : world * Z :=
  if t <? 0 then (w, -1) else
  let '(w, n) := socket_create SOCK_STREAM w in
  if n <? 0 then (w, -1) else
  let w := set_sock n (fun s => s <| tcp_conn_idx := t |> <| s_connected := true |> <| s_bound := true |>) w in
  match tcp_get_conn t w with
  | None => (w, n)
  | Some c => (set_sock n (fun s => s <| s_local_ip := t_local_ip c |> <| s_local_port := t_local_port c |>
                 <| s_remote_ip := t_remote_ip c |> <| s_remote_port := t_remote_port c |>) w, n)
  end.

Definition accept_result (r : world * option Z) : world * option Z :=
  match r with
  | (w, Some t) => let '(w, n) := accept_socket t w in (w, Some n)
  | (w, None) => (w, None)
  end.

(** [None] when the process went to sleep; [socket_accept_resumed] is the rest
    of the call when it runs again. *)
Definition socket_accept (i : Z) (w : world) : world * option Z :=
  match socket_get i w with
  | None => (w, Some (-1))
  | Some s =>
      if negb (s_listening s) then (w, Some (-1)) else
      if s_nonblocking s && negb (tcp_conn_acceptable (tcp_conn_idx s) w) then (w, Some (- EAGAIN)) else
      accept_result (tcp_accept (tcp_conn_idx s) w)
  end.

Definition socket_accept_resumed (t : Z) (w : world) : world * option Z := accept_result (accept_loop t w).

(** The local port of a connecting socket: its own, or the next free one. *)
Definition take_port (i : Z) (s : socket) (w : world) : world :=
  if s_bound s then w else
  set_sock i (fun s => s <| s_local_port := next_ephemeral_port w |> <| s_bound := true |>)
    (w <| next_ephemeral_port ::= fun p => u16 (p + 1) |>).

Definition socket_connect (i ip port : Z) (w : world) : comp Z :=
  match socket_get i w with
  | None => Ret w (-1)
  | Some s =>
      if s_type s =? SOCK_STREAM then
        let '(w, t) := tcp_alloc_conn w in
        if t <? 0 then Ret w (-1) else
        let src := if s_bound s then s_local_port s else next_ephemeral_port w in
        let w := take_port i s w in
        let w := set_sock i (fun s => s <| tcp_conn_idx := t |> <| s_remote_ip := ip |> <| s_remote_port := port |>) w in
        let! w, r := tcp_connect t ip port src w in
        if r <? 0 then Ret w (-1) else Ret (set_sock i (fun s => s <| s_connected := true |>) w) 0
      else if s_type s =? SOCK_DGRAM then
        let w := set_sock i (fun s => s <| s_remote_ip := ip |> <| s_remote_port := port |> <| s_connected := true |>) w in
        Ret (take_port i s w) 0
      else Ret w (-1)
  end.

Definition socket_send (i : Z) (data : list Z) (w : world) : comp Z :=
  match socket_get i w with
  | None => Ret w (-1)
  | Some s =>
      if s_type s =? SOCK_STREAM then
        if tcp_conn_idx s <? 0 then Ret w (-1) else
        if s_nonblocking s && negb (tcp_conn_writable (tcp_conn_idx s) w) then Ret w (- EAGAIN) else
        tcp_send (tcp_conn_idx s) data w
      else if s_type s =? SOCK_DGRAM then
        if negb (s_connected s) then Ret w (-1) else udp_send (s_remote_ip s) (s_local_port s) (s_remote_port s) data w
      else Ret w (-1)
  end.

(** One turn of the datagram part of [socket_recv]. *)
Definition udp_recv (i len : Z) (w : world) : world * option (Z * list Z) :=
  let s := sock_at w i in
  if udp_count s =? 0 then
    if fatal w then (w, Some (-1, []))
    else (sleep (set_sock i (fun s => s <| s_blocked_reader := current_process (ns w) |>) w), None)
  else
    let pkt := zget (udp_queue s) (udp_head s) in
    let copy := if len <? pkt_len pkt then len else pkt_len pkt in
    (set_sock i (fun s => s <| udp_queue ::= alter (fun p => p <| pkt_valid := false |>) (Z.to_nat (udp_head s)) |>
       <| udp_head := (udp_head s + 1) mod SOCKET_UDP_QUEUE_SIZE |> <| udp_count := udp_count s - 1 |>) w,
     Some (copy, take (Z.to_nat copy) (pkt_data pkt))).

Definition socket_recv (i len : Z) (w : world) : world * option (Z * list Z) :=
  match socket_get i w with
  | None => (w, Some (-1, []))
  | Some s =>
      if s_type s =? SOCK_STREAM then
        if tcp_conn_idx s <? 0 then (w, Some (-1, [])) else
        if s_nonblocking s && negb (tcp_conn_readable (tcp_conn_idx s) w) then (w, Some (- EAGAIN, [])) else
        tcp_recv (tcp_conn_idx s) len w
      else if s_type s =? SOCK_DGRAM then
        if s_nonblocking s && (udp_count s =? 0) then (w, Some (- EAGAIN, [])) else udp_recv i len w
      else (w, Some (-1, []))
  end.

Definition socket_close (i : Z) (w : world) : comp Z :=
  match socket_get i w with
  | None => Ret w (-1)
  | Some _ =>
      let w := set_sock i (fun s => s <| s_refcount ::= fun r => r - 1 |>) w in
      let s := sock_at w i in
      if 0 <? s_refcount s then Ret w 0 else
      let! w, _ := (if (s_type s =? SOCK_STREAM) && (0 <=? tcp_conn_idx s) then tcp_close (tcp_conn_idx s) w else Ret w tt) in
      Ret (set_sock i (fun s => s <| s_in_use := false |>) w) 0
  end.

Definition socket_inc_ref (i : Z) (w : world) : world :=
  match socket_get i w with
  | Some _ => set_sock i (fun s => s <| s_refcount ::= Z.add 1 |>) w
  | None => w
  end.

Definition socket_readable (i : Z) (w : world) : bool :=
  match socket_get i w with
  | None => false
  | Some s =>
      if s_type s =? SOCK_STREAM then
        if s_listening s then tcp_conn_acceptable (tcp_conn_idx s) w
        else (0 <=? tcp_conn_idx s) && tcp_conn_readable (tcp_conn_idx s) w
      else if s_type s =? SOCK_DGRAM then 0 <? udp_count s else false
  end.

Definition socket_writable (i : Z) (w : world) : bool :=
  match socket_get i w with
  | None => false
  | Some s =>
      if s_type s =? SOCK_STREAM then (0 <=? tcp_conn_idx s) && tcp_conn_writable (tcp_conn_idx s) w else true
  end.

(** ** Delivery *)

Definition takes_port (port : Z) (s : socket) : bool :=
  s_in_use s && (s_type s =? SOCK_DGRAM) && s_bound s && (s_local_port s =? port).

(** [data] is what follows the UDP header in the buffer, [len] the length the
    header claims. *)
Definition push_datagram (src_ip src_port : Z) (data : list Z) (len : Z) (s : socket) : socket :=
  let copy := if len <? SOCKET_UDP_PKT_SIZE then len else SOCKET_UDP_PKT_SIZE in
  let fill p := mk_pkt (blit (pkt_data p) 0 (take (Z.to_nat copy) data)) copy src_ip src_port true in
  s <| udp_queue ::= alter fill (Z.to_nat (udp_tail s)) |>
    <| udp_tail := (udp_tail s + 1) mod SOCKET_UDP_QUEUE_SIZE |> <| udp_count := udp_count s + 1 |>.

Definition socket_udp_deliver (dst_port src_ip src_port : Z) (data : list Z) (len : Z) (w : world) : world :=
  match find_index (takes_port dst_port) (sockets w) with
  | None => w
  | Some n =>
      let i := Z.of_nat n in
      if udp_count (sock_at w i) <? SOCKET_UDP_QUEUE_SIZE then
        let w := set_sock i (push_datagram src_ip src_port data len) w in
        set_sock i (fun s => s <| s_blocked_reader := None |>) (wake_opt (s_blocked_reader (sock_at w i)) w)
      else w
  end.

Definition udp_receive (p : bufptr) (src_ip : Z) (w : world) : world :=
  let n := buf_at p (pools w) in
  if remaining n <? 8 then free_buf p w else
  let d := payload n in
  let data_len := u32 (ntohs (rd16 d 4) - 8) in
  free_buf p (socket_udp_deliver (ntohs (rd16 d 2)) src_ip (ntohs (rd16 d 0)) (drop 8 d) data_len w).

Definition icmp_receive (p : bufptr) (src_ip : Z) (w : world) : comp unit :=
  let n := buf_at p (pools w) in
  if remaining n <? 8 then Ret (free_buf p w) tt else
  let d := payload n in
  if zget d 0 =? ICMP_ECHO_REQUEST then
    let m := icmp_seal (zset (take (Z.to_nat (remaining n)) d) 0 ICMP_ECHO_REPLY) in
    let w := w <| pools ::= set_buf p (fun n => n <| nb_data ::= fun b => blit b (nb_offset n) m |>) |> in
    let! w, _ := ipv4_send m src_ip IP_PROTO_ICMP w in Ret (free_buf p w) tt
  else if zget d 0 =? ICMP_ECHO_REPLY then
    let ps := ping_state w in
    if bool_decide (waiter ps <> None) && (ntohs (rd16 d 4) =? ping_id ps) && (ntohs (rd16 d 6) =? ping_seq ps) then
      let w := (wake_opt (waiter ps) w) <| ping_state := ps <| received := true |> <| recv_tick := ticks w |>
                                                            <| waiter := None |> |> in
      Ret (free_buf p w) tt
    else Ret (free_buf p w) tt
  else Ret (free_buf p w) tt.

(** The switch on the protocol. *)
Definition ip_dispatch (protocol : Z) (p : bufptr) (src_ip : Z) (w : world) : comp unit :=
  if protocol =? IP_PROTO_ICMP then icmp_receive p src_ip w
  else if protocol =? IP_PROTO_UDP then Ret (udp_receive p src_ip w) tt
  else if protocol =? IP_PROTO_TCP then tcp_receive p src_ip w
  else Ret (free_buf p w) tt.

Definition ipv4_receive (p : bufptr) (w : world) : comp unit :=
  let n := buf_at p (pools w) in
  let d := payload n in
  if remaining n <? 20 then Ret (free_buf p w) tt else
  let ihl := u8 (Z.land (zget d 0) 0x0F * 4) in
  if negb (ip_checksum (take (Z.to_nat ihl) d) =? 0) then Ret (free_buf p w) tt else
  let dst := ntohl (rd32 d 16) in
  if negb (dst =? NET_IP) && negb (dst =? 0xFFFFFFFF) then Ret (free_buf p w) tt else
  let src_ip := ntohl (rd32 d 12) in
  let protocol := zget d 9 in
  let w := w <| pools ::= set_buf p (fun n => n <| nb_offset ::= fun o => u32 (o + ihl) |>) |> in
  ip_dispatch protocol p src_ip w.

Definition ethernet_receive (p : bufptr) (w : world) : comp unit :=
  let n := buf_at p (pools w) in
  if nb_len n <? ETH_HEADER_LEN then Ret (free_buf p w) tt else
  let ethertype := ntohs (rd16 (nb_data n) 12) in
  let w := w <| pools ::= set_buf p (fun n => n <| nb_offset := ETH_HEADER_LEN |>) |> in
  if ethertype =? ETHERTYPE_ARP then Ret (arp_receive p w) tt
  else if ethertype =? ETHERTYPE_IPV4 then ipv4_receive p w
  else Ret (free_buf p w) tt.

(** ** The receive queue *)

Definition net_rx_enqueue (p : bufptr) (w : world) : world :=
  let next := (rx_tail w + 1) mod NET_RX_QUEUE_SIZE in
  if next =? rx_head w then free_buf p w else
  let w := w <| rx_queue ::= fun q => zset q (rx_tail w) (Some p) |> <| rx_tail := next |> in
  match net_worker_proc w with
  | Some i => if is_state (state (proc_at (ns w) i)) PROCESS_BLOCKED then wake_opt (Some i) w else w
  | None => w
  end.

(** A received frame, as the interrupt handler takes it off the ring. *)
Definition e1000_rx (frame : list Z) (w : world) : world :=
  let len := Z.of_nat (length frame) in
  if (0 <? len) && (len <=? NETBUF_LARGE_SIZE) then
    let '(b, r) := netbuf_alloc (pools w) in
    let w := w <| pools := b |> in
    match r with
    | Some p => net_rx_enqueue p (w <| pools ::= set_buf p (fun n => n <| nb_data ::= fun d => blit d 0 frame |>
                                         <| nb_len := len |> <| nb_offset := 0 |>) |>)
    | None => w
    end
  else w.

(** One turn of the worker: the next packet, or sleep. *)
Definition net_worker_step (w : world) : comp unit :=
  if rx_head w =? rx_tail w then
    Wait (sleep (w <| net_worker_proc := current_process (ns w) |>)) (fun w => Ret w tt)
  else
    let q := zget (rx_queue w) (rx_head w) in
    let w := w <| rx_head ::= fun h => (h + 1) mod NET_RX_QUEUE_SIZE |> in
    match q with
    | Some p => ethernet_receive p w
    | None => Ret w tt
    end.

(** ** Receive buffers *)

(** A computation that, from now on, may be resumed after each sleep in any
    world that satisfies [I], sleeps only where [I] holds, and ends where [Q]
    holds. *)
Inductive runs {A} (I Q : world -> Prop) : comp A -> Prop :=
| runs_ret w a : Q w -> runs I Q (Ret w a)
| runs_wait w r : I w -> (forall w', I w' -> runs I Q (r w')) -> runs I Q (Wait w r).

(** The receive path owns the buffer [p], or has given it back. *)
Definition held (p : bufptr) (w : world) : Prop := nb_in_use (buf_at p (pools w)) = true /\ nb_refcount (buf_at p (pools w)) = 1.
Definition released (p : bufptr) (w : world) : Prop := nb_in_use (buf_at p (pools w)) = false.

Lemma runs_bind {A B} (I Q R : world -> Prop) (m : comp A) (f : world -> A -> comp B) :
  runs I Q m -> (forall w a, Q w -> runs I R (f w a)) -> runs I R (bind m f).
Proof. intros Hm Hf. induction Hm as [w a Hq|w r Hi Hr IH]; cbn; [by apply Hf|]. apply runs_wait; [done|]. intros w' Hw'. by apply IH. Qed.

Lemma buf_set p f b : nb_in_use (buf_at p b) = true -> buf_at p (set_buf p f b) = f (buf_at p b).
Proof.
  assert (forall l : list netbuf, nb_in_use (l !!! p_index p) = true -> alter f (p_index p) l !!! p_index p = f (l !!! p_index p)) as H.
  { intros l Hu. rewrite !list_lookup_total_alt in *. rewrite list_lookup_alter_eq. by destruct (l !! p_index p). }
  unfold buf_at, set_buf. intros Hu. destruct (p_small p); cbn in *; by apply H.
Qed.

Lemma held_pools p w w' : held p w -> pools w' = pools w -> held p w'.
Proof. unfold held. by intros H ->. Qed.

Lemma held_set p f w : held p w -> (forall n, nb_in_use (f n) = nb_in_use n /\ nb_refcount (f n) = nb_refcount n) ->
  held p (w <| pools ::= set_buf p f |>).
Proof. intros [H1 H2] Hf. unfold held. cbn. rewrite buf_set by done. destruct (Hf (buf_at p (pools w))) as [-> ->]. done. Qed.

Lemma free_releases p w : held p w -> released p (free_buf p w).
Proof. intros [H1 H2]. unfold released, free_buf. cbn. unfold netbuf_free. rewrite H2. cbn. by rewrite buf_set. Qed.

Lemma pools_wake_opt q w : pools (wake_opt q w) = pools w.
Proof. by destruct q. Qed.

Lemma pools_ethernet d m et w : pools (ethernet_send d m et w).1 = pools w.
Proof. unfold ethernet_send. case_match; [done|]. by destruct (e1000_send_packet _ _). Qed.

(** Sending keeps the buffer, asleep or not. *)
Lemma arp_wait_runs p n ip w : held p w -> runs (held p) (held p) (arp_wait n ip w).
Proof.
  revert w. induction n as [|n IH]; intros w H; cbn [arp_wait]; [by apply runs_ret, (held_pools p w)|].
  apply runs_wait; [by apply (held_pools p w)|]. intros w' H'. case_match; [by apply runs_ret, (held_pools p w')|].
  apply IH, (held_pools p w'); [done|]. apply pools_ethernet.
Qed.

Lemma ipv4_send_runs p data dst proto w : held p w -> runs (held p) (held p) (ipv4_send data dst proto w).
Proof.
  intros H. unfold ipv4_send. case_match; [by apply runs_ret|]. apply (runs_bind _ (held p)).
  - unfold arp_resolve. case_match; [by apply runs_ret, (held_pools p w)|]. apply arp_wait_runs, (held_pools p w); [done|]. by etrans; [apply pools_ethernet|].
  - intros w' r H'. case_match; [by apply runs_ret|]. pose proof (pools_ethernet (slice (ip_packet w') 0 (20 + Z.of_nat (length data))) r.2 ETHERTYPE_IPV4 w') as E.
    destruct (ethernet_send _ _ _ _) as [w2 ?]. by apply runs_ret, (held_pools p w').
Qed.

Lemma tcp_send_runs p i flags data w : held p w -> runs (held p) (held p) (tcp_send_segment i flags data w).
Proof. intros H. unfold tcp_send_segment. case_match; [by apply runs_ret|]. by apply ipv4_send_runs, (held_pools p w). Qed.

(** A send followed by changes to connections and processes only. *)
Lemma send_then_runs p i flags data w w0 f : held p w0 -> pools w = pools w0 -> (forall w', pools (f w') = pools w') ->
  runs (held p) (held p) (bind (tcp_send_segment i flags data w) (fun w' _ => Ret (f w') tt)).
Proof.
  intros H E Hf. apply (runs_bind _ (held p)); [by apply tcp_send_runs, (held_pools p w0)|]. intros w' _ H'. apply runs_ret, (held_pools p w'); auto.
Qed.

Lemma pools_wake_reader i w : pools (wake_reader i w) = pools w.
Proof. unfold wake_reader. apply (pools_wake_opt _ w). Qed.
Lemma pools_wake_writer i w : pools (wake_writer i w) = pools w.
Proof. unfold wake_writer. apply (pools_wake_opt _ w). Qed.
Lemma pools_push_accept l i w : pools (push_accept l i w) = pools w.
Proof. unfold push_accept. case_match; [|done]. unfold wake_accepter. by etrans; [apply (pools_wake_opt _ (set_conn _ _ w))|]. Qed.

Lemma rcv_established_runs p i s w : held p w -> runs (held p) (held p) (rcv_established i s w).
Proof.
  intros H. unfold rcv_established. apply (runs_bind _ (held p)).
  - unfold rcv_data. case_match; [|case_match; by apply runs_ret, (held_pools p w)].
    apply (send_then_runs p _ _ _ _ w); [done|by destruct (flag _ _)|apply pools_wake_reader].
  - intros w1 _ H1. apply (runs_bind _ (held p)).
    + unfold rcv_fin. case_match; [|by apply runs_ret]. apply (send_then_runs p _ _ _ _ w1); [done|done|apply pools_wake_reader].
    + intros w2 _ H2. apply runs_ret, (held_pools p w2); [done|]. unfold rcv_rst. case_match; [|done]. by rewrite pools_wake_writer, pools_wake_reader.
Qed.

Lemma rcv_segment_runs p i s w : held p w -> runs (held p) (held p) (rcv_segment i s w).
Proof.
  intros H. assert (forall w1 f, pools w1 = pools w -> runs (held p) (held p) (bind (tcp_send_segment f TCP_ACK [] w1) (fun w _ => Ret w tt))) as Hs
    by (intros w1 f E; by apply (send_then_runs p _ _ _ _ w (fun w => w) H E)).
  unfold rcv_segment. destruct (t_state _); try by apply runs_ret.
  - unfold rcv_listen. case_match; [|by apply runs_ret]. unfold tcp_alloc_conn. destruct (find_index _ _) as [k|].
    + case_match; [by apply runs_ret, (held_pools p w)|]. by apply (send_then_runs p _ _ _ _ w (fun w => w) H).
    + by apply runs_ret.
  - unfold rcv_syn_sent. case_match; [|by apply runs_ret]. apply (send_then_runs p _ _ _ _ w); [done|done|apply pools_wake_writer].
  - apply runs_ret, (held_pools p w); [done|]. unfold rcv_syn_received. case_match; [|done]. case_match; [|done]. by etrans; [apply pools_push_accept|].
  - by apply rcv_established_runs.
  - unfold rcv_fin_wait_1, rcv_last_fin. case_match; [|apply runs_ret; by destruct (flag _ TCP_ACK)]. apply Hs. by destruct (flag _ TCP_ACK).
  - unfold rcv_last_fin. case_match; [by apply Hs|by apply runs_ret].
  - apply runs_ret. unfold rcv_last_ack. by destruct (flag _ _).
Qed.

Lemma icmp_receive_runs p src w : held p w -> runs (held p) (released p) (icmp_receive p src w).
Proof.
  intros H. unfold icmp_receive. case_match; [by apply runs_ret, free_releases|]. case_match.
  - apply (runs_bind _ (held p)); [|intros; by apply runs_ret, free_releases]. by apply ipv4_send_runs, held_set.
  - repeat case_match; apply runs_ret, free_releases; try done. apply (held_pools p w); [done|]. apply (pools_wake_opt _ w).
Qed.

Lemma tcp_receive_runs p src w : held p w -> runs (held p) (released p) (tcp_receive p src w).
Proof.
  intros H. unfold tcp_receive. case_match; [by apply runs_ret, free_releases|]. apply (runs_bind _ (held p)); [|intros; by apply runs_ret, free_releases].
  unfold deliver. case_match; [by apply runs_ret|by apply rcv_segment_runs].
Qed.

Lemma udp_receive_releases p src w : held p w -> released p (udp_receive p src w).
Proof.
  intros H. unfold udp_receive. case_match; [by apply free_releases|]. apply free_releases, (held_pools p w); [done|]. unfold socket_udp_deliver.
  repeat case_match; try done. by etrans; [apply (pools_wake_opt _ (set_sock _ _ w))|].
Qed.

Lemma arp_receive_releases p w : held p w -> released p (arp_receive p w).
Proof.
  intros H. unfold arp_receive. case_match; [by apply free_releases|]. apply free_releases. set (w1 := if _ && _ then _ else _).
  assert (held p w1) as H1 by (apply (held_pools p w); [done|]; unfold w1; case_match; [by etrans; [apply pools_ethernet|]|done]). clearbody w1.
  repeat case_match; try done; apply (held_pools p w1); done.
Qed.


(** ** The way of a packet *)

(** [p] is a buffer of the receive path whose message starts with [d], with
    [rest] after it in memory. *)
Definition carries (p : bufptr) (d rest : list Z) (w : world) : Prop :=
  held p w /\ let n := buf_at p (pools w) in
  payload n = d ++ rest /\ 0 <= nb_offset n /\ nb_offset n + Z.of_nat (length d) <= nb_len n /\ nb_len n <= NETBUF_LARGE_SIZE.

(** Only the receive buffers and the processes differ. *)
Definition same_stack (w w' : world) : Prop :=
  sockets w' = sockets w /\ conns w' = conns w /\ arp_table w' = arp_table w /\ nic w' = nic w /\ ip_packet w' = ip_packet w /\
  length (procs (ns w')) = length (procs (ns w)).

Lemma carries_skip p a d rest w n : carries p (a ++ d) rest w -> n = Z.of_nat (length a) ->
  carries p d rest (w <| pools ::= set_buf p (fun b => b <| nb_offset ::= fun o => u32 (o + n) |>) |>) /\
  remaining (buf_at p (pools (w <| pools ::= set_buf p (fun b => b <| nb_offset ::= fun o => u32 (o + n) |>) |>))) = remaining (buf_at p (pools w)) - n.
Proof.
  intros (Hh & Hp & H0 & H1 & H2) ->. rewrite length_app in H1. unfold NETBUF_LARGE_SIZE in H2.
  assert (u32 (nb_offset (buf_at p (pools w)) + Z.of_nat (length a)) = nb_offset (buf_at p (pools w)) + Z.of_nat (length a)) as E by (apply u32_small; lia).
  split; [split; [by apply held_set|]|]; cbn; rewrite buf_set by apply Hh; unfold remaining, payload, NETBUF_LARGE_SIZE in *; cbn; rewrite E.
  - split_and!; try lia. rewrite Z2Nat.inj_add, Nat2Z.id, <- drop_drop, Hp, <- app_assoc by lia. by rewrite drop_app_length.
  - rewrite !u32_small by lia. lia.
Qed.

Lemma carries_remaining p d rest w : carries p d rest w -> Z.of_nat (length d) <= remaining (buf_at p (pools w)) /\ payload (buf_at p (pools w)) = d ++ rest.
Proof. intros (_ & Hr & H0 & H1 & H2). unfold remaining, NETBUF_LARGE_SIZE in *. rewrite u32_small by lia. split; [lia|done]. Qed.

Lemma le_bytes_byte n z : Forall byte (le_bytes n z).
Proof. revert z. induction n as [|n IH]; intros z; [constructor|]. constructor; [apply u8_range|apply IH]. Qed.

Lemma ip_head_bytes total id protocol : byte protocol -> Forall byte (ip_head total id protocol).
Proof. intros Hp. unfold ip_head. rewrite !Forall_app. split_and!; try apply le_bytes_byte; repeat (apply Forall_cons; split; [done|]); done. Qed.

Lemma ip_addrs_bytes src dst : Forall byte (ip_addrs src dst).
Proof. apply Forall_app. split; apply le_bytes_byte. Qed.

(** An IPv4 packet for this machine goes to its protocol. *)
Lemma ipv4_accepts p total id protocol src d rest w : carries p (ip_header total id protocol src NET_IP ++ d) rest w -> byte protocol -> 0 <= src < 2 ^ 32 ->
  exists w', ipv4_receive p w = ip_dispatch protocol p src w' /\ carries p d rest w' /\ same_stack w w' /\
    remaining (buf_at p (pools w')) = remaining (buf_at p (pools w)) - 20.
Proof.
  intros Hc Hb Hs. destruct (carries_remaining _ _ _ _ Hc) as (Hrem & Hp). destruct (carries_skip p _ _ _ w 20 Hc eq_refl) as [Hc' Hrem'].
  eexists. split; [|split_and!; [exact Hc'|done..|exact Hrem']]. unfold ipv4_receive. rewrite Hp, <- app_assoc. rewrite length_app, length_ip_header in Hrem.
  rewrite (proj2 (Z.ltb_ge _ _)) by lia. set (rest' := d ++ rest).
  change (zget (ip_header total id protocol src NET_IP ++ rest') 0) with 0x45. change (u8 (Z.land 0x45 0x0F * 4)) with 20.
  change (take (Z.to_nat 20) (ip_header total id protocol src NET_IP ++ rest')) with (ip_header total id protocol src NET_IP).
  unfold ip_header at 1. rewrite checksum_verifies; [|by exists 5%nat|by apply ip_head_bytes|apply ip_addrs_bytes|done].
  change (rd32 (ip_header total id protocol src NET_IP ++ rest') 16) with (rd32 (le_bytes 4 (htonl NET_IP) ++ rest') 0). change (ntohl (rd32 (le_bytes 4 (htonl NET_IP) ++ rest') 0)) with NET_IP.
  change (rd32 (ip_header total id protocol src NET_IP ++ rest') 12) with (rd32 (le_bytes 4 (htonl src) ++ rest') 0).
  change (zget (ip_header total id protocol src NET_IP ++ rest') 9) with protocol. cbn [negb andb Z.eqb].
  unfold rd32. rewrite rd_le_le_bytes, Z.mod_small, htonl_invol by (done || by apply htonl_range). done.
Qed.

Lemma same_stack_trans w1 w2 w3 : same_stack w1 w2 -> same_stack w2 w3 -> same_stack w1 w3.
Proof. unfold same_stack. intros (-> & -> & -> & -> & -> & ->) (-> & -> & -> & -> & -> & ->). done. Qed.

(** [p] holds a frame, as the card delivered it, before [rest]. *)
Definition holds_frame (p : bufptr) (frame rest : list Z) (w : world) : Prop :=
  held p w /\ let n := buf_at p (pools w) in
  nb_data n = frame ++ rest /\ nb_len n = Z.of_nat (length frame) /\ (length frame <= 2048)%nat.

(** An Ethernet frame with an IPv4 packet, and whatever follows it. *)
Lemma ethernet_accepts p dst src d pad rest w : length dst = 6%nat -> length src = 6%nat ->
  holds_frame p (eth_frame dst src ETHERTYPE_IPV4 d ++ pad) rest w ->
  exists w', ethernet_receive p w = ipv4_receive p w' /\ carries p d (pad ++ rest) w' /\ same_stack w w' /\
    remaining (buf_at p (pools w')) = Z.of_nat (length d + length pad).
Proof.
  intros Hd Hs (Hh & Hr & Hl & Hle). unfold eth_frame in *. rewrite !length_app, length_le_bytes in Hl, Hle. unfold ethernet_receive, ETH_HEADER_LEN. rewrite Hl, Hr.
  rewrite (proj2 (Z.ltb_ge _ _)) by lia. unfold rd16. rewrite <- !app_assoc, (app_assoc dst), rd_le_at by (rewrite length_app; lia).
  rewrite Z.mod_small by apply htons_range. unfold ntohs. change (htons (htons ETHERTYPE_IPV4)) with ETHERTYPE_IPV4. cbn [Z.eqb]. eexists. split; [reflexivity|].
  split_and!; [|done..|]; cbn; [split|]; [by apply held_set|..]; cbn; rewrite buf_set by apply Hh; unfold payload, remaining, NETBUF_LARGE_SIZE; cbn; rewrite ?Hr, ?Hl.
  - split_and!; try lia. rewrite <- !app_assoc, (app_assoc dst), (app_assoc (dst ++ src)).
    apply drop_app_length'. rewrite !length_app, length_le_bytes. lia.
  - rewrite u32_small; lia.
Qed.

(** The receive queue is idle and a buffer of the large pool is free. *)
Definition rx_idle (k : nat) (w : world) : Prop :=
  0 <= rx_head w < NET_RX_QUEUE_SIZE /\ rx_tail w = rx_head w /\ length (rx_queue w) = 64%nat /\
  find_index (fun n => negb (nb_in_use n)) (large_pool (pools w)) = Some k /\ length (nb_data (buf_at (mk_ptr false k) (pools w))) = 2048%nat.

(** The interrupt and the worker bring a frame to [ethernet_receive]. *)
Lemma rx_delivers frame k w : rx_idle k w -> (0 < length frame <= 2048)%nat ->
  exists w', net_worker_step (e1000_rx frame w) = ethernet_receive (mk_ptr false k) w' /\
    holds_frame (mk_ptr false k) frame (drop (length frame) (nb_data (buf_at (mk_ptr false k) (pools w)))) w' /\ same_stack w w'.
Proof.
  intros (H0 & Ht & Hq & Hf & Hb) Hl. unfold NET_RX_QUEUE_SIZE in *. unfold e1000_rx. rewrite (proj2 (Z.ltb_lt _ _)), (proj2 (Z.leb_le _ _)) by (unfold NETBUF_LARGE_SIZE; lia).
  cbn [andb]. unfold netbuf_alloc, netbuf_alloc_size. change (NETBUF_LARGE_SIZE <=? NETBUF_SMALL_SIZE) with false. cbv iota. rewrite Hf.
  set (p := mk_ptr false k) in *. set (w1 := (w <| pools := _ |>) <| pools ::= _ |>).
  assert (buf_at p (pools w1) = (buf_at p (pools w)) <| nb_in_use := true |> <| nb_refcount := 1 |> <| nb_data ::= fun d => blit d 0 frame |>
    <| nb_len := Z.of_nat (length frame) |> <| nb_offset := 0 |>) as Eb.
  { destruct (find_index_Some _ _ _ Hf) as (n & Hn & _). unfold w1, buf_at, set_buf, p in *. cbn in *. rewrite alter_twice, !list_lookup_total_alt, list_lookup_alter_eq, Hn. done. }
  set (rest := drop (length frame) _). assert (holds_frame p frame rest w1) as Hh.
  { unfold holds_frame, held. rewrite Eb. cbn. split_and!; [done|done| |done|lia]. done. }
  assert (rx_head w1 = rx_head w /\ rx_tail w1 = rx_tail w /\ rx_queue w1 = rx_queue w /\ same_stack w w1) as (E1 & E2 & E3 & E4) by done. clearbody w1.
  unfold net_rx_enqueue. unfold NET_RX_QUEUE_SIZE. rewrite E1, E2, Ht.
  assert (((rx_head w + 1) mod 64 =? rx_head w) = false) as Hne.
  { apply Z.eqb_neq. destruct (decide (rx_head w = 63)) as [->|]; [done|]. rewrite Z.mod_small by lia. lia. }
  rewrite Hne. set (w2 := w1 <| rx_queue ::= _ |> <| rx_tail := _ |>). set (w3 := match net_worker_proc w2 with Some _ => _ | None => _ end).
  assert (rx_head w3 = rx_head w2 /\ rx_tail w3 = rx_tail w2 /\ rx_queue w3 = rx_queue w2 /\ same_stack w2 w3 /\ pools w3 = pools w2) as (F1 & F2 & F3 & F4 & F5)
    by (unfold w3; destruct (net_worker_proc w2) as [q|]; [case_match; unfold same_stack; split_and!; try done; exact (proj1 (sched_only_wake q (ns w2)))|done]).
  assert (same_stack w1 w2) as F6 by done. clearbody w3. unfold net_worker_step. rewrite F1, F2, F3. unfold w2. cbn. rewrite E1, Z.eqb_sym, Hne, E3.
  rewrite zget_zset_eq by lia. eexists. split; [reflexivity|]. split; [|exact (same_stack_trans _ _ _ E4 (same_stack_trans _ _ _ F6 F4))].
  unfold holds_frame, held in *. cbn. rewrite F5. done.
Qed.

(** A frame from the card to the handler of its protocol. *)
Lemma frame_accepts dmac smac total id protocol src d pad k w : length dmac = 6%nat -> length smac = 6%nat -> byte protocol -> 0 <= src < 2 ^ 32 -> rx_idle k w ->
  let frame := eth_frame dmac smac ETHERTYPE_IPV4 (ip_header total id protocol src NET_IP ++ d) in
  (length (frame ++ pad) <= 2048)%nat ->
  exists w', net_worker_step (e1000_rx (frame ++ pad) w) = ip_dispatch protocol (mk_ptr false k) src w' /\
    carries (mk_ptr false k) d (pad ++ drop (length (frame ++ pad)) (nb_data (buf_at (mk_ptr false k) (pools w)))) w' /\
    remaining (buf_at (mk_ptr false k) (pools w')) = Z.of_nat (length d + length pad) /\ same_stack w w'.
Proof.
  intros Hdm Hsm Hp Hs Hidle frame Hl. assert (0 < length frame)%nat by (unfold frame, eth_frame; rewrite !length_app; lia).
  destruct (rx_delivers (frame ++ pad) k w Hidle) as (w1 & -> & Hh & S1); [rewrite length_app in *; lia|].
  destruct (ethernet_accepts _ dmac smac _ pad _ w1 Hdm Hsm Hh) as (w2 & -> & Hc2 & S2 & R2).
  destruct (ipv4_accepts _ _ _ protocol src _ _ w2 Hc2 Hp Hs) as (w3 & -> & Hc3 & S3 & R3). exists w3.
  split_and!; [done|exact Hc3| |exact (same_stack_trans _ _ _ (same_stack_trans _ _ _ S1 S2) S3)]. rewrite R3, R2, length_app, length_ip_header. lia.
Qed.

(** ** Datagram sockets *)

Definition datagram (q : socket_udp_pkt) : Z * Z * list Z := (pkt_src_ip q, pkt_src_port q, take (Z.to_nat (pkt_len q)) (pkt_data q)).

(** The datagrams waiting at a socket, oldest first. *)
Definition inbox (s : socket) : list (Z * Z * list Z) :=
  (fun j : nat => datagram (zget (udp_queue s) ((udp_head s + Z.of_nat j) mod SOCKET_UDP_QUEUE_SIZE))) <$> seq 0 (Z.to_nat (udp_count s)).

Record inbox_wf (s : socket) : Prop := mk_inbox_wf {
  ib_len : length (udp_queue s) = 8%nat;
  ib_room : Forall (fun q => length (pkt_data q) = 1472%nat /\ 0 <= pkt_len q <= 1472) (udp_queue s);
  ib_head : 0 <= udp_head s < 8;
  ib_count : 0 <= udp_count s <= 8;
  ib_tail : udp_tail s = (udp_head s + udp_count s) mod 8
}.

Lemma zget_alter {A} `{Inhabited A} (f : A -> A) l i j : 0 <= i < Z.of_nat (length l) -> 0 <= j ->
  zget (alter f (Z.to_nat i) l) j = if decide (j = i) then f (zget l j) else zget l j.
Proof.
  intros Hi Hj. unfold zget. rewrite !list_lookup_total_alt. destruct (decide (j = i)) as [->|].
  - rewrite list_lookup_alter_eq. destruct (lookup_lt_is_Some_2 l (Z.to_nat i)) as [x ->]; [lia|done].
  - by rewrite list_lookup_alter_ne by lia.
Qed.

Lemma slots_ne N h i j : 0 <= i < j -> j < N -> (h + i) mod N <> (h + j) mod N.
Proof.
  intros Hi Hj E. assert ((j - i) mod N = 0) as Hz by (replace (j - i) with ((h + j) - (h + i)) by lia; rewrite Zminus_mod, E, Z.sub_diag; by apply Z.mod_0_l; lia).
  rewrite Z.mod_small in Hz by lia. lia.
Qed.

Lemma inbox_push ip port data rest s : inbox_wf s -> udp_count s < 8 -> (length data <= 1472)%nat ->
  let s' := push_datagram ip port (data ++ rest) (Z.of_nat (length data)) s in inbox_wf s' /\ inbox s' = inbox s ++ [(ip, port, data)].
Proof.
  intros [W1 W2 W3 W4 W5] Hc Hl s'. assert ((if Z.of_nat (length data) <? 1472 then Z.of_nat (length data) else 1472) = Z.of_nat (length data)) as Hcopy
    by (destruct (Z.ltb_spec (Z.of_nat (length data)) 1472); lia).
  unfold s', push_datagram, SOCKET_UDP_PKT_SIZE, SOCKET_UDP_QUEUE_SIZE. cbv zeta. rewrite Hcopy, Nat2Z.id, take_app_length. clear s'.
  set (fill := fun p => mk_pkt _ _ _ _ _). assert (0 <= udp_tail s < 8) as Ht by (rewrite W5; apply Z.mod_pos_bound; lia).
  assert (forall q, length (pkt_data q) = 1472%nat -> datagram (fill q) = (ip, port, data) /\ length (pkt_data (fill q)) = 1472%nat) as Hfill.
  { intros q Hq. unfold fill, datagram. cbn. rewrite Nat2Z.id, length_blit by lia. split; [|done]. f_equal. apply (take_app_length data). }
  split.
  - split; cbn; rewrite ?length_alter; [done| |done|lia|].
    + apply Forall_alter; [done|]. intros q Hq _. split; [apply Hfill; apply (Forall_lookup_1 _ _ _ _ W2 Hq)|]. cbn. lia.
    + rewrite W5, Zplus_mod_idemp_l. f_equal. lia.
  - unfold inbox, SOCKET_UDP_QUEUE_SIZE. cbn. replace (Z.to_nat (udp_count s + 1)) with (S (Z.to_nat (udp_count s))) by lia. rewrite seq_S, fmap_app. f_equal.
    + apply list_fmap_ext. intros i j Hj. apply lookup_seq in Hj as [-> Hj]. rewrite zget_alter by (rewrite ?W1; try apply Z.mod_pos_bound; lia).
      rewrite decide_False; [done|]. rewrite W5. apply slots_ne; lia.
    + cbn. rewrite Z2Nat.id, <- W5 by lia. rewrite zget_alter, decide_True by (rewrite ?W1; (done || lia)).
      f_equal. apply Hfill. apply (Forall_lookup_1 _ _ (Z.to_nat (udp_tail s)) (zget (udp_queue s) (udp_tail s)) W2), zget_lookup. lia.
Qed.

(** Taking the oldest datagram. *)
Lemma udp_recv_pops i len w s ip port data l : sock_at w i = s -> inbox_wf s -> inbox s = (ip, port, data) :: l -> Z.of_nat (length data) <= len ->
  exists w', udp_recv i len w = (w', Some (Z.of_nat (length data), data)) /\
    (0 <= i < Z.of_nat (length (sockets w)) -> inbox (sock_at w' i) = l).
Proof.
  intros Es [W1 W2 W3 W4 W5] Hi Hl. unfold udp_recv. rewrite Es. unfold inbox, SOCKET_UDP_QUEUE_SIZE in Hi. destruct (Z.to_nat (udp_count s)) as [|m] eqn:Em; [done|].
  rewrite (proj2 (Z.eqb_neq _ _)) by lia. cbn [seq] in Hi. rewrite fmap_cons in Hi. injection Hi as _ _ Hdata Hr. rewrite Z.add_0_r, Z.mod_small in Hdata by lia.
  set (q := zget (udp_queue s) (udp_head s)) in *. assert (length (pkt_data q) = 1472%nat /\ 0 <= pkt_len q <= 1472) as [Q1 Q2]
    by (apply (Forall_lookup_1 _ _ (Z.to_nat (udp_head s)) q W2), zget_lookup; lia).
  assert (Z.of_nat (length data) = pkt_len q) as Hq by (rewrite <- Hdata, length_take; lia).
  assert ((if len <? pkt_len q then len else pkt_len q) = pkt_len q) as -> by (destruct (Z.ltb_spec len (pkt_len q)); lia). rewrite Hdata, Hq.
  eexists. split; [reflexivity|]. intros Hh. unfold sock_at, set_sock. cbn. rewrite zget_alter, decide_True by (done || lia). fold (sock_at w i). rewrite Es.
  unfold inbox, SOCKET_UDP_QUEUE_SIZE. cbn. replace (Z.to_nat (udp_count s - 1)) with m by lia. rewrite <- Hr, <- fmap_S_seq, <- list_fmap_compose.
  apply list_fmap_ext. intros k j Hj. cbn. rewrite zget_alter by (rewrite ?W1; try apply Z.mod_pos_bound; lia). rewrite Zplus_mod_idemp_l.
  replace (udp_head s + Z.of_nat (S j)) with (udp_head s + 1 + Z.of_nat j) by lia. by destruct (decide _).
Qed.

Definition udp_frame (dmac smac : list Z) (id src sp dp : Z) (data : list Z) : list Z :=
  eth_frame dmac smac ETHERTYPE_IPV4 (ip_header (28 + Z.of_nat (length data)) id IP_PROTO_UDP src NET_IP ++ udp_packet sp dp data).

(** The header of a datagram that claims [claimed] bytes. *)
Definition udp_head (sp dp claimed : Z) : list Z := le_bytes 2 (htons sp) ++ le_bytes 2 (htons dp) ++ le_bytes 2 (htons claimed) ++ [0; 0].

Lemma carries_prefix p a b rest w : carries p (a ++ b) rest w -> carries p a (b ++ rest) w.
Proof. intros (Hh & Hp & H0 & H1 & H2). rewrite length_app in H1. split; [exact Hh|]. split_and!; [by rewrite Hp, app_assoc|lia..]. Qed.

(** What a header that claims [data] makes of the bytes after it. *)
Lemma udp_accepts p sp dp data rest src w : carries p (udp_head sp dp (8 + Z.of_nat (length data))) (data ++ rest) w ->
  0 <= sp < 65536 -> 0 <= dp < 65536 -> (length data <= 1472)%nat ->
  udp_receive p src w = free_buf p (socket_udp_deliver dp src sp (data ++ rest) (Z.of_nat (length data)) w).
Proof.
  intros Hc Hs Hd Hl. destruct (carries_remaining _ _ _ _ Hc) as (Hrem & Hp). unfold udp_receive. rewrite Hp.
  rewrite (proj2 (Z.ltb_ge _ _)) by exact Hrem. unfold udp_head. rewrite <- !app_assoc.
  change (rd16 ?d 4) with (rd16 (le_bytes 2 (htons (8 + Z.of_nat (length data))) ++ [0; 0] ++ data ++ rest) 0). change (rd16 (le_bytes 2 (htons sp) ++ ?d) 2) with (rd16 d 0).
  unfold rd16. rewrite !rd_le_le_bytes. change (256 ^ Z.of_nat 2) with 65536. rewrite !Z.mod_small by apply htons_range. rewrite !htons_invol by lia.
  rewrite u32_small by lia. replace (8 + Z.of_nat (length data) - 8) with (Z.of_nat (length data)) by lia. done.
Qed.

Lemma sock_lookup w i s : sockets w !! i = Some s -> sock_at w (Z.of_nat i) = s /\ (i < length (sockets w))%nat.
Proof. intros H. pose proof (lookup_lt_Some _ _ _ H). unfold sock_at, zget. rewrite Nat2Z.id. split; [by apply list_lookup_total_correct|done]. Qed.

Lemma sockets_set i f w : sockets (set_sock (Z.of_nat i) f w) = alter f i (sockets w).
Proof. unfold set_sock. cbn. by rewrite Nat2Z.id. Qed.

Lemma sockets_wake_opt q w : sockets (wake_opt q w) = sockets w.
Proof. by destruct q. Qed.

(** A datagram for a bound port with room in its queue. *)
Lemma udp_deliver_spec dp src sp data rest i s w : find_index (takes_port dp) (sockets w) = Some i -> sockets w !! i = Some s -> inbox_wf s ->
  udp_count s < 8 -> (length data <= 1472)%nat ->
  let w' := socket_udp_deliver dp src sp (data ++ rest) (Z.of_nat (length data)) w in
  pools w' = pools w /\ sockets w' = <[i := (push_datagram src sp (data ++ rest) (Z.of_nat (length data)) s) <| s_blocked_reader := None |>]> (sockets w) /\
  forall r, s_blocked_reader s = Some r -> (r < length (procs (ns w)))%nat -> state (proc_at (ns w') r) = PROCESS_READY.
Proof.
  intros Hf Hs Hw Hc Hl. unfold socket_udp_deliver. rewrite Hf. destruct (sock_lookup _ _ _ Hs) as [Es Hi]. rewrite Es.
  unfold SOCKET_UDP_QUEUE_SIZE. rewrite (proj2 (Z.ltb_lt _ _)) by lia. set (g := push_datagram _ _ _ _). set (w1 := set_sock (Z.of_nat i) g w).
  assert (sockets w1 = <[i := g s]> (sockets w)) as Ew1 by (unfold w1; rewrite sockets_set; by apply list_alter_insert_at).
  assert (sock_at w1 (Z.of_nat i) = g s) as Eg by (apply sock_lookup; rewrite Ew1; by apply list_lookup_insert_eq). rewrite Eg. cbv zeta. split_and!.
  - by etrans; [apply pools_wake_opt|].
  - rewrite sockets_set, sockets_wake_opt, Ew1. rewrite (list_alter_insert_at _ _ _ (g s)) by (by apply list_lookup_insert_eq). by rewrite list_insert_insert_eq.
  - intros r Hr Hlt. change (s_blocked_reader (g s)) with (s_blocked_reader s). rewrite Hr. change (ns (set_sock (Z.of_nat i) ?f ?v)) with (ns v).
    change (state (proc_at (wake r (ns w)) r) = PROCESS_READY). rewrite wake_state by done. by rewrite decide_True.
Qed.

(** The whole way up from IPv4. *)
Lemma udp_received p sp dp data rest src i s w : carries p (udp_head sp dp (8 + Z.of_nat (length data))) (data ++ rest) w ->
  0 <= sp < 65536 -> 0 <= dp < 65536 -> (length data <= 1472)%nat ->
  find_index (takes_port dp) (sockets w) = Some i -> sockets w !! i = Some s -> inbox_wf s -> udp_count s < 8 ->
  exists s2, let w' := udp_receive p src w in sock_at w' (Z.of_nat i) = s2 /\ inbox s2 = inbox s ++ [(src, sp, data)] /\ inbox_wf s2 /\
    s_in_use s2 = s_in_use s /\ s_type s2 = s_type s /\ udp_count s2 = udp_count s + 1 /\
    (forall j, j <> i -> sockets w' !! j = sockets w !! j) /\ released p w' /\
    (forall r, s_blocked_reader s = Some r -> (r < length (procs (ns w)))%nat -> state (proc_at (ns w') r) = PROCESS_READY).
Proof.
  intros Hcar Hsp Hdp Hl Hf Hs Hw Hc. rewrite (udp_accepts _ _ _ _ _ _ _ Hcar Hsp Hdp Hl).
  destruct (udp_deliver_spec dp src sp data rest i s w Hf Hs Hw Hc Hl) as (Ep & Es & Er). set (w4 := socket_udp_deliver _ _ _ _ _ w) in *. clearbody w4.
  destruct (inbox_push src sp data rest s Hw Hc Hl) as [Hw' Hin]. set (s1 := push_datagram _ _ _ _ s) in *. destruct (sock_lookup _ _ _ Hs) as [_ Hlt].
  exists (s1 <| s_blocked_reader := None |>). cbv zeta. split_and!; [|exact Hin|destruct Hw'; by split|done|done|done| | |exact Er].
  - apply (sock_lookup w4). rewrite Es. by apply list_lookup_insert_eq.
  - intros j Hj. change (sockets w4 !! j = sockets w !! j). by rewrite Es, list_lookup_insert_ne.
  - apply free_releases. apply (held_pools _ w); [apply Hcar|done].
Qed.


(** The length in a UDP header is trusted: a frame that ends with the header
    but claims [n] bytes of data hands the reader [n] bytes that the receive
    buffer had from an earlier packet. *)
Theorem udp_length_leaks dmac smac id src sp dp n k i s w : length dmac = 6%nat -> length smac = 6%nat ->
  0 <= src < 2 ^ 32 -> 0 <= sp < 65536 -> 0 <= dp < 65536 -> (n <= 1472)%nat ->
  rx_idle k w -> find_index (takes_port dp) (sockets w) = Some i -> sockets w !! i = Some s -> inbox_wf s -> udp_count s < 8 ->
  let frame := eth_frame dmac smac ETHERTYPE_IPV4 (ip_header 28 id IP_PROTO_UDP src NET_IP ++ udp_head sp dp (8 + Z.of_nat n)) in
  exists w', length frame = 42%nat /\ net_worker_step (e1000_rx frame w) = Ret w' tt /\
    inbox (sock_at w' (Z.of_nat i)) = inbox s ++ [(src, sp, take n (drop 42 (nb_data (buf_at (mk_ptr false k) (pools w)))))].
Proof.
  intros Hdm Hsm Hsrc Hsp Hdp Hn Hidle Hf Hs Hw Hc frame. assert (length frame = 42%nat) as Hfl by (unfold frame, eth_frame; rewrite !length_app; cbn; lia).
  pose proof Hidle as (_ & _ & _ & _ & Hold).
  destruct (frame_accepts dmac smac 28 id IP_PROTO_UDP src (udp_head sp dp (8 + Z.of_nat n)) [] k w Hdm Hsm ltac:(done) Hsrc Hidle) as (w3 & E & Hc3 & _ & Esk & _);
    [fold frame; rewrite length_app, Hfl; cbn; lia|]. fold frame in E, Hc3. rewrite app_nil_r in E, Hc3. rewrite Hfl, app_nil_l in Hc3. set (old := nb_data _) in *. clearbody frame.
  change (ip_dispatch IP_PROTO_UDP ?p src w3) with (Ret (udp_receive p src w3) tt) in E. rewrite <- Esk in Hf, Hs.
  assert (length (take n (drop 42 old)) = n) as Hd by (rewrite length_take, length_drop; lia). 
  replace (Z.of_nat n) with (Z.of_nat (length (take n (drop 42 old)))) in Hc3 by lia. rewrite <- (take_drop n (drop 42 old)) in Hc3 at 2. destruct (udp_received _ sp dp _ _ src i s w3 Hc3 Hsp Hdp ltac:(lia) Hf Hs Hw Hc) as (s2 & Ei & Hin & _). eexists. split_and!; [done|exact E|].
  by rewrite Ei.
Qed.

(** ** TCP segments *)

Lemma parse_tcp p c flags data rest pad src w : carries p (tcp_packet c flags data) rest w ->
  remaining (buf_at p (pools w)) = Z.of_nat (length (tcp_packet c flags data) + length pad) ->
  0 <= t_local_port c < 65536 -> 0 <= t_remote_port c < 65536 -> 0 <= snd_nxt c < 2 ^ 32 -> 0 <= rcv_nxt c < 2 ^ 32 -> (length data + length pad <= 2048)%nat ->
  parse_segment src (buf_at p (pools w)) =
    mk_seg src (t_local_port c) (t_remote_port c) (snd_nxt c) (rcv_nxt c) flags (Z.of_nat (length (data ++ pad))) (data ++ rest).
Proof.
  intros Hc Hr H1 H2 H3 H4 Hl. destruct (carries_remaining _ _ _ _ Hc) as (_ & Hp). unfold parse_segment. rewrite Hr, Hp.
  set (ck := tcp_checksum (tcp_head c flags ++ [0; 0] ++ [0; 0] ++ data) (t_local_ip c) (t_remote_ip c)).
  assert (tcp_packet c flags data ++ rest = tcp_head c flags ++ le_bytes 2 ck ++ [0; 0] ++ data ++ rest) as E by (unfold tcp_packet; fold ck; by rewrite <- !app_assoc).
  assert (length (tcp_packet c flags data) = (20 + length data)%nat) as -> by (unfold tcp_packet; rewrite !length_app; done).
  rewrite E. set (tl := le_bytes 2 ck ++ [0; 0] ++ data ++ rest). change (zget (tcp_head c flags ++ tl) 12) with 0x50. change (zget (tcp_head c flags ++ tl) 13) with flags.
  change (u8 (Z.shiftr 0x50 4 * 4)) with 20. unfold tcp_head. rewrite <- !app_assoc. set (t1 := [0x50; flags] ++ _).
  change (rd16 (le_bytes 2 (htons (t_local_port c)) ++ ?d) 2) with (rd16 d 0). change (rd32 (le_bytes 2 (htons (t_local_port c)) ++ le_bytes 2 (htons (t_remote_port c)) ++ ?d) 4) with (rd32 d 0).
  change (rd32 (le_bytes 2 (htons (t_local_port c)) ++ le_bytes 2 (htons (t_remote_port c)) ++ le_bytes 4 (htonl (snd_nxt c)) ++ ?d) 8) with (rd32 d 0).
  unfold rd16, rd32. rewrite !rd_le_le_bytes. change (256 ^ Z.of_nat 2) with 65536. change (256 ^ Z.of_nat 4) with (2 ^ 32).
  rewrite !(Z.mod_small (htons _)) by apply htons_range. rewrite !(Z.mod_small (htonl _)) by (by apply htonl_range). rewrite !htons_invol, !htonl_invol by done.
  rewrite u32_small by lia. f_equal. rewrite length_app. lia.
Qed.

Definition tcp_frame (dmac smac : list Z) (id src : Z) (peer : tcp_connection) (flags : Z) (data : list Z) : list Z :=
  eth_frame dmac smac ETHERTYPE_IPV4 (ip_header (40 + Z.of_nat (length data)) id IP_PROTO_TCP src NET_IP ++ tcp_packet peer flags data).


(** The machine answers a ping: an echo request is answered, to the address
    it came from, with the same message turned into an echo reply, whose
    checksum passes the receiver's check. *)
Theorem ping_answered dmac smac id src c1 c2 body k e w : length dmac = 6%nat -> length smac = 6%nat -> 0 <= src < 2 ^ 32 ->
  (4 <= length body <= 1476)%nat -> Forall byte body -> rx_idle k w -> net_wf w -> card_ready (nic w) -> arp_lookup (next_hop src) (arp_table w) = Some e ->
  let request := [ICMP_ECHO_REQUEST; 0; c1; c2] ++ body in
  exists w' ck id', let reply := [ICMP_ECHO_REPLY; 0] ++ ck ++ body in
    net_worker_step (e1000_rx (eth_frame dmac smac ETHERTYPE_IPV4 (ip_header (20 + Z.of_nat (length request)) id IP_PROTO_ICMP src NET_IP ++ request)) w) = Ret w' tt /\
    wire (nic w') = wire (nic w) ++ [ip_frame (a_mac e) (mac_addr (nic w)) id' IP_PROTO_ICMP src reply] /\
    length ck = 2%nat /\ ip_checksum reply = 0 /\ released (mk_ptr false k) w'.
Proof.
  intros Hdm Hsm Hsrc Hb Hby Hidle Hwf Hcard He request. assert (length request = (4 + length body)%nat) as Hrl by done.
  set (frame := eth_frame _ _ _ _). assert (length frame = (38 + length body)%nat) as Hfl by (unfold frame, eth_frame; rewrite !length_app, Hrl; cbn; lia).
  destruct (frame_accepts dmac smac (20 + Z.of_nat (length request)) id IP_PROTO_ICMP src request [] k w Hdm Hsm ltac:(done) Hsrc Hidle)
    as (w3 & E & Hc3 & R3 & S3); [fold frame; rewrite length_app, Hfl; cbn; lia|]. fold frame in E, Hc3. rewrite app_nil_r in E. rewrite E.
  change (ip_dispatch IP_PROTO_ICMP ?p src w3) with (icmp_receive p src w3). set (p := mk_ptr false k) in *. clearbody frame. clear E.
  destruct (carries_remaining _ _ _ _ Hc3) as (_ & Hp). set (rest := [] ++ _) in Hp. unfold icmp_receive. rewrite Hp, R3. rewrite (proj2 (Z.ltb_ge _ _)) by (cbn; lia).
  assert (take (Z.to_nat (Z.of_nat (length request + length (@nil Z)))) (request ++ rest) = request) as -> by (rewrite Nat.add_0_r, Nat2Z.id; apply take_app_length).
  change (zget (request ++ rest) 0 =? ICMP_ECHO_REQUEST) with true. cbv iota. set (ck := le_bytes 2 (ip_checksum ([0; 0] ++ [0; 0] ++ body))).
  change (icmp_seal (zset request 0 ICMP_ECHO_REPLY)) with ([ICMP_ECHO_REPLY; 0] ++ ck ++ body). set (w4 := w3 <| pools ::= _ |>).
  assert (held p w4) as Hh by (by apply held_set; [apply Hc3|]). destruct S3 as (_ & _ & Earp & Enic & Epkt & _).
  assert (arp_table w4 = arp_table w /\ nic w4 = nic w /\ ip_packet w4 = ip_packet w) as (E1 & E2 & E3) by done. clearbody w4.
  rewrite (ipv4_send_hit _ src IP_PROTO_ICMP w4 e).
  - cbn [bind]. eexists _, ck, (ip_id_counter w4). cbv zeta. split_and!; [reflexivity|by rewrite <- E2|done| |apply free_releases, (held_pools _ w4); done].
    apply (checksum_verifies [0; 0]); [by exists 1%nat|repeat constructor; done|done|cbn; lia].
  - destruct Hwf. split; by rewrite ?E1, ?E2, ?E3.
  - by rewrite E2.
  - by rewrite E1.
  - cbn. lia.
Qed.

(** ** Witnesses

    The small machine with a datagram socket on port 9 in slot 0 and the
    connection of [demo_tcp]. *)

Definition demo_socket : socket := socket_zero <| s_in_use := true |> <| s_type := SOCK_DGRAM |> <| s_bound := true |> <| s_local_port := 9 |>.
Definition demo_stack : world := demo_tcp <| sockets := demo_socket :: replicate 3 socket_zero |>.
Definition demo_mac : list Z := [2; 0; 0; 0; 0; 3].
Definition demo_peer : tcp_connection := conn_zero <| t_local_port := 80 |> <| t_remote_port := 5000 |> <| snd_nxt := 100 |> <| rcv_nxt := 10 |>.

Lemma demo_idle : rx_idle 0 demo_stack.
Proof. split; [split; [done|reflexivity]|]. done. Qed.

Lemma demo_inbox : inbox_wf demo_socket.
Proof. split; [done| |split; [done|reflexivity]|split; done|done]. cbn. repeat (apply Forall_cons; split; [by vm_compute|]). apply Forall_nil. done. Qed.



Lemma udp_length_leaks_witness : exists w' frame, length frame = 42%nat /\ net_worker_step (e1000_rx frame demo_stack) = Ret w' tt /\
  inbox (sock_at w' 0) = [(0x0A000203, 53, replicate 1000 0)].
Proof.
  destruct (udp_length_leaks demo_mac demo_mac 7 0x0A000203 53 9 1000 0 0 demo_socket demo_stack) as (w' & H1 & H2 & H3);
    [done|done|done|done|done|lia|exact demo_idle|done|done|exact demo_inbox|done|]. eexists w', _. split_and!; [exact H1|exact H2|exact H3].
Defined.


Lemma ping_answered_witness : exists w' frame, wire (nic w') = [frame] /\ released (mk_ptr false 0) w'.
Proof.
  destruct (ping_answered demo_mac demo_mac 7 0x0A000203 0 0 [0; 1; 0; 1; 97] 0 (mk_arp 0x0A000203 [2; 0; 0; 0; 0; 3] true 0) demo_stack)
    as (w' & ck & id' & H1 & H2 & _ & _ & H5); [done|done|done|cbn; lia|repeat (apply Forall_cons; split; [done|]); apply Forall_nil; done|exact demo_idle| |done|done|].
  { split; [done|done|repeat (apply Forall_cons; split; [done|]); apply Forall_nil; done|done]. }
  eexists w', _. split; [exact H2|exact H5].
Defined.

End Socket.
